(* ===== verification/_CoqProject ===== *)
-Q . S2P
Prelude.v
Memory.v
Ems.v
EmsTree.v
EmsFree.v
EmsSpec.v
EmsHeap.v
EmsClient.v
EmsMigrate.v
EmsRuns.v
Leb.v
LebSpec.v
Vector.v
VectorSpec.v
HashMap.v
HashMapSpec.v
TeeApi.v
TeeSpec.v
Layout.v
KeyDerivation.v
Attester.v
Verifier.v
VerifierTA.v
TzPlatform.v
LinearMemory.v
Opcode.v
Loader.v
Numeric.v
BlockAddr.v
Interp.v
LoaderSpec.v
Bytecode.v
CheckSpec.v
CheckControl.v
SkipSpec.v
CheckRound.v
CheckRuns.v
Regions.v
FindBlock.v
Labels.v
InterpSpec.v
Exec.v
CheckBounds.v
Sound.v
NumericSpec.v
Safety.v
LoaderRuns.v
Wamr.v
WatzTA2021.v
WatzTA241.v
DebugPrint.v
Host.v
VerifierHost.v
WatzHost2021.v
WatzHost241.v
TeeLogic.v
KeySpec.v
Reliable.v
ToyTEE.v
AttesterSpec.v
VerifierSpec.v
VerifierTASpec.v
VerifierLive.v
HostSpec.v
Protocol.v
TzSpec.v
LinearSpec.v
LinearGrow.v
LinearInit.v
LinearHeap.v
AppSafety.v
DebugSpec.v
WatzSpec.v
NativeSpec.v
WatzHostSpec.v
Runs.v
LiveRuns.v
LinearRuns.v
AppRuns.v
PlatformRuns.v
