(* ===== verification/Prelude.v ===== *)
(** * WaTZ: a verification library

    WaTZ runs WebAssembly applications in Arm TrustZone and attests them to a
    remote party. The repository holds two generations of it
    ([src/wamr/2021/] and [src/wamr/2.4.1/]), each a fork of the WAMR runtime
    with a platform layer for OP-TEE and the programs under
    [product-mini/platforms/linux-trustzone/]. This library models the C code
    that is WaTZ's own, function by function, and of the runtime of the 2.4.1
    version the parts that every application passes through: its heap, its
    linear memory, its loader's check of functions and its interpreter; and it
    proves what they do.

    ** The program and the files that model it

    - The _attester_ ([watz/ta/remote_attestation.c]) runs in the trusted
      application: it connects to a verifier, exchanges ephemeral ECDH keys
      ([msg0], [msg1]), checks the verifier's signature and MAC, sends a quote
      ([msg2]) and decrypts the secret it gets back ([msg3]).
      [Attester.v]; its key derivation, the same code as the verifier's, is in
      [KeyDerivation.v].
    - The _verifier_ ([vedliot_verifier/ta/verifier.c]) is the other end:
      [Verifier.v]. Its trusted application ([vedliot_verifier/ta/main.c])
      keeps one static context and serves five commands: [VerifierTA.v]. Its
      host program ([vedliot_verifier/host/main.c]) is the TCP server in the
      normal world that relays the messages: [VerifierHost.v].
    - The _WaTZ trusted application_ ([watz/ta/main.c], [watz/ta/wasm.c])
      takes bytecode from a buffer shared with the normal world and runs it:
      [WatzTA2021.v] and [WatzTA241.v], over the state and the interface of
      the runtime in [Wamr.v]. Its host programs ([watz/host/main.c]) are
      [WatzHost2021.v] and [WatzHost241.v].
    - The _platform layer_ ([core/shared/platform/linux-trustzone/]) gives
      the runtime its console, memory mappings, clock and byte order:
      [TzPlatform.v].
    - The _heap_ of the runtime ([core/shared/mem-alloc/]), which serves
      [wasm_runtime_malloc] from the pool that the trusted application
      allocates: [Ems.v], over the byte memory of [Memory.v].
    - The _linear memory_ of applications ([core/iwasm/common/wasm_memory.c]
      and the parts of [core/iwasm/interpreter/wasm_runtime.c] that create
      it): a mapping of the trusted operating system with the heap of the
      application inside, [LinearMemory.v].
    - The _loader_ ([core/iwasm/interpreter/wasm_loader.c]) checks the body of
      every function once and rewrites it in place
      ([wasm_loader_prepare_bytecode]): [Loader.v], over the instructions and
      types of [Opcode.v]. [wasm_loader_find_block_addr], with which the
      interpreter finds the ends of blocks at run time, is [BlockAddr.v].
    - The _interpreter_ ([core/iwasm/interpreter/wasm_interp_classic.c])
      executes the rewritten code, without checking any access to code,
      operands, labels, locals or globals: [Interp.v], with the arithmetic of
      its instructions in [Numeric.v]. Its linear memory and its native
      functions are interfaces ([AppMemory], [Natives], with the laws
      [EnvLaws]); the linear memory above implements the first.
    - The _containers and integers_ of the runtime ([core/shared/utils/]):
      vectors in [Vector.v], hash maps in [HashMap.v], and the LEB128 readers
      of the loader and of the interpreter in [Leb.v].
    - The debug output of byte arrays, which three of these parts copy:
      [DebugPrint.v].

    ** How the code is represented

    - [Prelude.v] (this file): bytes, machine integers, C strings, and the
      monad [M] of state and faults. A C function is a computation of [M];
      its result is the returned [TEE_Result] and the contents of the buffers
      it writes through pointers. [UB] is undefined behaviour of the C code,
      which is reached explicitly wherever the code can: reading or writing
      past a buffer, using a handle before it is set, dereferencing NULL, using
      or freeing a block that is freed.
      [Panic] is the fail-stop of the TEE API. [wp] is the logic of proofs.
    - [Layout.v]: the messages are C structures on the wire, so a message is
      the list of its bytes, a member is an offset and a length, and
      [sizeof(size_t)] is a parameter (4 or 8).
    - [TeeApi.v]: the GlobalPlatform TEE API, which OP-TEE implements outside
      this repository, as a class [TEE] of operations on an abstract state,
      any of which may fail or panic. [TeeSpec.v] states what a call that
      reports success has done ([TEE_Spec]), as the standard documents it, in
      terms of the objects, operations and sockets the TEE holds, and the
      algebra of the cryptography ([Crypto]: ECDH commutes, decryption
      inverts encryption). Nothing is assumed about calls that fail.
    - [Host.v]: the normal world: the client API as a class [TEEC], the C
      library, and an environment that decides what arrives, which
      allocations fail and how much a [read] or [write] transfers. [TEEC_Link]
      says that a command the client API reports as done was run by the
      trusted application.
    - The normal world may change shared memory at any time: [shared n] in
      [Wamr.v] is what the [n]-th access reads.

    ** The theorems

    - [TeeLogic.v], [KeySpec.v]: rules for the calls of the TEE, and what the
      two derivation functions compute.
    - [AttesterSpec.v]: a handshake that succeeds has authenticated the
      verifier and derived the keys of the exchange; received data is
      authentic; the receive loop ends; [prepare_msg2] reports success on
      every path.
    - [VerifierSpec.v], [VerifierTASpec.v]: an invariant of the static context
      that every sequence of sessions and commands keeps (by induction over
      the reachable states), and the behaviour of each command in a reachable
      state: keys, signature and MAC of [msg1], appraisal of the quote,
      encryption of the secret, parameter errors. What a command guarantees is
      stated for the case that it reports success.
    - [Reliable.v], [VerifierLive.v]: a TEE that does not run out of resources,
      in which calls with valid arguments neither fail nor panic
      ([TEE_Reliable]; no other theorem assumes it), and liveness of the verifier
      over it: it answers a [msg0], accepts exactly the genuine quotes, and
      returns the secret, whether a quote was appraised or not.
    - [HostSpec.v]: for every behaviour of the network, the host program sends
      the secret only after a quote was appraised; with the built-in secret it
      never serves a connection.
    - [Protocol.v]: attester and verifier composed. Their layouts of [msg0] and
      [msg1] agree exactly where [size_t] has 32 bits: there the two ends agree on
      the keys and on the anchor. With 64 bits, as in the builds for arm64 that
      the repository documents, the verifier does not accept the attester's
      [msg0]. The layout of [msg3] agrees in both cases: between ends that share
      a session key the secret arrives, if all of the message was received.
    - [WatzSpec.v]: the run of a module: what is loaded, the order in which
      the runtime is set up and torn down on every path, and what reaches the
      output buffer, for every run that returns; and, when allocations succeed
      and the output has no conversions of [printf], that a run returns or
      panics. [WatzHostSpec.v]: the host programs. [NativeSpec.v]: the
      native RSA functions of the 2.4.1 version.
    - [TzSpec.v], [DebugSpec.v]: bounds, wrap-around and round trips of the
      platform layer and of the debug output.
    - [EmsTree.v], [EmsFree.v], [EmsSpec.v], [EmsHeap.v]: the tree of large
      free chunks as a search tree, the lists of small ones, the invariant of
      the heap ([heap_inv]), and its preservation by allocation, freeing and
      reallocation that moves. [EmsClient.v]: an abstract allocator that the
      heap refines for every client that uses it properly, and what each
      operation promises. [EmsRuns.v]: a heap that is evaluated, and the
      behaviours that break the invariant: growing in place, double frees.
    - [EmsMigrate.v]: a heap that is moved to another place keeps its
      objects, unless a small chunk is free.
    - [LinearSpec.v]: what the bounds checks let through, and the conversion of
      addresses. [LinearInit.v]: the creation and the release of a memory, on
      every error path. [LinearGrow.v]: [memory.grow]. [LinearHeap.v]: the
      application's heap. All are about one invariant of the memory
      ([memory_ok]) over the mappings of the system, which lie in one area of
      addresses, apart from the structure of the heap. [LinearRuns.v]: a system
      with two mappings on which they are evaluated.
    - [LoaderSpec.v], [Bytecode.v], [CheckSpec.v], [CheckControl.v],
      [CheckRound.v], [CheckRuns.v]: what one round of the checker does with the
      code, the types and the blocks, instruction by instruction, and the runs
      of the checker as a relation on its contexts. [CheckBounds.v]: its limits.
    - [SkipSpec.v], [Regions.v], [FindBlock.v], [Labels.v]: the walk over the
      rewritten code meets the same instructions as the checker, and finds the
      same ends of blocks.
    - [InterpSpec.v], [Exec.v], [Sound.v]: the logic of the interpreter, and an
      invariant of its state, kept by every instruction, that relates each frame
      to a context of the checker: [Sound.step_ok].
    - [Safety.v]: the composition: code that the loader has accepted is executed
      without an access outside of its bounds, under two conditions that the
      loader does not check: the memory indices of [memory.init], [memory.copy]
      and [memory.fill] have one byte, and native functions return at most two
      cells. [NumericSpec.v]: the loops of the
      integer instructions compute what they mean. [LoaderRuns.v]: functions that
      are loaded and executed, and inputs on which loader and interpreter do not
      agree.
    - [AppSafety.v]: the linear memory keeps the laws that the interpreter asks
      of it ([linear_env_laws]), and the life of an application from the creation
      of its memory over any calls to its release. [AppRuns.v]: such a life.
    - [LebSpec.v]: the loader accepts exactly the integers of the format, the
      interpreter agrees with it, and encoding round-trips.
    - [VectorSpec.v], [HashMapSpec.v]: a vector refines a list, a hash map a
      finite map.
    - [ToyTEE.v], [Runs.v], [LiveRuns.v], [PlatformRuns.v]: an executable TEE, runtime and
      client library that satisfy the specifications, on which whole sessions
      are evaluated. They show that the hypotheses of the theorems hold
      together, and exhibit the behaviours that deserve a change of the code.

    ** Bounds

    Loops that are not structural get fuel. [receive_loop] gets one round per byte of
    the buffer: a round that receives nothing ends the loop, so
    [AttesterSpec.receive_terminates] proves that the bound is never met.
    [print_lines] gets one round per byte of the array, and each round prints
    at least one. In the heap, walks of the tree get one round more than there
    are nodes ([tree_fuel]), walks of a list more rounds than the pool has
    bytes ([list_fuel]), and [remove_tree_node] 2, because its recursive call
    removes a node with at most one child; running out is a fault, and the
    theorems prove that the operations return. [check_loop] gets two rounds per
    byte of the function, because the [end] of an [if] may be read twice;
    running out is a result of its own, different from a rejection, and
    [Safety.loader_terminates] proves that it does not occur;
    [find_loop] gets one round per byte, and [Safety.find_block_addr_correct]
    proves that it returns. The loops of [clz], [ctz] and [popcount] get one
    round per bit. [run] executes as many instructions as it is given, because a
    function may run forever; the theorem about it holds for every number.
    Integers are [Z] with their wrap-around written out: [wrap32] for [uint32_t]
    and [wrap_size] for [size_t].

    ** The build that is modelled

    [DEBUG_MESSAGE], [PROFILING_*] and [FRIEDRICH_DEBUG] are off; [NO_COPY]
    and [FRIEDRICH_OPENSSL] are variables of [WatzTA241.v]. The trusted
    applications log at the default level: the text of the log is no result,
    but the format string an application's output becomes is modelled
    ([TzPlatform.os_printf]). [dprintf] of the verifier's host program prints
    nothing, as for a log level below 3. The runtime has the classic interpreter,
    reference types and bulk memory operations, and no SIMD, threads, tail calls,
    exceptions, garbage collection, multiple memories or memories of 64 bits.

    ** What is not modelled

    Of the WAMR core, the parser of module sections, the instantiation of
    modules apart from their memory, the AOT runtime, the fast interpreter, WASI
    and the 2021 copy of the core are left out: they are upstream code that the
    trusted applications reach through the interface [WAMR]. The checker is
    modelled without the text of its errors and without failures to allocate
    its tables; the interpreter without native functions that call back into it
    and without the check of the native stack. Of
    the heap, the statistics and the builds with
    garbage collection or verification are left out. OP-TEE, its client library and the
    attestation service are not in the repository and are interfaces too;
    [attestation.h], which declares [ra_quote], is outside it, and its layout
    is a parameter ([Platform]). The system calls of the platform layer that
    only log and return an error, its thread and signal stubs, [os_realloc]
    and [tz_string.c] are left out, as are the benchmarks.
    Concurrency between sessions does not arise: the headers of the trusted
    applications ([user_ta_header_defines.h]) set neither
    [TA_FLAG_SINGLE_INSTANCE] nor [TA_FLAG_MULTI_SESSION], so that OP-TEE gives
    every session an instance of its own, with its own static context, and an
    instance runs one call at a time. The theorems about the verifier's
    application hold for every sequence of sessions on one instance, also those
    that this configuration does not produce. *)

From Stdlib Require Export ZArith Lia.
From Stdlib Require Export Strings.Byte.
From stdpp Require Export prelude base list list_numbers numbers gmap.

#[global] Open Scope Z_scope.

(** ** Notations *)

Declare Scope watz_scope.
Delimit Scope watz_scope with watz.

Abbreviation bytes := (list byte).

Notation "l '.[' off ',+' n ']'" := (take n (drop off l))
  (at level 1, off at level 60, n at level 60, format "l .[ off ,+ n ]") : watz_scope.

#[global] Open Scope watz_scope.

(** The length of a buffer as the C code counts it. *)
Abbreviation zlen l := (Z.of_nat (length l)).

#[export] Instance byte_eq_dec : EqDecision byte := Byte.byte_eq_dec.

(** ** Machine integers *)

Definition wrap32 (z : Z) : Z := z mod 2 ^ 32.

(** [size_t] arithmetic for a [sizeof(size_t)] of [w] bytes. *)
Definition wrap_size (w : nat) (z : Z) : Z := z mod 2 ^ (8 * Z.of_nat w).

Definition Z_of_byte (b : byte) : Z := Z.of_N (Byte.to_N b).

Definition byte_of_Z (z : Z) : byte :=
  match Byte.of_N (Z.to_N (z mod 256)) with
  | Some b => b
  | None => Byte.x00
  end.

(** Little-endian object representation of an unsigned integer of [n] bytes. *)
Fixpoint le_encode (n : nat) (z : Z) : bytes :=
  match n with
  | O => []
  | S n => byte_of_Z z :: le_encode n (z / 256)
  end.

Fixpoint le_decode (l : bytes) : Z :=
  match l with
  | [] => 0
  | b :: l => Z_of_byte b + 256 * le_decode l
  end.

Definition zeros (n : nat) : bytes := replicate n Byte.x00.

(** [memmove(dst + off, src, length src)] on the object representation of
    the destination. The callers check that the write is in bounds. *)
Definition splice (off : nat) (src dst : bytes) : bytes :=
  take off dst ++ src ++ drop (off + length src) dst.

(** ** C strings *)

(** The bytes before the first NUL; [None] when there is none to stop at. *)
Fixpoint c_string (b : bytes) : option bytes :=
  match b with
  | [] => None
  | x :: b => if decide (x = Byte.x00) then Some [] else cons x <$> c_string b
  end.

(** The bytes before the first NUL of a bounded buffer. *)
Fixpoint until_nul (b : bytes) : bytes :=
  match b with
  | [] => []
  | x :: b => if decide (x = Byte.x00) then [] else x :: until_nul b
  end.

(** A lower-case hexadecimal digit. *)
Definition hex_digit (d : Z) : byte := byte_of_Z (if d <? 10 then 48 + d else 87 + d).

(** ** Generic lemmas on byte buffers *)

Create HintDb watz.

Lemma Z_of_byte_of_Z z : Z_of_byte (byte_of_Z z) = z mod 256.
Proof.
  unfold Z_of_byte, byte_of_Z.
  pose proof (Z.mod_pos_bound z 256 ltac:(lia)) as Hb.
  destruct (Byte.of_N (Z.to_N (z mod 256))) as [b|] eqn:E.
  - apply Byte.to_of_N in E. rewrite E. lia.
  - apply Byte.of_N_None_iff in E. lia.
Qed.

Lemma byte_of_Z_of_byte b : byte_of_Z (Z_of_byte b) = b.
Proof. by destruct b. Qed.

Lemma Z_of_byte_range b : 0 <= Z_of_byte b < 256.
Proof. unfold Z_of_byte. pose proof (Byte.to_N_bounded b). lia. Qed.

Lemma length_le_encode n z : length (le_encode n z) = n.
Proof. revert z; induction n as [|n IH]; intros z; simpl; [done|by rewrite IH]. Qed.

Lemma le_decode_encode n z :
  le_decode (le_encode n z) = z mod 2 ^ (8 * Z.of_nat n).
Proof.
  revert z; induction n as [|n IH]; intros z; cbn [le_encode le_decode].
  - by rewrite Z.mod_1_r.
  - rewrite IH, Z_of_byte_of_Z, Nat2Z.inj_succ.
    replace (8 * Z.succ (Z.of_nat n)) with (8 + 8 * Z.of_nat n) by lia.
    rewrite Z.pow_add_r by lia. change (2 ^ 8) with 256.
    rewrite Z.rem_mul_r by lia. lia.
Qed.

Lemma le_decode_range l : 0 <= le_decode l < 2 ^ (8 * zlen l).
Proof.
  induction l as [|b l IH]; cbn [le_decode length].
  - simpl. lia.
  - rewrite Nat2Z.inj_succ.
    replace (8 * Z.succ (zlen l)) with (8 + 8 * zlen l) by lia.
    rewrite Z.pow_add_r by lia. change (2 ^ 8) with 256.
    pose proof (Z_of_byte_range b). lia.
Qed.

Lemma le_decode_app l1 l2 :
  le_decode (l1 ++ l2) = le_decode l1 + 2 ^ (8 * zlen l1) * le_decode l2.
Proof.
  induction l1 as [|b l1 IH]; [cbn [le_decode app]; simpl (2 ^ _); lia|].
  cbn [le_decode length app]. rewrite IH, Nat2Z.inj_succ.
  replace (8 * Z.succ (zlen l1)) with (8 + 8 * zlen l1) by lia.
  rewrite Z.pow_add_r by lia. change (2 ^ 8) with 256. lia.
Qed.

Lemma le_encode_decode l : le_encode (length l) (le_decode l) = l.
Proof.
  induction l as [|b l IH]; cbn [le_decode length le_encode]; [done|].
  pose proof (Z_of_byte_range b).
  f_equal.
  - rewrite <- (byte_of_Z_of_byte b) at 2. unfold byte_of_Z.
    by rewrite Z.mul_comm, Z_mod_plus_full.
  - rewrite Z.mul_comm, Z.div_add by lia.
    rewrite (Z.div_small (Z_of_byte b)) by lia. by rewrite Z.add_0_l.
Qed.

Lemma length_zeros n : length (zeros n) = n.
Proof. apply length_replicate. Qed.

Lemma length_splice off src dst :
  (off + length src <= length dst)%nat -> length (splice off src dst) = length dst.
Proof.
  intros H. unfold splice.
  rewrite !length_app, length_take, length_drop. lia.
Qed.

Lemma slice_splice_same off src dst :
  (off + length src <= length dst)%nat ->
  (splice off src dst).[off,+length src] = src.
Proof.
  intros H. unfold splice.
  rewrite drop_app_length' by (rewrite length_take; lia).
  by rewrite take_app_length.
Qed.

Lemma slice_splice_prefix off src dst n :
  (off + length src <= length dst)%nat -> (n <= length src)%nat ->
  (splice off src dst).[off,+n] = take n src.
Proof.
  intros H Hn. unfold splice.
  rewrite drop_app_length' by (rewrite length_take; lia).
  by rewrite take_app_le by lia.
Qed.

Lemma slice_splice_before off src dst o n :
  (o + n <= off)%nat -> (off <= length dst)%nat ->
  (splice off src dst).[o,+n] = dst.[o,+n].
Proof.
  intros H Hl. unfold splice.
  rewrite drop_app_le by (rewrite length_take; lia).
  rewrite take_app_le by (rewrite length_drop, length_take; lia).
  rewrite !take_drop_commute, take_take. do 2 f_equal. lia.
Qed.

Lemma slice_splice_after off src dst o n :
  (off + length src <= o)%nat -> (off + length src <= length dst)%nat ->
  (splice off src dst).[o,+n] = dst.[o,+n].
Proof.
  intros H Hl. unfold splice.
  rewrite app_assoc.
  rewrite drop_app_ge by (rewrite length_app, length_take; lia).
  rewrite length_app, length_take, drop_drop. do 2 f_equal. lia.
Qed.

(** Two pieces written one after the other. *)
Lemma splice_splice_next off (d e dst : bytes) :
  (off + length d <= length dst)%nat ->
  splice (off + length d) e (splice off d dst) = splice off (d ++ e) dst.
Proof.
  intros H. unfold splice. rewrite (app_assoc (take off dst)).
  set (p := take off dst ++ d).
  assert (length p = off + length d)%nat as Hp
    by (unfold p; rewrite length_app, length_take; lia).
  rewrite take_app_le, take_ge by lia. rewrite drop_app_ge by lia.
  rewrite drop_drop, Hp, length_app. unfold p. rewrite <- !app_assoc.
  do 4 f_equal. lia.
Qed.

Lemma length_slice (l : bytes) off n :
  (off + n <= length l)%nat -> length (l.[off,+n]) = n.
Proof. intros H. rewrite length_take, length_drop. lia. Qed.

Create Rewrite HintDb watz_len.
#[export] Hint Rewrite length_zeros length_le_encode @length_app @length_take
  @length_drop @length_replicate : watz_len.

(** Closes goals about the lengths of spliced and sliced buffers. *)
Ltac len_solve :=
  repeat (rewrite length_splice by len_solve);
  autorewrite with watz_len; simpl length; try lia.

(** ** The execution monad

    A C function of the trusted application runs on a state [S]. It returns
    a value and the new state, or the execution stops: [Panic] is the
    fail-stop of the TEE internal API (the TA is killed), [UB] is undefined
    behaviour of the C code itself (an out-of-bounds access, the use of an
    indeterminate variable, a NULL dereference), and [OutOfFuel] only marks
    a loop that did not finish within its bound. *)

Inductive fault :=
| Panic
| UB
| OutOfFuel.

Inductive outcome (A : Type) :=
| Ret (a : A)
| Fault (f : fault).

Arguments Ret {A} a.
Arguments Fault {A} f.

Definition M (S A : Type) : Type := S -> outcome (A * S).

#[export] Instance M_ret S : MRet (M S) := fun A a s => Ret (a, s).

#[export] Instance M_bind S : MBind (M S) := fun A B k m s =>
  match m s with
  | Ret (a, s') => k a s'
  | Fault f => Fault f
  end.

Definition fail {S A} (f : fault) : M S A := fun _ => Fault f.
Definition undefined {S A} : M S A := fail UB.
Definition gets {S A} (f : S -> A) : M S A := fun s => Ret (f s, s).
Definition modify {S} (f : S -> S) : M S () := fun s => Ret (tt, f s).

(** A pointer or an out parameter that must be determined before its use. *)
Definition get_some {S A} (o : option A) : M S A :=
  match o with
  | Some a => mret a
  | None => undefined
  end.

Definition require {S} (b : bool) : M S () := if b then mret tt else undefined.

(** ** Weakest preconditions

    [wp E m Q s]: running [m] from [s] either returns and satisfies [Q], or
    stops with a fault that [E] tolerates. *)

Definition wp {S A} (E : fault -> Prop) (m : M S A) (Q : A -> S -> Prop) (s : S) : Prop :=
  match m s with
  | Ret (a, s') => Q a s'
  | Fault f => E f
  end.

(** Partial correctness tolerates every fault; total correctness none. *)
Definition any_fault (f : fault) : Prop := True.
Definition no_fault (f : fault) : Prop := False.

(** A failing system call stops the application; nothing else does. *)
Definition only_panic (f : fault) : Prop := f = Panic.

Section wp_rules.
Context {S : Type} (E : fault -> Prop).
Implicit Types s : S.

Lemma wp_ret {A} (a : A) Q s : Q a s -> wp E (mret a) Q s.
Proof. done. Qed.

Lemma wp_bind {A B} (m : M S A) (k : A -> M S B) Q s :
  wp E m (fun a => wp E (k a) Q) s -> wp E (m ≫= k) Q s.
Proof. unfold wp, mbind, M_bind. by destruct (m s) as [[a s']|f]. Qed.

Lemma wp_mono {A} (m : M S A) (P Q : A -> S -> Prop) s :
  wp E m P s -> (forall a s', P a s' -> Q a s') -> wp E m Q s.
Proof. unfold wp. destruct (m s) as [[a s']|f]; auto. Qed.

Lemma wp_conj {A} (m : M S A) (P Q : A -> S -> Prop) s :
  wp E m P s -> wp E m Q s -> wp E m (fun a s' => P a s' /\ Q a s') s.
Proof. unfold wp. destruct (m s) as [[a s']|f]; auto. Qed.

Lemma wp_gets {A} (f : S -> A) Q s : Q (f s) s -> wp E (gets f) Q s.
Proof. done. Qed.

Lemma wp_modify (f : S -> S) Q s : Q tt (f s) -> wp E (modify f) Q s.
Proof. done. Qed.

Lemma wp_get_some {A} (o : option A) Q s :
  (forall a, o = Some a -> Q a s) -> (o = None -> E UB) -> wp E (get_some o) Q s.
Proof. destruct o; intros H1 H2; [by apply H1|by apply H2]. Qed.

Lemma wp_require b Q s : (b = true -> Q tt s) -> (b = false -> E UB) -> wp E (require b) Q s.
Proof. destruct b; intros H1 H2; [by apply H1|by apply H2]. Qed.

(** A fault-free run, spelled out. *)
Lemma wp_ret_inv {A} (m : M S A) Q s a s' :
  wp E m Q s -> m s = Ret (a, s') -> Q a s'.
Proof. unfold wp. intros H Hm. by rewrite Hm in H. Qed.
End wp_rules.

Lemma wp_total {S A} (m : M S A) Q (s : S) :
  wp no_fault m Q s <-> exists a s', m s = Ret (a, s') /\ Q a s'.
Proof.
  unfold wp, no_fault. split.
  - destruct (m s) as [[a s']|f]; [eauto|done].
  - by intros (a & s' & -> & HQ).
Qed.

Lemma wp_fault_weaken {S A} (E E' : fault -> Prop) (m : M S A) Q (s : S) :
  (forall f, E f -> E' f) -> wp E m Q s -> wp E' m Q s.
Proof. unfold wp. destruct (m s) as [[a s']|f]; auto. Qed.
