(* ===== verification/Memory.v ===== *)
(** * Byte-addressed memory

    The memory in which the heap of the WebAssembly runtime lives: a byte for
    every address, with the accesses of the C code to 32-bit words and to
    ranges of bytes. *)

From S2P Require Import Prelude.

Definition memory := Z -> byte.

Definition load32 (m : memory) (a : Z) : Z := le_decode [m a; m (a + 1); m (a + 2); m (a + 3)].

(** A range of addresses. *)
Definition within (a n x : Z) : bool := (a <=? x) && (x <? a + n).

Definition store32 (a v : Z) (m : memory) : memory := fun x =>
  if within a 4 x then default Byte.x00 (le_encode 4 v !! Z.to_nat (x - a)) else m x.

Definition memset (a : Z) (v : byte) (n : Z) (m : memory) : memory := fun x =>
  if within a n x then v else m x.

Definition memcpy (dst src n : Z) (m : memory) : memory := fun x =>
  if within dst n x then m (src + (x - dst)) else m x.

(** The value of a 32-bit word as a signed integer. *)
Definition signed32 (z : Z) : Z := if z <? 2 ^ 31 then z else z - 2 ^ 32.

(** ** Lemmas *)

(** Two memories that agree on a range. *)
Definition agree (m m' : memory) (a b : Z) : Prop := forall x, a <= x < b -> m' x = m x.

Lemma agree_refl m a b : agree m m a b.
Proof. by intros x. Qed.

Lemma agree_trans m1 m2 m3 a b : agree m1 m2 a b -> agree m2 m3 a b -> agree m1 m3 a b.
Proof. intros H1 H2 x Hx. by rewrite H2, H1. Qed.

Lemma agree_weaken m m' a b a' b' : agree m m' a b -> a <= a' -> b' <= b -> agree m m' a' b'.
Proof. intros H Ha Hb x Hx. apply H. lia. Qed.

Lemma load32_agree m m' a b c : agree m m' b c -> b <= a -> a + 4 <= c -> load32 m' a = load32 m a.
Proof. intros H Hb Hc. unfold load32. by rewrite !H by lia. Qed.

Lemma within_spec a n x : BoolSpec (a <= x < a + n) (~ a <= x < a + n) (within a n x).
Proof.
  unfold within. destruct (Z.leb_spec a x), (Z.ltb_spec x (a + n)); simpl; constructor; lia.
Qed.

Lemma load32_store32_same m a v : load32 (store32 a v m) a = v mod 2 ^ 32.
Proof.
  change (2 ^ 32) with (2 ^ (8 * Z.of_nat 4)). rewrite <- le_decode_encode.
  unfold load32, store32.
  destruct (within_spec a 4 a); [|lia]. destruct (within_spec a 4 (a + 1)); [|lia].
  destruct (within_spec a 4 (a + 2)); [|lia]. destruct (within_spec a 4 (a + 3)); [|lia].
  replace (a - a) with 0 by lia. replace (a + 1 - a) with 1 by lia.
  replace (a + 2 - a) with 2 by lia. by replace (a + 3 - a) with 3 by lia.
Qed.

Lemma store32_agree m a v b c : c <= a \/ a + 4 <= b -> agree m (store32 a v m) b c.
Proof. intros H x Hx. unfold store32. destruct (within_spec a 4 x); [lia|done]. Qed.

Lemma load32_store32_other m a v b :
  b + 4 <= a \/ a + 4 <= b -> load32 (store32 a v m) b = load32 m b.
Proof. intros H. apply (load32_agree _ _ _ b (b + 4)); [|lia..]. by apply store32_agree. Qed.

Lemma memset_agree m a v n b c : c <= a \/ a + n <= b -> agree m (memset a v n m) b c.
Proof. intros H x Hx. unfold memset. destruct (within_spec a n x); [lia|done]. Qed.

Lemma memcpy_agree m a s n b c : c <= a \/ a + n <= b -> agree m (memcpy a s n m) b c.
Proof. intros H x Hx. unfold memcpy. destruct (within_spec a n x); [lia|done]. Qed.

Lemma load32_range m a : 0 <= load32 m a < 2 ^ 32.
Proof. unfold load32. apply le_decode_range. Qed.

Lemma load32_memset_zero m a n b : a <= b -> b + 4 <= a + n -> load32 (memset a Byte.x00 n m) b = 0.
Proof.
  intros H1 H2. unfold load32, memset.
  destruct (within_spec a n b); [|lia]. destruct (within_spec a n (b + 1)); [|lia].
  destruct (within_spec a n (b + 2)); [|lia]. by destruct (within_spec a n (b + 3)); [|lia].
Qed.
