(* ===== verification/Ems.v ===== *)
(** * The heap of the WebAssembly runtime

    [core/shared/mem-alloc/ems]: the allocator behind [wasm_runtime_malloc]
    when the runtime is given a memory pool, as WaTZ does. The pool is cut into
    consecutive chunks (heap memory units); each starts with a header word, and
    a free chunk ends with a word that repeats its size. Free chunks of less
    than 248 bytes are in one linked list per size, larger ones in a binary
    search tree.

    The model follows the build of the trusted application: corruption checks
    are compiled in, heap verification and garbage collection are not. A
    pointer is its address and 0 is NULL. The header, the link and the trailing
    size of a chunk are words of the pool's bytes; the fields of a tree node
    are a record found at the address of the node. The trusted application has
    one thread and its mutexes do nothing ([tz_thread.c]), so they are left
    out, and so are assertions, which a release build does not evaluate. *)

From S2P Require Import Prelude Memory.

(** ** Bits of a word *)

Definition SETBIT (v offset : Z) : Z := Z.lor v (Z.shiftl 1 offset).
Definition GETBIT (v offset : Z) : bool := negb (Z.land v (Z.shiftl 1 offset) =? 0).
Definition CLRBIT (v offset : Z) : Z := Z.ldiff v (Z.shiftl 1 offset).
Definition SETBITS (v offset size value : Z) : Z :=
  Z.lor (Z.ldiff v (Z.shiftl (Z.shiftl 1 size - 1) offset)) (wrap32 (Z.shiftl value offset)).
Definition GETBITS (v offset size : Z) : Z :=
  Z.shiftr (Z.land v (Z.shiftl (Z.shiftl 1 size - 1) offset)) offset.

(** ** Headers *)

Definition HMU_WO : Z := 3.
Definition HMU_VO : Z := 2.
Definition HMU_FC : Z := 1.

Definition HMU_UT_SIZE : Z := 2.
Definition HMU_UT_OFFSET : Z := 30.
Definition HMU_P_OFFSET : Z := 29.
Definition HMU_VO_FB_OFFSET : Z := 28.
Definition HMU_SIZE_SIZE : Z := 27.
Definition HMU_SIZE_OFFSET : Z := 0.

Definition hmu_get_ut (h : Z) : Z := GETBITS h HMU_UT_OFFSET HMU_UT_SIZE.
Definition hmu_set_ut (type h : Z) : Z := SETBITS h HMU_UT_OFFSET HMU_UT_SIZE type.
Definition hmu_mark_pinuse (h : Z) : Z := SETBIT h HMU_P_OFFSET.
Definition hmu_unmark_pinuse (h : Z) : Z := CLRBIT h HMU_P_OFFSET.
Definition hmu_get_pinuse (h : Z) : bool := GETBIT h HMU_P_OFFSET.
Definition hmu_is_vo_freed (h : Z) : bool := GETBIT h HMU_VO_FB_OFFSET.
Definition hmu_unfree_vo (h : Z) : Z := CLRBIT h HMU_VO_FB_OFFSET.
Definition hmu_get_size (h : Z) : Z := Z.shiftl (GETBITS h HMU_SIZE_OFFSET HMU_SIZE_SIZE) 3.
Definition hmu_set_size (size h : Z) : Z :=
  SETBITS h HMU_SIZE_OFFSET HMU_SIZE_SIZE (Z.shiftr size 3).

Definition HMU_SIZE : Z := 4.
Definition hmu_to_obj (hmu : Z) : Z := hmu + HMU_SIZE.
Definition obj_to_hmu (obj : Z) : Z := obj - HMU_SIZE.

Definition GC_ALIGN_8 (s : Z) : Z := Z.ldiff (wrap32 (wrap32 s + 7)) 7.
Definition GC_SMALLEST_SIZE : Z := GC_ALIGN_8 (HMU_SIZE + 8).
Definition GC_HEAD_PADDING : Z := 4.
Definition APP_HEAP_SIZE_MIN : Z := 256.
Definition HMU_NORMAL_NODE_CNT : nat := 32.
Definition HMU_FC_NORMAL_MAX_SIZE : Z := Z.shiftl (Z.of_nat HMU_NORMAL_NODE_CNT - 1) 3.
Definition HMU_IS_FC_NORMAL (size : Z) : bool := size <? HMU_FC_NORMAL_MAX_SIZE.

Definition GC_SUCCESS : Z := 0.
Definition GC_ERROR : Z := -1.

(** ** State *)

(** [hmu_tree_node_t] without its header, which is a word of the pool. *)
Record hmu_tree_node := TreeNode {
  left : Z;
  right : Z;
  parent : Z;
  node_size : Z
}.

(** [gc_heap_t] with the memory it manages. *)
Record gc_heap := GcHeap {
  base_addr : Z;
  current_size : Z;
  kfc_normal_list : list Z;
  kfc_tree_root : Z;
  tree_nodes : gmap Z hmu_tree_node;
  is_heap_corrupted : bool;
  highmark_size : Z;
  total_free_size : Z;
  mem : memory
}.

Definition set_left (v : Z) (n : hmu_tree_node) : hmu_tree_node :=
  TreeNode v (right n) (parent n) (node_size n).
Definition set_right (v : Z) (n : hmu_tree_node) : hmu_tree_node :=
  TreeNode (left n) v (parent n) (node_size n).
Definition set_parent (v : Z) (n : hmu_tree_node) : hmu_tree_node :=
  TreeNode (left n) (right n) v (node_size n).
Definition unlinked (n : hmu_tree_node) : hmu_tree_node := TreeNode 0 0 0 (node_size n).

Definition set_base_addr (v : Z) (h : gc_heap) : gc_heap :=
  GcHeap v (current_size h) (kfc_normal_list h) (kfc_tree_root h) (tree_nodes h)
    (is_heap_corrupted h) (highmark_size h) (total_free_size h) (mem h).
Definition set_kfc_normal_list (v : list Z) (h : gc_heap) : gc_heap :=
  GcHeap (base_addr h) (current_size h) v (kfc_tree_root h) (tree_nodes h) (is_heap_corrupted h)
    (highmark_size h) (total_free_size h) (mem h).
Definition set_tree_nodes (v : gmap Z hmu_tree_node) (h : gc_heap) : gc_heap :=
  GcHeap (base_addr h) (current_size h) (kfc_normal_list h) (kfc_tree_root h) v
    (is_heap_corrupted h) (highmark_size h) (total_free_size h) (mem h).
Definition set_corrupted (h : gc_heap) : gc_heap :=
  GcHeap (base_addr h) (current_size h) (kfc_normal_list h) (kfc_tree_root h) (tree_nodes h) true
    (highmark_size h) (total_free_size h) (mem h).
Definition set_highmark_size (v : Z) (h : gc_heap) : gc_heap :=
  GcHeap (base_addr h) (current_size h) (kfc_normal_list h) (kfc_tree_root h) (tree_nodes h)
    (is_heap_corrupted h) v (total_free_size h) (mem h).
Definition set_total_free_size (v : Z) (h : gc_heap) : gc_heap :=
  GcHeap (base_addr h) (current_size h) (kfc_normal_list h) (kfc_tree_root h) (tree_nodes h)
    (is_heap_corrupted h) (highmark_size h) v (mem h).
Definition set_mem (v : memory) (h : gc_heap) : gc_heap :=
  GcHeap (base_addr h) (current_size h) (kfc_normal_list h) (kfc_tree_root h) (tree_nodes h)
    (is_heap_corrupted h) (highmark_size h) (total_free_size h) v.

(** ** Access to the memory *)

Abbreviation H := (M gc_heap).

Definition heap_state : H gc_heap := gets id.
Definition header (hmu : Z) : H Z := gets (fun h => load32 (mem h) hmu).
Definition update_mem (f : memory -> memory) : H () := modify (fun h => set_mem (f (mem h)) h).
Definition update_header (hmu : Z) (f : Z -> Z) : H () :=
  update_mem (fun m => store32 hmu (f (load32 m hmu)) m).

(** The fields of the node at an address; a node that was never one is not
    read. *)
Definition node (p : Z) : H hmu_tree_node := h ← heap_state; get_some (tree_nodes h !! p).
Definition set_node (p : Z) (n : hmu_tree_node) : H () :=
  modify (fun h => set_tree_nodes (<[p := n]> (tree_nodes h)) h).
Definition update_node (p : Z) (f : hmu_tree_node -> hmu_tree_node) : H () :=
  n ← node p; set_node p (f n).

Definition get_hmu_normal_node_next (node : Z) : H Z :=
  h ← heap_state;
  let next_offset := signed32 (load32 (mem h) (node + HMU_SIZE)) in
  mret (if next_offset =? 0 then 0 else node + next_offset).

Definition set_hmu_normal_node_next (node next : Z) : H () :=
  update_mem (store32 (node + HMU_SIZE) (if next =? 0 then 0 else wrap32 (next - node))).

(** [heap->kfc_normal_list[idx].next] *)
Definition normal_head (idx : Z) : H Z :=
  h ← heap_state; get_some (kfc_normal_list h !! Z.to_nat idx).
Definition set_normal_head (idx p : Z) : H () :=
  modify (fun h => set_kfc_normal_list (<[Z.to_nat idx := p]> (kfc_normal_list h)) h).

Definition hmu_is_in_heap (hmu heap_base_addr heap_end_addr : Z) : bool :=
  (heap_base_addr <=? hmu) && (hmu <? heap_end_addr).

(** The corruption check on a pointer into the pool. *)
Definition in_heap (h : gc_heap) (p : Z) : bool :=
  hmu_is_in_heap p (base_addr h) (base_addr h + current_size h).

(** [heap->is_heap_corrupted = true; return ...] *)
Definition corrupted {A} (a : A) : H A := modify set_corrupted;; mret a.

(** ** The tree of large free chunks *)

(** The rightmost node below [q]; [None] when a pointer leaves the heap. *)
Fixpoint rightmost (fuel : nat) (q : Z) : H (option Z) :=
  match fuel with
  | O => fail OutOfFuel
  | S fuel =>
      nq ← node q;
      if right nq =? 0 then mret (Some q) else
      let q := right nq in
      h ← heap_state;
      if negb (in_heap h q) then mret None else
      rightmost fuel q
  end.

(** More than the nodes of any path. *)
Definition tree_fuel (h : gc_heap) : nat := S (size (tree_nodes h)).

(** The recursive call removes a node that has no right child, which does
    not recurse: a fuel of 2 is enough. *)
Fixpoint remove_tree_node (fuel : nat) (p : Z) : H bool :=
  match fuel with
  | O => fail OutOfFuel
  | S fuel =>
      h ← heap_state;
      let root := kfc_tree_root h in
      np ← node p;
      if (parent np =? 0) || (p =? root) || negb (in_heap h p)
         || (negb (parent np =? root) && negb (in_heap h (parent np)))
      then corrupted false else
      pp ← node (parent np);
      let slot := parent np in
      if negb (p =? right pp) && negb (p =? left pp) then corrupted false else
      let set_slot := if p =? right pp then set_right else set_left in
      if left np =? 0 then
        update_node slot (set_slot (right np));;
        np ← node p;
        if right np =? 0 then update_node p unlinked;; mret true else
        if negb (in_heap h (right np)) then corrupted false else
        update_node (right np) (set_parent (parent np));;
        update_node p unlinked;;
        mret true
      else if right np =? 0 then
        update_node slot (set_slot (left np));;
        np ← node p;
        if negb (in_heap h (left np)) then corrupted false else
        update_node (left np) (set_parent (parent np));;
        update_node p unlinked;;
        mret true
      else
        if negb (in_heap h (left np)) then corrupted false else
        q ← rightmost (tree_fuel h) (left np);
        match q with
        | None => corrupted false
        | Some q =>
            ok ← remove_tree_node fuel q;
            if negb ok then mret false else
            update_node slot (set_slot q);;
            np ← node p;
            update_node q (fun nq => TreeNode (left np) (right np) (parent np) (node_size nq));;
            if negb (left np =? 0) && negb (in_heap h (left np)) then corrupted false else
            (if left np =? 0 then mret tt else update_node (left np) (set_parent q));;
            if negb (right np =? 0) && negb (in_heap h (right np)) then corrupted false else
            (if right np =? 0 then mret tt else update_node (right np) (set_parent q));;
            update_node p unlinked;;
            mret true
        end
  end.

(** The walk that finds the place of a new node. *)
Fixpoint link_tree_node (fuel : nat) (tp node_p size : Z) : H bool :=
  match fuel with
  | O => fail OutOfFuel
  | S fuel =>
      nt ← node tp;
      if node_size nt <? size then
        if right nt =? 0 then
          update_node tp (set_right node_p);; update_node node_p (set_parent tp);; mret true
        else
          h ← heap_state;
          if negb (in_heap h (right nt)) then corrupted false else
          link_tree_node fuel (right nt) node_p size
      else
        if left nt =? 0 then
          update_node tp (set_left node_p);; update_node node_p (set_parent tp);; mret true
        else
          h ← heap_state;
          if negb (in_heap h (left nt)) then corrupted false else
          link_tree_node fuel (left nt) node_p size
  end.

(** The best fit below [tp]: the last node met that is large enough. The
    result is [None] when a pointer leaves the heap. *)
Fixpoint best_fit (fuel : nat) (tp size last_tp : Z) : H (option Z) :=
  match fuel with
  | O => fail OutOfFuel
  | S fuel =>
      if tp =? 0 then mret (Some last_tp) else
      h ← heap_state;
      if negb (in_heap h tp) then mret None else
      nt ← node tp;
      if node_size nt <? size then best_fit fuel (right nt) size last_tp
      else best_fit fuel (left nt) size tp
  end.

(** ** Free chunks *)

(** The walk along a list of free chunks that removes [hmu]. A chunk that is
    not found is only logged. *)
Fixpoint unlink_normal (fuel : nat) (node_idx node_prev node hmu : Z) : H bool :=
  match fuel with
  | O => fail OutOfFuel
  | S fuel =>
      if node =? 0 then mret true else
      h ← heap_state;
      if negb (in_heap h node) then corrupted false else
      node_next ← get_hmu_normal_node_next node;
      if node =? hmu then
        (if node_prev =? 0 then set_normal_head node_idx node_next
         else set_hmu_normal_node_next node_prev node_next);;
        mret true
      else unlink_normal fuel node_idx node node_next hmu
  end.

(** More than the chunks of the pool. *)
Definition list_fuel (h : gc_heap) : nat := S (S (Z.to_nat (current_size h))).

Definition unlink_hmu (hmu : Z) : H bool :=
  hd ← header hmu;
  if negb (hmu_get_ut hd =? HMU_FC) then corrupted false else
  let size := hmu_get_size hd in
  if HMU_IS_FC_NORMAL size then
    let node_idx := Z.shiftr size 3 in
    node ← normal_head node_idx;
    h ← heap_state;
    unlink_normal (list_fuel h) node_idx 0 node hmu
  else remove_tree_node 2 hmu.

Definition hmu_set_free_size (hmu : Z) : H () :=
  hd ← header hmu;
  let size := hmu_get_size hd in
  update_mem (store32 (hmu + size - 4) size).

Definition gci_add_fc (hmu size : Z) : H bool :=
  update_header hmu (hmu_set_ut HMU_FC);;
  update_header hmu (hmu_set_size size);;
  hmu_set_free_size hmu;;
  h ← heap_state;
  if HMU_IS_FC_NORMAL size then
    if negb (in_heap h hmu) then corrupted false else
    let node_idx := Z.shiftr size 3 in
    head ← normal_head node_idx;
    set_hmu_normal_node_next hmu head;;
    set_normal_head node_idx hmu;;
    mret true
  else
    set_node hmu (TreeNode 0 0 0 size);;
    h ← heap_state;
    link_tree_node (tree_fuel h) (kfc_tree_root h) hmu size.

(** ** Allocation *)

(** The first non-empty list from [idx] on. *)
Fixpoint find_normal (fuel : nat) (idx : Z) : H (option Z) :=
  match fuel with
  | O => mret None
  | S fuel =>
      head ← normal_head idx;
      if head =? 0 then find_normal fuel (idx + 1) else mret (Some idx)
  end.

(** The statistics after a chunk of [size] bytes was taken. *)
Definition account (size : Z) : H () :=
  modify (fun h => set_total_free_size (wrap32 (total_free_size h - size)) h);;
  modify (fun h =>
    let used := wrap32 (current_size h - total_free_size h) in
    if highmark_size h <? used then set_highmark_size used h else h).

(** The free chunk [p] of [chunk_size] bytes was taken from its list: its end
    is given back when it is large enough to be a chunk. *)
Definition take_chunk (split : bool) (p chunk_size size : Z) : H Z :=
  h ← heap_state;
  let finish size :=
    account size;;
    update_header p (hmu_set_size size);;
    mret p in
  if split then
    let rest := p + size in
    ok ← gci_add_fc rest (wrap32 (chunk_size - size));
    if negb ok then mret 0 else
    update_header rest hmu_mark_pinuse;;
    finish size
  else
    let size := chunk_size in
    let next := p + size in
    (if in_heap h next then update_header next hmu_mark_pinuse else mret tt);;
    finish size.

Definition alloc_from_tree (size : Z) : H Z :=
  h ← heap_state;
  root ← node (kfc_tree_root h);
  last_tp ← best_fit (tree_fuel h) (right root) size 0;
  match last_tp with
  | None => corrupted 0
  | Some last_tp =>
      if last_tp =? 0 then mret 0 else
      ok ← remove_tree_node 2 last_tp;
      if negb ok then mret 0 else
      n ← node last_tp;
      take_chunk (wrap32 (size + GC_SMALLEST_SIZE) <=? node_size n) last_tp (node_size n) size
  end.

Definition alloc_hmu (size : Z) : H Z :=
  let size := if size <? GC_SMALLEST_SIZE then GC_SMALLEST_SIZE else size in
  if HMU_IS_FC_NORMAL size then
    let init_node_idx := Z.shiftr size 3 in
    found ← find_normal (HMU_NORMAL_NODE_CNT - Z.to_nat init_node_idx) init_node_idx;
    match found with
    | Some node_idx =>
        p ← normal_head node_idx;
        h ← heap_state;
        if negb (in_heap h p) then corrupted 0 else
        next ← get_hmu_normal_node_next p;
        set_normal_head node_idx next;;
        if negb (Z.land (hmu_to_obj p) 7 =? 0) then corrupted 0 else
        let chunk_size := Z.shiftl node_idx 3 in
        take_chunk (negb (node_idx =? init_node_idx)
                    && (wrap32 (size + GC_SMALLEST_SIZE) <=? chunk_size)) p chunk_size size
    | None => alloc_from_tree size
    end
  else alloc_from_tree size.

Definition alloc_hmu_ex (size : Z) : H Z := alloc_hmu size.

(** The size of the chunk for an object of [size] bytes. *)
Definition tot_size_unaligned (size : Z) : Z := wrap32 (HMU_SIZE + size).
Definition tot_size (size : Z) : Z := GC_ALIGN_8 (tot_size_unaligned size).

Definition gc_alloc_vo (size : Z) : H Z :=
  if tot_size size <? size then mret 0 else
  h ← heap_state;
  if is_heap_corrupted h then mret 0 else
  hmu ← alloc_hmu_ex (tot_size size);
  if hmu =? 0 then mret 0 else
  hd ← header hmu;
  let tot := hmu_get_size hd in
  update_header hmu (hmu_set_ut HMU_VO);;
  update_header hmu hmu_unfree_vo;;
  let ret := hmu_to_obj hmu in
  (if tot_size_unaligned size <? tot
   then update_mem (memset (ret + size) Byte.x00 (tot - tot_size_unaligned size))
   else mret tt);;
  mret ret.

(** ** Freeing *)

(** The chunk being freed with the free chunk before it; [None] when that one
    could not be unlinked. *)
Definition merge_prev (hmu hd size : Z) : H (option (Z * Z)) :=
  h ← heap_state;
  if hmu_get_pinuse hd then mret (Some (hmu, size)) else
  let prev := hmu - signed32 (load32 (mem h) (hmu - 4)) in
  if negb (in_heap h prev) then mret (Some (hmu, size)) else
  hd ← header prev;
  if negb (hmu_get_ut hd =? HMU_FC) then mret (Some (hmu, size)) else
  ok ← unlink_hmu prev;
  mret (if ok : bool then Some (prev, wrap32 (size + hmu_get_size hd)) else None).

(** The size with the free chunk behind it. *)
Definition merge_next (hmu size : Z) : H (option Z) :=
  h ← heap_state;
  let next := hmu + size in
  if negb (in_heap h next) then mret (Some size) else
  hd ← header next;
  if negb (hmu_get_ut hd =? HMU_FC) then mret (Some size) else
  ok ← unlink_hmu next;
  mret (if ok : bool then Some (wrap32 (size + hmu_get_size hd)) else None).

Definition gc_free_vo (obj : Z) : H Z :=
  if obj =? 0 then mret GC_SUCCESS else
  h ← heap_state;
  if is_heap_corrupted h then mret GC_ERROR else
  let hmu := obj_to_hmu obj in
  if negb (in_heap h hmu) then mret GC_SUCCESS else
  hd ← header hmu;
  if negb (hmu_get_ut hd =? HMU_VO) then mret GC_ERROR else
  if hmu_is_vo_freed hd then mret GC_ERROR else
  let size := hmu_get_size hd in
  modify (fun h => set_total_free_size (wrap32 (total_free_size h + size)) h);;
  merged ← merge_prev hmu hd size;
  match merged with
  | None => mret GC_ERROR
  | Some (hmu, size) =>
      merged ← merge_next hmu size;
      match merged with
      | None => mret GC_ERROR
      | Some size =>
          ok ← gci_add_fc hmu size;
          if negb ok then mret GC_ERROR else
          let next := hmu + size in
          (if in_heap h next then update_header next hmu_unmark_pinuse else mret tt);;
          mret GC_SUCCESS
      end
  end.

(** ** Reallocation *)

(** [bh_common.c]: a copy that does not fit clears the destination. *)
Definition bh_memcpy_s (s1 s1max s2 n : Z) (m : memory) : memory :=
  if n =? 0 then m else
  if s1 =? 0 then m else
  if (s2 =? 0) || (s1max <? n) then memset s1 Byte.x00 s1max m else
  memcpy s1 s2 n m.

(** Whether the chunk after [hmu_old] is free and large enough, with the size
    of both. *)
Definition grow_in_place (hmu_old tot tot_size_old : Z) : H (option (option Z)) :=
  h ← heap_state;
  let hmu_next := hmu_old + tot_size_old in
  if negb (in_heap h hmu_next) then mret None else
  hd ← header hmu_next;
  let tot_size_next := hmu_get_size hd in
  if negb (hmu_get_ut hd =? HMU_FC) || negb (tot <=? wrap32 (tot_size_old + tot_size_next))
  then mret None else
  ok ← unlink_hmu hmu_next;
  if negb ok then mret (Some None) else
  update_header hmu_old (hmu_set_size tot);;
  update_mem (memset (hmu_old + tot_size_old) Byte.x00 (tot - tot_size_old));;
  if tot <? wrap32 (tot_size_old + tot_size_next) then
    let hmu_next := hmu_old + tot in
    ok ← gci_add_fc hmu_next (wrap32 (tot_size_old + tot_size_next - tot));
    if negb ok then mret (Some None) else
    update_header hmu_next hmu_mark_pinuse;;
    mret (Some (Some (hmu_to_obj hmu_old)))
  else mret (Some (Some (hmu_to_obj hmu_old))).

Definition gc_realloc_vo (obj_old size : Z) : H Z :=
  let tot := tot_size size in
  if tot <? size then mret 0 else
  h ← heap_state;
  if is_heap_corrupted h then mret 0 else
  let hmu_old := obj_to_hmu obj_old in
  hd ← (if obj_old =? 0 then mret 0 else header hmu_old);
  let tot_size_old := if obj_old =? 0 then 0 else hmu_get_size hd in
  if negb (obj_old =? 0) && (tot <=? tot_size_old) then mret obj_old else
  grown ← (if obj_old =? 0 then mret None else grow_in_place hmu_old tot tot_size_old);
  match grown with
  | Some r => mret (default 0 r)
  | None =>
      hmu ← alloc_hmu_ex tot;
      if hmu =? 0 then mret 0 else
      hd ← header hmu;
      let tot := hmu_get_size hd in
      update_header hmu (hmu_set_ut HMU_VO);;
      update_header hmu hmu_unfree_vo;;
      let ret := hmu_to_obj hmu in
      let obj_size := wrap32 (tot - HMU_SIZE) in
      update_mem (memset ret Byte.x00 obj_size);;
      if obj_old =? 0 then mret ret else
      update_mem (bh_memcpy_s ret obj_size obj_old (wrap32 (tot_size_old - HMU_SIZE)));;
      _ ← gc_free_vo obj_old;
      mret ret
  end.

(** ** Creation and destruction *)

Section creation.
(** The size of a pointer, in bytes; a [korp_mutex] of the platform is one. *)
Context (sizeof_pointer : Z).

Definition zalign (n a : Z) : Z := (n + a - 1) / a * a.

Definition sizeof_hmu_tree_node : Z := 8 + 3 * sizeof_pointer.

(** The layout of [gc_heap_t]: three pointers and a 32-bit word, the lists, on
    64 bits a word of padding, the root node, its pointer, a [bool] and three
    32-bit words. *)
Definition kfc_tree_root_buf_offset : Z :=
  zalign (2 * sizeof_pointer + 4) sizeof_pointer + sizeof_pointer
    + Z.of_nat HMU_NORMAL_NODE_CNT * sizeof_pointer + (if sizeof_pointer =? 8 then 4 else 0).
Definition sizeof_gc_heap : Z :=
  let root := zalign (kfc_tree_root_buf_offset + sizeof_hmu_tree_node) sizeof_pointer in
  zalign (zalign (root + sizeof_pointer + 1) 4 + 12) sizeof_pointer.

Definition gc_init_internal (heap base heap_max_size : Z) (m : memory) : gc_heap :=
  let m := memset heap Byte.x00 sizeof_gc_heap m in
  let m := memset base Byte.x00 heap_max_size m in
  let root := heap + kfc_tree_root_buf_offset in
  let m := memset root Byte.x00 sizeof_hmu_tree_node m in
  let hd := hmu_set_ut HMU_FC (load32 m root) in
  let m := store32 root (hmu_set_size sizeof_hmu_tree_node hd) m in
  let m := memset base Byte.x00 sizeof_hmu_tree_node m in
  let hd := hmu_set_ut HMU_FC (load32 m base) in
  let hd := hmu_set_size heap_max_size hd in
  let hd := hmu_mark_pinuse hd in
  GcHeap base heap_max_size (replicate HMU_NORMAL_NODE_CNT 0) root
    (<[base := TreeNode 0 0 root heap_max_size]>
      {[root := TreeNode 0 base 0 sizeof_hmu_tree_node]})
    false 0 heap_max_size (store32 base hd m).

(** The address of the heap structure and the heap; [None] is NULL. *)
Definition gc_init_with_pool (buf buf_size : Z) (m : memory) : option (Z * gc_heap) :=
  let buf_end := buf + buf_size in
  let buf_aligned := Z.ldiff (buf + 7) 7 in
  let base := buf_aligned + sizeof_gc_heap in
  if buf_size <? APP_HEAP_SIZE_MIN then None else
  let base := Z.ldiff (base + 7) 7 + GC_HEAD_PADDING in
  let heap_max_size := Z.ldiff (wrap32 (buf_end - base)) 7 in
  Some (buf_aligned, gc_init_internal buf_aligned base heap_max_size m).

Definition gc_init_with_struct_and_pool (struct_buf struct_buf_size pool_buf pool_buf_size : Z)
    (m : memory) : option (Z * gc_heap) :=
  let base := pool_buf + GC_HEAD_PADDING in
  let pool_buf_end := pool_buf + pool_buf_size in
  if negb (Z.land struct_buf 7 =? 0) then None else
  if struct_buf_size <? sizeof_pointer then None else
  if negb (Z.land pool_buf 7 =? 0) then None else
  if pool_buf_size <? APP_HEAP_SIZE_MIN then None else
  let heap_max_size := Z.ldiff (wrap32 (pool_buf_end - base)) 7 in
  Some (struct_buf, gc_init_internal struct_buf base heap_max_size m).

Definition gc_destroy_with_pool (heap : Z) : H Z :=
  modify (fun h =>
    GcHeap 0 0 (replicate HMU_NORMAL_NODE_CNT 0) 0 ∅ false 0 0
      (memset heap Byte.x00 sizeof_gc_heap
        (memset (base_addr h) Byte.x00 (current_size h) (mem h))));;
  mret GC_SUCCESS.

Definition gc_get_heap_struct_size : Z := sizeof_gc_heap.
End creation.

Definition gc_is_heap_corrupted : H bool := gets is_heap_corrupted.
Definition gc_get_heap_highmark_size : H Z := gets highmark_size.

(** ** Migration *)

(** The pool was copied to another address by its owner: the bytes, and the
    tree nodes that lie in them. *)
Definition move_pool (old new size : Z) (h : gc_heap) : gc_heap :=
  let moved := filter (fun '(a, _) => within old size a = true) (tree_nodes h) in
  let fixed := filter (fun '(a, _) => within old size a = false) (tree_nodes h) in
  set_mem (memcpy new old size (mem h))
    (set_tree_nodes (kmap (Z.add (new - old)) moved ∪ fixed) h).

Definition adjust_ptr (offset p : Z) : Z := if p =? 0 then p else p + offset.

(** The three pointers of the root. *)
Definition adjust_root (offset : Z) (n : hmu_tree_node) : hmu_tree_node :=
  TreeNode (adjust_ptr offset (left n)) (adjust_ptr offset (right n)) (adjust_ptr offset (parent n))
    (node_size n).

(** The pointers of another node; the root itself does not move. *)
Definition adjust_node (root offset : Z) (n : hmu_tree_node) : hmu_tree_node :=
  TreeNode (adjust_ptr offset (left n)) (adjust_ptr offset (right n))
    (if parent n =? root then parent n else adjust_ptr offset (parent n)) (node_size n).

(** The loop over the chunks from [cur] on. *)
Fixpoint migrate_chunks (fuel : nat) (cur end_ offset : Z) : H Z :=
  match fuel with
  | O => fail OutOfFuel
  | S fuel =>
      if cur <? end_ then
        hd ← header cur;
        let size := hmu_get_size hd in
        if (size <=? 0) || (wrap32 (end_ - cur) <? size) then corrupted GC_ERROR else
        h ← heap_state;
        (if (hmu_get_ut hd =? HMU_FC) && negb (HMU_IS_FC_NORMAL size)
         then update_node cur (adjust_node (kfc_tree_root h) offset) else mret tt);;
        migrate_chunks fuel (cur + size) end_ offset
      else if negb (cur =? end_) then corrupted GC_ERROR
      else mret GC_SUCCESS
  end.

Definition gc_migrate (pool_buf_new pool_buf_size : Z) : H Z :=
  h ← heap_state;
  let base_addr_new := pool_buf_new + GC_HEAD_PADDING in
  let pool_buf_end := pool_buf_new + pool_buf_size in
  let offset := base_addr_new - base_addr h in
  if negb (Z.land pool_buf_new 7 =? 0) then mret GC_ERROR else
  let heap_max_size := Z.ldiff (wrap32 (pool_buf_end - base_addr_new)) 7 in
  if (pool_buf_end <? base_addr_new) || (heap_max_size <? current_size h) then mret GC_ERROR else
  if offset =? 0 then mret GC_SUCCESS else
  if is_heap_corrupted h then mret GC_ERROR else
  modify (set_base_addr base_addr_new);;
  update_node (kfc_tree_root h) (adjust_root offset);;
  migrate_chunks (list_fuel h) base_addr_new (base_addr_new + current_size h) offset.

(** ** The interface of the runtime *)

Definition mem_allocator_create := gc_init_with_pool.
Definition mem_allocator_create_with_struct_and_pool := gc_init_with_struct_and_pool.
Definition mem_allocator_destroy := gc_destroy_with_pool.
Definition mem_allocator_get_heap_struct_size := gc_get_heap_struct_size.
Definition mem_allocator_malloc (size : Z) : H Z := gc_alloc_vo size.
Definition mem_allocator_realloc (ptr size : Z) : H Z := gc_realloc_vo ptr size.
Definition mem_allocator_migrate (pool_buf_new pool_buf_size : Z) : H Z :=
  gc_migrate pool_buf_new pool_buf_size.
Definition mem_allocator_is_heap_corrupted : H bool := gc_is_heap_corrupted.
Definition mem_allocator_free (ptr : Z) : H () :=
  if ptr =? 0 then mret tt else _ ← gc_free_vo ptr; mret tt.
