(* ===== verification/EmsTree.v ===== *)
(** * The tree of large free chunks

    The pointer structure that [remove_tree_node], [gci_add_fc] and [alloc_hmu]
    work on represents a binary search tree ordered by size. *)

From S2P Require Import Prelude Memory Ems.

(** ** Trees *)

Inductive tree :=
| Leaf
| Node (l : tree) (a s : Z) (r : tree).

#[export] Instance tree_eq_dec : EqDecision tree.
Proof. solve_decision. Defined.

Definition ptr (t : tree) : Z :=
  match t with
  | Leaf => 0
  | Node _ a _ _ => a
  end.

Fixpoint elements (t : tree) : list (Z * Z) :=
  match t with
  | Leaf => []
  | Node l a s r => elements l ++ (a, s) :: elements r
  end.

Abbreviation addrs t := (elements t).*1.

(** The order of the comment in [gc_heap_t]: left <= node < right. *)
Fixpoint ordered (t : tree) : Prop :=
  match t with
  | Leaf => True
  | Node l a s r =>
      ordered l /\ ordered r /\
      Forall (fun e => e.2 <= s) (elements l) /\ Forall (fun e => s < e.2) (elements r)
  end.

(** The tree with a hole, from the hole upwards. *)
Inductive context :=
| Top
| InLeft (k : context) (a s : Z) (r : tree)
| InRight (l : tree) (a s : Z) (k : context).

Fixpoint plug (k : context) (t : tree) : tree :=
  match k with
  | Top => t
  | InLeft k a s r => plug k (Node t a s r)
  | InRight l a s k => plug k (Node l a s t)
  end.

(** The parent of the hole. *)
Definition above (k : context) : Z :=
  match k with
  | Top => 0
  | InLeft _ a _ _ | InRight _ a _ _ => a
  end.

Fixpoint around (k : context) : list (Z * Z) :=
  match k with
  | Top => []
  | InLeft k a s r => (a, s) :: elements r ++ around k
  | InRight l a s k => (a, s) :: elements l ++ around k
  end.

Lemma elements_plug k t : elements (plug k t) ≡ₚ elements t ++ around k.
Proof.
  revert t. induction k as [|k IH a s r|l a s k IH]; intros t; simpl.
  - by rewrite app_nil_r.
  - rewrite IH. simpl. by rewrite <- app_assoc.
  - rewrite IH. simpl. rewrite <- app_assoc. simpl. solve_Permutation.
Qed.

(** ** Representation *)

(** The nodes of [t], below [par], are in the store. *)
Fixpoint rep (g : gmap Z hmu_tree_node) (par : Z) (t : tree) : Prop :=
  match t with
  | Leaf => True
  | Node l a s r =>
      a <> 0 /\ g !! a = Some (TreeNode (ptr l) (ptr r) par s) /\ rep g a l /\ rep g a r
  end.

(** The nodes of [k] are in the store, and the hole holds the pointer [p]. *)
Fixpoint rep_context (g : gmap Z hmu_tree_node) (k : context) (p : Z) : Prop :=
  match k with
  | Top => True
  | InLeft k a s r =>
      a <> 0 /\ g !! a = Some (TreeNode p (ptr r) (above k) s) /\ rep g a r /\ rep_context g k a
  | InRight l a s k =>
      a <> 0 /\ g !! a = Some (TreeNode (ptr l) p (above k) s) /\ rep g a l /\ rep_context g k a
  end.

Lemma rep_plug g k t : rep g 0 (plug k t) <-> rep_context g k (ptr t) /\ rep g (above k) t.
Proof.
  revert t. induction k as [|k IH a s r|l a s k IH]; intros t; simpl; [tauto|..];
    rewrite IH; simpl; tauto.
Qed.

Lemma rep_frame g g' par t :
  (forall a, a ∈ addrs t -> g' !! a = g !! a) -> rep g par t -> rep g' par t.
Proof.
  revert par. induction t as [|l IHl a s r IHr]; intros par Hg; simpl; [done|].
  intros (Ha & Hn & Hl & Hr). simpl in Hg. rewrite fmap_app in Hg. simpl in Hg.
  split; [done|]. split; [rewrite Hg; set_solver|].
  split; [apply IHl|apply IHr]; try done; intros b Hb; apply Hg; set_solver.
Qed.

Lemma rep_context_frame g g' k p :
  (forall a, a ∈ (around k).*1 -> g' !! a = g !! a) -> rep_context g k p -> rep_context g' k p.
Proof.
  revert p. induction k as [|k IH a s r|l a s k IH]; intros p Hg; simpl; [done|..];
    simpl in Hg; rewrite fmap_app in Hg;
    intros (Ha & Hn & Hr & Hk);
    (split; [done|]; split; [rewrite Hg; set_solver|]);
    (split; [eapply rep_frame; [|done]|apply IH; [|done]]); intros b Hb; apply Hg; set_solver.
Qed.

Lemma rep_ptr g par t : rep g par t -> (ptr t = 0 <-> t = Leaf).
Proof. destruct t; simpl; [done|]. intros (Ha & _). split; [done|discriminate]. Qed.

Lemma ptr_in t : ptr t <> 0 -> ptr t ∈ addrs t.
Proof. destruct t; simpl; [done|]. rewrite fmap_app. set_solver. Qed.

(** The parent of a node is the only field that depends on where it hangs. *)
Lemma rep_reparent g par par' t n :
  rep g par t -> g !! ptr t = Some n -> NoDup (addrs t) -> t <> Leaf ->
  rep (<[ptr t := set_parent par' n]> g) par' t.
Proof.
  destruct t as [|l a s r]; [done|]. cbn [rep ptr]. intros (Ha & Hn & Hl & Hr) Hn' Hnd _.
  rewrite Hn in Hn'. injection Hn' as <-. simpl in Hnd. rewrite fmap_app in Hnd. simpl in Hnd.
  apply NoDup_app in Hnd as (Hd1 & Hd2 & Hd3). apply NoDup_cons in Hd3 as [Hd3 Hd4].
  split; [done|]. split; [by rewrite lookup_insert_eq|].
  split; (eapply rep_frame; [|done]); intros b Hb; rewrite lookup_insert_ne; set_solver.
Qed.

(** ** Running the operations *)

Section heap_rules.
Context (E : fault -> Prop).
Implicit Types (h : gc_heap) (n : hmu_tree_node).

Lemma wp_heap_state Q h : Q h h -> wp E heap_state Q h.
Proof. done. Qed.

Lemma wp_header hmu Q h : Q (load32 (mem h) hmu) h -> wp E (header hmu) Q h.
Proof. done. Qed.

Lemma wp_update_mem f Q h : Q tt (set_mem (f (mem h)) h) -> wp E (update_mem f) Q h.
Proof. done. Qed.

Lemma wp_update_header hmu f Q h :
  Q tt (set_mem (store32 hmu (f (load32 (mem h) hmu)) (mem h)) h) ->
  wp E (update_header hmu f) Q h.
Proof. done. Qed.

Lemma wp_node p n Q h : tree_nodes h !! p = Some n -> Q n h -> wp E (node p) Q h.
Proof. intros Hn HQ. unfold node, wp, mbind, M_bind, heap_state, gets. simpl. by rewrite Hn. Qed.

Lemma wp_set_node p n Q h :
  Q tt (set_tree_nodes (<[p := n]> (tree_nodes h)) h) -> wp E (set_node p n) Q h.
Proof. done. Qed.

Lemma wp_update_node p f n Q h :
  tree_nodes h !! p = Some n -> Q tt (set_tree_nodes (<[p := f n]> (tree_nodes h)) h) ->
  wp E (update_node p f) Q h.
Proof. intros Hn HQ. unfold update_node. apply wp_bind. by eapply wp_node. Qed.
End heap_rules.

(** ** Removing a node *)

Lemma in_heap_ptr h t :
  Forall (fun e => in_heap h e.1 = true) (elements t) -> ptr t <> 0 -> in_heap h (ptr t) = true.
Proof.
  intros Ht Hp. apply ptr_in, list_elem_of_fmap in Hp as ([a s] & -> & Hin).
  by eapply Forall_forall in Ht.
Qed.

(** The pointers that the corruption checks accept. *)
Definition sane (h : gc_heap) (l : list (Z * Z)) : Prop :=
  Forall (fun e => e.1 = kfc_tree_root h \/ in_heap h e.1 = true) l.

Lemma sane_elem h l a : sane h l -> a ∈ l.*1 -> a = kfc_tree_root h \/ in_heap h a = true.
Proof. intros Hl ([x s] & -> & Hx)%list_elem_of_fmap. by eapply Forall_forall in Hl. Qed.

(** The slot of the parent that points to the hole. *)
Lemma slot_of_hole g k p :
  rep_context g k p -> k <> Top -> p <> 0 -> p ∉ (around k).*1 ->
  exists pp, g !! above k = Some pp /\ above k <> 0 /\ above k ∈ (around k).*1 /\
    (p =? right pp) || (p =? left pp) = true /\
    forall x, NoDup (around k).*1 ->
      rep_context (<[above k := (if p =? right pp then set_right else set_left) x pp]> g) k x.
Proof.
  intros Hk Htop Hp Hfresh. destruct k as [|k a s r|l a s k]; [done|..]; simpl in *;
    rewrite fmap_app in *; destruct Hk as (Ha & Hn & Hr & Hk); eexists; (split; [exact Hn|]);
    cbn [left right]; (split; [done|]); (split; [set_solver|]).
  - assert (p <> ptr r) as Hne.
    { intros ->. apply Hfresh. apply ptr_in in Hp. set_solver. }
    apply Z.eqb_neq in Hne as ->. rewrite Z.eqb_refl. split; [done|]. intros x Hnd.
    apply NoDup_cons in Hnd as [Hnd1 Hnd2].
    split; [done|]. split; [by rewrite lookup_insert_eq|].
    split; [eapply rep_frame; [|done]|eapply rep_context_frame; [|done]];
      intros b Hb; rewrite lookup_insert_ne; set_solver.
  - rewrite Z.eqb_refl. split; [done|]. intros x Hnd.
    apply NoDup_cons in Hnd as [Hnd1 Hnd2].
    split; [done|]. split; [by rewrite lookup_insert_eq|].
    split; [eapply rep_frame; [|done]|eapply rep_context_frame; [|done]];
      intros b Hb; rewrite lookup_insert_ne; set_solver.
Qed.

(** The addresses of a tree with a hole are all different. *)
Lemma nodup_parts k l p s r :
  NoDup (around k ++ elements (Node l p s r)).*1 ->
  NoDup ((around k).*1 ++ addrs l) /\ NoDup ((around k).*1 ++ addrs r) /\
  (p ∉ (around k).*1) /\ (p ∉ addrs l) /\ (p ∉ addrs r) /\
  (forall x, x ∈ addrs l -> x ∉ addrs r).
Proof.
  simpl. rewrite !fmap_app. simpl. rewrite !NoDup_app, NoDup_cons.
  intros (H1 & Hd1 & H2 & Hd2 & Hp & H3).
  split; [|split]; [split; [done|split; [|done]]..|].
  - intros x Hx Hl. apply (Hd1 x Hx). rewrite elem_of_app. by left.
  - intros x Hx Hr. apply (Hd1 x Hx). rewrite elem_of_app, elem_of_cons. by right; right.
  - split; [intros Hx; apply (Hd1 p Hx); rewrite elem_of_app, elem_of_cons; by right; left|].
    split; [intros Hx; apply (Hd2 p Hx); rewrite elem_of_cons; by left|].
    split; [done|]. intros x Hl Hr. apply (Hd2 x Hl). rewrite elem_of_cons. by right.
Qed.

Lemma above_in k : k <> Top -> above k ∈ (around k).*1.
Proof. destruct k; [done|..]; intros _; simpl; by left. Qed.

(** A node of a tree with a hole that the checks of [remove_tree_node] accept. *)
Record removable (h : gc_heap) (k : context) (l : tree) (p s : Z) (r : tree) : Prop := {
  rm_context : rep_context (tree_nodes h) k p;
  rm_node : rep (tree_nodes h) (above k) (Node l p s r);
  rm_top : k <> Top;
  rm_root : kfc_tree_root h ∈ (around k).*1;
  rm_sane : sane h (around k ++ elements (Node l p s r));
  rm_below : Forall (fun e => in_heap h e.1 = true) (elements (Node l p s r));
  rm_nodup : NoDup (around k ++ elements (Node l p s r)).*1
}.

Lemma removable_parent h k l p s r :
  removable h k l p s r ->
  (above k =? 0) = false /\ (p =? kfc_tree_root h) = false /\ in_heap h p = true /\
  negb (above k =? kfc_tree_root h) && negb (in_heap h (above k)) = false /\
  exists pp, tree_nodes h !! above k = Some pp /\ (p =? right pp) || (p =? left pp) = true /\
    forall x, rep_context
      (<[above k := (if p =? right pp then set_right else set_left) x pp]> (tree_nodes h)) k x.
Proof.
  intros [Hk (Hp & _) Htop Hroot Hsane Hbelow Hnd]. rewrite fmap_app in Hnd.
  apply NoDup_app in Hnd as (Hnd & Hdis & _).
  assert (p ∈ (elements (Node l p s r)).*1) as Hel by (simpl; rewrite fmap_app; set_solver).
  destruct (slot_of_hole _ _ _ Hk Htop Hp) as (pp & Hpp & Ha & Hin & Hslot & Hset).
  { intros Hx. exact (Hdis _ Hx Hel). }
  split; [by apply Z.eqb_neq|].
  split; [apply Z.eqb_neq; intros ->; exact (Hdis _ Hroot Hel)|].
  split. { apply list_elem_of_fmap in Hel as ([x s'] & Hx & Hel).
    eapply Forall_forall in Hbelow; [|done]. simpl in *. by subst. }
  split; [|exists pp; eauto].
  destruct (sane_elem h _ (above k) Hsane) as [Hr|Hr]; [rewrite fmap_app; set_solver|..].
  - by rewrite Hr, Z.eqb_refl.
  - by rewrite Hr, andb_false_r.
Qed.

(** The hole of [k] now holds [t], and the node [p] is unlinked. *)
Definition removed (h h' : gc_heap) (k : context) (t : tree) (p s : Z) : Prop :=
  exists g', h' = set_tree_nodes g' h /\ rep_context g' k (ptr t) /\ rep g' (above k) t /\
    g' !! p = Some (TreeNode 0 0 0 s).

(** Runs the checks at the start of [remove_tree_node]. *)
Ltac remove_start Hrm :=
  let H1 := fresh in let H2 := fresh in let H3 := fresh in let H4 := fresh in
  destruct (removable_parent _ _ _ _ _ _ Hrm) as (H1 & H2 & H3 & H4 & pp & Hpp & Hslot & Hset);
  cbn [remove_tree_node]; apply wp_bind, wp_heap_state; apply wp_bind;
  eapply wp_node; [exact (proj1 (proj2 (rm_node _ _ _ _ _ _ Hrm)))|];
  cbn [left right parent node_size];
  rewrite H1, H2, H3, H4; cbn [negb orb]; clear H1 H2 H3 H4;
  apply wp_bind; (eapply wp_node; [exact Hpp|]);
  rewrite <- negb_orb, Hslot; cbn [negb].

(** A subtree [c] that hung below [p] moves up into the hole. *)
Lemma move_up g k p c v x :
  (forall y, rep_context (<[above k := v y]> g) k y) -> k <> Top -> rep g p c -> c <> Leaf ->
  NoDup ((around k).*1 ++ addrs c) -> p ∉ (around k).*1 -> p ∉ addrs c ->
  let g1 := <[above k := v (ptr c)]> g in
  exists n, g1 !! ptr c = Some n /\
    let g3 := <[p := x]> (<[ptr c := set_parent (above k) n]> g1) in
    rep_context g3 k (ptr c) /\ rep g3 (above k) c.
Proof.
  intros Hset Htop Hc Hleaf Hnd Hpk Hpc g1. apply NoDup_app in Hnd as (Hnd1 & Hdis & Hnd2).
  assert (above k ∈ (around k).*1) as Hab by (destruct k; [done|..]; simpl; set_solver).
  assert (ptr c <> 0) as Hc0 by (by intros E; apply (rep_ptr _ _ _ Hc) in E).
  apply ptr_in in Hc0 as Hin.
  assert (rep g1 p c) as Hc1.
  { eapply rep_frame; [|exact Hc]. intros a Ha. unfold g1. rewrite lookup_insert_ne; set_solver. }
  assert (exists n, g1 !! ptr c = Some n) as [n Hn].
  { destruct c; [done|]. destruct Hc1 as (_ & Hn & _). by eexists. }
  exists n. split; [done|]. intros g3. split.
  - eapply rep_context_frame; [|apply Hset].
    intros a Ha. unfold g3. by do 2 (rewrite lookup_insert_ne by set_solver).
  - eapply rep_frame; [|exact (rep_reparent _ _ (above k) _ _ Hc1 Hn Hnd2 Hleaf)].
    intros a Ha. unfold g3. rewrite lookup_insert_ne; set_solver.
Qed.

(** The only child of [p] takes its place. *)
Lemma remove_tree_node_child fuel h k l p s r :
  removable h k l p s r -> l = Leaf \/ r = Leaf ->
  wp no_fault (remove_tree_node (S fuel) p)
    (fun ok h' => ok = true /\
      removed h h' k (match l with Leaf => r | _ => l end) p s) h.
Proof.
  intros Hrm Hlr. remove_start Hrm.
  destruct Hrm as [Hk (Hp & Hn & Hl & Hr) Htop Hroot Hsane Hbelow Hnd].
  set (ss := if p =? right pp then set_right else set_left) in *.
  apply nodup_parts in Hnd as (Hndl & Hndr & Hpk & Hpl & Hpr & Hlr').
  simpl in Hbelow. apply Forall_app in Hbelow as [Hinl [_ Hinr]%Forall_cons].
  pose proof (above_in k Htop) as Hab.
  assert (above k <> p) as Hpar by (by intros E; rewrite E in Hab).
  destruct (Z.eqb_spec (ptr l) 0) as [Hl0|Hl0].
  - apply (rep_ptr _ _ _ Hl) in Hl0 as ->.
    apply wp_bind. eapply wp_update_node; [exact Hpp|]. apply wp_bind.
    eapply wp_node; [simpl; rewrite lookup_insert_ne by done; exact Hn|]. cbn [left right parent].
    destruct (Z.eqb_spec (ptr r) 0) as [Hr0|Hr0].
    + apply (rep_ptr _ _ _ Hr) in Hr0 as ->. apply wp_bind.
      eapply wp_update_node; [simpl; rewrite lookup_insert_ne by done; exact Hn|].
      apply wp_ret. split; [done|]. eexists. split; [reflexivity|]. cbn [rep ptr].
      split; [|by rewrite lookup_insert_eq].
      eapply rep_context_frame; [|apply (Hset 0)].
      intros a Ha. cbn [tree_nodes set_tree_nodes]. rewrite lookup_insert_ne; [done|congruence].
    + rewrite (in_heap_ptr _ _ Hinr Hr0). cbn [negb].
      destruct (move_up (tree_nodes h) k p r (fun y => ss y pp) (TreeNode 0 0 0 s))
        as (n & Hn' & Hk' & Hr'); try done; [by intros ->|].
      apply wp_bind. eapply wp_update_node; [exact Hn'|].
      apply wp_bind. eapply wp_update_node.
      { simpl. rewrite !lookup_insert_ne; [exact Hn|done|]. apply ptr_in in Hr0. congruence. }
      apply wp_ret. split; [done|]. eexists. split; [reflexivity|].
      split; [exact Hk'|]. split; [exact Hr'|by rewrite lookup_insert_eq].
  - assert (l <> Leaf) as Hlne by (by intros ->). destruct Hlr as [|Hr0]; [done|]. subst r.
    cbn [ptr]. rewrite Z.eqb_refl.
    replace (match l with Leaf => Leaf | _ => l end) with l by (by destruct l).
    apply wp_bind. eapply wp_update_node; [exact Hpp|]. apply wp_bind.
    eapply wp_node; [simpl; rewrite lookup_insert_ne by done; exact Hn|]. cbn [left right parent].
    rewrite (in_heap_ptr _ _ Hinl Hl0). cbn [negb].
    destruct (move_up (tree_nodes h) k p l (fun y => ss y pp) (TreeNode 0 0 0 s))
      as (n & Hn' & Hk' & Hl'); try done.
    apply wp_bind. eapply wp_update_node; [exact Hn'|].
    apply wp_bind. eapply wp_update_node.
    { simpl. rewrite !lookup_insert_ne; [exact Hn|done|]. apply ptr_in in Hl0. congruence. }
    apply wp_ret. split; [done|]. eexists. split; [reflexivity|].
    split; [exact Hk'|]. split; [exact Hl'|by rewrite lookup_insert_eq].
Qed.

(** ** The predecessor *)

(** The largest node, and the tree without it. *)
Fixpoint last_node (d : Z * Z) (t : tree) : Z * Z :=
  match t with
  | Leaf => d
  | Node _ a s r => last_node (a, s) r
  end.

Fixpoint drop_last (t : tree) : tree :=
  match t with
  | Leaf => Leaf
  | Node l a s Leaf => l
  | Node l a s r => Node l a s (drop_last r)
  end.

Lemma elements_drop_last t d :
  t <> Leaf -> elements t = elements (drop_last t) ++ [last_node d t].
Proof.
  revert d. induction t as [|l IHl a s r IHr]; intros d; [done|]. intros _.
  destruct r as [|l' a' s' r']; [done|].
  change (elements (Node l a s (Node l' a' s' r')))
    with (elements l ++ (a, s) :: elements (Node l' a' s' r')).
  change (elements (drop_last (Node l a s (Node l' a' s' r'))))
    with (elements l ++ (a, s) :: elements (drop_last (Node l' a' s' r'))).
  rewrite (IHr (a, s)) by done. by rewrite <- app_assoc.
Qed.

(** The largest node of [t] in its context: it has no right child. *)
Lemma last_node_context k t :
  t <> Leaf ->
  exists k' lq q s, (q, s) = last_node (0, 0) t /\
    plug k' (Node lq q s Leaf) = plug k t /\ plug k' lq = plug k (drop_last t) /\
    (k <> Top -> k' <> Top) /\ (around k).*1 ⊆ (around k').*1 /\ elements lq ⊆ elements t.
Proof.
  revert k. induction t as [|l IHl a s r IHr]; intros k; [done|]. intros _.
  destruct r as [|l' a' s' r'].
  - exists k, l, a, s. do 5 (split; [done|]). simpl. set_solver.
  - destruct (IHr (InRight l a s k)) as (k' & lq & q & sq & Hq & Hp & Hd & Hk & Hsub & Hlq); [done|].
    exists k', lq, q, sq. split; [exact Hq|]. split; [exact Hp|]. split; [exact Hd|].
    split; [intros _; by apply Hk|]. simpl in Hsub. rewrite fmap_app in Hsub.
    split; [set_solver|]. change (elements (Node l a s (Node l' a' s' r')))
      with (elements l ++ (a, s) :: elements (Node l' a' s' r')). set_solver.
Qed.

(** Every node is in the store, so the fuel covers every path. *)
Lemma rep_dom g par t : rep g par t -> Forall (fun a => is_Some (g !! a)) (addrs t).
Proof.
  revert par. induction t as [|l IHl a s r IHr]; intros par; simpl; [constructor|].
  intros (_ & Hn & Hl & Hr). rewrite fmap_app. apply Forall_app. split; [by eapply IHl|].
  simpl. constructor; [by eexists|by eapply IHr].
Qed.

Lemma nodup_size (g : gmap Z hmu_tree_node) (l : list Z) :
  NoDup l -> Forall (fun a => is_Some (g !! a)) l -> (length l <= size g)%nat.
Proof.
  intros Hnd Hl. rewrite <- (size_list_to_set (C := gset Z)) by done. rewrite <- size_dom.
  apply subseteq_size. intros a. rewrite elem_of_list_to_set, elem_of_dom.
  intros Ha. by eapply Forall_forall in Hl.
Qed.

Lemma path_fuel h par t :
  rep (tree_nodes h) par t -> NoDup (addrs t) -> (length (elements t) < tree_fuel h)%nat.
Proof.
  intros Ht Hnd. pose proof (nodup_size _ _ Hnd (rep_dom _ _ _ Ht)) as Hs.
  rewrite length_fmap in Hs. unfold tree_fuel. lia.
Qed.

Lemma rep_nonzero g par t : rep g par t -> 0 ∉ addrs t.
Proof.
  revert par. induction t as [|l IHl a s r IHr]; intros par; simpl; [set_solver|].
  intros (Ha & _ & Hl%IHl & Hr%IHr). rewrite fmap_app. set_solver.
Qed.

Lemma rightmost_spec fuel h par t Q :
  rep (tree_nodes h) par t -> Forall (fun e => in_heap h e.1 = true) (elements t) ->
  t <> Leaf -> (length (elements t) <= fuel)%nat ->
  Q (Some (last_node (0, 0) t).1) h -> wp no_fault (rightmost fuel (ptr t)) Q h.
Proof.
  revert fuel par. induction t as [|l IHl a s r IHr]; intros fuel par; [done|].
  intros (Ha & Hn & _ & Hr) Hin _ Hf HQ. simpl in Hf. rewrite length_app in Hf. simpl in Hf.
  destruct fuel as [|fuel]; [lia|]. cbn [rightmost ptr]. apply wp_bind. eapply wp_node; [exact Hn|].
  cbn [right]. simpl in Hin. apply Forall_app in Hin as [_ [_ Hin]%Forall_cons].
  destruct (Z.eqb_spec (ptr r) 0) as [Hr0|Hr0].
  - apply (rep_ptr _ _ _ Hr) in Hr0 as ->. by apply wp_ret.
  - apply wp_bind, wp_heap_state. rewrite (in_heap_ptr _ _ Hin Hr0). cbn [negb].
    assert (r <> Leaf) as Hne by (by intros ->).
    apply (IHr fuel a); [done|done|done|lia|]. destruct r; [done|exact HQ].
Qed.

(** ** Removing any node *)

(** The tree that takes the place of a node with the subtrees [l] and [r]. *)
Definition join (l r : tree) : tree :=
  match l, r with
  | Leaf, _ => r
  | _, Leaf => l
  | _, _ => let '(q, s) := last_node (0, 0) l in Node (drop_last l) q s r
  end.

Lemma elements_join l r : elements (join l r) = elements l ++ elements r.
Proof.
  destruct l as [|ll a s lr] eqn:El; [done|].
  destruct r as [|rl b t rr]; [by rewrite app_nil_r|].
  unfold join. rewrite <- El.
  rewrite (elements_drop_last l (0, 0)) by (by rewrite El).
  destruct (last_node (0, 0) l) as [q sq]. simpl. by rewrite <- app_assoc.
Qed.

(** The store after a conditional change of a parent pointer. *)
Lemma wp_adopt h par q t Q :
  rep (tree_nodes h) par t -> NoDup (addrs t) ->
  (forall g', rep g' q t -> (forall a, a ∉ addrs t -> g' !! a = tree_nodes h !! a) ->
    Q tt (set_tree_nodes g' h)) ->
  wp no_fault (if ptr t =? 0 then mret tt else update_node (ptr t) (set_parent q)) Q h.
Proof.
  intros Ht Hnd HQ. destruct (Z.eqb_spec (ptr t) 0) as [H0|H0].
  - apply (rep_ptr _ _ _ Ht) in H0 as ->. apply wp_ret.
    specialize (HQ (tree_nodes h)). destruct h. by apply HQ.
  - assert (t <> Leaf) as Hne by (by intros ->).
    assert (exists n, tree_nodes h !! ptr t = Some n) as [n Hn].
    { destruct t; [done|]. destruct Ht as (_ & Hn & _). by eexists. }
    eapply wp_update_node; [exact Hn|]. apply HQ.
    + by eapply rep_reparent.
    + intros a Ha. apply lookup_insert_ne. intros <-. by apply Ha, ptr_in.
Qed.

(** The node that holds the hole is determined by the context. *)
Lemma above_same g g' k p : rep_context g k p -> rep_context g' k p -> k <> Top ->
  g' !! above k = g !! above k.
Proof. destruct k; [done|..]; simpl; intros (_ & -> & _) (_ & -> & _); done. Qed.

(** The predecessor can be removed: it is a node of the same tree. *)
Lemma removable_last h k l p s r :
  removable h k l p s r -> l <> Leaf ->
  exists k' lq q sq, (q, sq) = last_node (0, 0) l /\ removable h k' lq q sq Leaf /\
    plug k' lq = plug k (Node (drop_last l) p s r).
Proof.
  intros [Hk Hnode Htop Hroot Hsane Hbelow Hnd] Hl.
  destruct (last_node_context (InLeft k p s r) l Hl)
    as (k' & lq & q & sq & Hq & Hp & Hd & Hk' & Hsub & Hlq).
  exists k', lq, q, sq. split; [done|]. split; [|exact Hd].
  assert (elements (Node lq q sq Leaf) ++ around k' ≡ₚ elements (Node l p s r) ++ around k) as Hperm.
  { rewrite <- !elements_plug. by rewrite Hp. }
  assert (rep_context (tree_nodes h) k' q /\ rep (tree_nodes h) (above k') (Node lq q sq Leaf))
    as [Hk2 Hn2].
  { apply (rep_plug (tree_nodes h) k' (Node lq q sq Leaf)). rewrite Hp. simpl.
    apply rep_plug. by split. }
  split; [done|done|by apply Hk'|..].
  - apply Hsub. simpl. rewrite fmap_app. set_solver.
  - unfold sane in *. rewrite Permutation_app_comm in Hsane. rewrite Permutation_app_comm.
    by rewrite Hperm.
  - simpl in Hbelow. apply Forall_app in Hbelow as [Hbelow _]. pose proof Hbelow as Hl'.
    rewrite (elements_drop_last l (0, 0)) in Hbelow by done. rewrite <- Hq in Hbelow.
    apply Forall_app in Hbelow as [_ Hq'].
    simpl. apply Forall_app. split; [|exact Hq']. apply Forall_forall. intros e He.
    eapply Forall_forall in Hl'; [exact Hl'|]. by apply Hlq.
  - rewrite Permutation_app_comm, Hperm, Permutation_app_comm. done.
Qed.

(** The predecessor [q], already unlinked, takes the place of [p]. *)
Lemma replace_node h k l p s r q sq v :
  removable h k l p s r -> tree_nodes h !! q = Some (TreeNode 0 0 0 sq) -> q <> 0 -> q <> p ->
  q ∉ (around k).*1 -> q ∉ addrs l -> q ∉ addrs r ->
  tree_nodes h !! above k = Some v ->
  wp no_fault (
    update_node (above k) ((if p =? right v then set_right else set_left) q);;
    np ← node p;
    update_node q (fun nq => TreeNode (left np) (right np) (parent np) (node_size nq));;
    if negb (left np =? 0) && negb (in_heap h (left np)) then corrupted false else
    (if left np =? 0 then mret tt else update_node (left np) (set_parent q));;
    if negb (right np =? 0) && negb (in_heap h (right np)) then corrupted false else
    (if right np =? 0 then mret tt else update_node (right np) (set_parent q));;
    update_node p unlinked;;
    mret true)
    (fun ok h' => ok = true /\ removed h h' k (Node l q sq r) p s) h.
Proof.
  intros Hrm Hq Hq0 Hqp Hqk Hql Hqr Hv.
  destruct (removable_parent _ _ _ _ _ _ Hrm) as (_ & _ & _ & _ & pp & Hpp & _ & Hset).
  rewrite Hv in Hpp. injection Hpp as <-.
  destruct Hrm as [Hk (Hp & Hn & Hl & Hr) Htop _ _ Hbelow Hnd].
  apply nodup_parts in Hnd as (Hndl & Hndr & Hpk & Hpl & Hpr & Hlr).
  simpl in Hbelow. apply Forall_app in Hbelow as [Hinl [_ Hinr]%Forall_cons].
  apply NoDup_app in Hndl as (_ & Hkl & Hndl). apply NoDup_app in Hndr as (_ & Hkr & Hndr).
  pose proof (above_in k Htop) as Hab.
  assert (forall t, Forall (fun e => in_heap h e.1 = true) (elements t) ->
    negb (ptr t =? 0) && negb (in_heap h (ptr t)) = false) as Hcheck.
  { intros t Ht. destruct (Z.eqb_spec (ptr t) 0) as [|H0]; [done|]. by rewrite (in_heap_ptr _ _ Ht H0). }
  apply wp_bind. eapply wp_update_node; [exact Hv|].
  apply wp_bind. eapply wp_node; [simpl; rewrite lookup_insert_ne by congruence; exact Hn|].
  cbn [left right parent]. rewrite !Hcheck by done.
  apply wp_bind. eapply wp_update_node; [simpl; rewrite lookup_insert_ne by congruence; exact Hq|].
  cbn [node_size]. cbn [tree_nodes set_tree_nodes].
  set (g2 := <[q := _]> _).
  assert (forall a, a <> above k -> a <> q -> g2 !! a = tree_nodes h !! a) as Hg2.
  { intros a Ha1 Ha2. unfold g2. by rewrite !lookup_insert_ne. }
  apply wp_bind. eapply (wp_adopt _ p); [cbn [tree_nodes set_tree_nodes];
    eapply rep_frame; [|exact Hl]; intros a Ha; apply Hg2; intros ->; [exact (Hkl _ Hab Ha)|done]|done|].
  intros g3 Hl3 Hg3. cbn [tree_nodes set_tree_nodes] in Hg3.
  apply wp_bind. eapply (wp_adopt _ p); [cbn [tree_nodes set_tree_nodes];
    eapply rep_frame; [|exact Hr]; intros a Ha|done|].
  { rewrite Hg3 by (intros Ha'; exact (Hlr _ Ha' Ha)).
    apply Hg2; intros ->; [exact (Hkr _ Hab Ha)|done]. }
  intros g4 Hr4 Hg4. cbn [tree_nodes set_tree_nodes] in Hg4.
  apply wp_bind. eapply wp_update_node.
  { cbn [tree_nodes set_tree_nodes]. rewrite Hg4, Hg3, Hg2 by congruence. exact Hn. }
  apply wp_ret. split; [done|]. eexists. split; [reflexivity|].
  cbn [tree_nodes set_tree_nodes ptr rep above]. split; [|split; [|by rewrite lookup_insert_eq]].
  - eapply rep_context_frame; [|exact (Hset q)]. intros a Ha.
    rewrite lookup_insert_ne by congruence.
    rewrite Hg4, Hg3 by (intros Hx; first [exact (Hkl _ Ha Hx) | exact (Hkr _ Ha Hx)]).
    unfold g2. by rewrite lookup_insert_ne by congruence.
  - split; [done|]. split; [|split].
    + rewrite lookup_insert_ne by done. rewrite Hg4, Hg3 by done. unfold g2.
      by rewrite lookup_insert_eq.
    + eapply rep_frame; [|exact Hl3]. intros a Ha.
      rewrite lookup_insert_ne by congruence. apply Hg4. by apply Hlr.
    + eapply rep_frame; [|exact Hr4]. intros a Ha. by rewrite lookup_insert_ne by congruence.
Qed.

Lemma remove_tree_node_spec fuel h k l p s r :
  removable h k l p s r ->
  wp no_fault (remove_tree_node (S (S fuel)) p)
    (fun ok h' => ok = true /\ removed h h' k (join l r) p s) h.
Proof.
  intros Hrm.
  destruct (decide (l = Leaf \/ r = Leaf)) as [Hlr|Hlr].
  { replace (join l r) with (match l with Leaf => r | _ => l end)
      by (destruct Hlr as [-> | ->]; [done|by destruct l]).
    by apply remove_tree_node_child. }
  assert (l <> Leaf /\ r <> Leaf) as [Hl0 Hr0] by (split; intros ->; apply Hlr; auto).
  destruct (removable_last _ _ _ _ _ _ Hrm Hl0) as (k' & lq & q & sq & Hq & Hrm' & Hplug).
  pose proof Hrm as Hrm0. remember (S fuel) as fuel1. remove_start Hrm.
  destruct Hrm as [Hk (Hp & Hn & Hl & Hr) Htop Hroot Hsane Hbelow Hnd].
  simpl in Hbelow. apply Forall_app in Hbelow as [Hinl [_ Hinr]%Forall_cons].
  destruct (Z.eqb_spec (ptr l) 0) as [E|Hpl]; [by apply (rep_ptr _ _ _ Hl) in E|].
  destruct (Z.eqb_spec (ptr r) 0) as [E|Hpr]; [by apply (rep_ptr _ _ _ Hr) in E|].
  rewrite (in_heap_ptr _ _ Hinl Hpl). cbn [negb].
  pose proof (nodup_parts _ _ _ _ _ Hnd) as (Hndl & Hndr & Hpk & Hpl' & Hpr' & Hlr').
  apply wp_bind. eapply rightmost_spec; [exact Hl|done|done| |].
  { apply NoDup_app in Hndl as (_ & _ & Hndl). pose proof (path_fuel h p l Hl Hndl). lia. }
  rewrite <- Hq. cbn [fst]. apply wp_bind. subst fuel1.
  eapply wp_mono; [apply remove_tree_node_child; [exact Hrm'|by right]|].
  intros ok h1 (-> & g1 & -> & Hk1 & Hlq1 & Hq1). cbn [negb].
  replace (match lq with Leaf => Leaf | _ => lq end) with lq in * by (by destruct lq).
  assert (rep g1 0 (plug k' lq)) as Hplug1 by (by apply rep_plug).
  rewrite Hplug in Hplug1. apply rep_plug in Hplug1 as [Hk2 Hn2].
  pose proof (elements_drop_last l (0, 0) Hl0) as Hel. rewrite <- Hq in Hel.
  replace (join l r) with (Node (drop_last l) q sq r)
    by (unfold join; rewrite <- Hq; by destruct l, r).
  apply NoDup_app in Hndl as (_ & Hkl & Hndl). rewrite Hel, fmap_app in Hndl.
  apply NoDup_app in Hndl as (Hndl & Hqd & _).
  assert (q ∈ addrs l) as Hql by (rewrite Hel, fmap_app; set_solver).
  assert (forall x, x ∈ addrs (drop_last l) -> x ∈ addrs l) as Hsub
    by (intros x Hx; rewrite Hel, fmap_app; set_solver).
  eapply wp_mono; [apply (replace_node (set_tree_nodes g1 h) k (drop_last l) p s r q sq pp)|].
  - split; try done.
    + unfold sane in *. simpl in Hsane |- *. rewrite Hel in Hsane. rewrite !Forall_app in *.
      tauto.
    + simpl. rewrite Hel, Forall_app in Hinl. apply Forall_app. split; [tauto|].
      constructor; [|done]. simpl. by destruct (removable_parent _ _ _ _ _ _ Hrm0) as (_ & _ & ? & _).
    + simpl in Hnd |- *. rewrite Hel in Hnd. rewrite <- app_assoc in Hnd. rewrite !fmap_app in *.
      eapply sublist_NoDup; [exact Hnd|]. simpl.
      apply sublist_app; [done|]. apply sublist_app; [done|]. by apply sublist_cons.
  - exact Hq1.
  - by destruct Hrm' as [_ (Hq0 & _) _ _ _ _ _].
  - congruence.
  - intros Hx. exact (Hkl _ Hx Hql).
  - intros Hx. exact (Hqd _ Hx ltac:(by left)).
  - by apply Hlr'.
  - simpl. by rewrite (above_same _ _ _ _ Hk Hk2 Htop).
  - intros ok h' (-> & g' & -> & H1 & H2 & H3). split; [done|]. by exists g'.
Qed.

(** ** Adding a node *)

Fixpoint insert_node (a s : Z) (t : tree) : tree :=
  match t with
  | Leaf => Node Leaf a s Leaf
  | Node l b u r => if u <? s then Node l b u (insert_node a s r) else Node (insert_node a s l) b u r
  end.

Lemma elements_insert_node a s t : elements (insert_node a s t) ≡ₚ (a, s) :: elements t.
Proof.
  induction t as [|l IHl b u r IHr]; simpl; [done|]. destruct (u <? s); simpl.
  - rewrite IHr. solve_Permutation.
  - by rewrite IHl.
Qed.

Lemma ptr_insert_node a s t : t <> Leaf -> ptr (insert_node a s t) = ptr t.
Proof. destruct t as [|l b u r]; [done|]. simpl. by destruct (u <? s). Qed.

(** The pointers that the walk follows are in the heap. *)
Definition below_in_heap (h : gc_heap) (t : tree) : Prop :=
  match t with
  | Leaf => True
  | Node l _ _ r => Forall (fun e => in_heap h e.1 = true) (elements l) /\
      Forall (fun e => in_heap h e.1 = true) (elements r)
  end.

Lemma below_all h t : Forall (fun e => in_heap h e.1 = true) (elements t) -> below_in_heap h t.
Proof. destruct t; simpl; [done|]. rewrite Forall_app, Forall_cons. tauto. Qed.

Lemma nodup_node l a s r :
  NoDup (addrs (Node l a s r)) ->
  NoDup (addrs l) /\ NoDup (addrs r) /\ (a ∉ addrs l) /\ (a ∉ addrs r) /\
  (forall x, x ∈ addrs l -> x ∉ addrs r).
Proof.
  intros Hnd. apply (nodup_parts Top l a s r) in Hnd as (Hl & Hr & _ & H1 & H2 & H3).
  by simpl in *.
Qed.

(** The store after the new node was linked below [par]. *)
Definition linked (h h' : gc_heap) (par p : Z) (t t' : tree) : Prop :=
  exists g', h' = set_tree_nodes g' h /\ rep g' par t' /\
    (forall a, a ∉ p :: addrs t -> g' !! a = tree_nodes h !! a).

(** The new node becomes a leaf. *)
Ltac link_leaf :=
  apply wp_bind;
  match goal with Hn : tree_nodes ?h !! ?b = Some _ |- wp _ (update_node ?b _) _ ?h =>
    eapply wp_update_node; [exact Hn|] end;
  apply wp_bind;
  match goal with Hp : tree_nodes ?h !! ?p = Some (TreeNode 0 0 0 _)
    |- wp _ (update_node ?p _) _ _ =>
    eapply wp_update_node; [simpl; rewrite lookup_insert_ne by naive_solver; exact Hp|] end;
  apply wp_ret; split; [done|]; eexists; split; [reflexivity|]; split;
  [ cbn [insert_node rep ptr tree_nodes set_tree_nodes]; split; [done|];
    split; [rewrite lookup_insert_ne, lookup_insert_eq by naive_solver; done|];
    repeat match goal with
    | |- _ /\ _ => split
    | |- True => exact I
    | |- _ <> 0 => assumption
    | |- <[?p := _]> _ !! ?p = _ => rewrite lookup_insert_eq; done
    | Ht : rep ?g ?b ?t |- rep _ ?b ?t =>
        eapply rep_frame; [|exact Ht]; intros ? ?;
        rewrite !lookup_insert_ne; [done|naive_solver..]
    end
  | intros a Ha; simpl in Ha; rewrite ?fmap_app in Ha;
    cbn [tree_nodes set_tree_nodes]; rewrite !lookup_insert_ne; [done|set_solver..] ].

Lemma link_tree_node_spec fuel h par t p s :
  rep (tree_nodes h) par t -> t <> Leaf -> (length (elements t) <= fuel)%nat ->
  NoDup (addrs t) -> below_in_heap h t -> p ∉ addrs t -> p <> 0 ->
  tree_nodes h !! p = Some (TreeNode 0 0 0 s) ->
  wp no_fault (link_tree_node fuel (ptr t) p s)
    (fun ok h' => ok = true /\ linked h h' par p t (insert_node p s t)) h.
Proof.
  revert fuel par. induction t as [|l IHl b u r IHr]; intros fuel par; [done|].
  intros (Hb & Hn & Hl & Hr) _ Hf Hnd [Hbl Hbr] Hfresh Hp0 Hp.
  apply nodup_node in Hnd as (Hndl & Hndr & Hbl' & Hbr' & Hlr).
  simpl in Hf, Hfresh. rewrite length_app in Hf. simpl in Hf. rewrite fmap_app in Hfresh.
  simpl in Hfresh. rewrite elem_of_app, elem_of_cons in Hfresh.
  destruct fuel as [|fuel]; [lia|]. cbn [link_tree_node ptr]. apply wp_bind.
  eapply wp_node; [exact Hn|]. cbn [node_size left right insert_node].
  destruct (Z.ltb_spec u s) as [Hus|Hus].
  - destruct (Z.eqb_spec (ptr r) 0) as [Hr0|Hr0].
    + apply (rep_ptr _ _ _ Hr) in Hr0 as ->. link_leaf.
    + apply wp_bind, wp_heap_state. rewrite (in_heap_ptr _ _ Hbr Hr0). cbn [negb].
      assert (r <> Leaf) as Hne by (by intros ->).
      eapply wp_mono; [apply (IHr fuel b); try done; [lia|by apply below_all|tauto]|].
      intros ok h' (-> & g' & -> & Hr' & Hg'). split; [done|]. exists g'. split; [done|].
      split; [|intros a Ha; apply Hg'; simpl in Ha; rewrite fmap_app in Ha; set_solver].
      cbn [rep]. rewrite ptr_insert_node by done. split; [done|].
      split; [rewrite Hg'; [done|rewrite elem_of_cons; naive_solver]|]. split; [|done].
      eapply rep_frame; [|exact Hl]. intros a Ha. apply Hg'. rewrite elem_of_cons.
      intros [->|Ha']; [tauto|by eapply Hlr].
  - destruct (Z.eqb_spec (ptr l) 0) as [Hl0|Hl0].
    + apply (rep_ptr _ _ _ Hl) in Hl0 as ->. link_leaf.
    + apply wp_bind, wp_heap_state. rewrite (in_heap_ptr _ _ Hbl Hl0). cbn [negb].
      assert (l <> Leaf) as Hne by (by intros ->).
      eapply wp_mono; [apply (IHl fuel b); try done; [lia|by apply below_all|tauto]|].
      intros ok h' (-> & g' & -> & Hl' & Hg'). split; [done|]. exists g'. split; [done|].
      split; [|intros a Ha; apply Hg'; simpl in Ha; rewrite fmap_app in Ha; set_solver].
      cbn [rep]. rewrite ptr_insert_node by done. split; [done|].
      split; [rewrite Hg'; [done|rewrite elem_of_cons; naive_solver]|]. split; [done|].
      eapply rep_frame; [|exact Hr]. intros a Ha. apply Hg'. rewrite elem_of_cons.
      intros [->|Ha']; [tauto|by eapply Hlr].
Qed.

(** ** The best fit *)

Fixpoint fit (size : Z) (t : tree) (last : Z) : Z :=
  match t with
  | Leaf => last
  | Node l a u r => if u <? size then fit size r last else fit size l a
  end.

Lemma best_fit_spec fuel h par t size last Q :
  rep (tree_nodes h) par t -> Forall (fun e => in_heap h e.1 = true) (elements t) ->
  (length (elements t) < fuel)%nat ->
  Q (Some (fit size t last)) h -> wp no_fault (best_fit fuel (ptr t) size last) Q h.
Proof.
  revert fuel par last. induction t as [|l IHl a u r IHr]; intros fuel par last Ht Hin Hf HQ;
    (destruct fuel as [|fuel]; [lia|]); cbn [best_fit]; [by apply wp_ret|].
  destruct Ht as (Ha & Hn & Hl & Hr). simpl in Hin, Hf. rewrite length_app in Hf. simpl in Hf.
  apply Forall_app in Hin as [Hinl [Hina Hinr]%Forall_cons]. cbn [ptr].
  apply Z.eqb_neq in Ha as ->. apply wp_bind, wp_heap_state. simpl in Hina. rewrite Hina. cbn [negb].
  apply wp_bind. eapply wp_node; [exact Hn|]. cbn [node_size left right].
  simpl in HQ. destruct (u <? size).
  - eapply IHr; [done|done|lia|done].
  - eapply IHl; [done|done|lia|done].
Qed.

(** The node found is the smallest that is large enough; none is found only
    when every node is too small. *)
Lemma fit_best size t last :
  ordered t ->
  (fit size t last = last /\ Forall (fun e => e.2 < size) (elements t)) \/
  (exists u, (fit size t last, u) ∈ elements t /\ size <= u /\
    Forall (fun e => size <= e.2 -> u <= e.2) (elements t)).
Proof.
  revert last. induction t as [|l IHl a u r IHr]; intros last; simpl; [intros _; left; done|].
  intros (Hol & Hor & Hl & Hr). destruct (Z.ltb_spec u size) as [Hu|Hu].
  - destruct (IHr last Hor) as [[He Hsmall]|(v & Hv & Hsz & Hbest)].
    + left. split; [done|]. apply Forall_app. split; [|by constructor].
      eapply Forall_impl; [exact Hl|]. simpl. lia.
    + right. exists v. split; [set_solver|]. split; [done|]. apply Forall_app.
      split; [|constructor; [simpl; lia|done]].
      eapply Forall_impl; [exact Hl|]. simpl. lia.
  - right. destruct (IHl a Hol) as [[He Hsmall]|(v & Hv & Hsz & Hbest)].
    + exists u. rewrite He. split; [set_solver|]. split; [done|]. apply Forall_app.
      split; [eapply Forall_impl; [exact Hsmall|]; simpl; lia|].
      constructor; [simpl; lia|]. eapply Forall_impl; [exact Hr|]. simpl. lia.
    + exists v. split; [set_solver|]. split; [done|]. apply Forall_app. split; [done|].
      assert (v <= u).
      { eapply Forall_forall in Hl; [|exact Hv]. simpl in Hl. lia. }
      constructor; [simpl; lia|]. eapply Forall_impl; [exact Hr|]. simpl. lia.
Qed.

(** ** The order is kept *)

Lemma ordered_insert_node a s t : ordered t -> ordered (insert_node a s t).
Proof.
  induction t as [|l IHl b u r IHr]; simpl; [intros _; repeat constructor|].
  intros (Hol & Hor & Hl & Hr). destruct (Z.ltb_spec u s); simpl.
  - do 2 (split; [tauto|]). split; [done|]. rewrite elements_insert_node. by constructor.
  - do 2 (split; [tauto|]). split; [|done]. rewrite elements_insert_node. by constructor.
Qed.

Lemma ordered_drop_last t d :
  ordered t -> t <> Leaf -> ordered (drop_last t) /\
  Forall (fun e => e.2 <= (last_node d t).2) (elements (drop_last t)).
Proof.
  revert d. induction t as [|l IHl b u r IHr]; intros d; [done|]. intros (Hol & Hor & Hl & Hr) _.
  destruct r as [|rl c v rr] eqn:Er; [simpl; done|]. rewrite <- Er in *.
  assert (r <> Leaf) as Hne by (by rewrite Er).
  replace (drop_last (Node l b u r)) with (Node l b u (drop_last r)) by (by rewrite Er).
  change (last_node d (Node l b u r)) with (last_node (b, u) r).
  destruct (IHr (b, u) Hor Hne) as [Ho Hf].
  pose proof (elements_drop_last r (b, u) Hne) as Hel. rewrite Hel in Hr.
  apply Forall_app in Hr as [Hr [Hlast _]%Forall_cons]. simpl. split; [done|].
  apply Forall_app. split; [eapply Forall_impl; [exact Hl|]; simpl; lia|].
  constructor; [simpl; lia|done].
Qed.

Lemma ordered_join l s r :
  ordered l -> ordered r -> Forall (fun e => e.2 <= s) (elements l) ->
  Forall (fun e => s < e.2) (elements r) -> ordered (join l r).
Proof.
  intros Hl Hr Hls Hrs. destruct l as [|ll a u lr] eqn:El; [done|].
  destruct r as [|rl b v rr] eqn:Er; [done|]. rewrite <- El, <- Er in *.
  assert (l <> Leaf) as Hne by (by rewrite El).
  replace (join l r) with (let '(q, s) := last_node (0, 0) l in Node (drop_last l) q s r)
    by (by rewrite El, Er).
  destruct (ordered_drop_last l (0, 0) Hl Hne) as [Ho Hf].
  pose proof (elements_drop_last l (0, 0) Hne) as Hel. rewrite Hel in Hls.
  apply Forall_app in Hls as [_ [Hq _]%Forall_cons].
  destruct (last_node (0, 0) l) as [q sq]. simpl in *. do 3 (split; [done|]).
  eapply Forall_impl; [exact Hrs|]. simpl. lia.
Qed.

Lemma ordered_hole k t : ordered (plug k t) -> ordered t.
Proof.
  revert t. induction k as [|k IH a s r|l a s k IH]; intros t; simpl; [done|..];
    intros H%IH; simpl in H; tauto.
Qed.

(** Removing the node at a hole keeps the order of the whole tree. *)
Lemma ordered_plug k t t' :
  ordered (plug k t) -> ordered t' -> elements t' ⊆ elements t -> ordered (plug k t').
Proof.
  revert t t'. induction k as [|k IH a s r|l a s k IH]; intros t t'; simpl; [done|..];
    intros Hp Ht' Hsub; eapply IH; try exact Hp.
  - assert (ordered (Node t a s r)) as (_ & Hr & Ht & Hrs) by (by eapply ordered_hole).
    simpl. do 2 (split; [done|]). split; [|done]. rewrite Forall_forall in *. set_solver.
  - simpl. set_solver.
  - assert (ordered (Node l a s t)) as (Hl & _ & Hls & Ht) by (by eapply ordered_hole).
    simpl. do 2 (split; [done|]). split; [done|]. rewrite Forall_forall in *. set_solver.
  - simpl. set_solver.
Qed.

(** ** The tree as a collection of free chunks *)

(** The root is a node of the heap structure that is never removed; the free
    chunks hang to its right. *)
Definition with_root (h : gc_heap) (rs : Z) (t : tree) : tree := Node Leaf (kfc_tree_root h) rs t.

Definition tree_holds (h : gc_heap) (es : list (Z * Z)) : Prop :=
  exists rs t, rep (tree_nodes h) 0 (with_root h rs t) /\ ordered (with_root h rs t) /\
    NoDup (addrs (with_root h rs t)) /\ Forall (fun e => in_heap h e.1 = true) (elements t) /\
    rs < HMU_FC_NORMAL_MAX_SIZE /\ elements t ≡ₚ es.

Lemma tree_holds_perm h es es' : es ≡ₚ es' -> tree_holds h es -> tree_holds h es'.
Proof. intros He (rs & t & H1 & H2 & H3 & H4 & H5 & H6). exists rs, t. by rewrite <- He. Qed.

(** The invariant only reads the nodes and the bounds of the heap. *)
Lemma tree_holds_frame h h' es :
  tree_nodes h' = tree_nodes h -> kfc_tree_root h' = kfc_tree_root h ->
  base_addr h' = base_addr h -> current_size h' = current_size h ->
  tree_holds h es -> tree_holds h' es.
Proof.
  intros Hn Hr Hb Hc. unfold tree_holds, with_root, in_heap. by rewrite Hn, Hr, Hb, Hc.
Qed.

Lemma node_context k0 t p s :
  (p, s) ∈ elements t ->
  exists k l r, plug k0 t = plug k (Node l p s r) /\ (k0 <> Top -> k <> Top) /\
    (around k0).*1 ⊆ (around k).*1 /\ elements (Node l p s r) ⊆ elements t /\
    (forall x, exists y, plug k x = plug k0 y).
Proof.
  revert k0. induction t as [|l IHl a u r IHr]; intros k0; simpl; [by intros ?%elem_of_nil|].
  rewrite elem_of_app, elem_of_cons. intros [Hl|[He|Hr]].
  - destruct (IHl (InLeft k0 a u r) Hl) as (k & l' & r' & Hp & Hk & Hs & He & Hy).
    exists k, l', r'. split; [exact Hp|]. split; [intros _; by apply Hk|].
    simpl in Hs. rewrite fmap_app in Hs. split; [set_solver|]. split; [set_solver|].
    intros x. destruct (Hy x) as [y Hy']. by eexists.
  - injection He as <- <-. exists k0, l, r. do 4 (split; [done|]). by eexists.
  - destruct (IHr (InRight l a u k0) Hr) as (k & l' & r' & Hp & Hk & Hs & He & Hy).
    exists k, l', r'. split; [exact Hp|]. split; [intros _; by apply Hk|].
    simpl in Hs. rewrite fmap_app in Hs. split; [set_solver|]. split; [set_solver|].
    intros x. destruct (Hy x) as [y Hy']. by eexists.
Qed.

Lemma tree_remove h p s es :
  tree_holds h ((p, s) :: es) ->
  wp no_fault (remove_tree_node 2 p) (fun ok h' => ok = true /\ exists g',
    h' = set_tree_nodes g' h /\ g' !! p = Some (TreeNode 0 0 0 s) /\ tree_holds h' es) h.
Proof.
  intros (rs & t & Hrep & Hord & Hnd & Hin & Hrs & Hel).
  set (k0 := InRight Leaf (kfc_tree_root h) rs Top).
  destruct (node_context k0 t p s) as (k & l & r & Hp & Hk & Hs & He & Hy);
    [rewrite Hel; by left|].
  change (plug k0 t) with (with_root h rs t) in Hp.
  assert (around k ++ elements (Node l p s r) ≡ₚ (kfc_tree_root h, rs) :: elements t) as Hperm.
  { rewrite Permutation_app_comm, <- elements_plug, <- Hp. done. }
  assert (removable h k l p s r) as Hrm.
  { rewrite Hp in Hrep. apply rep_plug in Hrep as [H1 H2].
    split; [done|done|by apply Hk|apply Hs; simpl; set_solver|..].
    - unfold sane. rewrite Hperm. constructor; [by left|].
      eapply Forall_impl; [exact Hin|]. simpl. auto.
    - apply Forall_forall. intros e Hx. eapply Forall_forall in Hin; [exact Hin|]. by apply He.
    - rewrite Hperm. exact Hnd. }
  eapply wp_mono; [exact (remove_tree_node_spec 0 _ _ _ _ _ _ Hrm)|].
  intros ok h' (-> & g' & -> & Hk' & Hr' & Hp'). split; [done|]. exists g'. split; [done|].
  split; [done|].
  assert (rep g' 0 (plug k (join l r))) as Hrep' by (by apply rep_plug).
  assert (ordered (plug k (join l r))) as Hord'.
  { rewrite Hp in Hord. eapply ordered_plug; [exact Hord|..].
    - apply ordered_hole in Hord as (H1 & H2 & H3 & H4). by eapply ordered_join.
    - rewrite elements_join. simpl. set_solver. }
  destruct (Hy (join l r)) as [t' Ht']. change (plug k0 t') with (with_root h rs t') in Ht'.
  assert (elements t' ≡ₚ es) as Hel'.
  { apply (Permutation_cons_inv (a := (kfc_tree_root h, rs))).
    change (_ :: elements t') with (elements (with_root h rs t')). rewrite <- Ht'.
    rewrite elements_plug, elements_join. apply (Permutation_cons_inv (a := (p, s))).
    rewrite perm_swap. rewrite <- Hel, <- Hperm. simpl. solve_Permutation. }
  rewrite Ht' in *. exists rs, t'. do 2 (split; [done|]). split; [|split; [|done]].
  - simpl in Hnd |- *. rewrite Hel in Hnd. rewrite Hel'. simpl in Hnd.
    apply NoDup_cons in Hnd as [Hn1 [_ Hn2]%NoDup_cons]. constructor; set_solver.
  - rewrite Hel'. rewrite Hel in Hin. by apply Forall_cons in Hin as [_ Hin].
Qed.

Lemma tree_link h p s es :
  tree_holds h es -> p ∉ kfc_tree_root h :: es.*1 -> p <> 0 -> in_heap h p = true ->
  HMU_FC_NORMAL_MAX_SIZE <= s ->
  wp no_fault (set_node p (TreeNode 0 0 0 s);; h ← heap_state;
      link_tree_node (tree_fuel h) (kfc_tree_root h) p s)
    (fun ok h' => ok = true /\ exists g', h' = set_tree_nodes g' h /\
      tree_holds h' ((p, s) :: es)) h.
Proof.
  intros (rs & t & Hrep & Hord & Hnd & Hin & Hrs & Hel) Hfresh Hp0 Hpin Hs.
  apply wp_bind, wp_set_node. apply wp_bind, wp_heap_state.
  set (h1 := set_tree_nodes _ h).
  assert (p ∉ addrs (with_root h rs t)) as Hfresh'.
  { simpl. rewrite Hel. exact Hfresh. }
  assert (rep (tree_nodes h1) 0 (with_root h rs t)) as Hrep1.
  { eapply rep_frame; [|exact Hrep]. intros a Ha. simpl. rewrite lookup_insert_ne; congruence. }
  eapply wp_mono; [apply (link_tree_node_spec _ h1 0 (with_root h rs t) p s); try done|].
  - pose proof (path_fuel h1 _ _ Hrep1 Hnd). lia.
  - simpl. by rewrite lookup_insert_eq.
  - intros ok h' (-> & g' & -> & Hr' & _). split; [done|]. exists g'. split; [done|].
    assert (insert_node p s (with_root h rs t) = with_root h rs (insert_node p s t)) as Hins.
    { simpl. by destruct (Z.ltb_spec rs s); [|lia]. }
    exists rs, (insert_node p s t). pose proof (ordered_insert_node p s _ Hord) as Hord'.
    rewrite Hins in *. split; [done|]. split; [done|]. split; [|split; [|split; [done|]]].
    + simpl in Hnd |- *. rewrite elements_insert_node. simpl in Hfresh' |- *.
      apply not_elem_of_cons in Hfresh' as [Hne Hni]. apply NoDup_cons in Hnd as [Hn1 Hn2].
      constructor; [|by constructor]. rewrite elem_of_cons. naive_solver.
    + rewrite elements_insert_node. by constructor.
    + by rewrite elements_insert_node, Hel.
Qed.

(** The search of [alloc_hmu]: the smallest chunk that is large enough. *)
Lemma tree_fit h es size (Q : option Z -> gc_heap -> Prop) :
  tree_holds h es ->
  (Forall (fun e => e.2 < size) es -> Q (Some 0) h) ->
  (forall p s, (p, s) ∈ es -> size <= s -> p <> 0 ->
    Forall (fun e => size <= e.2 -> s <= e.2) es -> Q (Some p) h) ->
  wp no_fault (root ← node (kfc_tree_root h); best_fit (tree_fuel h) (right root) size 0) Q h.
Proof.
  intros (rs & t & Hrep & Hord & Hnd & Hin & Hrs & Hel) Hnone Hsome.
  destruct Hrep as (Hr0 & Hn & _ & Ht). apply wp_bind. eapply wp_node; [exact Hn|]. cbn [right].
  destruct Hord as (_ & Hord & _).
  eapply (best_fit_spec _ _ (kfc_tree_root h)); [done|done|..].
  { apply NoDup_cons in Hnd as [_ Hnd]. by eapply path_fuel. }
  destruct (fit_best size t 0 Hord) as [[-> Hsmall]|(u & Hu & Hsz & Hbest)].
  - apply Hnone. by rewrite <- Hel.
  - apply (Hsome _ u); [by rewrite <- Hel|done| |by rewrite <- Hel].
    intros E. rewrite E in Hu. apply (rep_nonzero _ _ _ Ht). apply list_elem_of_fmap.
    by exists (0, u).
Qed.
