(* ===== verification/EmsFree.v ===== *)
(** * The free chunks of the heap

    The headers of chunks, the lists of small free chunks, and the collection
    that lists and tree form together: [gci_add_fc] adds a chunk to it,
    [unlink_hmu] removes one, and [alloc_hmu] takes one that is large enough
    whenever there is one. *)

From S2P Require Import Prelude Memory Ems EmsTree.

(** ** Bits of a header *)

Lemma GETBIT_testbit v i : 0 <= i -> GETBIT v i = Z.testbit v i.
Proof.
  intros Hi. unfold GETBIT. rewrite Z.shiftl_1_l.
  destruct (Z.testbit v i) eqn:E.
  - destruct (Z.eqb_spec (Z.land v (2 ^ i)) 0) as [H|]; [|done].
    pose proof (Z.land_spec v (2 ^ i) i) as Hs. rewrite H, E, Z.pow2_bits_true, Z.bits_0 in Hs; done.
  - destruct (Z.eqb_spec (Z.land v (2 ^ i)) 0) as [|H]; [done|]. exfalso. apply H.
    apply Z.bits_inj'. intros j Hj. rewrite Z.land_spec, Z.bits_0, Z.pow2_bits_eqb by done.
    destruct (Z.eqb_spec i j) as [<-|]; [by rewrite E|by rewrite andb_false_r].
Qed.

Lemma SETBIT_testbit v i j : 0 <= i -> Z.testbit (SETBIT v i) j = (i =? j) || Z.testbit v j.
Proof.
  intros Hi. unfold SETBIT. rewrite Z.shiftl_1_l, Z.lor_spec, Z.pow2_bits_eqb by done.
  by rewrite orb_comm.
Qed.

Lemma CLRBIT_testbit v i j : 0 <= i -> Z.testbit (CLRBIT v i) j = negb (i =? j) && Z.testbit v j.
Proof.
  intros Hi. unfold CLRBIT. rewrite Z.shiftl_1_l, Z.ldiff_spec, Z.pow2_bits_eqb by done.
  by rewrite andb_comm.
Qed.

(** A mask of [n] bits at [off]. *)
Lemma mask_testbit off n j :
  0 <= off -> 0 <= n -> 0 <= j ->
  Z.testbit (Z.shiftl (Z.shiftl 1 n - 1) off) j = (off <=? j) && (j <? off + n).
Proof.
  intros Ho Hn Hj. rewrite Z.shiftl_spec, Z.shiftl_1_l by done.
  change (2 ^ n - 1) with (Z.pred (2 ^ n)) || replace (2 ^ n - 1) with (Z.pred (2 ^ n)) by lia.
  rewrite <- Z.ones_equiv. destruct (Z.leb_spec off j).
  - destruct (Z.ltb_spec j (off + n)); simpl.
    + apply Z.ones_spec_low. lia.
    + apply Z.ones_spec_high. lia.
  - apply Z.testbit_neg_r. lia.
Qed.

Lemma SETBITS_testbit v off n x j :
  0 <= off -> 0 <= n -> off + n <= 32 -> 0 <= x < 2 ^ n -> 0 <= j ->
  Z.testbit (SETBITS v off n x) j =
    if (off <=? j) && (j <? off + n) then Z.testbit x (j - off) else Z.testbit v j.
Proof.
  intros Ho Hn Hw Hx Hj. unfold SETBITS. rewrite Z.lor_spec, Z.ldiff_spec, mask_testbit by done.
  assert (wrap32 (Z.shiftl x off) = Z.shiftl x off) as ->.
  { unfold wrap32. rewrite Z.shiftl_mul_pow2 by done. apply Z.mod_small.
    assert (2 ^ n * 2 ^ off <= 2 ^ 32) by (rewrite <- Z.pow_add_r by done; apply Z.pow_le_mono_r; lia).
    nia. }
  rewrite Z.shiftl_spec by done.
  destruct (Z.leb_spec off j); simpl.
  - destruct (Z.ltb_spec j (off + n)); simpl.
    + by rewrite andb_false_r.
    + rewrite andb_true_r. replace (Z.testbit x (j - off)) with false; [by rewrite orb_false_r|].
      symmetry. destruct (decide (x = 0)) as [->|Hx0]; [apply Z.bits_0|].
      apply Z.bits_above_log2; [lia|]. apply Z.log2_lt_pow2; [lia|].
      eapply Z.lt_le_trans; [apply Hx|]. apply Z.pow_le_mono_r; lia.
  - rewrite andb_true_r, (Z.testbit_neg_r x) by lia. by rewrite orb_false_r.
Qed.

Lemma GETBITS_testbit v off n j :
  0 <= off -> 0 <= n -> 0 <= j ->
  Z.testbit (GETBITS v off n) j = (j <? n) && Z.testbit v (j + off).
Proof.
  intros Ho Hn Hj. unfold GETBITS. rewrite Z.shiftr_spec, Z.land_spec, mask_testbit by lia.
  destruct (Z.leb_spec off (j + off)); [|lia]. rewrite andb_comm.
  f_equal. simpl. destruct (Z.ltb_spec (j + off) (off + n)), (Z.ltb_spec j n); lia || done.
Qed.

(** A field depends on its bits only. *)
Lemma GETBITS_ext v v' off n :
  0 <= off -> 0 <= n ->
  (forall j, off <= j < off + n -> Z.testbit v j = Z.testbit v' j) ->
  GETBITS v off n = GETBITS v' off n.
Proof.
  intros Ho Hn H. apply Z.bits_inj'. intros j Hj. rewrite !GETBITS_testbit by done.
  destruct (Z.ltb_spec j n); simpl; [apply H; lia|done].
Qed.

Lemma GETBITS_SETBITS v off n x :
  0 <= off -> 0 <= n -> off + n <= 32 -> 0 <= x < 2 ^ n -> GETBITS (SETBITS v off n x) off n = x.
Proof.
  intros Ho Hn Hw Hx. apply Z.bits_inj'. intros j Hj.
  rewrite GETBITS_testbit, SETBITS_testbit by lia.
  destruct (Z.leb_spec off (j + off)); [|lia].
  destruct (Z.ltb_spec (j + off) (off + n)), (Z.ltb_spec j n); try lia; simpl.
  - f_equal. lia.
  - symmetry. destruct (decide (x = 0)) as [->|Hx0]; [apply Z.bits_0|].
    apply Z.bits_above_log2; [lia|]. apply Z.log2_lt_pow2; [lia|].
    eapply Z.lt_le_trans; [apply Hx|]. apply Z.pow_le_mono_r; lia.
Qed.

(** ** Fields of a header *)

Ltac header_unfold :=
  unfold hmu_get_ut, hmu_set_ut, hmu_mark_pinuse, hmu_unmark_pinuse, hmu_get_pinuse,
    hmu_is_vo_freed, hmu_unfree_vo, hmu_get_size, hmu_set_size, HMU_UT_SIZE, HMU_UT_OFFSET,
    HMU_P_OFFSET, HMU_VO_FB_OFFSET, HMU_SIZE_SIZE, HMU_SIZE_OFFSET.

(** Another field, or another bit, than the one that was written. *)
Ltac other_bits :=
  rewrite ?SETBITS_testbit, ?SETBIT_testbit, ?CLRBIT_testbit, ?Z.mod_pow2_bits_low by lia;
  repeat match goal with
  | |- context [?a <=? ?b] => destruct (Z.leb_spec a b)
  | |- context [?a <? ?b] => destruct (Z.ltb_spec a b)
  | |- context [?a =? ?b] => destruct (Z.eqb_spec a b)
  end; simpl; (lia || done).

Ltac other_field :=
  intros; header_unfold; try apply (f_equal (fun x => Z.shiftl x 3));
  first
  [ rewrite !GETBIT_testbit by lia; other_bits
  | apply GETBITS_ext; [lia|lia|]; intros; other_bits ].

(** A size that fits a header. *)
Definition size_ok (s : Z) : Prop := 0 <= s < 2 ^ 30 /\ s mod 8 = 0.

Lemma size_field s : size_ok s -> 0 <= Z.shiftr s 3 < 2 ^ 27 /\ Z.shiftl (Z.shiftr s 3) 3 = s.
Proof.
  intros [Hs Hm]. rewrite Z.shiftr_div_pow2, Z.shiftl_mul_pow2 by lia. change (2 ^ 3) with 8.
  pose proof (Z.div_mod s 8). lia.
Qed.

Section fields.
Implicit Types v : Z.

Lemma get_ut_set_ut t v : 0 <= t < 4 -> hmu_get_ut (hmu_set_ut t v) = t.
Proof. intros Ht. header_unfold. apply GETBITS_SETBITS; lia. Qed.
Lemma get_size_set_ut t v : 0 <= t < 4 -> hmu_get_size (hmu_set_ut t v) = hmu_get_size v.
Proof. other_field. Qed.
Lemma get_pinuse_set_ut t v : 0 <= t < 4 -> hmu_get_pinuse (hmu_set_ut t v) = hmu_get_pinuse v.
Proof. other_field. Qed.
Lemma is_freed_set_ut t v : 0 <= t < 4 -> hmu_is_vo_freed (hmu_set_ut t v) = hmu_is_vo_freed v.
Proof. other_field. Qed.

Lemma get_size_set_size s v : size_ok s -> hmu_get_size (hmu_set_size s v) = s.
Proof.
  intros [Hs Hsh]%size_field. header_unfold. rewrite GETBITS_SETBITS by lia. exact Hsh.
Qed.
Lemma get_ut_set_size s v : size_ok s -> hmu_get_ut (hmu_set_size s v) = hmu_get_ut v.
Proof. intros [Hs _]%size_field. other_field. Qed.
Lemma get_pinuse_set_size s v : size_ok s -> hmu_get_pinuse (hmu_set_size s v) = hmu_get_pinuse v.
Proof. intros [Hs _]%size_field. other_field. Qed.
Lemma is_freed_set_size s v : size_ok s -> hmu_is_vo_freed (hmu_set_size s v) = hmu_is_vo_freed v.
Proof. intros [Hs _]%size_field. other_field. Qed.

Lemma get_pinuse_mark v : hmu_get_pinuse (hmu_mark_pinuse v) = true.
Proof. header_unfold. rewrite GETBIT_testbit, SETBIT_testbit by lia. done. Qed.
Lemma get_ut_mark v : hmu_get_ut (hmu_mark_pinuse v) = hmu_get_ut v.
Proof. other_field. Qed.
Lemma get_size_mark v : hmu_get_size (hmu_mark_pinuse v) = hmu_get_size v.
Proof. other_field. Qed.
Lemma is_freed_mark v : hmu_is_vo_freed (hmu_mark_pinuse v) = hmu_is_vo_freed v.
Proof. other_field. Qed.

Lemma get_pinuse_unmark v : hmu_get_pinuse (hmu_unmark_pinuse v) = false.
Proof. header_unfold. rewrite GETBIT_testbit, CLRBIT_testbit by lia. done. Qed.
Lemma get_ut_unmark v : hmu_get_ut (hmu_unmark_pinuse v) = hmu_get_ut v.
Proof. other_field. Qed.
Lemma get_size_unmark v : hmu_get_size (hmu_unmark_pinuse v) = hmu_get_size v.
Proof. other_field. Qed.
Lemma is_freed_unmark v : hmu_is_vo_freed (hmu_unmark_pinuse v) = hmu_is_vo_freed v.
Proof. other_field. Qed.

Lemma is_freed_unfree v : hmu_is_vo_freed (hmu_unfree_vo v) = false.
Proof. header_unfold. rewrite GETBIT_testbit, CLRBIT_testbit by lia. done. Qed.
Lemma get_ut_unfree v : hmu_get_ut (hmu_unfree_vo v) = hmu_get_ut v.
Proof. other_field. Qed.
Lemma get_size_unfree v : hmu_get_size (hmu_unfree_vo v) = hmu_get_size v.
Proof. other_field. Qed.
Lemma get_pinuse_unfree v : hmu_get_pinuse (hmu_unfree_vo v) = hmu_get_pinuse v.
Proof. other_field. Qed.

(** The fields of a word that was stored. *)
Lemma get_ut_word v : hmu_get_ut (v mod 2 ^ 32) = hmu_get_ut v.
Proof. other_field. Qed.
Lemma get_size_word v : hmu_get_size (v mod 2 ^ 32) = hmu_get_size v.
Proof. other_field. Qed.
Lemma get_pinuse_word v : hmu_get_pinuse (v mod 2 ^ 32) = hmu_get_pinuse v.
Proof. other_field. Qed.
Lemma is_freed_word v : hmu_is_vo_freed (v mod 2 ^ 32) = hmu_is_vo_freed v.
Proof. other_field. Qed.
End fields.

Create Rewrite HintDb hmu.
#[export] Hint Rewrite get_ut_mark get_size_mark is_freed_mark get_pinuse_mark get_pinuse_unmark
  get_ut_unmark get_size_unmark is_freed_unmark is_freed_unfree get_ut_unfree get_size_unfree
  get_pinuse_unfree get_ut_word get_size_word get_pinuse_word is_freed_word : hmu.
#[export] Hint Rewrite get_ut_set_ut get_size_set_ut get_pinuse_set_ut is_freed_set_ut using
  (unfold HMU_FC, HMU_VO; lia) : hmu.
#[export] Hint Rewrite get_size_set_size get_ut_set_size get_pinuse_set_size is_freed_set_size
  using done : hmu.

(** ** Lists of small chunks *)

Definition next_of (m : memory) (x : Z) : Z :=
  let o := signed32 (load32 m (x + HMU_SIZE)) in if o =? 0 then 0 else x + o.

(** The chunks of a list, from the pointer to its first one. *)
Fixpoint list_at (m : memory) (p : Z) (l : list Z) : Prop :=
  match l with
  | [] => p = 0
  | x :: l => p = x /\ x <> 0 /\ list_at m (next_of m x) l
  end.

Lemma list_at_frame m m' p l :
  (forall x, x ∈ l -> agree m m' (x + 4) (x + 8)) -> list_at m p l -> list_at m' p l.
Proof.
  revert p. induction l as [|x l IH]; intros p Hm; simpl; [done|]. intros (-> & Hx & Hl).
  split; [done|]. split; [done|].
  assert (next_of m' x = next_of m x) as ->.
  { unfold next_of, HMU_SIZE. rewrite (load32_agree m m' (x + 4) (x + 4) (x + 8)); [done| |lia..].
    apply Hm. by left. }
  apply IH; [|done]. intros y Hy. apply Hm. by right.
Qed.

Lemma next_of_stored m x y :
  y <> x -> - 2 ^ 31 <= y - x < 2 ^ 31 \/ y = 0 ->
  next_of (store32 (x + HMU_SIZE) (if y =? 0 then 0 else wrap32 (y - x)) m) x = y.
Proof.
  intros Hne Hd. unfold next_of. rewrite load32_store32_same.
  destruct (Z.eqb_spec y 0) as [->|Hy]; [done|]. destruct Hd as [Hd|]; [|done].
  unfold wrap32. rewrite Z.mod_mod by lia. unfold signed32.
  destruct (decide (0 <= y - x)).
  - rewrite Z.mod_small by lia. destruct (Z.ltb_spec (y - x) (2 ^ 31)); [|lia].
    destruct (Z.eqb_spec (y - x) 0); lia.
  - replace ((y - x) mod 2 ^ 32) with (y - x + 2 ^ 32)
      by (apply Z.mod_unique_pos with (-1); lia).
    destruct (Z.ltb_spec (y - x + 2 ^ 32) (2 ^ 31)); [lia|].
    destruct (Z.eqb_spec (y - x + 2 ^ 32 - 2 ^ 32) 0); lia.
Qed.

Lemma wp_next x Q h : Q (next_of (mem h) x) h -> wp no_fault (get_hmu_normal_node_next x) Q h.
Proof. done. Qed.

Lemma wp_normal_head i p Q h :
  kfc_normal_list h !! Z.to_nat i = Some p -> Q p h -> wp no_fault (normal_head i) Q h.
Proof.
  intros Hp HQ. unfold normal_head, wp, mbind, M_bind, heap_state, gets. simpl. by rewrite Hp.
Qed.

(** ** The collection of free chunks *)

(** A chunk [(a, s)] of the pool: its object is aligned to 8 bytes. *)
Record chunk_ok (h : gc_heap) (a s : Z) : Prop := {
  co_low : base_addr h <= a;
  co_high : a + s <= base_addr h + current_size h;
  co_size : GC_SMALLEST_SIZE <= s;
  co_aligned : (a + HMU_SIZE) mod 8 = 0;
  co_multiple : s mod 8 = 0
}.

(** The bounds of a pool that headers can describe. *)
Record pool_ok (h : gc_heap) : Prop := {
  po_base : 0 < base_addr h;
  po_size : 0 < current_size h < 2 ^ 30;
  po_root : kfc_tree_root h < base_addr h \/ base_addr h + current_size h <= kfc_tree_root h
}.

Definition apart_chunks (a s b t : Z) : Prop := a + s <= b \/ b + t <= a.

(** The small free chunks of [8 * i] bytes. *)
Definition bucket (i : Z) (fs : list (Z * Z)) : list Z :=
  (filter (fun e => e.2 = 8 * i /\ e.2 < HMU_FC_NORMAL_MAX_SIZE) fs).*1.

Definition large (fs : list (Z * Z)) : list (Z * Z) :=
  filter (fun e => HMU_FC_NORMAL_MAX_SIZE <= e.2) fs.

Record free_store (h : gc_heap) (fs : list (Z * Z)) : Prop := {
  fs_length : length (kfc_normal_list h) = HMU_NORMAL_NODE_CNT;
  fs_lists : forall i p, kfc_normal_list h !! i = Some p ->
    exists l, list_at (mem h) p l /\ l ≡ₚ bucket (Z.of_nat i) fs;
  fs_tree : tree_holds h (large fs);
  fs_chunks : forall a s, (a, s) ∈ fs -> chunk_ok h a s;
  fs_nodup : NoDup fs.*1;
  fs_apart : forall a s b t, (a, s) ∈ fs -> (b, t) ∈ fs -> a <> b -> apart_chunks a s b t
}.

Lemma free_store_perm h fs fs' : fs ≡ₚ fs' -> free_store h fs -> free_store h fs'.
Proof.
  intros Hp [H1 H2 H3 H4 H5 H6]. split; [done|..].
  - intros i p Hi. destruct (H2 i p Hi) as (l & Hl & Hb). exists l. split; [done|].
    unfold bucket in *. by rewrite <- Hp.
  - eapply tree_holds_perm, H3. unfold large. by rewrite Hp.
  - intros a s. rewrite <- Hp. apply H4.
  - by rewrite <- Hp.
  - intros a s b t. rewrite <- !Hp. apply H6.
Qed.

Lemma bucket_subset i fs x : x ∈ bucket i fs -> exists s, (x, s) ∈ fs.
Proof.
  unfold bucket. intros ([y s] & -> & Hy)%list_elem_of_fmap. apply list_elem_of_filter in Hy as [_ Hy].
  by exists s.
Qed.

(** What the operations on free chunks leave alone. *)
Record same_heap (h h' : gc_heap) : Prop := {
  sh_base : base_addr h' = base_addr h;
  sh_size : current_size h' = current_size h;
  sh_root : kfc_tree_root h' = kfc_tree_root h;
  sh_corrupted : is_heap_corrupted h' = is_heap_corrupted h;
  sh_highmark : highmark_size h' = highmark_size h;
  sh_free : total_free_size h' = total_free_size h
}.

#[export] Instance same_heap_preorder : PreOrder same_heap.
Proof.
  split; [by split|]. intros h1 h2 h3 [] []. split; congruence.
Qed.

Lemma same_in_heap h h' p : same_heap h h' -> in_heap h' p = in_heap h p.
Proof. intros [Hb Hs _ _ _ _]. unfold in_heap. by rewrite Hb, Hs. Qed.

Lemma same_pool_ok h h' : same_heap h h' -> pool_ok h -> pool_ok h'.
Proof. intros [Hb Hs Hr _ _ _] []. by split; rewrite ?Hb, ?Hs, ?Hr. Qed.

Lemma same_chunk_ok h h' a s : same_heap h h' -> chunk_ok h a s -> chunk_ok h' a s.
Proof. intros [Hb Hs _ _ _ _] []. by split; rewrite ?Hb, ?Hs. Qed.

Lemma same_tree_holds h h' es :
  same_heap h h' -> tree_nodes h' = tree_nodes h -> tree_holds h es -> tree_holds h' es.
Proof. intros [Hb Hs Hr _ _ _] Hn. by apply tree_holds_frame. Qed.

Lemma chunk_in_heap h a s : pool_ok h -> chunk_ok h a s -> in_heap h a = true.
Proof.
  intros [] []. unfold in_heap, hmu_is_in_heap. change GC_SMALLEST_SIZE with 16 in *.
  apply andb_true_iff. rewrite Z.leb_le, Z.ltb_lt. lia.
Qed.

(** The collection does not depend on the memory outside of its links. *)
Lemma free_store_frame h h' fs :
  free_store h fs -> same_heap h h' -> tree_nodes h' = tree_nodes h ->
  kfc_normal_list h' = kfc_normal_list h ->
  (forall a s, (a, s) ∈ fs -> agree (mem h) (mem h') (a + 4) (a + 8)) -> free_store h' fs.
Proof.
  intros [H1 H2 H3 H4 H5 H6] Hs Hn Hl Hm. split; [by rewrite Hl|..|done|done].
  - intros i p. rewrite Hl. intros Hi. destruct (H2 i p Hi) as (l & Hla & Hb). exists l.
    split; [|done]. eapply list_at_frame; [|exact Hla]. intros x Hx. rewrite Hb in Hx.
    apply bucket_subset in Hx as [s Hx]. by eapply Hm.
  - by eapply same_tree_holds.
  - intros a s Ha. eapply same_chunk_ok; [done|]. by apply H4.
Qed.

(** ** Adding a chunk *)

(** The words of a free chunk that [gci_add_fc] writes, apart from its link. *)
Definition marked_free (m m' : memory) (p s : Z) : Prop :=
  hmu_get_ut (load32 m' p) = HMU_FC /\ hmu_get_size (load32 m' p) = s /\
  hmu_get_pinuse (load32 m' p) = hmu_get_pinuse (load32 m p) /\
  load32 m' (p + s - 4) = s /\
  (forall b c, c <= p \/ p + s <= b -> agree m m' b c).

Definition write_free (p s : Z) (m : memory) : memory :=
  let m := store32 p (hmu_set_ut HMU_FC (load32 m p)) m in
  let m := store32 p (hmu_set_size s (load32 m p)) m in
  store32 (p + s - 4) s m.

Lemma chunk_size_ok h a s : pool_ok h -> chunk_ok h a s -> size_ok s /\ 16 <= s.
Proof.
  intros [] []. change GC_SMALLEST_SIZE with 16 in *. unfold size_ok. split; [|done].
  split; [lia|done].
Qed.

Lemma write_free_marked m p s : size_ok s -> 16 <= s -> marked_free m (write_free p s m) p s.
Proof.
  intros Hs H16. unfold write_free, marked_free. rewrite load32_store32_same.
  rewrite !load32_store32_other by lia. rewrite !load32_store32_same. autorewrite with hmu.
  do 3 (split; [done|]). split; [apply Z.mod_small; destruct Hs; lia|].
  intros b c Hbc. eapply agree_trans; [eapply agree_trans|];
    apply store32_agree; lia.
Qed.

(** A link written into a marked chunk does not disturb its other words. *)
Lemma marked_free_link m m' p s v :
  16 <= s -> marked_free m m' p s -> marked_free m (store32 (p + HMU_SIZE) v m') p s.
Proof.
  unfold marked_free, HMU_SIZE. intros Hs (H1 & H2 & H3 & H4 & H5).
  rewrite !load32_store32_other by lia. do 4 (split; [done|]).
  intros b c Hbc. eapply agree_trans; [by apply H5|]. apply store32_agree. lia.
Qed.

Lemma bucket_cons i p s fs :
  bucket i ((p, s) :: fs) =
    if decide (s = 8 * i /\ s < HMU_FC_NORMAL_MAX_SIZE) then p :: bucket i fs else bucket i fs.
Proof. unfold bucket. rewrite filter_cons. simpl. by destruct (decide _). Qed.

Lemma large_cons p s fs :
  large ((p, s) :: fs) = if decide (HMU_FC_NORMAL_MAX_SIZE <= s) then (p, s) :: large fs else large fs.
Proof. unfold large. rewrite filter_cons. simpl. by destruct (decide _). Qed.

(** The index of the list for a small size. *)
Lemma small_index s :
  size_ok s -> s < HMU_FC_NORMAL_MAX_SIZE -> 0 <= Z.shiftr s 3 < 31 /\ s = 8 * Z.shiftr s 3.
Proof.
  intros [Hs Hm] Hsm. change HMU_FC_NORMAL_MAX_SIZE with 248 in *.
  rewrite Z.shiftr_div_pow2 by lia. change (2 ^ 3) with 8. pose proof (Z.div_mod s 8). lia.
Qed.

(** The first chunk of a list is a free chunk of the pool. *)
Lemma list_head_free m fs i q l :
  list_at m q l -> l ≡ₚ bucket i fs -> q = 0 \/ exists t, (q, t) ∈ fs.
Proof.
  intros Hl Hb. destruct l as [|x l]; [by left|]. right. destruct Hl as (-> & _).
  apply (bucket_subset i). rewrite <- Hb. by left.
Qed.

Section add.
Context (h : gc_heap) (fs : list (Z * Z)) (p s : Z).
Context (Hpool : pool_ok h) (Hfree : free_store h fs) (Hchunk : chunk_ok h p s).
Context (Hapart : forall b t, (b, t) ∈ fs -> apart_chunks p s b t).

Lemma fresh_chunk : p ∉ fs.*1.
Proof.
  intros ([b t] & -> & Hb)%list_elem_of_fmap. pose proof (Hapart _ _ Hb) as Ha.
  pose proof (chunk_size_ok _ _ _ Hpool Hchunk). pose proof (fs_chunks _ _ Hfree _ _ Hb) as Hc.
  pose proof (chunk_size_ok _ _ _ Hpool Hc). unfold apart_chunks in Ha. simpl in *. lia.
Qed.

(** The collection with the new chunk, from its lists and its tree. *)
Lemma free_store_add h' :
  same_heap h h' -> length (kfc_normal_list h') = HMU_NORMAL_NODE_CNT ->
  (forall i q, kfc_normal_list h' !! i = Some q ->
    exists l, list_at (mem h') q l /\ l ≡ₚ bucket (Z.of_nat i) ((p, s) :: fs)) ->
  tree_holds h' (large ((p, s) :: fs)) -> free_store h' ((p, s) :: fs).
Proof.
  intros Hs Hlen Hl Ht. split; [done|done|done|..].
  - intros a t. rewrite elem_of_cons. intros [[= -> ->]|Ha]; eapply same_chunk_ok; try done.
    by apply (fs_chunks _ _ Hfree).
  - simpl. constructor; [apply fresh_chunk|apply (fs_nodup _ _ Hfree)].
  - intros a t b u. rewrite !elem_of_cons. intros [[= -> ->]|Ha] [[= -> ->]|Hb] Hne; [done|..].
    + by apply Hapart.
    + pose proof (Hapart _ _ Ha). unfold apart_chunks in *. lia.
    + by eapply (fs_apart _ _ Hfree).
Qed.

Lemma link_elsewhere m v x :
  x + 8 <= p + 4 \/ p + 8 <= x + 4 -> agree m (store32 (p + HMU_SIZE) v m) (x + 4) (x + 8).
Proof. intros Hx. apply store32_agree. unfold HMU_SIZE. lia. Qed.

Lemma Hapart_link x t : (x, t) ∈ fs -> x + 8 <= p + 4 \/ p + 8 <= x + 4.
Proof.
  intros Hx. pose proof (Hapart _ _ Hx) as Hd. unfold apart_chunks in Hd.
  pose proof (chunk_size_ok _ _ _ Hpool (fs_chunks _ _ Hfree _ _ Hx)).
  pose proof (chunk_size_ok _ _ _ Hpool Hchunk). lia.
Qed.

Lemma gci_add_fc_spec :
  wp no_fault (gci_add_fc p s) (fun ok h' => ok = true /\ free_store h' ((p, s) :: fs) /\
    same_heap h h' /\ marked_free (mem h) (mem h') p s) h.
Proof.
  pose proof (chunk_size_ok _ _ _ Hpool Hchunk) as [Hs H16].
  pose proof (write_free_marked (mem h) p s Hs H16) as Hm.
  pose proof (chunk_in_heap _ _ _ Hpool Hchunk) as Hin.
  unfold gci_add_fc. do 2 (apply wp_bind, wp_update_header). unfold hmu_set_free_size.
  apply wp_bind. apply wp_bind, wp_header. cbn [mem set_mem].
  rewrite load32_store32_same. autorewrite with hmu.
  apply wp_update_mem. cbn [mem set_mem]. apply wp_bind, wp_heap_state.
  change (store32 (p + s - 4) s _) with (write_free p s (mem h)).
  set (m3 := write_free p s (mem h)) in *.
  change (set_mem m3 _) with (set_mem m3 h).
  assert (same_heap h (set_mem m3 h)) as Hsame by (by split).
  assert (forall a t, (a, t) ∈ fs -> agree (mem h) m3 (a + 4) (a + 8)) as Hlinks.
  { intros a t Ha. destruct Hm as (_ & _ & _ & _ & Hm). apply Hm.
    pose proof (Hapart _ _ Ha) as Hd. unfold apart_chunks in Hd.
    pose proof (chunk_size_ok _ _ _ Hpool (fs_chunks _ _ Hfree _ _ Ha)). lia. }
  pose proof (free_store_frame _ (set_mem m3 h) fs Hfree Hsame eq_refl eq_refl Hlinks) as Hfree3.
  destruct (HMU_IS_FC_NORMAL s) eqn:Hnorm; unfold HMU_IS_FC_NORMAL in Hnorm.
  - apply Z.ltb_lt in Hnorm. rewrite (same_in_heap h) by done. rewrite Hin. cbn [negb].
    pose proof (small_index s Hs Hnorm) as [Hidx Hidx8].
    destruct (lookup_lt_is_Some_2 (kfc_normal_list h) (Z.to_nat (Z.shiftr s 3))) as [q Hq].
    { rewrite (fs_length _ _ Hfree). unfold HMU_NORMAL_NODE_CNT. lia. }
    destruct (fs_lists _ _ Hfree3 _ _ Hq) as (l & Hl & Hb). cbn [mem set_mem] in Hl.
    apply wp_bind. eapply wp_normal_head; [exact Hq|].
    apply wp_bind, wp_update_mem. apply wp_bind, wp_modify, wp_ret. split; [done|].
    cbn [mem set_mem kfc_normal_list set_kfc_normal_list].
    split; [|split; [by split|by apply marked_free_link]].
    pose proof (list_head_free _ _ _ _ _ Hl Hb) as Hnear.
    apply free_store_add;
      [by split|simpl; rewrite length_insert; apply (fs_length _ _ Hfree)|..].
    + intros i q'. cbn [mem set_mem kfc_normal_list set_kfc_normal_list]. intros Hi.
      rewrite bucket_cons. apply list_lookup_insert_Some in Hi as [(<- & <- & _)|[Hne Hi]].
      * rewrite Z2Nat.id in * by lia. destruct (decide _) as [_|Hn]; [|exfalso; apply Hn; lia].
        exists (p :: l). split; [|by rewrite Hb]. split; [done|].
        split; [destruct Hpool, Hchunk; lia|].
        rewrite next_of_stored; [|intros ->|].
        -- eapply list_at_frame; [|exact Hl]. intros x Hx. rewrite Hb in Hx.
           apply bucket_subset in Hx as [t Hx]. apply link_elsewhere. by eapply Hapart_link.
        -- destruct Hnear as [->|(t & Ht)]; [destruct Hpool, Hchunk; lia|].
           apply fresh_chunk, list_elem_of_fmap. by exists (p, t).
        -- destruct Hnear as [->|(t & Ht)]; [by right|left].
           pose proof (fs_chunks _ _ Hfree _ _ Ht) as Hc. destruct Hc, Hchunk, Hpool.
           change GC_SMALLEST_SIZE with 16 in *. lia.
      * destruct (decide _) as [[Hy _]|_]; [exfalso; apply Hne; lia|].
        destruct (fs_lists _ _ Hfree3 _ _ Hi) as (l' & Hl' & Hb'). exists l'. split; [|done].
        eapply list_at_frame; [|exact Hl']. intros x Hx. rewrite Hb' in Hx.
        apply bucket_subset in Hx as [t Hx]. apply link_elsewhere. by eapply Hapart_link.
    + rewrite large_cons. destruct (decide _); [lia|]. eapply same_tree_holds;
        [|reflexivity|apply (fs_tree _ _ Hfree3)]. by split.
  - apply Z.ltb_ge in Hnorm. eapply wp_mono; [apply (tree_link (set_mem m3 h) p s (large fs))|].
    + apply (fs_tree _ _ Hfree3).
    + rewrite not_elem_of_cons. split.
      * intros E. destruct Hpool as [_ _ Hroot], Hchunk. simpl in E. lia.
      * intros Hx. apply fresh_chunk. unfold large in Hx.
        apply list_elem_of_fmap in Hx as (e & -> & He). apply list_elem_of_filter in He as [_ He].
        by apply list_elem_of_fmap_2.
    + destruct Hpool, Hchunk. simpl in *. lia.
    + exact Hin.
    + done.
    + intros ok h' (-> & g' & -> & Ht). split; [done|]. split; [|split; [by split|exact Hm]].
      apply free_store_add; [by split|apply (fs_length _ _ Hfree)|..].
      * intros i q Hi. destruct (fs_lists _ _ Hfree3 i q Hi) as (l & Hl & Hb). exists l.
        split; [done|]. rewrite bucket_cons. by destruct (decide _); [lia|].
      * rewrite large_cons. by destruct (decide _); [|lia].
Qed.
End add.

(** ** Removing a chunk *)

(** Only the links of the chunks [fs] may have changed. *)
Definition links_only (m m' : memory) (fs : list (Z * Z)) : Prop :=
  forall x, (forall q t, (q, t) ∈ fs -> ~ q + 4 <= x < q + 8) -> m' x = m x.

Definition link (last next : Z) (m : memory) : memory :=
  store32 (last + HMU_SIZE) (if next =? 0 then 0 else wrap32 (next - last)) m.

(** The state after [p] was unlinked behind [last], or at the head. *)
Definition unlink_state (idx last next : Z) (h : gc_heap) : gc_heap :=
  if last =? 0 then set_kfc_normal_list (<[Z.to_nat idx := next]> (kfc_normal_list h)) h
  else set_mem (link last next (mem h)) h.

Lemma unlink_normal_spec fuel idx prev node l1 l2 p h Q :
  list_at (mem h) node (l1 ++ p :: l2) -> (length l1 < fuel)%nat ->
  Forall (fun x => in_heap h x = true) (l1 ++ [p]) -> p ∉ l1 ->
  Q true (unlink_state idx (default prev (last l1)) (next_of (mem h) p) h) ->
  wp no_fault (unlink_normal fuel idx prev node p) Q h.
Proof.
  revert fuel prev node. induction l1 as [|x l1 IH]; intros fuel prev node Hl Hf Hin Hp HQ;
    (destruct fuel as [|fuel]; [simpl in Hf; lia|]); cbn [unlink_normal]; simpl in Hl.
  - destruct Hl as (-> & Hp0 & Hl). apply Z.eqb_neq in Hp0 as Hp0'. rewrite Hp0'.
    simpl in Hin. apply Forall_cons in Hin as [Hin _].
    apply wp_bind, wp_heap_state. rewrite Hin. cbn [negb]. apply wp_bind, wp_next.
    rewrite Z.eqb_refl. simpl in HQ. unfold unlink_state in HQ. apply wp_bind.
    destruct (prev =? 0); [apply wp_modify, wp_ret, HQ|apply wp_update_mem, wp_ret, HQ].
  - destruct Hl as (-> & Hx0 & Hl). apply Z.eqb_neq in Hx0 as Hx0'. rewrite Hx0'.
    simpl in Hin. apply Forall_cons in Hin as [Hinx Hin].
    apply not_elem_of_cons in Hp as [Hpx Hp].
    apply wp_bind, wp_heap_state. rewrite Hinx. cbn [negb]. apply wp_bind, wp_next.
    destruct (Z.eqb_spec x p) as [->|_]; [done|].
    apply (IH fuel x); [done|simpl in Hf; lia|done|done|].
    rewrite last_cons in HQ. by destruct (last l1).
Qed.

Lemma list_at_unlink m m' node l1 z p l2 :
  list_at m node (l1 ++ z :: p :: l2) -> next_of m' z = next_of m p ->
  (forall x, x ∈ l1 ++ l2 -> agree m m' (x + 4) (x + 8)) -> list_at m' node (l1 ++ z :: l2).
Proof.
  revert node. induction l1 as [|x l1 IH]; intros node Hl Hz Hm; simpl in *.
  - destruct Hl as (-> & Hz0 & Hp & Hp0 & Hl). do 2 (split; [done|]). rewrite Hz.
    by eapply list_at_frame.
  - destruct Hl as (-> & Hx0 & Hl). do 2 (split; [done|]).
    assert (next_of m' x = next_of m x) as ->.
    { unfold next_of, HMU_SIZE. rewrite (load32_agree m m' (x + 4) (x + 4) (x + 8)); [done| |lia..].
      apply Hm. by left. }
    apply IH; [done|done|]. intros y Hy. apply Hm. by right.
Qed.

(** Different addresses of a range are not more than the range has. *)
Lemma nodup_range (l : list Z) a n :
  NoDup l -> 0 <= n -> Forall (fun x => a <= x < a + n) l -> zlen l <= n.
Proof.
  intros Hnd Hn Hl.
  assert ((fun x => Z.to_nat (x - a)) <$> l ⊆+ seq 0 (Z.to_nat n)) as Hsub.
  { apply NoDup_submseteq.
    - apply NoDup_fmap_2_strong; [|done]. intros x y Hx Hy Hxy.
      rewrite Forall_forall in Hl. pose proof (Hl x Hx). pose proof (Hl y Hy). lia.
    - intros i (x & -> & Hx)%list_elem_of_fmap. rewrite Forall_forall in Hl.
      specialize (Hl x Hx). apply elem_of_seq. lia. }
  apply submseteq_length in Hsub. rewrite length_fmap, length_seq in Hsub. lia.
Qed.

Lemma bucket_nodup i fs : NoDup fs.*1 -> NoDup (bucket i fs).
Proof.
  induction fs as [|[x t] fs IH]; simpl; [constructor|]. intros [Hx Hnd]%NoDup_cons.
  rewrite bucket_cons. destruct (decide _); [|by apply IH]. constructor; [|by apply IH].
  intros (u & Hu)%bucket_subset. apply Hx, list_elem_of_fmap. by exists (x, u).
Qed.

Lemma bucket_unique i j fs x :
  NoDup fs.*1 -> x ∈ bucket i fs -> x ∈ bucket j fs -> i = j.
Proof.
  intros Hnd ([y s] & -> & Hy)%list_elem_of_fmap ([z t] & Hz' & Hz)%list_elem_of_fmap.
  simpl in *. subst z. apply list_elem_of_filter in Hy as [[Hs _] Hy].
  apply list_elem_of_filter in Hz as [[Ht _] Hz]. simpl in *.
  assert (s = t); [|lia]. apply list_elem_of_lookup in Hy as [k Hk].
  apply list_elem_of_lookup in Hz as [k' Hk'].
  assert (k = k') as <-; [|congruence].
  eapply NoDup_lookup; [exact Hnd|rewrite list_lookup_fmap, Hk; done|by rewrite list_lookup_fmap, Hk'].
Qed.

Lemma list_at_tail m q l1 p l2 : list_at m q (l1 ++ p :: l2) -> p <> 0 /\ list_at m (next_of m p) l2.
Proof.
  revert q. induction l1 as [|x l1 IH]; intros q; simpl; [tauto|].
  intros (_ & _ & Hl). by eapply IH.
Qed.

Section unlink.
Context (h : gc_heap) (fs : list (Z * Z)) (p s : Z).
Context (Hpool : pool_ok h) (Hfree : free_store h ((p, s) :: fs)).

(** A write to the link of one free chunk leaves the others alone. *)
Lemma link_other_chunk z t x u v :
  (z, t) ∈ (p, s) :: fs -> (x, u) ∈ (p, s) :: fs -> x <> z ->
  agree (mem h) (link z v (mem h)) (x + 4) (x + 8).
Proof.
  intros Hz Hx Hne. apply store32_agree. unfold HMU_SIZE.
  pose proof (fs_apart _ _ Hfree _ _ _ _ Hx Hz Hne) as Ha. unfold apart_chunks in Ha.
  pose proof (chunk_size_ok _ _ _ Hpool (fs_chunks _ _ Hfree _ _ Hz)).
  pose proof (chunk_size_ok _ _ _ Hpool (fs_chunks _ _ Hfree _ _ Hx)). lia.
Qed.

(** The smaller collection, from its lists and its tree. *)
Lemma free_store_remove h' :
  same_heap h h' -> length (kfc_normal_list h') = HMU_NORMAL_NODE_CNT ->
  (forall i q, kfc_normal_list h' !! i = Some q ->
    exists l, list_at (mem h') q l /\ l ≡ₚ bucket (Z.of_nat i) fs) ->
  tree_holds h' (large fs) -> free_store h' fs.
Proof.
  intros Hs Hlen Hl Ht. pose proof (fs_nodup _ _ Hfree) as Hnd. simpl in Hnd.
  apply NoDup_cons in Hnd as [_ Hnd]. split; [done|done|done|..|done|].
  - intros a t Ha. eapply same_chunk_ok; [done|]. apply (fs_chunks _ _ Hfree). by right.
  - intros a t b u Ha Hb. apply (fs_apart _ _ Hfree); by right.
Qed.

(** The chunk as a node of its list. *)
Lemma bucket_position q l i :
  list_at (mem h) q l -> l ≡ₚ bucket i ((p, s) :: fs) -> s = 8 * i ->
  s < HMU_FC_NORMAL_MAX_SIZE ->
  exists l1 l2, l = l1 ++ p :: l2 /\ l1 ++ l2 ≡ₚ bucket i fs /\ NoDup l /\
    (forall x, x ∈ l -> exists t, (x, t) ∈ (p, s) :: fs).
Proof.
  intros Hl Hb Hi Hsm. pose proof (bucket_nodup i _ (fs_nodup _ _ Hfree)) as Hnd.
  rewrite <- Hb in Hnd. pose proof Hb as Hb'. rewrite bucket_cons in Hb'.
  destruct (decide _) as [_|Hn]; [|exfalso; by apply Hn].
  assert (p ∈ l) as Hp by (rewrite Hb'; by left).
  apply list_elem_of_split in Hp as (l1 & l2 & ->). exists l1, l2. split; [done|].
  split; [|split; [done|]].
  - apply (Permutation_cons_inv (a := p)). rewrite <- Hb'. by rewrite Permutation_middle.
  - intros x Hx. rewrite Hb in Hx. by apply bucket_subset in Hx.
Qed.

(** The first chunk of a list is taken. *)
Lemma free_store_pop q l2 i :
  list_at (mem h) q (p :: l2) -> l2 ≡ₚ bucket i fs -> 0 <= i -> s = 8 * i ->
  s < HMU_FC_NORMAL_MAX_SIZE ->
  free_store (set_kfc_normal_list (<[Z.to_nat i := next_of (mem h) p]> (kfc_normal_list h)) h) fs.
Proof.
  intros Hl Hb Hi0 Hi Hsm.
  apply free_store_remove; [by split|simpl; rewrite length_insert; apply (fs_length _ _ Hfree)|..].
  - intros j q'. simpl. intros Hj. apply list_lookup_insert_Some in Hj as [(<- & <- & _)|[Hne Hj]].
    + exists l2. rewrite Z2Nat.id by lia. split; [|done]. by destruct Hl as (_ & _ & Hl).
    + destruct (fs_lists _ _ Hfree _ _ Hj) as (l & Hl' & Hbl). exists l. split; [done|].
      rewrite bucket_cons in Hbl. destruct (decide _) as [[Hy _]|_]; [|done].
      exfalso. apply Hne. lia.
  - pose proof (fs_tree _ _ Hfree) as Ht. rewrite large_cons in Ht. destruct (decide _); [lia|].
    by eapply same_tree_holds; [| |exact Ht].
Qed.

Lemma list_fuel_enough l1 l2 :
  NoDup (l1 ++ l2) -> (forall x, x ∈ l1 ++ l2 -> exists t, (x, t) ∈ (p, s) :: fs) ->
  (length l1 < list_fuel h)%nat.
Proof.
  intros Hnd Hl. assert (zlen (l1 ++ l2) <= current_size h) as Hlen.
  { apply (nodup_range _ (base_addr h)); [done|destruct Hpool; lia|].
    apply Forall_forall. intros x Hx. destruct (Hl x Hx) as [t Ht].
    pose proof (fs_chunks _ _ Hfree _ _ Ht) as Hc. destruct Hc.
    change GC_SMALLEST_SIZE with 16 in *. lia. }
  rewrite length_app in Hlen. unfold list_fuel. lia.
Qed.

Lemma chunk_near x t y u :
  (x, t) ∈ (p, s) :: fs -> (y, u) ∈ (p, s) :: fs -> - 2 ^ 31 <= y - x < 2 ^ 31.
Proof.
  intros Hx Hy. pose proof (fs_chunks _ _ Hfree _ _ Hx) as Hc.
  pose proof (fs_chunks _ _ Hfree _ _ Hy) as Hc'. destruct Hc, Hc', Hpool.
  change GC_SMALLEST_SIZE with 16 in *. lia.
Qed.

Lemma unlink_hmu_spec :
  hmu_get_ut (load32 (mem h) p) = HMU_FC -> hmu_get_size (load32 (mem h) p) = s ->
  wp no_fault (unlink_hmu p) (fun ok h' => ok = true /\ free_store h' fs /\ same_heap h h' /\
    links_only (mem h) (mem h') fs) h.
Proof.
  intros Hut Hsize. unfold unlink_hmu. apply wp_bind, wp_header. rewrite Hut, Hsize.
  rewrite Z.eqb_refl. cbn [negb].
  pose proof (fs_chunks _ _ Hfree p s ltac:(by left)) as Hchunk.
  pose proof (chunk_size_ok _ _ _ Hpool Hchunk) as [Hs H16].
  destruct (HMU_IS_FC_NORMAL s) eqn:Hnorm; unfold HMU_IS_FC_NORMAL in Hnorm.
  - apply Z.ltb_lt in Hnorm. pose proof (small_index s Hs Hnorm) as [Hidx Hidx8].
    destruct (lookup_lt_is_Some_2 (kfc_normal_list h) (Z.to_nat (Z.shiftr s 3))) as [q Hq].
    { rewrite (fs_length _ _ Hfree). unfold HMU_NORMAL_NODE_CNT. lia. }
    destruct (fs_lists _ _ Hfree _ _ Hq) as (l & Hl & Hb). rewrite Z2Nat.id in Hb by lia.
    destruct (bucket_position _ _ _ Hl Hb Hidx8 Hnorm) as (l1 & l2 & -> & Hb' & Hnd & Hel).
    apply wp_bind. eapply wp_normal_head; [exact Hq|]. apply wp_bind, wp_heap_state.
    assert (forall x, x ∈ l1 ++ p :: l2 -> in_heap h x = true) as Hin.
    { intros x Hx. destruct (Hel x Hx) as [t Ht].
      by eapply chunk_in_heap; [|apply (fs_chunks _ _ Hfree)]. }
    apply NoDup_app in Hnd as Hnd'. destruct Hnd' as (Hnd1 & Hdis & Hnd2).
    apply NoDup_cons in Hnd2 as [Hp2 Hnd2].
    assert (p ∉ l1) as Hp1 by (intros Hx; exact (Hdis p Hx ltac:(by left))).
    eapply unlink_normal_spec; [exact Hl|by eapply list_fuel_enough| |done|].
    { apply Forall_forall. intros x Hx. apply Hin. set_solver. }
    split; [done|]. unfold unlink_state.
    assert (tree_holds h (large fs)) as Htree.
    { pose proof (fs_tree _ _ Hfree) as Ht. rewrite large_cons in Ht.
      by destruct (decide _); [lia|]. }
    destruct (last l1) as [z|] eqn:Hlast; simpl.
    + assert (z ∈ l1) as Hz by (by apply last_Some_elem_of).
      destruct (Hel z ltac:(set_solver)) as [tz Hz'].
      pose proof (fs_chunks _ _ Hfree _ _ Hz') as Hcz.
      destruct (Z.eqb_spec z 0) as [->|Hz0]; [destruct Hcz, Hpool; lia|].
      assert (z <> p) as Hzp by (by intros ->).
      pose proof (list_at_tail _ _ _ _ _ Hl) as [_ Htail].
      apply last_Some in Hlast as [l1' ->]. rewrite <- !app_assoc in *. simpl in *.
      assert (next_of (link z (next_of (mem h) p) (mem h)) z = next_of (mem h) p) as Hnext.
      { apply next_of_stored.
        - intros E. destruct l2 as [|y l2]; simpl in Htail; [congruence|].
          destruct Htail as (E' & _). apply (Hdis z); [set_solver|]. set_solver.
        - destruct l2 as [|y l2]; simpl in Htail; [by right|left]. destruct Htail as (-> & _).
          destruct (Hel y ltac:(set_solver)) as [ty Hy]. by eapply chunk_near. }
      split; [|split; [by split|]].
      * apply free_store_remove; [by split|apply (fs_length _ _ Hfree)|..].
        -- intros i q' Hi. simpl in Hi |- *. destruct (decide (i = Z.to_nat (Z.shiftr s 3))) as [->|Hne].
           ++ rewrite Hq in Hi. injection Hi as <-. exists (l1' ++ z :: l2).
              rewrite Z2Nat.id by lia. split; [|done].
              eapply list_at_unlink; [exact Hl|exact Hnext|]. intros x Hx.
              destruct (Hel x ltac:(set_solver)) as [tx Hx'].
              eapply link_other_chunk; [exact Hz'|exact Hx'|]. intros ->.
              apply NoDup_app in Hnd1 as (_ & Hd1 & _). apply elem_of_app in Hx as [Hx|Hx].
              ** apply (Hd1 z Hx). by left.
              ** apply (Hdis z); [set_solver|]. by right.
           ++ destruct (fs_lists _ _ Hfree _ _ Hi) as (l & Hl' & Hbl). exists l.
              assert (l ≡ₚ bucket (Z.of_nat i) fs) as Hbl'.
              { rewrite bucket_cons in Hbl. destruct (decide _) as [[Hy _]|_]; [|done].
                exfalso. apply Hne. lia. }
              split; [|done]. eapply list_at_frame; [|exact Hl']. intros x Hx. rewrite Hbl in Hx.
              destruct (bucket_subset _ _ _ Hx) as [tx Hx']. eapply link_other_chunk; [done|done|].
              intros ->. apply Hne.
              assert (z ∈ bucket (Z.shiftr s 3) ((p, s) :: fs)) as Hz2 by (rewrite <- Hb; set_solver).
              pose proof (bucket_unique _ _ _ _ (fs_nodup _ _ Hfree) Hx Hz2). lia.
        -- by eapply same_tree_holds; [| |exact Htree].
      * intros x Hx. simpl. unfold link, store32, HMU_SIZE.
        destruct (within_spec (z + 4) 4 x) as [Hw|]; [|done]. exfalso.
        apply elem_of_cons in Hz' as [[= <- <-]|Hz']; [done|]. apply (Hx z tz Hz'). lia.
    + apply last_None in Hlast. subst l1. simpl in *.
      split; [|split; [by split|by intros x]].
      eapply (free_store_pop q l2 (Z.shiftr s 3)); [exact Hl|exact Hb'|lia|exact Hidx8|done].
  - apply Z.ltb_ge in Hnorm. eapply wp_mono; [apply (tree_remove h p s (large fs))|].
    { pose proof (fs_tree _ _ Hfree) as Ht. rewrite large_cons in Ht.
      by destruct (decide _); [|lia]. }
    intros ok h' (-> & g' & -> & _ & Ht). split; [done|].
    split; [|split; [by split|by intros x]].
    apply free_store_remove; [by split|apply (fs_length _ _ Hfree)|..|done].
    intros i q Hi. destruct (fs_lists _ _ Hfree i q Hi) as (l & Hl & Hb). exists l.
    split; [done|]. rewrite bucket_cons in Hb. by destruct (decide _); [lia|].
Qed.
End unlink.
