(* ===== verification/EmsSpec.v ===== *)
(** * Correctness of the heap

    The invariant of the heap: the pool is a sequence of chunks whose headers
    describe it, no two free chunks are adjacent, and lists and tree hold
    exactly the free chunks. Creation establishes it, and allocation and
    freeing keep it. *)

From S2P Require Import Prelude Memory Ems EmsTree EmsFree.

(** ** Sequences of chunks *)

Record chunk := Chunk { c_size : Z; c_free : bool }.

Fixpoint total (cs : list chunk) : Z :=
  match cs with
  | [] => 0
  | c :: cs => c_size c + total cs
  end.

(** The chunks of a sequence at [a] that satisfy [f], with their addresses. *)
Fixpoint pieces (f : chunk -> bool) (a : Z) (cs : list chunk) : list (Z * Z) :=
  match cs with
  | [] => []
  | c :: cs => (if f c then [(a, c_size c)] else []) ++ pieces f (a + c_size c) cs
  end.

Abbreviation frees := (pieces c_free).
Abbreviation useds := (pieces (fun c => negb (c_free c))).

(** The bytes that are free. *)
Fixpoint free_bytes (cs : list chunk) : Z :=
  match cs with
  | [] => 0
  | c :: cs => (if c_free c then c_size c else 0) + free_bytes cs
  end.

(** The header of a chunk; [pin]: the chunk before it is in use. *)
Record header_ok (hd : Z) (pin : bool) (c : chunk) : Prop := {
  hd_size : hmu_get_size hd = c_size c;
  hd_ut : hmu_get_ut hd = if c_free c then HMU_FC else HMU_VO;
  hd_pin : hmu_get_pinuse hd = pin;
  hd_freed : c_free c = false -> hmu_is_vo_freed hd = false
}.

(** The chunks from [a] on, in a pool that ends at [e]. The size behind a free
    chunk is only there when another chunk follows. *)
Fixpoint chunks_at (m : memory) (e a : Z) (pin : bool) (cs : list chunk) : Prop :=
  match cs with
  | [] => True
  | c :: cs =>
      header_ok (load32 m a) pin c /\ GC_SMALLEST_SIZE <= c_size c /\ c_size c mod 8 = 0 /\
      (c_free c = true -> pin = true) /\
      (c_free c = true -> a + c_size c < e -> load32 m (a + c_size c - 4) = c_size c) /\
      chunks_at m e (a + c_size c) (negb (c_free c)) cs
  end.

(** Whether the chunk before the end of [cs] is in use. *)
Fixpoint pin_after (pin : bool) (cs : list chunk) : bool :=
  match cs with
  | [] => pin
  | c :: cs => pin_after (negb (c_free c)) cs
  end.

Lemma total_app cs cs' : total (cs ++ cs') = total cs + total cs'.
Proof. induction cs; simpl; lia. Qed.

Lemma free_bytes_app cs cs' : free_bytes (cs ++ cs') = free_bytes cs + free_bytes cs'.
Proof. induction cs; simpl; lia. Qed.

Lemma pieces_app f a cs cs' : pieces f a (cs ++ cs') = pieces f a cs ++ pieces f (a + total cs) cs'.
Proof.
  revert a. induction cs as [|c cs IH]; intros a; simpl; [by rewrite Z.add_0_r|].
  rewrite IH, Z.add_assoc. by rewrite <- app_assoc.
Qed.

Lemma chunks_at_app m e a pin cs cs' :
  chunks_at m e a pin (cs ++ cs') <->
  chunks_at m e a pin cs /\ chunks_at m e (a + total cs) (pin_after pin cs) cs'.
Proof.
  revert a pin. induction cs as [|c cs IH]; intros a pin; simpl; [rewrite Z.add_0_r; tauto|].
  rewrite IH, Z.add_assoc. tauto.
Qed.

Lemma pin_after_app pin cs c : pin_after pin (cs ++ [c]) = negb (c_free c).
Proof. revert pin. by induction cs; intros pin; simpl. Qed.

(** A chunk of a sequence, by its position. *)
Lemma pieces_split f a cs b s :
  (b, s) ∈ pieces f a cs ->
  exists cs1 c cs2, cs = cs1 ++ c :: cs2 /\ b = a + total cs1 /\ c_size c = s /\ f c = true.
Proof.
  revert a. induction cs as [|c cs IH]; intros a; simpl; [by intros ?%elem_of_nil|].
  rewrite elem_of_app. intros [Hb|Hb].
  - destruct (f c) eqn:Hf; [|by apply elem_of_nil in Hb].
    apply list_elem_of_singleton in Hb as [= -> ->]. exists [], c, cs. simpl. by rewrite Z.add_0_r.
  - destruct (IH _ Hb) as (cs1 & c' & cs2 & -> & -> & Hs & Hf). exists (c :: cs1), c', cs2.
    simpl. split; [done|]. by rewrite Z.add_assoc.
Qed.

Lemma chunks_at_sizes m e a pin cs :
  chunks_at m e a pin cs -> Forall (fun c => GC_SMALLEST_SIZE <= c_size c /\ c_size c mod 8 = 0) cs.
Proof.
  revert a pin. induction cs as [|c cs IH]; intros a pin; simpl; [constructor|].
  intros (_ & H1 & H2 & _ & _ & H). constructor; [done|]. by eapply IH.
Qed.

Abbreviation sizes_ok := (Forall (fun c => GC_SMALLEST_SIZE <= c_size c /\ c_size c mod 8 = 0)).

Lemma total_nonneg cs : sizes_ok cs -> 0 <= total cs.
Proof.
  induction 1 as [|c cs [Hc _] _ IH]; simpl; [lia|]. change GC_SMALLEST_SIZE with 16 in Hc. lia.
Qed.

Lemma length_total cs : sizes_ok cs -> 16 * zlen cs <= total cs.
Proof.
  induction 1 as [|c cs [Hc _] _ IH]; simpl; [lia|]. change GC_SMALLEST_SIZE with 16 in Hc. lia.
Qed.

Lemma total_mod cs : sizes_ok cs -> total cs mod 8 = 0.
Proof.
  induction 1 as [|c cs [_ Hc] _ IH]; simpl; [done|]. by rewrite Z.add_mod, Hc, IH by lia.
Qed.

(** The pieces lie inside of the sequence and do not overlap. *)
Lemma pieces_bounds f a cs b s :
  sizes_ok cs -> (b, s) ∈ pieces f a cs ->
  a <= b /\ b + s <= a + total cs /\ GC_SMALLEST_SIZE <= s /\ s mod 8 = 0 /\ (b - a) mod 8 = 0.
Proof.
  intros Hs (cs1 & c & cs2 & -> & -> & <- & _)%pieces_split. rewrite total_app. simpl.
  apply Forall_app in Hs as [H1 [[Hc Hc8] H2]%Forall_cons].
  pose proof (total_nonneg _ H1). pose proof (total_nonneg _ H2). pose proof (total_mod _ H1).
  split; [lia|]. split; [lia|]. do 2 (split; [done|]).
  by replace (a + total cs1 - a) with (total cs1) by lia.
Qed.

Lemma pieces_apart f a cs b s b' s' :
  sizes_ok cs -> (b, s) ∈ pieces f a cs -> (b', s') ∈ pieces f a cs -> b <> b' ->
  apart_chunks b s b' s'.
Proof.
  revert a. induction cs as [|c cs IH]; intros a Hs; simpl; [by intros ?%elem_of_nil|].
  apply Forall_cons in Hs as Hs'. destruct Hs' as [[Hc Hc8] Hs'].
  rewrite !elem_of_app. unfold apart_chunks.
  intros [Hb|Hb] [Hb'|Hb'] Hne.
  - destruct (f c); [|by apply elem_of_nil in Hb].
    apply list_elem_of_singleton in Hb as [= -> ->], Hb' as [= -> ->]. done.
  - destruct (f c); [|by apply elem_of_nil in Hb]. apply list_elem_of_singleton in Hb as [= -> ->].
    apply pieces_bounds in Hb'; [|done]. lia.
  - destruct (f c); [|by apply elem_of_nil in Hb']. apply list_elem_of_singleton in Hb' as [= -> ->].
    apply pieces_bounds in Hb; [|done]. lia.
  - by eapply IH.
Qed.

Lemma pieces_nodup f a cs : sizes_ok cs -> NoDup (pieces f a cs).*1.
Proof.
  revert a. induction cs as [|c cs IH]; intros a Hs; simpl; [constructor|].
  apply Forall_cons in Hs as [[Hc Hc8] Hs]. rewrite fmap_app. destruct (f c); [|by apply IH].
  simpl. constructor; [|by apply IH]. intros ([b s] & -> & Hb)%list_elem_of_fmap.
  apply pieces_bounds in Hb; [|done]. simpl in *. change GC_SMALLEST_SIZE with 16 in Hc. lia.
Qed.

(** ** Frames *)

Lemma chunks_at_frame m m' e a pin cs :
  sizes_ok cs -> agree m m' a (a + total cs) -> chunks_at m e a pin cs -> chunks_at m' e a pin cs.
Proof.
  revert a pin. induction cs as [|c cs IH]; intros a pin Hs Hm; simpl; [done|].
  apply Forall_cons in Hs as [[Hc _] Hs]. change GC_SMALLEST_SIZE with 16 in *.
  pose proof (total_nonneg _ Hs). simpl in Hm.
  intros (H1 & H2 & H3 & H4 & H5 & H6).
  rewrite (load32_agree m m' a _ _ Hm) by lia.
  rewrite (load32_agree m m' (a + c_size c - 4) _ _ Hm) by lia. do 5 (split; [done|]).
  apply IH; [done| |done]. eapply agree_weaken; [exact Hm|lia..].
Qed.

(** The links of free chunks are not part of the description. *)
Lemma chunks_at_links m m' e a pin cs :
  sizes_ok cs ->
  (forall x, a <= x < a + total cs ->
    (forall q t, (q, t) ∈ frees a cs -> ~ q + 4 <= x < q + 8) -> m' x = m x) ->
  chunks_at m e a pin cs -> chunks_at m' e a pin cs.
Proof.
  revert a pin. induction cs as [|c cs IH]; intros a pin Hs Hm; simpl; [done|].
  apply Forall_cons in Hs as [[Hc _] Hs]. change GC_SMALLEST_SIZE with 16 in *.
  pose proof (total_nonneg _ Hs) as Ht. simpl in Hm.
  assert (forall x, a <= x < a + c_size c -> ~ a + 4 <= x < a + 8 -> m' x = m x) as Hhead.
  { intros x Hx Hl. apply Hm; [lia|]. intros q t. rewrite elem_of_app. intros [Hq|Hq].
    - destruct (c_free c); [|by apply elem_of_nil in Hq].
      by apply list_elem_of_singleton in Hq as [= -> ->].
    - apply pieces_bounds in Hq; [|done]. lia. }
  intros (H1 & H2 & H3 & H4 & H5 & H6).
  rewrite !(load32_agree m m' a a (a + 4)) by (lia || (intros x Hx; apply Hhead; lia)).
  rewrite (load32_agree m m' (a + c_size c - 4) (a + c_size c - 4) (a + c_size c))
    by (lia || (intros x Hx; apply Hhead; lia)). do 5 (split; [done|]).
  apply IH; [done| |done]. intros x Hx Hl. apply Hm; [lia|]. intros q t. rewrite elem_of_app.
  intros [Hq|Hq]; [|by apply (Hl q t)]. destruct (c_free c); [|by apply elem_of_nil in Hq].
  apply list_elem_of_singleton in Hq as [= -> ->]. lia.
Qed.

(** The bit for the previous chunk is changed. *)
Lemma chunks_at_mark m e a pin cs :
  chunks_at m e a pin cs -> sizes_ok cs ->
  chunks_at (store32 a (hmu_mark_pinuse (load32 m a)) m) e a true cs.
Proof.
  destruct cs as [|c cs]; [done|]. cbn [chunks_at].
  intros (H1 & H2 & H3 & H4 & H5 & H6) [_ Hs]%Forall_cons. change GC_SMALLEST_SIZE with 16 in *.
  rewrite load32_store32_same, load32_store32_other by lia. destruct H1.
  split; [by split; autorewrite with hmu|]. do 4 (split; [done|]).
  eapply chunks_at_frame; [done| |done]. apply store32_agree. lia.
Qed.

Lemma chunks_at_unmark m e a pin cs :
  chunks_at m e a pin cs -> sizes_ok cs -> (forall c cs', cs = c :: cs' -> c_free c = false) ->
  chunks_at (store32 a (hmu_unmark_pinuse (load32 m a)) m) e a false cs.
Proof.
  destruct cs as [|c cs]; [done|]. cbn [chunks_at].
  intros (H1 & H2 & H3 & H4 & H5 & H6) [_ Hs]%Forall_cons Hu.
  specialize (Hu c cs eq_refl). change GC_SMALLEST_SIZE with 16 in *.
  rewrite load32_store32_same, load32_store32_other by lia. destruct H1.
  split; [by split; autorewrite with hmu|]. do 2 (split; [done|]). split; [congruence|].
  split; [done|]. eapply chunks_at_frame; [done| |done]. apply store32_agree. lia.
Qed.

(** ** The invariant *)

Abbreviation heap_end h := (base_addr h + current_size h).

(** The heap while the free chunks that are not in [fs] are being worked on. *)
Record heap_open (h : gc_heap) (cs : list chunk) (fs : list (Z * Z)) : Prop := {
  ho_pool : pool_ok h;
  ho_aligned : (base_addr h + HMU_SIZE) mod 8 = 0;
  ho_total : total cs = current_size h;
  ho_chunks : chunks_at (mem h) (heap_end h) (base_addr h) true cs;
  ho_store : free_store h fs;
  ho_free : total_free_size h = free_bytes cs;
  ho_highmark : current_size h - total_free_size h <= highmark_size h <= current_size h;
  ho_sound : is_heap_corrupted h = false
}.

(** All free chunks are in the lists and the tree. *)
Definition heap_inv (h : gc_heap) (cs : list chunk) : Prop :=
  heap_open h cs (frees (base_addr h) cs).

(** Every piece of a sequence that fills the pool is a chunk of it. *)
Lemma piece_chunk_ok h cs f b s :
  total cs = current_size h -> (base_addr h + HMU_SIZE) mod 8 = 0 -> sizes_ok cs ->
  (b, s) ∈ pieces f (base_addr h) cs -> chunk_ok h b s.
Proof.
  intros Ht Ha Hs Hb. apply pieces_bounds in Hb as (H1 & H2 & H3 & H4 & H5); [|done].
  split; [done|lia|done| |done].
  replace (b + HMU_SIZE) with ((base_addr h + HMU_SIZE) + (b - base_addr h)) by lia.
  by rewrite Z.add_mod, Ha, H5 by lia.
Qed.

Lemma pieces_impl (f g : chunk -> bool) a cs e :
  (forall c, f c = true -> g c = true) -> e ∈ pieces f a cs -> e ∈ pieces g a cs.
Proof.
  intros Hfg. revert a. induction cs as [|c cs IH]; intros a; simpl; [done|].
  rewrite !elem_of_app. intros [He|He]; [left|right; by apply IH].
  destruct (f c) eqn:Hf; [by rewrite (Hfg _ Hf)|by apply elem_of_nil in He].
Qed.

Lemma free_bytes_bounds cs : sizes_ok cs -> 0 <= free_bytes cs <= total cs.
Proof.
  induction 1 as [|c cs [Hc _] _ IH]; simpl; [lia|]. change GC_SMALLEST_SIZE with 16 in Hc.
  destruct (c_free c); lia.
Qed.

(** A free chunk that was taken from the store, in its place. *)
Record taken (h : gc_heap) (cs1 : list chunk) (p s : Z) (cs2 : list chunk) (fs : list (Z * Z))
    : Prop := {
  tk_open : heap_open h (cs1 ++ Chunk s true :: cs2) fs;
  tk_place : p = base_addr h + total cs1;
  tk_rest : fs ≡ₚ frees (base_addr h) cs1 ++ frees (p + s) cs2
}.

Section taken_facts.
Context (h : gc_heap) (cs1 : list chunk) (p s : Z) (cs2 : list chunk) (fs : list (Z * Z)).
Context (Htk : taken h cs1 p s cs2 fs).

Lemma taken_sizes :
  sizes_ok cs1 /\ sizes_ok cs2 /\ 16 <= s /\ s mod 8 = 0 /\ 0 <= total cs1 /\ 0 <= total cs2 /\
  total cs1 + s + total cs2 = current_size h.
Proof.
  destruct Htk as [[_ _ Ht Hc _ _ _ _] _ _]. apply chunks_at_sizes in Hc.
  apply Forall_app in Hc as [H1 [[H2 H3] H4]%Forall_cons]. rewrite total_app in Ht. simpl in *.
  pose proof (total_nonneg _ H1). pose proof (total_nonneg _ H4).
  change GC_SMALLEST_SIZE with 16 in *. repeat (split; [done|]). lia.
Qed.

Lemma taken_chunks :
  chunks_at (mem h) (heap_end h) (base_addr h) true cs1 /\ pin_after true cs1 = true /\
  header_ok (load32 (mem h) p) true (Chunk s true) /\
  (p + s < heap_end h -> load32 (mem h) (p + s - 4) = s) /\
  chunks_at (mem h) (heap_end h) (p + s) false cs2.
Proof.
  destruct Htk as [[_ _ _ Hc _ _ _ _] -> _]. apply chunks_at_app in Hc as [H1 H2].
  destruct H2 as (H2 & _ & _ & H3 & H4 & H5). specialize (H3 eq_refl). rewrite H3 in H2.
  simpl in *. do 3 (split; [done|]). split; [by apply H4|done].
Qed.

(** The other free chunks lie before or behind it. *)
Lemma taken_apart b t : (b, t) ∈ fs -> b + t <= p \/ p + s <= b.
Proof.
  pose proof taken_sizes as (H1 & H2 & _). destruct Htk as [_ Hp ->]. rewrite elem_of_app.
  intros [Hb|Hb]; apply pieces_bounds in Hb; try done; lia.
Qed.

(** Headers and links of different chunks do not overlap. *)
Lemma taken_header_link b t c q :
  (b, t) ∈ fs -> q = p \/ q = p + s \/ p < q < p + s ->
  chunk_ok h b t -> c = q + 4 -> c <= b + 4 \/ b + 8 <= q.
Proof.
  intros Hb Hq [_ _ Ht _ _] ->. change GC_SMALLEST_SIZE with 16 in Ht.
  pose proof taken_sizes. pose proof (taken_apart _ _ Hb). lia.
Qed.
End taken_facts.

(** A chunk that was cut for a new object, before its header says so. *)
Record reserved (h : gc_heap) (cs1 : list chunk) (p s : Z) (cs2 : list chunk) : Prop := {
  rs_pool : pool_ok h;
  rs_aligned : (base_addr h + HMU_SIZE) mod 8 = 0;
  rs_total : total cs1 + s + total cs2 = current_size h;
  rs_place : p = base_addr h + total cs1;
  rs_size : 16 <= s /\ s mod 8 = 0;
  rs_before : chunks_at (mem h) (heap_end h) (base_addr h) true cs1;
  rs_pin : pin_after true cs1 = true;
  rs_header : hmu_get_size (load32 (mem h) p) = s /\ hmu_get_pinuse (load32 (mem h) p) = true;
  rs_after : chunks_at (mem h) (heap_end h) (p + s) true cs2;
  rs_store : free_store h (frees (base_addr h) cs1 ++ frees (p + s) cs2);
  rs_free : total_free_size h = free_bytes cs1 + free_bytes cs2;
  rs_highmark : current_size h - total_free_size h <= highmark_size h <= current_size h;
  rs_sound : is_heap_corrupted h = false
}.

(** The header is written, and the object with it. *)
Lemma reserved_used h cs1 p s cs2 m :
  reserved h cs1 p s cs2 -> header_ok (load32 m p) true (Chunk s false) ->
  (forall b c, c <= p \/ p + s <= b -> agree (mem h) m b c) ->
  heap_inv (set_mem m h) (cs1 ++ Chunk s false :: cs2).
Proof.
  intros [H1 H2 H3 H4 [H5 H5'] H6 H7 H8 H9 H10 H11 H12 H13] Hhd Hm.
  pose proof (chunks_at_sizes _ _ _ _ _ H6) as Hs1. pose proof (chunks_at_sizes _ _ _ _ _ H9) as Hs2.
  pose proof (total_nonneg _ Hs1). pose proof (total_nonneg _ Hs2).
  split; simpl; try done.
  - by destruct H1.
  - rewrite total_app. simpl. lia.
  - apply chunks_at_app. split; [eapply chunks_at_frame; [done| |exact H6]; apply Hm; lia|].
    rewrite H7. simpl. rewrite <- H4. do 3 (split; [done|]). split; [done|]. split; [done|].
    eapply chunks_at_frame; [done| |exact H9]. apply Hm. lia.
  - rewrite pieces_app. simpl. rewrite <- H4.
    eapply free_store_frame; [exact H10|by split|done|done|].
    intros a t Ha. apply Hm. apply elem_of_app in Ha as [Ha|Ha];
      apply pieces_bounds in Ha; try done; change GC_SMALLEST_SIZE with 16 in *; lia.
  - rewrite free_bytes_app. simpl. lia.
Qed.

Lemma free_store_stats h fs v f :
  free_store h fs -> free_store (set_highmark_size v (set_total_free_size f h)) fs.
Proof.
  intros [H1 H2 H3 H4 H5 H6]. split; try done. intros a s Ha. by destruct (H4 a s Ha).
Qed.

(** The statistics of an allocation. *)
Lemma account_spec size h Q :
  0 <= size <= total_free_size h -> total_free_size h <= current_size h < 2 ^ 30 ->
  highmark_size h <= current_size h ->
  (forall v, current_size h - (total_free_size h - size) <= v <= current_size h ->
    Q tt (set_highmark_size v (set_total_free_size (total_free_size h - size) h))) ->
  wp no_fault (account size) Q h.
Proof.
  intros Hs Ht Hh HQ. unfold account. apply wp_bind, wp_modify, wp_modify.
  unfold wrap32. rewrite (Z.mod_small (total_free_size h - size)) by lia. simpl.
  rewrite Z.mod_small by lia.
  destruct (Z.ltb_spec (highmark_size h) (current_size h - (total_free_size h - size))).
  - apply HQ. lia.
  - replace (set_total_free_size _ h)
      with (set_highmark_size (highmark_size h) (set_total_free_size (total_free_size h - size) h))
      by done.
    apply HQ. lia.
Qed.

(** What an allocation writes: the chunk and the header of the next one. *)
Record only_chunk (p s : Z) (h h' : gc_heap) : Prop := {
  oc_base : base_addr h' = base_addr h;
  oc_size : current_size h' = current_size h;
  oc_root : kfc_tree_root h' = kfc_tree_root h;
  oc_mem : forall b c, c <= p \/ p + s + 4 <= b \/ heap_end h <= b -> agree (mem h) (mem h') b c
}.

Section take.
Context (h : gc_heap) (cs1 : list chunk) (p s : Z) (cs2 : list chunk) (fs : list (Z * Z)).
Context (Htk : taken h cs1 p s cs2 fs).

Lemma taken_account size :
  0 <= size <= s ->
  0 <= size <= total_free_size h /\ total_free_size h <= current_size h < 2 ^ 30 /\
  highmark_size h <= current_size h.
Proof.
  intros Hs. pose proof (taken_sizes _ _ _ _ _ _ Htk) as (S1 & S2 & S3 & _ & _ & _ & S4).
  destruct Htk as [[Hp _ _ _ _ Hf Hh _] _ _]. rewrite free_bytes_app in Hf. simpl in Hf.
  pose proof (free_bytes_bounds _ S1). pose proof (free_bytes_bounds _ S2). destruct Hp. lia.
Qed.

(** The heap after a piece of [size] bytes was cut from the chunk, in front of
    the free chunks [r] of the rest. *)
Lemma taken_reserved h' size r v :
  16 <= size -> size mod 8 = 0 -> size + total r = s -> same_heap h h' ->
  hmu_get_size (load32 (mem h') p) = size -> hmu_get_pinuse (load32 (mem h') p) = true ->
  agree (mem h) (mem h') (base_addr h) p ->
  chunks_at (mem h') (heap_end h) (p + size) true (r ++ cs2) ->
  free_store h' (frees (p + size) r ++ fs) ->
  free_bytes r = total r ->
  current_size h - (total_free_size h - size) <= v <= current_size h ->
  reserved (set_highmark_size v (set_total_free_size (total_free_size h - size) h'))
    cs1 p size (r ++ cs2).
Proof.
  intros H16 Hm Hr [Hb Hc Hroot Hcor _ _] Hs Hpin Hag Hafter Hstore Hfr Hv.
  pose proof (taken_sizes _ _ _ _ _ _ Htk) as (S1 & S2 & S3 & S4 & S5 & S6 & S7).
  pose proof (taken_chunks _ _ _ _ _ _ Htk) as (C1 & C2 & C3 & C4 & C5).
  destruct Htk as [[Hpool Hal Htot Hch Hst Hfree Hhigh Hsound] Hplace Hrest].
  split; simpl; rewrite ?Hb, ?Hc; try done.
  - destruct Hpool. by split; simpl; rewrite ?Hb, ?Hc, ?Hroot.
  - rewrite total_app. lia.
  - eapply chunks_at_frame; [done| |exact C1]. by rewrite <- Hplace.
  - apply free_store_stats. eapply free_store_perm; [|exact Hstore]. rewrite Hrest, pieces_app.
    replace (p + size + total r) with (p + s) by lia. solve_Permutation.
  - rewrite Hfree, !free_bytes_app. simpl. lia.
  - by rewrite Hcor.
Qed.

Lemma taken_aligned : (p + HMU_SIZE) mod 8 = 0.
Proof.
  pose proof (taken_sizes _ _ _ _ _ _ Htk) as (S1 & _). pose proof (total_mod _ S1) as Hm.
  destruct Htk as [[_ Hal _ _ _ _ _ _] -> _].
  replace (base_addr h + total cs1 + HMU_SIZE) with (base_addr h + HMU_SIZE + total cs1) by lia.
  by rewrite Z.add_mod, Hal, Hm by lia.
Qed.

Lemma taken_pinuse : hmu_get_pinuse (load32 (mem h) p) = true.
Proof. by destruct (taken_chunks _ _ _ _ _ _ Htk) as (_ & _ & [_ _ ? _] & _). Qed.

(** The chunk is large enough to be cut in two. *)
Lemma take_chunk_split size :
  16 <= size -> size mod 8 = 0 -> size + 16 <= s ->
  wp no_fault (take_chunk true p s size) (fun r h' => r = p /\
    reserved h' cs1 p size (Chunk (s - size) true :: cs2) /\ only_chunk p s h h') h.
Proof.
  intros Hs Hm Hroom.
  pose proof (taken_sizes _ _ _ _ _ _ Htk) as (S1 & S2 & S3 & S4 & S5 & S6 & S7).
  pose proof (taken_chunks _ _ _ _ _ _ Htk) as (C1 & C2 & C3 & C4 & C5).
  pose proof (taken_apart _ _ _ _ _ _ Htk) as Hap.
  pose proof Htk as [[Hpool Hal Htot Hch Hst Hfree Hhigh Hsound] Hplace Hrest].
  pose proof taken_aligned as Hpa. pose proof taken_pinuse as Hpin.
  assert (s - size < 2 ^ 30 /\ (s - size) mod 8 = 0) as [Hr30 Hr8].
  { destruct Hpool. split; [lia|]. by rewrite Zminus_mod, S4, Hm. }
  assert (size_ok size) as Hsz by (destruct Hpool; split; [lia|done]).
  unfold take_chunk. apply wp_bind, wp_heap_state. apply wp_bind.
  replace (wrap32 (s - size)) with (s - size) by (symmetry; apply Z.mod_small; lia).
  eapply wp_mono; [apply (gci_add_fc_spec h fs (p + size) (s - size) Hpool Hst)|].
  { split; [lia|lia|change GC_SMALLEST_SIZE with 16; lia| |done].
    replace (p + size + HMU_SIZE) with (p + HMU_SIZE + size) by lia.
    by rewrite Z.add_mod, Hpa, Hm by lia. }
  { intros b t Hb. pose proof (Hap _ _ Hb). unfold apart_chunks. lia. }
  intros ok h1 (-> & Hst1 & Hsame & (Hut & Hsize & Hpin1 & Htrail & Hag)). cbn [negb].
  apply wp_bind, wp_update_header. apply wp_bind.
  pose proof (taken_account size ltac:(lia)) as (A1 & A2 & A3).
  pose proof Hsame as [Eb Ec Er _ Eh Ef].
  apply account_spec; simpl; rewrite ?Ef, ?Ec, ?Eh; try done.
  intros v Hv. apply wp_bind, wp_update_header, wp_ret. split; [done|]. simpl.
  set (m2 := store32 (p + size) _ (mem h1)).
  set (m3 := store32 p _ m2).
  assert (load32 m2 p = load32 (mem h) p) as Hhd.
  { unfold m2. rewrite load32_store32_other by lia.
    apply (load32_agree (mem h) _ p p (p + size)); [apply Hag; lia|lia..]. }
  assert (forall b c, c <= p \/ p + s <= b -> agree (mem h) m3 b c) as Hout.
  { intros b c Hbc. unfold m3, m2. eapply agree_trans; [apply Hag; lia|].
    eapply agree_trans; apply store32_agree; lia. }
  split; [|split; [done..|]; intros b c Hbc; simpl; apply Hout; lia].
  change (set_mem m3 (set_highmark_size ?v (set_total_free_size ?f (set_mem _ h1))))
    with (set_highmark_size v (set_total_free_size f (set_mem m3 h1))).
  apply (taken_reserved (set_mem m3 h1) size [Chunk (s - size) true]); simpl; try done; try lia.
  - by destruct Hsame.
  - unfold m3. rewrite load32_store32_same. by autorewrite with hmu.
  - unfold m3. rewrite load32_store32_same, Hhd. by autorewrite with hmu.
  - apply Hout. lia.
  - assert (load32 m3 (p + size) = hmu_mark_pinuse (load32 (mem h1) (p + size)) mod 2 ^ 32) as ->.
    { unfold m3. rewrite load32_store32_other by lia. unfold m2. by rewrite load32_store32_same. }
    split; [split; simpl; autorewrite with hmu; done|].
    change GC_SMALLEST_SIZE with 16. do 2 (split; [done || lia|]). split; [done|].
    split.
    + intros _ _. unfold m3, m2. rewrite !load32_store32_other by lia. done.
    + replace (p + size + (s - size)) with (p + s) by lia.
      eapply chunks_at_frame; [done| |exact C5]. apply Hout. lia.
  - eapply free_store_frame; [exact Hst1|by split|done|done|]. simpl.
    intros a t Ha. unfold m3, m2. apply elem_of_cons in Ha as [[= -> ->]|Ha].
    + eapply agree_trans; apply store32_agree; lia.
    + pose proof (Hap _ _ Ha). pose proof (fs_chunks _ _ Hst _ _ Ha) as [_ _ Hbig _ _].
      change GC_SMALLEST_SIZE with 16 in Hbig. eapply agree_trans; apply store32_agree; lia.
Qed.

(** The whole chunk is taken. *)
Lemma take_chunk_whole size :
  wp no_fault (take_chunk false p s size) (fun r h' => r = p /\
    reserved h' cs1 p s cs2 /\ only_chunk p s h h') h.
Proof.
  pose proof (taken_sizes _ _ _ _ _ _ Htk) as (S1 & S2 & S3 & S4 & S5 & S6 & S7).
  pose proof (taken_chunks _ _ _ _ _ _ Htk) as (C1 & C2 & C3 & C4 & C5).
  pose proof (taken_apart _ _ _ _ _ _ Htk) as Hap.
  pose proof Htk as [[Hpool Hal Htot Hch Hst Hfree Hhigh Hsound] Hplace Hrest].
  pose proof taken_pinuse as Hpin.
  assert (size_ok s) as Hsz by (destruct Hpool; split; [lia|done]).
  pose proof (taken_account s ltac:(lia)) as (A1 & A2 & A3).
  assert (exists m1, (forall Q, Q tt (set_mem m1 h) ->
      wp no_fault (if in_heap h (p + s) then update_header (p + s) hmu_mark_pinuse else mret tt) Q h) /\
    chunks_at m1 (heap_end h) (p + s) true cs2 /\
    (forall b c, c <= p + s \/ p + s + 4 <= b \/ heap_end h <= b -> agree (mem h) m1 b c))
    as (m1 & Hwp & Hafter & Hag).
  { destruct (in_heap h (p + s)) eqn:Hin.
    - eexists. split; [intros Q HQ; apply wp_update_header; exact HQ|].
      split; [by eapply chunks_at_mark|]. intros b c Hbc. apply store32_agree.
      unfold in_heap, hmu_is_in_heap in Hin. apply andb_true_iff in Hin as [_ Hin%Z.ltb_lt].
      destruct cs2 as [|c2 cs]; [simpl in S7; lia|].
      apply Forall_cons in S2 as [[Hc _] S2]. pose proof (total_nonneg _ S2). simpl in S7.
      change GC_SMALLEST_SIZE with 16 in Hc. lia.
    - exists (mem h). split; [intros Q HQ; apply wp_ret; by destruct h|].
      split; [|intros; apply agree_refl]. destruct cs2 as [|c cs]; [done|].
      apply Forall_cons in S2 as [[Hc _] S2]. pose proof (total_nonneg _ S2). simpl in S7.
      unfold in_heap, hmu_is_in_heap in Hin. change GC_SMALLEST_SIZE with 16 in Hc.
      apply andb_false_iff in Hin. rewrite Z.leb_gt, Z.ltb_ge in Hin. lia. }
  unfold take_chunk. apply wp_bind, wp_heap_state. apply wp_bind, Hwp. apply wp_bind.
  apply account_spec; [done..|].
  intros v Hv. apply wp_bind, wp_update_header, wp_ret. split; [done|]. simpl.
  set (m2 := store32 p _ m1).
  assert (load32 m1 p = load32 (mem h) p) as Hhd.
  { apply (load32_agree _ _ p p (p + 4)); [apply Hag; lia|lia..]. }
  split.
  - change (set_mem m2 (set_highmark_size ?v (set_total_free_size ?f (set_mem _ h))))
      with (set_highmark_size v (set_total_free_size f (set_mem m2 h))).
    apply (taken_reserved (set_mem m2 h) s []); simpl; try done; try lia.
    + unfold m2. rewrite load32_store32_same. by autorewrite with hmu.
    + unfold m2. rewrite load32_store32_same, Hhd. by autorewrite with hmu.
    + unfold m2. eapply agree_trans; [apply Hag; lia|apply store32_agree; lia].
    + eapply chunks_at_frame; [done| |exact Hafter]. apply store32_agree. lia.
    + eapply free_store_frame; [exact Hst|by split|done|done|]. simpl. intros a t Ha.
      pose proof (Hap _ _ Ha). pose proof (fs_chunks _ _ Hst _ _ Ha) as [_ _ Hbig _ _].
      change GC_SMALLEST_SIZE with 16 in Hbig.
      eapply agree_trans; [apply Hag; lia|apply store32_agree; lia].
  - split; [done..|]. intros b c Hbc. simpl.
    eapply agree_trans; [apply Hag; lia|apply store32_agree; lia].
Qed.
End take.

(** ** Choosing a chunk *)

(** A free chunk, in its place. *)
Lemma frees_pick a cs p s :
  (p, s) ∈ frees a cs ->
  exists cs1 cs2, cs = cs1 ++ Chunk s true :: cs2 /\ p = a + total cs1 /\
    frees a cs ≡ₚ (p, s) :: frees a cs1 ++ frees (p + s) cs2.
Proof.
  intros (cs1 & [s' fr] & cs2 & -> & -> & <- & Hf)%pieces_split. simpl in Hf. subst fr.
  exists cs1, cs2. do 2 (split; [done|]). rewrite pieces_app. simpl. by rewrite Permutation_middle.
Qed.

(** It is taken by a change of the store alone. *)
Lemma heap_inv_taken h h' cs1 p s cs2 fs :
  heap_inv h (cs1 ++ Chunk s true :: cs2) -> p = base_addr h + total cs1 ->
  same_heap h h' -> mem h' = mem h -> free_store h' fs ->
  fs ≡ₚ frees (base_addr h) cs1 ++ frees (p + s) cs2 -> taken h' cs1 p s cs2 fs.
Proof.
  intros [H1 H2 H3 H4 H5 H6 H7 H8] Hp Hsame Hm Hst Hfs. pose proof Hsame as [E1 E2 E3 E4 E5 E6].
  split; rewrite ?E1; try done.
  split; rewrite ?E1, ?E2, ?E4, ?E5, ?E6, ?Hm; try done. by eapply same_pool_ok.
Qed.

(** Lists from [idx] on. *)
Lemma find_normal_spec fuel idx h (Q : option Z -> gc_heap -> Prop) :
  0 <= idx -> length (kfc_normal_list h) = (Z.to_nat idx + fuel)%nat ->
  ((forall i, idx <= i -> (i < Z.of_nat (length (kfc_normal_list h))) ->
     kfc_normal_list h !! Z.to_nat i = Some 0) -> Q None h) ->
  (forall i p, idx <= i -> kfc_normal_list h !! Z.to_nat i = Some p -> p <> 0 ->
     (forall j, idx <= j < i -> kfc_normal_list h !! Z.to_nat j = Some 0) -> Q (Some i) h) ->
  wp no_fault (find_normal fuel idx) Q h.
Proof.
  revert idx. induction fuel as [|fuel IH]; intros idx Hidx Hlen Hnone Hsome; cbn [find_normal].
  - apply wp_ret, Hnone. intros i Hi Hi'. lia.
  - destruct (lookup_lt_is_Some_2 (kfc_normal_list h) (Z.to_nat idx)) as [p Hp]; [lia|].
    apply wp_bind. eapply wp_normal_head; [exact Hp|].
    destruct (Z.eqb_spec p 0) as [->|Hp0].
    + assert (forall i, idx <= i -> i <> idx -> idx + 1 <= i) as Hstep by lia.
      apply IH; [lia|lia|..].
      * intros Hall. apply Hnone. intros i Hi Hi'. destruct (decide (i = idx)) as [->|Hne]; [done|].
        apply Hall; [by apply Hstep|done].
      * intros i q Hi Hq Hq0 Hall. apply (Hsome i q); [lia|done|done|]. intros j Hj.
        destruct (decide (j = idx)) as [->|Hne]; [done|]. apply Hall. lia.
    + apply wp_ret. apply (Hsome idx p); [lia|done|done|lia].
Qed.

(** The size of the chunk for a request. *)
Definition chunk_request (size : Z) : Z := Z.max size GC_SMALLEST_SIZE.

(** The chunk [(p, s)] is the smallest free one for a request. *)
Definition best (fs : list (Z * Z)) (n p s : Z) : Prop :=
  (p, s) ∈ fs /\ n <= s /\ Forall (fun e => n <= e.2 -> s <= e.2) fs.

(** The result of [alloc_hmu] for a request of [n] bytes. *)
Definition allocated (h : gc_heap) (cs : list chunk) (n r : Z) (h' : gc_heap) : Prop :=
  (r = 0 /\ h' = h /\ Forall (fun e => e.2 < n) (frees (base_addr h) cs)) \/
  exists cs1 s cs2 t cs2', cs = cs1 ++ Chunk s true :: cs2 /\
    best (frees (base_addr h) cs) n r s /\
    t = (if decide (n + 16 <= s) then n else s) /\
    cs2' = (if decide (t = s) then cs2 else Chunk (s - t) true :: cs2) /\
    reserved h' cs1 r t cs2' /\ only_chunk r s h h'.

Lemma take_chunk_spec h h' cs1 p s cs2 fs n split :
  same_heap h h' -> mem h' = mem h ->
  taken h' cs1 p s cs2 fs -> best (frees (base_addr h) (cs1 ++ Chunk s true :: cs2)) n p s ->
  16 <= n -> n mod 8 = 0 -> (split = true <-> n + 16 <= s) ->
  wp no_fault (take_chunk split p s n) (allocated h (cs1 ++ Chunk s true :: cs2) n) h'.
Proof.
  intros Hsame Hmem Htk Hbest Hn Hm Hsp.
  assert (forall h2, only_chunk p s h' h2 -> only_chunk p s h h2) as Hchunk.
  { intros h2 [H1 H2 Hr H3]. destruct Hsame as [E1 E2 E3 _ _ _]. rewrite Hmem in H3.
    split; [congruence..|]. intros b c Hbc. apply H3. lia. }
  destruct split.
  - destruct Hsp as [Hsp _]. specialize (Hsp eq_refl). eapply wp_mono; [by eapply take_chunk_split|].
    intros r h2 (-> & Hres & Hout). right. exists cs1, s, cs2, n, (Chunk (s - n) true :: cs2).
    split; [done|]. split; [done|]. destruct (decide (n + 16 <= s)); [|lia].
    split; [done|]. destruct (decide (n = s)); [lia|]. auto.
  - eapply wp_mono; [by eapply take_chunk_whole|].
    intros r h2 (-> & Hres & Hout). right. exists cs1, s, cs2, s, cs2.
    split; [done|]. split; [done|]. split; [destruct (decide _) as [Hle|]; [|done]; by apply Hsp in Hle|].
    destruct (decide (s = s)); [|done]. auto.
Qed.

Lemma wp_assoc {S A B C} E (m : M S A) (f : A -> M S B) (k : B -> M S C) Q (s : S) :
  wp E ((m ≫= f) ≫= k) Q s -> wp E (m ≫= (fun a => f a ≫= k)) Q s.
Proof. unfold wp, mbind, M_bind. by destruct (m s) as [[a s']|]. Qed.

Lemma land_7 z : Z.land z 7 = z mod 8.
Proof. change 7 with (Z.ones 3). by rewrite Z.land_ones by lia. Qed.

Section choose.
Context (h : gc_heap) (cs : list chunk) (n : Z).
Context (Hinv : heap_inv h cs) (Hn16 : 16 <= n) (Hn8 : n mod 8 = 0).
Let fs := frees (base_addr h) cs.

(** A split is decided without overflow. *)
Lemma split_decision s :
  s < 2 ^ 30 -> n <= s -> (wrap32 (n + GC_SMALLEST_SIZE) <=? s) = true <-> n + 16 <= s.
Proof.
  intros Hs Hns. change GC_SMALLEST_SIZE with 16. unfold wrap32. rewrite Z.mod_small by lia.
  apply Z.leb_le.
Qed.

Lemma free_small_enough p s : (p, s) ∈ fs -> s < 2 ^ 30.
Proof.
  intros Hp. pose proof (fs_chunks _ _ (ho_store _ _ _ Hinv) _ _ Hp) as Hc.
  destruct (chunk_size_ok _ _ _ (ho_pool _ _ _ Hinv) Hc) as [[Hs _] _]. lia.
Qed.

Lemma alloc_from_tree_spec :
  Forall (fun e => e.2 < HMU_FC_NORMAL_MAX_SIZE -> e.2 < n) fs ->
  wp no_fault (alloc_from_tree n) (allocated h cs n) h.
Proof.
  intros Hsmall. rewrite Forall_forall in Hsmall.
  unfold alloc_from_tree. apply wp_bind, wp_heap_state.
  apply wp_assoc, wp_bind.
  apply (tree_fit h (large fs)); [apply (fs_tree _ _ (ho_store _ _ _ Hinv))|..].
  - intros Hall. rewrite Forall_forall in Hall. apply wp_ret. left. do 2 (split; [done|]).
    apply Forall_forall. intros e He. destruct (decide (e.2 < HMU_FC_NORMAL_MAX_SIZE)).
    + by apply Hsmall.
    + apply Hall, list_elem_of_filter. split; [lia|done].
  - intros p s Hp Hs Hp0 Hbest. apply Z.eqb_neq in Hp0 as ->.
    apply list_elem_of_filter in Hp as [Hlarge Hp]. simpl in Hlarge.
    destruct (frees_pick _ _ _ _ Hp) as (cs1 & cs2 & Hcs & Hplace & Hperm). apply wp_bind.
    eapply wp_mono; [apply (tree_remove h p s (large (frees (base_addr h) cs1 ++ frees (p + s) cs2)))|].
    { pose proof (fs_tree _ _ (ho_store _ _ _ Hinv)) as Ht. eapply tree_holds_perm; [|exact Ht].
      unfold large. rewrite Hperm, filter_cons. by destruct (decide _). }
    intros ok h' (-> & g' & -> & Hnode & Ht). cbn [negb]. apply wp_bind.
    eapply wp_node; [exact Hnode|]. cbn [node_size].
    pose proof Hinv as Hinv'. rewrite Hcs in Hinv' |- *.
    eapply take_chunk_spec; [by split|done| | |done|done|].
    + eapply heap_inv_taken; [exact Hinv'|done|by split|done| |done].
      pose proof (free_store_perm _ _ _ Hperm (ho_store _ _ _ Hinv)) as Hst.
      apply (free_store_remove h _ p s Hst); [by split|apply (fs_length _ _ Hst)|..|done].
      intros i q Hi. destruct (fs_lists _ _ Hst i q Hi) as (l & Hl & Hb). exists l.
      split; [done|]. rewrite bucket_cons in Hb. by destruct (decide _); [lia|].
    + rewrite <- Hcs. split; [done|]. split; [done|]. rewrite Forall_forall in Hbest. apply Forall_forall.
      intros e He Hle. destruct (decide (e.2 < HMU_FC_NORMAL_MAX_SIZE)) as [Hlt|Hge].
      * specialize (Hsmall _ He Hlt). lia.
      * apply Hbest; [|done]. apply list_elem_of_filter. split; [lia|done].
    + apply split_decision; [by eapply free_small_enough|done].
Qed.

(** A list that is empty has no free chunk. *)
Lemma empty_list i p s :
  kfc_normal_list h !! Z.to_nat i = Some 0 -> 0 <= i -> s = 8 * i -> (p, s) ∈ fs ->
  s < HMU_FC_NORMAL_MAX_SIZE -> False.
Proof.
  intros Hi Hi0 Hs Hp Hsm. destruct (fs_lists _ _ (ho_store _ _ _ Hinv) _ _ Hi) as (l & Hl & Hb).
  rewrite Z2Nat.id in Hb by done.
  assert (p ∈ l) as Hpl.
  { rewrite Hb. unfold bucket. apply list_elem_of_fmap. exists (p, s). split; [done|].
    apply list_elem_of_filter. simpl. done. }
  destruct l as [|x l]; [by apply elem_of_nil in Hpl|]. destruct Hl as (<- & Hx & _). done.
Qed.

Lemma free_index p s : (p, s) ∈ fs -> s < HMU_FC_NORMAL_MAX_SIZE ->
  0 <= Z.shiftr s 3 < 31 /\ s = 8 * Z.shiftr s 3.
Proof.
  intros Hp Hsm. pose proof (fs_chunks _ _ (ho_store _ _ _ Hinv) _ _ Hp) as Hc.
  apply small_index; [|done]. by destruct (chunk_size_ok _ _ _ (ho_pool _ _ _ Hinv) Hc).
Qed.
End choose.

Lemma alloc_hmu_spec h cs size :
  heap_inv h cs -> 0 <= size < 2 ^ 32 -> size mod 8 = 0 ->
  wp no_fault (alloc_hmu size) (allocated h cs (chunk_request size)) h.
Proof.
  intros Hinv Hs Hm. unfold alloc_hmu.
  replace (if size <? GC_SMALLEST_SIZE then GC_SMALLEST_SIZE else size) with (chunk_request size)
    by (unfold chunk_request; destruct (Z.ltb_spec size GC_SMALLEST_SIZE); lia).
  assert (16 <= chunk_request size /\ chunk_request size mod 8 = 0) as [Hn16 Hn8].
  { unfold chunk_request. change GC_SMALLEST_SIZE with 16. split; [lia|].
    destruct (Z.max_spec size 16) as [[_ ->]|[_ ->]]; done. }
  set (n := chunk_request size) in *. clearbody n. clear size Hs Hm.
  destruct (HMU_IS_FC_NORMAL n) eqn:Hnorm; unfold HMU_IS_FC_NORMAL in Hnorm.
  2:{ apply alloc_from_tree_spec; [done..|]. apply Z.ltb_ge in Hnorm.
      apply Forall_forall. intros e _ He. lia. }
  apply Z.ltb_lt in Hnorm. change HMU_FC_NORMAL_MAX_SIZE with 248 in *.
  destruct (small_index n ltac:(split; [lia|done]) Hnorm) as [Hi Hi8].
  set (i0 := Z.shiftr n 3) in *. clearbody i0. apply wp_bind.
  pose proof (fs_length _ _ (ho_store _ _ _ Hinv)) as Hlen.
  apply find_normal_spec; [lia|rewrite Hlen; unfold HMU_NORMAL_NODE_CNT in *; lia|..].
  - intros Hempty. apply alloc_from_tree_spec; [done..|]. apply Forall_forall. intros [p s] Hp Hsm.
    change HMU_FC_NORMAL_MAX_SIZE with 248 in Hsm. simpl in *.
    destruct (free_index h cs Hinv p s Hp Hsm) as [Hj Hj8].
    destruct (decide (s < n)) as [|Hge]; [done|]. exfalso.
    eapply (empty_list h cs Hinv (Z.shiftr s 3) p s);
      [apply Hempty; unfold HMU_NORMAL_NODE_CNT in *; lia|lia|done|done|done].
  - intros i p Hii Hip Hp0 Hempty.
    destruct (fs_lists _ _ (ho_store _ _ _ Hinv) _ _ Hip) as (l & Hl & Hb).
    rewrite Z2Nat.id in Hb by lia. destruct l as [|x l]; [done|].
    pose proof Hl as (<- & _ & _).
    assert ((p, 8 * i) ∈ frees (base_addr h) cs /\ 8 * i < 248) as [Hp Hsm].
    { assert (p ∈ bucket i (frees (base_addr h) cs)) as Hpb by (rewrite <- Hb; by left).
      unfold bucket in Hpb. apply list_elem_of_fmap in Hpb as ([q s] & -> & Hq).
      apply list_elem_of_filter in Hq as [[Hq1 Hq2] Hq]. simpl in *. by subst s. }
    destruct (frees_pick _ _ _ _ Hp) as (cs1 & cs2 & Hcs & Hplace & Hperm).
    pose proof (free_store_perm _ _ _ Hperm (ho_store _ _ _ Hinv)) as Hst.
    pose proof (fs_chunks _ _ (ho_store _ _ _ Hinv) _ _ Hp) as Hc.
    apply wp_bind. eapply wp_normal_head; [exact Hip|]. apply wp_bind, wp_heap_state.
    rewrite (chunk_in_heap _ _ _ (ho_pool _ _ _ Hinv) Hc). cbn [negb].
    apply wp_bind, wp_next. apply wp_bind, wp_modify.
    unfold hmu_to_obj. rewrite land_7, (co_aligned _ _ _ Hc). simpl.
    rewrite Z.shiftl_mul_pow2 by lia. replace (i * 2 ^ 3) with (8 * i) by lia.
    subst cs. eapply take_chunk_spec; [by split|done| | |done|done|].
    + eapply heap_inv_taken; [exact Hinv|done|by split|done| |done].
      eapply (free_store_pop h _ p (8 * i) Hst); [exact Hl| |lia|done|done].
      apply (Permutation_cons_inv (a := p)). rewrite Hb. unfold bucket. rewrite Hperm.
      rewrite filter_cons. simpl. destruct (decide _) as [|Hn]; [done|]. exfalso. by apply Hn.
    + split; [done|]. split; [lia|]. apply Forall_forall. intros [q s] Hq Hle. simpl in *.
      destruct (decide (s < 248)) as [Hs|]; [|lia].
      destruct (free_index h _ Hinv q s Hq Hs) as [Hj Hj8].
      destruct (decide (Z.shiftr s 3 < i)) as [Hlt|]; [|lia]. exfalso.
      eapply (empty_list h _ Hinv (Z.shiftr s 3) q s); [apply Hempty; lia|lia|done|done|done].
    + rewrite andb_true_iff, split_decision by lia. rewrite negb_true_iff, Z.eqb_neq. lia.
Qed.
