(* ===== verification/EmsHeap.v ===== *)
(** * The heap as an allocator

    What the runtime may rely on: [gc_alloc_vo] returns a new aligned object
    that overlaps no other, whenever a free chunk is large enough, and
    [gc_free_vo] gives an object back and merges it with its neighbours; both
    keep the invariant and the bytes of every other object. *)

From S2P Require Import Prelude Memory Ems EmsTree EmsFree EmsSpec.

(** ** Sizes *)

Lemma tot_size_fits size :
  0 <= size -> size + 11 < 2 ^ 32 ->
  tot_size_unaligned size = size + 4 /\ tot_size size = 8 * ((size + 11) / 8).
Proof.
  intros H0 H. unfold tot_size, tot_size_unaligned, GC_ALIGN_8, HMU_SIZE, wrap32.
  rewrite !(Z.mod_small (4 + size)) by lia. rewrite Z.mod_small by lia. split; [lia|].
  change 7 with (Z.ones 3) at 2. rewrite Z.ldiff_ones_r by lia.
  rewrite Z.shiftl_mul_pow2, Z.shiftr_div_pow2 by lia. change (2 ^ 3) with 8.
  replace (4 + size + 7) with (size + 11) by lia. lia.
Qed.

Lemma ldiff_le z n : 0 <= z -> 0 <= n -> Z.ldiff z (Z.ones n) <= z.
Proof.
  intros Hz Hn. rewrite Z.ldiff_ones_r, Z.shiftl_mul_pow2, Z.shiftr_div_pow2 by lia.
  pose proof (Z.mul_div_le z (2 ^ n)). pose proof (Z.pow_pos_nonneg 2 n). lia.
Qed.

(** The sum overflows exactly for the sizes that are refused. *)
Lemma tot_size_overflows size :
  0 <= size < 2 ^ 32 -> (tot_size size <? size) = (2 ^ 32 <=? size + 11).
Proof.
  intros Hs. destruct (Z.leb_spec (2 ^ 32) (size + 11)) as [Hle|Hlt].
  - apply Z.ltb_lt. unfold tot_size, tot_size_unaligned, GC_ALIGN_8, HMU_SIZE, wrap32.
    change 7 with (Z.ones 3) at 2. eapply Z.le_lt_trans; [apply ldiff_le; [|lia]|].
    + apply Z.mod_pos_bound. lia.
    + rewrite Z.mod_mod by lia. destruct (decide (size + 4 < 2 ^ 32)).
      * rewrite (Z.mod_small (4 + size)) by lia.
        replace ((4 + size + 7) mod 2 ^ 32) with (4 + size + 7 - 2 ^ 32); [lia|].
        apply Z.mod_unique_pos with 1; lia.
      * replace ((4 + size) mod 2 ^ 32) with (4 + size - 2 ^ 32)
          by (apply Z.mod_unique_pos with 1; lia).
        rewrite Z.mod_small by lia. lia.
  - destruct (tot_size_fits size) as [_ ->]; [lia..|]. apply Z.ltb_ge.
    pose proof (Z.div_mod (size + 11) 8). pose proof (Z.mod_pos_bound (size + 11) 8). lia.
Qed.

(** The bytes of the chunk for an object of [size] bytes. *)
Definition request (size : Z) : Z := Z.max (8 * ((size + 11) / 8)) 16.

Lemma request_room size : 0 <= size -> size + 4 <= request size.
Proof.
  intros Hs. unfold request. pose proof (Z.div_mod (size + 11) 8).
  pose proof (Z.mod_pos_bound (size + 11) 8). lia.
Qed.

(** ** Allocation *)

(** The objects of the chunks [us] keep their bytes, and so does all of the
    memory outside of the pool; the structure of the heap stays where it is. *)
Record objects_kept (h h' : gc_heap) (us : list (Z * Z)) : Prop := {
  ok_objects : forall a s, (a, s) ∈ us -> agree (mem h) (mem h') (a + HMU_SIZE) (a + s);
  ok_outside : forall x, ~ base_addr h <= x < heap_end h -> mem h' x = mem h x;
  ok_root : kfc_tree_root h' = kfc_tree_root h
}.

(** Agreement on both sides of the pool. *)
Lemma agree_outside h h' :
  (forall b c, c <= base_addr h \/ heap_end h <= b -> agree (mem h) (mem h') b c) ->
  forall x, ~ base_addr h <= x < heap_end h -> mem h' x = mem h x.
Proof. intros Hag x Hx. apply (Hag x (x + 1)); lia. Qed.

(** The chunks after the first [t] bytes of the free chunk of [s] bytes between
    [cs1] and [cs2] have been taken: a rest stays free. *)
Definition after_taking (cs1 : list chunk) (s t : Z) (cs2 : list chunk) : list chunk :=
  cs1 ++ Chunk t false :: (if decide (t = s) then cs2 else Chunk (s - t) true :: cs2).

(** The result of [gc_alloc_vo] for an object of [size] bytes. On success the
    chunk was the smallest free one that is large enough, and all of it is taken
    unless its rest is large enough to be a chunk. *)
Inductive gc_alloc_result (h : gc_heap) (cs : list chunk) (size : Z) : Z -> gc_heap -> Prop :=
| alloc_overflow : 2 ^ 32 <= size + 11 -> gc_alloc_result h cs size 0 h
| alloc_none :
    size + 11 < 2 ^ 32 -> Forall (fun e => e.2 < request size) (frees (base_addr h) cs) ->
    gc_alloc_result h cs size 0 h
| alloc_some r cs1 s cs2 t h' cs' :
    cs = cs1 ++ Chunk s true :: cs2 -> obj_to_hmu r = base_addr h + total cs1 ->
    best (frees (base_addr h) cs) (request size) (obj_to_hmu r) s ->
    t = (if decide (request size + 16 <= s) then request size else s) ->
    cs' = after_taking cs1 s t cs2 ->
    size + 11 < 2 ^ 32 -> r <> 0 -> r mod 8 = 0 -> request size <= t < request size + 16 ->
    heap_inv h' cs' -> base_addr h' = base_addr h -> current_size h' = current_size h ->
    useds (base_addr h) cs' ≡ₚ (obj_to_hmu r, t) :: useds (base_addr h) cs ->
    free_bytes cs = free_bytes cs' + t ->
    objects_kept h h' (useds (base_addr h) cs) ->
    (forall x, r + size <= x < obj_to_hmu r + t -> mem h' x = Byte.x00) ->
    gc_alloc_result h cs size r h'.

(** The objects outside of the chunk that was taken. *)
Lemma only_chunk_objects h h' cs1 s cs2 :
  only_chunk (base_addr h + total cs1) s h h' ->
  chunks_at (mem h) (heap_end h) (base_addr h) true (cs1 ++ Chunk s true :: cs2) ->
  objects_kept h h' (useds (base_addr h) (cs1 ++ Chunk s true :: cs2)).
Proof.
  intros [_ _ Hroot Hm] Hc. apply chunks_at_sizes, Forall_app in Hc as [H1 [_ H2]%Forall_cons].
  pose proof (total_nonneg _ H1). split.
  - intros a t Ha. rewrite pieces_app in Ha. simpl in Ha. apply Hm. unfold HMU_SIZE.
    apply elem_of_app in Ha as [Ha|Ha]; apply pieces_bounds in Ha; try done; lia.
  - apply agree_outside. intros b c Hbc. apply Hm. lia.
  - done.
Qed.

(** The header of the new object and its padding. *)
Definition write_object (p size t : Z) (m : memory) : memory :=
  let m := store32 p (hmu_set_ut HMU_VO (load32 m p)) m in
  let m := store32 p (hmu_unfree_vo (load32 m p)) m in
  if size + 4 <? t then memset (p + 4 + size) Byte.x00 (t - (size + 4)) m else m.

Lemma write_object_spec h cs1 p t cs2 size :
  reserved h cs1 p t cs2 -> 0 <= size -> size + 4 <= t ->
  heap_inv (set_mem (write_object p size t (mem h)) h) (cs1 ++ Chunk t false :: cs2) /\
  (forall x, p + 4 + size <= x < p + t -> write_object p size t (mem h) x = Byte.x00) /\
  (forall b c, c <= p \/ p + t <= b -> agree (mem h) (write_object p size t (mem h)) b c).
Proof.
  intros Hres Hs Ht. pose proof (rs_header _ _ _ _ _ Hres) as [Hsz Hpin].
  assert (forall b c, c <= p \/ p + t <= b ->
    agree (mem h) (write_object p size t (mem h)) b c) as Hout.
  { intros b c Hbc. unfold write_object. pose proof (rs_size _ _ _ _ _ Hres).
    destruct (size + 4 <? t).
    - eapply agree_trans; [|apply memset_agree; lia]. eapply agree_trans; apply store32_agree; lia.
    - eapply agree_trans; apply store32_agree; lia. }
  split; [|split; [|done]].
  - apply (reserved_used _ _ _ _ _ _ Hres); [|done].
    assert (load32 (write_object p size t (mem h)) p =
      hmu_unfree_vo (hmu_set_ut HMU_VO (load32 (mem h) p) mod 2 ^ 32) mod 2 ^ 32) as ->.
    { unfold write_object. destruct (size + 4 <? t).
      - rewrite (load32_agree (store32 p (hmu_unfree_vo (load32
          (store32 p (hmu_set_ut HMU_VO (load32 (mem h) p)) (mem h)) p))
          (store32 p (hmu_set_ut HMU_VO (load32 (mem h) p)) (mem h))) _ p p (p + 4));
          [|apply memset_agree; lia|lia..].
        by rewrite !load32_store32_same.
      - by rewrite !load32_store32_same. }
    split; simpl; autorewrite with hmu; done.
  - intros x Hx. unfold write_object. destruct (Z.ltb_spec (size + 4) t); [|lia].
    unfold memset. by destruct (within_spec (p + 4 + size) (t - (size + 4)) x); [|lia].
Qed.

Lemma gc_alloc_vo_spec h cs size :
  heap_inv h cs -> 0 <= size < 2 ^ 32 ->
  wp no_fault (gc_alloc_vo size) (gc_alloc_result h cs size) h.
Proof.
  intros Hinv Hs. unfold gc_alloc_vo. rewrite tot_size_overflows by done.
  destruct (Z.leb_spec (2 ^ 32) (size + 11)) as [Hov|Hfit]; [by apply wp_ret, alloc_overflow|].
  destruct (tot_size_fits size) as [Hu Ht]; [lia..|].
  apply wp_bind, wp_heap_state. rewrite (ho_sound _ _ _ Hinv). unfold alloc_hmu_ex. apply wp_bind.
  eapply wp_mono; [apply alloc_hmu_spec; [exact Hinv|..]|].
  { rewrite Ht. pose proof (Z.mul_div_le (size + 11) 8). pose proof (Z.div_pos (size + 11) 8). lia. }
  { rewrite Ht, Z.mul_comm. apply Z.mod_mul. lia. }
  replace (chunk_request (tot_size size)) with (request size) by (by rewrite Ht).
  pose proof (request_room size ltac:(lia)) as Hroom.
  intros r h1 [(-> & -> & Hnone)|(cs1 & s & cs2 & t & cs2' & -> & Hbest & Ht' & -> & Hres & Hoc)].
  { apply wp_ret. by apply alloc_none. }
  pose proof (rs_header _ _ _ _ _ Hres) as [Hsz Hpin].
  assert (r = base_addr h + total cs1) as Hr.
  { rewrite (rs_place _ _ _ _ _ Hres). by rewrite (oc_base _ _ _ _ Hoc). }
  assert (request size <= t < request size + 16 /\ t <= s) as [Htb Hts].
  { destruct Hbest as (_ & Hle & _). destruct (decide _); lia. }
  assert (chunk_ok h r s) as Hc.
  { apply (fs_chunks _ _ (ho_store _ _ _ Hinv)), Hbest. }
  pose proof (po_base _ (ho_pool _ _ _ Hinv)) as Hbase. pose proof (co_low _ _ _ Hc) as Hlow.
  destruct (Z.eqb_spec r 0) as [|_]; [lia|].
  apply wp_bind, wp_header. rewrite Hsz. apply wp_bind, wp_update_header.
  apply wp_bind, wp_update_header. apply wp_bind. rewrite Hu.
  destruct (write_object_spec _ _ _ _ _ size Hres ltac:(lia) ltac:(lia)) as (Hinv' & Hzero & Hout).
  unfold hmu_to_obj, HMU_SIZE.
  assert (gc_alloc_result h (cs1 ++ Chunk s true :: cs2) size (r + 4)
    (set_mem (write_object r size t (mem h1)) h1)) as Hres'.
  { eapply alloc_some; try exact Hinv'; unfold obj_to_hmu, HMU_SIZE;
      try replace (r + 4 - 4) with r by lia; simpl; try done; try lia.
    - exact (co_aligned _ _ _ Hc).
    - apply (oc_base _ _ _ _ Hoc).
    - apply (oc_size _ _ _ _ Hoc).
    - rewrite !pieces_app. simpl. rewrite <- Hr. destruct (decide (t = s)) as [->|]; simpl.
      + by rewrite Permutation_middle.
      + replace (r + t + (s - t)) with (r + s) by lia. by rewrite Permutation_middle.
    - rewrite !free_bytes_app. simpl. destruct (decide (t = s)); simpl; lia.
    - apply only_chunk_objects; [|apply (ho_chunks _ _ _ Hinv)]. rewrite <- Hr.
      split; simpl; [apply (oc_base _ _ _ _ Hoc)|apply (oc_size _ _ _ _ Hoc)|apply (oc_root _ _ _ _ Hoc)|].
      intros b c Hbc. eapply agree_trans; [apply (oc_mem _ _ _ _ Hoc _ _ Hbc)|].
      pose proof (co_high _ _ _ Hc). apply Hout. lia. }
  unfold write_object in Hres'. destruct (size + 4 <? t).
  - apply wp_update_mem, wp_ret. exact Hres'.
  - apply wp_ret, wp_ret. exact Hres'.
Qed.

(** ** Freeing *)

(** The chunks of a heap while some free ones are not in the store. *)
Record chunks_open (h : gc_heap) (cs : list chunk) (fs : list (Z * Z)) : Prop := {
  cp_pool : pool_ok h;
  cp_aligned : (base_addr h + HMU_SIZE) mod 8 = 0;
  cp_total : total cs = current_size h;
  cp_chunks : chunks_at (mem h) (heap_end h) (base_addr h) true cs;
  cp_store : free_store h fs;
  cp_free : fs ⊆ frees (base_addr h) cs;
  cp_sound : is_heap_corrupted h = false
}.

Lemma pieces_disjoint f g a cs b s b' s' :
  (forall c, f c = true -> g c = true -> False) -> sizes_ok cs ->
  (b, s) ∈ pieces f a cs -> (b', s') ∈ pieces g a cs -> apart_chunks b s b' s'.
Proof.
  intros Hfg. revert a. induction cs as [|c cs IH]; intros a Hs; simpl; [by intros ?%elem_of_nil|].
  apply Forall_cons in Hs as [[Hc _] Hs]. rewrite !elem_of_app. unfold apart_chunks.
  intros [Hb|Hb] [Hb'|Hb'].
  - destruct (f c) eqn:Hf; [|by apply elem_of_nil in Hb].
    destruct (g c) eqn:Hg; [|by apply elem_of_nil in Hb']. destruct (Hfg c Hf Hg).
  - destruct (f c); [|by apply elem_of_nil in Hb]. apply list_elem_of_singleton in Hb as [= -> ->].
    apply pieces_bounds in Hb'; [|done]. lia.
  - destruct (g c); [|by apply elem_of_nil in Hb']. apply list_elem_of_singleton in Hb' as [= -> ->].
    apply pieces_bounds in Hb; [|done]. lia.
  - by eapply IH.
Qed.

(** Links are no part of objects. *)
Lemma links_objects h h' cs fs us :
  sizes_ok cs -> total cs = current_size h -> kfc_tree_root h' = kfc_tree_root h -> links_only (mem h) (mem h') fs -> fs ⊆ frees (base_addr h) cs ->
  us ⊆ useds (base_addr h) cs -> objects_kept h h' us.
Proof.
  intros Hs Ht Hr Hl Hfs Hus. split; [| |done].
  - intros a s Ha x Hx. apply Hl. intros q t Hq Hin. apply Hfs in Hq. apply Hus in Ha.
    assert (apart_chunks q t a s) as Hap.
    { eapply pieces_disjoint; [|done|exact Hq|exact Ha]. simpl. intros c Hc. by rewrite Hc. }
    apply pieces_bounds in Hq; [|done]. unfold apart_chunks, HMU_SIZE in *.
    change GC_SMALLEST_SIZE with 16 in *. lia.
  - intros x Hx. apply Hl. intros q t Hq%Hfs Hin. apply pieces_bounds in Hq; [|done].
    change GC_SMALLEST_SIZE with 16 in *. lia.
Qed.

Lemma objects_kept_trans h1 h2 h3 us :
  base_addr h2 = base_addr h1 -> current_size h2 = current_size h1 ->
  objects_kept h1 h2 us -> objects_kept h2 h3 us -> objects_kept h1 h3 us.
Proof.
  intros Hb Hc [H1 O1 R1] [H2 O2 R2]. split; [| |congruence].
  - intros a s Ha. eapply agree_trans; [by apply H1|by apply H2].
  - intros x Hx. rewrite O2, O1; [done|lia|]. by rewrite Hb, Hc.
Qed.

Lemma objects_kept_incl h h' us us' : us' ⊆ us -> objects_kept h h' us -> objects_kept h h' us'.
Proof. intros Hus [H1 H2 H3]. split; [|done..]. intros a s Ha. by apply H1, Hus. Qed.

Lemma pieces_app_incl f a cs1 c cs2 :
  f c = false -> pieces f a (cs1 ++ c :: cs2) = pieces f a cs1 ++ pieces f (a + total cs1 + c_size c) cs2.
Proof. intros Hc. rewrite pieces_app. simpl. by rewrite Hc. Qed.

Lemma pin_after_free cs :
  pin_after true cs = false -> exists cs0 s, cs = cs0 ++ [Chunk s true].
Proof.
  destruct cs as [|[s fr] cs _] using rev_ind; [done|]. rewrite pin_after_app. simpl.
  intros Hf. apply negb_false_iff in Hf as ->. by exists cs, s.
Qed.

(** The parts of a heap around a chunk. *)
Lemma chunks_parts h cs1 c cs2 fs :
  chunks_open h (cs1 ++ c :: cs2) fs ->
  let p := base_addr h + total cs1 in
  sizes_ok cs1 /\ sizes_ok cs2 /\ 16 <= c_size c /\ c_size c mod 8 = 0 /\ 0 <= total cs1 /\
  0 <= total cs2 /\ total cs1 + c_size c + total cs2 = current_size h /\ in_heap h p = true /\
  header_ok (load32 (mem h) p) (pin_after true cs1) c /\
  (c_free c = true -> pin_after true cs1 = true) /\
  (c_free c = true -> p + c_size c < heap_end h -> load32 (mem h) (p + c_size c - 4) = c_size c).
Proof.
  intros [_ _ Ht Hc _ _ _]. apply chunks_at_sizes in Hc as Hs.
  apply Forall_app in Hs as [H1 [[H2 H3] H4]%Forall_cons]. rewrite total_app in Ht. simpl in *.
  apply chunks_at_app in Hc as [Hc1 (Hc2 & _ & _ & Hc3 & Hc4 & _)].
  pose proof (total_nonneg _ H1). pose proof (total_nonneg _ H4).
  change GC_SMALLEST_SIZE with 16 in *. do 4 (split; [done|]). do 3 (split; [lia|]).
  split; [|done]. unfold in_heap, hmu_is_in_heap. apply andb_true_iff. rewrite Z.leb_le, Z.ltb_lt. lia.
Qed.

(** A free chunk is taken from the store; the chunks stay as they are. *)
Lemma unlink_open h cs1 t cs2 fs :
  let cs := cs1 ++ Chunk t true :: cs2 in
  let x := base_addr h + total cs1 in
  chunks_open h cs ((x, t) :: fs) ->
  wp no_fault (unlink_hmu x) (fun ok h' => ok = true /\ chunks_open h' cs fs /\ same_heap h h' /\
    objects_kept h h' (useds (base_addr h) cs)) h.
Proof.
  intros cs x Hop. pose proof (chunks_parts _ _ _ _ _ Hop) as (_ & _ & _ & _ & _ & _ & _ & _ & Hhd & _).
  destruct Hop as [H1 H2 H3 H4 H5 H6 H7]. pose proof (chunks_at_sizes _ _ _ _ _ H4) as Hs.
  eapply wp_mono; [apply (unlink_hmu_spec h fs x t H1 H5)|].
  { exact (hd_ut _ _ _ Hhd). }
  { exact (hd_size _ _ _ Hhd). }
  intros ok h' (-> & Hst & Hsame & Hlinks). pose proof Hsame as [E1 E2 E3 E4 E5 E6].
  assert (fs ⊆ frees (base_addr h) cs) as Hsub by (intros e He; apply H6; by right).
  split; [done|]. split; [|split; [done|by eapply links_objects]].
  split; rewrite ?E1, ?E2; try done.
  - by eapply same_pool_ok.
  - eapply chunks_at_links; [done| |exact H4]. intros y _ Hy. apply Hlinks. intros a u Ha.
    by apply (Hy a u), Hsub.
  - congruence.
Qed.

(** The free chunk before it is merged. *)
Lemma merge_prev_spec h cs1 s cs2 :
  let cs := cs1 ++ Chunk s false :: cs2 in
  let p := base_addr h + total cs1 in
  chunks_open h cs (frees (base_addr h) cs) ->
  wp no_fault (merge_prev p (load32 (mem h) p) s) (fun r h' => exists cs0 mid,
    cs1 = cs0 ++ mid /\ Forall (fun c => c_free c = true) mid /\ pin_after true cs0 = true /\
    r = Some (base_addr h + total cs0, total mid + s) /\
    chunks_open h' cs (frees (base_addr h) cs0 ++ frees (p + s) cs2) /\ same_heap h h' /\
    objects_kept h h' (useds (base_addr h) cs)) h.
Proof.
  intros cs p Hop.
  pose proof (chunks_parts _ _ _ _ _ Hop) as (S1 & S2 & S3 & S4 & S5 & S6 & S7 & Hin & Hhd & _).
  fold p in Hhd, Hin. simpl in S3, S4, S7. unfold merge_prev. apply wp_bind, wp_heap_state.
  rewrite (hd_pin _ _ _ Hhd). destruct (pin_after true cs1) eqn:Hpin.
  { apply wp_ret. exists cs1, []. rewrite app_nil_r. do 3 (split; [done|]). split; [done|].
    split; [|by split]. unfold cs in Hop at 2. rewrite pieces_app in Hop. exact Hop. }
  destruct (pin_after_free _ Hpin) as (cs0 & s0 & ->).
  set (q := base_addr h + total cs0).
  assert (p = q + s0) as Hp by (unfold p, q; rewrite total_app; simpl; lia).
  assert (cs = cs0 ++ Chunk s0 true :: Chunk s false :: cs2) as Hcs by (unfold cs; by rewrite <- app_assoc).
  pose proof Hop as Hop0. rewrite Hcs in Hop0.
  pose proof (chunks_parts _ _ _ _ _ Hop0) as (T1 & _ & T3 & T4 & T5 & _ & T7 & Hin0 & Hhd0 & Hpin0 & Htrail).
  fold q in Hhd0, Hin0, Htrail. simpl in T3, T4, T7, Htrail. specialize (Hpin0 eq_refl).
  assert (current_size h < 2 ^ 30) as Hcur by (destruct (cp_pool _ _ _ Hop); lia).
  assert (load32 (mem h) (p - 4) = s0) as -> by (rewrite Hp; apply Htrail; lia || done).
  assert (p - signed32 s0 = q) as ->.
  { unfold signed32. destruct (Z.ltb_spec s0 (2 ^ 31)); lia. }
  rewrite Hin0. cbn [negb]. apply wp_bind, wp_header. rewrite (hd_ut _ _ _ Hhd0). simpl.
  apply wp_bind. rewrite Hcs.
  eapply wp_mono; [apply unlink_open|].
  { destruct Hop0 as [H1 H2 H3 H4 H5 H6 H7]. split; try done.
    - rewrite pieces_app in H5. eapply free_store_perm; [|exact H5]. simpl.
      rewrite <- Permutation_middle. reflexivity.
    - rewrite pieces_app. simpl. set_solver. }
  intros ok h' (-> & Hop' & Hsame & Hkept). apply wp_ret. exists cs0, [Chunk s0 true].
  split; [done|]. split; [by constructor|]. split; [done|]. rewrite (hd_size _ _ _ Hhd0). simpl.
  split; [unfold wrap32; rewrite Z.mod_small by lia; do 2 f_equal; lia|].
  split; [|done]. fold q in Hop'. by rewrite <- Hp in Hop'.
Qed.

(** The free chunk behind the chunks [csa] is merged. *)
Lemma merge_next_spec h csa cs2 p s fs :
  let cs := csa ++ cs2 in
  let next := base_addr h + total csa in
  chunks_open h cs (fs ++ frees next cs2) -> p + s = next -> 0 <= s <= current_size h ->
  base_addr h <= p ->
  wp no_fault (merge_next p s) (fun r h' => exists mid cs3,
    cs2 = mid ++ cs3 /\ Forall (fun c => c_free c = true) mid /\
    (forall c cs', cs3 = c :: cs' -> c_free c = false) /\
    r = Some (s + total mid) /\
    chunks_open h' cs (fs ++ frees (next + total mid) cs3) /\ same_heap h h' /\
    objects_kept h h' (useds (base_addr h) cs)) h.
Proof.
  intros cs next Hop Hps Hs Hp. unfold merge_next. apply wp_bind, wp_heap_state. rewrite Hps.
  assert (forall r h', (forall c cs', cs2 = c :: cs' -> c_free c = false) -> r = Some s -> h' = h ->
    exists mid cs3, cs2 = mid ++ cs3 /\ Forall (fun c => c_free c = true) mid /\
    (forall c cs', cs3 = c :: cs' -> c_free c = false) /\ r = Some (s + total mid) /\
    chunks_open h' cs (fs ++ frees (next + total mid) cs3) /\ same_heap h h' /\
    objects_kept h h' (useds (base_addr h) cs)) as Hstay.
  { intros r h' Hu -> ->. exists [], cs2. simpl. rewrite !Z.add_0_r. do 5 (split; [done|]). by split. }
  destruct cs2 as [|[t fr] cs3].
  { destruct (in_heap h next) eqn:Hin; [exfalso|by apply wp_ret, Hstay].
    unfold in_heap, hmu_is_in_heap in Hin. apply andb_true_iff in Hin as [_ Hin%Z.ltb_lt].
    pose proof (cp_total _ _ _ Hop) as Ht. unfold cs, next in *. rewrite app_nil_r in Ht. lia. }
  pose proof (chunks_parts _ _ _ _ _ Hop) as (S1 & S2 & S3 & S4 & S5 & S6 & S7 & Hin & Hhd & _ & _).
  fold next in Hhd, Hin. simpl in S3, S4, S7. rewrite Hin. cbn [negb]. apply wp_bind, wp_header.
  rewrite (hd_ut _ _ _ Hhd). destruct fr; simpl; [|by apply wp_ret, Hstay; [intros ? ? [= <- _]|..]].
  apply wp_bind. eapply wp_mono; [apply unlink_open|].
  { destruct Hop as [H1 H2 H3 H4 H5 H6 H7]. split; try done.
    - eapply free_store_perm; [|exact H5]. simpl. rewrite <- Permutation_middle. reflexivity.
    - simpl in H6. set_solver. }
  intros ok h' (-> & Hop' & Hsame & Hkept). apply wp_ret. exists [Chunk t true], cs3.
  split; [done|]. split; [by constructor|]. split.
  { intros c cs' ->. pose proof (cp_chunks _ _ _ Hop) as Hc. unfold cs in Hc.
    apply chunks_at_app in Hc as [_ (_ & _ & _ & _ & _ & (_ & _ & _ & Hc & _))].
    destruct (c_free c); [|done]. simpl in Hc. by specialize (Hc eq_refl). }
  rewrite (hd_size _ _ _ Hhd). simpl. rewrite Z.add_0_r. split; [|done].
  unfold wrap32. rewrite Z.mod_small; [done|]. destruct (cp_pool _ _ _ Hop).
  pose proof (total_nonneg _ S1). unfold next in *. lia.
Qed.

Lemma chunk_behind h p s cs :
  sizes_ok cs -> base_addr h <= p + s -> p + s + total cs = heap_end h ->
  in_heap h (p + s) = match cs with [] => false | _ => true end.
Proof.
  intros Hs Hb Ht. unfold in_heap, hmu_is_in_heap. destruct cs as [|c cs]; simpl in Ht.
  - apply andb_false_iff. right. apply Z.ltb_ge. lia.
  - apply Forall_cons in Hs as [[Hc _] Hs]. pose proof (total_nonneg _ Hs).
    change GC_SMALLEST_SIZE with 16 in Hc. apply andb_true_iff. rewrite Z.leb_le, Z.ltb_lt. lia.
Qed.

(** The chunks [mid] become one free chunk. *)
Lemma free_finish h h0 cs0 mid cs3 :
  let s := total mid in
  let p := base_addr h + total cs0 in
  chunks_open h (cs0 ++ mid ++ cs3) (frees (base_addr h) cs0 ++ frees (p + s) cs3) -> mid <> [] ->
  pin_after true cs0 = true -> (forall c cs', cs3 = c :: cs' -> c_free c = false) ->
  total_free_size h = free_bytes cs0 + s + free_bytes cs3 ->
  current_size h - total_free_size h <= highmark_size h <= current_size h ->
  (forall q, in_heap h0 q = in_heap h q) ->
  wp no_fault (ok ← gci_add_fc p s; if negb ok then mret GC_ERROR else
      (if in_heap h0 (p + s) then update_header (p + s) hmu_unmark_pinuse else mret tt);;
      mret GC_SUCCESS)
    (fun r h' => r = GC_SUCCESS /\ heap_inv h' (cs0 ++ Chunk s true :: cs3) /\
      base_addr h' = base_addr h /\ current_size h' = current_size h /\
      objects_kept h h' (useds (base_addr h) cs0 ++ useds (p + s) cs3)) h.
Proof.
  intros s p Hop Hne Hpin Hu Hfree Hhigh Hin0.
  pose proof Hop as [Hpool Hal Htot Hch Hst _ Hsound].
  pose proof (chunks_at_sizes _ _ _ _ _ Hch) as Hs. rewrite !total_app in Htot. fold s in Htot.
  apply Forall_app in Hs as [S1 [Sm S3]%Forall_app].
  apply chunks_at_app in Hch as [C1 [Cm C3]%chunks_at_app]. fold p s in Cm, C3.
  pose proof (total_nonneg _ S1). pose proof (total_nonneg _ S3).
  pose proof (total_mod _ S1) as M1. pose proof (total_mod _ Sm) as Ms. fold s in Ms.
  assert (16 <= s) as H16.
  { unfold s. destruct mid as [|c mid]; [done|].
    apply Forall_cons in Sm as [[Hc _] Sm]. pose proof (total_nonneg _ Sm).
    change GC_SMALLEST_SIZE with 16 in Hc. simpl. lia. }
  assert (hmu_get_pinuse (load32 (mem h) p) = true) as Hpp.
  { destruct mid as [|c mid]; [done|]. destruct Cm as (Hc & _). by rewrite (hd_pin _ _ _ Hc). }
  assert (forall a t, (a, t) ∈ frees (base_addr h) cs0 ++ frees (p + s) cs3 ->
    16 <= t /\ (a + t <= p \/ p + s <= a)) as Hout.
  { intros a t [Ha|Ha]%elem_of_app; apply pieces_bounds in Ha; try done;
      change GC_SMALLEST_SIZE with 16 in *; lia. }
  assert (chunk_ok h p s) as Hc.
  { split; [lia|lia|done| |done]. unfold p.
    replace (base_addr h + total cs0 + HMU_SIZE) with (base_addr h + HMU_SIZE + total cs0) by lia.
    by rewrite Z.add_mod, Hal, M1 by lia. }
  apply wp_bind. eapply wp_mono; [apply (gci_add_fc_spec h _ p s Hpool Hst Hc)|].
  { intros b t Hb. apply Hout in Hb. unfold apart_chunks. lia. }
  intros ok h1 (-> & Hst1 & Hsame & (Hut & Hsize & Hpin1 & Htrail & Hag)). cbn [negb].
  pose proof Hsame as [E1 E2 E3 E4 E5 E6]. rewrite Hpp in Hpin1.
  assert (exists m2, (forall Q, Q tt (set_mem m2 h1) ->
      wp no_fault (if in_heap h0 (p + s) then update_header (p + s) hmu_unmark_pinuse else mret tt) Q h1) /\
    chunks_at m2 (heap_end h) (p + s) false cs3 /\
    (forall b d, d <= p + s \/ p + s + 4 <= b \/ heap_end h <= b -> agree (mem h1) m2 b d))
    as (m2 & Hwp & C3' & Hag2).
  { rewrite Hin0, (chunk_behind h p s cs3) by (done || lia). destruct cs3 as [|c3 cs3].
    - exists (mem h1). split; [intros Q HQ; apply wp_ret; by destruct h1|].
      split; [done|]. intros; apply agree_refl.
    - eexists. split; [intros Q HQ; apply wp_update_header; exact HQ|].
      split; [|intros b d Hbd; apply store32_agree; change GC_SMALLEST_SIZE with 16 in *].
      2: { apply Forall_cons in S3 as [[Hc3 _] S3]. pose proof (total_nonneg _ S3).
           simpl in Htot. lia. }
      eapply chunks_at_unmark; [|done|exact Hu]. eapply chunks_at_frame; [done| |exact C3].
      apply Hag. lia. }
  assert (forall b d, d <= p \/ p + s + 4 <= b \/ heap_end h <= b -> agree (mem h) m2 b d) as Hag'.
  { intros b d Hbd. eapply agree_trans; [apply Hag; lia|apply Hag2; lia]. }
  apply wp_bind, Hwp, wp_ret. split; [done|]. split; [|split; [done|split; [done|]]].
  - split; simpl; rewrite ?E1, ?E2, ?E4, ?E5, ?E6; try done.
    + eapply same_pool_ok; [|exact Hpool]. by destruct Hsame.
    + rewrite total_app. simpl. lia.
    + apply chunks_at_app. split; [eapply chunks_at_frame; [done| |exact C1]; apply Hag'; lia|].
      fold p. rewrite Hpin. simpl.
      rewrite !(load32_agree (mem h1) m2 p p (p + 4)) by (lia || (apply Hag2; lia)).
      rewrite (load32_agree (mem h1) m2 (p + s - 4) (p + s - 4) (p + s)) by (lia || (apply Hag2; lia)).
      split; [by split|]. done.
    + apply (free_store_frame h1); [|by split|done|done|].
      * eapply free_store_perm; [|exact Hst1]. rewrite pieces_app. simpl. fold p.
        by rewrite Permutation_middle.
      * intros a t Ha. apply Hag2. rewrite pieces_app in Ha. simpl in Ha. fold p in Ha.
        apply elem_of_app in Ha as [Ha|[[= -> ->]|Ha]%elem_of_cons].
        -- destruct (Hout a t); [set_solver|]. lia.
        -- lia.
        -- destruct (Hout a t); [set_solver|]. lia.
    + rewrite free_bytes_app. simpl. lia.
  - split; [|apply agree_outside; intros b d Hbd; apply Hag'; lia|exact E3].
    intros a t Ha. apply Hag'. unfold HMU_SIZE.
    apply elem_of_app in Ha as [Ha|Ha]; apply pieces_bounds in Ha; try done; lia.
Qed.

(** The result of [gc_free_vo] for the object of a chunk [(p, s)] in use. *)
Record gc_free_result (h : gc_heap) (cs : list chunk) (p s : Z) (r : Z) (h' : gc_heap)
    (cs' : list chunk) : Prop := {
  fr_success : r = GC_SUCCESS;
  fr_inv : heap_inv h' cs';
  fr_base : base_addr h' = base_addr h;
  fr_size : current_size h' = current_size h;
  fr_used : useds (base_addr h) cs ≡ₚ (p, s) :: useds (base_addr h) cs';
  fr_bytes : free_bytes cs' = free_bytes cs + s;
  fr_kept : objects_kept h h' (useds (base_addr h) cs')
}.

Lemma useds_free a cs : Forall (fun c => c_free c = true) cs -> useds a cs = [].
Proof.
  intros Hf. revert a. induction Hf as [|c cs Hc _ IH]; intros a; simpl; [done|].
  rewrite Hc. simpl. apply IH.
Qed.

Lemma free_bytes_free cs : Forall (fun c => c_free c = true) cs -> free_bytes cs = total cs.
Proof. induction 1 as [|c cs Hc _ IH]; simpl; [done|]. rewrite Hc. lia. Qed.

Lemma gc_free_vo_spec h cs p s :
  heap_inv h cs -> (p, s) ∈ useds (base_addr h) cs ->
  wp no_fault (gc_free_vo (hmu_to_obj p)) (fun r h' => exists cs',
    gc_free_result h cs p s r h' cs') h.
Proof.
  intros Hinv (cs1 & [s' fr] & cs2 & -> & -> & <- & Hfr)%pieces_split. simpl in Hfr |- *.
  apply negb_true_iff in Hfr as ->. rename s' into s.
  pose proof Hinv as [H1 H2 H3 H4 H5 H6 H7 H8].
  assert (chunks_open h (cs1 ++ Chunk s false :: cs2)
    (frees (base_addr h) (cs1 ++ Chunk s false :: cs2))) as Hop by (by split).
  pose proof (chunks_parts _ _ _ _ _ Hop) as (S1 & S2 & S3 & S4 & S5 & S6 & S7 & Hin & Hhd & _).
  set (p := base_addr h + total cs1) in *. simpl in S3, S4, S7.
  pose proof (po_base _ H1). pose proof (po_size _ H1).
  unfold gc_free_vo, hmu_to_obj, obj_to_hmu. replace (p + HMU_SIZE - HMU_SIZE) with p by lia.
  destruct (Z.eqb_spec (p + HMU_SIZE) 0) as [E|_]; [unfold HMU_SIZE in E; lia|].
  apply wp_bind, wp_heap_state. rewrite H8, Hin. cbn [negb]. apply wp_bind, wp_header.
  rewrite (hd_ut _ _ _ Hhd), (hd_freed _ _ _ Hhd eq_refl), (hd_size _ _ _ Hhd). simpl.
  apply wp_bind, wp_modify. rewrite free_bytes_app in H6. simpl in H6.
  pose proof (free_bytes_bounds _ S1). pose proof (free_bytes_bounds _ S2).
  replace (wrap32 (total_free_size h + s)) with (total_free_size h + s)
    by (symmetry; apply Z.mod_small; lia).
  set (h1 := set_total_free_size _ h).
  assert (chunks_open h1 (cs1 ++ Chunk s false :: cs2)
    (frees (base_addr h) (cs1 ++ Chunk s false :: cs2))) as Hop1.
  { split; try done; [by destruct H1|].
    by apply (free_store_stats h _ (highmark_size h) (total_free_size h + s)). }
  apply wp_bind. eapply wp_mono; [exact (merge_prev_spec h1 cs1 s cs2 Hop1)|].
  change (base_addr h1) with (base_addr h). fold p.
  intros r h2 (cs0 & mid & -> & Hmid & Hpin & -> & Hop2 & Hsame2 & Hkept2).
  pose proof Hsame2 as [E1 E2 E3 E4 E5 E6]. change (base_addr h1) with (base_addr h) in *.
  apply wp_bind. rewrite total_app in S5, S7. apply Forall_app in S1 as [S0 Sm].
  pose proof (total_nonneg _ S0). pose proof (total_nonneg _ Sm).
  change (Chunk s false :: cs2) with ([Chunk s false] ++ cs2) in Hop2, Hkept2 |- *.
  rewrite app_assoc in Hop2, Hkept2.
  assert (p + s = base_addr h2 + total ((cs0 ++ mid) ++ [Chunk s false])) as Hnext.
  { unfold p. rewrite E1, !total_app. simpl. lia. }
  assert (base_addr h + total cs0 + (total mid + s) = p + s) as Hend.
  { unfold p. rewrite total_app. lia. }
  eapply wp_mono; [apply (merge_next_spec h2 ((cs0 ++ mid) ++ [Chunk s false]) cs2 _ _
    (frees (base_addr h) cs0))|].
  { rewrite <- Hnext. exact Hop2. }
  { lia. }
  { rewrite E2. simpl. lia. }
  { rewrite E1. simpl. lia. }
  intros r h3 (mid2 & cs3 & -> & Hmid2 & Hu & -> & Hop3 & Hsame3 & Hkept3).
  pose proof Hsame3 as [F1 F2 F3 F4 F5 F6].
  assert (base_addr h3 = base_addr h) as B3 by (rewrite F1; exact E1).
  assert (current_size h3 = current_size h) as Z3 by (rewrite F2; exact E2).
  set (m := mid ++ Chunk s false :: mid2).
  assert (total m = total mid + s + total mid2) as Htm by (unfold m; rewrite total_app; simpl; lia).
  assert (((cs0 ++ mid) ++ [Chunk s false]) ++ mid2 ++ cs3 = cs0 ++ m ++ cs3) as Hcs.
  { unfold m. by rewrite <- !app_assoc. }
  rewrite Hcs in Hop3, Hkept3. rewrite <- Hnext in Hop3.
  replace (p + s + total mid2) with (base_addr h3 + total cs0 + total m) in Hop3 by lia.
  replace (base_addr h + total cs0) with (base_addr h3 + total cs0) by lia.
  replace (total mid + s + total mid2) with (total m) by lia.
  rewrite <- B3 in Hop3 at 1.
  rewrite !free_bytes_app, (free_bytes_free mid Hmid), (free_bytes_free mid2 Hmid2) in H6.
  eapply wp_mono; [apply (free_finish h3 h cs0 m cs3 Hop3)|].
  { unfold m. by destruct mid. }
  { done. }
  { exact Hu. }
  { rewrite F6, E6. simpl. lia. }
  { rewrite F6, E6, F5, E5, Z3. simpl. lia. }
  { intros q. unfold in_heap. by rewrite B3, Z3. }
  intros r h4 (-> & Hinv4 & B4 & Z4 & Hkept4).
  exists (cs0 ++ Chunk (total m) true :: cs3).
  assert (useds (base_addr h) (cs0 ++ Chunk (total m) true :: cs3) =
    useds (base_addr h) cs0 ++ useds (p + s + total mid2) cs3) as Hus.
  { rewrite pieces_app. simpl. do 2 f_equal. lia. }
  assert (useds (base_addr h) ((cs0 ++ mid) ++ Chunk s false :: mid2 ++ cs3) ≡ₚ
    (p, s) :: useds (base_addr h) cs0 ++ useds (p + s + total mid2) cs3) as Hall.
  { rewrite pieces_app. cbn [pieces c_free c_size negb]. fold p.
    rewrite !pieces_app, (useds_free _ mid Hmid), (useds_free _ mid2 Hmid2), app_nil_r. simpl.
    by rewrite Permutation_middle. }
  split; try done.
  - rewrite B4. exact B3.
  - rewrite Z4. exact Z3.
  - by rewrite Hus.
  - rewrite !free_bytes_app. simpl. rewrite ?free_bytes_app, (free_bytes_free mid Hmid),
      (free_bytes_free mid2 Hmid2). lia.
  - rewrite Hus. set (us := useds (base_addr h) cs0 ++ useds (p + s + total mid2) cs3) in *.
    assert (us ⊆ useds (base_addr h) ((cs0 ++ mid) ++ Chunk s false :: mid2 ++ cs3)) as Hsub.
    { intros e He. rewrite Hall. by right. }
    assert (objects_kept h h2 us) as K2.
    { destruct Hkept2 as [K O R]. rewrite <- app_assoc in K. split; [|exact O|exact R]. intros a t Ha. by apply K, Hsub. }
    assert (objects_kept h2 h3 us) as K3.
    { eapply objects_kept_incl; [|exact Hkept3]. rewrite <- Hcs, E1, <- app_assoc. exact Hsub. }
    eapply (objects_kept_trans h h3); [done|done|by eapply (objects_kept_trans h h2)|].
    rewrite B3 in Hkept4.
    by replace (base_addr h + total cs0 + total m) with (p + s + total mid2) in Hkept4 by lia.
Qed.
