(* ===== verification/EmsClient.v ===== *)
(** * Clients of the heap

    Creation establishes the invariant; what the heap promises to its clients
    as an abstract allocator of objects, and that the heap refines it; errors
    of [gc_free_vo]; reallocation. *)

From S2P Require Import Prelude Memory Ems EmsTree EmsFree EmsSpec EmsHeap.

(** ** Creation *)

Lemma align8 z : Z.ldiff z 7 = 8 * (z / 8).
Proof.
  change 7 with (Z.ones 3). rewrite Z.ldiff_ones_r, Z.shiftl_mul_pow2, Z.shiftr_div_pow2 by lia.
  change (2 ^ 3) with 8. lia.
Qed.

Lemma align8_bounds z : z - 7 <= Z.ldiff z 7 <= z /\ Z.ldiff z 7 mod 8 = 0.
Proof.
  rewrite align8. pose proof (Z.div_mod z 8). pose proof (Z.mod_pos_bound z 8).
  split; [lia|]. rewrite Z.mul_comm. apply Z.mod_mul. lia.
Qed.

Section creation.
Context (sizeof_pointer : Z) (Hpointer : sizeof_pointer = 4 \/ sizeof_pointer = 8).

Lemma sizeof_bounds :
  0 < kfc_tree_root_buf_offset sizeof_pointer < sizeof_gc_heap sizeof_pointer /\
  4 <= sizeof_hmu_tree_node sizeof_pointer < HMU_FC_NORMAL_MAX_SIZE /\
  sizeof_gc_heap sizeof_pointer <= 352.
Proof. by destruct Hpointer as [-> | ->]. Qed.

Lemma gc_init_internal_inv heap base n m :
  0 < base -> (base + HMU_SIZE) mod 8 = 0 -> HMU_FC_NORMAL_MAX_SIZE <= n < 2 ^ 30 -> n mod 8 = 0 ->
  0 < heap -> heap + sizeof_gc_heap sizeof_pointer <= base \/ base + n <= heap ->
  let h := gc_init_internal sizeof_pointer heap base n m in
  heap_inv h [Chunk n true] /\ base_addr h = base /\ current_size h = n.
Proof.
  intros Hb Ha Hn Hn8 Hh Hout h. pose proof sizeof_bounds as (Hr & Hs & _).
  set (root := heap + kfc_tree_root_buf_offset sizeof_pointer).
  assert (root <> base) as Hrb by (unfold root; change HMU_FC_NORMAL_MAX_SIZE with 248 in *; lia).
  assert (in_heap h base = true) as Hin.
  { unfold in_heap, hmu_is_in_heap. simpl. apply andb_true_iff. rewrite Z.leb_le, Z.ltb_lt.
    change HMU_FC_NORMAL_MAX_SIZE with 248 in *. lia. }
  split; [|done]. split; simpl; try done; try lia.
  - split; simpl; [done|change HMU_FC_NORMAL_MAX_SIZE with 248 in *; lia|unfold root in *; lia].
  - rewrite load32_store32_same, load32_memset_zero by lia.
    assert (size_ok n) as Hok by (split; [change HMU_FC_NORMAL_MAX_SIZE with 248 in *; lia|done]).
    split; [split; simpl; autorewrite with hmu; done|].
    change GC_SMALLEST_SIZE with 16. change HMU_FC_NORMAL_MAX_SIZE with 248 in *.
    split; [lia|]. do 2 (split; [done|]). split; [lia|done].
  - split; try done.
    + intros i q Hi. unfold h, gc_init_internal, kfc_normal_list in Hi.
      apply lookup_replicate in Hi as [-> _]. exists []. split; [done|].
      unfold bucket. rewrite filter_cons_False; [done|]. simpl. lia.
    + exists (sizeof_hmu_tree_node sizeof_pointer), (Node Leaf base n Leaf).
      unfold large. rewrite filter_cons_True by (simpl; lia). simpl.
      rewrite lookup_insert_ne, lookup_singleton_eq, lookup_insert_eq by done.
      split; [split; [unfold root; lia|]; split; [done|]; split; [done|]; split; [lia|]; done|].
      split; [repeat constructor; simpl; lia|]. split; [|split; [by constructor|]; split; [lia|done]].
      constructor; [set_solver|]. constructor; [set_solver|constructor].
    + intros a s Hin'. apply list_elem_of_singleton in Hin' as [= -> ->].
      split; simpl; try done; try lia. change GC_SMALLEST_SIZE with 16.
      change HMU_FC_NORMAL_MAX_SIZE with 248 in *. lia.
    + constructor; [set_solver|constructor].
    + intros a s b t Hin1 Hin2. apply list_elem_of_singleton in Hin1 as [= -> ->].
      by apply list_elem_of_singleton in Hin2 as [= -> ->].
Qed.

(** Creation writes to the structure and the pool only. *)
Lemma gc_init_internal_agree heap base n m b c :
  HMU_FC_NORMAL_MAX_SIZE <= n -> c <= heap \/ heap + sizeof_gc_heap sizeof_pointer <= b ->
  c <= base \/ base + n <= b -> agree m (mem (gc_init_internal sizeof_pointer heap base n m)) b c.
Proof.
  intros Hn Hh Hb. pose proof sizeof_bounds as (Hr & Hs & _).
  assert (kfc_tree_root_buf_offset sizeof_pointer + sizeof_hmu_tree_node sizeof_pointer <=
    sizeof_gc_heap sizeof_pointer) as Hroot by (by destruct Hpointer as [-> | ->]).
  unfold gc_init_internal. cbn [mem].
  repeat first [apply agree_refl | eapply agree_trans; [|first [apply memset_agree|apply store32_agree]; lia]].
Qed.

Lemma gc_init_with_pool_inv buf buf_size m :
  0 < buf -> sizeof_gc_heap sizeof_pointer + 18 + 255 <= buf_size < 2 ^ 30 ->
  exists heap h, gc_init_with_pool sizeof_pointer buf buf_size m = Some (heap, h) /\
    heap_inv h [Chunk (current_size h) true] /\
    buf <= heap /\ heap + sizeof_gc_heap sizeof_pointer <= base_addr h /\
    buf + buf_size - 8 < heap_end h <= buf + buf_size.
Proof.
  intros Hb Hs. pose proof sizeof_bounds as (Hr & _ & _). unfold gc_init_with_pool.
  destruct (Z.ltb_spec buf_size APP_HEAP_SIZE_MIN) as [Hlt|_]; [unfold APP_HEAP_SIZE_MIN in Hlt; lia|].
  pose proof (align8_bounds (buf + 7)) as [Hheap Hheap8]. set (heap := Z.ldiff (buf + 7) 7) in *.
  pose proof (align8_bounds (heap + sizeof_gc_heap sizeof_pointer + 7)) as [Hbase Hbase8].
  set (base := Z.ldiff (heap + sizeof_gc_heap sizeof_pointer + 7) 7 + GC_HEAD_PADDING) in *.
  assert (base = Z.ldiff (heap + sizeof_gc_heap sizeof_pointer + 7) 7 + 4) as Hbase4 by done.
  pose proof (align8_bounds (buf + buf_size - base)) as [Hmax Hmax8].
  assert (wrap32 (buf + buf_size - base) = buf + buf_size - base) as -> by (apply Z.mod_small; lia).
  set (n := Z.ldiff (buf + buf_size - base) 7) in *.
  destruct (gc_init_internal_inv heap base n m) as (Hinv & Eb & En); try done; try lia.
  { rewrite Hbase4. unfold HMU_SIZE.
    replace (Z.ldiff (heap + sizeof_gc_heap sizeof_pointer + 7) 7 + 4 + 4)
      with (Z.ldiff (heap + sizeof_gc_heap sizeof_pointer + 7) 7 + 1 * 8) by lia.
    by rewrite Z.mod_add by lia. }
  { change HMU_FC_NORMAL_MAX_SIZE with 248. lia. }
  exists heap, (gc_init_internal sizeof_pointer heap base n m). split; [done|].
  rewrite En, Eb. split; [done|]. lia.
Qed.

Lemma gc_init_with_struct_and_pool_inv struct struct_size pool pool_size m :
  0 < struct -> 0 < pool -> struct mod 8 = 0 -> pool mod 8 = 0 -> sizeof_pointer <= struct_size ->
  APP_HEAP_SIZE_MIN <= pool_size <= 2 ^ 30 ->
  struct + sizeof_gc_heap sizeof_pointer <= pool \/ pool + pool_size <= struct ->
  exists h, gc_init_with_struct_and_pool sizeof_pointer struct struct_size pool pool_size m =
      Some (struct, h) /\
    heap_inv h [Chunk (current_size h) true] /\ base_addr h = pool + GC_HEAD_PADDING /\
    kfc_tree_root h = struct + kfc_tree_root_buf_offset sizeof_pointer /\
    HMU_FC_NORMAL_MAX_SIZE <= current_size h /\ pool + pool_size - 8 < heap_end h <= pool + pool_size /\
    forall b c, c <= struct \/ struct + sizeof_gc_heap sizeof_pointer <= b ->
      c <= pool \/ pool + pool_size <= b -> agree m (mem h) b c.
Proof.
  intros Hs0 Hp0 Hs8 Hp8 Hss Hps Hout. unfold gc_init_with_struct_and_pool.
  rewrite !land_7, Hs8, Hp8. simpl.
  destruct (Z.ltb_spec struct_size sizeof_pointer); [lia|].
  destruct (Z.ltb_spec pool_size APP_HEAP_SIZE_MIN); [lia|].
  unfold APP_HEAP_SIZE_MIN, GC_HEAD_PADDING in *.
  replace (pool + pool_size - (pool + 4)) with (pool_size - 4) by lia.
  assert (wrap32 (pool_size - 4) = pool_size - 4) as -> by (apply Z.mod_small; lia).
  pose proof (align8_bounds (pool_size - 4)) as [Hn Hn8].
  assert (248 <= Z.ldiff (pool_size - 4) 7) as Hmin.
  { rewrite align8 in *. pose proof (Z.div_le_mono 252 (pool_size - 4) 8). lia. }
  set (n := Z.ldiff (pool_size - 4) 7) in *.
  destruct (gc_init_internal_inv struct (pool + 4) n m) as (Hinv & Eb & En); try done; try lia.
  { unfold HMU_SIZE. replace (pool + 4 + 4) with (pool + 1 * 8) by lia. by rewrite Z.mod_add by lia. }
  { change HMU_FC_NORMAL_MAX_SIZE with 248. lia. }
  eexists. split; [done|]. rewrite En, Eb. do 3 (split; [done|]).
  change HMU_FC_NORMAL_MAX_SIZE with 248. do 2 (split; [lia|]). intros b c Hbs Hbp.
  apply gc_init_internal_agree; [change HMU_FC_NORMAL_MAX_SIZE with 248|..]; lia.
Qed.
End creation.

(** ** Errors of freeing *)

(** The object of a free chunk is refused. *)
Lemma gc_free_vo_free_chunk h cs p s :
  heap_inv h cs -> (p, s) ∈ frees (base_addr h) cs ->
  gc_free_vo (hmu_to_obj p) h = Ret (GC_ERROR, h).
Proof.
  intros Hinv (cs1 & [s' fr] & cs2 & -> & -> & <- & Hfr)%pieces_split. simpl in Hfr. subst fr.
  pose proof Hinv as [H1 H2 H3 H4 H5 H6 H7 H8].
  assert (chunks_open h (cs1 ++ Chunk s' true :: cs2)
    (frees (base_addr h) (cs1 ++ Chunk s' true :: cs2))) as Hop by (by split).
  pose proof (chunks_parts _ _ _ _ _ Hop) as (S1 & _ & S3 & _ & S5 & _ & S7 & Hin & Hhd & _).
  set (p := base_addr h + total cs1) in *. pose proof (po_base _ H1).
  unfold gc_free_vo, hmu_to_obj, obj_to_hmu. replace (p + HMU_SIZE - HMU_SIZE) with p by lia.
  destruct (Z.eqb_spec (p + HMU_SIZE) 0) as [E|_]; [unfold HMU_SIZE in E; lia|].
  unfold mbind, M_bind, heap_state, header, gets, id. rewrite H8, Hin. cbn [negb].
  by rewrite (hd_ut _ _ _ Hhd).
Qed.

(** Addresses outside of the pool, and NULL, are ignored. *)
Lemma gc_free_vo_outside h obj :
  is_heap_corrupted h = false -> obj = 0 \/ in_heap h (obj_to_hmu obj) = false ->
  gc_free_vo obj h = Ret (GC_SUCCESS, h).
Proof.
  intros Hs Ho. unfold gc_free_vo. destruct (Z.eqb_spec obj 0) as [|Hne]; [done|].
  destruct Ho as [|Ho]; [done|]. unfold mbind, M_bind, heap_state, gets, id. by rewrite Hs, Ho.
Qed.

(** ** The abstract allocator *)

(** The live objects, each with its bytes. *)
Abbreviation objects := (gmap Z (list byte)).

Inductive heap_op :=
| Malloc (size : Z)
| Free (obj : Z)
| Store (obj : Z) (i : nat) (b : byte).

(** The bytes of two objects do not overlap. *)
Definition disjoint_objects (r n : Z) (os : objects) : Prop :=
  forall a bs, os !! a = Some bs -> a <> r /\ (r + n <= a \/ a + zlen bs <= r).

(** What an allocator may do. An allocation may always fail; the bytes of a
    new object can be anything. *)
Inductive alloc_step (os : objects) : heap_op -> Z -> objects -> Prop :=
| malloc_null size : alloc_step os (Malloc size) 0 os
| malloc_new size r bs :
    r <> 0 -> r mod 8 = 0 -> zlen bs = size -> disjoint_objects r size os ->
    alloc_step os (Malloc size) r (<[r := bs]> os)
| free_null : alloc_step os (Free 0) 0 os
| free_object r bs : os !! r = Some bs -> alloc_step os (Free r) 0 (delete r os)
| store_byte r bs i b :
    os !! r = Some bs -> (i < length bs)%nat ->
    alloc_step os (Store r i b) 0 (<[r := <[i := b]> bs]> os).

(** What a client may ask for. *)
Definition allowed (os : objects) (op : heap_op) : Prop :=
  match op with
  | Malloc size => 0 <= size < 2 ^ 32
  | Free r => r = 0 \/ is_Some (os !! r)
  | Store r i _ => exists bs, os !! r = Some bs /\ (i < length bs)%nat
  end.

(** The same requests, of the heap; a client writes to memory itself. *)
Definition heap_do (op : heap_op) : H Z :=
  match op with
  | Malloc size => mem_allocator_malloc size
  | Free r => mem_allocator_free r;; mret 0
  | Store r i b => update_mem (memset (r + Z.of_nat i) b 1);; mret 0
  end.

(** The bytes at an address. *)
Definition bytes_at (m : memory) (a : Z) (bs : list byte) : Prop :=
  forall i b, bs !! i = Some b -> m (a + Z.of_nat i) = b.

(** The heap holds the objects [os] and no others. *)
Record represents (h : gc_heap) (cs : list chunk) (os : objects) : Prop := {
  rp_inv : heap_inv h cs;
  rp_object : forall r bs, os !! r = Some bs -> exists s,
    (obj_to_hmu r, s) ∈ useds (base_addr h) cs /\ zlen bs + HMU_SIZE <= s /\ bytes_at (mem h) r bs;
  rp_used : forall p s, (p, s) ∈ useds (base_addr h) cs -> is_Some (os !! hmu_to_obj p)
}.

Lemma bytes_at_agree m m' a bs b :
  agree m m' a b -> a + zlen bs <= b -> bytes_at m a bs -> bytes_at m' a bs.
Proof.
  intros Hm Hb Hat i x Hi. rewrite Hm; [by apply Hat|]. apply lookup_lt_Some in Hi. lia.
Qed.

Lemma obj_hmu r : hmu_to_obj (obj_to_hmu r) = r.
Proof. unfold hmu_to_obj, obj_to_hmu. lia. Qed.

Lemma hmu_obj p : obj_to_hmu (hmu_to_obj p) = p.
Proof. unfold hmu_to_obj, obj_to_hmu. lia. Qed.

(** Chunks of a heap, by their address. *)
Lemma used_unique h cs p s t :
  heap_inv h cs -> (p, s) ∈ useds (base_addr h) cs -> (p, t) ∈ useds (base_addr h) cs -> s = t.
Proof.
  intros Hinv Hs Ht. pose proof (chunks_at_sizes _ _ _ _ _ (ho_chunks _ _ _ Hinv)) as Hok.
  pose proof (pieces_nodup (fun c => negb (c_free c)) (base_addr h) cs Hok) as Hnd.
  apply list_elem_of_lookup in Hs as [i Hi], Ht as [j Hj].
  assert (i = j) as <-; [|congruence].
  eapply NoDup_lookup; [exact Hnd|rewrite list_lookup_fmap, Hi; done|by rewrite list_lookup_fmap, Hj].
Qed.

Lemma used_apart h cs p s q t :
  heap_inv h cs -> (p, s) ∈ useds (base_addr h) cs -> (q, t) ∈ useds (base_addr h) cs -> p <> q ->
  apart_chunks p s q t.
Proof.
  intros Hinv Hp Hq Hne. eapply pieces_apart; [|exact Hp|exact Hq|done].
  by eapply chunks_at_sizes, ho_chunks.
Qed.

(** The bytes of an object are a list. *)
Definition peek (m : memory) (a : Z) (n : nat) : list byte :=
  (fun i : nat => m (a + Z.of_nat i)) <$> seq 0 n.

Lemma peek_at m a n : bytes_at m a (peek m a n) /\ length (peek m a n) = n.
Proof.
  unfold peek. rewrite length_fmap, length_seq. split; [|done]. intros i b Hi.
  rewrite list_lookup_fmap in Hi. destruct (seq 0 n !! i) as [j|] eqn:Hj; [|done].
  injection Hi as <-. apply lookup_seq in Hj as [-> _]. done.
Qed.

(** A client may write to the bytes of an object. *)
Lemma heap_inv_write h cs p s m' :
  heap_inv h cs -> (p, s) ∈ useds (base_addr h) cs ->
  (forall b c, c <= p + HMU_SIZE \/ p + s <= b -> agree (mem h) m' b c) ->
  heap_inv (set_mem m' h) cs.
Proof.
  intros [H1 H2 H3 H4 H5 H6 H7 H8] Hp Hm. pose proof (chunks_at_sizes _ _ _ _ _ H4) as Hs.
  unfold HMU_SIZE in Hm. split; simpl; try done.
  - by destruct H1.
  - destruct (pieces_split _ _ _ _ _ Hp) as (cs1 & [s' fr] & cs2 & -> & -> & <- & Hfr).
    simpl in *. apply negb_true_iff in Hfr as ->.
    apply Forall_app in Hs as [S1 [_ S2]%Forall_cons]. apply chunks_at_app in H4 as [C1 C2].
    destruct C2 as (C2 & C3 & C4 & C5 & C6 & C7). apply chunks_at_app. simpl.
    split; [eapply chunks_at_frame; [done| |exact C1]; apply Hm; lia|].
    rewrite (load32_agree (mem h) m' _ (base_addr h + total cs1) (base_addr h + total cs1 + 4))
      by (lia || (apply Hm; lia)).
    do 5 (split; [done|]). eapply chunks_at_frame; [done| |exact C7]. apply Hm. simpl. lia.
  - eapply free_store_frame; [exact H5|by split|done|done|]. intros a t Ha. apply Hm.
    assert (apart_chunks a t p s) as Hap.
    { eapply pieces_disjoint; [|done|exact Ha|exact Hp]. simpl. intros c Hc. by rewrite Hc. }
    apply pieces_bounds in Ha; [|done]. unfold apart_chunks in Hap.
    change GC_SMALLEST_SIZE with 16 in *. lia.
Qed.

Lemma represents_malloc h cs os size :
  represents h cs os -> 0 <= size < 2 ^ 32 ->
  wp no_fault (gc_alloc_vo size) (fun r h' => exists os' cs',
    alloc_step os (Malloc size) r os' /\ represents h' cs' os') h.
Proof.
  intros Hrep Hs. pose proof (rp_inv _ _ _ Hrep) as Hinv.
  eapply wp_mono; [by apply gc_alloc_vo_spec|].
  intros r h' [Hov|Hfit Hnone|r' cs1 s1 cs2 t h2 cs' _ _ _ _ _ Hfit Hr0 Hr8 Ht Hinv' Hb _ Hus _ Hkept _].
  1-2: exists os, cs; split; [apply malloc_null|done].
  pose proof (request_room size ltac:(lia)) as Hroom.
  assert (forall a bs, os !! a = Some bs -> exists s,
    (obj_to_hmu a, s) ∈ useds (base_addr h) cs /\ zlen bs + HMU_SIZE <= s /\
    a <> r' /\ apart_chunks (obj_to_hmu r') t (obj_to_hmu a) s) as Hother.
  { intros a bs Ha. destruct (rp_object _ _ _ Hrep _ _ Ha) as (s & Hin & Hlen & _). exists s.
    do 2 (split; [done|]).
    assert (a <> r') as Hne.
    { intros ->. pose proof (pieces_nodup (fun c => negb (c_free c)) (base_addr h) cs'
        (chunks_at_sizes _ _ _ _ _ (ho_chunks _ _ _ Hinv'))) as Hnd.
      rewrite Hus in Hnd. apply NoDup_cons in Hnd as [Hnd _]. apply Hnd, list_elem_of_fmap.
      by exists (obj_to_hmu r', s). }
    split; [done|]. eapply used_apart; [exact Hinv'|..].
    - rewrite Hb, Hus. by left.
    - rewrite Hb, Hus. by right.
    - unfold obj_to_hmu. lia. }
  destruct (peek_at (mem h2) r' (Z.to_nat size)) as [Hat Hlen].
  exists (<[r' := peek (mem h2) r' (Z.to_nat size)]> os), cs'. split.
  - apply malloc_new; [done|done|rewrite Hlen; lia|]. intros a bs Ha.
    destruct (Hother a bs Ha) as (s & _ & Hzl & Hne & Hap). split; [done|].
    unfold apart_chunks, obj_to_hmu, HMU_SIZE in *. lia.
  - split; [done|..].
    + intros a bs. rewrite lookup_insert_Some. intros [[<- <-]|[Hne Ha]].
      * exists t. rewrite Hb, Hus, Hlen. split; [by left|]. split; [unfold HMU_SIZE; lia|done].
      * destruct (rp_object _ _ _ Hrep _ _ Ha) as (s & Hin & Hzl & Hbs). exists s.
        rewrite Hb, Hus. split; [by right|]. split; [done|].
        eapply bytes_at_agree; [|unfold HMU_SIZE in Hzl; instantiate (1 := obj_to_hmu a + s);
          unfold obj_to_hmu, HMU_SIZE; lia|done].
        pose proof (ok_objects _ _ _ Hkept _ _ Hin) as Hk. unfold obj_to_hmu in *.
        by replace (a - HMU_SIZE + HMU_SIZE) with a in Hk by lia.
    + intros p s Hp. rewrite Hb, Hus in Hp. apply elem_of_cons in Hp as [[= -> ->]|Hp].
      * rewrite obj_hmu, lookup_insert_eq. by eexists.
      * apply lookup_insert_is_Some'. right. by eapply rp_used.
Qed.

Lemma represents_free h cs os r bs :
  represents h cs os -> os !! r = Some bs ->
  wp no_fault (gc_free_vo r) (fun _ h' => exists cs', represents h' cs' (delete r os)) h.
Proof.
  intros Hrep Hr. pose proof (rp_inv _ _ _ Hrep) as Hinv.
  destruct (rp_object _ _ _ Hrep _ _ Hr) as (s & Hin & _).
  rewrite <- (obj_hmu r) at 1. eapply wp_mono; [by eapply gc_free_vo_spec|].
  intros v h' (cs' & [_ Hinv' Hb _ Hus _ Hkept]). exists cs'.
  assert (forall q t, (q, t) ∈ useds (base_addr h) cs' -> q <> obj_to_hmu r) as Hne.
  { intros q t Hq ->. pose proof (pieces_nodup (fun c => negb (c_free c)) (base_addr h) cs
      (chunks_at_sizes _ _ _ _ _ (ho_chunks _ _ _ Hinv))) as Hnd.
    rewrite Hus in Hnd. apply NoDup_cons in Hnd as [Hnd _]. apply Hnd, list_elem_of_fmap.
    by exists (obj_to_hmu r, t). }
  split; [done|..].
  - intros a b. rewrite lookup_delete_Some. intros [Hra Ha].
    destruct (rp_object _ _ _ Hrep _ _ Ha) as (t & Hin' & Hzl & Hbs). exists t.
    rewrite Hb. rewrite Hus in Hin'. apply elem_of_cons in Hin' as [[= E _]|Hin'].
    { unfold obj_to_hmu in E. lia. }
    split; [done|]. split; [done|].
    pose proof (ok_objects _ _ _ Hkept _ _ Hin') as Hk. unfold obj_to_hmu in Hk.
    replace (a - HMU_SIZE + HMU_SIZE) with a in Hk by lia.
    eapply bytes_at_agree; [exact Hk|lia|done].
  - intros q t Hq. rewrite Hb in Hq. pose proof (Hne _ _ Hq) as Hqr.
    rewrite lookup_delete_ne by (unfold hmu_to_obj, obj_to_hmu in *; lia).
    apply (rp_used _ _ _ Hrep q t). rewrite Hus. by right.
Qed.

Lemma represents_store h cs os r bs i b :
  represents h cs os -> os !! r = Some bs -> (i < length bs)%nat ->
  represents (set_mem (memset (r + Z.of_nat i) b 1 (mem h)) h) cs (<[r := <[i := b]> bs]> os).
Proof.
  intros Hrep Hr Hi. pose proof (rp_inv _ _ _ Hrep) as Hinv.
  destruct (rp_object _ _ _ Hrep _ _ Hr) as (s & Hin & Hzl & Hbs).
  unfold obj_to_hmu, HMU_SIZE in *.
  split.
  - eapply heap_inv_write; [done|exact Hin|]. unfold obj_to_hmu, HMU_SIZE. intros x c Hx.
    apply memset_agree. lia.
  - intros a bs'. rewrite lookup_insert_Some. intros [[<- <-]|[Hne Ha]]; simpl.
    + exists s. rewrite length_insert. do 2 (split; [done|]). intros j x Hj.
      unfold memset. destruct (within_spec (r + Z.of_nat i) 1 (r + Z.of_nat j)).
      * assert (i = j) as <- by lia. rewrite list_lookup_insert_eq in Hj by done. congruence.
      * rewrite list_lookup_insert_ne in Hj by lia. by apply Hbs.
    + destruct (rp_object _ _ _ Hrep _ _ Ha) as (t & Hin' & Hzl' & Hbs').
      unfold obj_to_hmu, HMU_SIZE in *. exists t. do 2 (split; [done|]).
      eapply bytes_at_agree; [|reflexivity|exact Hbs']. apply memset_agree.
      assert (apart_chunks (r - 4) s (a - 4) t) as Hap by (eapply used_apart; [done|done|done|lia]).
      unfold apart_chunks in Hap. lia.
  - intros p t Hp. simpl in Hp. apply lookup_insert_is_Some'. right. by eapply rp_used.
Qed.

(** Every request of the heap is a step of the abstract allocator. *)
Lemma heap_do_refines h cs os op :
  represents h cs os -> allowed os op ->
  wp no_fault (heap_do op) (fun r h' => exists os' cs',
    alloc_step os op r os' /\ represents h' cs' os') h.
Proof.
  intros Hrep Hop. destruct op as [size|r|r i b]; simpl in Hop |- *.
  - eapply represents_malloc; done.
  - unfold mem_allocator_free. apply wp_bind. destruct (Z.eqb_spec r 0) as [->|Hr].
    + apply wp_ret, wp_ret. exists os, cs. split; [apply free_null|done].
    + destruct Hop as [|[bs Hbs]]; [done|]. apply wp_bind.
      eapply wp_mono; [by eapply represents_free|]. intros v h' [cs' Hrep']. apply wp_ret, wp_ret.
      exists (delete r os), cs'. split; [by eapply free_object|done].
  - destruct Hop as (bs & Hbs & Hi). apply wp_bind, wp_update_mem, wp_ret.
    exists (<[r := <[i := b]> bs]> os), cs. split; [by apply store_byte|by apply represents_store].
Qed.

(** ** Client programs *)

(** A client chooses its next request from the results of those before. *)
Definition client := list Z -> heap_op.

(** The results a client can get from an allocator, with the objects it then
    has. *)
Inductive alloc_run (c : client) : list Z -> objects -> Prop :=
| alloc_run_start : alloc_run c [] ∅
| alloc_run_step rs os r os' :
    alloc_run c rs os -> alloc_step os (c rs) r os' -> alloc_run c (rs ++ [r]) os'.

(** It uses any allocator as it may. *)
Definition well_behaved (c : client) : Prop := forall rs os, alloc_run c rs os -> allowed os (c rs).

(** The client with the heap, for [n] requests. *)
Fixpoint heap_run (c : client) (n : nat) (rs : list Z) : H (list Z) :=
  match n with
  | O => mret rs
  | S n => r ← heap_do (c rs); heap_run c n (rs ++ [r])
  end.

Lemma heap_run_spec c n rs h cs os :
  well_behaved c -> represents h cs os -> alloc_run c rs os ->
  wp no_fault (heap_run c n rs) (fun rs' h' => exists os' cs',
    alloc_run c rs' os' /\ represents h' cs' os' /\ length rs' = (length rs + n)%nat) h.
Proof.
  intros Hc. revert rs h cs os. induction n as [|n IH]; intros rs h cs os Hrep Hrun; simpl.
  - apply wp_ret. exists os, cs. do 2 (split; [done|]). lia.
  - apply wp_bind. eapply wp_mono; [eapply heap_do_refines; [done|by apply Hc]|].
    intros r h' (os' & cs' & Hstep & Hrep'). eapply wp_mono; [eapply IH; [done|]|].
    { by econstructor. }
    intros rs' h2 (os2 & cs2 & Hrun2 & Hrep2 & Hlen). exists os2, cs2. do 2 (split; [done|]).
    rewrite Hlen, length_app. simpl. lia.
Qed.

(** A new heap has no objects. *)
Lemma represents_empty h n : heap_inv h [Chunk n true] -> represents h [Chunk n true] ∅.
Proof.
  intros Hinv. split; [done|..]; [by intros r bs; rewrite lookup_empty|].
  intros p s. simpl. by intros ?%elem_of_nil.
Qed.

(** Without objects, the pool is one free chunk. *)
Lemma no_objects_one_chunk h cs :
  represents h cs ∅ -> cs = [Chunk (current_size h) true].
Proof.
  intros Hrep. pose proof (rp_inv _ _ _ Hrep) as [Hpool _ Ht Hc _ _ _ _].
  assert (Forall (fun c => c_free c = true) cs) as Hall.
  { apply Forall_forall. intros c Hin. apply list_elem_of_split in Hin as (cs1 & cs2 & ->).
    destruct (c_free c) eqn:Hf; [done|]. exfalso.
    destruct (rp_used _ _ _ Hrep (base_addr h + total cs1) (c_size c)) as [bs Hbs].
    - rewrite pieces_app. simpl. rewrite Hf. simpl. set_solver.
    - by rewrite lookup_empty in Hbs. }
  destruct cs as [|[s fr] [|[s' fr'] cs]].
  - destruct Hpool. simpl in Ht. lia.
  - apply Forall_cons in Hall as [Hf _]. simpl in *. subst fr. f_equal. f_equal. lia.
  - apply Forall_cons in Hall as [Hf [Hf' _]%Forall_cons]. simpl in *. subst fr fr'.
    destruct Hc as (_ & _ & _ & _ & _ & (_ & _ & _ & Hpin & _)). by specialize (Hpin eq_refl).
Qed.

(** ** Reallocation *)

(** The chunk behind the object cannot give the room. *)
Definition no_room (cs2 : list chunk) (s tot : Z) : Prop :=
  forall t cs3, cs2 = Chunk t true :: cs3 -> s + t < tot.

Lemma grow_in_place_none h cs1 s cs2 tot :
  heap_inv h (cs1 ++ Chunk s false :: cs2) -> no_room cs2 s tot ->
  grow_in_place (base_addr h + total cs1) tot s h = Ret (None, h).
Proof.
  intros Hinv Hroom. set (p := base_addr h + total cs1). unfold grow_in_place.
  unfold mbind, M_bind, heap_state, gets, id.
  pose proof Hinv as [H1 H2 H3 H4 H5 H6 H7 H8].
  assert (chunks_open h (cs1 ++ Chunk s false :: cs2)
    (frees (base_addr h) (cs1 ++ Chunk s false :: cs2))) as Hop by (by split).
  pose proof (chunks_parts _ _ _ _ _ Hop) as (S1 & S2 & S3 & _ & S5 & S6 & S7 & _).
  simpl in S3, S7. rewrite (chunk_behind h p s cs2) by (done || unfold p; lia).
  destruct cs2 as [|[t fr] cs3]; [done|]. cbn [negb].
  change (cs1 ++ Chunk s false :: Chunk t fr :: cs3)
    with (cs1 ++ [Chunk s false] ++ Chunk t fr :: cs3) in Hop.
  rewrite app_assoc in Hop. pose proof (chunks_parts _ _ _ _ _ Hop) as Hnext.
  rewrite total_app in Hnext. cbn [total c_size c_free] in Hnext.
  replace (base_addr h + (total cs1 + (s + 0))) with (p + s) in Hnext by (unfold p; lia).
  destruct Hnext as (_ & _ & T3 & _ & _ & T6 & T7 & _ & Hhd & _).
  unfold header, gets. rewrite (hd_ut _ _ _ Hhd), (hd_size _ _ _ Hhd). cbn [c_free c_size].
  destruct fr; cbn [c_size Z.eqb HMU_FC HMU_VO Pos.eqb negb orb]; [|done]. pose proof (Hroom t cs3 eq_refl).
  pose proof (po_size _ H1). unfold wrap32. rewrite Z.mod_small by lia.
  by destruct (Z.leb_spec tot (s + t)); [lia|].
Qed.

(** The new object: its header, zeros, and the bytes of the old one. *)
Definition write_copy (p t obj n : Z) (m : memory) : memory :=
  let m := store32 p (hmu_set_ut HMU_VO (load32 m p)) m in
  let m := store32 p (hmu_unfree_vo (load32 m p)) m in
  let m := memset (p + 4) Byte.x00 (t - 4) m in
  if obj =? 0 then m else bh_memcpy_s (p + 4) (t - 4) obj n m.

Lemma write_copy_agree p t obj n m :
  16 <= t -> 0 < p -> n <= t - 4 ->
  forall b c, c <= p \/ p + t <= b -> agree m (write_copy p t obj n m) b c.
Proof.
  intros Ht Hp Hn b c Hbc. unfold write_copy, bh_memcpy_s.
  set (m2 := store32 p (hmu_unfree_vo _) _). set (m3 := memset (p + 4) _ (t - 4) m2).
  assert (agree m m3 b c) as H3.
  { eapply agree_trans; [|apply memset_agree; lia]. eapply agree_trans; apply store32_agree; lia. }
  destruct (obj =? 0); [done|]. destruct (n =? 0); [done|]. destruct (p + 4 =? 0); [done|].
  destruct (false || _); (eapply agree_trans; [exact H3|]);
    [apply memset_agree; lia|apply memcpy_agree; lia].
Qed.

Lemma write_copy_header p t obj n m :
  16 <= t -> 0 < p -> 0 <= n <= t - 4 ->
  load32 (write_copy p t obj n m) p =
    hmu_unfree_vo (hmu_set_ut HMU_VO (load32 m p) mod 2 ^ 32) mod 2 ^ 32.
Proof.
  intros Ht Hp Hn. unfold write_copy, bh_memcpy_s.
  set (m2 := store32 p (hmu_unfree_vo _) _). set (m3 := memset (p + 4) _ (t - 4) m2).
  assert (agree m2 m3 p (p + 4)) as H3 by (apply memset_agree; lia).
  assert (load32 m2 p = hmu_unfree_vo (hmu_set_ut HMU_VO (load32 m p) mod 2 ^ 32) mod 2 ^ 32) as <-.
  { unfold m2. by rewrite !load32_store32_same. }
  apply (load32_agree _ _ p p (p + 4)); [|lia..].
  destruct (obj =? 0); [done|]. destruct (n =? 0); [done|]. destruct (p + 4 =? 0); [done|].
  destruct (false || _); (eapply agree_trans; [exact H3|]);
    [apply memset_agree; lia|apply memcpy_agree; lia].
Qed.

(** The bytes of the copy. *)
Lemma write_copy_bytes p t obj n m x :
  16 <= t -> 0 < p -> 0 < obj -> 0 < n <= t - 4 -> obj + n <= p \/ p + t <= obj ->
  0 <= x < t - 4 ->
  write_copy p t obj n m (p + 4 + x) = if x <? n then m (obj + x) else Byte.x00.
Proof.
  intros Ht Hp Ho Hn Hout Hx. unfold write_copy, bh_memcpy_s.
  set (m2 := store32 p (hmu_unfree_vo _) _). set (m3 := memset (p + 4) _ (t - 4) m2).
  destruct (Z.eqb_spec obj 0); [lia|]. destruct (Z.eqb_spec n 0); [lia|].
  destruct (Z.eqb_spec (p + 4) 0); [lia|]. simpl. destruct (Z.ltb_spec (t - 4) n); [lia|].
  unfold memcpy. destruct (within_spec (p + 4) n (p + 4 + x)) as [Hin|Hin];
    destruct (Z.ltb_spec x n); try lia.
  - replace (obj + (p + 4 + x - (p + 4))) with (obj + x) by lia.
    assert (agree m m3 obj (obj + n)) as Hag; [|apply Hag; lia].
    eapply agree_trans; [|apply memset_agree; lia]. eapply agree_trans; apply store32_agree; lia.
  - unfold m3, memset. by destruct (within_spec (p + 4) (t - 4) (p + 4 + x)); [|lia].
Qed.

(** The result of a reallocation that moves the object of the chunk [(p, s)];
    [us] are the other chunks in use. *)
Inductive gc_realloc_result (h : gc_heap) (cs : list chunk) (p s size : Z) :
    Z -> gc_heap -> Prop :=
| realloc_none :
    Forall (fun e => e.2 < request size) (frees (base_addr h) cs) ->
    gc_realloc_result h cs p s size 0 h
| realloc_moved r t h' cs' us :
    r <> 0 -> r mod 8 = 0 -> request size <= t < request size + 16 ->
    heap_inv h' cs' -> base_addr h' = base_addr h -> current_size h' = current_size h ->
    useds (base_addr h) cs ≡ₚ (p, s) :: us ->
    useds (base_addr h) cs' ≡ₚ (obj_to_hmu r, t) :: us ->
    objects_kept h h' us ->
    (forall x, 0 <= x < t - HMU_SIZE ->
      mem h' (r + x) = if x <? s - HMU_SIZE then mem h (hmu_to_obj p + x) else Byte.x00) ->
    gc_realloc_result h cs p s size r h'.

(** The new object, before the old one is freed. *)
Lemma realloc_copied h cs p s size :
  heap_inv h cs -> (p, s) ∈ useds (base_addr h) cs -> 0 <= size -> size + 11 < 2 ^ 32 ->
  s < tot_size size ->
  wp no_fault (alloc_hmu (tot_size size)) (fun r h1 =>
    (r = 0 /\ h1 = h /\ Forall (fun e => e.2 < request size) (frees (base_addr h) cs)) \/
    exists t cs', let m := write_copy r t (hmu_to_obj p) (s - 4) (mem h1) in
      0 < r /\ (r + HMU_SIZE) mod 8 = 0 /\ request size <= t < request size + 16 /\ s <= t /\
      t < 2 ^ 30 /\ hmu_get_size (load32 (mem h1) r) = t /\
      heap_inv (set_mem m h1) cs' /\ base_addr h1 = base_addr h /\
      current_size h1 = current_size h /\
      useds (base_addr h) cs' ≡ₚ (r, t) :: useds (base_addr h) cs /\
      objects_kept h (set_mem m h1) (useds (base_addr h) cs) /\
      (forall x, 0 <= x < t - HMU_SIZE ->
        m (r + 4 + x) = if x <? s - 4 then mem h (hmu_to_obj p + x) else Byte.x00)) h.
Proof.
  intros Hinv Hused Hs0 Hfit Hgrow.
  destruct (tot_size_fits size Hs0 Hfit) as [_ Htot].
  pose proof (Z.mul_div_le (size + 11) 8 ltac:(lia)). pose proof (Z.div_pos (size + 11) 8 ltac:(lia)).
  eapply wp_mono; [apply alloc_hmu_spec; [exact Hinv|lia|]|].
  { rewrite Htot, Z.mul_comm. apply Z.mod_mul. lia. }
  replace (chunk_request (tot_size size)) with (request size) by (by rewrite Htot).
  assert (tot_size size <= request size) as Hreq by (rewrite Htot; unfold request; lia).
  pose proof (chunks_at_sizes _ _ _ _ _ (ho_chunks _ _ _ Hinv)) as Hsz.
  pose proof (pieces_bounds _ _ _ _ _ Hsz Hused) as (U1 & U2 & U3 & _).
  pose proof (po_base _ (ho_pool _ _ _ Hinv)) as Hbase. pose proof (po_size _ (ho_pool _ _ _ Hinv)) as Hsize.
  change GC_SMALLEST_SIZE with 16 in U3.
  intros r h1 [(-> & -> & Hnone)|(cs1 & u & cs2 & t & cs2' & -> & Hbest & Ht & -> & Hres & Hoc)];
    [by left|right].
  assert (r = base_addr h + total cs1) as Hr.
  { rewrite (rs_place _ _ _ _ _ Hres). by rewrite (oc_base _ _ _ _ Hoc). }
  assert (request size <= t < request size + 16 /\ t <= u) as [Htb Htu].
  { destruct Hbest as (_ & Hle & _). destruct (decide _); lia. }
  assert (chunk_ok h r u) as Hc by (apply (fs_chunks _ _ (ho_store _ _ _ Hinv)), Hbest).
  destruct Hc as [Hlow Hhigh _ Hal _].
  pose proof (rs_size _ _ _ _ _ Hres) as [Ht16 _].
  assert (apart_chunks r u p s) as Hap.
  { eapply (pieces_disjoint c_free); [|exact Hsz|apply Hbest|exact Hused]. simpl.
    intros c Hc. by rewrite Hc. }
  assert (objects_kept h h1 (useds (base_addr h) (cs1 ++ Chunk u true :: cs2))) as Hkept1.
  { apply only_chunk_objects; [by rewrite <- Hr|apply (ho_chunks _ _ _ Hinv)]. }
  pose proof (write_copy_agree r t (hmu_to_obj p) (s - 4) (mem h1) Ht16 ltac:(lia) ltac:(lia)) as Hout.
  pose proof (rs_header _ _ _ _ _ Hres) as [Hhs Hhp].
  exists t, (cs1 ++ Chunk t false :: (if decide (t = u) then cs2 else Chunk (u - t) true :: cs2)).
  split; [lia|]. split; [done|]. split; [done|]. split; [lia|]. split; [lia|]. split; [done|]. split.
  { apply (reserved_used _ _ _ _ _ _ Hres); [|exact Hout].
    rewrite write_copy_header by lia. split; simpl; autorewrite with hmu; done. }
  split; [apply (oc_base _ _ _ _ Hoc)|]. split; [apply (oc_size _ _ _ _ Hoc)|]. split.
  { rewrite !pieces_app. simpl. rewrite <- Hr. destruct (decide (t = u)) as [->|]; simpl.
    - by rewrite Permutation_middle.
    - replace (r + t + (u - t)) with (r + u) by lia. by rewrite Permutation_middle. }
  split.
  { split; [| |apply (oc_root _ _ _ _ Hoc)].
    2: { apply agree_outside. intros b c Hbc. eapply agree_trans; [apply (oc_mem _ _ _ _ Hoc)|apply Hout]; lia. }
    intros a v Ha. eapply agree_trans; [by apply (ok_objects _ _ _ Hkept1)|]. simpl. apply Hout.
    assert (apart_chunks r u a v) as Hav.
    { eapply (pieces_disjoint c_free); [|exact Hsz|apply Hbest|exact Ha]. simpl.
      intros c Hc. by rewrite Hc. }
    apply pieces_bounds in Ha; [|done]. unfold apart_chunks, HMU_SIZE in *. lia. }
  intros x Hx. unfold hmu_to_obj, HMU_SIZE in *. unfold apart_chunks in Hap.
  rewrite write_copy_bytes by lia. destruct (Z.ltb_spec x (s - 4)); [|done].
  apply (ok_objects _ _ _ Hkept1 p s Hused). unfold HMU_SIZE. lia.
Qed.

Lemma gc_realloc_vo_moves_spec h cs1 s cs2 size :
  let cs := cs1 ++ Chunk s false :: cs2 in
  let p := base_addr h + total cs1 in
  heap_inv h cs -> 0 <= size -> size + 11 < 2 ^ 32 -> s < tot_size size ->
  no_room cs2 s (tot_size size) ->
  wp no_fault (gc_realloc_vo (hmu_to_obj p) size) (gc_realloc_result h cs p s size) h.
Proof.
  intros cs p Hinv Hs0 Hfit Hgrow Hroom.
  assert ((p, s) ∈ useds (base_addr h) cs) as Hused.
  { unfold cs. rewrite pieces_app. simpl. set_solver. }
  pose proof (chunks_at_sizes _ _ _ _ _ (ho_chunks _ _ _ Hinv)) as Hsz.
  pose proof (pieces_bounds _ _ _ _ _ Hsz Hused) as (U1 & U2 & U3 & _).
  pose proof (po_base _ (ho_pool _ _ _ Hinv)) as Hbase. pose proof (po_size _ (ho_pool _ _ _ Hinv)) as Hsize.
  change GC_SMALLEST_SIZE with 16 in U3. rewrite (ho_total _ _ _ Hinv) in U2.
  assert (hmu_get_size (load32 (mem h) p) = s) as Hold.
  { pose proof (ho_chunks _ _ _ Hinv) as Hc. apply chunks_at_app in Hc as [_ (Hc & _)].
    exact (hd_size _ _ _ Hc). }
  unfold gc_realloc_vo. rewrite tot_size_overflows by lia.
  destruct (Z.leb_spec (2 ^ 32) (size + 11)); [lia|]. apply wp_bind, wp_heap_state.
  rewrite (ho_sound _ _ _ Hinv), hmu_obj.
  destruct (Z.eqb_spec (hmu_to_obj p) 0) as [E|_]; [unfold hmu_to_obj, HMU_SIZE in E; lia|].
  apply wp_bind, wp_header. rewrite Hold. cbn [negb andb].
  destruct (Z.leb_spec (tot_size size) s); [lia|]. apply wp_bind, wp_total.
  eexists _, _. split; [exact (grow_in_place_none h cs1 s cs2 _ Hinv Hroom)|].
  unfold alloc_hmu_ex. apply wp_bind.
  eapply wp_mono; [by apply (realloc_copied h cs p s size)|].
  intros r h1 [(-> & -> & Hnone)|(t & cs' & Hall)]; [by apply wp_ret, realloc_none|].
  cbv zeta in Hall. set (m := write_copy r t (hmu_to_obj p) (s - 4) (mem h1)) in Hall.
  destruct Hall as (Hr & Hal & Ht & Hst & Ht30 & Hhs & Hinv1 & Hb1 & Hz1 & Hus & Hkept & Hbytes).
  destruct (Z.eqb_spec r 0); [lia|]. apply wp_bind, wp_header. rewrite Hhs.
  do 2 (apply wp_bind, wp_update_header). apply wp_bind, wp_update_mem. apply wp_bind, wp_update_mem.
  assert (forall k, 4 <= k < 2 ^ 30 -> wrap32 (k - HMU_SIZE) = k - 4) as Hw.
  { intros k Hk. unfold HMU_SIZE. apply Z.mod_small. lia. }
  rewrite !Hw by lia.
  assert (m = bh_memcpy_s (hmu_to_obj r) (t - 4) (hmu_to_obj p) (s - 4)
    (memset (hmu_to_obj r) Byte.x00 (t - 4) (store32 r (hmu_unfree_vo (load32 (store32 r
      (hmu_set_ut HMU_VO (load32 (mem h1) r)) (mem h1)) r)) (store32 r
      (hmu_set_ut HMU_VO (load32 (mem h1) r)) (mem h1))))) as Hm.
  { unfold m, write_copy. destruct (Z.eqb_spec (hmu_to_obj p) 0) as [E|_]; [|done].
    unfold hmu_to_obj, HMU_SIZE in E. lia. }
  cbn [mem set_mem]. rewrite <- Hm. change (set_mem m _) with (set_mem m h1).
  apply wp_bind. eapply wp_mono; [apply (gc_free_vo_spec _ cs' p s Hinv1)|].
  { simpl. rewrite Hb1, Hus. by right. }
  intros v h2 (cs2' & [_ Hinv2 Hb2 Hz2 Hus2 _ Hkept2]). simpl in Hb2, Hz2, Hus2, Hkept2.
  rewrite Hb1 in Hus2, Hkept2. apply wp_ret.
  set (us := useds (base_addr h) cs1 ++ useds (p + s) cs2).
  assert (useds (base_addr h) cs ≡ₚ (p, s) :: us) as Hcs.
  { unfold cs, us. rewrite pieces_app. simpl. by rewrite Permutation_middle. }
  assert (useds (base_addr h) cs2' ≡ₚ (r, t) :: us) as Hus'.
  { apply (Permutation_cons_inv (a := (p, s))). rewrite <- Hus2, Hus, Hcs. apply perm_swap. }
  eapply (realloc_moved _ _ _ _ _ _ t h2 cs2' us); try done.
  - unfold hmu_to_obj, HMU_SIZE. lia.
  - by rewrite Hb2.
  - by rewrite Hz2.
  - by rewrite hmu_obj.
  - apply (objects_kept_trans h (set_mem m h1)); [done|done|..].
    + eapply objects_kept_incl; [|exact Hkept]. intros e He. rewrite Hcs. by right.
    + eapply objects_kept_incl; [|exact Hkept2]. intros e He. rewrite Hus'. by right.
  - intros x Hx. unfold hmu_to_obj, HMU_SIZE in *. rewrite <- Hbytes by done.
    apply (ok_objects _ _ _ Hkept2 r t); [rewrite Hus'; by left|]. unfold HMU_SIZE. lia.
Qed.

(** ** What the heap promises *)

(** C16: The heap refines the abstract allocator: in a pool that is large enough,
    a client that would use any allocator properly runs without a fault, and
    all it observes is what an allocator may do: objects are aligned, do not
    overlap, and keep their bytes. *)
Theorem heap_refines_allocator sizeof_pointer buf buf_size m c n :
  sizeof_pointer = 4 \/ sizeof_pointer = 8 -> 0 < buf ->
  sizeof_gc_heap sizeof_pointer + 273 <= buf_size < 2 ^ 30 -> well_behaved c ->
  exists heap h rs h' os cs,
    mem_allocator_create sizeof_pointer buf buf_size m = Some (heap, h) /\
    heap_run c n [] h = Ret (rs, h') /\ length rs = n /\
    alloc_run c rs os /\ represents h' cs os.
Proof.
  intros Hp Hb Hs Hc.
  destruct (gc_init_with_pool_inv _ Hp buf buf_size m Hb ltac:(lia)) as (heap & h & Hinit & Hinv & _).
  pose proof (heap_run_spec c n [] h _ ∅ Hc (represents_empty _ _ Hinv) (alloc_run_start c)) as Hrun.
  apply wp_total in Hrun as (rs & h' & Hrun & os & cs & Hos & Hrep & Hlen).
  exists heap, h, rs, h', os, cs. done.
Qed.

(** C17: Nothing is lost: when such a client has freed all of its objects, the
    pool is one free chunk again, with all of its bytes. *)
Theorem freed_pool_is_one_chunk sizeof_pointer buf buf_size m c n heap h rs h' :
  sizeof_pointer = 4 \/ sizeof_pointer = 8 -> 0 < buf ->
  sizeof_gc_heap sizeof_pointer + 273 <= buf_size < 2 ^ 30 -> well_behaved c ->
  mem_allocator_create sizeof_pointer buf buf_size m = Some (heap, h) ->
  heap_run c n [] h = Ret (rs, h') -> (forall os, alloc_run c rs os -> os = ∅) ->
  heap_inv h' [Chunk (current_size h') true] /\ total_free_size h' = current_size h'.
Proof.
  intros Hp Hb Hs Hc Hinit Hrun Hempty.
  destruct (gc_init_with_pool_inv _ Hp buf buf_size m Hb ltac:(lia)) as (? & ? & Hinit' & Hinv & _).
  unfold mem_allocator_create in Hinit. rewrite Hinit in Hinit'. injection Hinit' as <- <-.
  pose proof (heap_run_spec c n [] h _ ∅ Hc (represents_empty _ _ Hinv) (alloc_run_start c)) as Hspec.
  apply (wp_ret_inv _ _ _ _ _ _ Hspec) in Hrun as (os & cs & Hos & Hrep & _).
  apply Hempty in Hos as ->. pose proof (no_objects_one_chunk _ _ Hrep) as ->.
  pose proof (rp_inv _ _ _ Hrep) as Hinv'. split; [done|].
  rewrite (ho_free _ _ _ Hinv'). simpl. lia.
Qed.

(** C18: [gc_alloc_vo] always returns. It fails only when the size overflows or no
    free chunk is large enough, and then changes nothing. Otherwise it takes
    the start of the smallest free chunk that is large enough, or all of it
    when the rest would be too small for a chunk, keeps the invariant, and
    returns an aligned new object that wastes less than 16 bytes; all other
    objects keep their bytes. *)
Theorem gc_alloc_vo_correct h cs size :
  heap_inv h cs -> 0 <= size < 2 ^ 32 ->
  exists r h', mem_allocator_malloc size h = Ret (r, h') /\ gc_alloc_result h cs size r h'.
Proof. intros Hinv Hs. apply wp_total. by apply gc_alloc_vo_spec. Qed.

(** C19: [gc_free_vo] on an object in use merges its chunk with free neighbours and
    keeps the invariant: only this chunk becomes free, and the other objects
    keep their bytes. The object of a free chunk is refused, and an address
    outside of the pool is ignored, without a change. *)
Theorem gc_free_vo_correct h cs p s :
  heap_inv h cs ->
  ((p, s) ∈ useds (base_addr h) cs -> exists r h' cs',
    gc_free_vo (hmu_to_obj p) h = Ret (r, h') /\ gc_free_result h cs p s r h' cs') /\
  ((p, s) ∈ frees (base_addr h) cs -> gc_free_vo (hmu_to_obj p) h = Ret (GC_ERROR, h)) /\
  (in_heap h p = false -> gc_free_vo (hmu_to_obj p) h = Ret (GC_SUCCESS, h)).
Proof.
  intros Hinv. split; [|split].
  - intros Hp. pose proof (gc_free_vo_spec h cs p s Hinv Hp) as Hspec.
    apply wp_total in Hspec as (r & h' & Hrun & cs' & Hres). by exists r, h', cs'.
  - by apply gc_free_vo_free_chunk.
  - intros Hp. apply gc_free_vo_outside; [apply (ho_sound _ _ _ Hinv)|]. right. by rewrite hmu_obj.
Qed.

(** C20: When the chunk behind an object gives no room, [gc_realloc_vo] either
    fails and changes nothing, because no free chunk is large enough, or moves
    the object: the new one has the bytes of the old one followed by zeros,
    the old one is free, and the others are as before. *)
Theorem gc_realloc_vo_moves h cs1 s cs2 size :
  let cs := cs1 ++ Chunk s false :: cs2 in
  let p := base_addr h + total cs1 in
  heap_inv h cs -> 0 <= size -> size + 11 < 2 ^ 32 -> s < tot_size size ->
  no_room cs2 s (tot_size size) ->
  exists r h', mem_allocator_realloc (hmu_to_obj p) size h = Ret (r, h') /\
    gc_realloc_result h cs p s size r h'.
Proof. intros cs p ? ? ? ? ?. apply wp_total. by apply gc_realloc_vo_moves_spec. Qed.

(** On a 64-bit platform the smallest pools that [gc_init_with_pool] accepts
    are shorter than the structure it puts into them: the size of the heap
    wraps around to almost 4 GB, which are cleared behind the buffer. *)
Theorem small_pool_wraps buf buf_size m :
  0 < buf -> buf mod 8 = 0 -> APP_HEAP_SIZE_MIN <= buf_size < sizeof_gc_heap 8 + GC_HEAD_PADDING ->
  exists h, gc_init_with_pool 8 buf buf_size m = Some (buf, h) /\
    buf + buf_size < base_addr h /\ 2 ^ 32 - 104 <= current_size h /\
    forall x, base_addr h + HMU_SIZE <= x < heap_end h -> mem h x = Byte.x00.
Proof.
  intros Hb Hb8 Hs. change (sizeof_gc_heap 8) with 352 in Hs. unfold GC_HEAD_PADDING in Hs.
  unfold gc_init_with_pool. destruct (Z.ltb_spec buf_size APP_HEAP_SIZE_MIN); [lia|].
  assert (Z.ldiff (buf + 7) 7 = buf) as ->.
  { rewrite align8. pose proof (Z.div_mod buf 8 ltac:(lia)).
    replace (buf + 7) with (7 + buf / 8 * 8) by lia. rewrite Z.div_add by lia.
    change (7 / 8) with 0. lia. }
  change (sizeof_gc_heap 8) with 352.
  assert (Z.ldiff (buf + 352 + 7) 7 = buf + 352) as ->.
  { rewrite align8. pose proof (Z.div_mod buf 8 ltac:(lia)).
    replace (buf + 352 + 7) with (7 + (buf / 8 + 44) * 8) by lia. rewrite Z.div_add by lia.
    change (7 / 8) with 0. lia. }
  unfold APP_HEAP_SIZE_MIN, GC_HEAD_PADDING in *.
  replace (buf + buf_size - (buf + 352 + 4)) with (buf_size - 356) by lia.
  assert (wrap32 (buf_size - 356) = buf_size - 356 + 2 ^ 32) as ->.
  { symmetry. apply Z.mod_unique_pos with (-1); lia. }
  pose proof (align8_bounds (buf_size - 356 + 2 ^ 32)) as [Hn _].
  set (n := Z.ldiff (buf_size - 356 + 2 ^ 32) 7) in *.
  eexists. split; [done|]. simpl. split; [lia|]. split.
  { unfold n. rewrite align8. pose proof (Z.div_le_mono (2 ^ 32 - 104) (buf_size - 356 + 2 ^ 32) 8).
    change ((2 ^ 32 - 104) / 8) with 536870899 in *. lia. }
  intros x Hx. unfold HMU_SIZE in Hx. unfold store32.
  destruct (within_spec (buf + 352 + 4) 4 x); [lia|]. unfold memset.
  destruct (within (buf + 352 + 4) _ x); [done|].
  destruct (within_spec (buf + kfc_tree_root_buf_offset 8) 4 x) as [Hr|_].
  { change (kfc_tree_root_buf_offset 8) with 292 in Hr. lia. }
  destruct (within (buf + _) _ x); [done|].
  by destruct (within_spec (buf + 352 + 4) n x); [|lia].
Qed.
