(* ===== verification/EmsMigrate.v ===== *)
(** * Migration of the heap

    When the linear memory of an application moves, the heap inside of it is
    migrated: [gc_migrate] adjusts the pointers of the tree. It forgets the
    heads of the lists of small chunks, which are pointers as well. *)

From S2P Require Import Prelude Memory Ems EmsTree EmsFree EmsSpec EmsHeap EmsClient.

(** ** Translation *)

#[export] Instance add_inj k : Inj eq eq (Z.add k).
Proof. intros x y. lia. Qed.

Abbreviation shift off := (prod_map (Z.add off) id).

Fixpoint shift_tree (off : Z) (t : tree) : tree :=
  match t with
  | Leaf => Leaf
  | Node l a s r => Node (shift_tree off l) (off + a) s (shift_tree off r)
  end.

Lemma elements_shift off t : elements (shift_tree off t) = shift off <$> elements t.
Proof.
  induction t as [|l IHl a s r IHr]; [done|]. simpl. rewrite IHl, IHr, fmap_app. done.
Qed.

Lemma ordered_shift off t : ordered t -> ordered (shift_tree off t).
Proof.
  induction t as [|l IHl a s r IHr]; [done|]. simpl. intros (Hl & Hr & H1 & H2).
  rewrite !elements_shift, !Forall_fmap. split; [by apply IHl|]. split; [by apply IHr|]. done.
Qed.

Lemma pieces_shift off f a cs : pieces f (off + a) cs = shift off <$> pieces f a cs.
Proof.
  revert a. induction cs as [|c cs IH]; intros a; [done|]. simpl. rewrite fmap_app.
  replace (off + a + c_size c) with (off + (a + c_size c)) by lia. rewrite IH. by destruct (f c).
Qed.

Lemma load32_shift m m' off a b x :
  (forall y, a <= y < b -> m' (off + y) = m y) -> a <= x -> x + 4 <= b ->
  load32 m' (off + x) = load32 m x.
Proof.
  intros Hm Ha Hb. unfold load32. rewrite <- !Z.add_assoc. by rewrite !Hm by lia.
Qed.

Lemma chunks_at_shift m m' off e a pin cs :
  sizes_ok cs -> (forall x, a <= x < a + total cs -> m' (off + x) = m x) ->
  chunks_at m e a pin cs -> chunks_at m' (off + e) (off + a) pin cs.
Proof.
  revert a pin. induction cs as [|c cs IH]; intros a pin Hs Hm; simpl; [done|].
  apply Forall_cons in Hs as [[Hc _] Hs]. change GC_SMALLEST_SIZE with 16 in *.
  pose proof (total_nonneg _ Hs). simpl in Hm. intros (H1 & H2 & H3 & H4 & H5 & H6).
  rewrite (load32_shift m m' off _ _ _ Hm) by lia.
  replace (off + a + c_size c - 4) with (off + (a + c_size c - 4)) by lia.
  rewrite (load32_shift m m' off _ _ _ Hm) by lia.
  replace (off + a + c_size c) with (off + (a + c_size c)) by lia.
  do 4 (split; [done|]). split; [intros Hf Hlt; apply H5; [done|lia]|].
  apply IH; [done| |done]. intros x Hx. apply Hm. lia.
Qed.

(** ** The nodes *)

(** The nodes of [g] after those of the large free chunks [es] were adjusted. *)
Definition adjusted (root off : Z) (es : list (Z * Z)) (g g' : gmap Z hmu_tree_node) : Prop :=
  forall x, g' !! x =
    if decide (x ∈ es.*1) then adjust_node root off <$> g !! x else g !! x.

Lemma migrate_chunks_spec fuel h pin cs cur off :
  chunks_at (mem h) (cur + total cs) cur pin cs -> total cs < 2 ^ 32 -> (length cs < fuel)%nat ->
  (forall a s, (a, s) ∈ large (frees cur cs) -> is_Some (tree_nodes h !! a)) ->
  wp no_fault (migrate_chunks fuel cur (cur + total cs) off) (fun r h' => r = GC_SUCCESS /\
    exists g', h' = set_tree_nodes g' h /\
      adjusted (kfc_tree_root h) off (large (frees cur cs)) (tree_nodes h) g') h.
Proof.
  revert h pin cur fuel. induction cs as [|c cs IH]; intros h pin cur fuel Hc Ht Hf Hn;
    (destruct fuel as [|fuel]; [simpl in Hf; lia|]); cbn [migrate_chunks].
  - cbn [total]. rewrite Z.add_0_r, Z.ltb_irrefl, Z.eqb_refl. cbn [negb]. apply wp_ret. split; [done|].
    exists (tree_nodes h). split; [by destruct h|].
    intros x. rewrite decide_False; [done|]. by intros ?%elem_of_nil.
  - pose proof (chunks_at_sizes _ _ _ _ _ Hc) as [[Hs16 Hs8] Hs]%Forall_cons.
    change GC_SMALLEST_SIZE with 16 in Hs16. pose proof (total_nonneg _ Hs) as Hcs.
    cbn [chunks_at total] in *. destruct Hc as (Hhd & _ & _ & _ & _ & Hc).
    destruct (Z.ltb_spec cur (cur + (c_size c + total cs))); [|lia].
    apply wp_bind, wp_header. rewrite (hd_size _ _ _ Hhd), (hd_ut _ _ _ Hhd).
    destruct (Z.leb_spec (c_size c) 0); [lia|].
    replace (cur + (c_size c + total cs) - cur) with (c_size c + total cs) by lia.
    unfold wrap32 at 1. rewrite Z.mod_small by lia.
    destruct (Z.ltb_spec (c_size c + total cs) (c_size c)); [lia|]. cbn [orb].
    apply wp_bind, wp_heap_state. apply wp_bind.
    rewrite Z.add_assoc in *. cbn [length] in Hf.
    assert (((if c_free c then HMU_FC else HMU_VO) =? HMU_FC) = c_free c) as -> by (by destruct (c_free c)).
    cbn [pieces] in Hn |- *. unfold HMU_IS_FC_NORMAL.
    destruct (c_free c) eqn:Hfree; cbn [andb];
      [destruct (Z.ltb_spec (c_size c) HMU_FC_NORMAL_MAX_SIZE) as [Hsm|Hlg]; cbn [negb]|].
    + apply wp_ret.
      assert (large ([(cur, c_size c)] ++ frees (cur + c_size c) cs) = large (frees (cur + c_size c) cs))
        as Hlarge by (unfold large; simpl; rewrite filter_cons_False; [done|simpl; lia]).
      rewrite Hlarge in *. by eapply IH; [exact Hc|lia|lia|].
    + assert (large ([(cur, c_size c)] ++ frees (cur + c_size c) cs) =
          (cur, c_size c) :: large (frees (cur + c_size c) cs)) as Hlarge
        by (unfold large; simpl; rewrite filter_cons_True; [done|simpl; lia]).
      rewrite Hlarge in *. destruct (Hn cur (c_size c)) as [n Hnode]; [by left|].
      eapply wp_update_node; [exact Hnode|].
      eapply wp_mono; [eapply IH; [exact Hc|lia|lia|]|].
      * intros a s Ha. simpl. apply lookup_insert_is_Some'. right. apply (Hn a s). by right.
      * cbv beta. intros r h' (-> & g' & -> & Hg'). split; [done|]. exists g'. split; [done|].
        intros x. rewrite Hg'. cbn [kfc_tree_root tree_nodes set_tree_nodes fmap list_fmap].
        destruct (decide (x = cur)) as [->|Hne].
        -- rewrite lookup_insert_eq. rewrite decide_False, decide_True; [by rewrite Hnode|by left|].
           intros ([a s] & -> & Ha)%list_elem_of_fmap. apply list_elem_of_filter in Ha as [_ Ha].
           apply pieces_bounds in Ha; [|done]. simpl in Ha. lia.
        -- rewrite lookup_insert_ne by done. apply decide_ext.
           rewrite elem_of_cons. simpl. naive_solver.
    + apply wp_ret. cbn [app] in *. by eapply IH; [exact Hc|lia|lia|].
Qed.

Lemma rep_lookup g par t a s : rep g par t -> (a, s) ∈ elements t -> is_Some (g !! a).
Proof.
  revert par. induction t as [|l IHl b u r IHr]; intros par; simpl; [by intros _ ?%elem_of_nil|].
  intros (_ & Hn & Hl & Hr). rewrite elem_of_app, elem_of_cons. intros [Ha|[[= -> ->]|Ha]]; eauto.
Qed.

(** A tree whose nodes were moved and adjusted. *)
Lemma rep_shift g g' root off par par' t :
  (forall a s, (a, s) ∈ elements t ->
    a <> root /\ off + a <> 0 /\ g' !! (off + a) = adjust_node root off <$> g !! a) ->
  (if par =? root then par else adjust_ptr off par) = par' ->
  rep g par t -> rep g' par' (shift_tree off t).
Proof.
  intros Hg. revert par par'. induction t as [|l IHl a s r IHr]; intros par par' Hpar; [done|].
  simpl in Hg. cbn [rep shift_tree]. intros (Ha & Hn & Hl & Hr).
  destruct (Hg a s) as (Hne & H0 & Hga); [set_solver|].
  assert (forall t', (forall b u, (b, u) ∈ elements t' -> (b, u) ∈ elements l ++ (a, s) :: elements r) ->
    rep g a t' -> adjust_ptr off (ptr t') = ptr (shift_tree off t')) as Hptr.
  { intros [|l' b u r'] Hsub Hrep; [done|]. destruct Hrep as (Hb & _). simpl.
    unfold adjust_ptr. apply Z.eqb_neq in Hb as ->. lia. }
  split; [done|]. split.
  - rewrite Hga, Hn. simpl. unfold adjust_node. simpl.
    rewrite (Hptr l), (Hptr r); [by rewrite Hpar|set_solver|done|set_solver|done].
  - assert ((if a =? root then a else adjust_ptr off a) = off + a) as Hpa.
    { apply Z.eqb_neq in Hne as ->. unfold adjust_ptr. apply Z.eqb_neq in Ha as ->. lia. }
    split; [apply (IHl (ltac:(intros b u Hb; apply (Hg b u); set_solver)) a)
           |apply (IHr (ltac:(intros b u Hb; apply (Hg b u); set_solver)) a)]; done.
Qed.

(** ** The call *)

(** The owner of the pool copies the [n] bytes from [old] on, with the pool in
    them, to [new]; the structure of the heap stays where it is. *)
Record moves (h : gc_heap) (old new n : Z) : Prop := {
  mv_from : old <= base_addr h - GC_HEAD_PADDING;
  mv_to : heap_end h <= old + n;
  mv_aligned : (new - old) mod 8 = 0;
  mv_new : 0 < new;
  mv_moved : new <> old;
  mv_old_root : kfc_tree_root h < old \/ old + n <= kfc_tree_root h;
  mv_new_root : kfc_tree_root h < new \/ new + n <= kfc_tree_root h
}.

Section migrate.
Context (h : gc_heap) (cs : list chunk) (old new n size : Z).
Context (Hinv : heap_inv h cs) (Hmv : moves h old new n).
Context (Hsize : current_size h + GC_HEAD_PADDING <= size < 2 ^ 32).

Lemma large_node a s : (a, s) ∈ large (frees (base_addr h) cs) -> is_Some (tree_nodes h !! a).
Proof using Hinv.
  destruct (fs_tree _ _ (ho_store _ _ _ Hinv)) as (rs & t & Hrep & _ & _ & _ & _ & Hel).
  rewrite <- Hel. intros Ha. destruct Hrep as (_ & _ & _ & Hrep).
  by eapply rep_lookup.
Qed.

Lemma large_within a s : (a, s) ∈ large (frees (base_addr h) cs) -> base_addr h <= a < heap_end h.
Proof using Hinv.
  intros [_ Ha]%list_elem_of_filter. destruct (fs_chunks _ _ (ho_store _ _ _ Hinv) _ _ Ha).
  change GC_SMALLEST_SIZE with 16 in *. lia.
Qed.

Let off := new - old.

Lemma moved_node a x :
  within old n a = true -> tree_nodes h !! a = Some x ->
  tree_nodes (move_pool old new n h) !! (off + a) = Some x.
Proof.
  intros Ha Hx. simpl. apply lookup_union_Some_l. rewrite lookup_kmap by apply _.
  by apply map_lookup_filter_Some.
Qed.

Lemma root_node :
  tree_nodes (move_pool old new n h) !! kfc_tree_root h = tree_nodes h !! kfc_tree_root h.
Proof using Hmv.
  destruct Hmv. simpl. rewrite lookup_union_r.
  - rewrite map_lookup_filter. destruct (tree_nodes h !! kfc_tree_root h) as [x|]; [|done].
    simpl. destruct (within_spec old n (kfc_tree_root h)); [lia|]. done.
  - apply lookup_kmap_None; [apply _|]. intros a Ha. apply map_lookup_filter_None. right.
    intros x _. destruct (within_spec old n a); [lia|done].
Qed.

Lemma pool_within x : base_addr h <= x < heap_end h -> within old n x = true.
Proof using Hmv.
  destruct Hmv. unfold GC_HEAD_PADDING in *. intros Hx. by destruct (within_spec old n x); [|lia].
Qed.

Lemma moved_byte x : old <= x < old + n -> mem (move_pool old new n h) (off + x) = mem h x.
Proof.
  intros Hx. simpl. unfold memcpy.
  destruct (within_spec new n (off + x)); [|lia]. f_equal. lia.
Qed.

Lemma large_shift : large (frees (off + base_addr h) cs) = shift off <$> large (frees (base_addr h) cs).
Proof.
  rewrite pieces_shift. induction (frees (base_addr h) cs) as [|[a s] l IH]; [done|].
  unfold large in *. cbn [fmap list_fmap]. rewrite !filter_cons. simpl.
  destruct (decide (HMU_FC_NORMAL_MAX_SIZE <= s)); [|done]. cbn [fmap list_fmap]. by f_equal.
Qed.

Lemma migrate_run : exists g' h',
  mem_allocator_migrate (base_addr h - GC_HEAD_PADDING + off) size (move_pool old new n h) =
    Ret (GC_SUCCESS, h') /\
  h' = set_tree_nodes g' (set_base_addr (off + base_addr h) (move_pool old new n h)) /\
  g' !! kfc_tree_root h = (adjust_root off <$> tree_nodes h !! kfc_tree_root h) /\
  (forall a s, (a, s) ∈ large (frees (base_addr h) cs) ->
    g' !! (off + a) = (adjust_node (kfc_tree_root h) off <$> tree_nodes h !! a)).
Proof using Hinv Hmv Hsize.
  destruct (fs_tree _ _ (ho_store _ _ _ Hinv)) as (rs & t & Hrep & _).
  destruct Hrep as (_ & Hroot & _). pose proof (ho_total _ _ _ Hinv) as Ht.
  pose proof (po_size _ (ho_pool _ _ _ Hinv)) as Hcs.
  pose proof (chunks_at_sizes _ _ _ _ _ (ho_chunks _ _ _ Hinv)) as Hs.
  set (h1 := move_pool old new n h).
  cut (wp no_fault (mem_allocator_migrate (base_addr h - GC_HEAD_PADDING + off) size)
    (fun r h' => r = GC_SUCCESS /\ exists g',
      h' = set_tree_nodes g' (set_base_addr (off + base_addr h) h1) /\
      adjusted (kfc_tree_root h) off (large (frees (off + base_addr h) cs))
        (<[kfc_tree_root h := adjust_root off (TreeNode (ptr Leaf) (ptr t) 0 rs)]> (tree_nodes h1)) g') h1).
  { intros (r & h' & Hrun & -> & g' & Hh' & Hg')%wp_total. exists g', h'.
    split; [exact Hrun|]. split; [done|]. unfold adjusted in Hg'. split.
    - rewrite Hg', lookup_insert_eq, Hroot. rewrite decide_False; [done|].
      rewrite large_shift. intros ([a' s'] & Ha & ([a s] & [= -> ->] & Hin)%list_elem_of_fmap)%list_elem_of_fmap.
      pose proof (pool_within _ (large_within _ _ Hin)) as Hw. simpl in Ha.
      destruct (within_spec old n a); [|done]. destruct Hmv. lia.
    - intros a s Ha. destruct (large_node _ _ Ha) as [x Hx]. rewrite Hg', decide_True.
      + pose proof (pool_within _ (large_within _ _ Ha)) as Hw.
        rewrite lookup_insert_ne; [unfold h1; by rewrite (moved_node a x), Hx|].
        destruct (within_spec old n a); [|done]. destruct Hmv. lia.
      + rewrite large_shift. apply list_elem_of_fmap. exists (off + a, s). split; [done|].
        apply list_elem_of_fmap. by exists (a, s). }
  destruct Hmv. unfold mem_allocator_migrate, gc_migrate. unfold GC_HEAD_PADDING in *.
  apply wp_bind, wp_heap_state.
  pose proof (ho_aligned _ _ _ Hinv) as Hal. unfold HMU_SIZE in Hal.
  rewrite land_7.
  replace ((base_addr h - 4 + off) mod 8) with 0; last first.
  { replace (base_addr h - 4 + off) with (base_addr h + 4 + off + (-1) * 8) by lia.
    rewrite Z.mod_add, Z.add_mod, Hal by lia. unfold off. by rewrite mv_aligned0. }
  cbn [Z.eqb negb].
  replace (base_addr h - 4 + off + size - (base_addr h - 4 + off + 4)) with (size - 4) by lia.
  destruct (Z.ltb_spec (base_addr h - 4 + off + size) (base_addr h - 4 + off + 4)); [lia|].
  unfold wrap32 at 1. rewrite Z.mod_small by lia.
  change (current_size h1) with (current_size h). change (base_addr h1) with (base_addr h).
  destruct (Z.ltb_spec (Z.ldiff (size - 4) 7) (current_size h)) as [Hlt|_].
  { exfalso. rewrite align8 in Hlt. pose proof (total_mod _ Hs) as Hm. rewrite Ht in Hm.
    pose proof (Z.div_mod (current_size h) 8). pose proof (Z.div_le_mono (current_size h) (size - 4) 8).
    lia. }
  cbn [orb]. replace (base_addr h - 4 + off + 4 - base_addr h) with off by lia.
  replace (base_addr h - 4 + off + 4) with (off + base_addr h) by lia.
  destruct (Z.eqb_spec off 0); [lia|].
  change (is_heap_corrupted h1) with (is_heap_corrupted h). rewrite (ho_sound _ _ _ Hinv).
  apply wp_bind, wp_modify. change (kfc_tree_root h1) with (kfc_tree_root h).
  apply wp_bind. eapply wp_update_node.
  { cbn [set_base_addr tree_nodes]. unfold h1. rewrite root_node. exact Hroot. }
  rewrite <- Ht. eapply wp_mono; [eapply migrate_chunks_spec|].
  - cbn [set_base_addr set_tree_nodes mem]. rewrite Ht, <- Z.add_assoc.
    eapply chunks_at_shift; [done| |apply (ho_chunks _ _ _ Hinv)].
    intros x Hx. apply moved_byte. lia.
  - lia.
  - unfold list_fuel. change (current_size h1) with (current_size h). rewrite <- Ht.
    pose proof (length_total _ Hs). lia.
  - intros a s. rewrite large_shift. intros ([b u] & [= -> ->] & Hb)%list_elem_of_fmap.
    cbn [set_base_addr set_tree_nodes tree_nodes]. apply lookup_insert_is_Some'. right.
    destruct (large_node _ _ Hb) as [x Hx]. exists x. unfold h1, id.
    apply moved_node; [|done]. by eapply pool_within, large_within.
  - cbv beta. intros r h' (-> & g' & -> & Hg'). split; [done|]. exists g'. done.
Qed.

Lemma migrated_tree g' :
  g' !! kfc_tree_root h = (adjust_root off <$> tree_nodes h !! kfc_tree_root h) ->
  (forall a s, (a, s) ∈ large (frees (base_addr h) cs) ->
    g' !! (off + a) = (adjust_node (kfc_tree_root h) off <$> tree_nodes h !! a)) ->
  tree_holds (set_tree_nodes g' (set_base_addr (off + base_addr h) (move_pool old new n h)))
    (large (frees (off + base_addr h) cs)).
Proof using Hinv Hmv.
  intros Hroot Hnodes. pose proof large_shift as Hls.
  pose proof large_within as Hin. destruct Hmv. unfold GC_HEAD_PADDING in *.
  destruct (fs_tree _ _ (ho_store _ _ _ Hinv)) as (rs & t & Hrep & Hord & Hnd & Hheap & Hrs & Hel).
  destruct Hrep as (Hr0 & Hrn & _ & Hrep). cbn [ptr] in Hrn.
  exists rs, (shift_tree off t). unfold with_root in *. cbn [kfc_tree_root set_tree_nodes set_base_addr
    move_pool set_mem tree_nodes].
  assert (forall a s, (a, s) ∈ elements t -> base_addr h <= a < heap_end h) as Hpool
    by (intros a s; rewrite Hel; apply Hin).
  pose proof (po_root _ (ho_pool _ _ _ Hinv)) as Hpr. split; [|split; [|split; [|split; [|split]]]].
  - split; [done|]. split; [|split; [done|]].
    + rewrite Hroot, Hrn. simpl. unfold adjust_root. simpl. do 2 f_equal.
      destruct t as [|l a s r]; [done|]. simpl. unfold adjust_ptr.
      destruct Hrep as (Ha & _). apply Z.eqb_neq in Ha as ->. lia.
    + apply (rep_shift (tree_nodes h) g' (kfc_tree_root h) off (kfc_tree_root h));
        [|by rewrite Z.eqb_refl|exact Hrep].
      intros a s Ha. pose proof (Hpool _ _ Ha). split; [lia|]. split; [unfold off; lia|].
      apply (Hnodes a s). by rewrite <- Hel.
  - destruct Hord as (_ & Ho & _ & Hgt). split; [done|]. split; [by apply ordered_shift|].
    split; [done|]. rewrite elements_shift, Forall_fmap. done.
  - cbn [elements app]. rewrite elements_shift, fmap_cons. cbn [elements app] in Hnd.
    rewrite fmap_cons in Hnd. apply NoDup_cons in Hnd as [_ Hnd]. apply NoDup_cons. split.
    + intros ([a' s'] & Ha' & ([a s] & [= -> ->] & Ha)%list_elem_of_fmap)%list_elem_of_fmap.
      pose proof (Hpool _ _ Ha). simpl in *. unfold off in *. lia.
    + rewrite <- list_fmap_compose. change (fst ∘ shift off) with (Z.add off ∘ @fst Z Z).
      rewrite list_fmap_compose. by apply NoDup_fmap_2; [apply _|].
  - rewrite elements_shift, Forall_fmap, Forall_forall. intros [a s] Ha. simpl.
    unfold in_heap, hmu_is_in_heap. simpl. pose proof (Hpool _ _ Ha).
    apply andb_true_iff. rewrite Z.leb_le, Z.ltb_lt. unfold off. lia.
  - done.
  - by rewrite elements_shift, Hls, Hel.
Qed.

(** Without small free chunks everything is adjusted. *)
Lemma migrated_inv g' :
  Forall (fun c => c_free c = true -> HMU_FC_NORMAL_MAX_SIZE <= c_size c) cs ->
  g' !! kfc_tree_root h = (adjust_root off <$> tree_nodes h !! kfc_tree_root h) ->
  (forall a s, (a, s) ∈ large (frees (base_addr h) cs) ->
    g' !! (off + a) = (adjust_node (kfc_tree_root h) off <$> tree_nodes h !! a)) ->
  heap_inv (set_tree_nodes g' (set_base_addr (off + base_addr h) (move_pool old new n h))) cs.
Proof using Hinv Hmv Hsize.
  intros Hlarge Hroot Hnodes. destruct Hmv. unfold GC_HEAD_PADDING in *.
  pose proof (chunks_at_sizes _ _ _ _ _ (ho_chunks _ _ _ Hinv)) as Hs.
  pose proof (ho_total _ _ _ Hinv) as Ht. pose proof (ho_pool _ _ _ Hinv) as [Hb Hc Hr].
  set (h' := set_tree_nodes g' _).
  assert ((base_addr h' + HMU_SIZE) mod 8 = 0) as Hal.
  { simpl. replace (off + base_addr h + HMU_SIZE) with (off + (base_addr h + HMU_SIZE)) by lia.
    rewrite Z.add_mod, (ho_aligned _ _ _ Hinv) by lia. unfold off. by rewrite mv_aligned0. }
  assert (forall a s, (a, s) ∈ frees (off + base_addr h) cs -> HMU_FC_NORMAL_MAX_SIZE <= s) as Hbig.
  { intros a s (cs1 & c & cs2 & -> & _ & <- & Hf)%pieces_split.
    apply Forall_app in Hlarge as [_ [H _]%Forall_cons]. by apply H. }
  split; [|exact Hal|exact Ht|..].
  - split; simpl; [lia|done|]. unfold off. lia.
  - simpl. rewrite <- Z.add_assoc.
    eapply chunks_at_shift; [done| |apply (ho_chunks _ _ _ Hinv)].
    intros x Hx. apply moved_byte. lia.
  - split.
    + apply (fs_length _ _ (ho_store _ _ _ Hinv)).
    + intros i p Hp. destruct (fs_lists _ _ (ho_store _ _ _ Hinv) i p Hp) as (l & Hl & Hbk).
      assert (bucket (Z.of_nat i) (frees (base_addr h) cs) = []) as Hnil.
      { unfold bucket. destruct (filter _ _) as [|[a s] es] eqn:E; [done|].
        assert ((a, s) ∈ filter (fun e => e.2 = 8 * Z.of_nat i /\ e.2 < HMU_FC_NORMAL_MAX_SIZE)
          (frees (base_addr h) cs)) as [[_ Hsm] Ha]%list_elem_of_filter by (rewrite E; by left).
        assert ((off + a, s) ∈ frees (off + base_addr h) cs) as Ha'.
        { rewrite pieces_shift. apply list_elem_of_fmap. by exists (a, s). }
        apply Hbig in Ha'. simpl in Hsm. lia. }
      rewrite Hnil in Hbk. apply Permutation_nil_r in Hbk as ->. exists []. split; [exact Hl|].
      unfold bucket. destruct (filter _ _) as [|[a s] es] eqn:E; [done|].
      assert ((a, s) ∈ filter (fun e => e.2 = 8 * Z.of_nat i /\ e.2 < HMU_FC_NORMAL_MAX_SIZE)
        (frees (base_addr h') cs)) as [[_ Hsm] Ha]%list_elem_of_filter by (rewrite E; by left).
      apply Hbig in Ha. simpl in Hsm. lia.
    + apply migrated_tree; try done.
    + intros a s Ha. by eapply piece_chunk_ok.
    + by apply pieces_nodup.
    + intros a s b u Ha Hb' Hne. by eapply pieces_apart.
  - exact (ho_free _ _ _ Hinv).
  - exact (ho_highmark _ _ _ Hinv).
  - exact (ho_sound _ _ _ Hinv).
Qed.
End migrate.

(** ** Theorems *)

Lemma migrate_keeps h cs old new n size :
  heap_inv h cs -> moves h old new n -> current_size h + GC_HEAD_PADDING <= size < 2 ^ 32 ->
  Forall (fun c => c_free c = true -> HMU_FC_NORMAL_MAX_SIZE <= c_size c) cs ->
  exists h', mem_allocator_migrate (base_addr h - GC_HEAD_PADDING + (new - old)) size
      (move_pool old new n h) = Ret (GC_SUCCESS, h') /\
    heap_inv h' cs /\ base_addr h' = base_addr h + (new - old) /\
    kfc_tree_root h' = kfc_tree_root h /\
    forall x, old <= x < old + n -> mem h' (x + (new - old)) = mem h x.
Proof.
  intros Hinv Hmv Hsz Hl.
  destruct (migrate_run h cs old new n size Hinv Hmv Hsz) as (g' & h' & Hrun & -> & Hr & Hn).
  eexists. split; [exact Hrun|]. split; [by eapply migrated_inv|]. split; [simpl; lia|].
  split; [done|]. intros x Hx. rewrite (Z.add_comm x). by apply moved_byte.
Qed.

(** C26: Migration is correct while no small chunk is free: after the owner has
    copied the pool, [gc_migrate] succeeds, the heap at the new address has the
    same chunks and keeps its invariant, and all that was copied is there. *)
Theorem gc_migrate_correct h cs old new n size :
  heap_inv h cs -> moves h old new n -> current_size h + GC_HEAD_PADDING <= size < 2 ^ 32 ->
  Forall (fun c => c_free c = true -> HMU_FC_NORMAL_MAX_SIZE <= c_size c) cs ->
  exists h', mem_allocator_migrate (base_addr h - GC_HEAD_PADDING + (new - old)) size
      (move_pool old new n h) = Ret (GC_SUCCESS, h') /\
    heap_inv h' cs /\ base_addr h' = base_addr h + (new - old) /\
    kfc_tree_root h' = kfc_tree_root h /\
    forall x, old <= x < old + n -> mem h' (x + (new - old)) = mem h x.
Proof. apply migrate_keeps. Qed.

(** The lists of small chunks keep their old heads. *)
Lemma stale_head h cs old new n i p :
  heap_inv h cs -> moves h old new n -> old + n <= new \/ new + n <= old ->
  kfc_normal_list h !! i = Some p -> p <> 0 ->
  hmu_is_in_heap p (base_addr h + (new - old)) (base_addr h + (new - old) + current_size h) = false.
Proof.
  intros Hinv Hmv Hd Hp Hp0.
  destruct (fs_lists _ _ (ho_store _ _ _ Hinv) i p Hp) as (l & Hl & Hb).
  destruct l as [|x l]; [done|]. destruct Hl as (<- & _).
  assert (p ∈ bucket (Z.of_nat i) (frees (base_addr h) cs)) as [s Hs]%bucket_subset
    by (rewrite <- Hb; by left).
  destruct (fs_chunks _ _ (ho_store _ _ _ Hinv) _ _ Hs). change GC_SMALLEST_SIZE with 16 in *.
  destruct Hmv. unfold hmu_is_in_heap, GC_HEAD_PADDING in *.
  destruct (Z.leb_spec (base_addr h + (new - old)) p); [|done].
  destruct (Z.ltb_spec p (base_addr h + (new - old) + current_size h)); [lia|done].
Qed.

(** An allocation that finds a list whose head lies outside of the pool. *)
Lemma malloc_stale h cs h1 p s req :
  heap_inv h cs -> (p, s) ∈ frees (base_addr h) cs -> s < HMU_FC_NORMAL_MAX_SIZE ->
  0 <= req -> request req <= s -> is_heap_corrupted h1 = false ->
  kfc_normal_list h1 = kfc_normal_list h ->
  (forall i q, kfc_normal_list h !! i = Some q -> q <> 0 -> in_heap h1 q = false) ->
  exists h2, mem_allocator_malloc req h1 = Ret (0, h2) /\ is_heap_corrupted h2 = true.
Proof.
  intros Hinv Hp Hsm Hreq Hfit Hsound Hlists Hstale.
  pose proof (request_room req Hreq) as Hroom. change HMU_FC_NORMAL_MAX_SIZE with 248 in Hsm.
  cut (wp no_fault (mem_allocator_malloc req) (fun r h2 => r = 0 /\ is_heap_corrupted h2 = true) h1).
  { intros (r & h2 & Hrun & -> & Hc)%wp_total. by exists h2. }
  unfold mem_allocator_malloc, gc_alloc_vo. rewrite tot_size_overflows by lia.
  destruct (Z.leb_spec (2 ^ 32) (req + 11)); [lia|]. destruct (tot_size_fits req) as [_ Ht]; [lia..|].
  apply wp_bind, wp_heap_state. rewrite Hsound. apply wp_bind. unfold alloc_hmu_ex, alloc_hmu.
  assert ((if tot_size req <? GC_SMALLEST_SIZE then GC_SMALLEST_SIZE else tot_size req) = request req)
    as ->.
  { rewrite Ht. unfold request. change GC_SMALLEST_SIZE with 16.
    destruct (Z.ltb_spec (8 * ((req + 11) / 8)) 16); lia. }
  assert (request req mod 8 = 0) as Hm8.
  { unfold request. destruct (Z.max_spec (8 * ((req + 11) / 8)) 16) as [[_ ->]|[_ ->]]; [done|].
    rewrite Z.mul_comm. apply Z.mod_mul. lia. }
  destruct (small_index (request req)) as [Hi Hi8];
    [split; [lia|done]|by change HMU_FC_NORMAL_MAX_SIZE with 248; lia|].
  unfold HMU_IS_FC_NORMAL. change HMU_FC_NORMAL_MAX_SIZE with 248.
  destruct (Z.ltb_spec (request req) 248); [|lia].
  set (i0 := Z.shiftr (request req) 3) in *. clearbody i0. apply wp_bind.
  pose proof (fs_length _ _ (ho_store _ _ _ Hinv)) as Hlen. unfold HMU_NORMAL_NODE_CNT in *.
  apply find_normal_spec; [lia|rewrite Hlists; lia|..].
  - intros Hempty. exfalso. destruct (free_index h cs Hinv p s Hp Hsm) as [Hj Hj8].
    eapply (empty_list h cs Hinv (Z.shiftr s 3) p s); [|lia|done|done|done].
    rewrite <- Hlists. apply Hempty; [lia|]. rewrite Hlists. lia.
  - intros i q Hii Hq Hq0 _. apply wp_bind. eapply wp_normal_head; [exact Hq|].
    apply wp_bind, wp_heap_state. rewrite Hlists in Hq. rewrite (Hstale _ _ Hq Hq0).
    cbn [negb]. unfold corrupted. apply wp_bind, wp_modify, wp_ret. by apply wp_ret.
Qed.

Lemma malloc_corrupted req h : is_heap_corrupted h = true -> mem_allocator_malloc req h = Ret (0, h).
Proof.
  intros Hc. unfold mem_allocator_malloc, gc_alloc_vo. destruct (tot_size req <? req); [done|].
  unfold mbind, M_bind, heap_state, gets, id. by rewrite Hc.
Qed.

(** C39: With a small free chunk the heap is unusable after its migration to a disjoint
    place. [gc_migrate] reports success, but the list of the chunk still points
    to the old pool: the first allocation that the chunk could serve fails and marks the heap
    as corrupted, so that every later allocation fails as well. *)
Theorem gc_migrate_loses_small_chunks h cs old new n size p s req req' :
  heap_inv h cs -> moves h old new n -> old + n <= new \/ new + n <= old ->
  current_size h + GC_HEAD_PADDING <= size < 2 ^ 32 ->
  (p, s) ∈ frees (base_addr h) cs -> s < HMU_FC_NORMAL_MAX_SIZE ->
  0 <= req -> request req <= s ->
  exists h1 h2,
    mem_allocator_migrate (base_addr h - GC_HEAD_PADDING + (new - old)) size
      (move_pool old new n h) = Ret (GC_SUCCESS, h1) /\
    mem_allocator_malloc req h1 = Ret (0, h2) /\ is_heap_corrupted h2 = true /\
    mem_allocator_malloc req' h2 = Ret (0, h2).
Proof.
  intros Hinv Hmv Hd Hsz Hp Hsm Hreq Hfit.
  destruct (migrate_run h cs old new n size Hinv Hmv Hsz) as (g' & h1 & Hrun & Hh1 & _).
  destruct (malloc_stale h cs h1 p s req Hinv Hp Hsm Hreq Hfit) as (h2 & Hm & Hc).
  - rewrite Hh1. exact (ho_sound _ _ _ Hinv).
  - by rewrite Hh1.
  - intros i q Hq Hq0. rewrite Hh1. unfold in_heap. simpl. rewrite (Z.add_comm (new - old)).
    by eapply stale_head.
  - exists h1, h2. split; [exact Hrun|]. split; [exact Hm|]. split; [exact Hc|].
    by apply malloc_corrupted.
Qed.
