(* ===== verification/EmsRuns.v ===== *)
(** * Runs of the heap

    A pool of 512 bytes on which the heap is evaluated: instances of the
    theorems of [EmsClient.v], and runs that leave the heap in a state its
    invariant excludes. *)

From S2P Require Import Prelude Memory Ems EmsTree EmsFree EmsSpec EmsHeap EmsClient EmsMigrate.

(** ** A pool *)

Definition pool0 : gc_heap := gc_init_internal 8 4096 65540 504 (fun _ => Byte.xff).

Lemma pool0_inv : heap_inv pool0 [Chunk 504 true].
Proof. apply gc_init_internal_inv; try done; [by right|by left]. Qed.

(** The result of a run, and the heap after it. *)
Definition result {A} (m : H A) (h : gc_heap) : option A :=
  match m h with Ret (a, _) => Some a | Fault _ => None end.
Definition after {A} (m : H A) (h : gc_heap) : gc_heap :=
  match m h with Ret (_, h') => h' | Fault _ => h end.

Lemma run_result {A} (m : H A) h a : result m h = Some a -> m h = Ret (a, after m h).
Proof. unfold result, after. destruct (m h) as [[b h']|]; [|done]. by intros [= ->]. Qed.

(** ** Reading the chunks *)

(** The chunks that the headers from [a] on describe, up to [e]. *)
Fixpoint walk (fuel : nat) (m : memory) (a e : Z) : list chunk :=
  match fuel with
  | O => []
  | S fuel =>
      if e <=? a then [] else
      let hd := load32 m a in
      Chunk (hmu_get_size hd) (hmu_get_ut hd =? HMU_FC) :: walk fuel m (a + hmu_get_size hd) e
  end.

Lemma walk_chunks fuel m e a pin cs :
  chunks_at m e a pin cs -> a + total cs = e -> (length cs < fuel)%nat -> walk fuel m a e = cs.
Proof.
  revert fuel a pin. induction cs as [|[s fr] cs IH]; intros fuel a pin Hc Ht Hf;
    (destruct fuel as [|fuel]; [lia|]); cbn [walk total c_size] in *.
  - by destruct (Z.leb_spec e a); [|lia].
  - destruct Hc as (Hhd & Hs & _ & _ & _ & Hc). cbn [c_size c_free] in Hs, Hc.
    change GC_SMALLEST_SIZE with 16 in Hs.
    pose proof (total_nonneg _ (chunks_at_sizes _ _ _ _ _ Hc)).
    destruct (Z.leb_spec e a); [lia|]. rewrite (hd_size _ _ _ Hhd), (hd_ut _ _ _ Hhd). cbn [c_size c_free].
    assert (((if fr then HMU_FC else HMU_VO) =? HMU_FC) = fr) as -> by (by destruct fr).
    f_equal. eapply IH; [exact Hc|lia|cbn [length] in Hf; lia].
Qed.

(** A heap has one description. *)
Lemma heap_inv_walk h cs :
  heap_inv h cs -> cs = walk (Z.to_nat (current_size h)) (mem h) (base_addr h) (heap_end h).
Proof.
  intros [[_ Hp _] _ Ht Hc _ _ _ _]. symmetry. eapply walk_chunks; [exact Hc|lia|].
  pose proof (length_total _ (chunks_at_sizes _ _ _ _ _ Hc)). lia.
Qed.

(** The description after an allocation that succeeds. *)
Lemma inv_after_alloc h cs size r h' :
  heap_inv h cs -> 0 <= size < 2 ^ 32 -> gc_alloc_vo size h = Ret (r, h') ->
  exists cs', heap_inv h' cs'.
Proof.
  intros Hinv Hs Hrun. pose proof (gc_alloc_vo_spec h cs size Hinv Hs) as Hspec.
  apply (wp_ret_inv _ _ _ _ _ _ Hspec) in Hrun.
  destruct Hrun as [| |]; [by exists cs|by exists cs|by eexists].
Qed.

(** The heap after an allocation, described by its headers. *)
Ltac inv_after Hinv :=
  lazymatch goal with
  | |- heap_inv (after (gc_alloc_vo ?size) ?h) ?cs =>
      let H := fresh in
      destruct (inv_after_alloc h _ size _ _ Hinv ltac:(lia)
        (run_result (gc_alloc_vo size) h _ ltac:(vm_compute; reflexivity))) as [? H];
      let E := fresh in pose proof (heap_inv_walk _ _ H) as E;
      replace (walk _ _ _ _) with cs in E by (by vm_compute); by subst
  end.

(** One, two and three objects of 60 bytes. *)
Definition heap1 : gc_heap := after (gc_alloc_vo 60) pool0.
Definition heap2 : gc_heap := after (gc_alloc_vo 60) heap1.
Definition heap3 : gc_heap := after (gc_alloc_vo 60) heap2.

Lemma heap1_inv : heap_inv heap1 [Chunk 64 false; Chunk 440 true].
Proof. unfold heap1. inv_after pool0_inv. Qed.

Lemma heap2_inv : heap_inv heap2 [Chunk 64 false; Chunk 64 false; Chunk 376 true].
Proof. unfold heap2. inv_after heap1_inv. Qed.

Lemma heap3_inv : heap_inv heap3 [Chunk 64 false; Chunk 64 false; Chunk 64 false; Chunk 312 true].
Proof. unfold heap3. inv_after heap2_inv. Qed.

Lemma inv_after_free h cs b p s :
  heap_inv h cs -> base_addr h = b -> (p, s) ∈ useds b cs ->
  exists cs', heap_inv (after (gc_free_vo (hmu_to_obj p)) h) cs'.
Proof.
  intros Hinv <- Hp. pose proof (gc_free_vo_spec h cs p s Hinv Hp) as Hspec.
  apply wp_total in Hspec as (r & h' & Hrun & cs' & [_ Hinv' _ _ _ _ _]). exists cs'.
  unfold after. by rewrite Hrun.
Qed.

(** The object in the middle is freed. *)
Definition heap3_gap : gc_heap := after (gc_free_vo (hmu_to_obj 65604)) heap3.

Lemma heap3_gap_inv :
  heap_inv heap3_gap [Chunk 64 false; Chunk 64 true; Chunk 64 false; Chunk 312 true].
Proof.
  destruct (inv_after_free heap3 _ 65540 65604 64 heap3_inv) as [cs Hinv];
    [by vm_compute|simpl; set_solver|].
  pose proof (heap_inv_walk _ _ Hinv) as E.
  replace (walk _ _ _ _) with [Chunk 64 false; Chunk 64 true; Chunk 64 false; Chunk 312 true] in E
    by (by vm_compute).
  by subst cs.
Qed.

(** ** Behaviours outside of the invariant *)

(** The heap is not as its statistics say. *)
Lemma not_heap_inv h cs :
  walk (Z.to_nat (current_size h)) (mem h) (base_addr h) (heap_end h) = cs ->
  total_free_size h <> free_bytes cs -> ~ exists cs, heap_inv h cs.
Proof.
  intros Hw Hf [cs' Hinv]. pose proof (heap_inv_walk _ _ Hinv) as E. rewrite Hw in E. subst cs'.
  by rewrite (ho_free _ _ _ Hinv) in Hf.
Qed.

(** [gc_realloc_vo] that grows an object in place breaks the invariant. The
    bytes it takes stay counted as free. When it takes the next chunk as a
    whole, the chunk behind is still told that its neighbour is free: a client
    that only writes into its own 124 bytes then gets a new object inside of
    them. A rest of 8 bytes becomes a chunk without its trailing size. *)
Theorem realloc_in_place_breaks_heap :
  (exists h, mem_allocator_realloc 65544 124 heap1 = Ret (65544, h) /\
    total_free_size h = 440 /\ ~ exists cs, heap_inv h cs) /\
  (exists h, mem_allocator_realloc 65544 124 heap3_gap = Ret (65544, h) /\
    hmu_get_pinuse (load32 (mem h) (obj_to_hmu 65672)) = false) /\
  result (mem_allocator_realloc 65544 124;;
      update_mem (store32 65604 (hmu_set_size 64 (hmu_set_ut HMU_FC 0)));;
      update_mem (store32 65664 64);;
      mem_allocator_free 65672;; mem_allocator_malloc 100) heap3_gap = Some 65608 /\
  (exists h, mem_allocator_realloc 65544 116 heap3_gap = Ret (65544, h) /\
    walk 504 (mem h) 65540 66044 =
      [Chunk 120 false; Chunk 8 true; Chunk 64 false; Chunk 312 true] /\
    load32 (mem h) (obj_to_hmu 65672 - 4) = 0).
Proof.
  split; [|split; [|split]].
  - eexists. split; [apply run_result; by vm_compute|]. split; [by vm_compute|].
    by eapply not_heap_inv; [vm_compute; reflexivity|vm_compute].
  - eexists. split; [apply run_result; by vm_compute|]. by vm_compute.
  - by vm_compute.
  - eexists. split; [apply run_result; by vm_compute|]. split; by vm_compute.
Qed.

(** A second free of an object whose chunk was merged with the one before it
    is not noticed: it reports success, and the next allocation returns an
    object that overlaps a third one that is in use. *)
Theorem double_free_not_detected :
  result (x ← gc_free_vo 65544; y ← gc_free_vo 65608; z ← gc_free_vo 65608;
      r ← mem_allocator_malloc 180; mret (x, y, z, r)) heap3
    = Some (GC_SUCCESS, GC_SUCCESS, GC_SUCCESS, 65544) /\
  (65668, 64) ∈ useds (base_addr heap3)
    [Chunk 64 false; Chunk 64 false; Chunk 64 false; Chunk 312 true] /\
  65544 <= hmu_to_obj 65668 < 65544 + 180.
Proof.
  split; [by vm_compute|]. split; [|by unfold hmu_to_obj, HMU_SIZE].
  replace (base_addr heap3) with 65540 by (by vm_compute). simpl. set_solver.
Qed.

(** ** A client *)

(** It allocates 100 bytes, writes one of them and frees them. *)
Definition client0 : client := fun rs =>
  match rs with
  | [] => Malloc 100
  | [r] => if r =? 0 then Free 0 else Store r 3 Byte.x41
  | [r; _] => Free r
  | _ => Free 0
  end.

Lemma client0_run rs os :
  alloc_run client0 rs os ->
  match rs with
  | [r] | [r; _] => (r = 0 /\ os = ∅) \/ exists bs, zlen bs = 100 /\ r <> 0 /\ os = {[r := bs]}
  | _ => os = ∅
  end.
Proof.
  induction 1 as [|rs os r os' _ IH Hstep]; [done|].
  destruct rs as [|a [|b [|d rs]]]; simpl in *.
  - subst os. inversion Hstep; subst; [by left|right]. eexists. split; [|done]. done.
  - destruct IH as [[-> ->]|(bs & Hl & Ha & ->)].
    + left. inversion Hstep; subst; [done|]. by rewrite lookup_empty in *.
    + right. apply Z.eqb_neq in Ha as Ha'. rewrite Ha' in Hstep.
      inversion Hstep as [| | | |r' bs' i b Hr Hi]; subst.
      rewrite lookup_singleton_eq in Hr. injection Hr as ->. rewrite insert_singleton_eq.
      eexists. split; [|done]. by rewrite length_insert.
  - destruct IH as [[-> ->]|(bs & Hl & Ha & ->)]; inversion Hstep; subst; try done.
    by rewrite delete_singleton_eq.
  - subst os. inversion Hstep; subst; [done|]. by rewrite lookup_empty in *.
Qed.

Lemma client0_well_behaved : well_behaved client0.
Proof.
  intros rs os Hrun%client0_run. destruct rs as [|a [|b [|d rs]]]; simpl in *; [lia|..|by left].
  - destruct Hrun as [[-> ->]|(bs & Hl & Ha & ->)]; [by left|]. apply Z.eqb_neq in Ha as ->.
    exists bs. rewrite lookup_singleton_eq. split; [done|lia].
  - destruct Hrun as [[-> ->]|(bs & Hl & Ha & ->)]; [by left|]. right.
    by rewrite lookup_singleton_eq.
Qed.

(** ** Instances of the theorems *)

Definition memory0 : memory := fun _ => Byte.xff.

Lemma heap_refines_allocator_witness :
  exists heap h rs h' os cs,
    mem_allocator_create 8 65536 1024 memory0 = Some (heap, h) /\
    heap_run client0 3 [] h = Ret (rs, h') /\ length rs = 3%nat /\
    alloc_run client0 rs os /\ represents h' cs os.
Proof.
  apply heap_refines_allocator; [by right|lia|vm_compute; split; done|exact client0_well_behaved].
Defined.

Definition pool1 : gc_heap := gc_init_internal 8 65536 65892 664 memory0.

Lemma freed_pool_is_one_chunk_witness :
  let h := after (heap_run client0 3 []) pool1 in
  heap_inv h [Chunk (current_size h) true] /\ total_free_size h = current_size h.
Proof.
  apply (freed_pool_is_one_chunk 8 65536 1024 memory0 client0 3 65536 pool1 [65896; 0; 0]);
    [by right|lia|vm_compute; split; done|exact client0_well_behaved|reflexivity| |].
  - apply run_result. vm_compute. reflexivity.
  - intros os Hos. exact (client0_run _ _ Hos).
Defined.

Lemma gc_alloc_vo_correct_witness :
  exists r h', mem_allocator_malloc 100 heap3_gap = Ret (r, h') /\
    gc_alloc_result heap3_gap [Chunk 64 false; Chunk 64 true; Chunk 64 false; Chunk 312 true] 100 r h'.
Proof. apply gc_alloc_vo_correct; [exact heap3_gap_inv|lia]. Defined.

Lemma gc_free_vo_correct_witness :
  exists r h' cs', gc_free_vo (hmu_to_obj 65668) heap3_gap = Ret (r, h') /\
    gc_free_result heap3_gap [Chunk 64 false; Chunk 64 true; Chunk 64 false; Chunk 312 true]
      65668 64 r h' cs'.
Proof.
  refine (proj1 (gc_free_vo_correct heap3_gap _ 65668 64 heap3_gap_inv) _).
  replace (base_addr heap3_gap) with 65540 by (vm_compute; reflexivity). simpl. set_solver.
Defined.

Lemma gc_realloc_vo_moves_witness :
  exists r h', mem_allocator_realloc (hmu_to_obj (base_addr heap2 + 0)) 124 heap2 = Ret (r, h') /\
    gc_realloc_result heap2 [Chunk 64 false; Chunk 64 false; Chunk 376 true]
      (base_addr heap2 + 0) 64 124 r h'.
Proof.
  apply (gc_realloc_vo_moves heap2 [] 64 [Chunk 64 false; Chunk 376 true] 124);
    [exact heap2_inv|lia|lia|vm_compute; reflexivity|]. by intros t cs3 [=].
Defined.

Lemma small_pool_wraps_witness :
  exists h, gc_init_with_pool 8 65536 256 memory0 = Some (65536, h) /\
    65536 + 256 < base_addr h /\ 2 ^ 32 - 104 <= current_size h /\
    forall x, base_addr h + HMU_SIZE <= x < heap_end h -> mem h x = Byte.x00.
Proof. apply small_pool_wraps; [lia|reflexivity|vm_compute; split; done]. Defined.

(** ** Migration *)

Lemma moves0 h : base_addr h = 65540 -> current_size h = 504 -> 4096 <= kfc_tree_root h < 8192 ->
  moves h 65536 131072 512.
Proof. intros Hb Hc Hr. split; rewrite ?Hb, ?Hc; unfold GC_HEAD_PADDING; lia || done. Qed.

Lemma gc_migrate_correct_witness : exists h',
  mem_allocator_migrate (base_addr heap1 - GC_HEAD_PADDING + (131072 - 65536)) 512
    (move_pool 65536 131072 512 heap1) = Ret (GC_SUCCESS, h') /\
  heap_inv h' [Chunk 64 false; Chunk 440 true] /\ base_addr h' = base_addr heap1 + (131072 - 65536) /\
  kfc_tree_root h' = kfc_tree_root heap1 /\
  forall x, 65536 <= x < 65536 + 512 -> mem h' (x + (131072 - 65536)) = mem heap1 x.
Proof.
  apply gc_migrate_correct; [exact heap1_inv|apply moves0; by vm_compute|by vm_compute|].
  by repeat constructor.
Defined.

Lemma gc_migrate_loses_small_chunks_witness : exists h1 h2,
  mem_allocator_migrate (base_addr heap3_gap - GC_HEAD_PADDING + (131072 - 65536)) 512
    (move_pool 65536 131072 512 heap3_gap) = Ret (GC_SUCCESS, h1) /\
  mem_allocator_malloc 40 h1 = Ret (0, h2) /\ is_heap_corrupted h2 = true /\
  mem_allocator_malloc 300 h2 = Ret (0, h2).
Proof.
  eapply (gc_migrate_loses_small_chunks heap3_gap _ 65536 131072 512 512 65604 64);
    [exact heap3_gap_inv|apply moves0; by vm_compute|lia|by vm_compute| |done|done|by vm_compute].
  replace (base_addr heap3_gap) with 65540 by (vm_compute; reflexivity). simpl. set_solver.
Defined.
