(* ===== verification/Leb.v ===== *)
(** * LEB128 integers

    Integers of a WebAssembly module are encoded in groups of seven bits. The
    loader reads them with checks ([bh_leb128.c], [wasm_loader_common.c] and
    the macros of [wasm_loader.c]); the interpreter reads the same bytes again
    without ([wasm_interp_classic.c]). A buffer is the list of the bytes
    between the pointer and its end. *)

From S2P Require Import Prelude Memory.

Definition wrap64 (z : Z) : Z := z mod 2 ^ 64.

(** The value of a 64-bit word as a signed integer. *)
Definition signed64 (z : Z) : Z := if z <? 2 ^ 63 then z else z - 2 ^ 64.

(** ** The checked reader *)

(** The status, with [*p_result] and [*p_offset] where they are written. *)
Inductive bh_leb_read_status_t :=
| BH_LEB_READ_SUCCESS (result offset : Z)
| BH_LEB_READ_TOO_LONG
| BH_LEB_READ_OVERFLOW
| BH_LEB_READ_UNEXPECTED_END.

(** The loop: the error, or the result, the shift, the last byte and the
    offset behind it. [bcnt] counts the same bytes as [offset]. *)
Fixpoint leb_loop (maxbits : Z) (rest : bytes) (offset shift result : Z)
    : bh_leb_read_status_t + Z * Z * Z * Z :=
  let bcnt := offset in
  if (maxbits + 6) / 7 <? bcnt + 1 then inl BH_LEB_READ_TOO_LONG else
  match rest with
  | [] => inl BH_LEB_READ_UNEXPECTED_END
  | b :: rest =>
      let byte := Z_of_byte b in
      let result := Z.lor result (wrap64 (Z.shiftl (Z.land byte 127) shift)) in
      if Z.land byte 128 =? 0 then inr (result, shift + 7, byte, offset + 1)
      else leb_loop maxbits rest (offset + 1) (shift + 7) result
  end.

(** [result |= (~((uint64)0)) << shift] *)
Definition extend_sign (result shift : Z) : Z := Z.lor result (wrap64 (Z.shiftl (2 ^ 64 - 1) shift)).

(** The top bits of the last byte repeat the sign bit. *)
Definition top_bits_ok (byte sign_bit mask all : Z) : bool :=
  let sign_bit_set := negb (Z.land byte sign_bit =? 0) in
  let top_bits := Z.land byte mask in
  negb ((sign_bit_set && negb (top_bits =? all)) || (negb sign_bit_set && negb (top_bits =? 0))).

Definition bh_leb_read (buf : bytes) (maxbits : Z) (sign : bool) : bh_leb_read_status_t :=
  match leb_loop maxbits buf 0 0 0 with
  | inl e => e
  | inr (result, shift, byte, offset) =>
      let signed sign_bit mask all :=
        if shift <? maxbits then
          BH_LEB_READ_SUCCESS
            (if negb (Z.land byte 64 =? 0) then extend_sign result shift else result) offset
        else if top_bits_ok byte sign_bit mask all then BH_LEB_READ_SUCCESS result offset
        else BH_LEB_READ_OVERFLOW in
      if negb sign && (maxbits =? 32) && (maxbits <=? shift) then
        if negb (Z.land byte 240 =? 0) then BH_LEB_READ_OVERFLOW
        else BH_LEB_READ_SUCCESS result offset
      else if sign && (maxbits =? 32) then signed 8 240 112
      else if sign && (maxbits =? 64) then signed 1 254 126
      else BH_LEB_READ_SUCCESS result offset
  end.

(** ** The loader *)

Inductive leb_error :=
| integer_representation_too_long
| integer_too_large
| unexpected_end.

(** [read_leb] of the loader: an error, or the integer and the buffer behind
    it. *)
Definition read_leb (p : bytes) (maxbits : Z) (sign : bool) : leb_error + Z * bytes :=
  match bh_leb_read p maxbits sign with
  | BH_LEB_READ_SUCCESS result offset => inr (result, drop (Z.to_nat offset) p)
  | BH_LEB_READ_TOO_LONG => inl integer_representation_too_long
  | BH_LEB_READ_OVERFLOW => inl integer_too_large
  | BH_LEB_READ_UNEXPECTED_END => inl unexpected_end
  end.

(** The cast of a result that was read. *)
Definition cast_leb (cast : Z -> Z) (r : leb_error + Z * bytes) : leb_error + Z * bytes :=
  match r with
  | inr (res64, p) => inr (cast res64, p)
  | inl e => inl e
  end.

Definition read_leb_int64 (p : bytes) := cast_leb signed64 (read_leb p 64 true).
Definition read_leb_uint32 (p : bytes) := cast_leb wrap32 (read_leb p 32 false).
Definition read_leb_int32 (p : bytes) :=
  cast_leb (fun res64 => signed32 (wrap32 res64)) (read_leb p 32 true).

(** ** The interpreter *)

(** Reads from [buf + *p_offset] without a bound: a byte outside of the buffer
    and a shift by the width of the type are undefined. *)
Fixpoint interp_leb_loop (rest : bytes) (offset shift result : Z) : outcome (Z * Z * Z * Z) :=
  match rest with
  | [] => Fault UB
  | b :: rest =>
      if 64 <=? shift then Fault UB else
      let byte := Z_of_byte b in
      let result := Z.lor result (wrap64 (Z.shiftl (Z.land byte 127) shift)) in
      if Z.land byte 128 =? 0 then Ret (result, shift + 7, byte, offset + 1)
      else interp_leb_loop rest (offset + 1) (shift + 7) result
  end.

Definition interp_read_leb (buf : bytes) (p_offset maxbits : Z) (sign : bool) : outcome (Z * Z) :=
  match interp_leb_loop (drop (Z.to_nat p_offset) buf) p_offset 0 0 with
  | Fault f => Fault f
  | Ret (result, shift, byte, offset) =>
      Ret (if sign && (shift <? maxbits) && negb (Z.land byte 64 =? 0)
           then extend_sign result shift else result, offset)
  end.

(** The macros of the interpreter: a single byte is decoded in place. *)
Definition interp_read (maxbits : Z) (sign : bool) (single cast : Z -> Z) (p : bytes)
    : outcome (Z * bytes) :=
  match p with
  | [] => Fault UB
  | b :: _ =>
      let val := Z_of_byte b in
      if Z.land val 128 =? 0 then Ret (single val, drop 1 p) else
      match interp_read_leb p 0 maxbits sign with
      | Ret (res, off) => Ret (cast res, drop (Z.to_nat off) p)
      | Fault f => Fault f
      end
  end.

Definition interp_read_leb_int64 : bytes -> outcome (Z * bytes) :=
  interp_read 64 true
    (fun val => signed64 (if negb (Z.land val 64 =? 0) then Z.lor val 0xFFFFFFFFFFFFFF80 else val))
    signed64.

Definition interp_read_leb_uint32 : bytes -> outcome (Z * bytes) :=
  interp_read 32 false id wrap32.

Definition interp_read_leb_int32 : bytes -> outcome (Z * bytes) :=
  interp_read 32 true
    (fun val => signed32 (if negb (Z.land val 64 =? 0) then Z.lor val 0xFFFFFF80 else val))
    (fun res => signed32 (wrap32 res)).
