(* ===== verification/LebSpec.v ===== *)
(** * Correctness of the LEB128 readers

    The loader accepts exactly the integers of the WebAssembly specification
    and reads their values; the interpreter reads the same from a buffer that
    the loader accepted. *)

From S2P Require Import Prelude Memory Leb.

(** ** The format *)

(** The bytes of the first integer: up to the first without a continuation
    bit. *)
Fixpoint leb_prefix (buf : bytes) : option bytes :=
  match buf with
  | [] => None
  | b :: buf => if Z_of_byte b <? 128 then Some [b] else cons b <$> leb_prefix buf
  end.

(** The value of the groups, least significant first. *)
Fixpoint leb_value (bs : bytes) : Z :=
  match bs with
  | [] => 0
  | b :: bs => Z_of_byte b mod 128 + 128 * leb_value bs
  end.

(** In two's complement, the highest bit of the last group is the sign. *)
Fixpoint leb_negative (bs : bytes) : bool :=
  match bs with
  | [] => false
  | [b] => 64 <=? Z_of_byte b mod 128
  | _ :: bs => leb_negative bs
  end.

Definition leb_signed (bs : bytes) : Z :=
  leb_value bs - if leb_negative bs then 2 ^ (7 * zlen bs) else 0.

(** The reference: an integer of [n] bits has at most ceil(n/7) bytes, and its
    value is in range. *)
Definition leb_spec (n : Z) (value : bytes -> Z) (low high : Z) (buf : bytes)
    : leb_error + Z * bytes :=
  let most := Z.to_nat ((n + 6) / 7) in
  match leb_prefix (take most buf) with
  | Some bs =>
      if (low <=? value bs) && (value bs <? high) then inr (value bs, drop (length bs) buf)
      else inl integer_too_large
  | None => inl (if Nat.leb most (length buf) then integer_representation_too_long else unexpected_end)
  end.

(** ** Bytes *)

(** Facts about all bytes, by cases. *)
Ltac all_bytes := intros b; destruct b; vm_compute; (reflexivity || (intros; congruence)).

Lemma land_127 b : Z.land (Z_of_byte b) 127 = Z_of_byte b mod 128.
Proof. revert b. all_bytes. Qed.

Lemma land_128 b : (Z.land (Z_of_byte b) 128 =? 0) = (Z_of_byte b <? 128).
Proof. revert b. all_bytes. Qed.

Lemma land_64 b : negb (Z.land (Z_of_byte b) 64 =? 0) = (64 <=? Z_of_byte b mod 128).
Proof. revert b. all_bytes. Qed.

Lemma land_240 b : negb (Z.land (Z_of_byte b) 240 =? 0) = (16 <=? Z_of_byte b).
Proof. revert b. all_bytes. Qed.

Lemma top_bits_32 b :
  top_bits_ok (Z_of_byte b) 8 240 112 =
    ((Z_of_byte b <? 8) || ((120 <=? Z_of_byte b) && (Z_of_byte b <? 128))).
Proof. revert b. all_bytes. Qed.

Lemma top_bits_64 b :
  top_bits_ok (Z_of_byte b) 1 254 126 = ((Z_of_byte b =? 0) || (Z_of_byte b =? 127)).
Proof. revert b. all_bytes. Qed.

(** ** Arithmetic of the loop *)

Lemma lor_shifted r y s : 0 <= s -> 0 <= r < 2 ^ s -> 0 <= y -> Z.lor r (y * 2 ^ s) = r + y * 2 ^ s.
Proof.
  intros Hs Hr Hy. rewrite <- Z.lxor_lor, <- Z.add_nocarry_lxor; [done|..];
    apply Z.bits_inj'; intros i Hi; rewrite Z.land_spec, Z.bits_0, Z.mul_pow2_bits by done;
    (destruct (decide (i < s)); [by rewrite (Z.testbit_neg_r y) by lia; rewrite andb_false_r|]);
    (replace (Z.testbit r i) with false; [done|]); symmetry;
    (destruct (decide (r = 0)) as [->|]; [apply Z.bits_0|]); apply Z.bits_above_log2; try lia;
    apply Z.log2_lt_pow2; try lia; eapply Z.lt_le_trans; [apply Hr| |apply Hr|];
    apply Z.pow_le_mono_r; lia.
Qed.

(** One step: seven bits are added above the ones read so far. *)
Lemma lor_group r y s :
  0 <= s < 64 -> 0 <= r < 2 ^ s -> 0 <= y ->
  Z.lor r (wrap64 (Z.shiftl y s)) = wrap64 (r + y * 2 ^ s).
Proof.
  intros Hs Hr Hy. unfold wrap64. rewrite Z.shiftl_mul_pow2 by lia.
  assert (2 ^ 64 = 2 ^ (64 - s) * 2 ^ s) as Hp by (rewrite <- Z.pow_add_r by lia; f_equal; lia).
  assert (0 < 2 ^ s /\ 0 < 2 ^ (64 - s)) as [Hs0 Ht0] by (split; apply Z.pow_pos_nonneg; lia).
  rewrite Hp at 1. rewrite Z.mul_mod_distr_r by lia.
  pose proof (Z.mod_pos_bound y (2 ^ (64 - s)) Ht0) as Hm.
  rewrite lor_shifted by lia.
  apply Z.mod_unique_pos with (y / 2 ^ (64 - s)); [nia|].
  rewrite (Z.div_mod y (2 ^ (64 - s))) at 1 by lia. rewrite Hp. ring.
Qed.

Lemma leb_value_range bs : 0 <= leb_value bs < 2 ^ (7 * zlen bs).
Proof.
  induction bs as [|b bs IH]; cbn [leb_value length]; [done|].
  rewrite Nat2Z.inj_succ. replace (7 * Z.succ (zlen bs)) with (7 + 7 * zlen bs) by lia.
  rewrite Z.pow_add_r by lia. change (2 ^ 7) with 128.
  pose proof (Z.mod_pos_bound (Z_of_byte b) 128). lia.
Qed.

Lemma leb_value_snoc bs b :
  leb_value (bs ++ [b]) = leb_value bs + Z_of_byte b mod 128 * 2 ^ (7 * zlen bs).
Proof.
  induction bs as [|c bs IH]; cbn [leb_value length app]; [change (2 ^ _) with 1; lia|].
  rewrite IH, Nat2Z.inj_succ. replace (7 * Z.succ (zlen bs)) with (7 + 7 * zlen bs) by lia.
  rewrite Z.pow_add_r by lia. change (2 ^ 7) with 128. ring.
Qed.

Lemma leb_negative_snoc bs b : leb_negative (bs ++ [b]) = (64 <=? Z_of_byte b mod 128).
Proof. induction bs as [|c [|d bs] IH]; [done|done|]. exact IH. Qed.

(** The integer at the start of a buffer: groups, and a last one. *)
Lemma leb_prefix_snoc buf bs :
  leb_prefix buf = Some bs ->
  exists bs' b, bs = bs' ++ [b] /\ Z_of_byte b < 128 /\ take (length bs) buf = bs.
Proof.
  revert bs. induction buf as [|c buf IH]; intros bs; cbn [leb_prefix]; [done|].
  destruct (Z.ltb_spec (Z_of_byte c) 128).
  - intros [= <-]. by exists [], c.
  - destruct (leb_prefix buf) as [bs0|]; [|done]. intros [= <-].
    destruct (IH bs0 eq_refl) as (bs' & b & -> & Hb & Ht). exists (c :: bs'), b.
    split; [done|]. split; [done|]. simpl. by rewrite Ht.
Qed.

Lemma leb_prefix_take n buf bs : leb_prefix (take n buf) = Some bs -> leb_prefix buf = Some bs.
Proof.
  revert n bs. induction buf as [|c buf IH]; intros n bs; [by rewrite take_nil|].
  destruct n as [|n]; [done|]. cbn [take leb_prefix]. destruct (Z_of_byte c <? 128); [done|].
  destruct (leb_prefix (take n buf)) as [bs0|] eqn:E; [|done]. by rewrite (IH _ _ E).
Qed.

(** The last byte of an integer. *)
Definition leb_last (bs : bytes) : Z := default 0 (Z_of_byte <$> last bs).

Lemma leb_last_cons b bs : bs <> [] -> leb_last (b :: bs) = leb_last bs.
Proof. unfold leb_last. by destruct bs. Qed.

Lemma leb_prefix_nonempty buf bs : leb_prefix buf = Some bs -> bs <> [].
Proof. intros (bs' & b & -> & _)%leb_prefix_snoc. by destruct bs'. Qed.

(** The sum that one more group adds. *)
Lemma group_sum r b v k :
  0 <= k -> wrap64 (wrap64 (r + Z_of_byte b mod 128 * 2 ^ (7 * k)) + v * 2 ^ (7 * (k + 1))) =
    wrap64 (r + (Z_of_byte b mod 128 + 128 * v) * 2 ^ (7 * k)).
Proof.
  intros Hk. unfold wrap64. rewrite Z.add_mod_idemp_l by lia. f_equal.
  replace (7 * (k + 1)) with (7 + 7 * k) by lia. rewrite Z.pow_add_r by lia. change (2 ^ 7) with 128. ring.
Qed.

Lemma group_range r b k :
  0 <= k -> 0 <= r < 2 ^ (7 * k) ->
  0 <= wrap64 (r + Z_of_byte b mod 128 * 2 ^ (7 * k)) < 2 ^ (7 * (k + 1)).
Proof.
  intros Hk Hr. pose proof (Z.mod_pos_bound (Z_of_byte b) 128 ltac:(lia)) as Hb.
  unfold wrap64. split; [apply Z.mod_pos_bound; lia|].
  eapply Z.le_lt_trans; [apply Z.mod_le; [nia|lia]|].
  replace (7 * (k + 1)) with (7 + 7 * k) by lia. rewrite Z.pow_add_r by lia. change (2 ^ 7) with 128. nia.
Qed.

Lemma leb_loop_spec maxbits rest k r :
  let most := (maxbits + 6) / 7 in
  most <= 10 -> 0 <= k <= most -> 0 <= r < 2 ^ (7 * k) ->
  leb_loop maxbits rest k (7 * k) r =
    match leb_prefix (take (Z.to_nat (most - k)) rest) with
    | Some bs => inr (wrap64 (r + leb_value bs * 2 ^ (7 * k)), 7 * (k + zlen bs), leb_last bs,
                      k + zlen bs)
    | None => inl (if Nat.leb (Z.to_nat (most - k)) (length rest)
                   then BH_LEB_READ_TOO_LONG else BH_LEB_READ_UNEXPECTED_END)
    end.
Proof.
  intros most Hm. revert k r. induction rest as [|b rest IH]; intros k r Hk Hr;
    cbn [leb_loop]; fold most; destruct (Z.ltb_spec most (k + 1)) as [Hlt|Hge].
  1,3: replace (Z.to_nat (most - k)) with 0%nat by lia; done.
  - replace (Z.to_nat (most - k)) with (S (Z.to_nat (most - (k + 1)))) by lia. done.
  - replace (Z.to_nat (most - k)) with (S (Z.to_nat (most - (k + 1)))) by lia.
    cbn [take leb_prefix length Nat.leb]. rewrite land_127, land_128.
    rewrite lor_group by (lia || apply Z.mod_pos_bound; lia).
    destruct (Z.ltb_spec (Z_of_byte b) 128).
    + unfold leb_last. simpl. repeat f_equal; lia.
    + replace (7 * k + 7) with (7 * (k + 1)) by lia. rewrite IH by (lia || (apply group_range; lia)).
      destruct (leb_prefix (take (Z.to_nat (most - (k + 1))) rest)) as [bs|] eqn:E; [|done].
      cbn [fmap option_fmap option_map leb_value length].
      rewrite group_sum, leb_last_cons by (lia || by eapply leb_prefix_nonempty).
      rewrite Nat2Z.inj_succ. by replace (k + Z.succ (zlen bs)) with (k + 1 + zlen bs) by lia.
Qed.

Lemma interp_leb_loop_spec rest bs k r :
  leb_prefix rest = Some bs -> 0 <= k -> k + zlen bs <= 10 -> 0 <= r < 2 ^ (7 * k) ->
  interp_leb_loop rest k (7 * k) r =
    Ret (wrap64 (r + leb_value bs * 2 ^ (7 * k)), 7 * (k + zlen bs), leb_last bs, k + zlen bs).
Proof.
  revert bs k r. induction rest as [|b rest IH]; intros bs k r Hp Hk Hl Hr; [done|].
  assert (7 * k < 64) as H64.
  { destruct bs as [|c bs]; [by apply leb_prefix_nonempty in Hp|]. simpl in Hl. lia. }
  cbn [leb_prefix interp_leb_loop] in *. rewrite land_127, land_128.
  destruct (Z.leb_spec 64 (7 * k)); [lia|].
  rewrite lor_group by (lia || apply Z.mod_pos_bound; lia).
  destruct (Z.ltb_spec (Z_of_byte b) 128).
  - injection Hp as <-. unfold leb_last. simpl. repeat f_equal; lia.
  - destruct (leb_prefix rest) as [bs0|] eqn:E; [|done]. injection Hp as <-.
    cbn [length] in Hl |- *. replace (7 * k + 7) with (7 * (k + 1)) by lia.
    rewrite (IH bs0) by (done || lia || (apply group_range; lia)). cbn [leb_value].
    rewrite group_sum, leb_last_cons by (lia || by eapply leb_prefix_nonempty).
    rewrite Nat2Z.inj_succ. by replace (k + Z.succ (zlen bs0)) with (k + 1 + zlen bs0) by lia.
Qed.

(** ** The loader *)

Lemma leb_loop_start maxbits buf :
  0 <= (maxbits + 6) / 7 <= 10 ->
  leb_loop maxbits buf 0 0 0 =
    match leb_prefix (take (Z.to_nat ((maxbits + 6) / 7)) buf) with
    | Some bs => inr (wrap64 (leb_value bs), 7 * zlen bs, leb_last bs, zlen bs)
    | None => inl (if Nat.leb (Z.to_nat ((maxbits + 6) / 7)) (length buf)
                   then BH_LEB_READ_TOO_LONG else BH_LEB_READ_UNEXPECTED_END)
    end.
Proof.
  intros Hm. change 0 with (7 * 0) at 2. rewrite leb_loop_spec by (simpl; lia).
  rewrite Z.sub_0_r. destruct (leb_prefix _) as [bs|]; [|done].
  replace (0 + leb_value bs * 2 ^ (7 * 0)) with (leb_value bs) by (change (2 ^ (7 * 0)) with 1; lia).
  by replace (0 + zlen bs) with (zlen bs) by lia.
Qed.

(** The groups of an integer with at most [n] bytes: all but the last, and the
    last. *)
Lemma leb_groups n buf bs :
  leb_prefix (take n buf) = Some bs ->
  exists bs' b, bs = bs' ++ [b] /\ 0 <= Z_of_byte b < 128 /\ leb_last bs = Z_of_byte b /\
    leb_value bs = leb_value bs' + Z_of_byte b * 2 ^ (7 * zlen bs') /\
    0 <= leb_value bs' < 2 ^ (7 * zlen bs') /\ zlen bs = zlen bs' + 1 /\ zlen bs <= Z.of_nat n /\
    leb_signed bs = leb_value bs - (if 64 <=? Z_of_byte b then 2 ^ (7 * zlen bs) else 0).
Proof.
  intros Hp. destruct (leb_prefix_snoc _ _ Hp) as (bs' & b & -> & Hb & Ht). exists bs', b.
  pose proof (Z_of_byte_range b). split; [done|]. split; [lia|].
  split; [unfold leb_last; by rewrite last_snoc|].
  rewrite leb_value_snoc, Z.mod_small by lia. split; [done|]. split; [apply leb_value_range|].
  split; [rewrite length_app; simpl; lia|]. split.
  - apply (f_equal length) in Ht. rewrite !length_take in Ht. lia.
  - unfold leb_signed. rewrite leb_value_snoc, leb_negative_snoc, Z.mod_small by lia. done.
Qed.

Lemma wrap32_wrap64 z : wrap32 (wrap64 z) = z mod 2 ^ 32.
Proof. apply Z.mod_mod_divide. by exists (2 ^ 32). Qed.

Lemma signed32_wrap z : - 2 ^ 31 <= z < 2 ^ 31 -> signed32 (wrap32 (wrap64 z)) = z.
Proof.
  intros Hz. rewrite wrap32_wrap64. unfold signed32. destruct (decide (0 <= z)).
  - rewrite Z.mod_small by lia. destruct (Z.ltb_spec z (2 ^ 31)); lia.
  - replace (z mod 2 ^ 32) with (z + 2 ^ 32) by (apply Z.mod_unique_pos with (-1); lia).
    destruct (Z.ltb_spec (z + 2 ^ 32) (2 ^ 31)); lia.
Qed.

Lemma signed64_wrap z : - 2 ^ 63 <= z < 2 ^ 63 -> signed64 (wrap64 z) = z.
Proof.
  intros Hz. unfold wrap64, signed64. destruct (decide (0 <= z)).
  - rewrite Z.mod_small by lia. destruct (Z.ltb_spec z (2 ^ 63)); lia.
  - replace (z mod 2 ^ 64) with (z + 2 ^ 64) by (apply Z.mod_unique_pos with (-1); lia).
    destruct (Z.ltb_spec (z + 2 ^ 64) (2 ^ 63)); lia.
Qed.

(** The bits above a value that is shorter than 64 bits. *)
Lemma extend_sign_value v s :
  0 <= s < 64 -> 0 <= v < 2 ^ s -> extend_sign (wrap64 v) s = wrap64 (v - 2 ^ s).
Proof.
  intros Hs Hv. assert (2 ^ s < 2 ^ 64) by (apply Z.pow_lt_mono_r; lia).
  unfold extend_sign. replace (wrap64 v) with v by (symmetry; apply Z.mod_small; lia).
  rewrite lor_group by lia. unfold wrap64.
  replace (v + (2 ^ 64 - 1) * 2 ^ s) with (v - 2 ^ s + 2 ^ s * 2 ^ 64) by ring.
  apply Z.mod_add. lia.
Qed.

(** The result of the readers, from the integer that is there. *)
Ltac leb_read_start bs :=
  unfold leb_spec; cbv zeta;
  destruct (leb_prefix _) as [bs|] eqn:Hp; [|by destruct (Nat.leb _ _)];
  destruct (leb_groups _ _ _ Hp) as (bs' & b & Hbs & Hb & Hlast & Hv & Hlow & Hlen & Hmost & Hsg).

Lemma read_leb_uint32_spec buf : read_leb_uint32 buf = leb_spec 32 leb_value 0 (2 ^ 32) buf.
Proof.
  unfold read_leb_uint32, read_leb, bh_leb_read. rewrite leb_loop_start by done.
  change ((32 + 6) / 7) with 5. leb_read_start bs. change (Z.of_nat (Z.to_nat 5)) with 5 in Hmost.
  rewrite Hlast. cbn [negb andb]. change (32 =? 32) with true. change (32 =? 64) with false. cbn [andb].
  pose proof (leb_value_range bs) as Hr.
  destruct (Z.leb_spec 32 (7 * zlen bs)) as [H5|H5].
  - assert (zlen bs' = 4) as H4 by lia. rewrite H4 in *. change (2 ^ (7 * 4)) with 268435456 in *.
    rewrite land_240. destruct (Z.leb_spec 16 (Z_of_byte b)), (Z.leb_spec 0 (leb_value bs)),
      (Z.ltb_spec (leb_value bs) (2 ^ 32)); try lia; [done|].
    cbn [cast_leb andb]. by rewrite Nat2Z.id, wrap32_wrap64, Z.mod_small by lia.
  - assert (leb_value bs < 2 ^ 28) as H28.
    { eapply Z.lt_le_trans; [apply Hr|]. apply Z.pow_le_mono_r; lia. }
    destruct (Z.leb_spec 0 (leb_value bs)), (Z.ltb_spec (leb_value bs) (2 ^ 32)); try lia.
    cbn [cast_leb andb]. by rewrite Nat2Z.id, wrap32_wrap64, Z.mod_small by lia.
Qed.

(** A value whose bits end before the width of the type is sign-extended. *)
Lemma short_signed bs b s :
  s = 7 * zlen bs -> s < 64 -> leb_signed bs = leb_value bs - (if 64 <=? Z_of_byte b then 2 ^ s else 0) ->
  Z_of_byte b < 128 ->
  (if negb (Z.land (Z_of_byte b) 64 =? 0) then extend_sign (wrap64 (leb_value bs)) s
   else wrap64 (leb_value bs)) = wrap64 (leb_signed bs).
Proof.
  intros -> Hs Hsg Hb. rewrite land_64, Z.mod_small by (pose proof (Z_of_byte_range b); lia).
  rewrite Hsg. pose proof (leb_value_range bs). destruct (64 <=? Z_of_byte b).
  - apply extend_sign_value; lia.
  - by rewrite Z.sub_0_r.
Qed.

Lemma short_signed_range bs' b v s :
  0 <= Z_of_byte b < 128 -> 0 <= leb_value bs' < 2 ^ (7 * zlen bs') ->
  v = leb_value bs' + Z_of_byte b * 2 ^ (7 * zlen bs') ->
  s = 7 * zlen bs' ->
  - 2 ^ (s + 6) <= v - (if 64 <=? Z_of_byte b then 2 ^ (s + 7) else 0) < 2 ^ (s + 6).
Proof.
  intros Hb Hl -> ->. rewrite !Z.pow_add_r by lia. change (2 ^ 6) with 64. change (2 ^ 7) with 128.
  destruct (Z.leb_spec 64 (Z_of_byte b)); nia.
Qed.

Lemma read_leb_int32_spec buf :
  read_leb_int32 buf = leb_spec 32 leb_signed (- 2 ^ 31) (2 ^ 31) buf.
Proof.
  unfold read_leb_int32, read_leb, bh_leb_read. rewrite leb_loop_start by done.
  change ((32 + 6) / 7) with 5. leb_read_start bs. change (Z.of_nat (Z.to_nat 5)) with 5 in Hmost.
  rewrite Hlast. cbn [negb andb]. change (32 =? 32) with true. cbn [andb].
  pose proof (short_signed_range bs' b _ (7 * zlen bs') Hb Hlow Hv eq_refl) as Hr.
  replace (7 * zlen bs' + 7) with (7 * zlen bs) in Hr by lia. rewrite <- Hsg in Hr.
  destruct (Z.ltb_spec (7 * zlen bs) 32) as [H5|H5].
  - rewrite (short_signed bs b _ eq_refl) by (done || lia).
    assert (2 ^ (7 * zlen bs' + 6) <= 2 ^ 31) by (apply Z.pow_le_mono_r; lia).
    destruct (Z.leb_spec (- 2 ^ 31) (leb_signed bs)), (Z.ltb_spec (leb_signed bs) (2 ^ 31)); try lia.
    cbn [cast_leb andb]. by rewrite Nat2Z.id, signed32_wrap by lia.
  - assert (zlen bs' = 4) as H4 by lia. rewrite H4 in *. assert (zlen bs = 5) as H5' by lia.
    rewrite H5' in Hsg. change (2 ^ (7 * 4)) with 268435456 in *.
    change (2 ^ (7 * 5)) with 34359738368 in *. rewrite top_bits_32.
    assert (((- 2 ^ 31 <=? leb_signed bs) && (leb_signed bs <? 2 ^ 31)) =
      ((Z_of_byte b <? 8) || ((120 <=? Z_of_byte b) && (Z_of_byte b <? 128)))) as ->.
    { destruct (Z.leb_spec 64 (Z_of_byte b)), (Z.leb_spec (- 2 ^ 31) (leb_signed bs)),
        (Z.ltb_spec (leb_signed bs) (2 ^ 31)), (Z.ltb_spec (Z_of_byte b) 8),
        (Z.leb_spec 120 (Z_of_byte b)), (Z.ltb_spec (Z_of_byte b) 128); simpl; lia. }
    destruct (_ || _) eqn:Hok; [|done]. cbn [cast_leb]. rewrite Nat2Z.id. do 3 f_equal.
    apply orb_true_iff in Hok. rewrite andb_true_iff, !Z.ltb_lt, Z.leb_le in Hok.
    assert (leb_signed bs = leb_value bs \/ leb_signed bs = leb_value bs - 34359738368) as [E|E]
      by (destruct (Z.leb_spec 64 (Z_of_byte b)); lia).
    + rewrite E. apply signed32_wrap. lia.
    + replace (wrap32 (wrap64 (leb_value bs))) with (wrap32 (wrap64 (leb_signed bs))).
      * apply signed32_wrap. lia.
      * rewrite E, !wrap32_wrap64.
        replace (leb_value bs - 34359738368) with (leb_value bs + (-8) * 2 ^ 32) by lia.
        by rewrite Z.mod_add by lia.
Qed.

Lemma read_leb_int64_spec buf :
  read_leb_int64 buf = leb_spec 64 leb_signed (- 2 ^ 63) (2 ^ 63) buf.
Proof.
  unfold read_leb_int64, read_leb, bh_leb_read. rewrite leb_loop_start by done.
  change ((64 + 6) / 7) with 10. leb_read_start bs. change (Z.of_nat (Z.to_nat 10)) with 10 in Hmost.
  rewrite Hlast. cbn [negb andb]. change (64 =? 32) with false. change (64 =? 64) with true. cbn [andb].
  pose proof (short_signed_range bs' b _ (7 * zlen bs') Hb Hlow Hv eq_refl) as Hr.
  replace (7 * zlen bs' + 7) with (7 * zlen bs) in Hr by lia. rewrite <- Hsg in Hr.
  destruct (Z.ltb_spec (7 * zlen bs) 64) as [H5|H5].
  - rewrite (short_signed bs b _ eq_refl) by (done || lia).
    assert (2 ^ (7 * zlen bs' + 6) <= 2 ^ 63) by (apply Z.pow_le_mono_r; lia).
    destruct (Z.leb_spec (- 2 ^ 63) (leb_signed bs)), (Z.ltb_spec (leb_signed bs) (2 ^ 63)); try lia.
    cbn [cast_leb andb]. by rewrite Nat2Z.id, signed64_wrap by lia.
  - assert (zlen bs' = 9) as H4 by lia. rewrite H4 in *. assert (zlen bs = 10) as H5' by lia.
    rewrite H5' in Hsg. change (2 ^ (7 * 9)) with (2 ^ 63) in *.
    change (2 ^ (7 * 10)) with (128 * 2 ^ 63) in *. rewrite top_bits_64.
    assert (((- 2 ^ 63 <=? leb_signed bs) && (leb_signed bs <? 2 ^ 63)) =
      ((Z_of_byte b =? 0) || (Z_of_byte b =? 127))) as ->.
    { destruct (Z.leb_spec 64 (Z_of_byte b)), (Z.leb_spec (- 2 ^ 63) (leb_signed bs)),
        (Z.ltb_spec (leb_signed bs) (2 ^ 63)), (Z.eqb_spec (Z_of_byte b) 0),
        (Z.eqb_spec (Z_of_byte b) 127); simpl; lia. }
    destruct (_ || _) eqn:Hok; [|done]. cbn [cast_leb]. rewrite Nat2Z.id. do 3 f_equal.
    apply orb_true_iff in Hok. rewrite !Z.eqb_eq in Hok. destruct Hok as [E|E]; rewrite E in *;
      simpl in Hsg.
    + rewrite Hsg, Z.sub_0_r. apply signed64_wrap. lia.
    + replace (wrap64 (leb_value bs)) with (wrap64 (leb_signed bs)); [apply signed64_wrap; lia|].
      unfold wrap64. replace (leb_signed bs) with (leb_value bs + (-64) * 2 ^ 64) by lia.
      by rewrite Z.mod_add by lia.
Qed.

(** ** The interpreter *)

(** The widths at which integers are read. *)
Definition leb_width (maxbits : Z) (sign : bool) : Prop :=
  (maxbits = 32 /\ sign = false) \/ (maxbits = 32 /\ sign = true) \/ (maxbits = 64 /\ sign = true).

Lemma interp_read_leb_agrees p maxbits sign res off :
  leb_width maxbits sign -> bh_leb_read p maxbits sign = BH_LEB_READ_SUCCESS res off ->
  interp_read_leb p 0 maxbits sign = Ret (res, off).
Proof.
  intros Hw. unfold bh_leb_read, interp_read_leb.
  assert (0 <= (maxbits + 6) / 7 <= 10) as Hm.
  { destruct Hw as [[-> _]|[[-> _]|[-> _]]]; vm_compute; split; congruence. }
  rewrite leb_loop_start by done. destruct (leb_prefix _) as [bs|] eqn:Hp; [|by destruct (Nat.leb _ _)].
  destruct (leb_groups _ _ _ Hp) as (_ & _ & _ & _ & _ & _ & _ & _ & Hmost & _).
  apply leb_prefix_take in Hp. change (Z.to_nat 0) with 0%nat. rewrite drop_0.
  pose proof (interp_leb_loop_spec p bs 0 0 Hp ltac:(lia) ltac:(lia) ltac:(simpl; lia)) as Hl.
  change (7 * 0) with 0 in Hl. change (2 ^ 0) with 1 in Hl. rewrite Z.mul_1_r, !Z.add_0_l in Hl.
  rewrite Hl. destruct Hw as [[-> ->]|[[-> ->]|[-> ->]]]; simpl.
  - destruct (32 <=? 7 * zlen bs); [|by intros [= -> ->]].
    destruct (negb _); [done|]. by intros [= -> ->].
  - destruct (7 * zlen bs <? 32); simpl; [by intros [= -> ->]|].
    destruct (top_bits_ok _ _ _ _); [|done]. by intros [= -> ->].
  - destruct (7 * zlen bs <? 64); simpl; [by intros [= -> ->]|].
    destruct (top_bits_ok _ _ _ _); [|done]. by intros [= -> ->].
Qed.

(** The macro agrees when its short cut does. *)
Lemma interp_read_agrees maxbits sign single cast p v rest :
  leb_width maxbits sign ->
  (forall b rest, Z_of_byte b < 128 ->
    cast_leb cast (read_leb (b :: rest) maxbits sign) = inr (single (Z_of_byte b), rest)) ->
  cast_leb cast (read_leb p maxbits sign) = inr (v, rest) ->
  interp_read maxbits sign single cast p = Ret (v, rest).
Proof.
  intros Hw Hsingle Hread. destruct p as [|b p]; cbn [interp_read].
  - unfold read_leb, bh_leb_read in Hread. rewrite leb_loop_start in Hread.
    + by destruct Hw as [[-> ->]|[[-> ->]|[-> ->]]].
    + destruct Hw as [[-> ->]|[[-> ->]|[-> ->]]]; vm_compute; split; congruence.
  - rewrite land_128. destruct (Z.ltb_spec (Z_of_byte b) 128) as [Hb|Hb].
    + rewrite Hsingle in Hread by done. by injection Hread as <- <-.
    + unfold read_leb in Hread.
      destruct (bh_leb_read (b :: p) maxbits sign) as [res off| | |] eqn:E; try done.
      rewrite (interp_read_leb_agrees _ _ _ _ _ Hw E). by injection Hread as <- <-.
Qed.

Lemma single_uint32 b rest : Z_of_byte b < 128 -> read_leb_uint32 (b :: rest) = inr (Z_of_byte b, rest).
Proof. destruct b; intros Hb; (reflexivity || (vm_compute in Hb; congruence)). Qed.

Lemma single_int32 b rest :
  Z_of_byte b < 128 ->
  read_leb_int32 (b :: rest) = inr (signed32 (if negb (Z.land (Z_of_byte b) 64 =? 0)
    then Z.lor (Z_of_byte b) 0xFFFFFF80 else Z_of_byte b), rest).
Proof. destruct b; intros Hb; (reflexivity || (vm_compute in Hb; congruence)). Qed.

Lemma single_int64 b rest :
  Z_of_byte b < 128 ->
  read_leb_int64 (b :: rest) = inr (signed64 (if negb (Z.land (Z_of_byte b) 64 =? 0)
    then Z.lor (Z_of_byte b) 0xFFFFFFFFFFFFFF80 else Z_of_byte b), rest).
Proof. destruct b; intros Hb; (reflexivity || (vm_compute in Hb; congruence)). Qed.

(** ** Encoding *)

(** The shortest encoding of an unsigned number below [2 ^ (7 * n)]. *)
Fixpoint uleb_encode (n : nat) (z : Z) : bytes :=
  match n with
  | O => []
  | S n => if z <? 128 then [byte_of_Z z] else byte_of_Z (z mod 128 + 128) :: uleb_encode n (z / 128)
  end.

(** The shortest encoding of a signed one. *)
Fixpoint sleb_encode (n : nat) (z : Z) : bytes :=
  match n with
  | O => []
  | S n =>
      if (-64 <=? z) && (z <? 64) then [byte_of_Z (z mod 128)]
      else byte_of_Z (z mod 128 + 128) :: sleb_encode n (z / 128)
  end.

Lemma uleb_encode_prefix n z rest m :
  (0 < n)%nat -> 0 <= z < 2 ^ (7 * Z.of_nat n) -> (n <= m)%nat ->
  leb_prefix (take m (uleb_encode n z ++ rest)) = Some (uleb_encode n z) /\
  leb_value (uleb_encode n z) = z.
Proof.
  revert z m. induction n as [|n IH]; intros z m Hn Hz Hm; [lia|].
  destruct m as [|m]; [lia|]. cbn [uleb_encode].
  destruct (Z.ltb_spec z 128) as [Hs|Hs]; cbn [app take leb_prefix leb_value];
    rewrite Z_of_byte_of_Z.
  - rewrite (Z.mod_small z 256) by lia. destruct (Z.ltb_spec z 128); [|lia].
    split; [done|]. rewrite Z.mod_small by lia. lia.
  - destruct n as [|n]; [change (2 ^ _) with 128 in Hz; lia|].
    replace (7 * Z.of_nat (S (S n))) with (7 + 7 * Z.of_nat (S n)) in Hz by lia.
    rewrite Z.pow_add_r in Hz by lia. change (2 ^ 7) with 128 in Hz.
    pose proof (Z.mod_pos_bound z 128 ltac:(lia)). pose proof (Z.div_mod z 128 ltac:(lia)).
    rewrite (Z.mod_small _ 256) by lia.
    destruct (Z.ltb_spec (z mod 128 + 128) 128); [lia|].
    destruct (IH (z / 128) m) as [-> ->]; [lia| |lia|].
    { split; [apply Z.div_pos; lia|apply Z.div_lt_upper_bound; lia]. }
    split; [done|]. replace (z mod 128 + 128) with (z mod 128 + 1 * 128) by lia.
    rewrite Z.mod_add, Z.mod_mod by lia. lia.
Qed.

Lemma leb_signed_cons b bs :
  bs <> [] -> leb_signed (b :: bs) = Z_of_byte b mod 128 + 128 * leb_signed bs.
Proof.
  intros Hne. unfold leb_signed. destruct bs as [|c bs]; [done|].
  change (leb_negative (b :: c :: bs)) with (leb_negative (c :: bs)).
  change (leb_value (b :: c :: bs)) with (Z_of_byte b mod 128 + 128 * leb_value (c :: bs)).
  change (length (b :: c :: bs)) with (S (length (c :: bs))). rewrite Nat2Z.inj_succ.
  replace (7 * Z.succ (zlen (c :: bs))) with (7 + 7 * zlen (c :: bs)) by lia.
  rewrite Z.pow_add_r by lia. change (2 ^ 7) with 128. destruct (leb_negative (c :: bs)); ring.
Qed.

Lemma sleb_encode_prefix n z rest m :
  (0 < n)%nat -> - 2 ^ (7 * Z.of_nat n - 1) <= z < 2 ^ (7 * Z.of_nat n - 1) -> (n <= m)%nat ->
  leb_prefix (take m (sleb_encode n z ++ rest)) = Some (sleb_encode n z) /\
  leb_signed (sleb_encode n z) = z.
Proof.
  revert z m. induction n as [|n IH]; intros z m Hn Hz Hm; [lia|].
  destruct m as [|m]; [lia|]. cbn [sleb_encode].
  pose proof (Z.mod_pos_bound z 128 ltac:(lia)) as Hmod. pose proof (Z.div_mod z 128 ltac:(lia)) as Hdiv.
  destruct ((-64 <=? z) && (z <? 64)) eqn:Hs.
  - apply andb_true_iff in Hs as [H1%Z.leb_le H2%Z.ltb_lt]. cbn [app take leb_prefix].
    rewrite Z_of_byte_of_Z, (Z.mod_small _ 256) by lia. destruct (Z.ltb_spec (z mod 128) 128); [|lia].
    split; [done|]. unfold leb_signed. cbn [leb_value leb_negative length].
    rewrite Z_of_byte_of_Z, (Z.mod_small _ 256), Z.mod_mod by lia. change (2 ^ _) with 128.
    destruct (Z.leb_spec 64 (z mod 128)); lia.
  - cbn [app take leb_prefix]. rewrite Z_of_byte_of_Z, (Z.mod_small _ 256) by lia.
    destruct (Z.ltb_spec (z mod 128 + 128) 128); [lia|].
    destruct n as [|n].
    { exfalso. change (2 ^ _) with 64 in Hz. apply andb_false_iff in Hs.
      rewrite Z.leb_gt, Z.ltb_ge in Hs. lia. }
    replace (7 * Z.of_nat (S (S n)) - 1) with (7 + (7 * Z.of_nat (S n) - 1)) in Hz by lia.
    rewrite Z.pow_add_r in Hz by lia. change (2 ^ 7) with 128 in Hz.
    destruct (IH (z / 128) m) as [Hp Hv]; [lia| |lia|].
    { split; [apply Z.div_le_lower_bound|apply Z.div_lt_upper_bound]; lia. }
    rewrite Hp. split; [done|].
    rewrite leb_signed_cons by (by eapply leb_prefix_nonempty). rewrite Hv, Z_of_byte_of_Z.
    rewrite (Z.mod_small _ 256) by lia. replace (z mod 128 + 128) with (z mod 128 + 1 * 128) by lia.
    rewrite Z.mod_add, Z.mod_mod by lia. lia.
Qed.

(** ** Theorems *)

(** C30: The loader accepts exactly the integers of the format, for each width:
    it returns the value that the groups denote and the buffer behind them if
    there are at most ceil(n/7) bytes and the value is in range, and otherwise
    the error for an integer that is too long, too large or cut off. *)
Theorem loader_leb_exact p :
  read_leb_uint32 p = leb_spec 32 leb_value 0 (2 ^ 32) p /\
  read_leb_int32 p = leb_spec 32 leb_signed (- 2 ^ 31) (2 ^ 31) p /\
  read_leb_int64 p = leb_spec 64 leb_signed (- 2 ^ 63) (2 ^ 63) p.
Proof.
  split; [apply read_leb_uint32_spec|]. split; [apply read_leb_int32_spec|apply read_leb_int64_spec].
Qed.

(** C31: The interpreter reads integers again without looking at the end of the
    code. Where the loader accepted one, this stays inside of the buffer, is
    free of undefined behaviour, and gives the same value and position. *)
Theorem interpreter_leb_agrees p v rest :
  (read_leb_uint32 p = inr (v, rest) -> interp_read_leb_uint32 p = Ret (v, rest)) /\
  (read_leb_int32 p = inr (v, rest) -> interp_read_leb_int32 p = Ret (v, rest)) /\
  (read_leb_int64 p = inr (v, rest) -> interp_read_leb_int64 p = Ret (v, rest)).
Proof.
  split; [|split]; apply interp_read_agrees; try (unfold leb_width; tauto).
  - exact single_uint32.
  - exact single_int32.
  - exact single_int64.
Qed.

(** C32: Every integer of the range has an encoding of at most ceil(n/7) bytes,
    and reading it gives the integer back, whatever follows. *)
Theorem leb_round_trip rest :
  (forall z, 0 <= z < 2 ^ 32 -> read_leb_uint32 (uleb_encode 5 z ++ rest) = inr (z, rest)) /\
  (forall z, - 2 ^ 31 <= z < 2 ^ 31 -> read_leb_int32 (sleb_encode 5 z ++ rest) = inr (z, rest)) /\
  (forall z, - 2 ^ 63 <= z < 2 ^ 63 -> read_leb_int64 (sleb_encode 10 z ++ rest) = inr (z, rest)).
Proof.
  split; [|split]; intros z Hz.
  - rewrite read_leb_uint32_spec. unfold leb_spec.
    destruct (uleb_encode_prefix 5 z rest (Z.to_nat ((32 + 6) / 7))) as [-> ->];
      [lia|simpl; lia|vm_compute; lia|]. rewrite drop_app_length.
    by destruct (Z.leb_spec 0 z), (Z.ltb_spec z (2 ^ 32)); [|lia..].
  - rewrite read_leb_int32_spec. unfold leb_spec.
    destruct (sleb_encode_prefix 5 z rest (Z.to_nat ((32 + 6) / 7))) as [-> ->];
      [lia|simpl; lia|vm_compute; lia|]. rewrite drop_app_length.
    by destruct (Z.leb_spec (- 2 ^ 31) z), (Z.ltb_spec z (2 ^ 31)); [|lia..].
  - rewrite read_leb_int64_spec. unfold leb_spec.
    destruct (sleb_encode_prefix 10 z rest (Z.to_nat ((64 + 6) / 7))) as [-> ->];
      [lia|simpl; lia|vm_compute; lia|]. rewrite drop_app_length.
    by destruct (Z.leb_spec (- 2 ^ 63) z), (Z.ltb_spec z (2 ^ 63)); [|lia..].
Qed.

(** Unsigned integers of 64 bits are not checked: [2 ^ 64] is read as 0. *)
Example leb_uint64_unchecked :
  let p := replicate 9 Byte.x80 ++ [Byte.x02] in
  leb_value p = 2 ^ 64 /\ bh_leb_read p 64 false = BH_LEB_READ_SUCCESS 0 10.
Proof. by vm_compute. Qed.

(** ** Instances *)

Lemma interpreter_leb_agrees_witness :
  interp_read_leb_int32 [Byte.xc0; Byte.xbb; Byte.x78; Byte.x0b] = Ret (-123456, [Byte.x0b]).
Proof.
  refine (proj1 (proj2 (interpreter_leb_agrees _ _ _)) _). vm_compute. reflexivity.
Defined.

Lemma leb_round_trip_witness :
  read_leb_int32 (sleb_encode 5 (-123456) ++ [Byte.x0b]) = inr (-123456, [Byte.x0b]).
Proof. apply (proj1 (proj2 (leb_round_trip [Byte.x0b])) (-123456)). lia. Defined.
