(* ===== verification/Vector.v ===== *)
(** * Vectors of the runtime

    [core/shared/utils/bh_vector.c]: a growing array of elements of one size.
    The block of the elements is the list of its bytes (empty for NULL). Locks
    do nothing on this platform; only the allocation of one is kept.
    [BH_MALLOC] may fail: whether a block of [n] bytes can be had is an argument
    of the functions. An element buffer is NULL or at least one element long. *)

From S2P Require Import Prelude Leb.

Record Vector := MkVector {
  max_elems : Z;
  data : bytes;
  num_elems : Z;
  size_elem : Z
}.

Definition UINT32_MAX : Z := 2 ^ 32 - 1.
Definition sizeof_korp_mutex : Z := 8.

Definition set_data (d : bytes) (v : Vector) : Vector :=
  MkVector (max_elems v) d (num_elems v) (size_elem v).
Definition set_num_elems (n : Z) (v : Vector) : Vector :=
  MkVector (max_elems v) (data v) n (size_elem v).

(** [bh_memcpy_s] from [src] to [dest + off]: a copy that does not fit clears
    the destination. *)
Definition b_memcpy_s (dest : bytes) (off : nat) (s1max : Z) (src : bytes) (n : Z) : bytes :=
  if n =? 0 then dest else
  if s1max <? n then splice off (zeros (Z.to_nat s1max)) dest else
  splice off (take (Z.to_nat n) src) dest.

Section vector.
Context (malloc : Z -> bool).

Definition alloc_vector_data (length size_elem : Z) : option bytes :=
  let total_size := wrap64 (size_elem * length) in
  if (UINT32_MAX <? length) || (UINT32_MAX <? size_elem) || (UINT32_MAX <? total_size) then None else
  if malloc (wrap32 total_size) then Some (zeros (Z.to_nat (wrap32 total_size))) else None.

Definition extend_vector (vector : Vector) (length : Z) : bool * Vector :=
  if length <=? max_elems vector then (true, vector) else
  let length := if length <? max_elems vector * 3 / 2 then max_elems vector * 3 / 2 else length in
  match alloc_vector_data length (size_elem vector) with
  | None => (false, vector)
  | Some d =>
      let d := b_memcpy_s d 0 (wrap32 (size_elem vector * length)) (data vector)
                 (wrap32 (size_elem vector * max_elems vector)) in
      (true, MkVector length d (num_elems vector) (size_elem vector))
  end.

Definition bh_vector_destroy (vector : option Vector) : bool * option Vector :=
  match vector with
  | None => (false, None)
  | Some _ => (true, Some (MkVector 0 [] 0 0))
  end.

Definition bh_vector_init (vector : option Vector) (init_length size_elem : Z) (use_lock : bool)
    : bool * option Vector :=
  match vector with
  | None => (false, None)
  | Some v =>
      let init_length := if init_length =? 0 then 4 else init_length in
      match alloc_vector_data init_length size_elem with
      | None => (false, Some (set_data [] v))
      | Some d =>
          let v := MkVector init_length d 0 size_elem in
          if use_lock && negb (malloc sizeof_korp_mutex) then
            (false, snd (bh_vector_destroy (Some v)))
          else (true, Some v)
      end
  end.

(** The bytes of an element, from the address of the element. *)
Definition elem_at (v : Vector) (off : nat) : bytes := drop off (data v).

(** Copies an element to [data + off]. *)
Definition put_elem (v : Vector) (off : nat) (src : bytes) : Vector :=
  set_data (b_memcpy_s (data v) off (wrap32 (size_elem v)) src (wrap32 (size_elem v))) v.

(** Copies an element to a buffer of the caller. *)
Definition get_elem (v : Vector) (off : nat) (buf : bytes) : bytes :=
  b_memcpy_s buf 0 (wrap32 (size_elem v)) (elem_at v off) (wrap32 (size_elem v)).

Definition bh_vector_set (vector : option Vector) (index : Z) (elem_buf : option bytes)
    : bool * option Vector :=
  match vector, elem_buf with
  | Some v, Some e =>
      if num_elems v <=? index then (false, vector) else
      (true, Some (put_elem v (Z.to_nat (size_elem v * index)) e))
  | _, _ => (false, vector)
  end.

Definition bh_vector_get (vector : option Vector) (index : Z) (elem_buf : option bytes)
    : bool * option bytes :=
  match vector, elem_buf with
  | Some v, Some e =>
      if num_elems v <=? index then (false, elem_buf) else
      (true, Some (get_elem v (Z.to_nat (size_elem v * index)) e))
  | _, _ => (false, elem_buf)
  end.

(** The loop of [bh_vector_insert] for [n] more elements: each is copied to
    the place behind it. The offset it ends with is [p]. *)
Fixpoint move_up (n : nat) (v : Vector) (p : nat) : Vector * nat :=
  match n with
  | O => (v, p)
  | S n =>
      let s := Z.to_nat (size_elem v) in
      let v := put_elem v p (elem_at v (p - s)) in
      move_up n v (p - s)
  end.

Definition bh_vector_insert (vector : option Vector) (index : Z) (elem_buf : option bytes)
    : bool * option Vector :=
  match vector, elem_buf with
  | Some v, Some e =>
      if num_elems v <=? index then (false, vector) else
      let '(ok, v) := extend_vector v (num_elems v + 1) in
      if negb ok then (false, Some v) else
      let p := Z.to_nat (size_elem v * num_elems v) in
      let '(v, p) := move_up (Z.to_nat (num_elems v - 1 - index)) v p in
      let v := put_elem v p e in
      (true, Some (set_num_elems (num_elems v + 1) v))
  | _, _ => (false, vector)
  end.

Definition bh_vector_append (vector : option Vector) (elem_buf : option bytes)
    : bool * option Vector :=
  match vector, elem_buf with
  | Some v, Some e =>
      let '(ok, v) := extend_vector v (num_elems v + 1) in
      if negb ok then (false, Some v) else
      let v := put_elem v (Z.to_nat (size_elem v * num_elems v)) e in
      (true, Some (set_num_elems (num_elems v + 1) v))
  | _, _ => (false, vector)
  end.

(** The loop of [bh_vector_remove] for [n] elements behind the one at [p]. *)
Fixpoint move_down (n : nat) (v : Vector) (p : nat) : Vector :=
  match n with
  | O => v
  | S n =>
      let s := Z.to_nat (size_elem v) in
      let v := put_elem v p (elem_at v (p + s)) in
      move_down n v (p + s)
  end.

Definition bh_vector_remove (vector : option Vector) (index : Z) (old_elem_buf : option bytes)
    : bool * option Vector * option bytes :=
  match vector with
  | None => (false, None, old_elem_buf)
  | Some v =>
      if num_elems v <=? index then (false, vector, old_elem_buf) else
      let p := Z.to_nat (size_elem v * index) in
      let old_elem_buf := get_elem v p <$> old_elem_buf in
      let v := move_down (Z.to_nat (num_elems v - 1 - index)) v p in
      (true, Some (set_num_elems (num_elems v - 1) v), old_elem_buf)
  end.

Definition bh_vector_size (vector : option Vector) : Z :=
  match vector with
  | Some v => num_elems v
  | None => 0
  end.
End vector.
