(* ===== verification/VectorSpec.v ===== *)
(** * Correctness of vectors

    A vector refines a list of elements: each operation on the bytes is the
    operation on the list, and fails only where the code says so. *)

From S2P Require Import Prelude Leb Vector.

(** ** Blocks of equal size *)

Section blocks.
Context (s : nat).
Implicit Types (bs : list bytes) (e : bytes).

Abbreviation sized bs := (Forall (fun e => length e = s) bs).

Lemma length_concat_sized bs : sized bs -> length (concat bs) = (s * length bs)%nat.
Proof. induction 1 as [|e bs He _ IH]; simpl; [lia|]. rewrite length_app, He, IH. lia. Qed.

Lemma drop_concat i bs : sized bs -> drop (s * i) (concat bs) = concat (drop i bs).
Proof.
  intros H. revert i. induction H as [|e bs He Hbs IH]; intros i; simpl; [by rewrite !drop_nil|].
  destruct i as [|i]; [by rewrite Nat.mul_0_r|]. simpl. rewrite <- IH.
  rewrite drop_app_ge by lia. f_equal. lia.
Qed.

Lemma take_concat i bs : sized bs -> take (s * i) (concat bs) = concat (take i bs).
Proof.
  intros H. revert i. induction H as [|e bs He Hbs IH]; intros i; simpl; [by rewrite !take_nil|].
  destruct i as [|i]; [by rewrite Nat.mul_0_r|]. simpl. rewrite <- IH.
  rewrite take_app_ge by lia. do 2 f_equal. lia.
Qed.

(** The bytes of the element at a position. *)
Lemma block_at i bs e : sized bs -> bs !! i = Some e -> take s (drop (s * i) (concat bs)) = e.
Proof.
  intros H Hi. rewrite drop_concat by done. rewrite (drop_S _ _ _ Hi). simpl.
  assert (length e = s) as <-; [|by rewrite take_app_length].
  rewrite Forall_lookup in H. by eapply H.
Qed.

(** A block is overwritten by another one. *)
Lemma splice_block i bs e :
  sized bs -> (i < length bs)%nat -> length e = s ->
  splice (s * i) e (concat bs) = concat (<[i := e]> bs).
Proof.
  intros H Hi He. unfold splice. rewrite He.
  replace (s * i + s)%nat with (s * S i)%nat by lia. rewrite take_concat, drop_concat by done.
  rewrite insert_take_drop by done. rewrite concat_app. done.
Qed.

Lemma sized_insert i bs e : sized bs -> length e = s -> sized (<[i := e]> bs).
Proof. intros H He. by apply Forall_insert. Qed.

Lemma zeros_blocks n : zeros (s * n) = concat (replicate n (zeros s)).
Proof.
  induction n as [|n IH]; simpl; [by rewrite Nat.mul_0_r|]. rewrite <- IH.
  unfold zeros. rewrite <- replicate_add. f_equal. lia.
Qed.

Lemma sized_zeros n : sized (replicate n (zeros s)).
Proof. apply Forall_replicate. apply length_zeros. Qed.
End blocks.

(** ** The invariant *)

(** The slots of the block, used or not. *)
Record vector_slots (v : Vector) (bs : list bytes) : Prop := {
  vs_data : data v = concat bs;
  vs_sized : Forall (fun e => length e = Z.to_nat (size_elem v)) bs;
  vs_max : zlen bs = max_elems v;
  vs_elem : 0 < size_elem v;
  vs_small : size_elem v * max_elems v <= UINT32_MAX
}.

Definition vector_holds (v : Vector) (l : list bytes) : Prop :=
  exists bs, vector_slots v bs /\ num_elems v = zlen l /\ take (length l) bs = l.

(** ** Elements *)

Lemma wrap32_small z : 0 <= z <= UINT32_MAX -> wrap32 z = z.
Proof. intros Hz. apply Z.mod_small. unfold UINT32_MAX in Hz. lia. Qed.

Section slots.
Context (v : Vector) (bs : list bytes).
Context (Hv : vector_slots v bs).
Let s := Z.to_nat (size_elem v).

Lemma offset_of i : Z.to_nat (size_elem v * Z.of_nat i) = (s * i)%nat.
Proof. unfold s. destruct Hv. lia. Qed.

Lemma size_small i : (i < length bs)%nat -> wrap32 (size_elem v) = size_elem v.
Proof.
  intros Hi. apply wrap32_small. destruct Hv. split; [lia|].
  assert (size_elem v * 1 <= size_elem v * max_elems v) by (apply Z.mul_le_mono_nonneg_l; lia). lia.
Qed.

(** An element is written: the first bytes of the source. *)
Lemma put_elem_slots i src :
  (i < length bs)%nat -> (s <= length src)%nat ->
  vector_slots (put_elem v (s * i) src) (<[i := take s src]> bs).
Proof.
  intros Hi Hs. unfold put_elem, b_memcpy_s. rewrite (size_small i Hi). fold s.
  destruct Hv as [H1 H2 H3 H4 H5]. fold s in H2.
  destruct (Z.eqb_spec (size_elem v) 0); [lia|].
  destruct (Z.ltb_spec (size_elem v) (size_elem v)); [lia|].
  assert (length (take s src) = s) as Hl by (rewrite length_take; lia).
  split; simpl; rewrite ?length_insert; try done.
  - rewrite H1. by apply splice_block.
  - by apply sized_insert.
Qed.

Lemma elem_at_slot i e : bs !! i = Some e -> take s (elem_at v (s * i)) = e.
Proof.
  intros Hi. unfold elem_at. rewrite (vs_data _ _ Hv). apply block_at; [apply (vs_sized _ _ Hv)|done].
Qed.

Lemma elem_at_long i : (i < length bs)%nat -> (s <= length (elem_at v (s * i)))%nat.
Proof.
  intros Hi. unfold elem_at. rewrite length_drop, (vs_data _ _ Hv).
  rewrite (length_concat_sized s) by apply (vs_sized _ _ Hv). nia.
Qed.

Lemma get_elem_slot i e buf :
  bs !! i = Some e -> length buf = s -> get_elem v (s * i) buf = e.
Proof.
  intros Hi Hb. unfold get_elem, b_memcpy_s.
  pose proof (lookup_lt_Some _ _ _ Hi) as Hlt. rewrite (size_small i Hlt). fold s.
  pose proof (vs_elem _ _ Hv). destruct (Z.eqb_spec (size_elem v) 0); [lia|].
  destruct (Z.ltb_spec (size_elem v) (size_elem v)); [lia|].
  rewrite (elem_at_slot i e Hi). unfold splice. simpl.
  pose proof (vs_sized _ _ Hv) as Hsz. rewrite Forall_lookup in Hsz. specialize (Hsz i e Hi).
  rewrite drop_ge by (fold s in Hsz; lia). apply app_nil_r.
Qed.
End slots.

Lemma put_elem_fields v off src :
  size_elem (put_elem v off src) = size_elem v /\ num_elems (put_elem v off src) = num_elems v /\
  max_elems (put_elem v off src) = max_elems v.
Proof. done. Qed.

(** ** Moving elements *)

(** [n] slots from [i] on, each to the next place. *)
Fixpoint slots_up (n i : nat) (bs : list bytes) : list bytes :=
  match n with
  | O => bs
  | S n => slots_up n (i - 1) (<[i := bs !!! (i - 1)%nat]> bs)
  end.

Lemma move_up_slots n i v bs :
  vector_slots v bs -> (n <= i < length bs)%nat ->
  let s := Z.to_nat (size_elem v) in
  exists v', move_up n v (s * i) = (v', (s * (i - n))%nat) /\ vector_slots v' (slots_up n i bs) /\
    size_elem v' = size_elem v /\ num_elems v' = num_elems v.
Proof.
  revert i v bs. induction n as [|n IH]; intros i v bs Hv Hi s; cbn [move_up slots_up].
  - exists v. by rewrite Nat.sub_0_r.
  - fold s. replace (s * i - s)%nat with (s * (i - 1))%nat by nia.
    destruct (lookup_lt_is_Some_2 bs (i - 1)) as [e He]; [lia|].
    pose proof (put_elem_slots v bs Hv i (elem_at v (s * (i - 1)))) as Hput. fold s in Hput.
    pose proof (elem_at_slot v bs Hv _ _ He) as Hel. fold s in Hel. rewrite Hel in Hput.
    rewrite (list_lookup_total_correct _ _ _ He).
    destruct (IH (i - 1)%nat _ _ (Hput ltac:(lia) (elem_at_long v bs Hv (i - 1)%nat ltac:(lia))))
      as (v' & Hm & Hv' & Hs' & Hn'); [rewrite length_insert; lia|].
    exists v'. split; [|done]. rewrite <- Nat.sub_add_distr in Hm. exact Hm.
Qed.

(** What the loop does to the slots. *)
Lemma slots_up_spec n i bs :
  (n <= i < length bs)%nat ->
  length (slots_up n i bs) = length bs /\
  forall j, slots_up n i bs !! j =
    if decide (i - n < j <= i)%nat then bs !! (j - 1)%nat else bs !! j.
Proof.
  revert i bs. induction n as [|n IH]; intros i bs Hi; cbn [slots_up].
  - split; [done|]. intros j. by destruct (decide _); [lia|].
  - destruct (IH (i - 1)%nat (<[i := bs !!! (i - 1)%nat]> bs)) as [Hl Hj];
      [rewrite length_insert; lia|].
    split; [by rewrite Hl, length_insert|]. intros j. rewrite Hj.
    destruct (decide (i - 1 - n < j <= i - 1)%nat), (decide (i - S n < j <= i)%nat); try lia.
    + by rewrite list_lookup_insert_ne by lia.
    + assert (j = i) as -> by lia. rewrite list_lookup_insert_eq by lia.
      symmetry. apply list_lookup_lookup_total_lt. lia.
    + by rewrite list_lookup_insert_ne by lia.
Qed.

(** [n] slots behind [i], each to the place before. *)
Fixpoint slots_down (n i : nat) (bs : list bytes) : list bytes :=
  match n with
  | O => bs
  | S n => slots_down n (i + 1) (<[i := bs !!! (i + 1)%nat]> bs)
  end.

Lemma move_down_slots n i v bs :
  vector_slots v bs -> (i + n < length bs)%nat ->
  let s := Z.to_nat (size_elem v) in
  vector_slots (move_down n v (s * i)) (slots_down n i bs) /\
  size_elem (move_down n v (s * i)) = size_elem v /\ num_elems (move_down n v (s * i)) = num_elems v.
Proof.
  revert i v bs. induction n as [|n IH]; intros i v bs Hv Hi s; cbn [move_down slots_down]; [done|].
  fold s. replace (s * i + s)%nat with (s * (i + 1))%nat by nia.
  destruct (lookup_lt_is_Some_2 bs (i + 1)) as [e He]; [lia|].
  pose proof (put_elem_slots v bs Hv i (elem_at v (s * (i + 1)))) as Hput. fold s in Hput.
  pose proof (elem_at_slot v bs Hv _ _ He) as Hel. fold s in Hel. rewrite Hel in Hput.
  rewrite (list_lookup_total_correct _ _ _ He).
  apply (IH (i + 1)%nat _ _ (Hput ltac:(lia) (elem_at_long v bs Hv (i + 1)%nat ltac:(lia)))).
  rewrite length_insert. lia.
Qed.

Lemma slots_down_spec n i bs :
  (i + n < length bs)%nat ->
  length (slots_down n i bs) = length bs /\
  forall j, slots_down n i bs !! j =
    if decide (i <= j < i + n)%nat then bs !! (j + 1)%nat else bs !! j.
Proof.
  revert i bs. induction n as [|n IH]; intros i bs Hi; cbn [slots_down].
  - split; [done|]. intros j. by destruct (decide _); [lia|].
  - destruct (IH (i + 1)%nat (<[i := bs !!! (i + 1)%nat]> bs)) as [Hl Hj];
      [rewrite length_insert; lia|].
    split; [by rewrite Hl, length_insert|]. intros j. rewrite Hj.
    destruct (decide (i + 1 <= j < i + 1 + n)%nat), (decide (i <= j < i + S n)%nat); try lia.
    + by rewrite list_lookup_insert_ne by lia.
    + assert (j = i) as -> by lia. rewrite list_lookup_insert_eq by lia.
      symmetry. apply list_lookup_lookup_total_lt. lia.
    + by rewrite list_lookup_insert_ne by lia.
Qed.

(** ** Growing *)

Section grow.
Context (malloc : Z -> bool).

(** The slots a vector grows to for [n] elements. *)
Definition grown (v : Vector) (n : Z) : Z := Z.max n (max_elems v * 3 / 2).

(** Growing is needed and the block cannot be had. *)
Definition cannot_grow (v : Vector) (n : Z) : Prop :=
  max_elems v < n /\
  (UINT32_MAX < size_elem v * grown v n \/ malloc (size_elem v * grown v n) = false).

Lemma alloc_vector_data_spec n s :
  0 < n -> 0 < s ->
  alloc_vector_data malloc n s =
    if (s * n <=? UINT32_MAX) && malloc (s * n) then Some (zeros (Z.to_nat (s * n))) else None.
Proof.
  intros Hn Hs. unfold alloc_vector_data. destruct (Z.leb_spec (s * n) UINT32_MAX) as [Hle|Hgt].
  - assert (wrap64 (s * n) = s * n) as ->.
    { apply Z.mod_small. unfold UINT32_MAX in Hle. nia. }
    rewrite wrap32_small by nia. destruct (Z.ltb_spec UINT32_MAX n); [nia|].
    destruct (Z.ltb_spec UINT32_MAX s); [nia|]. by destruct (Z.ltb_spec UINT32_MAX (s * n)); [lia|].
  - destruct (Z.ltb_spec UINT32_MAX n); [done|]. destruct (Z.ltb_spec UINT32_MAX s); [done|].
    assert (wrap64 (s * n) = s * n) as ->; [|by destruct (Z.ltb_spec UINT32_MAX (s * n)); [|lia]].
    apply Z.mod_small. unfold UINT32_MAX in *. nia.
Qed.

Lemma extend_vector_spec v bs n :
  vector_slots v bs -> 0 < n ->
  match extend_vector malloc v n with
  | (true, v') => exists bs', vector_slots v' (bs ++ bs') /\ n <= zlen (bs ++ bs') /\
      size_elem v' = size_elem v /\ num_elems v' = num_elems v
  | (false, v') => v' = v /\ cannot_grow v n
  end.
Proof.
  intros Hv Hn. pose proof Hv as [H1 H2 H3 H4 H5]. unfold extend_vector.
  destruct (Z.leb_spec n (max_elems v)) as [Hle|Hgt].
  { exists []. rewrite app_nil_r. split; [done|]. split; [lia|done]. }
  replace (if n <? max_elems v * 3 / 2 then max_elems v * 3 / 2 else n) with (grown v n)
    by (unfold grown; destruct (Z.ltb_spec n (max_elems v * 3 / 2)); lia).
  assert (n <= grown v n) as Hg by (unfold grown; lia).
  rewrite alloc_vector_data_spec by lia.
  destruct (Z.leb_spec (size_elem v * grown v n) UINT32_MAX) as [Hfit|Hbig]; simpl.
  2: { split; [done|]. split; [done|]. by left. }
  destruct (malloc _) eqn:Hm; [|by split; [done|split; [done|right]]].
  rewrite !wrap32_small by nia. set (s := Z.to_nat (size_elem v)) in *.
  exists (replicate (Z.to_nat (grown v n - max_elems v)) (zeros s)).
  assert (zlen (bs ++ replicate (Z.to_nat (grown v n - max_elems v)) (zeros s)) = grown v n) as Hlen.
  { rewrite length_app, length_replicate. lia. }
  split; [|split; [by rewrite Hlen|done]]. split; simpl; try done.
  - unfold b_memcpy_s. rewrite concat_app. rewrite <- zeros_blocks.
    assert (Z.to_nat (size_elem v * grown v n) =
      length (data v) + s * Z.to_nat (grown v n - max_elems v))%nat as Hz.
    { rewrite H1, (length_concat_sized s) by done. unfold s. nia. }
    assert (Z.to_nat (size_elem v * max_elems v) = length (data v)) as Hd.
    { rewrite H1, (length_concat_sized s) by done. unfold s. nia. }
    rewrite Hz. unfold zeros. rewrite replicate_add.
    destruct (Z.eqb_spec (size_elem v * max_elems v) 0) as [E|_].
    + rewrite E in Hd. destruct (data v); [|done]. simpl. by rewrite <- H1.
    + destruct (Z.ltb_spec (size_elem v * grown v n) (size_elem v * max_elems v)); [nia|].
      rewrite Hd, (firstn_all (data v)). unfold splice. simpl. rewrite <- H1. f_equal.
      by rewrite drop_app_length' by (by rewrite length_replicate).
  - apply Forall_app. split; [done|]. apply sized_zeros.
Qed.
End grow.

(** ** The operations *)

Section operations.
Context (malloc : Z -> bool) (v : Vector) (l : list bytes).
Context (Hv : vector_holds v l).
Let s := Z.to_nat (size_elem v).

Lemma holds_get i e buf :
  l !! i = Some e -> length buf = s -> bh_vector_get (Some v) (Z.of_nat i) (Some buf) = (true, Some e).
Proof.
  intros Hi Hb. destruct Hv as (bs & Hs & Hn & Ht). unfold bh_vector_get.
  pose proof (lookup_lt_Some _ _ _ Hi) as Hlt. destruct (Z.leb_spec (num_elems v) (Z.of_nat i)); [lia|].
  rewrite (offset_of v bs Hs). do 2 f_equal. eapply get_elem_slot; [exact Hs| |done].
  rewrite <- Ht in Hi. by apply lookup_take_Some in Hi as [Hi _].
Qed.

Lemma slot_of_length bs : take (length l) bs = l -> (length l <= length bs)%nat.
Proof. intros Ht. apply (f_equal length) in Ht. rewrite length_take in Ht. lia. Qed.

Lemma holds_set i e :
  (i < length l)%nat -> length e = s ->
  exists v', bh_vector_set (Some v) (Z.of_nat i) (Some e) = (true, Some v') /\
    vector_holds v' (<[i := e]> l).
Proof.
  intros Hi He. destruct Hv as (bs & Hs & Hn & Ht). pose proof (slot_of_length bs Ht) as Hle.
  unfold bh_vector_set. destruct (Z.leb_spec (num_elems v) (Z.of_nat i)); [lia|].
  rewrite (offset_of v bs Hs). eexists. split; [done|].
  exists (<[i := e]> bs). rewrite length_insert. split; [|split; [done|]].
  - pose proof (put_elem_slots v bs Hs i e ltac:(lia) ltac:(fold s; lia)) as Hp.
    by rewrite (take_ge e) in Hp by (fold s; lia).
  - rewrite take_insert_lt by lia. by rewrite Ht.
Qed.

(** The vector with room for one more. *)
Lemma holds_grow :
  match extend_vector malloc v (num_elems v + 1) with
  | (true, v') => exists bs, vector_slots v' bs /\ (length l < length bs)%nat /\
      take (length l) bs = l /\ size_elem v' = size_elem v /\ num_elems v' = zlen l
  | (false, v') => v' = v /\ cannot_grow malloc v (num_elems v + 1)
  end.
Proof.
  destruct Hv as (bs & Hs & Hn & Ht). pose proof (slot_of_length bs Ht) as Hle.
  pose proof (extend_vector_spec malloc v bs (num_elems v + 1) Hs ltac:(lia)) as He.
  destruct (extend_vector malloc v (num_elems v + 1)) as [[] v']; [|done].
  destruct He as (bs' & Hs' & Hlen & Hsz & Hnum). exists (bs ++ bs'). split; [done|].
  split; [lia|]. rewrite take_app_le by done. by rewrite <- Hn.
Qed.

Lemma holds_append e :
  length e = s ->
  match bh_vector_append malloc (Some v) (Some e) with
  | (true, Some v') => vector_holds v' (l ++ [e]) /\ size_elem v' = size_elem v
  | (false, v') => v' = Some v /\ cannot_grow malloc v (num_elems v + 1)
  | (true, None) => False
  end.
Proof.
  intros He. unfold bh_vector_append. pose proof holds_grow as Hg.
  destruct (extend_vector malloc v (num_elems v + 1)) as [[] v']; simpl.
  2: { by destruct Hg as [-> Hg]. }
  destruct Hg as (bs & Hs & Hlt & Ht & Hsz & Hn). split; [|done].
  rewrite Hn, (offset_of v' bs Hs). exists (<[length l := e]> bs).
  split; [|split; [rewrite length_app; simpl; lia|]].
  - pose proof (put_elem_slots v' bs Hs (length l) e Hlt) as Hp. rewrite Hsz in Hp. fold s in Hp.
    rewrite (take_ge e) in Hp by lia. rewrite Hsz. fold s. destruct (Hp ltac:(lia)). by split.
  - rewrite length_app. simpl. rewrite Nat.add_1_r.
    rewrite (take_S_r _ _ e) by (by rewrite list_lookup_insert_eq).
    rewrite take_insert_ge by lia. by rewrite Ht.
Qed.

(** An inserted element lands behind the one at the index. *)
Lemma holds_insert i e :
  (i < length l)%nat -> length e = s ->
  match bh_vector_insert malloc (Some v) (Z.of_nat i) (Some e) with
  | (true, Some v') => vector_holds v' (take (S i) l ++ e :: drop (S i) l)
  | (false, v') => v' = Some v /\ cannot_grow malloc v (num_elems v + 1)
  | (true, None) => False
  end.
Proof.
  intros Hi He. unfold bh_vector_insert. pose proof holds_grow as Hg.
  assert (num_elems v = zlen l) as Hnum by (by destruct Hv as (bs & _ & Hn & _)).
  destruct (Z.leb_spec (num_elems v) (Z.of_nat i)); [lia|].
  destruct (extend_vector malloc v (num_elems v + 1)) as [[] v1]; simpl.
  2: { by destruct Hg as [-> Hg]. }
  destruct Hg as (bs & Hs & Hlt & Ht & Hsz & Hn). rewrite Hn, (offset_of v1 bs Hs).
  replace (Z.to_nat (zlen l - 1 - Z.of_nat i)) with (length l - 1 - i)%nat by lia.
  destruct (move_up_slots (length l - 1 - i) (length l) v1 bs Hs) as (v2 & -> & Hs2 & Hsz2 & Hn2);
    [lia|].
  replace (length l - (length l - 1 - i))%nat with (S i) by lia.
  destruct (slots_up_spec (length l - 1 - i) (length l) bs) as [Hlen Hup]; [lia|].
  set (bs2 := slots_up (length l - 1 - i) (length l) bs) in *.
  pose proof (put_elem_slots v2 bs2 Hs2 (S i) e ltac:(lia)) as Hp. rewrite Hsz2, Hsz in Hp. rewrite Hsz.
  fold s in Hp |- *. rewrite (take_ge e) in Hp by lia. specialize (Hp ltac:(lia)).
  assert (length (take (S i) l ++ e :: drop (S i) l) = S (length l)) as Hlen'.
  { rewrite length_app, length_cons, length_take, length_drop. lia. }
  exists (<[S i := e]> bs2). split; [destruct Hp; by split|]. split; [simpl; lia|].
  rewrite Hlen'. apply list_eq. intros j. destruct (decide (j < S (length l))%nat) as [Hj|Hj].
  2: { rewrite lookup_take_ge by lia. symmetry. apply lookup_ge_None_2. lia. }
  rewrite lookup_take_lt by done.
  assert (forall k, (k < length l)%nat -> bs !! k = l !! k) as Hbs.
  { intros k Hk. rewrite <- (lookup_take_lt bs (length l)) by done. by rewrite Ht. }
  destruct (decide (j = S i)) as [->|Hne].
  { rewrite list_lookup_insert_eq, lookup_app_r by (rewrite ?length_take; lia).
    rewrite length_take. by replace (S i - S i `min` length l)%nat with 0%nat by lia. }
  rewrite list_lookup_insert_ne, Hup by lia. destruct (decide _) as [Hd|Hd].
  - rewrite Hbs by lia. rewrite lookup_app_r by (rewrite length_take; lia). rewrite length_take.
    replace (j - S i `min` length l)%nat with (S (j - S i - 1)) by lia. simpl.
    rewrite lookup_drop. f_equal. lia.
  - rewrite Hbs by lia. rewrite lookup_app_l by (rewrite length_take; lia). by rewrite lookup_take_lt by lia.
Qed.

Lemma holds_remove i e buf :
  l !! i = Some e -> length buf = s ->
  exists v', bh_vector_remove (Some v) (Z.of_nat i) (Some buf) = (true, Some v', Some e) /\
    vector_holds v' (delete i l).
Proof.
  intros Hi Hb. pose proof (lookup_lt_Some _ _ _ Hi) as Hlt.
  destruct Hv as (bs & Hs & Hn & Ht). pose proof (slot_of_length bs Ht) as Hle.
  unfold bh_vector_remove. destruct (Z.leb_spec (num_elems v) (Z.of_nat i)); [lia|].
  rewrite (offset_of v bs Hs). fold s.
  replace (Z.to_nat (num_elems v - 1 - Z.of_nat i)) with (length l - 1 - i)%nat by lia.
  destruct (move_down_slots (length l - 1 - i) i v bs Hs) as (Hs2 & Hsz2 & Hn2); [lia|].
  fold s in Hs2, Hsz2, Hn2.
  destruct (slots_down_spec (length l - 1 - i) i bs) as [Hlen Hdown]; [lia|].
  assert (forall k, (k < length l)%nat -> bs !! k = l !! k) as Hbs.
  { intros k Hk. rewrite <- (lookup_take_lt bs (length l)) by done. by rewrite Ht. }
  cbn [fmap option_fmap option_map].
  pose proof (get_elem_slot v bs Hs i e buf ltac:(by rewrite Hbs) Hb) as Hg. fold s in Hg. rewrite Hg.
  eexists. split; [done|]. exists (slots_down (length l - 1 - i) i bs).
  pose proof (length_delete l i ltac:(by eexists)) as Hdl.
  split; [destruct Hs2; by split|]. split; [simpl; lia|]. rewrite Hdl. apply list_eq. intros j.
  destruct (decide (j < length l - 1)%nat) as [Hj|Hj].
  2: { rewrite lookup_take_ge by lia. symmetry. apply lookup_ge_None_2. lia. }
  rewrite lookup_take_lt, Hdown by done. destruct (decide _) as [Hd|Hd].
  - rewrite list_lookup_delete_ge by lia. rewrite Hbs by lia. f_equal. lia.
  - rewrite list_lookup_delete_lt by lia. rewrite Hbs by lia. done.
Qed.
End operations.

(** ** Theorems *)

Lemma holds_init malloc v n s :
  0 < s -> 0 <= n -> let n' := if n =? 0 then 4 else n in
  s * n' <= UINT32_MAX -> malloc (s * n') = true ->
  exists v', bh_vector_init malloc (Some v) n s false = (true, Some v') /\
    vector_holds v' [] /\ size_elem v' = s.
Proof.
  intros Hs Hn n' Hfit Hm. unfold bh_vector_init. fold n'.
  assert (0 < n') by (unfold n'; destruct (Z.eqb_spec n 0); lia).
  rewrite alloc_vector_data_spec by done. destruct (Z.leb_spec (s * n') UINT32_MAX); [|lia].
  rewrite Hm. simpl. eexists. split; [done|]. split; [|done].
  exists (replicate (Z.to_nat n') (zeros (Z.to_nat s))). split; [|done]. split; simpl; try done.
  - rewrite <- zeros_blocks. f_equal. lia.
  - apply sized_zeros.
  - rewrite length_replicate. lia.
Qed.

(** C33: A vector refines a list, from the empty one that [bh_vector_init] makes:
    [bh_vector_append] adds at the end or, when the block cannot grow, changes
    nothing; [bh_vector_get], [bh_vector_set] and [bh_vector_remove] read,
    replace and delete the element at the index, and refuse any other index. *)
Theorem vector_refines_list malloc v l i e buf :
  vector_holds v l -> length e = Z.to_nat (size_elem v) -> length buf = Z.to_nat (size_elem v) ->
  match bh_vector_append malloc (Some v) (Some e) with
  | (true, Some v') => vector_holds v' (l ++ [e])
  | (false, v') => v' = Some v /\ cannot_grow malloc v (num_elems v + 1)
  | (true, None) => False
  end /\
  match l !! i with
  | Some x =>
      bh_vector_get (Some v) (Z.of_nat i) (Some buf) = (true, Some x) /\
      (exists v', bh_vector_set (Some v) (Z.of_nat i) (Some e) = (true, Some v') /\
        vector_holds v' (<[i := e]> l)) /\
      (exists v', bh_vector_remove (Some v) (Z.of_nat i) (Some buf) = (true, Some v', Some x) /\
        vector_holds v' (delete i l))
  | None =>
      bh_vector_get (Some v) (Z.of_nat i) (Some buf) = (false, Some buf) /\
      bh_vector_set (Some v) (Z.of_nat i) (Some e) = (false, Some v) /\
      bh_vector_remove (Some v) (Z.of_nat i) (Some buf) = (false, Some v, Some buf)
  end /\
  bh_vector_size (Some v) = zlen l /\
  (forall n s, 0 < s -> 0 < n -> s * n <= UINT32_MAX -> malloc (s * n) = true ->
    exists v', bh_vector_init malloc (Some v) n s false = (true, Some v') /\ vector_holds v' [] /\
      size_elem v' = s).
Proof.
  intros Hv He Hb. assert (num_elems v = zlen l) as Hn by (by destruct Hv as (bs & _ & Hn & _)).
  split; [|split; [|split; [done|]]].
  - pose proof (holds_append malloc v l Hv e He) as Ha.
    destruct (bh_vector_append malloc (Some v) (Some e)) as [[] [v'|]]; try done. by destruct Ha.
  - destruct (l !! i) as [x|] eqn:Hi.
    + pose proof (lookup_lt_Some _ _ _ Hi). split; [by apply (holds_get v l)|].
      split; [by apply holds_set|by apply holds_remove].
    + apply lookup_ge_None in Hi. unfold bh_vector_get, bh_vector_set, bh_vector_remove.
      by destruct (Z.leb_spec (num_elems v) (Z.of_nat i)); [|lia].
  - intros n s Hs Hpos Hfit Hm.
    apply holds_init; [done|lia|..]; by destruct (Z.eqb_spec n 0); [lia|].
Qed.

(** [bh_vector_insert] puts the new element behind the one at the given index
    instead of at the index; it can neither insert at the front nor into an
    empty vector. *)
Theorem vector_inserts_behind malloc v l i e :
  vector_holds v l -> length e = Z.to_nat (size_elem v) ->
  if decide (i < length l)%nat then
    match bh_vector_insert malloc (Some v) (Z.of_nat i) (Some e) with
    | (true, Some v') => vector_holds v' (take (S i) l ++ e :: drop (S i) l)
    | (false, v') => v' = Some v /\ cannot_grow malloc v (num_elems v + 1)
    | (true, None) => False
    end
  else bh_vector_insert malloc (Some v) (Z.of_nat i) (Some e) = (false, Some v).
Proof.
  intros Hv He. destruct (decide _) as [Hi|Hi]; [by apply holds_insert|].
  assert (num_elems v = zlen l) as Hn by (by destruct Hv as (bs & _ & Hn & _)).
  unfold bh_vector_insert. by destruct (Z.leb_spec (num_elems v) (Z.of_nat i)); [|lia].
Qed.

(** ** Instances *)

Definition always (_ : Z) : bool := true.
Definition vector0 : Vector := MkVector 2 [Byte.x01; Byte.x02; Byte.x03; Byte.x04] 2 2.

Lemma vector0_holds : vector_holds vector0 [[Byte.x01; Byte.x02]; [Byte.x03; Byte.x04]].
Proof.
  exists [[Byte.x01; Byte.x02]; [Byte.x03; Byte.x04]]. split; [|done].
  split; simpl; try done; repeat constructor.
Qed.

Lemma vector_refines_list_witness :
  match bh_vector_append always (Some vector0) (Some [Byte.x05; Byte.x06]) with
  | (true, Some v') =>
      vector_holds v' ([[Byte.x01; Byte.x02]; [Byte.x03; Byte.x04]] ++ [[Byte.x05; Byte.x06]])
  | (false, v') => v' = Some vector0 /\ cannot_grow always vector0 (num_elems vector0 + 1)
  | (true, None) => False
  end.
Proof.
  exact (proj1 (vector_refines_list always vector0 _ 0 [Byte.x05; Byte.x06] [Byte.x00; Byte.x00]
    vector0_holds eq_refl eq_refl)).
Defined.

Lemma vector_inserts_behind_witness :
  match bh_vector_insert always (Some vector0) 0 (Some [Byte.x05; Byte.x06]) with
  | (true, Some v') =>
      vector_holds v' [[Byte.x01; Byte.x02]; [Byte.x05; Byte.x06]; [Byte.x03; Byte.x04]]
  | (false, v') => v' = Some vector0 /\ cannot_grow always vector0 (num_elems vector0 + 1)
  | (true, None) => False
  end.
Proof.
  exact (vector_inserts_behind always vector0 _ 0 [Byte.x05; Byte.x06] vector0_holds eq_refl).
Defined.
