(* ===== verification/HashMap.v ===== *)
(** * Hash maps of the runtime

    [core/shared/utils/bh_hashmap.c]: an array of chained elements, with the
    hash, the comparison and the destruction of keys given by the caller. The
    chain of an index is a list, newest element first. Locks do nothing on
    this platform. [BH_MALLOC] may fail: whether it does is an argument of the
    functions that call it. *)

From S2P Require Import Prelude.

Definition HASH_MAP_MIN_SIZE : Z := 4.
Definition HASH_MAP_MAX_SIZE : Z := 65536.

Section hash_map.
Context {K V : Type}.

Record HashMap := MkHashMap {
  hm_size : Z;
  hash_func : K -> Z;
  key_equal_func : K -> K -> bool;
  elements : list (list (K * V))
}.

Definition set_elements (l : list (list (K * V))) (map : HashMap) : HashMap :=
  MkHashMap (hm_size map) (hash_func map) (key_equal_func map) l.

(** [None] is NULL: the size is too large, a function is missing, or there is
    no memory. *)
Definition bh_hash_map_create (malloc : bool) (size : Z) (hash : option (K -> Z))
    (equal : option (K -> K -> bool)) : option HashMap :=
  let size := if size <? HASH_MAP_MIN_SIZE then HASH_MAP_MIN_SIZE else size in
  if HASH_MAP_MAX_SIZE <? size then None else
  match hash, equal with
  | Some hash, Some equal =>
      if malloc then Some (MkHashMap size hash equal (replicate (Z.to_nat size) [])) else None
  | _, _ => None
  end.

Definition index_of (map : HashMap) (key : K) : nat := Z.to_nat (hash_func map key mod hm_size map).

(** [map->elements[index]] *)
Definition chain (map : HashMap) (key : K) : list (K * V) := elements map !!! index_of map key.
Definition set_chain (map : HashMap) (key : K) (l : list (K * V)) : HashMap :=
  set_elements (<[index_of map key := l]> (elements map)) map.

(** The walk along a chain. *)
Fixpoint find_elem (equal : K -> K -> bool) (key : K) (elems : list (K * V)) : option (K * V) :=
  match elems with
  | [] => None
  | e :: elems => if equal (fst e) key then Some e else find_elem equal key elems
  end.

(** NULL as the map or the key is refused before anything else, here and in the
    other operations. *)
Definition bh_hash_map_insert (malloc : bool) (map : option HashMap) (key : option K) (value : V)
    : bool * option HashMap :=
  match map, key with
  | Some m, Some key =>
      match find_elem (key_equal_func m) key (chain m key) with
      | Some _ => (false, map)
      | None =>
          if malloc then (true, Some (set_chain m key ((key, value) :: chain m key)))
          else (false, map)
      end
  | _, _ => (false, map)
  end.

Definition bh_hash_map_find (map : option HashMap) (key : option K) : option V :=
  match map, key with
  | Some m, Some key => snd <$> find_elem (key_equal_func m) key (chain m key)
  | _, _ => None
  end.

(** The first element with the key gets the value. *)
Fixpoint update_elem (equal : K -> K -> bool) (key : K) (value : V) (elems : list (K * V))
    : list (K * V) :=
  match elems with
  | [] => []
  | e :: elems =>
      if equal (fst e) key then (fst e, value) :: elems else e :: update_elem equal key value elems
  end.

(** The last component is [*p_old_value]. *)
Definition bh_hash_map_update (map : option HashMap) (key : option K) (value : V)
    : bool * option HashMap * option V :=
  match map, key with
  | Some m, Some key =>
      match find_elem (key_equal_func m) key (chain m key) with
      | Some e =>
          (true, Some (set_chain m key (update_elem (key_equal_func m) key value (chain m key))),
           Some (snd e))
      | None => (false, map, None)
      end
  | _, _ => (false, map, None)
  end.

(** The first element with the key is unlinked. *)
Fixpoint remove_elem (equal : K -> K -> bool) (key : K) (elems : list (K * V)) : list (K * V) :=
  match elems with
  | [] => []
  | e :: elems => if equal (fst e) key then elems else e :: remove_elem equal key elems
  end.

(** The last component is [*p_old_key] and [*p_old_value]. *)
Definition bh_hash_map_remove (map : option HashMap) (key : option K)
    : bool * option HashMap * option (K * V) :=
  match map, key with
  | Some m, Some key =>
      match find_elem (key_equal_func m) key (chain m key) with
      | Some e => (true, Some (set_chain m key (remove_elem (key_equal_func m) key (chain m key))),
                   Some e)
      | None => (false, map, None)
      end
  | _, _ => (false, map, None)
  end.

(** The elements on which the destructors are called, in this order. *)
Definition bh_hash_map_destroy (map : option HashMap) : bool * list (K * V) :=
  match map with
  | Some m => (true, concat (elements m))
  | None => (false, [])
  end.

(** The loops over the array and over each chain; the callback updates the data
    of its user. *)
Definition bh_hash_map_traverse {A} (map : option HashMap) (callback : option (K -> V -> A -> A))
    (user_data : A) : bool * A :=
  match map, callback with
  | Some m, Some f =>
      (true, foldl (foldl (fun d e => f (fst e) (snd e) d)) user_data (elements m))
  | _, _ => (false, user_data)
  end.
End hash_map.

Arguments HashMap : clear implicits.
