(* ===== verification/HashMapSpec.v ===== *)
(** * Correctness of hash maps

    A hash map refines a finite map on the classes of equal keys, whatever the
    hash function does, as long as equal keys have equal hashes. *)

From S2P Require Import Prelude HashMap.

(** What the functions of the caller must satisfy. *)
Class LawfulKeys {K} (hash : K -> Z) (equal : K -> K -> bool) : Prop := {
  equal_refl : forall k, equal k k = true;
  equal_sym : forall k k', equal k k' = equal k' k;
  equal_trans : forall k1 k2 k3, equal k1 k2 = true -> equal k2 k3 = true -> equal k1 k3 = true;
  equal_hash : forall k k', equal k k' = true -> hash k = hash k'
}.

Lemma elem_of_concat {A} (x : A) ls : x ∈ concat ls <-> exists l, x ∈ l /\ l ∈ ls.
Proof.
  rewrite list_elem_of_In, in_concat. setoid_rewrite list_elem_of_In.
  split; intros (l & ? & ?); by exists l.
Qed.

Section spec.
Context {K V : Type}.
Implicit Types (m : HashMap K V) (l : list (K * V)).

(** Every chain holds the keys of its index, each once. *)
Record hash_map_ok m : Prop := {
  hm_keys : LawfulKeys (hash_func m) (key_equal_func m);
  hm_bounds : HASH_MAP_MIN_SIZE <= hm_size m <= HASH_MAP_MAX_SIZE;
  hm_length : zlen (elements m) = hm_size m;
  hm_index : forall i l k v, elements m !! i = Some l -> (k, v) ∈ l -> index_of m k = i;
  hm_unique : forall i l, elements m !! i = Some l ->
    forall j j' e e', l !! j = Some e -> l !! j' = Some e' ->
      key_equal_func m (fst e) (fst e') = true -> j = j'
}.

(** ** Chains *)

Section chains.
Context (hash : K -> Z) (equal : K -> K -> bool).
Context (Hkeys : LawfulKeys hash equal).

Lemma equal_left k k' k'' : equal k k' = true -> equal k k'' = equal k' k''.
Proof using Hkeys.
  intros H. destruct (equal k' k'') eqn:E.
  - by eapply equal_trans.
  - destruct (equal k k'') eqn:E'; [|done]. exfalso. rewrite equal_sym in H.
    pose proof (equal_trans _ _ _ H E'). congruence.
Qed.

Lemma equal_common k k' k'' : equal k k' = true -> equal k'' k' = true -> equal k k'' = true.
Proof using Hkeys. intros H H'. rewrite equal_sym in H'. by eapply equal_trans. Qed.

Lemma find_elem_some key l e :
  find_elem equal key l = Some e -> e ∈ l /\ equal (fst e) key = true.
Proof.
  induction l as [|[k v] l IH]; simpl; [done|]. destruct (equal k key) eqn:E.
  - intros [= <-]. split; [by left|done].
  - intros [He Hk]%IH. split; [by right|done].
Qed.

Lemma find_elem_none key l e : find_elem equal key l = None -> e ∈ l -> equal (fst e) key = false.
Proof.
  induction l as [|[k v] l IH]; simpl; [by intros _ ?%elem_of_nil|].
  destruct (equal k key) eqn:E; [done|]. intros Hn [->|He]%elem_of_cons; [done|by apply IH].
Qed.

(** Lookups in a chain that was changed. *)
Lemma find_update key value key' l :
  find_elem equal key l <> None ->
  snd <$> find_elem equal key' (update_elem equal key value l) =
    if equal key key' then Some value else snd <$> find_elem equal key' l.
Proof using Hkeys.
  induction l as [|[k v] l IH]; simpl; [done|]. destruct (equal k key) eqn:E; simpl.
  - intros _. rewrite (equal_left _ _ _ E). by destruct (equal key key').
  - intros Hf. destruct (equal k key') eqn:E'; simpl; [|by apply IH].
    destruct (equal key key') eqn:E''; [|done]. pose proof (equal_common _ _ _ E' E''). congruence.
Qed.

(** The keys of a chain are different. *)
Definition distinct l : Prop :=
  forall j j' e e', l !! j = Some e -> l !! j' = Some e' -> equal (fst e) (fst e') = true -> j = j'.

Lemma distinct_cons e l :
  distinct (e :: l) <-> (forall e', e' ∈ l -> equal (fst e) (fst e') = false) /\ distinct l.
Proof using Hkeys.
  split.
  - intros Hd. split.
    + intros e' [j Hj]%list_elem_of_lookup. destruct (equal (fst e) (fst e')) eqn:E; [|done].
      by pose proof (Hd 0%nat (S j) e e' eq_refl Hj E).
    + intros j j' x x' Hx Hx' E. by injection (Hd (S j) (S j') x x' Hx Hx' E).
  - intros [He Hd] [|j] [|j'] x x' Hx Hx' E; simpl in *; [done|..|f_equal; by eapply Hd].
    + injection Hx as ->. apply list_elem_of_lookup_2 in Hx'. by rewrite He in E.
    + injection Hx' as ->. apply list_elem_of_lookup_2 in Hx. rewrite equal_sym, He in E; done.
Qed.

Lemma remove_elem_subset key l : remove_elem equal key l ⊆ l.
Proof using.
  induction l as [|e l IH]; simpl; [done|]. destruct (equal (fst e) key); intros x Hx; [by right|].
  apply elem_of_cons in Hx as [->|Hx]; [by left|right; by apply IH].
Qed.

Lemma find_remove key key' l :
  distinct l ->
  find_elem equal key' (remove_elem equal key l) =
    if equal key key' then None else find_elem equal key' l.
Proof using Hkeys.
  induction l as [|[k v] l IH]; simpl; [by destruct (equal key key')|].
  intros [He Hd]%distinct_cons. destruct (equal k key) eqn:E; simpl in *.
  - rewrite (equal_left _ _ _ E). destruct (equal key key') eqn:E'; [|done].
    destruct (find_elem equal key' l) as [e|] eqn:Hf; [|done]. exfalso.
    apply find_elem_some in Hf as [Hin Hk]. apply He in Hin.
    assert (equal k (fst e) = true); [|congruence]. eapply equal_trans; [exact E|].
    eapply equal_trans; [exact E'|]. by rewrite equal_sym.
  - destruct (equal k key') eqn:E'; [|by apply IH].
    destruct (equal key key') eqn:E''; [|done]. pose proof (equal_common _ _ _ E' E''). congruence.
Qed.

Lemma distinct_remove key l : distinct l -> distinct (remove_elem equal key l).
Proof using Hkeys.
  induction l as [|e l IH]; simpl; [done|]. intros [He Hd]%distinct_cons.
  destruct (equal (fst e) key); [done|]. apply distinct_cons. split; [|by apply IH].
  intros e' He'. by apply He, (remove_elem_subset key).
Qed.

Lemma update_elem_keys key value l :
  fst <$> update_elem equal key value l = fst <$> l.
Proof.
  induction l as [|e l IH]; simpl; [done|]. destruct (equal (fst e) key); simpl; [done|].
  f_equal. exact IH.
Qed.

Lemma distinct_keys l l' : fst <$> l = fst <$> l' -> distinct l -> distinct l'.
Proof.
  intros Hk Hd j j' x x' Hx Hx' E.
  assert ((fst <$> l) !! j = Some (fst x)) as H1 by (by rewrite Hk, list_lookup_fmap, Hx).
  assert ((fst <$> l) !! j' = Some (fst x')) as H2 by (by rewrite Hk, list_lookup_fmap, Hx').
  rewrite list_lookup_fmap in H1, H2. destruct (l !! j) as [y|] eqn:Hy; [|done].
  destruct (l !! j') as [y'|] eqn:Hy'; [|done]. injection H1 as H1. injection H2 as H2.
  eapply Hd; [exact Hy|exact Hy'|]. by rewrite H1, H2.
Qed.
End chains.

(** ** Operations *)

Section operations.
Context m (Hm : hash_map_ok m).
#[local] Instance keys_of_map : LawfulKeys (hash_func m) (key_equal_func m) := hm_keys m Hm.

Lemma index_bound key : (index_of m key < length (elements m))%nat.
Proof using Hm.
  destruct Hm as [_ Hb Hl _ _]. unfold index_of, HASH_MAP_MIN_SIZE in *.
  pose proof (Z.mod_pos_bound (hash_func m key) (hm_size m)). lia.
Qed.

Lemma chain_lookup key : elements m !! index_of m key = Some (chain m key).
Proof using Hm. apply list_lookup_lookup_total_lt, index_bound. Qed.

Lemma index_equal k k' : key_equal_func m k k' = true -> index_of m k = index_of m k'.
Proof using Hm. intros E. unfold index_of. by rewrite (equal_hash _ _ E). Qed.

(** The chains after one of them was replaced. *)
Lemma chain_set key l key' :
  chain (set_chain m key l) key' =
    if decide (index_of m key' = index_of m key) then l else chain m key'.
Proof using Hm.
  unfold chain, set_chain, set_elements, index_of. simpl. fold (index_of m key) (index_of m key').
  destruct (decide _) as [->|Hne].
  - apply list_lookup_total_insert_eq, index_bound.
  - by apply list_lookup_total_insert_ne.
Qed.

Lemma set_chain_ok key l :
  (forall e, e ∈ l -> index_of m (fst e) = index_of m key) -> distinct (key_equal_func m) l ->
  hash_map_ok (set_chain m key l).
Proof using Hm.
  intros Hi Hd. pose proof Hm as [H1 H2 H3 H4 H5]. split; simpl; try done.
  - by rewrite length_insert.
  - intros i l' k v Hl Hk. change (index_of (set_chain m key l) k) with (index_of m k).
    apply list_lookup_insert_Some in Hl as [(<- & <- & _)|[_ Hl]]; [by apply (Hi (k, v))|by eapply H4].
  - intros i l' Hl. apply list_lookup_insert_Some in Hl as [(<- & <- & _)|[_ Hl]]; [done|].
    by eapply H5.
Qed.

Lemma chain_index key e : e ∈ chain m key -> index_of m (fst e) = index_of m key.
Proof using Hm. destruct e as [k v]. intros He. eapply hm_index; [done|apply chain_lookup|done]. Qed.

Lemma chain_distinct key : distinct (key_equal_func m) (chain m key).
Proof using Hm. exact (hm_unique m Hm _ _ (chain_lookup key)). Qed.

(** Lookups after a change to the chain of [key]. *)
Lemma find_set key l key' :
  bh_hash_map_find (Some (set_chain m key l)) (Some key') =
    if decide (index_of m key' = index_of m key) then snd <$> find_elem (key_equal_func m) key' l
    else bh_hash_map_find (Some m) (Some key').
Proof using Hm. simpl. rewrite chain_set. by destruct (decide _). Qed.

Lemma insert_spec key v :
  bh_hash_map_find (Some m) (Some key) = None ->
  exists m', bh_hash_map_insert true (Some m) (Some key) v = (true, Some m') /\ hash_map_ok m' /\
    forall key', bh_hash_map_find (Some m') (Some key') =
      if key_equal_func m key key' then Some v else bh_hash_map_find (Some m) (Some key').
Proof using Hm.
  intros Hf. simpl in Hf. unfold bh_hash_map_insert.
  destruct (find_elem _ key (chain m key)) as [e|] eqn:Hfind; [done|].
  eexists. split; [done|]. split.
  - apply set_chain_ok.
    + intros e [->|He]%elem_of_cons; [done|by apply chain_index].
    + eapply distinct_cons; [apply keys_of_map|]. split; [|apply chain_distinct]. intros e He.
      rewrite equal_sym. by eapply find_elem_none.
  - intros key'. rewrite find_set. destruct (decide _) as [Hi|Hi]; cbn [find_elem fst].
    + destruct (key_equal_func m key key'); [done|]. simpl. unfold chain. by rewrite Hi.
    + destruct (key_equal_func m key key') eqn:E; [|done]. by apply index_equal in E.
Qed.

Lemma update_spec key v old :
  bh_hash_map_find (Some m) (Some key) = Some old ->
  exists m', bh_hash_map_update (Some m) (Some key) v = (true, Some m', Some old) /\
    hash_map_ok m' /\
    forall key', bh_hash_map_find (Some m') (Some key') =
      if key_equal_func m key key' then Some v else bh_hash_map_find (Some m) (Some key').
Proof using Hm.
  intros Hf. simpl in Hf. unfold bh_hash_map_update.
  destruct (find_elem _ key (chain m key)) as [e|] eqn:Hfind; [|done]. injection Hf as Hf. rewrite Hf.
  eexists. split; [done|].
  pose proof (update_elem_keys (key_equal_func m) key v (chain m key)) as Hkeys. split.
  - apply set_chain_ok.
    + intros e' He'. assert (fst e' ∈ fst <$> chain m key) as Hin.
      { rewrite <- Hkeys. by apply list_elem_of_fmap_2. }
      apply list_elem_of_fmap in Hin as (e2 & -> & Hin). by apply chain_index.
    + eapply distinct_keys; [symmetry; exact Hkeys|apply chain_distinct].
  - intros key'. rewrite find_set. destruct (decide _) as [Hi|Hi].
    + erewrite find_update; [|apply keys_of_map|congruence].
      destruct (key_equal_func m key key'); [done|]. simpl. unfold chain. by rewrite Hi.
    + destruct (key_equal_func m key key') eqn:E; [|done]. by apply index_equal in E.
Qed.

Lemma remove_spec key old :
  bh_hash_map_find (Some m) (Some key) = Some old ->
  exists m' k, bh_hash_map_remove (Some m) (Some key) = (true, Some m', Some (k, old)) /\
    key_equal_func m k key = true /\ hash_map_ok m' /\
    forall key', bh_hash_map_find (Some m') (Some key') =
      if key_equal_func m key key' then None else bh_hash_map_find (Some m) (Some key').
Proof using Hm.
  intros Hf. simpl in Hf. unfold bh_hash_map_remove.
  destruct (find_elem _ key (chain m key)) as [[k v]|] eqn:Hfind; [|done]. injection Hf as ->.
  eexists _, k. split; [done|]. split; [by apply find_elem_some in Hfind as [_ Hk]|]. split.
  - apply set_chain_ok.
    + intros e He. by apply chain_index, (remove_elem_subset (key_equal_func m) key).
    + eapply distinct_remove; [apply keys_of_map|apply chain_distinct].
  - intros key'. rewrite find_set. destruct (decide _) as [Hi|Hi].
    + erewrite find_remove; [|apply keys_of_map|apply chain_distinct].
      destruct (key_equal_func m key key'); [done|]. simpl. unfold chain. by rewrite Hi.
    + destruct (key_equal_func m key key') eqn:E; [|done]. by apply index_equal in E.
Qed.

(** Every element is visited, at one place. *)
Lemma traverse_finds key v :
  bh_hash_map_find (Some m) (Some key) = Some v <->
  exists k, (k, v) ∈ concat (elements m) /\ key_equal_func m k key = true.
Proof using Hm.
  simpl. split.
  - destruct (find_elem _ key (chain m key)) as [[k u]|] eqn:Hf; [|done]. intros [= ->].
    apply find_elem_some in Hf as [Hin Hk]. exists k. split; [|done].
    apply elem_of_concat. exists (chain m key). split; [done|].
    eapply list_elem_of_lookup_2, chain_lookup.
  - intros (k & Hin & Hk). apply elem_of_concat in Hin as (l & Hin & [i Hl]%list_elem_of_lookup).
    pose proof (hm_index _ Hm _ _ _ _ Hl Hin) as Hi. pose proof (index_equal _ _ Hk) as Hi'.
    assert (l = chain m key) as ->.
    { pose proof (chain_lookup key) as Hc. rewrite <- Hi', Hi, Hl in Hc. by injection Hc. }
    destruct (find_elem _ key (chain m key)) as [[k' u]|] eqn:Hf.
    + apply find_elem_some in Hf as [Hin' Hk'].
      apply list_elem_of_lookup in Hin as [j Hj], Hin' as [j' Hj'].
      assert (j = j') as <-; [|simpl; congruence].
      eapply chain_distinct; [exact Hj|exact Hj'|]. simpl in *.
      eapply equal_trans; [exact Hk|]. by rewrite equal_sym.
    + eapply find_elem_none in Hf; [|exact Hin]. simpl in Hf. congruence.
Qed.
End operations.

Lemma traverse_fold (m : HashMap K V) A (f : K -> V -> A -> A) d :
  bh_hash_map_traverse (Some m) (Some f) d =
  (true, foldl (fun d e => f (fst e) (snd e) d) d (snd (bh_hash_map_destroy (Some m)))).
Proof.
  simpl. f_equal. revert d. induction (elements m) as [|l ls IH]; intros d; [done|].
  simpl. by rewrite IH, foldl_app.
Qed.

Lemma create_ok size hash equal m :
  LawfulKeys hash equal -> bh_hash_map_create true size (Some hash) (Some equal) = Some m ->
  hash_map_ok m /\ key_equal_func m = equal /\
  forall key, bh_hash_map_find (Some m) (Some key) = None.
Proof.
  intros Hk. unfold bh_hash_map_create.
  set (n := if size <? HASH_MAP_MIN_SIZE then HASH_MAP_MIN_SIZE else size).
  assert (HASH_MAP_MIN_SIZE <= n) as Hmin by (unfold n; destruct (Z.ltb_spec size HASH_MAP_MIN_SIZE); lia).
  destruct (Z.ltb_spec HASH_MAP_MAX_SIZE n); [done|]. intros [= <-].
  assert (forall i (l : list (K * V)), replicate (Z.to_nat n) [] !! i = Some l -> l = []) as Hnil.
  { intros i l Hl. by apply lookup_replicate in Hl as [-> _]. }
  set (m := MkHashMap n hash equal (replicate (Z.to_nat n) [])).
  assert (hash_map_ok m) as Hm.
  { split; simpl; try done.
    - rewrite length_replicate. unfold HASH_MAP_MIN_SIZE in *. lia.
    - intros i l k v Hl Hin. apply Hnil in Hl as ->. by apply elem_of_nil in Hin.
    - intros i l Hl. apply Hnil in Hl as ->. by intros j j' e e' Hj. }
  split; [done|]. split; [done|]. intros key. simpl.
  pose proof (chain_lookup m Hm key) as Hc. by apply Hnil in Hc as ->.
Qed.

(** C34: A hash map refines a finite map. A new one is empty; [bh_hash_map_insert]
    adds a key that is absent and refuses one that is present;
    [bh_hash_map_update] and [bh_hash_map_remove] change only the entry of a
    present key, report its old value and refuse an absent one. The destruction
    visits exactly the entries that can be found, and a traversal calls its
    callback on the same entries in the same order. *)
Theorem hash_map_refines_map m key v :
  hash_map_ok m ->
  match bh_hash_map_find (Some m) (Some key) with
  | None =>
      (exists m', bh_hash_map_insert true (Some m) (Some key) v = (true, Some m') /\ hash_map_ok m' /\
        forall key', bh_hash_map_find (Some m') (Some key') =
          if key_equal_func m key key' then Some v else bh_hash_map_find (Some m) (Some key')) /\
      bh_hash_map_update (Some m) (Some key) v = (false, Some m, None) /\
      bh_hash_map_remove (Some m) (Some key) = (false, Some m, None)
  | Some old =>
      bh_hash_map_insert true (Some m) (Some key) v = (false, Some m) /\
      (exists m', bh_hash_map_update (Some m) (Some key) v = (true, Some m', Some old) /\
        hash_map_ok m' /\
        forall key', bh_hash_map_find (Some m') (Some key') =
          if key_equal_func m key key' then Some v else bh_hash_map_find (Some m) (Some key')) /\
      (exists m' k, bh_hash_map_remove (Some m) (Some key) = (true, Some m', Some (k, old)) /\
        key_equal_func m k key = true /\ hash_map_ok m' /\
        forall key', bh_hash_map_find (Some m') (Some key') =
          if key_equal_func m key key' then None else bh_hash_map_find (Some m) (Some key'))
  end /\
  (forall u, bh_hash_map_find (Some m) (Some key) = Some u <->
    exists k, (k, u) ∈ snd (bh_hash_map_destroy (Some m)) /\ key_equal_func m k key = true) /\
  (forall A (f : K -> V -> A -> A) d, bh_hash_map_traverse (Some m) (Some f) d =
    (true, foldl (fun d e => f (fst e) (snd e) d) d (snd (bh_hash_map_destroy (Some m))))) /\
  (forall size hash equal m0, LawfulKeys hash equal ->
    bh_hash_map_create true size (Some hash) (Some equal) = Some m0 ->
    hash_map_ok m0 /\ key_equal_func m0 = equal /\
    forall key, bh_hash_map_find (Some m0) (Some key) = None).
Proof.
  intros Hm.
  split; [|split; [intros u; by apply traverse_finds|split; [apply traverse_fold|apply create_ok]]].
  destruct (bh_hash_map_find (Some m) (Some key)) as [old|] eqn:Hf.
  - split; [|split; [by apply update_spec|by apply remove_spec]].
    unfold bh_hash_map_insert. simpl in Hf. by destruct (find_elem _ _ _).
  - split; [by apply insert_spec|]. unfold bh_hash_map_update, bh_hash_map_remove. simpl in Hf.
    by destruct (find_elem _ _ _).
Qed.
End spec.

(** ** An instance *)

(** Numbers that are equal modulo 10, with a hash that makes all of them
    collide in pairs. *)
Definition hash0 (k : Z) : Z := (k mod 10) / 2.
Definition equal0 (k k' : Z) : bool := k mod 10 =? k' mod 10.

#[export] Instance lawful0 : LawfulKeys hash0 equal0.
Proof.
  split; unfold equal0, hash0.
  - intros k. apply Z.eqb_refl.
  - intros k k'. apply Z.eqb_sym.
  - intros k1 k2 k3. rewrite !Z.eqb_eq. congruence.
  - intros k k'. rewrite Z.eqb_eq. congruence.
Qed.

Definition map0 : HashMap Z Z := MkHashMap 4 hash0 equal0 [[(1, 11); (0, 10)]; [(12, 22)]; []; []].

Lemma map0_ok : hash_map_ok map0.
Proof.
  split; [apply lawful0|done|done|..].
  - intros i l k v Hl Hin. destruct i as [|[|[|[|i]]]]; simpl in Hl; try done; injection Hl as <-;
      repeat (apply elem_of_cons in Hin as [[= -> ->]|Hin]; [done|]); by apply elem_of_nil in Hin.
  - intros i l Hl j j' e e' Hj Hj'. destruct i as [|[|[|[|i]]]]; simpl in Hl; try done;
      injection Hl as <-; destruct j as [|[|j]], j' as [|[|j']]; simpl in *; simplify_eq; done.
Qed.

Lemma hash_map_refines_map_witness :
  exists m', bh_hash_map_insert true (Some map0) (Some 13) 23 = (true, Some m') /\ hash_map_ok m' /\
    forall key', bh_hash_map_find (Some m') (Some key') =
      if key_equal_func map0 13 key' then Some 23 else bh_hash_map_find (Some map0) (Some key').
Proof. exact (proj1 (proj1 (hash_map_refines_map map0 13 23 map0_ok))). Defined.
