(* ===== verification/TeeApi.v ===== *)
(** * The trusted operating system as an interface

    The attester ([watz/ta/remote_attestation.c]) and the verifier
    ([vedliot_verifier/ta/verifier.c]) call the GlobalPlatform TEE Internal
    Core API and its TCP socket extension, which OP-TEE implements outside
    this repository. This file states that API as a class [TEE] of
    operations over an abstract state; what the operations promise is stated
    in [TeeSpec]. *)

From S2P Require Import Prelude.

(** ** Identifiers of the API that the two programs use *)

Inductive TEE_Result :=
| TEE_SUCCESS
| TEE_ERROR_GENERIC
| TEE_ERROR_BAD_PARAMETERS
| TEE_ERROR_BAD_STATE
| TEE_ERROR_COMMUNICATION
| TEE_ERROR_SECURITY
| TEE_ERROR_SHORT_BUFFER
| TEE_ERROR_MAC_INVALID
| TEE_ERROR_SIGNATURE_INVALID
| TEE_OTHER (code : Z).

Inductive TEE_ObjectType :=
| TEE_TYPE_ECDH_KEYPAIR
| TEE_TYPE_ECDH_PUBLIC_KEY
| TEE_TYPE_ECDSA_KEYPAIR
| TEE_TYPE_ECDSA_PUBLIC_KEY
| TEE_TYPE_GENERIC_SECRET
| TEE_TYPE_AES
| TEE_TYPE_RSA_KEYPAIR.

Inductive TEE_AttributeID :=
| TEE_ATTR_ECC_CURVE
| TEE_ATTR_ECC_PUBLIC_VALUE_X
| TEE_ATTR_ECC_PUBLIC_VALUE_Y
| TEE_ATTR_ECC_PRIVATE_VALUE
| TEE_ATTR_SECRET_VALUE.

Inductive TEE_Algorithm :=
| TEE_ALG_SHA256
| TEE_ALG_ECDSA_P256
| TEE_ALG_ECDH_P256
| TEE_ALG_AES_CMAC
| TEE_ALG_AES_GCM
| TEE_ALG_RSAES_PKCS1_V1_5.

Inductive TEE_OperationMode :=
| TEE_MODE_DIGEST
| TEE_MODE_SIGN
| TEE_MODE_VERIFY
| TEE_MODE_DERIVE
| TEE_MODE_MAC
| TEE_MODE_ENCRYPT
| TEE_MODE_DECRYPT.

#[export] Instance TEE_Result_eq_dec : EqDecision TEE_Result.
Proof. solve_decision. Defined.
#[export] Instance TEE_ObjectType_eq_dec : EqDecision TEE_ObjectType.
Proof. solve_decision. Defined.
#[export] Instance TEE_AttributeID_eq_dec : EqDecision TEE_AttributeID.
Proof. solve_decision. Defined.
#[export] Instance TEE_Algorithm_eq_dec : EqDecision TEE_Algorithm.
Proof. solve_decision. Defined.
#[export] Instance TEE_OperationMode_eq_dec : EqDecision TEE_OperationMode.
Proof. solve_decision. Defined.

Abbreviation handle := Z.
Definition TEE_HANDLE_NULL : handle := 0.

(** [res != TEE_SUCCESS] *)
Definition failed (res : TEE_Result) : bool := negb (bool_decide (res = TEE_SUCCESS)).

Lemma failed_false res : failed res = false -> res = TEE_SUCCESS.
Proof. unfold failed. by case_bool_decide. Qed.

(** An attribute as a call receives it: a buffer, or two integers. *)
Inductive attr_value :=
| AttrRef (id : TEE_AttributeID) (b : bytes)
| AttrVal (id : TEE_AttributeID) (a b : Z).

(** A call that fills a caller's buffer: its result, the bytes written from
    the start of the buffer, and the value left in the in-out size. *)
Record out_buffer := OutBuffer {
  ob_res : TEE_Result;
  ob_data : bytes;
  ob_size : Z
}.

(** A memory reference passed to a command of another trusted application. *)
Inductive tee_param :=
| ParamNone
| ParamMemrefInput (b : bytes)
| ParamMemrefInout (b : bytes).

(** A call on the state [T]; [None] is a panic of the trusted application. *)
Definition call (T A : Type) : Type := T -> option (A * T).

(** ** The operations *)

Class TEE := {
  tee : Type;
  TEE_ECC_CURVE_NIST_P256 : Z;
  TEE_AllocateTransientObject :
    TEE_ObjectType -> Z -> call tee (TEE_Result * option handle);
  TEE_FreeTransientObject : handle -> call tee ();
  TEE_PopulateTransientObject : handle -> list attr_value -> call tee TEE_Result;
  TEE_GenerateKey : handle -> Z -> list attr_value -> call tee TEE_Result;
  TEE_GetObjectBufferAttribute : handle -> TEE_AttributeID -> Z -> call tee out_buffer;
  TEE_AllocateOperation :
    TEE_Algorithm -> TEE_OperationMode -> Z -> call tee (TEE_Result * option handle);
  TEE_FreeOperation : handle -> call tee ();
  TEE_ResetOperation : handle -> call tee ();
  TEE_SetOperationKey : handle -> handle -> call tee TEE_Result;
  TEE_DigestUpdate : handle -> bytes -> call tee ();
  TEE_DigestDoFinal : handle -> bytes -> Z -> call tee out_buffer;
  TEE_MACInit : handle -> call tee ();
  TEE_MACUpdate : handle -> bytes -> call tee ();
  TEE_MACComputeFinal : handle -> bytes -> Z -> call tee out_buffer;
  TEE_MACCompareFinal : handle -> bytes -> bytes -> call tee TEE_Result;
  TEE_DeriveKey : handle -> list attr_value -> handle -> call tee ();
  TEE_AsymmetricSignDigest : handle -> bytes -> Z -> call tee out_buffer;
  TEE_AsymmetricVerifyDigest : handle -> bytes -> bytes -> call tee TEE_Result;
  TEE_AEInit : handle -> bytes -> Z -> call tee TEE_Result;
  (** The ciphertext buffer and the tag buffer are both filled. *)
  TEE_AEEncryptFinal : handle -> bytes -> Z -> Z -> call tee (out_buffer * bytes * Z);
  TEE_AEDecryptFinal : handle -> bytes -> Z -> bytes -> call tee out_buffer;
  TEE_GenerateRandom : Z -> call tee bytes;
  (** The address and the indeterminate contents of a new block, or NULL. *)
  TEE_Malloc : Z -> call tee (option (Z * bytes));
  TEE_Free : Z -> call tee ();
  TEE_OpenTASession : Z -> call tee (TEE_Result * option handle);
  TEE_CloseTASession : handle -> call tee ();
  TEE_InvokeTACommand : handle -> Z -> list tee_param -> call tee (TEE_Result * list tee_param);
  PTA_ATTESTATION_SERVICE_UUID : Z;
  ATTESTATION_CMD_GEN_QUOTE : Z;
  (** TCP sockets ([TEE_tcpSocket]): host and port, then a connection. *)
  tcp_open : bytes -> Z -> call tee (TEE_Result * option handle);
  tcp_send : handle -> bytes -> call tee (TEE_Result * Z);
  tcp_recv : handle -> Z -> call tee out_buffer;
  tcp_close : handle -> call tee ()
}.

(** ** Running API calls inside a component

    The state of a component: the TEE beside its own memory [C]. *)

Record world (T C : Type) := World { w_tee : T; w_ctx : C }.
Arguments World {T C} w_tee w_ctx.
Arguments w_tee {T C} w.
Arguments w_ctx {T C} w.

Definition tcall {T C A} (c : call T A) : M (world T C) A := fun w =>
  match c (w_tee w) with
  | Some (a, t) => Ret (a, World t (w_ctx w))
  | None => Fault Panic
  end.

Definition ctx {T C} : M (world T C) C := gets w_ctx.
Definition set_ctx {T C} (f : C -> C) : M (world T C) () :=
  modify (fun w => World (w_tee w) (f (w_ctx w))).

(** A local handle variable after a call that may have written it. *)
Definition written (out : option handle) (old : option handle) : option handle :=
  match out with
  | Some h => Some h
  | None => old
  end.

(** Passing a local handle to a call reads the variable: indeterminate
    variables are undefined behaviour. *)
Definition with_handle {T C A} (h : option handle) (k : handle -> M (world T C) A)
    : M (world T C) A := get_some h ≫= k.

Section tcall_rules.
Context {T C : Type} (E : fault -> Prop).
Implicit Types w : world T C.

Lemma wp_tcall {A} (c : call T A) Q w :
  (forall a t, c (w_tee w) = Some (a, t) -> Q a (World t (w_ctx w))) ->
  (c (w_tee w) = None -> E Panic) ->
  wp E (tcall c) Q w.
Proof. unfold wp, tcall. destruct (c (w_tee w)) as [[a t]|]; auto. Qed.

Lemma wp_tcall_eq {A} (c : call T A) Q w a t :
  c (w_tee w) = Some (a, t) -> Q a (World t (w_ctx w)) -> wp E (tcall c) Q w.
Proof. unfold wp, tcall. by intros -> ?. Qed.

Lemma wp_ctx Q w : Q (w_ctx w) w -> wp E ctx Q w.
Proof. done. Qed.

Lemma wp_set_ctx (f : C -> C) Q w :
  Q tt (World (w_tee w) (f (w_ctx w))) -> wp E (set_ctx f) Q w.
Proof. done. Qed.
End tcall_rules.

(** ** Blocks of the heap

    A pointer that a component keeps to a block of the heap: NULL, a block with
    its address and contents, or a block that [TEE_Free] has taken. Using the
    last one is undefined. *)

Inductive heap_ptr :=
| HeapNull
| HeapBlock (p : Z) (b : bytes)
| HeapFreed (p : Z).

(** The pointer that [TEE_Malloc] returns. *)
Definition malloc_ptr (r : option (Z * bytes)) : heap_ptr :=
  match r with
  | Some (p, b) => HeapBlock p b
  | None => HeapNull
  end.

(** The pointer after its block has been freed. *)
Definition dangling (p : heap_ptr) : heap_ptr :=
  match p with
  | HeapBlock a _ => HeapFreed a
  | p => p
  end.

(** [TEE_Free] of a pointer: nothing for NULL, undefined for a block that is
    free already. *)
Definition free_ptr `{T : TEE} {C} (p : heap_ptr) : M (world tee C) () :=
  match p with
  | HeapNull => mret tt
  | HeapBlock a _ => tcall (TEE_Free a)
  | HeapFreed _ => undefined
  end.

(** The bytes behind a pointer that is passed to a call: none behind NULL. *)
Definition heap_bytes (p : heap_ptr) : option bytes :=
  match p with
  | HeapNull => Some []
  | HeapBlock _ b => Some b
  | HeapFreed _ => None
  end.

(** ** Attributes of a component

    [TEE_InitRefAttribute] stores a pointer and a length, not the bytes: [R]
    names the buffers a component takes pointers to, and the bytes are read
    when the attribute is passed to a call. *)

Inductive attribute (R : Type) :=
| NoAttribute
| RefAttribute (id : TEE_AttributeID) (r : R) (len : Z)
| ValueAttribute (id : TEE_AttributeID) (a b : Z).

Arguments NoAttribute {R}.
Arguments RefAttribute {R} id r len.
Arguments ValueAttribute {R} id a b.

(** The attribute as the call reads it; [None] when the bytes cannot be read. *)
Definition read_attribute {R} (deref : R -> Z -> option bytes) (a : attribute R)
    : option attr_value :=
  match a with
  | NoAttribute => None
  | RefAttribute id r len => AttrRef id <$> deref r len
  | ValueAttribute id x y => Some (AttrVal id x y)
  end.

(** ** Parameters of a command of a trusted application *)

Inductive TEE_ParamType :=
| TEE_PARAM_TYPE_NONE
| TEE_PARAM_TYPE_VALUE_INPUT
| TEE_PARAM_TYPE_VALUE_OUTPUT
| TEE_PARAM_TYPE_VALUE_INOUT
| TEE_PARAM_TYPE_MEMREF_INPUT
| TEE_PARAM_TYPE_MEMREF_OUTPUT
| TEE_PARAM_TYPE_MEMREF_INOUT.

#[export] Instance TEE_ParamType_eq_dec : EqDecision TEE_ParamType.
Proof. solve_decision. Defined.

(** [TEE_PARAM_TYPES(t0, t1, t2, t3)] packs four types injectively. *)
Definition param_types : Type :=
  TEE_ParamType * TEE_ParamType * TEE_ParamType * TEE_ParamType.

#[export] Instance param_types_eq_dec : EqDecision param_types.
Proof. solve_decision. Defined.

(** A session is opened without parameters. *)
Definition no_params : param_types :=
  (TEE_PARAM_TYPE_NONE, TEE_PARAM_TYPE_NONE, TEE_PARAM_TYPE_NONE, TEE_PARAM_TYPE_NONE).

(** A parameter of a command: a buffer of its size, the NULL buffer, or two
    32-bit values. *)
Inductive ta_param :=
| PNone
| PMemref (b : bytes)
| PMemrefNull
| PValue (a b : Z).
