(* ===== verification/TeeSpec.v ===== *)
(** * What the trusted operating system promises

    [Crypto] names the cryptographic functions the API computes, with the
    algebraic facts the protocol needs. [TEE_Spec] relates each call that
    reports success to the objects, the operations and the sockets the TEE
    holds ([tee_view]), as the GlobalPlatform specification documents them. *)

From S2P Require Import Prelude TeeApi.

(** ** Cryptographic functions *)

Class Crypto := {
  sha256 : bytes -> bytes;
  (** key, message *)
  aes_cmac : bytes -> bytes -> bytes;
  (** The private values key generation produces, and their public points. *)
  ecc_private : bytes -> Prop;
  ecc_public : bytes -> bytes * bytes;
  (** The x-coordinate of the product of a private value and a point. *)
  ecdh : bytes -> bytes -> bytes -> bytes;
  (** point (x, y), digest, signature *)
  ecdsa_verify : bytes -> bytes -> bytes -> bytes -> bool;
  (** key, iv, ciphertext, tag *)
  gcm_decrypt : bytes -> bytes -> bytes -> bytes -> option bytes;
  length_sha256 d : length (sha256 d) = 32%nat;
  length_aes_cmac k d : length (aes_cmac k d) = 16%nat;
  length_ecc_public a x y :
    ecc_private a -> ecc_public a = (x, y) ->
    (length x <= 32)%nat /\ (length y <= 32)%nat;
  length_ecdh a x y : (length (ecdh a x y) <= 32)%nat;
  ecdh_commutes a b xa ya xb yb :
    ecc_private a -> ecc_private b ->
    ecc_public a = (xa, ya) -> ecc_public b = (xb, yb) ->
    ecdh a xb yb = ecdh b xa ya
}.

(** ** The observable state of the TEE *)

Record tee_object := Object {
  o_type : TEE_ObjectType;
  o_attrs : list attr_value
}.

Record tee_operation := Operation {
  p_alg : TEE_Algorithm;
  p_mode : TEE_OperationMode;
  p_key : option tee_object;
  p_acc : bytes;
  p_iv : bytes
}.

(** A connection: what was sent, how much was read, and the stream the peer
    answers as a function of everything it has received. *)
Record tee_socket := Socket {
  k_peer : bytes -> bytes;
  k_sent : bytes;
  k_read : nat
}.

Record tee_view := View {
  v_objs : gmap handle tee_object;
  v_ops : gmap handle tee_operation;
  v_socks : gmap handle tee_socket
}.

Definition set_obj (h : handle) (o : tee_object) (v : tee_view) : tee_view :=
  View (<[h := o]> (v_objs v)) (v_ops v) (v_socks v).
Definition del_obj (h : handle) (v : tee_view) : tee_view :=
  View (delete h (v_objs v)) (v_ops v) (v_socks v).
Definition set_op (h : handle) (p : tee_operation) (v : tee_view) : tee_view :=
  View (v_objs v) (<[h := p]> (v_ops v)) (v_socks v).
Definition del_op (h : handle) (v : tee_view) : tee_view :=
  View (v_objs v) (delete h (v_ops v)) (v_socks v).
Definition set_sock (h : handle) (k : tee_socket) (v : tee_view) : tee_view :=
  View (v_objs v) (v_ops v) (<[h := k]> (v_socks v)).
Definition del_sock (h : handle) (v : tee_view) : tee_view :=
  View (v_objs v) (v_ops v) (delete h (v_socks v)).

Definition with_key (o : tee_object) (p : tee_operation) : tee_operation :=
  Operation (p_alg p) (p_mode p) (Some o) (p_acc p) (p_iv p).
Definition with_acc (d : bytes) (p : tee_operation) : tee_operation :=
  Operation (p_alg p) (p_mode p) (p_key p) d (p_iv p).
Definition with_iv (iv : bytes) (p : tee_operation) : tee_operation :=
  Operation (p_alg p) (p_mode p) (p_key p) (p_acc p) iv.

(** The buffer attribute [id] in a list of attributes. *)
Fixpoint attr_buffer (id : TEE_AttributeID) (l : list attr_value) : option bytes :=
  match l with
  | [] => None
  | AttrRef id' b :: l => if decide (id' = id) then Some b else attr_buffer id l
  | AttrVal _ _ _ :: l => attr_buffer id l
  end.

Definition obj_attr (id : TEE_AttributeID) (o : tee_object) : option bytes :=
  attr_buffer id (o_attrs o).

Definition key_attr (id : TEE_AttributeID) (p : tee_operation) : option bytes :=
  p_key p ≫= obj_attr id.

(** The bytes a socket can still deliver. *)
Definition available (k : tee_socket) : bytes := drop (k_read k) (k_peer k (k_sent k)).

Definition sock_sent (d : bytes) (k : tee_socket) : tee_socket :=
  Socket (k_peer k) (k_sent k ++ d) (k_read k).
Definition sock_read (n : nat) (k : tee_socket) : tee_socket :=
  Socket (k_peer k) (k_sent k) (k_read k + n).

(** A generated key pair. *)
Definition keypair_attrs (a x y : bytes) (attrs : list attr_value) : list attr_value :=
  AttrRef TEE_ATTR_ECC_PRIVATE_VALUE a :: AttrRef TEE_ATTR_ECC_PUBLIC_VALUE_X x
    :: AttrRef TEE_ATTR_ECC_PUBLIC_VALUE_Y y :: attrs.

(** ** Successful calls *)

Class TEE_Spec (T : TEE) (C : Crypto) := {
  view : tee -> tee_view;
  (** The peer behind a host and a port. *)
  tcp_peer : bytes -> Z -> bytes -> bytes;

  spec_AllocateTransientObject ty sz t out t' :
    TEE_AllocateTransientObject ty sz t = Some ((TEE_SUCCESS, out), t') ->
    exists h, out = Some h /\ h <> TEE_HANDLE_NULL /\ v_objs (view t) !! h = None /\
      view t' = set_obj h (Object ty []) (view t);
  spec_FreeTransientObject h t t' :
    TEE_FreeTransientObject h t = Some (tt, t') -> view t' = del_obj h (view t);
  spec_PopulateTransientObject h attrs t t' :
    TEE_PopulateTransientObject h attrs t = Some (TEE_SUCCESS, t') ->
    exists o, v_objs (view t) !! h = Some o /\ o_attrs o = [] /\
      view t' = set_obj h (Object (o_type o) attrs) (view t);
  spec_GenerateKey h sz attrs t t' :
    TEE_GenerateKey h sz attrs t = Some (TEE_SUCCESS, t') ->
    exists o a x y, v_objs (view t) !! h = Some o /\ ecc_private a /\
      ecc_public a = (x, y) /\
      view t' = set_obj h (Object (o_type o) (keypair_attrs a x y attrs)) (view t);
  spec_GetObjectBufferAttribute h id cap t r t' :
    TEE_GetObjectBufferAttribute h id cap t = Some (r, t') -> ob_res r = TEE_SUCCESS ->
    exists o, v_objs (view t) !! h = Some o /\ obj_attr id o = Some (ob_data r) /\
      ob_size r = zlen (ob_data r) /\ ob_size r <= cap /\ view t' = view t;
  spec_AllocateOperation alg mode sz t out t' :
    TEE_AllocateOperation alg mode sz t = Some ((TEE_SUCCESS, out), t') ->
    exists h, out = Some h /\ h <> TEE_HANDLE_NULL /\ v_ops (view t) !! h = None /\
      view t' = set_op h (Operation alg mode None [] []) (view t);
  spec_FreeOperation h t t' :
    TEE_FreeOperation h t = Some (tt, t') -> view t' = del_op h (view t);
  spec_ResetOperation h t t' :
    TEE_ResetOperation h t = Some (tt, t') ->
    exists p, v_ops (view t) !! h = Some p /\ view t' = set_op h (with_acc [] p) (view t);
  spec_SetOperationKey h k t t' :
    TEE_SetOperationKey h k t = Some (TEE_SUCCESS, t') ->
    exists p o, v_ops (view t) !! h = Some p /\ v_objs (view t) !! k = Some o /\
      view t' = set_op h (with_key o p) (view t);
  spec_DigestUpdate h d t t' :
    TEE_DigestUpdate h d t = Some (tt, t') ->
    exists p, v_ops (view t) !! h = Some p /\
      view t' = set_op h (with_acc (p_acc p ++ d) p) (view t);
  spec_DigestDoFinal h d cap t r t' :
    TEE_DigestDoFinal h d cap t = Some (r, t') -> ob_res r = TEE_SUCCESS ->
    exists p, v_ops (view t) !! h = Some p /\ ob_data r = sha256 (p_acc p ++ d) /\
      ob_size r = 32 /\ view t' = set_op h (with_acc [] p) (view t);
  spec_MACInit h t t' :
    TEE_MACInit h t = Some (tt, t') ->
    exists p, v_ops (view t) !! h = Some p /\ view t' = set_op h (with_acc [] p) (view t);
  spec_MACUpdate h d t t' :
    TEE_MACUpdate h d t = Some (tt, t') ->
    exists p, v_ops (view t) !! h = Some p /\
      view t' = set_op h (with_acc (p_acc p ++ d) p) (view t);
  spec_MACComputeFinal h d cap t r t' :
    TEE_MACComputeFinal h d cap t = Some (r, t') -> ob_res r = TEE_SUCCESS ->
    exists p k, v_ops (view t) !! h = Some p /\
      key_attr TEE_ATTR_SECRET_VALUE p = Some k /\
      ob_data r = aes_cmac k (p_acc p ++ d) /\ ob_size r = 16 /\
      view t' = set_op h (with_acc [] p) (view t);
  spec_MACCompareFinal h d mac t t' :
    TEE_MACCompareFinal h d mac t = Some (TEE_SUCCESS, t') ->
    exists p k, v_ops (view t) !! h = Some p /\
      key_attr TEE_ATTR_SECRET_VALUE p = Some k /\
      mac = aes_cmac k (p_acc p ++ d) /\
      view t' = set_op h (with_acc [] p) (view t);
  spec_DeriveKey h attrs k t t' :
    TEE_DeriveKey h attrs k t = Some (tt, t') ->
    exists p a x y o, v_ops (view t) !! h = Some p /\
      key_attr TEE_ATTR_ECC_PRIVATE_VALUE p = Some a /\
      attr_buffer TEE_ATTR_ECC_PUBLIC_VALUE_X attrs = Some x /\
      attr_buffer TEE_ATTR_ECC_PUBLIC_VALUE_Y attrs = Some y /\
      v_objs (view t) !! k = Some o /\
      view t' = set_obj k
        (Object (o_type o) [AttrRef TEE_ATTR_SECRET_VALUE (ecdh a x y)]) (view t);
  spec_AsymmetricSignDigest h d cap t r t' :
    TEE_AsymmetricSignDigest h d cap t = Some (r, t') -> ob_res r = TEE_SUCCESS ->
    exists p x y, v_ops (view t) !! h = Some p /\
      key_attr TEE_ATTR_ECC_PUBLIC_VALUE_X p = Some x /\
      key_attr TEE_ATTR_ECC_PUBLIC_VALUE_Y p = Some y /\
      ecdsa_verify x y d (ob_data r) = true /\
      length (ob_data r) = 64%nat /\ ob_size r = 64 /\ view t' = view t;
  spec_AsymmetricVerifyDigest h d sig t t' :
    TEE_AsymmetricVerifyDigest h d sig t = Some (TEE_SUCCESS, t') ->
    exists p x y, v_ops (view t) !! h = Some p /\
      key_attr TEE_ATTR_ECC_PUBLIC_VALUE_X p = Some x /\
      key_attr TEE_ATTR_ECC_PUBLIC_VALUE_Y p = Some y /\
      ecdsa_verify x y d sig = true /\ view t' = view t;
  spec_AEInit h iv tag t t' :
    TEE_AEInit h iv tag t = Some (TEE_SUCCESS, t') ->
    exists p, v_ops (view t) !! h = Some p /\ view t' = set_op h (with_iv iv p) (view t);
  spec_AEEncryptFinal h d cap tcap t r tag tsz t' :
    TEE_AEEncryptFinal h d cap tcap t = Some ((r, tag, tsz), t') ->
    ob_res r = TEE_SUCCESS ->
    exists p k, v_ops (view t) !! h = Some p /\
      key_attr TEE_ATTR_SECRET_VALUE p = Some k /\
      gcm_decrypt k (p_iv p) (ob_data r) tag = Some d /\
      length tag = 16%nat /\ length (ob_data r) = length d /\
      ob_size r = zlen (ob_data r) /\ ob_size r <= cap /\ view t' = view t;
  spec_AEDecryptFinal h c cap tag t r t' :
    TEE_AEDecryptFinal h c cap tag t = Some (r, t') -> ob_res r = TEE_SUCCESS ->
    exists p k, v_ops (view t) !! h = Some p /\
      key_attr TEE_ATTR_SECRET_VALUE p = Some k /\
      gcm_decrypt k (p_iv p) c tag = Some (ob_data r) /\
      ob_size r = zlen (ob_data r) /\ ob_size r <= cap /\ view t' = view t;
  spec_GenerateRandom n t d t' :
    TEE_GenerateRandom n t = Some (d, t') -> zlen d = n /\ view t' = view t;
  spec_Malloc n t r t' :
    TEE_Malloc n t = Some (r, t') ->
    view t' = view t /\ (forall p d, r = Some (p, d) -> zlen d = n);
  spec_Free p t t' : TEE_Free p t = Some (tt, t') -> view t' = view t;
  spec_OpenTASession u t r t' : TEE_OpenTASession u t = Some (r, t') -> view t' = view t;
  spec_CloseTASession s t t' : TEE_CloseTASession s t = Some (tt, t') -> view t' = view t;
  spec_InvokeTACommand s c ps t r t' :
    TEE_InvokeTACommand s c ps t = Some (r, t') -> view t' = view t;
  spec_tcp_open host port t out t' :
    tcp_open host port t = Some ((TEE_SUCCESS, out), t') ->
    exists h, out = Some h /\ v_socks (view t) !! h = None /\
      view t' = set_sock h (Socket (tcp_peer host port) [] 0) (view t);
  spec_tcp_send h d t n t' :
    tcp_send h d t = Some ((TEE_SUCCESS, n), t') ->
    exists k, v_socks (view t) !! h = Some k /\ 0 <= n <= zlen d /\
      view t' = set_sock h (sock_sent (take (Z.to_nat n) d) k) (view t);
  spec_tcp_recv h cap t r t' :
    tcp_recv h cap t = Some (r, t') -> ob_res r = TEE_SUCCESS ->
    exists k, v_socks (view t) !! h = Some k /\
      ob_data r = take (length (ob_data r)) (available k) /\
      ob_size r = zlen (ob_data r) /\ ob_size r <= cap /\
      view t' = set_sock h (sock_read (length (ob_data r)) k) (view t);
  spec_tcp_close h t t' : tcp_close h t = Some (tt, t') -> view t' = del_sock h (view t)
}.
