(* ===== verification/Layout.v ===== *)
(** * Messages as C structures

    The protocol messages cross the network as the object representation of
    C structures ([msg0_t] to [msg3_t]). A structure is the list of its
    bytes, a member is an offset and a length, and integer members are
    little-endian. [Platform] collects what the repository takes from
    outside: the width of [size_t] (4 on ILP32, 8 on LP64) and the constants
    and the layout of [ra_quote] that the header [attestation.h] of the
    OP-TEE fork declares. *)

From S2P Require Import Prelude.

Record field := Field { f_off : nat; f_len : nat }.

Class Platform := {
  sizeof_size_t : nat;
  RA_ANCHOR_SIZE : nat;
  RA_CLAIM_HASH_SIZE : nat;
  RA_ATTESTATION_KEY_SIZE : nat;
  RA_SIGNATURE_SIZE : nat;
  sizeof_ra_quote : nat;
  quote_anchor : field;
  quote_version : field;
  quote_claim_hash : field;
  quote_attestation_key : field;
  quote_signature : field;
  sizeof_size_t_cases : sizeof_size_t = 4%nat \/ sizeof_size_t = 8%nat;
  quote_anchor_len : f_len quote_anchor = RA_ANCHOR_SIZE;
  quote_signature_len : f_len quote_signature = RA_SIGNATURE_SIZE;
  (** The structures are far smaller than the address space. *)
  small_structures : (RA_SIGNATURE_SIZE <= 4096 /\ sizeof_ra_quote <= 4096)%nat
}.

(** The smallest multiple of [a] that is at least [n]. *)
Definition align_up (n a : nat) : nat := ((n + a - 1) / a * a)%nat.

(** ** Access to members *)

Definition fget (f : field) (m : bytes) : bytes := m.[f_off f,+f_len f].

Definition fset (f : field) (v m : bytes) : bytes := splice (f_off f) v m.

Definition uget (f : field) (m : bytes) : Z := le_decode (fget f m).

Definition uset (f : field) (z : Z) (m : bytes) : bytes := fset f (le_encode (f_len f) z) m.

(** Reading [n] bytes from an array member through a pointer to its first
    element: [None] past the end of the array. *)
Definition fread (f : field) (m : bytes) (n : Z) : option bytes :=
  if (0 <=? n) && (n <=? Z.of_nat (f_len f)) then Some m.[f_off f,+Z.to_nat n] else None.

(** A member of a message and the length another member gives it, as a call
    reads the pair: undefined past the end of the array. *)
Definition sized (raw size : field) (m : bytes) : option bytes := fread raw m (uget size m).

(** Writing [d] at the start of an array member. *)
Definition fwrite (f : field) (d m : bytes) : option bytes :=
  if (length d <=? f_len f)%nat then Some (splice (f_off f) d m) else None.

(** Writing [d] at the start of a local buffer of [cap] bytes whose contents
    are [b]. *)
Definition bwrite (d b : bytes) : option bytes :=
  if (length d <=? length b)%nat then Some (splice 0 d b) else None.

(** Reading the first [n] bytes of a buffer. *)
Definition bread (b : bytes) (n : Z) : option bytes :=
  if (0 <=? n) && (n <=? zlen b) then Some (take (Z.to_nat n) b) else None.

(** The member lies inside a structure of [n] bytes. *)
Definition fits (f : field) (n : nat) : Prop := (f_off f + f_len f <= n)%nat.

(** Two members do not overlap. *)
Definition apart (f g : field) : Prop :=
  (f_off f + f_len f <= f_off g)%nat \/ (f_off g + f_len g <= f_off f)%nat.

(** ** Lemmas on buffers *)

Lemma bread_inv (b : bytes) n d : bread b n = Some d -> zlen d = n /\ d = take (Z.to_nat n) b.
Proof.
  unfold bread. destruct (Z.leb_spec 0 n), (Z.leb_spec n (zlen b)); try done.
  intros [= <-]. split; [|done]. rewrite length_take. lia.
Qed.

Lemma bread_whole (d : bytes) n : zlen d = n -> bread d n = Some d.
Proof.
  intros <-. unfold bread. rewrite Z.leb_refl, Nat2Z.id, take_ge by lia.
  by destruct (Z.leb_spec 0 (zlen d)); [|lia].
Qed.

(** ** Lemmas on members *)

Section members.
Implicit Types (f g : field) (m d : bytes).

Lemma length_fset f v m :
  (f_off f + length v <= length m)%nat -> length (fset f v m) = length m.
Proof. apply length_splice. Qed.

Lemma length_uset f z m : fits f (length m) -> length (uset f z m) = length m.
Proof.
  unfold fits. intros H. apply length_fset. rewrite length_le_encode. lia.
Qed.

Lemma length_fwrite f d m m' :
  fits f (length m) -> fwrite f d m = Some m' -> length m' = length m.
Proof.
  unfold fits, fwrite. intros Hf. destruct (Nat.leb_spec (length d) (f_len f)); [|done].
  intros [= <-]. apply length_splice. lia.
Qed.

Lemma length_fread f m n d :
  fits f (length m) -> fread f m n = Some d -> zlen d = n.
Proof.
  unfold fits, fread. intros Hf.
  destruct (Z.leb_spec 0 n), (Z.leb_spec n (Z.of_nat (f_len f))); simpl; try done.
  intros [= <-]. rewrite length_slice; lia.
Qed.

Lemma uget_uset_same f z m :
  fits f (length m) -> uget f (uset f z m) = z mod 2 ^ (8 * Z.of_nat (f_len f)).
Proof.
  unfold fits, uget, uset, fget, fset. intros H.
  rewrite slice_splice_prefix by (rewrite ?length_le_encode; lia).
  rewrite take_ge by (rewrite length_le_encode; lia).
  apply le_decode_encode.
Qed.

Lemma uget_uset_small f z m :
  fits f (length m) -> 0 <= z < 2 ^ (8 * Z.of_nat (f_len f)) -> uget f (uset f z m) = z.
Proof. intros H Hz. rewrite uget_uset_same by done. by apply Z.mod_small. Qed.

Lemma slice_splice_apart f g (v m : bytes) n :
  apart f g -> fits f (length m) -> fits g (length m) ->
  (length v <= f_len f)%nat -> (n <= f_len g)%nat ->
  (splice (f_off f) v m).[f_off g,+n] = m.[f_off g,+n].
Proof.
  unfold apart, fits. intros [H|H] Hf Hg Hv Hn.
  - apply slice_splice_after; lia.
  - apply slice_splice_before; lia.
Qed.

Lemma fget_splice_apart f g v m :
  apart f g -> fits f (length m) -> fits g (length m) -> (length v <= f_len f)%nat ->
  fget g (splice (f_off f) v m) = fget g m.
Proof. intros. unfold fget. by rewrite (slice_splice_apart f g). Qed.

Lemma uget_splice_apart f g v m :
  apart f g -> fits f (length m) -> fits g (length m) -> (length v <= f_len f)%nat ->
  uget g (splice (f_off f) v m) = uget g m.
Proof. intros. unfold uget. by rewrite fget_splice_apart. Qed.

Lemma uget_uset_apart f g z m :
  apart f g -> fits f (length m) -> fits g (length m) -> uget g (uset f z m) = uget g m.
Proof. intros. unfold uset, fset. apply uget_splice_apart; try done. by rewrite length_le_encode. Qed.

Lemma fread_splice_apart f g v m n :
  apart f g -> fits f (length m) -> fits g (length m) -> (length v <= f_len f)%nat ->
  fread g (splice (f_off f) v m) n = fread g m n.
Proof.
  intros. unfold fread. destruct (Z.leb_spec 0 n), (Z.leb_spec n (Z.of_nat (f_len g)));
    simpl; [|done..]. f_equal. apply (slice_splice_apart f g); [done..|lia].
Qed.

(** What was written at the start of a member is read back. *)
Lemma fread_fwrite f d m :
  fits f (length m) -> (length d <= f_len f)%nat ->
  fread f (splice (f_off f) d m) (zlen d) = Some d.
Proof.
  unfold fits, fread. intros Hf Hd.
  destruct (Z.leb_spec 0 (zlen d)); [|lia].
  destruct (Z.leb_spec (zlen d) (Z.of_nat (f_len f))); [|lia]. simpl. f_equal.
  rewrite Nat2Z.id. apply slice_splice_same. lia.
Qed.

Lemma length_write raw size z d m :
  fits raw (length m) -> fits size (length m) -> (length d <= f_len raw)%nat ->
  length (uset size z (splice (f_off raw) d m)) = length m.
Proof.
  unfold fits. intros Hr Hs Hd.
  rewrite length_uset; rewrite length_splice; [done|lia|done|lia].
Qed.

(** A value stored with its size is read back with it, and writes elsewhere
    do not change it. *)
Lemma sized_write raw size d m :
  fits raw (length m) -> fits size (length m) -> apart raw size ->
  (length d <= f_len raw)%nat -> zlen d < 2 ^ (8 * Z.of_nat (f_len size)) ->
  sized raw size (uset size (zlen d) (splice (f_off raw) d m)) = Some d.
Proof.
  intros Hr Hs Ha Hd Hz.
  assert (length (splice (f_off raw) d m) = length m) as Hl
    by (apply length_splice; unfold fits in Hr; lia).
  unfold sized. rewrite uget_uset_small; [|by rewrite Hl|lia].
  unfold uset, fset. rewrite fread_splice_apart; rewrite ?Hl, ?length_le_encode; try done.
  all: first [by apply fread_fwrite | destruct Ha; [by right|by left]].
Qed.

Lemma sized_splice_apart f raw size v m :
  apart f raw -> apart f size -> fits f (length m) -> fits raw (length m) ->
  fits size (length m) -> (length v <= f_len f)%nat ->
  sized raw size (splice (f_off f) v m) = sized raw size m.
Proof.
  intros. unfold sized. rewrite uget_splice_apart by done. by apply fread_splice_apart.
Qed.

Lemma sized_uset_apart f raw size z m :
  apart f raw -> apart f size -> fits f (length m) -> fits raw (length m) ->
  fits size (length m) -> sized raw size (uset f z m) = sized raw size m.
Proof. intros. apply sized_splice_apart; rewrite ?length_le_encode; done || lia. Qed.

Lemma fget_splice_same f v m :
  fits f (length m) -> length v = f_len f -> fget f (splice (f_off f) v m) = v.
Proof.
  unfold fits, fget. intros Hf Hv. rewrite <- Hv in *. by apply slice_splice_same.
Qed.

(** Members of a header copied to the start of a buffer. *)
Lemma fget_header f h b : fits f (length h) -> fget f (splice 0 h b) = fget f h.
Proof.
  unfold fits, fget, splice. intros Hf. rewrite take_0. simpl.
  rewrite drop_app_le by lia. rewrite take_app_le; [done|]. rewrite length_drop. lia.
Qed.

(** The members of a structure of [n] bytes that do not overlap. *)
Fixpoint separate (n : nat) (l : list field) : Prop :=
  match l with
  | [] => True
  | f :: l => fits f n /\ Forall (apart f) l /\ separate n l
  end.

(** Two values written with their sizes, one after the other. *)
Definition write_pair (rx sx ry sy : field) (x y m : bytes) : bytes :=
  uset sy (zlen y) (splice (f_off ry) y (uset sx (zlen x) (splice (f_off rx) x m))).

Lemma apart_sym f g : apart f g -> apart g f.
Proof. intros [H|H]; [by right|by left]. Qed.

(** Two integer members set one after the other. *)
Lemma sized_uset_pair_other a b r s z z' m :
  fits a (length m) -> fits b (length m) -> fits r (length m) -> fits s (length m) ->
  apart a r -> apart a s -> apart b r -> apart b s ->
  sized r s (uset b z' (uset a z m)) = sized r s m.
Proof.
  intros. rewrite sized_uset_apart; rewrite ?length_uset; try done. by apply sized_uset_apart.
Qed.

Section write_pair.
Context (rx sx ry sy : field) (x y m : bytes).
Context (Hsep : separate (length m) [rx; sx; ry; sy]).
Context (Hx : (length x <= f_len rx)%nat) (Hy : (length y <= f_len ry)%nat).

Lemma length_write_pair : length (write_pair rx sx ry sy x y m) = length m.
Proof.
  destruct Hsep as (F1 & _ & F2 & _ & F3 & _ & F4 & _). unfold write_pair.
  assert (length (uset sx (zlen x) (splice (f_off rx) x m)) = length m) as L2
    by by rewrite length_write.
  rewrite length_write; by rewrite ?L2.
Qed.

Lemma sized_write_pair_other r s :
  fits r (length m) -> fits s (length m) ->
  Forall (fun f => apart f r /\ apart f s) [rx; sx; ry; sy] ->
  sized r s (write_pair rx sx ry sy x y m) = sized r s m.
Proof.
  destruct Hsep as (F1 & _ & F2 & _ & F3 & _ & F4 & _).
  rewrite !Forall_cons. intros Fr Fs ([A1 B1] & [A2 B2] & [A3 B3] & [A4 B4] & _).
  assert (length (uset sx (zlen x) (splice (f_off rx) x m)) = length m) as L2
    by by rewrite length_write.
  assert (length (splice (f_off rx) x m) = length m) as L1
    by (apply length_splice; unfold fits in F1; lia).
  assert (length (splice (f_off ry) y (uset sx (zlen x) (splice (f_off rx) x m))) = length m)
    as L3 by (rewrite length_splice; rewrite L2; [done|unfold fits in F3; lia]).
  unfold write_pair. rewrite sized_uset_apart by by rewrite ?L3.
  rewrite sized_splice_apart by by rewrite ?L2.
  rewrite sized_uset_apart by by rewrite ?L1. by rewrite sized_splice_apart.
Qed.

Lemma sized_write_pair :
  zlen x < 2 ^ (8 * Z.of_nat (f_len sx)) -> zlen y < 2 ^ (8 * Z.of_nat (f_len sy)) ->
  sized rx sx (write_pair rx sx ry sy x y m) = Some x /\
  sized ry sy (write_pair rx sx ry sy x y m) = Some y.
Proof.
  destruct Hsep as (F1 & A1 & F2 & A2 & F3 & A3 & F4 & _).
  decompose_Forall_hyps. intros Hzx Hzy.
  assert (length (uset sx (zlen x) (splice (f_off rx) x m)) = length m) as L2
    by by rewrite length_write.
  assert (length (splice (f_off ry) y (uset sx (zlen x) (splice (f_off rx) x m))) = length m)
    as L3 by (rewrite length_splice; rewrite L2; [done|unfold fits in F3; lia]).
  unfold write_pair. split.
  - rewrite sized_uset_apart by (rewrite ?L3; try apply apart_sym; done).
    rewrite sized_splice_apart by (rewrite ?L2; try apply apart_sym; done).
    by apply sized_write.
  - apply sized_write; rewrite ?L2; done.
Qed.
End write_pair.

Lemma fread_in f m n :
  0 <= n <= Z.of_nat (f_len f) -> fread f m n = Some m.[f_off f,+Z.to_nat n].
Proof.
  intros H. unfold fread.
  destruct (Z.leb_spec 0 n), (Z.leb_spec n (Z.of_nat (f_len f))); simpl; try lia; done.
Qed.

Lemma fread_out f m n : Z.of_nat (f_len f) < n -> fread f m n = None.
Proof.
  intros H. unfold fread.
  destruct (Z.leb_spec 0 n), (Z.leb_spec n (Z.of_nat (f_len f))); simpl; try lia; done.
Qed.

Lemma fread_inv f m n d : fread f m n = Some d -> 0 <= n <= Z.of_nat (f_len f) /\
  d = m.[f_off f,+Z.to_nat n].
Proof.
  unfold fread. destruct (Z.leb_spec 0 n), (Z.leb_spec n (Z.of_nat (f_len f)));
    simpl; naive_solver.
Qed.

Lemma fwrite_in f d m :
  (length d <= f_len f)%nat -> fwrite f d m = Some (splice (f_off f) d m).
Proof. intros H. unfold fwrite. by destruct (Nat.leb_spec (length d) (f_len f)); [|lia]. Qed.

Lemma fwrite_inv f d m m' :
  fwrite f d m = Some m' -> (length d <= f_len f)%nat /\ m' = splice (f_off f) d m.
Proof. unfold fwrite. destruct (Nat.leb_spec (length d) (f_len f)); naive_solver. Qed.

Lemma bwrite_in d b : (length d <= length b)%nat -> bwrite d b = Some (splice 0 d b).
Proof. intros H. unfold bwrite. by destruct (Nat.leb_spec (length d) (length b)); [|lia]. Qed.

Lemma bwrite_inv d b e : bwrite d b = Some e -> (length d <= length b)%nat /\ e = splice 0 d b.
Proof.
  unfold bwrite. destruct (Nat.leb_spec (length d) (length b)); [|done]. by intros [= <-].
Qed.

Lemma bwrite_full d b : length d = length b -> bwrite d b = Some d.
Proof.
  intros H. rewrite bwrite_in by lia. unfold splice. simpl.
  rewrite drop_ge by lia. by rewrite app_nil_r.
Qed.
End members.

Lemma align_up_lt n a : (0 < a)%nat -> (align_up n a < n + a)%nat.
Proof.
  intros Ha. unfold align_up.
  pose proof (Nat.div_mod_eq (n + a - 1) a) as Hd. lia.
Qed.

Lemma align_up_le n a : (0 < a)%nat -> (n <= align_up n a)%nat.
Proof.
  intros Ha. unfold align_up.
  pose proof (Nat.div_mod_eq (n + a - 1) a) as Hd.
  pose proof (Nat.mod_upper_bound (n + a - 1) a ltac:(lia)). lia.
Qed.
