(* ===== verification/KeyDerivation.v ===== *)
(** * Derivation of the session keys

    [derive_shared_key] and [derive_shared_mac_key] are the same code in the
    attester ([remote_attestation.c]) and in the verifier ([verifier.c]): the
    first computes the key derivation key KDK = AES-CMAC(0, x(G_av)), the
    second an AES key AES-CMAC(KDK, label). They differ only in the fields of
    the context they read and write, which are arguments here. *)

From S2P Require Import Prelude TeeApi TeeSpec Layout.

Definition RA_ECDH_KEY_SIZE : Z := 256.
Definition RA_ECDSA_KEY_SIZE : Z := 256.
Definition RA_HASH_SIZE : Z := 256.
Definition RA_AES_CMAC_KEY_SIZE : Z := 128.
Definition RA_AES_CMAC_TAG_SIZE : Z := 128.
Definition RA_AES_GCM_KEY_SIZE : Z := 128.
Definition RA_AES_GCM_TAG_SIZE : Z := 128.
Definition RA_AES_GCM_IV_SIZE : Z := 32.
Definition RA_AES_GCM_CIPHERTEXT_OVERHEAD : Z := 16.

(** The labels, with the terminating NUL that [sizeof] counts. *)
Definition RA_SHARED_MAC_DATA : bytes :=
  [Byte.x01; Byte.x53; Byte.x4d; Byte.x4b; Byte.x00; Byte.x80; Byte.x00; Byte.x00].
Definition RA_SHARED_SESSION_DATA : bytes :=
  [Byte.x01; Byte.x53; Byte.x4b; Byte.x00; Byte.x80; Byte.x00; Byte.x00].

Section derivation.
Context `{T : TEE} {C : Type}.
(** The fields of the context: the local key pair, the attributes of the
    remote public key as a call reads them, and the KDK. *)
Context (keypair : C -> handle) (remote_public_key : C -> option (list attr_value)).
Context (kdk : C -> handle) (set_kdk : handle -> C -> C).

Definition free_object (h : option handle) : M (world tee C) () :=
  with_handle h (fun h => tcall (TEE_FreeTransientObject h)).

Definition free_operation (h : option handle) : M (world tee C) () :=
  with_handle h (fun h => tcall (TEE_FreeOperation h)).

(** A call that stores a new handle in a field of the context. *)
Definition store_handle (set : handle -> C -> C) (out : option handle) : M (world tee C) () :=
  match out with
  | Some h => set_ctx (set h)
  | None => mret tt
  end.

Definition derive_shared_key : M (world tee C) TEE_Result :=
  let out res aes_cmac_key_handle operation_handle ecdh_shared_secret_handle :=
    free_object aes_cmac_key_handle;;
    free_operation operation_handle;;
    free_object ecdh_shared_secret_handle;;
    mret res in
  '(res, o) ← tcall (TEE_AllocateOperation TEE_ALG_ECDH_P256 TEE_MODE_DERIVE RA_ECDH_KEY_SIZE);
  let operation_handle := written o None in
  if failed res then out res None operation_handle None else
  op ← get_some operation_handle;
  c ← ctx;
  res ← tcall (TEE_SetOperationKey op (keypair c));
  if failed res then out res None operation_handle None else
  '(res, o) ← tcall (TEE_AllocateTransientObject TEE_TYPE_GENERIC_SECRET RA_ECDH_KEY_SIZE);
  let ecdh_shared_secret_handle := written o None in
  if failed res then out res None operation_handle ecdh_shared_secret_handle else
  secret ← get_some ecdh_shared_secret_handle;
  public_key ← get_some (remote_public_key c);
  tcall (TEE_DeriveKey op public_key secret);;
  r ← tcall (TEE_GetObjectBufferAttribute secret TEE_ATTR_SECRET_VALUE (RA_ECDH_KEY_SIZE / 8));
  require (length (ob_data r) <=? 32)%nat;;
  if failed (ob_res r) then mret (ob_res r) else
  shared_secret ← get_some (bread (ob_data r) (ob_size r));
  tcall (TEE_ResetOperation op);;
  '(res, o) ← tcall (TEE_AllocateTransientObject TEE_TYPE_AES RA_AES_CMAC_KEY_SIZE);
  let aes_cmac_key_handle := written o None in
  if failed res then out res aes_cmac_key_handle operation_handle ecdh_shared_secret_handle else
  aes ← get_some aes_cmac_key_handle;
  res ← tcall (TEE_PopulateTransientObject aes [AttrRef TEE_ATTR_SECRET_VALUE (zeros 16)]);
  if failed res then out res aes_cmac_key_handle operation_handle ecdh_shared_secret_handle else
  '(res, o) ← tcall (TEE_AllocateOperation TEE_ALG_AES_CMAC TEE_MODE_MAC RA_AES_CMAC_KEY_SIZE);
  let operation_handle := written o operation_handle in
  if failed res then out res aes_cmac_key_handle operation_handle ecdh_shared_secret_handle else
  op ← get_some operation_handle;
  res ← tcall (TEE_SetOperationKey op aes);
  if failed res then out res aes_cmac_key_handle operation_handle ecdh_shared_secret_handle else
  tcall (TEE_MACInit op);;
  r ← tcall (TEE_MACComputeFinal op shared_secret (RA_AES_CMAC_TAG_SIZE / 8));
  mac ← get_some (bwrite (ob_data r) (zeros 16));
  if failed (ob_res r)
  then out (ob_res r) aes_cmac_key_handle operation_handle ecdh_shared_secret_handle else
  '(res, o) ← tcall (TEE_AllocateTransientObject TEE_TYPE_AES RA_AES_CMAC_KEY_SIZE);
  store_handle set_kdk o;;
  if failed res then out res aes_cmac_key_handle operation_handle ecdh_shared_secret_handle else
  key ← get_some (bread mac (ob_size r));
  c ← ctx;
  res ← tcall (TEE_PopulateTransientObject (kdk c) [AttrRef TEE_ATTR_SECRET_VALUE key]);
  out res aes_cmac_key_handle operation_handle ecdh_shared_secret_handle.

(** The key is stored through [output_key], a pointer to a field of the
    context: [output] reads it and [set_output] writes it. *)
Definition derive_shared_mac_key (data : bytes) (output : C -> handle)
    (set_output : handle -> C -> C) : M (world tee C) TEE_Result :=
  let out res aes_cmac_op aes_key_handle :=
    free_operation aes_cmac_op;;
    free_object aes_key_handle;;
    mret res in
  '(res, o) ← tcall (TEE_AllocateTransientObject TEE_TYPE_AES RA_AES_CMAC_KEY_SIZE);
  let aes_key_handle := written o None in
  if failed res then out res None aes_key_handle else
  c ← ctx;
  r ← tcall (TEE_GetObjectBufferAttribute (kdk c) TEE_ATTR_SECRET_VALUE 32);
  require (length (ob_data r) <=? 32)%nat;;
  if failed (ob_res r) then out (ob_res r) None aes_key_handle else
  shared_secret ← get_some (bread (ob_data r) (ob_size r));
  aes ← get_some aes_key_handle;
  res ← tcall (TEE_PopulateTransientObject aes [AttrRef TEE_ATTR_SECRET_VALUE shared_secret]);
  if failed res then out res None aes_key_handle else
  '(res, o) ← tcall (TEE_AllocateOperation TEE_ALG_AES_CMAC TEE_MODE_MAC RA_AES_CMAC_KEY_SIZE);
  let aes_cmac_op := written o None in
  if failed res then out res aes_cmac_op aes_key_handle else
  op ← get_some aes_cmac_op;
  res ← tcall (TEE_SetOperationKey op aes);
  if failed res then out res aes_cmac_op aes_key_handle else
  tcall (TEE_MACInit op);;
  r ← tcall (TEE_MACComputeFinal op data (RA_AES_CMAC_TAG_SIZE / 8));
  mac ← get_some (bwrite (ob_data r) (zeros 16));
  if failed (ob_res r) then out (ob_res r) aes_cmac_op aes_key_handle else
  '(res, o) ← tcall (TEE_AllocateTransientObject TEE_TYPE_AES RA_AES_CMAC_KEY_SIZE);
  store_handle set_output o;;
  if failed res then out res aes_cmac_op aes_key_handle else
  key ← get_some (bread mac (ob_size r));
  c ← ctx;
  res ← tcall (TEE_PopulateTransientObject (output c) [AttrRef TEE_ATTR_SECRET_VALUE key]);
  out res aes_cmac_op aes_key_handle.
End derivation.
