(* ===== verification/Attester.v ===== *)
(** * The attester

    [watz/ta/remote_attestation.c]: the WebAssembly runtime's side of the
    remote attestation protocol. The structures are those of
    [ta/include/remote_attestation.h]. A function of the C file is a
    definition of the same name; it runs on a [world] of the TEE and the
    [ra_context] the C code passes by pointer. Logging is left out, and so
    are the blocks under [DEBUG_MESSAGE] and [PROFILING_*]. *)

From S2P Require Import Prelude TeeApi TeeSpec Layout KeyDerivation.

(** ** Structures *)

Section layouts.
Context `{P : Platform}.

(** [msg0_t]: the sizes are [uint32_t]. *)
Definition msg0_x_raw : field := Field 0 32.
Definition msg0_x_size : field := Field 32 4.
Definition msg0_y_raw : field := Field 36 32.
Definition msg0_y_size : field := Field 68 4.
Definition sizeof_msg0 : nat := 72.

(** [msg1_t] *)
Definition msg1_ecdh_x_raw : field := Field 0 32.
Definition msg1_ecdh_x_size : field := Field 32 4.
Definition msg1_ecdh_y_raw : field := Field 36 32.
Definition msg1_ecdh_y_size : field := Field 68 4.
Definition msg1_ecdsa_x_raw : field := Field 72 32.
Definition msg1_ecdsa_x_size : field := Field 104 4.
Definition msg1_ecdsa_y_raw : field := Field 108 32.
Definition msg1_ecdsa_y_size : field := Field 140 4.
Definition msg1_signature : field := Field 144 RA_SIGNATURE_SIZE.
Definition msg1_mac : field := Field (144 + RA_SIGNATURE_SIZE) 16.
Definition sizeof_msg1 : nat := align_up (144 + RA_SIGNATURE_SIZE + 16) 4.

(** [msg2_t]: the sizes are [size_t]; [ra_quote] is aligned at most like
    [size_t]. *)
Definition msg2_x_raw : field := Field 0 32.
Definition msg2_x_size : field := Field 32 sizeof_size_t.
Definition msg2_y_raw : field := Field (32 + sizeof_size_t) 32.
Definition msg2_y_size : field := Field (64 + sizeof_size_t) sizeof_size_t.
Definition msg2_quote : field := Field (64 + 2 * sizeof_size_t) sizeof_ra_quote.
Definition msg2_mac : field := Field (64 + 2 * sizeof_size_t + sizeof_ra_quote) 16.
Definition sizeof_msg2 : nat :=
  align_up (64 + 2 * sizeof_size_t + sizeof_ra_quote + 16) sizeof_size_t.

(** [msg3_t]: a header and a flexible array member. *)
Definition msg3_iv : field := Field 0 32.
Definition msg3_tag : field := Field 32 16.
Definition msg3_encrypted_content_size : field := Field 48 sizeof_size_t.
Definition sizeof_msg3 : nat := 48 + sizeof_size_t.
End layouts.

(** [ra_context]. The attributes point into [msg1]; [msg3] is NULL or a block
    of the heap with its address; [socket_set] tells whether the pointer to
    the socket interface has been assigned. *)
Record ra_context := RaContext {
  ecdh_local_keypair_handle : handle;
  ecdh_remote_public_key_x_attr : attribute field;
  ecdh_remote_public_key_y_attr : attribute field;
  ecdh_shared_key_derivation_key : handle;
  ecdh_shared_mac_key : handle;
  ecdh_shared_session_key : handle;
  ecdsa_verifier_public_key_x_attr : attribute field;
  ecdsa_verifier_public_key_y_attr : attribute field;
  ecdsa_verifier_public_key_handle : handle;
  msg0 : bytes;
  msg1 : bytes;
  msg2 : bytes;
  msg3 : option (Z * bytes);
  msg3_size : Z;
  socket_ctx : handle;
  socket_set : bool
}.

Definition set_ecdh_local_keypair_handle (v : handle) (c : ra_context) : ra_context :=
  RaContext v (ecdh_remote_public_key_x_attr c) (ecdh_remote_public_key_y_attr c)
    (ecdh_shared_key_derivation_key c) (ecdh_shared_mac_key c) (ecdh_shared_session_key
    c) (ecdsa_verifier_public_key_x_attr c) (ecdsa_verifier_public_key_y_attr c)
    (ecdsa_verifier_public_key_handle c) (msg0 c) (msg1 c) (msg2 c) (msg3 c) (msg3_size
    c) (socket_ctx c) (socket_set c).
Definition set_ecdh_remote_public_key_x_attr (v : attribute field) (c : ra_context) : ra_context :=
  RaContext (ecdh_local_keypair_handle c) v (ecdh_remote_public_key_y_attr c)
    (ecdh_shared_key_derivation_key c) (ecdh_shared_mac_key c) (ecdh_shared_session_key
    c) (ecdsa_verifier_public_key_x_attr c) (ecdsa_verifier_public_key_y_attr c)
    (ecdsa_verifier_public_key_handle c) (msg0 c) (msg1 c) (msg2 c) (msg3 c) (msg3_size
    c) (socket_ctx c) (socket_set c).
Definition set_ecdh_remote_public_key_y_attr (v : attribute field) (c : ra_context) : ra_context :=
  RaContext (ecdh_local_keypair_handle c) (ecdh_remote_public_key_x_attr c) v
    (ecdh_shared_key_derivation_key c) (ecdh_shared_mac_key c) (ecdh_shared_session_key
    c) (ecdsa_verifier_public_key_x_attr c) (ecdsa_verifier_public_key_y_attr c)
    (ecdsa_verifier_public_key_handle c) (msg0 c) (msg1 c) (msg2 c) (msg3 c) (msg3_size
    c) (socket_ctx c) (socket_set c).
Definition set_ecdh_shared_key_derivation_key (v : handle) (c : ra_context) : ra_context :=
  RaContext (ecdh_local_keypair_handle c) (ecdh_remote_public_key_x_attr c)
    (ecdh_remote_public_key_y_attr c) v (ecdh_shared_mac_key c) (ecdh_shared_session_key
    c) (ecdsa_verifier_public_key_x_attr c) (ecdsa_verifier_public_key_y_attr c)
    (ecdsa_verifier_public_key_handle c) (msg0 c) (msg1 c) (msg2 c) (msg3 c) (msg3_size
    c) (socket_ctx c) (socket_set c).
Definition set_ecdh_shared_mac_key (v : handle) (c : ra_context) : ra_context :=
  RaContext (ecdh_local_keypair_handle c) (ecdh_remote_public_key_x_attr c)
    (ecdh_remote_public_key_y_attr c) (ecdh_shared_key_derivation_key c) v
    (ecdh_shared_session_key c) (ecdsa_verifier_public_key_x_attr c)
    (ecdsa_verifier_public_key_y_attr c) (ecdsa_verifier_public_key_handle c) (msg0 c)
    (msg1 c) (msg2 c) (msg3 c) (msg3_size c) (socket_ctx c) (socket_set c).
Definition set_ecdh_shared_session_key (v : handle) (c : ra_context) : ra_context :=
  RaContext (ecdh_local_keypair_handle c) (ecdh_remote_public_key_x_attr c)
    (ecdh_remote_public_key_y_attr c) (ecdh_shared_key_derivation_key c)
    (ecdh_shared_mac_key c) v (ecdsa_verifier_public_key_x_attr c)
    (ecdsa_verifier_public_key_y_attr c) (ecdsa_verifier_public_key_handle c) (msg0 c)
    (msg1 c) (msg2 c) (msg3 c) (msg3_size c) (socket_ctx c) (socket_set c).
Definition set_ecdsa_verifier_public_key_x_attr (v : attribute field) (c : ra_context) : ra_context :=
  RaContext (ecdh_local_keypair_handle c) (ecdh_remote_public_key_x_attr c)
    (ecdh_remote_public_key_y_attr c) (ecdh_shared_key_derivation_key c)
    (ecdh_shared_mac_key c) (ecdh_shared_session_key c) v
    (ecdsa_verifier_public_key_y_attr c) (ecdsa_verifier_public_key_handle c) (msg0 c)
    (msg1 c) (msg2 c) (msg3 c) (msg3_size c) (socket_ctx c) (socket_set c).
Definition set_ecdsa_verifier_public_key_y_attr (v : attribute field) (c : ra_context) : ra_context :=
  RaContext (ecdh_local_keypair_handle c) (ecdh_remote_public_key_x_attr c)
    (ecdh_remote_public_key_y_attr c) (ecdh_shared_key_derivation_key c)
    (ecdh_shared_mac_key c) (ecdh_shared_session_key c)
    (ecdsa_verifier_public_key_x_attr c) v (ecdsa_verifier_public_key_handle c) (msg0 c)
    (msg1 c) (msg2 c) (msg3 c) (msg3_size c) (socket_ctx c) (socket_set c).
Definition set_ecdsa_verifier_public_key_handle (v : handle) (c : ra_context) : ra_context :=
  RaContext (ecdh_local_keypair_handle c) (ecdh_remote_public_key_x_attr c)
    (ecdh_remote_public_key_y_attr c) (ecdh_shared_key_derivation_key c)
    (ecdh_shared_mac_key c) (ecdh_shared_session_key c)
    (ecdsa_verifier_public_key_x_attr c) (ecdsa_verifier_public_key_y_attr c) v (msg0 c)
    (msg1 c) (msg2 c) (msg3 c) (msg3_size c) (socket_ctx c) (socket_set c).
Definition set_msg0 (v : bytes) (c : ra_context) : ra_context :=
  RaContext (ecdh_local_keypair_handle c) (ecdh_remote_public_key_x_attr c)
    (ecdh_remote_public_key_y_attr c) (ecdh_shared_key_derivation_key c)
    (ecdh_shared_mac_key c) (ecdh_shared_session_key c)
    (ecdsa_verifier_public_key_x_attr c) (ecdsa_verifier_public_key_y_attr c)
    (ecdsa_verifier_public_key_handle c) v (msg1 c) (msg2 c) (msg3 c) (msg3_size c)
    (socket_ctx c) (socket_set c).
Definition set_msg1 (v : bytes) (c : ra_context) : ra_context :=
  RaContext (ecdh_local_keypair_handle c) (ecdh_remote_public_key_x_attr c)
    (ecdh_remote_public_key_y_attr c) (ecdh_shared_key_derivation_key c)
    (ecdh_shared_mac_key c) (ecdh_shared_session_key c)
    (ecdsa_verifier_public_key_x_attr c) (ecdsa_verifier_public_key_y_attr c)
    (ecdsa_verifier_public_key_handle c) (msg0 c) v (msg2 c) (msg3 c) (msg3_size c)
    (socket_ctx c) (socket_set c).
Definition set_msg2 (v : bytes) (c : ra_context) : ra_context :=
  RaContext (ecdh_local_keypair_handle c) (ecdh_remote_public_key_x_attr c)
    (ecdh_remote_public_key_y_attr c) (ecdh_shared_key_derivation_key c)
    (ecdh_shared_mac_key c) (ecdh_shared_session_key c)
    (ecdsa_verifier_public_key_x_attr c) (ecdsa_verifier_public_key_y_attr c)
    (ecdsa_verifier_public_key_handle c) (msg0 c) (msg1 c) v (msg3 c) (msg3_size c)
    (socket_ctx c) (socket_set c).
Definition set_msg3 (v : option (Z * bytes)) (c : ra_context) : ra_context :=
  RaContext (ecdh_local_keypair_handle c) (ecdh_remote_public_key_x_attr c)
    (ecdh_remote_public_key_y_attr c) (ecdh_shared_key_derivation_key c)
    (ecdh_shared_mac_key c) (ecdh_shared_session_key c)
    (ecdsa_verifier_public_key_x_attr c) (ecdsa_verifier_public_key_y_attr c)
    (ecdsa_verifier_public_key_handle c) (msg0 c) (msg1 c) (msg2 c) v (msg3_size c)
    (socket_ctx c) (socket_set c).
Definition set_msg3_size (v : Z) (c : ra_context) : ra_context :=
  RaContext (ecdh_local_keypair_handle c) (ecdh_remote_public_key_x_attr c)
    (ecdh_remote_public_key_y_attr c) (ecdh_shared_key_derivation_key c)
    (ecdh_shared_mac_key c) (ecdh_shared_session_key c)
    (ecdsa_verifier_public_key_x_attr c) (ecdsa_verifier_public_key_y_attr c)
    (ecdsa_verifier_public_key_handle c) (msg0 c) (msg1 c) (msg2 c) (msg3 c) v
    (socket_ctx c) (socket_set c).
Definition set_socket_ctx (v : handle) (c : ra_context) : ra_context :=
  RaContext (ecdh_local_keypair_handle c) (ecdh_remote_public_key_x_attr c)
    (ecdh_remote_public_key_y_attr c) (ecdh_shared_key_derivation_key c)
    (ecdh_shared_mac_key c) (ecdh_shared_session_key c)
    (ecdsa_verifier_public_key_x_attr c) (ecdsa_verifier_public_key_y_attr c)
    (ecdsa_verifier_public_key_handle c) (msg0 c) (msg1 c) (msg2 c) (msg3 c) (msg3_size
    c) v (socket_set c).
Definition set_socket_set (v : bool) (c : ra_context) : ra_context :=
  RaContext (ecdh_local_keypair_handle c) (ecdh_remote_public_key_x_attr c)
    (ecdh_remote_public_key_y_attr c) (ecdh_shared_key_derivation_key c)
    (ecdh_shared_mac_key c) (ecdh_shared_session_key c)
    (ecdsa_verifier_public_key_x_attr c) (ecdsa_verifier_public_key_y_attr c)
    (ecdsa_verifier_public_key_handle c) (msg0 c) (msg1 c) (msg2 c) (msg3 c) (msg3_size
    c) (socket_ctx c) v.

(** ** Operations *)

Section attester.
Context `{T : TEE} `{P : Platform}.

Abbreviation W := (world tee ra_context).

(** The bytes behind the attributes of the context, all members of [msg1]. *)
Definition deref (c : ra_context) (f : field) (n : Z) : option bytes := fread f (msg1 c) n.

Definition curve_attr : attr_value :=
  AttrVal TEE_ATTR_ECC_CURVE TEE_ECC_CURVE_NIST_P256 4.

(** The loop of [receive_socket_per_chunk]: [data_cursor] is the offset of
    the pointer of that name in the buffer [data]; [chunk_size] is passed by
    reference to [recv], which stores the number of bytes received. *)
Fixpoint receive_loop (fuel : nat) (socket : handle) (chunk_size : Z) (data : bytes)
    (data_size : Z) (data_cursor : nat) (transfered_data : Z)
    : M W (TEE_Result * bytes * option Z) :=
  if (0 <? chunk_size) && (transfered_data <? data_size) then
    match fuel with
    | O => fail OutOfFuel
    | S fuel =>
      if data_size <? transfered_data then mret (TEE_ERROR_SHORT_BUFFER, data, None) else
      r ← tcall (tcp_recv socket chunk_size);
      require (data_cursor + length (ob_data r) <=? length data)%nat;;
      let data := splice data_cursor (ob_data r) data in
      let chunk_size := ob_size r in
      if failed (ob_res r) then mret (ob_res r, data, None) else
      receive_loop fuel socket chunk_size data data_size
        (data_cursor + Z.to_nat chunk_size) (wrap32 (transfered_data + chunk_size))
    end
  else mret (TEE_SUCCESS, data, Some transfered_data).

(** The result, the buffer, and [*transfered_data_out] when it is written. *)
Definition receive_socket_per_chunk (socket : handle) (chunk_size : Z) (data : bytes)
    (data_size : Z) : M W (TEE_Result * bytes * option Z) :=
  receive_loop (S (Z.to_nat data_size)) socket chunk_size data data_size 0 0.

Definition zero_context : ra_context :=
  RaContext TEE_HANDLE_NULL NoAttribute NoAttribute TEE_HANDLE_NULL TEE_HANDLE_NULL
    TEE_HANDLE_NULL NoAttribute NoAttribute TEE_HANDLE_NULL (zeros sizeof_msg0)
    (zeros sizeof_msg1) (zeros sizeof_msg2) None 0 TEE_HANDLE_NULL false.

Definition alloc_ra_context : M W TEE_Result :=
  set_ctx (fun _ => zero_context);;
  set_ctx (fun c => set_msg0 (uset msg0_x_size 32 (msg0 c)) c);;
  set_ctx (fun c => set_msg0 (uset msg0_y_size 32 (msg0 c)) c);;
  mret TEE_SUCCESS.

(** [attestation_session] is the address of the handle, never NULL here. *)
Definition close_attestation_session (attestation_session : handle) : M W TEE_Result :=
  tcall (TEE_CloseTASession attestation_session);;
  mret TEE_SUCCESS.

Definition free_ra_context : M W TEE_Result :=
  c ← ctx;
  tcall (TEE_FreeTransientObject (ecdh_local_keypair_handle c));;
  tcall (TEE_FreeTransientObject (ecdh_shared_key_derivation_key c));;
  tcall (TEE_FreeTransientObject (ecdh_shared_mac_key c));;
  tcall (TEE_FreeTransientObject (ecdh_shared_session_key c));;
  tcall (TEE_FreeTransientObject (ecdsa_verifier_public_key_handle c));;
  (if 0 <? msg3_size c then
    set_ctx (set_msg3_size 0);;
    match msg3 c with
    | Some (p, _) => tcall (TEE_Free p)
    | None => mret tt
    end
  else mret tt);;
  require (socket_set c);;
  tcall (tcp_close (socket_ctx c));;
  mret TEE_SUCCESS.

(** [TEE_GetObjectBufferAttribute] into a member of [msg0] and its size. *)
Definition get_public_value (id : TEE_AttributeID) (raw size : field) : M W TEE_Result :=
  c ← ctx;
  r ← tcall (TEE_GetObjectBufferAttribute (ecdh_local_keypair_handle c) id
               (uget size (msg0 c)));
  m ← get_some (fwrite raw (ob_data r) (msg0 c));
  set_ctx (set_msg0 (uset size (ob_size r) m));;
  mret (ob_res r).

Definition generate_ecdh_keypair : M W TEE_Result :=
  '(res, o) ← tcall (TEE_AllocateTransientObject TEE_TYPE_ECDH_KEYPAIR RA_ECDH_KEY_SIZE);
  store_handle set_ecdh_local_keypair_handle o;;
  if failed res then mret res else
  c ← ctx;
  res ← tcall (TEE_GenerateKey (ecdh_local_keypair_handle c) RA_ECDH_KEY_SIZE [curve_attr]);
  if failed res then mret res else
  res ← get_public_value TEE_ATTR_ECC_PUBLIC_VALUE_X msg0_x_raw msg0_x_size;
  if failed res then mret res else
  res ← get_public_value TEE_ATTR_ECC_PUBLIC_VALUE_Y msg0_y_raw msg0_y_size;
  if failed res then mret res else
  mret TEE_SUCCESS.

Definition establish_tcp_connection (host : bytes) : M W TEE_Result :=
  set_ctx (set_socket_set true);;
  '(res, o) ← tcall (tcp_open host 8080);
  store_handle set_socket_ctx o;;
  if failed res then mret res else
  mret TEE_SUCCESS.

Definition send_msg0 : M W TEE_Result :=
  c ← ctx;
  '(res, _) ← tcall (tcp_send (socket_ctx c) (msg0 c));
  if failed res then mret res else
  mret TEE_SUCCESS.

(** The local array [msg1] is read only when all of it has been received. *)
Definition receive_msg1 : M W TEE_Result :=
  c ← ctx;
  '(res, buffer, n) ← receive_socket_per_chunk (socket_ctx c) (Z.of_nat sizeof_msg1)
                        (zeros sizeof_msg1) (Z.of_nat sizeof_msg1);
  if failed res then mret res else
  let msg1_size := default (Z.of_nat sizeof_msg1) n in
  if msg1_size <? Z.of_nat sizeof_msg1 then mret TEE_ERROR_GENERIC else
  set_ctx (set_msg1 buffer);;
  set_ctx (fun c => set_ecdh_remote_public_key_x_attr
    (RefAttribute TEE_ATTR_ECC_PUBLIC_VALUE_X msg1_ecdh_x_raw (uget msg1_ecdh_x_size (msg1 c))) c);;
  set_ctx (fun c => set_ecdh_remote_public_key_y_attr
    (RefAttribute TEE_ATTR_ECC_PUBLIC_VALUE_Y msg1_ecdh_y_raw (uget msg1_ecdh_y_size (msg1 c))) c);;
  mret res.

(** [TEE_MemCompare(p, field, n) != 0], where [b] is what [p] points to. *)
Definition compare_member (b : bytes) (n : Z) (f : field) : M W bool :=
  c ← ctx;
  x ← get_some (bread b n);
  y ← get_some (fread f (msg1 c) n);
  mret (negb (bool_decide (x = y))).

Definition verify_service_public_key (x : bytes) (x_size : Z) (y : bytes) (y_size : Z)
    : M W TEE_Result :=
  if (x_size =? 0) && (y_size =? 0) then mret TEE_SUCCESS else
  if negb (x_size =? RA_ECDSA_KEY_SIZE / 8) || negb (y_size =? RA_ECDSA_KEY_SIZE / 8)
  then mret TEE_ERROR_COMMUNICATION else
  differ ← compare_member x x_size msg1_ecdsa_x_raw;
  if differ : bool then mret TEE_ERROR_COMMUNICATION else
  differ ← compare_member y y_size msg1_ecdsa_y_raw;
  if differ : bool then mret TEE_ERROR_COMMUNICATION else
  mret TEE_SUCCESS.

Definition import_verifier_attestation_key : M W TEE_Result :=
  '(res, o) ← tcall (TEE_AllocateTransientObject TEE_TYPE_ECDSA_PUBLIC_KEY RA_ECDSA_KEY_SIZE);
  store_handle set_ecdsa_verifier_public_key_handle o;;
  if failed res then mret res else
  set_ctx (fun c => set_ecdsa_verifier_public_key_x_attr
    (RefAttribute TEE_ATTR_ECC_PUBLIC_VALUE_X msg1_ecdsa_x_raw (uget msg1_ecdsa_x_size (msg1 c))) c);;
  set_ctx (fun c => set_ecdsa_verifier_public_key_y_attr
    (RefAttribute TEE_ATTR_ECC_PUBLIC_VALUE_Y msg1_ecdsa_y_raw (uget msg1_ecdsa_y_size (msg1 c))) c);;
  c ← ctx;
  x ← get_some (read_attribute (deref c) (ecdsa_verifier_public_key_x_attr c));
  y ← get_some (read_attribute (deref c) (ecdsa_verifier_public_key_y_attr c));
  res ← tcall (TEE_PopulateTransientObject (ecdsa_verifier_public_key_handle c) [x; y; curve_attr]);
  if failed res then mret res else
  mret TEE_SUCCESS.

Definition verify_ecdh_public_key_signature : M W TEE_Result :=
  let out res operation_handle := free_operation operation_handle;; mret res in
  '(res, o) ← tcall (TEE_AllocateOperation TEE_ALG_SHA256 TEE_MODE_DIGEST 0);
  let operation_handle := written o None in
  if failed res then out res operation_handle else
  op ← get_some operation_handle;
  c ← ctx;
  d ← get_some (sized msg1_ecdh_x_raw msg1_ecdh_x_size (msg1 c));
  tcall (TEE_DigestUpdate op d);;
  d ← get_some (sized msg1_ecdh_y_raw msg1_ecdh_y_size (msg1 c));
  tcall (TEE_DigestUpdate op d);;
  d ← get_some (sized msg0_x_raw msg0_x_size (msg0 c));
  tcall (TEE_DigestUpdate op d);;
  d ← get_some (sized msg0_y_raw msg0_y_size (msg0 c));
  r ← tcall (TEE_DigestDoFinal op d RA_HASH_SIZE);
  require (length (ob_data r) <=? 32)%nat;;
  if failed (ob_res r) then out (ob_res r) operation_handle else
  if negb (ob_size r =? RA_HASH_SIZE / 8) then out TEE_ERROR_GENERIC operation_handle else
  digest ← get_some (bread (ob_data r) (ob_size r));
  tcall (TEE_ResetOperation op);;
  '(res, o) ← tcall (TEE_AllocateOperation TEE_ALG_ECDSA_P256 TEE_MODE_VERIFY RA_ECDSA_KEY_SIZE);
  let operation_handle := written o operation_handle in
  if failed res then out res operation_handle else
  op ← get_some operation_handle;
  res ← tcall (TEE_SetOperationKey op (ecdsa_verifier_public_key_handle c));
  if failed res then out res operation_handle else
  res ← tcall (TEE_AsymmetricVerifyDigest op digest (fget msg1_signature (msg1 c)));
  out res operation_handle.

Definition verify_msg1_mac : M W TEE_Result :=
  '(res, o) ← tcall (TEE_AllocateOperation TEE_ALG_AES_CMAC TEE_MODE_MAC RA_AES_CMAC_TAG_SIZE);
  let aes_cmac_op := written o None in
  if failed res then mret res else
  op ← get_some aes_cmac_op;
  c ← ctx;
  res ← tcall (TEE_SetOperationKey op (ecdh_shared_mac_key c));
  if failed res then mret res else
  tcall (TEE_MACInit op);;
  d ← get_some (sized msg1_ecdh_x_raw msg1_ecdh_x_size (msg1 c));
  tcall (TEE_MACUpdate op d);;
  d ← get_some (sized msg1_ecdh_y_raw msg1_ecdh_y_size (msg1 c));
  tcall (TEE_MACUpdate op d);;
  d ← get_some (sized msg1_ecdsa_x_raw msg1_ecdsa_x_size (msg1 c));
  tcall (TEE_MACUpdate op d);;
  d ← get_some (sized msg1_ecdsa_y_raw msg1_ecdsa_y_size (msg1 c));
  tcall (TEE_MACUpdate op d);;
  res ← tcall (TEE_MACCompareFinal op (fget msg1_signature (msg1 c)) (fget msg1_mac (msg1 c)));
  free_operation aes_cmac_op;;
  mret res.

(** The result and the contents of the caller's buffer [anchor]. *)
Definition generate_anchor (anchor : bytes) (anchor_size : Z) : M W (TEE_Result * bytes) :=
  let out res anchor operation_handle := free_operation operation_handle;; mret (res, anchor) in
  if negb (anchor_size =? Z.of_nat RA_ANCHOR_SIZE) then mret (TEE_ERROR_SECURITY, anchor) else
  '(res, o) ← tcall (TEE_AllocateOperation TEE_ALG_SHA256 TEE_MODE_DIGEST 0);
  let operation_handle := written o None in
  if failed res then out res anchor operation_handle else
  op ← get_some operation_handle;
  c ← ctx;
  d ← get_some (sized msg0_x_raw msg0_x_size (msg0 c));
  tcall (TEE_DigestUpdate op d);;
  d ← get_some (sized msg0_y_raw msg0_y_size (msg0 c));
  tcall (TEE_DigestUpdate op d);;
  d ← get_some (sized msg1_ecdh_x_raw msg1_ecdh_x_size (msg1 c));
  tcall (TEE_DigestUpdate op d);;
  d ← get_some (sized msg1_ecdh_y_raw msg1_ecdh_y_size (msg1 c));
  r ← tcall (TEE_DigestDoFinal op d (Z.of_nat RA_ANCHOR_SIZE));
  anchor ← get_some (bwrite (ob_data r) anchor);
  if failed (ob_res r) then out (ob_res r) anchor operation_handle else
  if negb (ob_size r =? Z.of_nat RA_ANCHOR_SIZE)
  then out TEE_ERROR_GENERIC anchor operation_handle else
  out (ob_res r) anchor operation_handle.

(** The remote public key as [TEE_DeriveKey] reads it. *)
Definition remote_public_key (c : ra_context) : option (list attr_value) :=
  x ← read_attribute (deref c) (ecdh_remote_public_key_x_attr c);
  y ← read_attribute (deref c) (ecdh_remote_public_key_y_attr c);
  Some [x; y].

Definition derive_shared_key : M W TEE_Result :=
  KeyDerivation.derive_shared_key ecdh_local_keypair_handle remote_public_key
    ecdh_shared_key_derivation_key set_ecdh_shared_key_derivation_key.

(** [data_length] is a [uint8_t]. *)
Definition derive_shared_mac_key (data : bytes) (data_length : Z) (output : ra_context -> handle)
    (set_output : handle -> ra_context -> ra_context) : M W TEE_Result :=
  data ← get_some (bread data (data_length mod 256));
  KeyDerivation.derive_shared_mac_key ecdh_shared_key_derivation_key data output set_output.

(** The label [out] returns TEE_SUCCESS, whatever [res] is. *)
Definition prepare_msg2 (quote : bytes) : M W TEE_Result :=
  let out aes_cmac_op := free_operation aes_cmac_op;; mret TEE_SUCCESS in
  set_ctx (fun c => set_msg2 (uset msg2_x_size (uget msg0_x_size (msg0 c)) (msg2 c)) c);;
  set_ctx (fun c => set_msg2 (uset msg2_y_size (uget msg0_y_size (msg0 c)) (msg2 c)) c);;
  c ← ctx;
  d ← get_some (sized msg0_x_raw msg0_x_size (msg0 c));
  m ← get_some (fwrite msg2_x_raw d (msg2 c));
  set_ctx (set_msg2 m);;
  d ← get_some (sized msg0_y_raw msg0_y_size (msg0 c));
  m ← get_some (fwrite msg2_y_raw d m);
  set_ctx (set_msg2 m);;
  set_ctx (fun c => set_msg2 (fset msg2_quote (take sizeof_ra_quote quote) (msg2 c)) c);;
  '(res, o) ← tcall (TEE_AllocateOperation TEE_ALG_AES_CMAC TEE_MODE_MAC RA_AES_CMAC_KEY_SIZE);
  let aes_cmac_op := written o None in
  if failed res then out aes_cmac_op else
  op ← get_some aes_cmac_op;
  c ← ctx;
  res ← tcall (TEE_SetOperationKey op (ecdh_shared_mac_key c));
  if failed res then out aes_cmac_op else
  tcall (TEE_MACInit op);;
  d ← get_some (fread msg2_x_raw (msg2 c) (uget msg0_x_size (msg0 c)));
  tcall (TEE_MACUpdate op d);;
  d ← get_some (fread msg2_y_raw (msg2 c) (uget msg0_y_size (msg0 c)));
  tcall (TEE_MACUpdate op d);;
  r ← tcall (TEE_MACComputeFinal op (fget msg2_quote (msg2 c)) (RA_AES_CMAC_TAG_SIZE / 8));
  m ← get_some (fwrite msg2_mac (ob_data r) (msg2 c));
  set_ctx (set_msg2 m);;
  out aes_cmac_op.

Definition send_msg2 : M W TEE_Result :=
  c ← ctx;
  '(res, _) ← tcall (tcp_send (socket_ctx c) (msg2 c));
  if failed res then mret res else
  mret TEE_SUCCESS.

(** The result of [TEE_Malloc] is not tested. *)
Definition allocate_msg3 (data_size : Z) : M W TEE_Result :=
  set_ctx (set_msg3_size (wrap_size sizeof_size_t
    (Z.of_nat sizeof_msg3 + data_size + RA_AES_GCM_CIPHERTEXT_OVERHEAD)));;
  c ← ctx;
  p ← tcall (TEE_Malloc (msg3_size c));
  set_ctx (set_msg3 p);;
  mret TEE_SUCCESS.

(** [&ctx->msg3_size] is passed as a [uint32_t *]: the low 32 bits are
    overwritten when the transfer succeeds. *)
Definition receive_msg3 : M W TEE_Result :=
  c ← ctx;
  let buffer := match msg3 c with Some (_, b) => b | None => [] end in
  '(res, buffer, n) ← receive_socket_per_chunk (socket_ctx c) (256 * 1024) buffer
                        (wrap32 (msg3_size c));
  set_ctx (fun c => set_msg3 (match msg3 c with
                              | Some (p, _) => Some (p, buffer)
                              | None => None
                              end) c);;
  set_ctx (fun c => match n with
                    | Some n => set_msg3_size (msg3_size c - wrap32 (msg3_size c) + n) c
                    | None => c
                    end);;
  if failed res then mret res else
  mret TEE_SUCCESS.

(** The result, the bytes written to the caller's buffer and [*data_size].
    The sizes of the API are [uint32_t]. *)
Definition decrypt_msg3 (data_size : Z) : M W (TEE_Result * bytes * Z) :=
  let out res data data_size operation_handle :=
    free_operation operation_handle;; mret (res, data, data_size) in
  '(res, o) ← tcall (TEE_AllocateOperation TEE_ALG_AES_GCM TEE_MODE_DECRYPT RA_AES_GCM_KEY_SIZE);
  let operation_handle := written o None in
  if failed res then out res [] data_size operation_handle else
  op ← get_some operation_handle;
  c ← ctx;
  res ← tcall (TEE_SetOperationKey op (ecdh_shared_session_key c));
  if failed res then out res [] data_size operation_handle else
  '(_, m) ← get_some (msg3 c);
  require (sizeof_msg3 <=? length m)%nat;;
  res ← tcall (TEE_AEInit op (fget msg3_iv m) RA_AES_GCM_TAG_SIZE);
  if failed res then out res [] data_size operation_handle else
  content ← get_some (bread (drop sizeof_msg3 m)
                        (wrap32 (uget msg3_encrypted_content_size m)));
  r ← tcall (TEE_AEDecryptFinal op content data_size (fget msg3_tag m));
  out (ob_res r) (ob_data r) (ob_size r) operation_handle.

(** The result and the session handle, which is kept open. *)
Definition ensure_attestation_service_up (attestation_session : handle)
    : M W (TEE_Result * handle) :=
  if negb (attestation_session =? TEE_HANDLE_NULL)
  then mret (TEE_SUCCESS, attestation_session) else
  '(res, o) ← tcall (TEE_OpenTASession PTA_ATTESTATION_SERVICE_UUID);
  mret (res, default attestation_session o).

(** ** Entry points *)

Definition ra_quote_collect (attestation_session : handle) (wasm_bytecode_hash anchor quote : bytes)
    : M W (TEE_Result * handle * bytes) :=
  '(res, session) ← ensure_attestation_service_up attestation_session;
  if failed res then mret (res, session, quote) else
  '(res, ps) ← tcall (TEE_InvokeTACommand session ATTESTATION_CMD_GEN_QUOTE
    [ParamMemrefInput wasm_bytecode_hash; ParamMemrefInput anchor; ParamMemrefInout quote; ParamNone]);
  let quote := match ps with [_; _; ParamMemrefInout q; _] => q | _ => quote end in
  if failed res then mret (res, session, quote) else
  mret (TEE_SUCCESS, session, quote).

Definition ra_quote_dispose (attestation_session : handle) (quote : bytes)
    : M W (TEE_Result * bytes) :=
  res ← close_attestation_session attestation_session;
  if failed res then mret (res, quote) else
  mret (TEE_SUCCESS, zeros (length quote)).

Definition ra_net_handshake (host x : bytes) (x_size : Z) (y : bytes) (y_size : Z)
    (anchor : bytes) (anchor_size : Z) : M W (TEE_Result * bytes) :=
  res ← alloc_ra_context;
  if failed res then mret (res, anchor) else
  res ← generate_ecdh_keypair;
  if failed res then mret (res, anchor) else
  res ← establish_tcp_connection host;
  if failed res then mret (res, anchor) else
  res ← send_msg0;
  if failed res then mret (res, anchor) else
  res ← receive_msg1;
  if failed res then mret (res, anchor) else
  res ← verify_service_public_key x x_size y y_size;
  if failed res then mret (res, anchor) else
  res ← import_verifier_attestation_key;
  if failed res then mret (res, anchor) else
  res ← verify_ecdh_public_key_signature;
  if failed res then mret (res, anchor) else
  res ← derive_shared_key;
  if failed res then mret (res, anchor) else
  res ← derive_shared_mac_key RA_SHARED_MAC_DATA (zlen RA_SHARED_MAC_DATA)
          ecdh_shared_mac_key set_ecdh_shared_mac_key;
  if failed res then mret (res, anchor) else
  res ← derive_shared_mac_key RA_SHARED_SESSION_DATA (zlen RA_SHARED_SESSION_DATA)
          ecdh_shared_session_key set_ecdh_shared_session_key;
  if failed res then mret (res, anchor) else
  res ← verify_msg1_mac;
  if failed res then mret (res, anchor) else
  '(res, anchor) ← generate_anchor anchor anchor_size;
  if failed res then mret (res, anchor) else
  mret (TEE_SUCCESS, anchor).

Definition ra_net_send_quote (quote : bytes) : M W TEE_Result :=
  res ← prepare_msg2 quote;
  if failed res then mret res else
  res ← send_msg2;
  if failed res then mret res else
  mret TEE_SUCCESS.

(** The result, the bytes written to [data] and [*data_size]. *)
Definition ra_net_receive_data (data_size : Z) : M W (TEE_Result * bytes * Z) :=
  res ← allocate_msg3 data_size;
  if failed res then mret (res, [], data_size) else
  res ← receive_msg3;
  if failed res then mret (res, [], data_size) else
  '(res, data, data_size) ← decrypt_msg3 data_size;
  if failed res then mret (res, data, data_size) else
  mret (TEE_SUCCESS, data, data_size).

Definition ra_net_dispose : M W TEE_Result := free_ra_context.
End attester.
