(* ===== verification/Verifier.v ===== *)
(** * The verifier

    [vedliot_verifier/ta/verifier.c]: the relying party's side of the remote
    attestation protocol, which checks the quote and encrypts the secret. The
    structures are those of [ta/include/verifier.h]. A function of the C file
    is a definition of the same name over the TEE and the
    [ra_context_verifier]. Logging is left out, and so are the blocks under
    [DEBUG_MESSAGE] and [PROFILING_*]. A shared buffer of the caller is the
    list of its bytes; its length is the size the caller passes. *)

From S2P Require Import Prelude TeeApi TeeSpec Layout KeyDerivation.

(** ** Structures *)

Definition RA_IMX_TEST_PUBLIC_KEY_X : bytes :=
  [Byte.x48; Byte.xee; Byte.xee; Byte.x81; Byte.xde; Byte.x28; Byte.xdb; Byte.x3e;
   Byte.x5d; Byte.x5a; Byte.xfc; Byte.x7d; Byte.x4b; Byte.x7e; Byte.xa4; Byte.xb1;
   Byte.xac; Byte.x16; Byte.xa2; Byte.xd7; Byte.xa9; Byte.x97; Byte.x8c; Byte.x1f;
   Byte.x84; Byte.xb4; Byte.x35; Byte.x57; Byte.x30; Byte.x64; Byte.x38; Byte.x47].

Definition RA_IMX_TEST_PUBLIC_KEY_Y : bytes :=
  [Byte.xf7; Byte.xf2; Byte.xce; Byte.x32; Byte.x43; Byte.x4e; Byte.xab; Byte.x77;
   Byte.x93; Byte.x53; Byte.x74; Byte.x8e; Byte.xee; Byte.x64; Byte.xe7; Byte.x29;
   Byte.x76; Byte.x34; Byte.x0e; Byte.x80; Byte.x5d; Byte.x87; Byte.xc2; Byte.xb6;
   Byte.x98; Byte.x4a; Byte.xa5; Byte.xd1; Byte.x2d; Byte.x30; Byte.x3f; Byte.xaf].

Section layouts.
Context `{P : Platform}.

(** [msg0_t]: the sizes are [size_t]. *)
Definition msg0_x_raw : field := Field 0 32.
Definition msg0_x_size : field := Field 32 sizeof_size_t.
Definition msg0_y_raw : field := Field (32 + sizeof_size_t) 32.
Definition msg0_y_size : field := Field (64 + sizeof_size_t) sizeof_size_t.
Definition sizeof_msg0 : nat := 64 + 2 * sizeof_size_t.

(** [msg1_t] *)
Definition msg1_ecdh_x_raw : field := Field 0 32.
Definition msg1_ecdh_x_size : field := Field 32 sizeof_size_t.
Definition msg1_ecdh_y_raw : field := Field (32 + sizeof_size_t) 32.
Definition msg1_ecdh_y_size : field := Field (64 + sizeof_size_t) sizeof_size_t.
Definition msg1_ecdsa_x_raw : field := Field (64 + 2 * sizeof_size_t) 32.
Definition msg1_ecdsa_x_size : field := Field (96 + 2 * sizeof_size_t) sizeof_size_t.
Definition msg1_ecdsa_y_raw : field := Field (96 + 3 * sizeof_size_t) 32.
Definition msg1_ecdsa_y_size : field := Field (128 + 3 * sizeof_size_t) sizeof_size_t.
Definition msg1_signature : field := Field (128 + 4 * sizeof_size_t) RA_SIGNATURE_SIZE.
Definition msg1_mac : field := Field (128 + 4 * sizeof_size_t + RA_SIGNATURE_SIZE) 16.
Definition sizeof_msg1 : nat :=
  align_up (128 + 4 * sizeof_size_t + RA_SIGNATURE_SIZE + 16) sizeof_size_t.

(** [msg2_t] *)
Definition msg2_x_raw : field := Field 0 32.
Definition msg2_x_size : field := Field 32 sizeof_size_t.
Definition msg2_y_raw : field := Field (32 + sizeof_size_t) 32.
Definition msg2_y_size : field := Field (64 + sizeof_size_t) sizeof_size_t.
Definition msg2_quote : field := Field (64 + 2 * sizeof_size_t) sizeof_ra_quote.
Definition msg2_mac : field := Field (64 + 2 * sizeof_size_t + sizeof_ra_quote) 16.
Definition sizeof_msg2 : nat :=
  align_up (64 + 2 * sizeof_size_t + sizeof_ra_quote + 16) sizeof_size_t.

(** [msg3_t] *)
Definition msg3_iv : field := Field 0 32.
Definition msg3_tag : field := Field 32 16.
Definition msg3_encrypted_content_size : field := Field 48 sizeof_size_t.
Definition sizeof_msg3 : nat := 48 + sizeof_size_t.
End layouts.

(** The buffers the attributes of the context point to: a member of [msg0],
    or an array of the function that initialised the attribute. *)
Inductive buffer_ref :=
| Msg0Ref (f : field)
| StackRef (b : bytes).

(** [ra_context_verifier]. [secret] and [msg3] are pointers to blocks of the
    heap, which stay in the context when the block has been freed. *)
Record ra_context_verifier := RaContextVerifier {
  secret : heap_ptr;
  secret_size : Z;
  ecdsa_attester_public_key_x_attr : attribute buffer_ref;
  ecdsa_attester_public_key_y_attr : attribute buffer_ref;
  ecdsa_attester_public_key_handle : handle;
  ecdh_attester_public_key_x_attr : attribute buffer_ref;
  ecdh_attester_public_key_y_attr : attribute buffer_ref;
  ecdh_attester_public_key_handle : handle;
  ecdsa_local_keypair_handle : handle;
  ecdh_local_keypair_handle : handle;
  ecdh_shared_key_derivation_key : handle;
  ecdh_shared_mac_key : handle;
  ecdh_shared_session_key : handle;
  is_quote_valid : bool;
  msg0 : bytes;
  msg1 : bytes;
  msg2 : bytes;
  msg3 : heap_ptr;
  msg3_size : Z
}.

Definition set_secret (v : heap_ptr) (c : ra_context_verifier) : ra_context_verifier :=
  RaContextVerifier v (secret_size c) (ecdsa_attester_public_key_x_attr c)
    (ecdsa_attester_public_key_y_attr c) (ecdsa_attester_public_key_handle c)
    (ecdh_attester_public_key_x_attr c) (ecdh_attester_public_key_y_attr c)
    (ecdh_attester_public_key_handle c) (ecdsa_local_keypair_handle c)
    (ecdh_local_keypair_handle c) (ecdh_shared_key_derivation_key c)
    (ecdh_shared_mac_key c) (ecdh_shared_session_key c) (is_quote_valid c) (msg0 c)
    (msg1 c) (msg2 c) (msg3 c) (msg3_size c).
Definition set_secret_size (v : Z) (c : ra_context_verifier) : ra_context_verifier :=
  RaContextVerifier (secret c) v (ecdsa_attester_public_key_x_attr c)
    (ecdsa_attester_public_key_y_attr c) (ecdsa_attester_public_key_handle c)
    (ecdh_attester_public_key_x_attr c) (ecdh_attester_public_key_y_attr c)
    (ecdh_attester_public_key_handle c) (ecdsa_local_keypair_handle c)
    (ecdh_local_keypair_handle c) (ecdh_shared_key_derivation_key c)
    (ecdh_shared_mac_key c) (ecdh_shared_session_key c) (is_quote_valid c) (msg0 c)
    (msg1 c) (msg2 c) (msg3 c) (msg3_size c).
Definition set_ecdsa_attester_public_key_x_attr (v : attribute buffer_ref) (c : ra_context_verifier) : ra_context_verifier :=
  RaContextVerifier (secret c) (secret_size c) v (ecdsa_attester_public_key_y_attr c)
    (ecdsa_attester_public_key_handle c) (ecdh_attester_public_key_x_attr c)
    (ecdh_attester_public_key_y_attr c) (ecdh_attester_public_key_handle c)
    (ecdsa_local_keypair_handle c) (ecdh_local_keypair_handle c)
    (ecdh_shared_key_derivation_key c) (ecdh_shared_mac_key c) (ecdh_shared_session_key
    c) (is_quote_valid c) (msg0 c) (msg1 c) (msg2 c) (msg3 c) (msg3_size c).
Definition set_ecdsa_attester_public_key_y_attr (v : attribute buffer_ref) (c : ra_context_verifier) : ra_context_verifier :=
  RaContextVerifier (secret c) (secret_size c) (ecdsa_attester_public_key_x_attr c) v
    (ecdsa_attester_public_key_handle c) (ecdh_attester_public_key_x_attr c)
    (ecdh_attester_public_key_y_attr c) (ecdh_attester_public_key_handle c)
    (ecdsa_local_keypair_handle c) (ecdh_local_keypair_handle c)
    (ecdh_shared_key_derivation_key c) (ecdh_shared_mac_key c) (ecdh_shared_session_key
    c) (is_quote_valid c) (msg0 c) (msg1 c) (msg2 c) (msg3 c) (msg3_size c).
Definition set_ecdsa_attester_public_key_handle (v : handle) (c : ra_context_verifier) : ra_context_verifier :=
  RaContextVerifier (secret c) (secret_size c) (ecdsa_attester_public_key_x_attr c)
    (ecdsa_attester_public_key_y_attr c) v (ecdh_attester_public_key_x_attr c)
    (ecdh_attester_public_key_y_attr c) (ecdh_attester_public_key_handle c)
    (ecdsa_local_keypair_handle c) (ecdh_local_keypair_handle c)
    (ecdh_shared_key_derivation_key c) (ecdh_shared_mac_key c) (ecdh_shared_session_key
    c) (is_quote_valid c) (msg0 c) (msg1 c) (msg2 c) (msg3 c) (msg3_size c).
Definition set_ecdh_attester_public_key_x_attr (v : attribute buffer_ref) (c : ra_context_verifier) : ra_context_verifier :=
  RaContextVerifier (secret c) (secret_size c) (ecdsa_attester_public_key_x_attr c)
    (ecdsa_attester_public_key_y_attr c) (ecdsa_attester_public_key_handle c) v
    (ecdh_attester_public_key_y_attr c) (ecdh_attester_public_key_handle c)
    (ecdsa_local_keypair_handle c) (ecdh_local_keypair_handle c)
    (ecdh_shared_key_derivation_key c) (ecdh_shared_mac_key c) (ecdh_shared_session_key
    c) (is_quote_valid c) (msg0 c) (msg1 c) (msg2 c) (msg3 c) (msg3_size c).
Definition set_ecdh_attester_public_key_y_attr (v : attribute buffer_ref) (c : ra_context_verifier) : ra_context_verifier :=
  RaContextVerifier (secret c) (secret_size c) (ecdsa_attester_public_key_x_attr c)
    (ecdsa_attester_public_key_y_attr c) (ecdsa_attester_public_key_handle c)
    (ecdh_attester_public_key_x_attr c) v (ecdh_attester_public_key_handle c)
    (ecdsa_local_keypair_handle c) (ecdh_local_keypair_handle c)
    (ecdh_shared_key_derivation_key c) (ecdh_shared_mac_key c) (ecdh_shared_session_key
    c) (is_quote_valid c) (msg0 c) (msg1 c) (msg2 c) (msg3 c) (msg3_size c).
Definition set_ecdh_attester_public_key_handle (v : handle) (c : ra_context_verifier) : ra_context_verifier :=
  RaContextVerifier (secret c) (secret_size c) (ecdsa_attester_public_key_x_attr c)
    (ecdsa_attester_public_key_y_attr c) (ecdsa_attester_public_key_handle c)
    (ecdh_attester_public_key_x_attr c) (ecdh_attester_public_key_y_attr c) v
    (ecdsa_local_keypair_handle c) (ecdh_local_keypair_handle c)
    (ecdh_shared_key_derivation_key c) (ecdh_shared_mac_key c) (ecdh_shared_session_key
    c) (is_quote_valid c) (msg0 c) (msg1 c) (msg2 c) (msg3 c) (msg3_size c).
Definition set_ecdsa_local_keypair_handle (v : handle) (c : ra_context_verifier) : ra_context_verifier :=
  RaContextVerifier (secret c) (secret_size c) (ecdsa_attester_public_key_x_attr c)
    (ecdsa_attester_public_key_y_attr c) (ecdsa_attester_public_key_handle c)
    (ecdh_attester_public_key_x_attr c) (ecdh_attester_public_key_y_attr c)
    (ecdh_attester_public_key_handle c) v (ecdh_local_keypair_handle c)
    (ecdh_shared_key_derivation_key c) (ecdh_shared_mac_key c) (ecdh_shared_session_key
    c) (is_quote_valid c) (msg0 c) (msg1 c) (msg2 c) (msg3 c) (msg3_size c).
Definition set_ecdh_local_keypair_handle (v : handle) (c : ra_context_verifier) : ra_context_verifier :=
  RaContextVerifier (secret c) (secret_size c) (ecdsa_attester_public_key_x_attr c)
    (ecdsa_attester_public_key_y_attr c) (ecdsa_attester_public_key_handle c)
    (ecdh_attester_public_key_x_attr c) (ecdh_attester_public_key_y_attr c)
    (ecdh_attester_public_key_handle c) (ecdsa_local_keypair_handle c) v
    (ecdh_shared_key_derivation_key c) (ecdh_shared_mac_key c) (ecdh_shared_session_key
    c) (is_quote_valid c) (msg0 c) (msg1 c) (msg2 c) (msg3 c) (msg3_size c).
Definition set_ecdh_shared_key_derivation_key (v : handle) (c : ra_context_verifier) : ra_context_verifier :=
  RaContextVerifier (secret c) (secret_size c) (ecdsa_attester_public_key_x_attr c)
    (ecdsa_attester_public_key_y_attr c) (ecdsa_attester_public_key_handle c)
    (ecdh_attester_public_key_x_attr c) (ecdh_attester_public_key_y_attr c)
    (ecdh_attester_public_key_handle c) (ecdsa_local_keypair_handle c)
    (ecdh_local_keypair_handle c) v (ecdh_shared_mac_key c) (ecdh_shared_session_key c)
    (is_quote_valid c) (msg0 c) (msg1 c) (msg2 c) (msg3 c) (msg3_size c).
Definition set_ecdh_shared_mac_key (v : handle) (c : ra_context_verifier) : ra_context_verifier :=
  RaContextVerifier (secret c) (secret_size c) (ecdsa_attester_public_key_x_attr c)
    (ecdsa_attester_public_key_y_attr c) (ecdsa_attester_public_key_handle c)
    (ecdh_attester_public_key_x_attr c) (ecdh_attester_public_key_y_attr c)
    (ecdh_attester_public_key_handle c) (ecdsa_local_keypair_handle c)
    (ecdh_local_keypair_handle c) (ecdh_shared_key_derivation_key c) v
    (ecdh_shared_session_key c) (is_quote_valid c) (msg0 c) (msg1 c) (msg2 c) (msg3 c)
    (msg3_size c).
Definition set_ecdh_shared_session_key (v : handle) (c : ra_context_verifier) : ra_context_verifier :=
  RaContextVerifier (secret c) (secret_size c) (ecdsa_attester_public_key_x_attr c)
    (ecdsa_attester_public_key_y_attr c) (ecdsa_attester_public_key_handle c)
    (ecdh_attester_public_key_x_attr c) (ecdh_attester_public_key_y_attr c)
    (ecdh_attester_public_key_handle c) (ecdsa_local_keypair_handle c)
    (ecdh_local_keypair_handle c) (ecdh_shared_key_derivation_key c)
    (ecdh_shared_mac_key c) v (is_quote_valid c) (msg0 c) (msg1 c) (msg2 c) (msg3 c)
    (msg3_size c).
Definition set_is_quote_valid (v : bool) (c : ra_context_verifier) : ra_context_verifier :=
  RaContextVerifier (secret c) (secret_size c) (ecdsa_attester_public_key_x_attr c)
    (ecdsa_attester_public_key_y_attr c) (ecdsa_attester_public_key_handle c)
    (ecdh_attester_public_key_x_attr c) (ecdh_attester_public_key_y_attr c)
    (ecdh_attester_public_key_handle c) (ecdsa_local_keypair_handle c)
    (ecdh_local_keypair_handle c) (ecdh_shared_key_derivation_key c)
    (ecdh_shared_mac_key c) (ecdh_shared_session_key c) v (msg0 c) (msg1 c) (msg2 c)
    (msg3 c) (msg3_size c).
Definition set_msg0 (v : bytes) (c : ra_context_verifier) : ra_context_verifier :=
  RaContextVerifier (secret c) (secret_size c) (ecdsa_attester_public_key_x_attr c)
    (ecdsa_attester_public_key_y_attr c) (ecdsa_attester_public_key_handle c)
    (ecdh_attester_public_key_x_attr c) (ecdh_attester_public_key_y_attr c)
    (ecdh_attester_public_key_handle c) (ecdsa_local_keypair_handle c)
    (ecdh_local_keypair_handle c) (ecdh_shared_key_derivation_key c)
    (ecdh_shared_mac_key c) (ecdh_shared_session_key c) (is_quote_valid c) v (msg1 c)
    (msg2 c) (msg3 c) (msg3_size c).
Definition set_msg1 (v : bytes) (c : ra_context_verifier) : ra_context_verifier :=
  RaContextVerifier (secret c) (secret_size c) (ecdsa_attester_public_key_x_attr c)
    (ecdsa_attester_public_key_y_attr c) (ecdsa_attester_public_key_handle c)
    (ecdh_attester_public_key_x_attr c) (ecdh_attester_public_key_y_attr c)
    (ecdh_attester_public_key_handle c) (ecdsa_local_keypair_handle c)
    (ecdh_local_keypair_handle c) (ecdh_shared_key_derivation_key c)
    (ecdh_shared_mac_key c) (ecdh_shared_session_key c) (is_quote_valid c) (msg0 c) v
    (msg2 c) (msg3 c) (msg3_size c).
Definition set_msg2 (v : bytes) (c : ra_context_verifier) : ra_context_verifier :=
  RaContextVerifier (secret c) (secret_size c) (ecdsa_attester_public_key_x_attr c)
    (ecdsa_attester_public_key_y_attr c) (ecdsa_attester_public_key_handle c)
    (ecdh_attester_public_key_x_attr c) (ecdh_attester_public_key_y_attr c)
    (ecdh_attester_public_key_handle c) (ecdsa_local_keypair_handle c)
    (ecdh_local_keypair_handle c) (ecdh_shared_key_derivation_key c)
    (ecdh_shared_mac_key c) (ecdh_shared_session_key c) (is_quote_valid c) (msg0 c)
    (msg1 c) v (msg3 c) (msg3_size c).
Definition set_msg3 (v : heap_ptr) (c : ra_context_verifier) : ra_context_verifier :=
  RaContextVerifier (secret c) (secret_size c) (ecdsa_attester_public_key_x_attr c)
    (ecdsa_attester_public_key_y_attr c) (ecdsa_attester_public_key_handle c)
    (ecdh_attester_public_key_x_attr c) (ecdh_attester_public_key_y_attr c)
    (ecdh_attester_public_key_handle c) (ecdsa_local_keypair_handle c)
    (ecdh_local_keypair_handle c) (ecdh_shared_key_derivation_key c)
    (ecdh_shared_mac_key c) (ecdh_shared_session_key c) (is_quote_valid c) (msg0 c)
    (msg1 c) (msg2 c) v (msg3_size c).
Definition set_msg3_size (v : Z) (c : ra_context_verifier) : ra_context_verifier :=
  RaContextVerifier (secret c) (secret_size c) (ecdsa_attester_public_key_x_attr c)
    (ecdsa_attester_public_key_y_attr c) (ecdsa_attester_public_key_handle c)
    (ecdh_attester_public_key_x_attr c) (ecdh_attester_public_key_y_attr c)
    (ecdh_attester_public_key_handle c) (ecdsa_local_keypair_handle c)
    (ecdh_local_keypair_handle c) (ecdh_shared_key_derivation_key c)
    (ecdh_shared_mac_key c) (ecdh_shared_session_key c) (is_quote_valid c) (msg0 c)
    (msg1 c) (msg2 c) (msg3 c) v.

(** ** Operations *)

Section verifier.
Context `{T : TEE} `{P : Platform}.

Abbreviation W := (world tee ra_context_verifier).

Definition deref (c : ra_context_verifier) (r : buffer_ref) (n : Z) : option bytes :=
  match r with
  | Msg0Ref f => fread f (msg0 c) n
  | StackRef b => bread b n
  end.

Definition curve_attr : attr_value :=
  AttrVal TEE_ATTR_ECC_CURVE TEE_ECC_CURVE_NIST_P256 4.

(** [TEE_GetObjectBufferAttribute] into a member of [msg1] and its size. *)
Definition get_public_value (key : handle) (id : TEE_AttributeID) (raw size : field)
    : M W TEE_Result :=
  c ← ctx;
  r ← tcall (TEE_GetObjectBufferAttribute key id (uget size (msg1 c)));
  m ← get_some (fwrite raw (ob_data r) (msg1 c));
  set_ctx (set_msg1 (uset size (ob_size r) m));;
  mret (ob_res r).

Definition generate_ecdh_keypair : M W TEE_Result :=
  '(res, o) ← tcall (TEE_AllocateTransientObject TEE_TYPE_ECDH_KEYPAIR RA_ECDH_KEY_SIZE);
  store_handle set_ecdh_local_keypair_handle o;;
  if failed res then mret res else
  c ← ctx;
  res ← tcall (TEE_GenerateKey (ecdh_local_keypair_handle c) RA_ECDH_KEY_SIZE [curve_attr]);
  if failed res then mret res else
  set_ctx (fun c => set_msg1 (uset msg1_ecdh_x_size 32 (msg1 c)) c);;
  set_ctx (fun c => set_msg1 (uset msg1_ecdh_y_size 32 (msg1 c)) c);;
  res ← get_public_value (ecdh_local_keypair_handle c) TEE_ATTR_ECC_PUBLIC_VALUE_X
          msg1_ecdh_x_raw msg1_ecdh_x_size;
  if failed res then mret res else
  res ← get_public_value (ecdh_local_keypair_handle c) TEE_ATTR_ECC_PUBLIC_VALUE_Y
          msg1_ecdh_y_raw msg1_ecdh_y_size;
  if failed res then mret res else
  mret TEE_SUCCESS.

Definition store_msg0 (buffer : bytes) : M W TEE_Result :=
  if zlen buffer <? Z.of_nat sizeof_msg0 then mret TEE_ERROR_SHORT_BUFFER else
  set_ctx (set_msg0 (take sizeof_msg0 buffer));;
  mret TEE_SUCCESS.

Definition populate_attester_key : M W TEE_Result :=
  set_ctx (fun c => set_ecdh_attester_public_key_x_attr
    (RefAttribute TEE_ATTR_ECC_PUBLIC_VALUE_X (Msg0Ref msg0_x_raw) (uget msg0_x_size (msg0 c))) c);;
  set_ctx (fun c => set_ecdh_attester_public_key_y_attr
    (RefAttribute TEE_ATTR_ECC_PUBLIC_VALUE_Y (Msg0Ref msg0_y_raw) (uget msg0_y_size (msg0 c))) c);;
  '(res, o) ← tcall (TEE_AllocateTransientObject TEE_TYPE_ECDH_PUBLIC_KEY RA_ECDH_KEY_SIZE);
  store_handle set_ecdh_attester_public_key_handle o;;
  if failed res then mret res else
  c ← ctx;
  x ← get_some (read_attribute (deref c) (ecdh_attester_public_key_x_attr c));
  y ← get_some (read_attribute (deref c) (ecdh_attester_public_key_y_attr c));
  res ← tcall (TEE_PopulateTransientObject (ecdh_attester_public_key_handle c) [x; y; curve_attr]);
  if failed res then mret res else
  mret TEE_SUCCESS.

(** The attester's public key as [TEE_DeriveKey] reads it. *)
Definition attester_public_key (c : ra_context_verifier) : option (list attr_value) :=
  x ← read_attribute (deref c) (ecdh_attester_public_key_x_attr c);
  y ← read_attribute (deref c) (ecdh_attester_public_key_y_attr c);
  Some [x; y].

Definition derive_shared_key : M W TEE_Result :=
  KeyDerivation.derive_shared_key ecdh_local_keypair_handle attester_public_key
    ecdh_shared_key_derivation_key set_ecdh_shared_key_derivation_key.

Definition derive_shared_mac_key (data : bytes) (data_length : Z)
    (output : ra_context_verifier -> handle)
    (set_output : handle -> ra_context_verifier -> ra_context_verifier) : M W TEE_Result :=
  data ← get_some (bread data data_length);
  KeyDerivation.derive_shared_mac_key ecdh_shared_key_derivation_key data output set_output.

Definition append_ecdh_public_keys_signature : M W TEE_Result :=
  let out res operation_handle := free_operation operation_handle;; mret res in
  '(res, o) ← tcall (TEE_AllocateOperation TEE_ALG_SHA256 TEE_MODE_DIGEST 0);
  let operation_handle := written o None in
  if failed res then out res operation_handle else
  op ← get_some operation_handle;
  c ← ctx;
  d ← get_some (sized msg1_ecdh_x_raw msg1_ecdh_x_size (msg1 c));
  tcall (TEE_DigestUpdate op d);;
  d ← get_some (sized msg1_ecdh_y_raw msg1_ecdh_y_size (msg1 c));
  tcall (TEE_DigestUpdate op d);;
  d ← get_some (sized msg0_x_raw msg0_x_size (msg0 c));
  tcall (TEE_DigestUpdate op d);;
  d ← get_some (sized msg0_y_raw msg0_y_size (msg0 c));
  r ← tcall (TEE_DigestDoFinal op d RA_HASH_SIZE);
  require (length (ob_data r) <=? 32)%nat;;
  if failed (ob_res r) then out (ob_res r) operation_handle else
  if negb (ob_size r =? RA_HASH_SIZE / 8) then out TEE_ERROR_GENERIC operation_handle else
  digest ← get_some (bread (ob_data r) (ob_size r));
  tcall (TEE_ResetOperation op);;
  '(res, o) ← tcall (TEE_AllocateOperation TEE_ALG_ECDSA_P256 TEE_MODE_SIGN RA_ECDSA_KEY_SIZE);
  let operation_handle := written o operation_handle in
  if failed res then out res operation_handle else
  op ← get_some operation_handle;
  res ← tcall (TEE_SetOperationKey op (ecdsa_local_keypair_handle c));
  if failed res then out res operation_handle else
  r ← tcall (TEE_AsymmetricSignDigest op digest (Z.of_nat RA_SIGNATURE_SIZE));
  m ← get_some (fwrite msg1_signature (ob_data r) (msg1 c));
  set_ctx (set_msg1 m);;
  if failed (ob_res r) then out (ob_res r) operation_handle else
  if negb (ob_size r =? Z.of_nat RA_SIGNATURE_SIZE) then out TEE_ERROR_GENERIC operation_handle else
  out (ob_res r) operation_handle.

Definition append_mac : M W TEE_Result :=
  '(res, o) ← tcall (TEE_AllocateOperation TEE_ALG_AES_CMAC TEE_MODE_MAC RA_AES_CMAC_TAG_SIZE);
  let aes_cmac_op := written o None in
  if failed res then mret res else
  op ← get_some aes_cmac_op;
  c ← ctx;
  res ← tcall (TEE_SetOperationKey op (ecdh_shared_mac_key c));
  if failed res then mret res else
  tcall (TEE_MACInit op);;
  d ← get_some (sized msg1_ecdh_x_raw msg1_ecdh_x_size (msg1 c));
  tcall (TEE_MACUpdate op d);;
  d ← get_some (sized msg1_ecdh_y_raw msg1_ecdh_y_size (msg1 c));
  tcall (TEE_MACUpdate op d);;
  d ← get_some (sized msg1_ecdsa_x_raw msg1_ecdsa_x_size (msg1 c));
  tcall (TEE_MACUpdate op d);;
  d ← get_some (sized msg1_ecdsa_y_raw msg1_ecdsa_y_size (msg1 c));
  tcall (TEE_MACUpdate op d);;
  r ← tcall (TEE_MACComputeFinal op (fget msg1_signature (msg1 c)) (RA_AES_CMAC_TAG_SIZE / 8));
  m ← get_some (fwrite msg1_mac (ob_data r) (msg1 c));
  set_ctx (set_msg1 m);;
  let res := if failed (ob_res r) then ob_res r
             else if negb (RA_AES_CMAC_TAG_SIZE / 8 =? ob_size r) then TEE_ERROR_GENERIC
             else ob_res r in
  free_operation aes_cmac_op;;
  mret res.

Definition store_msg2 (buffer : bytes) : M W TEE_Result :=
  if zlen buffer <? Z.of_nat sizeof_msg2 then mret TEE_ERROR_SHORT_BUFFER else
  set_ctx (set_msg2 (take sizeof_msg2 buffer));;
  mret TEE_SUCCESS.

Definition verify_mac_msg2 : M W TEE_Result :=
  let out res aes_cmac_op := free_operation aes_cmac_op;; mret res in
  '(res, o) ← tcall (TEE_AllocateOperation TEE_ALG_AES_CMAC TEE_MODE_MAC RA_AES_CMAC_TAG_SIZE);
  let aes_cmac_op := written o None in
  if failed res then out res aes_cmac_op else
  op ← get_some aes_cmac_op;
  c ← ctx;
  res ← tcall (TEE_SetOperationKey op (ecdh_shared_mac_key c));
  if failed res then out res aes_cmac_op else
  tcall (TEE_MACInit op);;
  d ← get_some (sized msg2_x_raw msg2_x_size (msg2 c));
  tcall (TEE_MACUpdate op d);;
  d ← get_some (sized msg2_y_raw msg2_y_size (msg2 c));
  tcall (TEE_MACUpdate op d);;
  res ← tcall (TEE_MACCompareFinal op (fget msg2_quote (msg2 c)) (fget msg2_mac (msg2 c)));
  out res aes_cmac_op.

Definition verify_public_key_msg2_matches_msg0 : M W TEE_Result :=
  c ← ctx;
  a ← get_some (fread msg0_x_raw (msg0 c) (uget msg0_x_size (msg0 c)));
  b ← get_some (fread msg2_x_raw (msg2 c) (uget msg0_x_size (msg0 c)));
  if negb (bool_decide (a = b)) then mret TEE_ERROR_SECURITY else
  a ← get_some (fread msg0_y_raw (msg0 c) (uget msg0_y_size (msg0 c)));
  b ← get_some (fread msg2_y_raw (msg2 c) (uget msg0_y_size (msg0 c)));
  if negb (bool_decide (a = b)) then mret TEE_ERROR_SECURITY else
  mret TEE_SUCCESS.

(** The members of the quote in [msg2]. *)
Definition quote_member (f : field) (c : ra_context_verifier) : bytes :=
  fget f (fget msg2_quote (msg2 c)).

Definition verify_quote_signature : M W TEE_Result :=
  let out res operation_handle := free_operation operation_handle;; mret res in
  '(res, o) ← tcall (TEE_AllocateOperation TEE_ALG_SHA256 TEE_MODE_DIGEST 0);
  let operation_handle := written o None in
  if failed res then out res operation_handle else
  op ← get_some operation_handle;
  c ← ctx;
  tcall (TEE_DigestUpdate op (quote_member quote_anchor c));;
  tcall (TEE_DigestUpdate op (quote_member quote_version c));;
  tcall (TEE_DigestUpdate op (quote_member quote_claim_hash c));;
  r ← tcall (TEE_DigestDoFinal op (quote_member quote_attestation_key c) RA_HASH_SIZE);
  require (length (ob_data r) <=? 32)%nat;;
  if failed (ob_res r) then out (ob_res r) operation_handle else
  if negb (ob_size r =? RA_HASH_SIZE / 8) then out TEE_ERROR_GENERIC operation_handle else
  digest ← get_some (bread (ob_data r) (ob_size r));
  tcall (TEE_ResetOperation op);;
  '(res, o) ← tcall (TEE_AllocateOperation TEE_ALG_ECDSA_P256 TEE_MODE_VERIFY RA_ECDSA_KEY_SIZE);
  let operation_handle := written o operation_handle in
  if failed res then out res operation_handle else
  op ← get_some operation_handle;
  res ← tcall (TEE_SetOperationKey op (ecdsa_attester_public_key_handle c));
  if failed res then out res operation_handle else
  res ← tcall (TEE_AsymmetricVerifyDigest op digest (quote_member quote_signature c));
  if failed res then out res operation_handle else
  set_ctx (set_is_quote_valid true);;
  out res operation_handle.

(** A mismatch returns without freeing the operation. *)
Definition verify_anchor : M W TEE_Result :=
  let out res operation_handle := free_operation operation_handle;; mret res in
  '(res, o) ← tcall (TEE_AllocateOperation TEE_ALG_SHA256 TEE_MODE_DIGEST 0);
  let operation_handle := written o None in
  if failed res then out res operation_handle else
  op ← get_some operation_handle;
  c ← ctx;
  d ← get_some (sized msg0_x_raw msg0_x_size (msg0 c));
  tcall (TEE_DigestUpdate op d);;
  d ← get_some (sized msg0_y_raw msg0_y_size (msg0 c));
  tcall (TEE_DigestUpdate op d);;
  d ← get_some (sized msg1_ecdh_x_raw msg1_ecdh_x_size (msg1 c));
  tcall (TEE_DigestUpdate op d);;
  d ← get_some (sized msg1_ecdh_y_raw msg1_ecdh_y_size (msg1 c));
  r ← tcall (TEE_DigestDoFinal op d (Z.of_nat RA_ANCHOR_SIZE));
  require (length (ob_data r) <=? RA_ANCHOR_SIZE)%nat;;
  if failed (ob_res r) then out (ob_res r) operation_handle else
  if negb (ob_size r =? Z.of_nat RA_ANCHOR_SIZE) then out TEE_ERROR_GENERIC operation_handle else
  digest ← get_some (bread (ob_data r) (ob_size r));
  if negb (bool_decide (quote_member quote_anchor c = digest)) then mret TEE_ERROR_SECURITY else
  out (ob_res r) operation_handle.

Definition allocate_msg3 (buffer_size : Z) : M W TEE_Result :=
  set_ctx (set_msg3_size (Z.of_nat sizeof_msg3));;
  c ← ctx;
  if buffer_size <? msg3_size c then mret TEE_ERROR_SHORT_BUFFER else
  p ← tcall (TEE_Malloc (msg3_size c));
  set_ctx (set_msg3 (malloc_ptr p));;
  mret TEE_SUCCESS.

(** The block behind [ctx->msg3], which [TEE_Malloc] may have left NULL. *)
Definition msg3_block (c : ra_context_verifier) : option (Z * bytes) :=
  match msg3 c with
  | HeapBlock p m => Some (p, m)
  | _ => None
  end.

(** Writes through [ctx->msg3]. *)
Definition update_msg3 (f : bytes -> option bytes) : M W bytes :=
  c ← ctx;
  '(p, m) ← get_some (msg3_block c);
  m ← get_some (f m);
  set_ctx (set_msg3 (HeapBlock p m));;
  mret m.

(** The result and the contents of the caller's buffer. *)
Definition encrypt_msg3 (buffer data : bytes) (data_size : Z) : M W (TEE_Result * bytes) :=
  let out res buffer operation_handle := free_operation operation_handle;; mret (res, buffer) in
  iv ← tcall (TEE_GenerateRandom RA_AES_GCM_IV_SIZE);
  update_msg3 (fwrite msg3_iv iv);;
  '(res, o) ← tcall (TEE_AllocateOperation TEE_ALG_AES_GCM TEE_MODE_ENCRYPT RA_AES_GCM_KEY_SIZE);
  let operation_handle := written o None in
  if failed res then out res buffer operation_handle else
  op ← get_some operation_handle;
  c ← ctx;
  res ← tcall (TEE_SetOperationKey op (ecdh_shared_session_key c));
  if failed res then out res buffer operation_handle else
  '(_, m) ← get_some (msg3_block c);
  res ← tcall (TEE_AEInit op (fget msg3_iv m) RA_AES_GCM_TAG_SIZE);
  if failed res then out res buffer operation_handle else
  let content_size := wrap_size sizeof_size_t (zlen buffer - Z.of_nat sizeof_msg3) in
  data ← get_some (bread data data_size);
  '(r, tag, _) ← tcall (TEE_AEEncryptFinal op data content_size 16);
  require (sizeof_msg3 + length (ob_data r) <=? length buffer)%nat;;
  let buffer := splice sizeof_msg3 (ob_data r) buffer in
  m ← update_msg3 (fun m => fwrite msg3_tag tag (uset msg3_encrypted_content_size (ob_size r) m));
  if failed (ob_res r) then out (ob_res r) buffer operation_handle else
  out (ob_res r) (splice 0 (take sizeof_msg3 m) buffer) operation_handle.

Definition free_msg3 : M W TEE_Result :=
  c ← ctx;
  free_ptr (msg3 c);;
  set_ctx (fun c => set_msg3 (dangling (msg3 c)) c);;
  mret TEE_SUCCESS.

(** ** Entry points *)

Definition import_attester_attestation_key : M W TEE_Result :=
  '(res, o) ← tcall (TEE_AllocateTransientObject TEE_TYPE_ECDSA_PUBLIC_KEY RA_ECDSA_KEY_SIZE);
  store_handle set_ecdsa_attester_public_key_handle o;;
  if failed res then mret res else
  set_ctx (set_ecdsa_attester_public_key_x_attr
    (RefAttribute TEE_ATTR_ECC_PUBLIC_VALUE_X (StackRef RA_IMX_TEST_PUBLIC_KEY_X) 32));;
  set_ctx (set_ecdsa_attester_public_key_y_attr
    (RefAttribute TEE_ATTR_ECC_PUBLIC_VALUE_Y (StackRef RA_IMX_TEST_PUBLIC_KEY_Y) 32));;
  c ← ctx;
  x ← get_some (read_attribute (deref c) (ecdsa_attester_public_key_x_attr c));
  y ← get_some (read_attribute (deref c) (ecdsa_attester_public_key_y_attr c));
  res ← tcall (TEE_PopulateTransientObject (ecdsa_attester_public_key_handle c) [x; y; curve_attr]);
  if failed res then mret res else
  mret TEE_SUCCESS.

Definition generate_ecdsa_keypair : M W TEE_Result :=
  '(res, o) ← tcall (TEE_AllocateTransientObject TEE_TYPE_ECDSA_KEYPAIR RA_ECDSA_KEY_SIZE);
  store_handle set_ecdsa_local_keypair_handle o;;
  if failed res then mret res else
  c ← ctx;
  res ← tcall (TEE_GenerateKey (ecdsa_local_keypair_handle c) RA_ECDSA_KEY_SIZE [curve_attr]);
  if failed res then mret res else
  set_ctx (fun c => set_msg1 (uset msg1_ecdsa_x_size 32 (msg1 c)) c);;
  set_ctx (fun c => set_msg1 (uset msg1_ecdsa_y_size 32 (msg1 c)) c);;
  res ← get_public_value (ecdsa_local_keypair_handle c) TEE_ATTR_ECC_PUBLIC_VALUE_X
          msg1_ecdsa_x_raw msg1_ecdsa_x_size;
  if failed res then mret res else
  res ← get_public_value (ecdsa_local_keypair_handle c) TEE_ATTR_ECC_PUBLIC_VALUE_Y
          msg1_ecdsa_y_raw msg1_ecdsa_y_size;
  if failed res then mret res else
  mret TEE_SUCCESS.

Definition handle_msg0 (buffer : bytes) : M W TEE_Result :=
  res ← generate_ecdh_keypair;
  if failed res then mret res else
  res ← store_msg0 buffer;
  if failed res then mret res else
  res ← populate_attester_key;
  if failed res then mret res else
  res ← derive_shared_key;
  if failed res then mret res else
  res ← derive_shared_mac_key RA_SHARED_MAC_DATA (zlen RA_SHARED_MAC_DATA)
          ecdh_shared_mac_key set_ecdh_shared_mac_key;
  if failed res then mret res else
  res ← derive_shared_mac_key RA_SHARED_SESSION_DATA (zlen RA_SHARED_SESSION_DATA)
          ecdh_shared_session_key set_ecdh_shared_session_key;
  if failed res then mret res else
  mret TEE_SUCCESS.

(** The result, the caller's buffer, and [*msg1_size] when it is written. *)
Definition prepare_msg1 (buffer : bytes) : M W (TEE_Result * bytes * option Z) :=
  if zlen buffer <? Z.of_nat sizeof_msg1 then mret (TEE_ERROR_SHORT_BUFFER, buffer, None) else
  res ← append_ecdh_public_keys_signature;
  if failed res then mret (res, buffer, None) else
  res ← append_mac;
  if failed res then mret (res, buffer, None) else
  c ← ctx;
  mret (TEE_SUCCESS, splice 0 (msg1 c) buffer, Some (Z.of_nat sizeof_msg1)).

Definition handle_msg2 (buffer : bytes) : M W TEE_Result :=
  set_ctx (set_is_quote_valid false);;
  res ← store_msg2 buffer;
  if failed res then mret res else
  res ← verify_mac_msg2;
  if failed res then mret res else
  res ← verify_public_key_msg2_matches_msg0;
  if failed res then mret res else
  res ← verify_quote_signature;
  if failed res then mret res else
  res ← verify_anchor;
  if failed res then mret res else
  mret TEE_SUCCESS.

Definition prepare_msg3 (buffer data : bytes) (data_size : Z) : M W (TEE_Result * bytes) :=
  res ← allocate_msg3 (zlen buffer);
  if failed res then mret (res, buffer) else
  '(res, buffer) ← encrypt_msg3 buffer data data_size;
  if failed res then mret (res, buffer) else
  res ← free_msg3;
  if failed res then mret (res, buffer) else
  mret (TEE_SUCCESS, buffer).

Definition dispose_ra_context : M W TEE_Result :=
  c ← ctx;
  free_ptr (secret c);;
  set_ctx (fun c => set_secret (dangling (secret c)) c);;
  tcall (TEE_FreeTransientObject (ecdsa_attester_public_key_handle c));;
  tcall (TEE_FreeTransientObject (ecdh_attester_public_key_handle c));;
  tcall (TEE_FreeTransientObject (ecdsa_local_keypair_handle c));;
  tcall (TEE_FreeTransientObject (ecdh_local_keypair_handle c));;
  tcall (TEE_FreeTransientObject (ecdh_shared_key_derivation_key c));;
  tcall (TEE_FreeTransientObject (ecdh_shared_mac_key c));;
  tcall (TEE_FreeTransientObject (ecdh_shared_session_key c));;
  mret TEE_SUCCESS.
End verifier.
