(* ===== verification/VerifierTA.v ===== *)
(** * The verifier as a trusted application

    [vedliot_verifier/ta/main.c]: the entry points through which the normal
    world drives the verifier, on one static [ra_context_verifier]. *)

From S2P Require Import Prelude TeeApi TeeSpec Layout KeyDerivation Verifier.

Definition VERIFIER_COMMAND_BOOTSTRAP_SECRET : Z := 0.
Definition VERIFIER_COMMAND_HANDLE_MSG_0 : Z := 1.
Definition VERIFIER_COMMAND_PREPARE_MSG_1 : Z := 2.
Definition VERIFIER_COMMAND_HANDLE_MSG_2 : Z := 3.
Definition VERIFIER_COMMAND_PREPARE_MSG_3 : Z := 4.

Section entry_points.
Context `{T : TEE} `{P : Platform}.

Abbreviation W := (world tee ra_context_verifier).

(** The static [context_singleton] before any call. *)
Definition context_singleton : ra_context_verifier :=
  RaContextVerifier HeapNull 0 NoAttribute NoAttribute TEE_HANDLE_NULL NoAttribute NoAttribute
    TEE_HANDLE_NULL TEE_HANDLE_NULL TEE_HANDLE_NULL TEE_HANDLE_NULL TEE_HANDLE_NULL
    TEE_HANDLE_NULL false (zeros sizeof_msg0) (zeros sizeof_msg1) (zeros sizeof_msg2) HeapNull 0.

Definition TA_CreateEntryPoint : M W TEE_Result := mret TEE_SUCCESS.

Definition TA_DestroyEntryPoint : M W () := mret tt.

Definition TA_OpenSessionEntryPoint (types : param_types) : M W TEE_Result :=
  if negb (bool_decide (types = no_params)) then mret TEE_ERROR_BAD_PARAMETERS else
  res ← import_attester_attestation_key;
  if failed res then mret res else
  res ← generate_ecdsa_keypair;
  if failed res then mret res else
  mret TEE_SUCCESS.

Definition TA_CloseSessionEntryPoint : M W () :=
  _ ← dispose_ra_context;
  mret tt.

(** [secret] is the caller's buffer; its size arrives as a [uint32_t]. A NULL
    block cannot be written. *)
Definition TA_ConfigureCustomSecret (secret : bytes) (secret_size : Z) : M W TEE_Result :=
  let secret_size := wrap32 secret_size in
  set_ctx (set_secret_size secret_size);;
  p ← tcall (TEE_Malloc secret_size);
  set_ctx (set_secret (malloc_ptr p));;
  d ← get_some (bread secret secret_size);
  match p with
  | Some (a, b) =>
      b ← get_some (bwrite d b);
      set_ctx (set_secret (HeapBlock a b))
  | None => require (secret_size =? 0)
  end;;
  mret TEE_SUCCESS.

(** [stack] is the indeterminate contents of the local [msg1_size], which
    [prepare_msg1] writes only when it succeeds. *)
Definition TA_InvokeCommandEntryPoint (stack : Z) (cmd_id : Z) (types : param_types)
    (params : list ta_param) : M W (TEE_Result * list ta_param) :=
  if cmd_id =? VERIFIER_COMMAND_BOOTSTRAP_SECRET then
    if negb (bool_decide (types = (TEE_PARAM_TYPE_MEMREF_INPUT, TEE_PARAM_TYPE_NONE,
                                   TEE_PARAM_TYPE_NONE, TEE_PARAM_TYPE_NONE)))
    then mret (TEE_ERROR_BAD_PARAMETERS, params) else
    match params with
    | PMemref buffer :: _ =>
        res ← TA_ConfigureCustomSecret buffer (zlen buffer);
        mret (res, params)
    | _ => undefined
    end
  else if cmd_id =? VERIFIER_COMMAND_HANDLE_MSG_0 then
    if negb (bool_decide (types = (TEE_PARAM_TYPE_MEMREF_INPUT, TEE_PARAM_TYPE_NONE,
                                   TEE_PARAM_TYPE_NONE, TEE_PARAM_TYPE_NONE)))
    then mret (TEE_ERROR_BAD_PARAMETERS, params) else
    match params with
    | PMemref buffer :: _ =>
        res ← handle_msg0 buffer;
        mret (res, params)
    | _ => undefined
    end
  else if cmd_id =? VERIFIER_COMMAND_PREPARE_MSG_1 then
    if negb (bool_decide (types = (TEE_PARAM_TYPE_MEMREF_OUTPUT, TEE_PARAM_TYPE_VALUE_OUTPUT,
                                   TEE_PARAM_TYPE_NONE, TEE_PARAM_TYPE_NONE)))
    then mret (TEE_ERROR_BAD_PARAMETERS, params) else
    match params with
    | PMemref buffer :: PValue _ b :: rest =>
        '(res, buffer, size) ← prepare_msg1 buffer;
        let msg1_size := default stack size in
        mret (res, PMemref buffer :: PValue (wrap32 msg1_size) b :: rest)
    | _ => undefined
    end
  else if cmd_id =? VERIFIER_COMMAND_HANDLE_MSG_2 then
    if negb (bool_decide (types = (TEE_PARAM_TYPE_MEMREF_INPUT, TEE_PARAM_TYPE_VALUE_OUTPUT,
                                   TEE_PARAM_TYPE_MEMREF_OUTPUT, TEE_PARAM_TYPE_NONE)))
    then mret (TEE_ERROR_BAD_PARAMETERS, params) else
    match params with
    | PMemref buffer :: PValue _ b :: rest =>
        res ← handle_msg2 buffer;
        c ← ctx;
        let a := Z.b2z (negb (failed res) && is_quote_valid c) in
        mret (res, PMemref buffer :: PValue a b :: rest)
    | _ => undefined
    end
  else if cmd_id =? VERIFIER_COMMAND_PREPARE_MSG_3 then
    if negb (bool_decide (types = (TEE_PARAM_TYPE_MEMREF_OUTPUT, TEE_PARAM_TYPE_MEMREF_OUTPUT,
                                   TEE_PARAM_TYPE_NONE, TEE_PARAM_TYPE_NONE)))
    then mret (TEE_ERROR_BAD_PARAMETERS, params) else
    match params with
    | PMemref buffer :: rest =>
        c ← ctx;
        data ← get_some (heap_bytes (secret c));
        '(res, buffer) ← prepare_msg3 buffer data (secret_size c);
        mret (res, PMemref buffer :: rest)
    | _ => undefined
    end
  else mret (TEE_ERROR_BAD_PARAMETERS, params).
End entry_points.
