(* ===== verification/TzPlatform.v ===== *)
(** * The platform layer of the WebAssembly runtime

    [core/shared/platform/linux-trustzone/] of WAMR 2.4.1: what the runtime
    gets from the trusted operating system in place of POSIX. [tz_file.c]
    captures the application's standard output in a buffer shared with the
    normal world, [tz_platform.c] maps memory, [tz_socket.c] converts byte
    orders and [tz_time.c] reads the clock. *)

From S2P Require Import Prelude TeeApi Layout.

(** ** System calls of OP-TEE that only this layer uses *)

Record TEE_Time := TeeTime { seconds : Z; millis : Z; nanos : Z }.

Class TEE_System (T : TEE) := {
  (** The address of a fresh zero-initialised mapping, or NULL. *)
  tee_map_zi : Z -> call tee (option Z);
  tee_unmap : Z -> Z -> call tee TEE_Result;
  tee_mprotect : Z -> Z -> Z -> call tee TEE_Result;
  (** The address of a mapping of the new size with the old contents, or NULL. *)
  tee_remap : Z -> Z -> call tee (option Z);
  TEE_GetREETime : call tee TEE_Time;
  PAGE_SIZE : Z;
  TEE_MATTR_UR : Z;
  TEE_MATTR_PR : Z;
  TEE_MATTR_UW : Z;
  TEE_MATTR_PW : Z;
  TEE_MATTR_UX : Z;
  TEE_MATTR_PX : Z
}.

Definition MMAP_PROT_NONE : Z := 0.
Definition MMAP_PROT_READ : Z := 1.
Definition MMAP_PROT_WRITE : Z := 2.
Definition MMAP_PROT_EXEC : Z := 4.

(** ** The output buffer ([tz_file.c]) *)

(** The pointer [output_buffer] as an offset into the shared buffer, whose
    contents are [o_bytes], and the bytes that are left. The pointer is NULL
    before the first [watz_set_output_buffer]. *)
Record output := Output {
  o_bytes : bytes;
  o_cursor : nat;
  o_left : Z
}.

Definition no_output : output := Output [] 0 0.

(** [buffer_size] is narrowed to [uint32_t]. *)
Definition watz_set_output_buffer (buffer : bytes) (buffer_size : Z) : output :=
  Output buffer 0 (wrap32 buffer_size).

Definition FIXED_BUFFER_SIZE : nat := 512.

(** The text that [%.*s] prints. The precision is read as an [int]; without
    one, or past the end of the block, a NUL has to end the string. *)
Definition precision_text (precision : Z) (buffer : bytes) : option bytes :=
  let n := wrap32 precision in
  if (n <? 2 ^ 31) && (n <=? zlen buffer) then Some (until_nul (take (Z.to_nat n) buffer))
  else c_string buffer.

(** A format string without arguments: each [%] starts a [%%]; any other
    conversion is undefined. *)
Fixpoint directive_free (format : bytes) : bool :=
  match format with
  | [] => true
  | x :: format =>
      if decide (x = Byte.x25) then
        match format with
        | y :: format => if decide (y = Byte.x25) then directive_free format else false
        | [] => false
        end
      else directive_free format
  end.

Section tz.
Context `{T : TEE} `{P : Platform}.

(** The loop that counts the characters, a [size_t]. *)
Definition count_chars (iov : list bytes) : Z :=
  foldl (fun nchars b => wrap_size sizeof_size_t (nchars + zlen b)) 0 iov.

(** The loop that copies each part after the previous one. *)
Fixpoint gather (buffer : bytes) (buffer_iter : nat) (iov : list bytes) : option bytes :=
  match iov with
  | [] => Some buffer
  | b :: iov =>
      if (buffer_iter + length b <=? length buffer)%nat
      then gather (splice buffer_iter b buffer) (buffer_iter + length b) iov
      else None
  end.

(** [os_malloc] takes an [unsigned]. *)
Definition os_malloc (size : Z) : M (world tee output) (option (Z * bytes)) :=
  tcall (TEE_Malloc (wrap32 size)).

Definition os_free (ptr : Z) : M (world tee output) () := tcall (TEE_Free ptr).

(** [os_printf("%.*s", precision, buffer)]: [vsnprintf] stores the text in a
    block of [FIXED_BUFFER_SIZE] characters, which is then the format string
    of [IMSG]. The default build logs at the level of [IMSG]. *)
Definition os_printf (precision : Z) (buffer : bytes) : M (world tee output) Z :=
  text ← get_some (precision_text precision buffer);
  require (directive_free (take (FIXED_BUFFER_SIZE - 1) text));;
  mret 0.

Definition writev (fd : Z) (iov : list bytes) : M (world tee output) Z :=
  if (fd =? 1) || (fd =? 2) then
    let nchars := count_chars iov in
    p ← os_malloc nchars;
    let block := match p with Some (_, b) => b | None => [] end in
    buffer ← get_some (gather block 0 iov);
    _ ← os_printf nchars buffer;
    o ← ctx;
    (if nchars <? o_left o then
      src ← get_some (bread buffer nchars);
      require (o_cursor o + length src <=? length (o_bytes o))%nat;;
      set_ctx (fun o => Output (splice (o_cursor o) src (o_bytes o)) (o_cursor o + length src)
                          (o_left o - nchars))
    else mret tt);;
    match p with
    | Some (a, _) => os_free a
    | None => mret tt
    end;;
    mret nchars
  else mret (-1).

Definition F_GETFL : Z := 3.

Definition fcntl (fd cmd : Z) : Z :=
  if (fd <? 3) && (cmd =? F_GETFL) then 0x8002 else -1.

(** The result and [st_mode] when it is written. *)
Definition fstat (fd : Z) : Z * option Z :=
  if fd <? 3 then (0, Some 0x2190) else (-1, None).

(** ** Memory mappings ([tz_platform.c]) *)

Context `{Sys : !TEE_System T} {C : Type}.

(** The complement is taken at the width of [size_t]. *)
Definition page_align (size : Z) : Z :=
  Z.land (wrap_size sizeof_size_t (size + PAGE_SIZE - 1))
    (wrap_size sizeof_size_t (Z.lnot (PAGE_SIZE - 1))).

Definition UINT32_MAX : Z := 2 ^ 32 - 1.

Definition os_mprotect (addr size prot : Z) : M (world tee C) Z :=
  let mprot := 0 in
  let mprot := if negb (Z.land prot MMAP_PROT_READ =? 0)
               then Z.lor mprot (Z.lor TEE_MATTR_UR TEE_MATTR_PR) else mprot in
  let mprot := if negb (Z.land prot MMAP_PROT_WRITE =? 0)
               then Z.lor mprot (Z.lor TEE_MATTR_UW TEE_MATTR_PW) else mprot in
  let mprot := if negb (Z.land prot MMAP_PROT_EXEC =? 0)
               then Z.lor mprot (Z.lor TEE_MATTR_UX TEE_MATTR_PX) else mprot in
  res ← tcall (tee_mprotect addr size mprot);
  mret (if failed res then -1 else 0).

Definition os_mmap (size prot file : Z) : M (world tee C) (option Z) :=
  if -1 <? file then mret None else
  let aligned_size := page_align size in
  if UINT32_MAX <=? aligned_size then mret None else
  ret ← tcall (tee_map_zi aligned_size);
  match ret with
  | None => mret None
  | Some addr =>
      if negb (prot =? 0) then
        r ← os_mprotect addr aligned_size prot;
        if negb (r =? 0) then
          _ ← tcall (tee_unmap addr aligned_size);
          mret None
        else mret (Some addr)
      else mret (Some addr)
  end.

(** [aligned_size] is a [uint64_t] here; [tee_unmap] takes a [size_t]. *)
Definition os_munmap (addr size : Z) : M (world tee C) () :=
  let aligned_size := Z.land (wrap_size 8 (size + PAGE_SIZE - 1))
                        (wrap_size 8 (Z.lnot (PAGE_SIZE - 1))) in
  _ ← tcall (tee_unmap addr (wrap_size sizeof_size_t aligned_size));
  mret tt.

Definition os_mremap (old_addr old_size new_size : Z) : M (world tee C) (option Z) :=
  tcall (tee_remap new_size old_addr).

(** ** The clock ([tz_time.c]) *)

Definition tee_time_to_ms (t : TEE_Time) : Z := wrap32 (wrap32 (seconds t * 1000) + millis t).

(** The product is computed in [uint32_t] before it is widened. *)
Definition os_time_get_boot_microsecond : M (world tee C) Z :=
  t ← tcall TEE_GetREETime;
  mret (wrap32 (tee_time_to_ms t * 1000)).

Definition CLOCK_MONOTONIC : Z := 1.

(** The result, and the seconds and nanoseconds when they are written. *)
Definition clock_gettime (clock_id : Z) : M (world tee C) (Z * option (Z * Z)) :=
  if negb (clock_id =? CLOCK_MONOTONIC) then mret (-1, None) else
  t ← tcall TEE_GetREETime;
  mret (0, Some (seconds t, nanos t)).
End tz.

(** ** Byte order ([tz_socket.c]) *)

Definition swap32 (pData : bytes) : bytes :=
  match pData with
  | [a; b; c; d] => [d; c; b; a]
  | _ => pData
  end.

Definition swap16 (pData : bytes) : bytes :=
  match pData with
  | [a; b] => [b; a]
  | _ => pData
  end.

(** [is_little_endian] holds on the modelled platforms. *)
Definition htonl (value : Z) : Z := le_decode (swap32 (le_encode 4 value)).
Definition ntohl (value : Z) : Z := htonl value.
Definition htons (value : Z) : Z := le_decode (swap16 (le_encode 2 value)).

(** ** [strcpy] ([tz_platform.c]) *)

(** The copy loop: bytes up to and including the NUL; [None] when it leaves
    the source or the destination. *)
Fixpoint strcpy_loop (dest : bytes) (src : bytes) : option bytes :=
  match src, dest with
  | s :: src, _ :: dest =>
      if decide (s = Byte.x00) then Some (s :: dest) else cons s <$> strcpy_loop dest src
  | _, _ => None
  end.

Definition strcpy (dest src : bytes) : option bytes := strcpy_loop dest src.
