(* ===== verification/LinearMemory.v ===== *)
(** * Linear memory

    The memory of a WebAssembly application: [core/iwasm/common/wasm_memory.c]
    and the parts of [core/iwasm/interpreter/wasm_runtime.c] that create it.
    The memory is a mapping of the trusted operating system; the application
    heap, an instance of the allocator of [Ems.v], may lie inside of it.
    Addresses of the application are offsets into the mapping.

    This is the build of the trusted application: no shared memory, no shared
    heap, no 64-bit memories, bounds checks in software, at most one memory per
    module instance, no custom allocator. [bh_assert] does nothing. A pointer is
    its address and 0 is NULL. *)

From S2P Require Import Prelude TeeApi Layout TzPlatform Memory Ems.

(** ** State *)

(** [WASMMemoryInstance]; the last field holds the five [mem_bound_check_*]. *)
Record WASMMemoryInstance := MemoryInstance {
  num_bytes_per_page : Z;
  cur_page_count : Z;
  max_page_count : Z;
  memory_data_size : Z;
  memory_data : Z;
  memory_data_end : Z;
  heap_data : Z;
  heap_data_end : Z;
  heap_handle : Z;
  mem_bound_check : list Z
}.

Inductive exception :=
| out_of_bounds_memory_access
| uninitialized_memory
| app_heap_corrupted
| out_of_memory.

Inductive enlarge_memory_error_reason_t :=
| INTERNAL_ERROR
| MAX_SIZE_REACHED.

(** [WASMModuleInstance]: [memories] is NULL or has one entry. [app_heap] is the
    heap behind [heap_handle] with all of the memory, that of the application
    included. [heap_base] is the global [__heap_base] of the application, and
    [enlarge_errors] the calls of the error callback. *)
Record WASMModuleInstance := ModuleInstance {
  memories : option WASMMemoryInstance;
  app_heap : gc_heap;
  heap_base : Z;
  cur_exception : option exception;
  enlarge_errors : list (Z * Z * enlarge_memory_error_reason_t)
}.

Definition set_memories (v : option WASMMemoryInstance) (i : WASMModuleInstance) :=
  ModuleInstance v (app_heap i) (heap_base i) (cur_exception i) (enlarge_errors i).
Definition set_app_heap (v : gc_heap) (i : WASMModuleInstance) :=
  ModuleInstance (memories i) v (heap_base i) (cur_exception i) (enlarge_errors i).
Definition set_heap_base (v : Z) (i : WASMModuleInstance) :=
  ModuleInstance (memories i) (app_heap i) v (cur_exception i) (enlarge_errors i).
Definition set_exception (v : exception) (i : WASMModuleInstance) :=
  ModuleInstance (memories i) (app_heap i) (heap_base i) (Some v) (enlarge_errors i).
Definition add_enlarge_error (v : Z * Z * enlarge_memory_error_reason_t) (i : WASMModuleInstance) :=
  ModuleInstance (memories i) (app_heap i) (heap_base i) (cur_exception i) (enlarge_errors i ++ [v]).

Definition set_memory_data (v : Z) (m : WASMMemoryInstance) : WASMMemoryInstance :=
  MemoryInstance (num_bytes_per_page m) (cur_page_count m) (max_page_count m) (memory_data_size m)
    v (memory_data_end m) (heap_data m) (heap_data_end m) (heap_handle m) (mem_bound_check m).
Definition set_heap_handle (v : Z) (m : WASMMemoryInstance) : WASMMemoryInstance :=
  MemoryInstance (num_bytes_per_page m) (cur_page_count m) (max_page_count m) (memory_data_size m)
    (memory_data m) (memory_data_end m) (heap_data m) (heap_data_end m) v (mem_bound_check m).
Definition set_mem_bound_check (v : list Z) (m : WASMMemoryInstance) : WASMMemoryInstance :=
  MemoryInstance (num_bytes_per_page m) (cur_page_count m) (max_page_count m) (memory_data_size m)
    (memory_data m) (memory_data_end m) (heap_data m) (heap_data_end m) (heap_handle m) v.

Definition BH_KB : Z := 1024.
Definition BH_GB : Z := 1024 * 1024 * 1024.
Definition UINT32_MAX : Z := 2 ^ 32 - 1.
Definition MAX_LINEAR_MEMORY_SIZE : Z := 4 * BH_GB.
Definition DEFAULT_MAX_PAGES : Z := 65536.
Definition APP_HEAP_SIZE_MAX : Z := 1024 * 1024 * 1024.

Section linear_memory.
Context `{T : TEE} `{P : Platform} `{Sys : !TEE_System T}.

Abbreviation L := (M (world tee WASMModuleInstance)).

Definition wrap_ptr (z : Z) : Z := wrap_size sizeof_size_t z.
Definition UINTPTR_MAX : Z := 2 ^ (8 * Z.of_nat sizeof_size_t) - 1.

(** [uint64] arithmetic. *)
Definition wrap_u64 (z : Z) : Z := z mod 2 ^ 64.

(** An operation of the application heap. *)
Definition heap_call {A} (m : M gc_heap A) : L A := fun w =>
  match m (app_heap (w_ctx w)) with
  | Ret (a, h) => Ret (a, World (w_tee w) (set_app_heap h (w_ctx w)))
  | Fault f => Fault f
  end.

Definition wasm_set_exception (e : exception) : L () := set_ctx (set_exception e).

Definition wasm_get_default_memory : L (option WASMMemoryInstance) := i ← ctx; mret (memories i).

Definition wasm_get_memory_with_idx (index : Z) : L (option WASMMemoryInstance) :=
  i ← ctx; mret (if index =? 0 then memories i else None).

(** ** Addresses of the application *)

(** [fail: wasm_set_exception(...); return false;] *)
Definition out_of_bounds : L bool := wasm_set_exception out_of_bounds_memory_access;; mret false.

Definition wasm_runtime_validate_app_addr (app_offset size : Z) : L bool :=
  m ← wasm_get_default_memory;
  match m with
  | None => out_of_bounds
  | Some m =>
      if (MAX_LINEAR_MEMORY_SIZE <? size)
         || (wrap_u64 (MAX_LINEAR_MEMORY_SIZE - size) <? app_offset) then out_of_bounds else
      if wrap_u64 (app_offset + size) <=? memory_data_size m then mret true else out_of_bounds
  end.

(** The range, where it is written. *)
Definition wasm_runtime_get_app_addr_range (app_offset : Z) : L (option (Z * Z)) :=
  m ← wasm_get_default_memory;
  mret (match m with
        | None => None
        | Some m => if app_offset <? memory_data_size m then Some (0, memory_data_size m) else None
        end).

Definition wasm_runtime_get_native_addr_range (addr : Z) : L (option (Z * Z)) :=
  m ← wasm_get_default_memory;
  mret (match m with
        | None => None
        | Some m => if (memory_data m <=? addr) && (addr <? memory_data_end m)
                    then Some (memory_data m, memory_data_end m) else None
        end).

(** NULL, or the address. *)
Definition wasm_runtime_addr_app_to_native (app_offset : Z) : L Z :=
  m ← wasm_get_default_memory;
  mret (match m with
        | None => 0
        | Some m =>
            let addr := wrap_ptr (memory_data m + wrap_ptr app_offset) in
            if (memory_data m <=? addr) && (addr <? memory_data_end m) then addr else 0
        end).

Definition wasm_runtime_addr_native_to_app (addr : Z) : L Z :=
  m ← wasm_get_default_memory;
  mret (match m with
        | None => 0
        | Some m => if (memory_data m <=? addr) && (addr <? memory_data_end m)
                    then addr - memory_data m else 0
        end).

Definition wasm_runtime_validate_native_addr (addr size : Z) : L bool :=
  m ← wasm_get_default_memory;
  match m with
  | None => out_of_bounds
  | Some m =>
      if (MAX_LINEAR_MEMORY_SIZE <? size) || (wrap_u64 (UINTPTR_MAX - size) <? addr)
      then out_of_bounds else
      if (memory_data m <=? addr) && (wrap_ptr (addr + size) <=? memory_data_end m)
      then mret true else out_of_bounds
  end.

(** [while (str < str_end && *str != 0) str++;] over [n] bytes; whether the
    loop stops before the end. *)
Fixpoint has_nul (m : memory) (n : nat) (str : Z) : bool :=
  match n with
  | O => false
  | S n => if decide (m str = Byte.x00) then true else has_nul m n (str + 1)
  end.

(** Whether the bytes from [str] up to [str_end] hold a NUL; where they start
    behind the end, the loop does not run and [str] differs from [str_end]. *)
Definition scan_string (str str_end : Z) : L bool :=
  i ← ctx;
  mret (if str_end <? str then true
        else has_nul (mem (app_heap i)) (Z.to_nat (str_end - str)) str).

Definition wasm_runtime_validate_app_str_addr (app_str_offset : Z) : L bool :=
  m ← wasm_get_default_memory;
  match m with
  | None => out_of_bounds
  | Some _ =>
      range ← wasm_runtime_get_app_addr_range app_str_offset;
      match range with
      | None => out_of_bounds
      | Some (_, app_end_offset) =>
          if (MAX_LINEAR_MEMORY_SIZE <=? app_str_offset)
             || (MAX_LINEAR_MEMORY_SIZE <? app_end_offset) then out_of_bounds else
          str ← wasm_runtime_addr_app_to_native app_str_offset;
          ok ← scan_string str (str + (app_end_offset - app_str_offset));
          if ok : bool then mret true else out_of_bounds
      end
  end.

(** The address that is written to [*p_native_addr]. *)
Definition wasm_check_app_addr_and_convert (is_str : bool) (app_buf_addr app_buf_size : Z)
    : L (option Z) :=
  m ← wasm_get_default_memory;
  match m with
  | None => wasm_set_exception out_of_bounds_memory_access;; mret None
  | Some m =>
      let native_addr := wrap_ptr (memory_data m + wrap_ptr app_buf_addr) in
      let fail := wasm_set_exception out_of_bounds_memory_access;; mret None in
      if memory_data_size m <=? app_buf_addr then fail else
      if negb is_str then
        if memory_data_size m - app_buf_addr <? app_buf_size then fail
        else mret (Some native_addr)
      else
        ok ← scan_string native_addr (memory_data_end m);
        if ok : bool then mret (Some native_addr) else fail
  end.

(** The macros of the interpreter for an access at [offset + addr] and for a
    range at [start], with the size of the memory that the interpreter keeps in
    a variable; [None] is the jump to [out_of_bounds]. *)
Definition CHECK_MEMORY_OVERFLOW (m : WASMMemoryInstance) (linear_mem_size offset addr bytes : Z)
    : option Z :=
  let offset1 := wrap_u64 (offset + addr) in
  if wrap_u64 (offset1 + bytes) <=? linear_mem_size then Some (memory_data m + offset1) else None.

Definition CHECK_BULK_MEMORY_OVERFLOW (m : WASMMemoryInstance) (linear_mem_size start bytes : Z)
    : option Z :=
  let offset1 := wrap32 start in
  if wrap_u64 (offset1 + bytes) <=? linear_mem_size then Some (memory_data m + offset1) else None.

(** ** The mapping *)

(** The trusted operating system has moved the mapping, with the application
    heap in it. *)
Definition mapping_moved (old new n : Z) : L () :=
  if new =? old then mret tt else
  set_ctx (fun i => set_app_heap (move_pool old new n (app_heap i)) i).

(** A fresh mapping is zero. *)
Definition mapping_cleared (new n : Z) : L () :=
  set_ctx (fun i => set_app_heap (set_mem (memset new Byte.x00 n (mem (app_heap i))) (app_heap i)) i).

Definition wasm_munmap_linear_memory (mapped_mem commit_size map_size : Z) : L () :=
  os_munmap mapped_mem map_size.

Definition wasm_mremap_linear_memory (mapped_mem old_size new_size commit_size : Z) : L Z :=
  if (Z.of_nat sizeof_size_t =? 4) && (new_size =? 4 * BH_GB) then mret 0 else
  new_mem ←
    (if negb (mapped_mem =? 0) then
       r ← os_mremap mapped_mem old_size new_size;
       match r with
       | Some new => mapping_moved mapped_mem new old_size;; mret new
       | None => mret 0
       end
     else
       r ← os_mmap new_size MMAP_PROT_NONE (-1);
       match r with
       | Some new => mapping_cleared new (page_align new_size);; mret new
       | None => mret 0
       end);
  if new_mem =? 0 then mret 0 else
  r ← os_mprotect new_mem commit_size (Z.lor MMAP_PROT_READ MMAP_PROT_WRITE);
  if negb (r =? 0) then
    wasm_munmap_linear_memory new_mem new_size new_size;; mret 0
  else mret new_mem.

Definition wasm_mmap_linear_memory (map_size commit_size : Z) : L Z :=
  wasm_mremap_linear_memory 0 0 map_size commit_size.

Definition align_as_and_cast (size alignment : Z) : Z :=
  Z.land (wrap_u64 (size + alignment - 1)) (wrap_u64 (Z.lnot (alignment - 1))).

(** [None] is [BHT_ERROR]; otherwise [*data], which is not written for an empty
    memory, and [*memory_data_size]. *)
Definition wasm_allocate_linear_memory (data num_bytes_per_page init_page_count : Z)
    : L (option (Z * Z)) :=
  let map_size := wrap_u64 (init_page_count * num_bytes_per_page) in
  let memory_data_size :=
    align_as_and_cast (wrap_u64 (init_page_count * num_bytes_per_page)) PAGE_SIZE in
  if 0 <? map_size then
    data ← wasm_mmap_linear_memory map_size memory_data_size;
    mret (if data =? 0 then None else Some (data, memory_data_size))
  else mret (Some (data, memory_data_size)).

(** The instance afterwards. *)
Definition wasm_deallocate_linear_memory (m : WASMMemoryInstance) : L WASMMemoryInstance :=
  let map_size := wrap_u64 (num_bytes_per_page m * cur_page_count m) in
  wasm_munmap_linear_memory (memory_data m) (memory_data_size m) map_size;;
  mret (set_memory_data 0 m).

(** The five bounds, at the width of a pointer. *)
Definition wasm_runtime_set_mem_bound_check_bytes (memory_data_size : Z) : list Z :=
  (fun n => wrap_ptr (memory_data_size - n)) <$> [1; 2; 4; 8; 16].

(** ** Growing *)

Section enlarge.
(** Whether an error callback is registered. *)
Context (enlarge_memory_error_cb : bool).

(** [module]: whether the function is called with a module instance. The memory
    is the one of the instance; [None] is NULL. *)
Definition wasm_enlarge_memory_internal (module : bool) (inc_page_count : Z) : L bool :=
  memory ← wasm_get_default_memory;
  let return_func (ret : bool) total_size_old failure_reason :=
    (if negb ret && module && enlarge_memory_error_cb
     then set_ctx (add_enlarge_error (inc_page_count, total_size_old, failure_reason))
     else mret tt);;
    mret ret in
  match memory with
  | None => return_func false 0 INTERNAL_ERROR
  | Some m =>
      let total_size_old := memory_data_size m in
      let heap_size := wrap32 (heap_data_end m - heap_data m) in
      let total_page_count := wrap32 (inc_page_count + cur_page_count m) in
      let total_size_new := wrap_u64 (num_bytes_per_page m * total_page_count) in
      if inc_page_count <=? 0 then mret true else
      if total_page_count <? cur_page_count m then return_func false total_size_old INTERNAL_ERROR else
      if max_page_count m <? total_page_count
      then return_func false total_size_old MAX_SIZE_REACHED else
      corrupted ← (if 0 <? heap_size then heap_call mem_allocator_is_heap_corrupted else mret false);
      if corrupted : bool then return_func false total_size_old INTERNAL_ERROR else
      memory_data_new ← wasm_mremap_linear_memory (memory_data m) total_size_old total_size_new
                          total_size_new;
      if memory_data_new =? 0 then return_func false total_size_old INTERNAL_ERROR else
      ret ← (if 0 <? heap_size then
               r ← heap_call (mem_allocator_migrate
                                (heap_data m + (memory_data_new - memory_data m)) heap_size);
               mret (r =? 0)
             else mret true);
      let heap_data_new := memory_data_new + (heap_data m - memory_data m) in
      set_ctx (set_memories (Some (MemoryInstance (num_bytes_per_page m) total_page_count
        (max_page_count m) total_size_new memory_data_new (memory_data_new + total_size_new)
        heap_data_new (heap_data_new + heap_size) (heap_handle m)
        (wasm_runtime_set_mem_bound_check_bytes total_size_new))));;
      return_func ret total_size_old INTERNAL_ERROR
  end.

Definition memory_count : L Z :=
  i ← ctx; mret (match memories i with Some _ => 1 | None => 0 end).

Definition wasm_enlarge_memory (inc_page_count : Z) : L bool :=
  n ← memory_count;
  if 0 <? n then wasm_enlarge_memory_internal true inc_page_count else mret false.

Definition wasm_enlarge_memory_with_idx (inc_page_count memidx : Z) : L bool :=
  n ← memory_count;
  if memidx <? n then wasm_enlarge_memory_internal true inc_page_count else mret false.

Definition wasm_runtime_enlarge_memory (inc_page_count : Z) : L bool :=
  if UINT32_MAX <? inc_page_count then mret false else
  wasm_enlarge_memory (wrap32 inc_page_count).

(** The page count is narrowed without a check. *)
Definition wasm_memory_enlarge (inc_page_count : Z) : L bool :=
  memory ← wasm_get_default_memory;
  match memory with
  | Some _ => wasm_enlarge_memory_internal false (wrap32 inc_page_count)
  | None => mret false
  end.

(** [memory.grow] of the interpreter: the value it pushes, as a [uint32]. *)
Definition memory_grow (delta mem_idx : Z) : L Z :=
  memory ← wasm_get_default_memory;
  let prev_page_count := match memory with Some m => cur_page_count m | None => 0 end in
  ok ← wasm_enlarge_memory_with_idx (wrap32 delta) mem_idx;
  mret (if ok : bool then prev_page_count else wrap32 (-1)).
End enlarge.

(** ** Creation *)

(** [wasm_instantiate]: the heap size that was asked for. *)
Definition align_uint (v b : Z) : Z := let m := b - 1 in Z.ldiff (wrap32 (v + m)) m.

Definition instance_heap_size (heap_size : Z) : Z :=
  let heap_size := align_uint heap_size 8 in
  if APP_HEAP_SIZE_MAX <? heap_size then APP_HEAP_SIZE_MAX else heap_size.

Definition wasm_runtime_get_max_mem (max_memory_pages module_init_page_count
    module_max_page_count : Z) : Z :=
  if max_memory_pages =? 0 then module_max_page_count else
  if max_memory_pages <? module_init_page_count then module_init_page_count else
  if module_max_page_count <? max_memory_pages then module_max_page_count else
  max_memory_pages.

(** What a module says about its memory: the type, whether it exports [malloc]
    and [free], and the value of [__heap_base]. *)
Record WASMModule := WasmModule {
  mem_bytes_per_page : Z;
  mem_init_page_count : Z;
  mem_max_page_count : Z;
  exports_malloc_free : bool;
  aux_heap_base : option Z
}.

(** Sizes of a memory with room for the application heap, the place of the
    heap, and the new value of [__heap_base]. *)
Record placement := Placement {
  pl_bytes_per_page : Z;
  pl_init_page_count : Z;
  pl_max_page_count : Z;
  pl_heap_offset : Z;
  pl_heap_size : Z;
  pl_heap_base : option Z
}.

(** The heap before [__heap_base]: the pages to add and the new base. *)
Definition insert_before_heap_base (num_bytes_per_page heap_size aux_heap_base : Z) : Z * Z :=
  let to_page_end base :=
    let bytes_of_last_page := base mod num_bytes_per_page in
    let bytes_of_last_page :=
      if bytes_of_last_page =? 0 then num_bytes_per_page else bytes_of_last_page in
    num_bytes_per_page - bytes_of_last_page in
  let inc_page_count :=
    wrap32 (heap_size - to_page_end aux_heap_base + num_bytes_per_page - 1) / num_bytes_per_page in
  let aux_heap_base := wrap_u64 (aux_heap_base + heap_size) in
  if to_page_end aux_heap_base <? 1 * BH_KB
  then (wrap32 (inc_page_count + 1), wrap_u64 (aux_heap_base + 1 * BH_KB))
  else (inc_page_count, aux_heap_base).

(** The part of [memory_instantiate] that makes room for the heap; [None] is an
    error. *)
Definition insert_app_heap (module : WASMModule)
    (num_bytes_per_page init_page_count max_page_count heap_size : Z) : option placement :=
  let heap_offset := num_bytes_per_page * init_page_count in
  let heap_size := if (0 <? heap_size) && exports_malloc_free module then 0 else heap_size in
  if (0 <? heap_size) && (heap_offset =? MAX_LINEAR_MEMORY_SIZE) then None else
  if (init_page_count =? max_page_count) && (init_page_count =? 1) then
    let heap_offset := num_bytes_per_page in
    let num_bytes_per_page := wrap32 (num_bytes_per_page + heap_size) in
    if num_bytes_per_page <? heap_size then None else
    Some (Placement num_bytes_per_page init_page_count max_page_count heap_offset heap_size None)
  else if 0 <? heap_size then
    let finish num_bytes_per_page inc_page_count heap_offset heap_size base :=
      let init_page_count := wrap32 (init_page_count + inc_page_count) in
      let max_page_count := wrap32 (max_page_count + inc_page_count) in
      if DEFAULT_MAX_PAGES <? init_page_count then None else
      let max_page_count := if DEFAULT_MAX_PAGES <? max_page_count then DEFAULT_MAX_PAGES
                            else max_page_count in
      Some (Placement num_bytes_per_page init_page_count max_page_count heap_offset heap_size base) in
    let before_new_page :=
      let inc_page_count :=
        wrap32 (heap_size + num_bytes_per_page - 1) / num_bytes_per_page in
      let heap_size := wrap32 (num_bytes_per_page * inc_page_count) in
      let heap_size := if 0 <? heap_size then wrap32 (heap_size - 1 * BH_KB) else heap_size in
      finish num_bytes_per_page inc_page_count (num_bytes_per_page * init_page_count) heap_size None in
    if (init_page_count =? max_page_count) && (init_page_count =? 0) then
      finish heap_size 1 0 heap_size None
    else match aux_heap_base module with
    | Some base =>
        if base <? num_bytes_per_page * init_page_count then
          let '(inc_page_count, base') :=
            insert_before_heap_base num_bytes_per_page heap_size base in
          finish num_bytes_per_page inc_page_count base heap_size (Some (wrap32 base'))
        else before_new_page
    | None => before_new_page
    end
  else Some (Placement num_bytes_per_page init_page_count max_page_count heap_offset heap_size None).

(** [runtime_malloc] of the structure of the heap returns [handle], or NULL. *)
Definition memory_instantiate (module : WASMModule)
    (num_bytes_per_page init_page_count max_page_count heap_size handle : Z)
    : L (option WASMMemoryInstance) :=
  match insert_app_heap module num_bytes_per_page init_page_count max_page_count heap_size with
  | None => mret None
  | Some pl =>
      (match pl_heap_base pl with
       | Some base => set_ctx (set_heap_base base)
       | None => mret tt
       end);;
      r ← wasm_allocate_linear_memory 0 (pl_bytes_per_page pl) (pl_init_page_count pl);
      match r with
      | None => mret None
      | Some (data, size) =>
          let heap := data + pl_heap_offset pl in
          let m := MemoryInstance (pl_bytes_per_page pl) (pl_init_page_count pl)
                     (pl_max_page_count pl) size data (data + size) heap (heap + pl_heap_size pl)
                     0 [] in
          let fail1 :=
            (if negb (data =? 0) then _ ← wasm_deallocate_linear_memory m; mret tt
             else mret tt);;
            mret None in
          let success m :=
            mret (Some (if 0 <? size
                        then set_mem_bound_check (wasm_runtime_set_mem_bound_check_bytes size) m
                        else m)) in
          if 0 <? pl_heap_size pl then
            let heap_struct_size := mem_allocator_get_heap_struct_size (Z.of_nat sizeof_size_t) in
            if handle =? 0 then fail1 else
            i ← ctx;
            match mem_allocator_create_with_struct_and_pool (Z.of_nat sizeof_size_t) handle
                    heap_struct_size heap (pl_heap_size pl) (mem (app_heap i)) with
            | None => fail1
            | Some (_, h) =>
                set_ctx (set_app_heap h);;
                success (set_heap_handle handle m)
            end
          else success m
      end
  end.

(** The memory of a module with one memory; on failure [memories_deinstantiate]
    has nothing to release. *)
Definition memories_instantiate (module : WASMModule) (heap_size max_memory_pages handle : Z)
    : L bool :=
  let max_page_count := wasm_runtime_get_max_mem max_memory_pages (mem_init_page_count module)
                          (mem_max_page_count module) in
  m ← memory_instantiate module (mem_bytes_per_page module) (mem_init_page_count module)
        max_page_count heap_size handle;
  match m with
  | Some m => set_ctx (set_memories (Some m));; mret true
  | None => set_ctx (set_memories None);; mret false
  end.

Definition memories_deinstantiate : L () :=
  i ← ctx;
  match memories i with
  | None => mret tt
  | Some m =>
      (if negb (heap_handle m =? 0)
       then _ ← heap_call (mem_allocator_destroy (Z.of_nat sizeof_size_t) (heap_handle m)); mret tt
       else mret tt);;
      let m := set_heap_handle 0 m in
      (if negb (memory_data m =? 0) then _ ← wasm_deallocate_linear_memory m; mret tt
       else mret tt);;
      set_ctx (set_memories None)
  end.

(** ** Allocation for the application *)

Section module_malloc.
(** The functions [malloc] and [free] of the application, where it exports
    them: code that the interpreter runs. *)
Context (execute_malloc_function : option (Z -> L (option Z))).
Context (execute_free_function : option (Z -> L ())).

(** The offset, or 0. *)
Definition wasm_module_malloc_internal (size : Z) : L Z :=
  memory ← wasm_get_default_memory;
  match memory with
  | None => wasm_set_exception uninitialized_memory;; mret 0
  | Some m =>
      addr ← (if negb (heap_handle m =? 0) then a ← heap_call (mem_allocator_malloc (wrap32 size)); mret (Some a)
              else match execute_malloc_function, execute_free_function with
              | Some f, Some _ =>
                  r ← f size;
                  match r with
                  | None => mret None
                  | Some offset =>
                      memory ← wasm_get_default_memory;
                      m ← get_some memory;
                      mret (Some (if offset =? 0 then 0 else memory_data m + offset))
                  end
              | _, _ => mret (Some 0)
              end);
      match addr with
      | None => mret 0
      | Some addr =>
          memory ← wasm_get_default_memory;
          m ← get_some memory;
          if addr =? 0 then
            corrupted ← (if negb (heap_handle m =? 0) then heap_call mem_allocator_is_heap_corrupted
                         else mret false);
            (if corrupted : bool then wasm_set_exception app_heap_corrupted else mret tt);;
            mret 0
          else mret (addr - memory_data m)
      end
  end.

Definition wasm_module_realloc_internal (ptr size : Z) : L Z :=
  memory ← wasm_get_default_memory;
  match memory with
  | None => wasm_set_exception uninitialized_memory;; mret 0
  | Some m =>
      addr ← (if negb (heap_handle m =? 0)
              then heap_call (mem_allocator_realloc
                     (if wrap32 ptr =? 0 then 0 else memory_data m + wrap32 ptr) (wrap32 size))
              else mret 0);
      if addr =? 0 then
        corrupted ← (if negb (heap_handle m =? 0) then heap_call mem_allocator_is_heap_corrupted
                     else mret false);
        wasm_set_exception (if corrupted : bool then app_heap_corrupted else out_of_memory);;
        mret 0
      else mret (addr - memory_data m)
  end.

Definition wasm_module_free_internal (ptr : Z) : L () :=
  memory ← wasm_get_default_memory;
  match memory with
  | None => mret tt
  | Some m =>
      if ptr =? 0 then mret tt else
      let addr := memory_data m + wrap32 ptr in
      if negb (heap_handle m =? 0) && (heap_data m <=? addr) && (addr <? heap_data_end m)
      then heap_call (mem_allocator_free addr)
      else match execute_malloc_function, execute_free_function with
      | Some _, Some f =>
          if (memory_data m <=? addr) && (addr <? memory_data_end m) then f ptr else mret tt
      | _, _ => mret tt
      end
  end.

Definition wasm_module_malloc (size : Z) : L Z := wasm_module_malloc_internal size.
Definition wasm_module_realloc (ptr size : Z) : L Z := wasm_module_realloc_internal ptr size.
Definition wasm_module_free (ptr : Z) : L () := wasm_module_free_internal ptr.
End module_malloc.
End linear_memory.
