(* ===== verification/Opcode.v ===== *)
(** * Instructions and value types

    The enumerations of [core/iwasm/interpreter/wasm_opcode.h] and the value
    types of [core/iwasm/interpreter/wasm.h] with their sizes, in the build of
    the trusted application: no garbage collection, no SIMD, no 64-bit
    memories. The opcodes that start with [EXT_OP] and the ones with the suffix
    [64] are no WebAssembly: the loader puts them into the code for the
    interpreter. *)

From S2P Require Import Prelude.

(** ** Opcodes *)

Inductive WASMOpcode :=
| WASM_OP_UNREACHABLE | WASM_OP_NOP | WASM_OP_BLOCK | WASM_OP_LOOP | WASM_OP_IF | WASM_OP_ELSE
| WASM_OP_TRY | WASM_OP_CATCH | WASM_OP_THROW | WASM_OP_RETHROW | WASM_OP_UNUSED_0x0a
| WASM_OP_END | WASM_OP_BR | WASM_OP_BR_IF | WASM_OP_BR_TABLE | WASM_OP_RETURN | WASM_OP_CALL
| WASM_OP_CALL_INDIRECT | WASM_OP_RETURN_CALL | WASM_OP_RETURN_CALL_INDIRECT | WASM_OP_CALL_REF
| WASM_OP_RETURN_CALL_REF | WASM_OP_UNUSED_0x16 | WASM_OP_UNUSED_0x17 | WASM_OP_DELEGATE
| WASM_OP_CATCH_ALL | WASM_OP_DROP | WASM_OP_SELECT | WASM_OP_SELECT_T | WASM_OP_GET_GLOBAL_64
| WASM_OP_SET_GLOBAL_64 | WASM_OP_SET_GLOBAL_AUX_STACK | WASM_OP_GET_LOCAL | WASM_OP_SET_LOCAL
| WASM_OP_TEE_LOCAL | WASM_OP_GET_GLOBAL | WASM_OP_SET_GLOBAL | WASM_OP_TABLE_GET
| WASM_OP_TABLE_SET | WASM_OP_UNUSED_0x27 | WASM_OP_I32_LOAD | WASM_OP_I64_LOAD
| WASM_OP_F32_LOAD | WASM_OP_F64_LOAD | WASM_OP_I32_LOAD8_S | WASM_OP_I32_LOAD8_U
| WASM_OP_I32_LOAD16_S | WASM_OP_I32_LOAD16_U | WASM_OP_I64_LOAD8_S | WASM_OP_I64_LOAD8_U
| WASM_OP_I64_LOAD16_S | WASM_OP_I64_LOAD16_U | WASM_OP_I64_LOAD32_S | WASM_OP_I64_LOAD32_U
| WASM_OP_I32_STORE | WASM_OP_I64_STORE | WASM_OP_F32_STORE | WASM_OP_F64_STORE
| WASM_OP_I32_STORE8 | WASM_OP_I32_STORE16 | WASM_OP_I64_STORE8 | WASM_OP_I64_STORE16
| WASM_OP_I64_STORE32 | WASM_OP_MEMORY_SIZE | WASM_OP_MEMORY_GROW | WASM_OP_I32_CONST
| WASM_OP_I64_CONST | WASM_OP_F32_CONST | WASM_OP_F64_CONST | WASM_OP_I32_EQZ | WASM_OP_I32_EQ
| WASM_OP_I32_NE | WASM_OP_I32_LT_S | WASM_OP_I32_LT_U | WASM_OP_I32_GT_S | WASM_OP_I32_GT_U
| WASM_OP_I32_LE_S | WASM_OP_I32_LE_U | WASM_OP_I32_GE_S | WASM_OP_I32_GE_U | WASM_OP_I64_EQZ
| WASM_OP_I64_EQ | WASM_OP_I64_NE | WASM_OP_I64_LT_S | WASM_OP_I64_LT_U | WASM_OP_I64_GT_S
| WASM_OP_I64_GT_U | WASM_OP_I64_LE_S | WASM_OP_I64_LE_U | WASM_OP_I64_GE_S | WASM_OP_I64_GE_U
| WASM_OP_F32_EQ | WASM_OP_F32_NE | WASM_OP_F32_LT | WASM_OP_F32_GT | WASM_OP_F32_LE
| WASM_OP_F32_GE | WASM_OP_F64_EQ | WASM_OP_F64_NE | WASM_OP_F64_LT | WASM_OP_F64_GT
| WASM_OP_F64_LE | WASM_OP_F64_GE | WASM_OP_I32_CLZ | WASM_OP_I32_CTZ | WASM_OP_I32_POPCNT
| WASM_OP_I32_ADD | WASM_OP_I32_SUB | WASM_OP_I32_MUL | WASM_OP_I32_DIV_S | WASM_OP_I32_DIV_U
| WASM_OP_I32_REM_S | WASM_OP_I32_REM_U | WASM_OP_I32_AND | WASM_OP_I32_OR | WASM_OP_I32_XOR
| WASM_OP_I32_SHL | WASM_OP_I32_SHR_S | WASM_OP_I32_SHR_U | WASM_OP_I32_ROTL | WASM_OP_I32_ROTR
| WASM_OP_I64_CLZ | WASM_OP_I64_CTZ | WASM_OP_I64_POPCNT | WASM_OP_I64_ADD | WASM_OP_I64_SUB
| WASM_OP_I64_MUL | WASM_OP_I64_DIV_S | WASM_OP_I64_DIV_U | WASM_OP_I64_REM_S
| WASM_OP_I64_REM_U | WASM_OP_I64_AND | WASM_OP_I64_OR | WASM_OP_I64_XOR | WASM_OP_I64_SHL
| WASM_OP_I64_SHR_S | WASM_OP_I64_SHR_U | WASM_OP_I64_ROTL | WASM_OP_I64_ROTR | WASM_OP_F32_ABS
| WASM_OP_F32_NEG | WASM_OP_F32_CEIL | WASM_OP_F32_FLOOR | WASM_OP_F32_TRUNC
| WASM_OP_F32_NEAREST | WASM_OP_F32_SQRT | WASM_OP_F32_ADD | WASM_OP_F32_SUB | WASM_OP_F32_MUL
| WASM_OP_F32_DIV | WASM_OP_F32_MIN | WASM_OP_F32_MAX | WASM_OP_F32_COPYSIGN | WASM_OP_F64_ABS
| WASM_OP_F64_NEG | WASM_OP_F64_CEIL | WASM_OP_F64_FLOOR | WASM_OP_F64_TRUNC
| WASM_OP_F64_NEAREST | WASM_OP_F64_SQRT | WASM_OP_F64_ADD | WASM_OP_F64_SUB | WASM_OP_F64_MUL
| WASM_OP_F64_DIV | WASM_OP_F64_MIN | WASM_OP_F64_MAX | WASM_OP_F64_COPYSIGN
| WASM_OP_I32_WRAP_I64 | WASM_OP_I32_TRUNC_S_F32 | WASM_OP_I32_TRUNC_U_F32
| WASM_OP_I32_TRUNC_S_F64 | WASM_OP_I32_TRUNC_U_F64 | WASM_OP_I64_EXTEND_S_I32
| WASM_OP_I64_EXTEND_U_I32 | WASM_OP_I64_TRUNC_S_F32 | WASM_OP_I64_TRUNC_U_F32
| WASM_OP_I64_TRUNC_S_F64 | WASM_OP_I64_TRUNC_U_F64 | WASM_OP_F32_CONVERT_S_I32
| WASM_OP_F32_CONVERT_U_I32 | WASM_OP_F32_CONVERT_S_I64 | WASM_OP_F32_CONVERT_U_I64
| WASM_OP_F32_DEMOTE_F64 | WASM_OP_F64_CONVERT_S_I32 | WASM_OP_F64_CONVERT_U_I32
| WASM_OP_F64_CONVERT_S_I64 | WASM_OP_F64_CONVERT_U_I64 | WASM_OP_F64_PROMOTE_F32
| WASM_OP_I32_REINTERPRET_F32 | WASM_OP_I64_REINTERPRET_F64 | WASM_OP_F32_REINTERPRET_I32
| WASM_OP_F64_REINTERPRET_I64 | WASM_OP_I32_EXTEND8_S | WASM_OP_I32_EXTEND16_S
| WASM_OP_I64_EXTEND8_S | WASM_OP_I64_EXTEND16_S | WASM_OP_I64_EXTEND32_S | WASM_OP_DROP_64
| WASM_OP_SELECT_64 | EXT_OP_GET_LOCAL_FAST | EXT_OP_SET_LOCAL_FAST_I64 | EXT_OP_SET_LOCAL_FAST
| EXT_OP_TEE_LOCAL_FAST | EXT_OP_TEE_LOCAL_FAST_I64 | EXT_OP_COPY_STACK_TOP
| EXT_OP_COPY_STACK_TOP_I64 | EXT_OP_COPY_STACK_VALUES | WASM_OP_IMPDEP | WASM_OP_REF_NULL
| WASM_OP_REF_IS_NULL | WASM_OP_REF_FUNC | WASM_OP_REF_EQ | WASM_OP_REF_AS_NON_NULL
| WASM_OP_BR_ON_NULL | WASM_OP_BR_ON_NON_NULL | EXT_OP_BLOCK | EXT_OP_LOOP | EXT_OP_IF
| EXT_OP_BR_TABLE_CACHE | EXT_OP_TRY | WASM_OP_GC_PREFIX | WASM_OP_MISC_PREFIX
| WASM_OP_SIMD_PREFIX | WASM_OP_ATOMIC_PREFIX.

(** The value of an opcode, and the opcode of a byte of the code. *)
Definition opcode_byte (o : WASMOpcode) : byte :=
  match o with
  | WASM_OP_UNREACHABLE => Byte.x00
  | WASM_OP_NOP => Byte.x01
  | WASM_OP_BLOCK => Byte.x02
  | WASM_OP_LOOP => Byte.x03
  | WASM_OP_IF => Byte.x04
  | WASM_OP_ELSE => Byte.x05
  | WASM_OP_TRY => Byte.x06
  | WASM_OP_CATCH => Byte.x07
  | WASM_OP_THROW => Byte.x08
  | WASM_OP_RETHROW => Byte.x09
  | WASM_OP_UNUSED_0x0a => Byte.x0a
  | WASM_OP_END => Byte.x0b
  | WASM_OP_BR => Byte.x0c
  | WASM_OP_BR_IF => Byte.x0d
  | WASM_OP_BR_TABLE => Byte.x0e
  | WASM_OP_RETURN => Byte.x0f
  | WASM_OP_CALL => Byte.x10
  | WASM_OP_CALL_INDIRECT => Byte.x11
  | WASM_OP_RETURN_CALL => Byte.x12
  | WASM_OP_RETURN_CALL_INDIRECT => Byte.x13
  | WASM_OP_CALL_REF => Byte.x14
  | WASM_OP_RETURN_CALL_REF => Byte.x15
  | WASM_OP_UNUSED_0x16 => Byte.x16
  | WASM_OP_UNUSED_0x17 => Byte.x17
  | WASM_OP_DELEGATE => Byte.x18
  | WASM_OP_CATCH_ALL => Byte.x19
  | WASM_OP_DROP => Byte.x1a
  | WASM_OP_SELECT => Byte.x1b
  | WASM_OP_SELECT_T => Byte.x1c
  | WASM_OP_GET_GLOBAL_64 => Byte.x1d
  | WASM_OP_SET_GLOBAL_64 => Byte.x1e
  | WASM_OP_SET_GLOBAL_AUX_STACK => Byte.x1f
  | WASM_OP_GET_LOCAL => Byte.x20
  | WASM_OP_SET_LOCAL => Byte.x21
  | WASM_OP_TEE_LOCAL => Byte.x22
  | WASM_OP_GET_GLOBAL => Byte.x23
  | WASM_OP_SET_GLOBAL => Byte.x24
  | WASM_OP_TABLE_GET => Byte.x25
  | WASM_OP_TABLE_SET => Byte.x26
  | WASM_OP_UNUSED_0x27 => Byte.x27
  | WASM_OP_I32_LOAD => Byte.x28
  | WASM_OP_I64_LOAD => Byte.x29
  | WASM_OP_F32_LOAD => Byte.x2a
  | WASM_OP_F64_LOAD => Byte.x2b
  | WASM_OP_I32_LOAD8_S => Byte.x2c
  | WASM_OP_I32_LOAD8_U => Byte.x2d
  | WASM_OP_I32_LOAD16_S => Byte.x2e
  | WASM_OP_I32_LOAD16_U => Byte.x2f
  | WASM_OP_I64_LOAD8_S => Byte.x30
  | WASM_OP_I64_LOAD8_U => Byte.x31
  | WASM_OP_I64_LOAD16_S => Byte.x32
  | WASM_OP_I64_LOAD16_U => Byte.x33
  | WASM_OP_I64_LOAD32_S => Byte.x34
  | WASM_OP_I64_LOAD32_U => Byte.x35
  | WASM_OP_I32_STORE => Byte.x36
  | WASM_OP_I64_STORE => Byte.x37
  | WASM_OP_F32_STORE => Byte.x38
  | WASM_OP_F64_STORE => Byte.x39
  | WASM_OP_I32_STORE8 => Byte.x3a
  | WASM_OP_I32_STORE16 => Byte.x3b
  | WASM_OP_I64_STORE8 => Byte.x3c
  | WASM_OP_I64_STORE16 => Byte.x3d
  | WASM_OP_I64_STORE32 => Byte.x3e
  | WASM_OP_MEMORY_SIZE => Byte.x3f
  | WASM_OP_MEMORY_GROW => Byte.x40
  | WASM_OP_I32_CONST => Byte.x41
  | WASM_OP_I64_CONST => Byte.x42
  | WASM_OP_F32_CONST => Byte.x43
  | WASM_OP_F64_CONST => Byte.x44
  | WASM_OP_I32_EQZ => Byte.x45
  | WASM_OP_I32_EQ => Byte.x46
  | WASM_OP_I32_NE => Byte.x47
  | WASM_OP_I32_LT_S => Byte.x48
  | WASM_OP_I32_LT_U => Byte.x49
  | WASM_OP_I32_GT_S => Byte.x4a
  | WASM_OP_I32_GT_U => Byte.x4b
  | WASM_OP_I32_LE_S => Byte.x4c
  | WASM_OP_I32_LE_U => Byte.x4d
  | WASM_OP_I32_GE_S => Byte.x4e
  | WASM_OP_I32_GE_U => Byte.x4f
  | WASM_OP_I64_EQZ => Byte.x50
  | WASM_OP_I64_EQ => Byte.x51
  | WASM_OP_I64_NE => Byte.x52
  | WASM_OP_I64_LT_S => Byte.x53
  | WASM_OP_I64_LT_U => Byte.x54
  | WASM_OP_I64_GT_S => Byte.x55
  | WASM_OP_I64_GT_U => Byte.x56
  | WASM_OP_I64_LE_S => Byte.x57
  | WASM_OP_I64_LE_U => Byte.x58
  | WASM_OP_I64_GE_S => Byte.x59
  | WASM_OP_I64_GE_U => Byte.x5a
  | WASM_OP_F32_EQ => Byte.x5b
  | WASM_OP_F32_NE => Byte.x5c
  | WASM_OP_F32_LT => Byte.x5d
  | WASM_OP_F32_GT => Byte.x5e
  | WASM_OP_F32_LE => Byte.x5f
  | WASM_OP_F32_GE => Byte.x60
  | WASM_OP_F64_EQ => Byte.x61
  | WASM_OP_F64_NE => Byte.x62
  | WASM_OP_F64_LT => Byte.x63
  | WASM_OP_F64_GT => Byte.x64
  | WASM_OP_F64_LE => Byte.x65
  | WASM_OP_F64_GE => Byte.x66
  | WASM_OP_I32_CLZ => Byte.x67
  | WASM_OP_I32_CTZ => Byte.x68
  | WASM_OP_I32_POPCNT => Byte.x69
  | WASM_OP_I32_ADD => Byte.x6a
  | WASM_OP_I32_SUB => Byte.x6b
  | WASM_OP_I32_MUL => Byte.x6c
  | WASM_OP_I32_DIV_S => Byte.x6d
  | WASM_OP_I32_DIV_U => Byte.x6e
  | WASM_OP_I32_REM_S => Byte.x6f
  | WASM_OP_I32_REM_U => Byte.x70
  | WASM_OP_I32_AND => Byte.x71
  | WASM_OP_I32_OR => Byte.x72
  | WASM_OP_I32_XOR => Byte.x73
  | WASM_OP_I32_SHL => Byte.x74
  | WASM_OP_I32_SHR_S => Byte.x75
  | WASM_OP_I32_SHR_U => Byte.x76
  | WASM_OP_I32_ROTL => Byte.x77
  | WASM_OP_I32_ROTR => Byte.x78
  | WASM_OP_I64_CLZ => Byte.x79
  | WASM_OP_I64_CTZ => Byte.x7a
  | WASM_OP_I64_POPCNT => Byte.x7b
  | WASM_OP_I64_ADD => Byte.x7c
  | WASM_OP_I64_SUB => Byte.x7d
  | WASM_OP_I64_MUL => Byte.x7e
  | WASM_OP_I64_DIV_S => Byte.x7f
  | WASM_OP_I64_DIV_U => Byte.x80
  | WASM_OP_I64_REM_S => Byte.x81
  | WASM_OP_I64_REM_U => Byte.x82
  | WASM_OP_I64_AND => Byte.x83
  | WASM_OP_I64_OR => Byte.x84
  | WASM_OP_I64_XOR => Byte.x85
  | WASM_OP_I64_SHL => Byte.x86
  | WASM_OP_I64_SHR_S => Byte.x87
  | WASM_OP_I64_SHR_U => Byte.x88
  | WASM_OP_I64_ROTL => Byte.x89
  | WASM_OP_I64_ROTR => Byte.x8a
  | WASM_OP_F32_ABS => Byte.x8b
  | WASM_OP_F32_NEG => Byte.x8c
  | WASM_OP_F32_CEIL => Byte.x8d
  | WASM_OP_F32_FLOOR => Byte.x8e
  | WASM_OP_F32_TRUNC => Byte.x8f
  | WASM_OP_F32_NEAREST => Byte.x90
  | WASM_OP_F32_SQRT => Byte.x91
  | WASM_OP_F32_ADD => Byte.x92
  | WASM_OP_F32_SUB => Byte.x93
  | WASM_OP_F32_MUL => Byte.x94
  | WASM_OP_F32_DIV => Byte.x95
  | WASM_OP_F32_MIN => Byte.x96
  | WASM_OP_F32_MAX => Byte.x97
  | WASM_OP_F32_COPYSIGN => Byte.x98
  | WASM_OP_F64_ABS => Byte.x99
  | WASM_OP_F64_NEG => Byte.x9a
  | WASM_OP_F64_CEIL => Byte.x9b
  | WASM_OP_F64_FLOOR => Byte.x9c
  | WASM_OP_F64_TRUNC => Byte.x9d
  | WASM_OP_F64_NEAREST => Byte.x9e
  | WASM_OP_F64_SQRT => Byte.x9f
  | WASM_OP_F64_ADD => Byte.xa0
  | WASM_OP_F64_SUB => Byte.xa1
  | WASM_OP_F64_MUL => Byte.xa2
  | WASM_OP_F64_DIV => Byte.xa3
  | WASM_OP_F64_MIN => Byte.xa4
  | WASM_OP_F64_MAX => Byte.xa5
  | WASM_OP_F64_COPYSIGN => Byte.xa6
  | WASM_OP_I32_WRAP_I64 => Byte.xa7
  | WASM_OP_I32_TRUNC_S_F32 => Byte.xa8
  | WASM_OP_I32_TRUNC_U_F32 => Byte.xa9
  | WASM_OP_I32_TRUNC_S_F64 => Byte.xaa
  | WASM_OP_I32_TRUNC_U_F64 => Byte.xab
  | WASM_OP_I64_EXTEND_S_I32 => Byte.xac
  | WASM_OP_I64_EXTEND_U_I32 => Byte.xad
  | WASM_OP_I64_TRUNC_S_F32 => Byte.xae
  | WASM_OP_I64_TRUNC_U_F32 => Byte.xaf
  | WASM_OP_I64_TRUNC_S_F64 => Byte.xb0
  | WASM_OP_I64_TRUNC_U_F64 => Byte.xb1
  | WASM_OP_F32_CONVERT_S_I32 => Byte.xb2
  | WASM_OP_F32_CONVERT_U_I32 => Byte.xb3
  | WASM_OP_F32_CONVERT_S_I64 => Byte.xb4
  | WASM_OP_F32_CONVERT_U_I64 => Byte.xb5
  | WASM_OP_F32_DEMOTE_F64 => Byte.xb6
  | WASM_OP_F64_CONVERT_S_I32 => Byte.xb7
  | WASM_OP_F64_CONVERT_U_I32 => Byte.xb8
  | WASM_OP_F64_CONVERT_S_I64 => Byte.xb9
  | WASM_OP_F64_CONVERT_U_I64 => Byte.xba
  | WASM_OP_F64_PROMOTE_F32 => Byte.xbb
  | WASM_OP_I32_REINTERPRET_F32 => Byte.xbc
  | WASM_OP_I64_REINTERPRET_F64 => Byte.xbd
  | WASM_OP_F32_REINTERPRET_I32 => Byte.xbe
  | WASM_OP_F64_REINTERPRET_I64 => Byte.xbf
  | WASM_OP_I32_EXTEND8_S => Byte.xc0
  | WASM_OP_I32_EXTEND16_S => Byte.xc1
  | WASM_OP_I64_EXTEND8_S => Byte.xc2
  | WASM_OP_I64_EXTEND16_S => Byte.xc3
  | WASM_OP_I64_EXTEND32_S => Byte.xc4
  | WASM_OP_DROP_64 => Byte.xc5
  | WASM_OP_SELECT_64 => Byte.xc6
  | EXT_OP_GET_LOCAL_FAST => Byte.xc7
  | EXT_OP_SET_LOCAL_FAST_I64 => Byte.xc8
  | EXT_OP_SET_LOCAL_FAST => Byte.xc9
  | EXT_OP_TEE_LOCAL_FAST => Byte.xca
  | EXT_OP_TEE_LOCAL_FAST_I64 => Byte.xcb
  | EXT_OP_COPY_STACK_TOP => Byte.xcc
  | EXT_OP_COPY_STACK_TOP_I64 => Byte.xcd
  | EXT_OP_COPY_STACK_VALUES => Byte.xce
  | WASM_OP_IMPDEP => Byte.xcf
  | WASM_OP_REF_NULL => Byte.xd0
  | WASM_OP_REF_IS_NULL => Byte.xd1
  | WASM_OP_REF_FUNC => Byte.xd2
  | WASM_OP_REF_EQ => Byte.xd3
  | WASM_OP_REF_AS_NON_NULL => Byte.xd4
  | WASM_OP_BR_ON_NULL => Byte.xd5
  | WASM_OP_BR_ON_NON_NULL => Byte.xd6
  | EXT_OP_BLOCK => Byte.xd7
  | EXT_OP_LOOP => Byte.xd8
  | EXT_OP_IF => Byte.xd9
  | EXT_OP_BR_TABLE_CACHE => Byte.xda
  | EXT_OP_TRY => Byte.xdb
  | WASM_OP_GC_PREFIX => Byte.xfb
  | WASM_OP_MISC_PREFIX => Byte.xfc
  | WASM_OP_SIMD_PREFIX => Byte.xfd
  | WASM_OP_ATOMIC_PREFIX => Byte.xfe
  end.

Definition byte_opcode (b : byte) : option WASMOpcode :=
  match b with
  | Byte.x00 => Some WASM_OP_UNREACHABLE
  | Byte.x01 => Some WASM_OP_NOP
  | Byte.x02 => Some WASM_OP_BLOCK
  | Byte.x03 => Some WASM_OP_LOOP
  | Byte.x04 => Some WASM_OP_IF
  | Byte.x05 => Some WASM_OP_ELSE
  | Byte.x06 => Some WASM_OP_TRY
  | Byte.x07 => Some WASM_OP_CATCH
  | Byte.x08 => Some WASM_OP_THROW
  | Byte.x09 => Some WASM_OP_RETHROW
  | Byte.x0a => Some WASM_OP_UNUSED_0x0a
  | Byte.x0b => Some WASM_OP_END
  | Byte.x0c => Some WASM_OP_BR
  | Byte.x0d => Some WASM_OP_BR_IF
  | Byte.x0e => Some WASM_OP_BR_TABLE
  | Byte.x0f => Some WASM_OP_RETURN
  | Byte.x10 => Some WASM_OP_CALL
  | Byte.x11 => Some WASM_OP_CALL_INDIRECT
  | Byte.x12 => Some WASM_OP_RETURN_CALL
  | Byte.x13 => Some WASM_OP_RETURN_CALL_INDIRECT
  | Byte.x14 => Some WASM_OP_CALL_REF
  | Byte.x15 => Some WASM_OP_RETURN_CALL_REF
  | Byte.x16 => Some WASM_OP_UNUSED_0x16
  | Byte.x17 => Some WASM_OP_UNUSED_0x17
  | Byte.x18 => Some WASM_OP_DELEGATE
  | Byte.x19 => Some WASM_OP_CATCH_ALL
  | Byte.x1a => Some WASM_OP_DROP
  | Byte.x1b => Some WASM_OP_SELECT
  | Byte.x1c => Some WASM_OP_SELECT_T
  | Byte.x1d => Some WASM_OP_GET_GLOBAL_64
  | Byte.x1e => Some WASM_OP_SET_GLOBAL_64
  | Byte.x1f => Some WASM_OP_SET_GLOBAL_AUX_STACK
  | Byte.x20 => Some WASM_OP_GET_LOCAL
  | Byte.x21 => Some WASM_OP_SET_LOCAL
  | Byte.x22 => Some WASM_OP_TEE_LOCAL
  | Byte.x23 => Some WASM_OP_GET_GLOBAL
  | Byte.x24 => Some WASM_OP_SET_GLOBAL
  | Byte.x25 => Some WASM_OP_TABLE_GET
  | Byte.x26 => Some WASM_OP_TABLE_SET
  | Byte.x27 => Some WASM_OP_UNUSED_0x27
  | Byte.x28 => Some WASM_OP_I32_LOAD
  | Byte.x29 => Some WASM_OP_I64_LOAD
  | Byte.x2a => Some WASM_OP_F32_LOAD
  | Byte.x2b => Some WASM_OP_F64_LOAD
  | Byte.x2c => Some WASM_OP_I32_LOAD8_S
  | Byte.x2d => Some WASM_OP_I32_LOAD8_U
  | Byte.x2e => Some WASM_OP_I32_LOAD16_S
  | Byte.x2f => Some WASM_OP_I32_LOAD16_U
  | Byte.x30 => Some WASM_OP_I64_LOAD8_S
  | Byte.x31 => Some WASM_OP_I64_LOAD8_U
  | Byte.x32 => Some WASM_OP_I64_LOAD16_S
  | Byte.x33 => Some WASM_OP_I64_LOAD16_U
  | Byte.x34 => Some WASM_OP_I64_LOAD32_S
  | Byte.x35 => Some WASM_OP_I64_LOAD32_U
  | Byte.x36 => Some WASM_OP_I32_STORE
  | Byte.x37 => Some WASM_OP_I64_STORE
  | Byte.x38 => Some WASM_OP_F32_STORE
  | Byte.x39 => Some WASM_OP_F64_STORE
  | Byte.x3a => Some WASM_OP_I32_STORE8
  | Byte.x3b => Some WASM_OP_I32_STORE16
  | Byte.x3c => Some WASM_OP_I64_STORE8
  | Byte.x3d => Some WASM_OP_I64_STORE16
  | Byte.x3e => Some WASM_OP_I64_STORE32
  | Byte.x3f => Some WASM_OP_MEMORY_SIZE
  | Byte.x40 => Some WASM_OP_MEMORY_GROW
  | Byte.x41 => Some WASM_OP_I32_CONST
  | Byte.x42 => Some WASM_OP_I64_CONST
  | Byte.x43 => Some WASM_OP_F32_CONST
  | Byte.x44 => Some WASM_OP_F64_CONST
  | Byte.x45 => Some WASM_OP_I32_EQZ
  | Byte.x46 => Some WASM_OP_I32_EQ
  | Byte.x47 => Some WASM_OP_I32_NE
  | Byte.x48 => Some WASM_OP_I32_LT_S
  | Byte.x49 => Some WASM_OP_I32_LT_U
  | Byte.x4a => Some WASM_OP_I32_GT_S
  | Byte.x4b => Some WASM_OP_I32_GT_U
  | Byte.x4c => Some WASM_OP_I32_LE_S
  | Byte.x4d => Some WASM_OP_I32_LE_U
  | Byte.x4e => Some WASM_OP_I32_GE_S
  | Byte.x4f => Some WASM_OP_I32_GE_U
  | Byte.x50 => Some WASM_OP_I64_EQZ
  | Byte.x51 => Some WASM_OP_I64_EQ
  | Byte.x52 => Some WASM_OP_I64_NE
  | Byte.x53 => Some WASM_OP_I64_LT_S
  | Byte.x54 => Some WASM_OP_I64_LT_U
  | Byte.x55 => Some WASM_OP_I64_GT_S
  | Byte.x56 => Some WASM_OP_I64_GT_U
  | Byte.x57 => Some WASM_OP_I64_LE_S
  | Byte.x58 => Some WASM_OP_I64_LE_U
  | Byte.x59 => Some WASM_OP_I64_GE_S
  | Byte.x5a => Some WASM_OP_I64_GE_U
  | Byte.x5b => Some WASM_OP_F32_EQ
  | Byte.x5c => Some WASM_OP_F32_NE
  | Byte.x5d => Some WASM_OP_F32_LT
  | Byte.x5e => Some WASM_OP_F32_GT
  | Byte.x5f => Some WASM_OP_F32_LE
  | Byte.x60 => Some WASM_OP_F32_GE
  | Byte.x61 => Some WASM_OP_F64_EQ
  | Byte.x62 => Some WASM_OP_F64_NE
  | Byte.x63 => Some WASM_OP_F64_LT
  | Byte.x64 => Some WASM_OP_F64_GT
  | Byte.x65 => Some WASM_OP_F64_LE
  | Byte.x66 => Some WASM_OP_F64_GE
  | Byte.x67 => Some WASM_OP_I32_CLZ
  | Byte.x68 => Some WASM_OP_I32_CTZ
  | Byte.x69 => Some WASM_OP_I32_POPCNT
  | Byte.x6a => Some WASM_OP_I32_ADD
  | Byte.x6b => Some WASM_OP_I32_SUB
  | Byte.x6c => Some WASM_OP_I32_MUL
  | Byte.x6d => Some WASM_OP_I32_DIV_S
  | Byte.x6e => Some WASM_OP_I32_DIV_U
  | Byte.x6f => Some WASM_OP_I32_REM_S
  | Byte.x70 => Some WASM_OP_I32_REM_U
  | Byte.x71 => Some WASM_OP_I32_AND
  | Byte.x72 => Some WASM_OP_I32_OR
  | Byte.x73 => Some WASM_OP_I32_XOR
  | Byte.x74 => Some WASM_OP_I32_SHL
  | Byte.x75 => Some WASM_OP_I32_SHR_S
  | Byte.x76 => Some WASM_OP_I32_SHR_U
  | Byte.x77 => Some WASM_OP_I32_ROTL
  | Byte.x78 => Some WASM_OP_I32_ROTR
  | Byte.x79 => Some WASM_OP_I64_CLZ
  | Byte.x7a => Some WASM_OP_I64_CTZ
  | Byte.x7b => Some WASM_OP_I64_POPCNT
  | Byte.x7c => Some WASM_OP_I64_ADD
  | Byte.x7d => Some WASM_OP_I64_SUB
  | Byte.x7e => Some WASM_OP_I64_MUL
  | Byte.x7f => Some WASM_OP_I64_DIV_S
  | Byte.x80 => Some WASM_OP_I64_DIV_U
  | Byte.x81 => Some WASM_OP_I64_REM_S
  | Byte.x82 => Some WASM_OP_I64_REM_U
  | Byte.x83 => Some WASM_OP_I64_AND
  | Byte.x84 => Some WASM_OP_I64_OR
  | Byte.x85 => Some WASM_OP_I64_XOR
  | Byte.x86 => Some WASM_OP_I64_SHL
  | Byte.x87 => Some WASM_OP_I64_SHR_S
  | Byte.x88 => Some WASM_OP_I64_SHR_U
  | Byte.x89 => Some WASM_OP_I64_ROTL
  | Byte.x8a => Some WASM_OP_I64_ROTR
  | Byte.x8b => Some WASM_OP_F32_ABS
  | Byte.x8c => Some WASM_OP_F32_NEG
  | Byte.x8d => Some WASM_OP_F32_CEIL
  | Byte.x8e => Some WASM_OP_F32_FLOOR
  | Byte.x8f => Some WASM_OP_F32_TRUNC
  | Byte.x90 => Some WASM_OP_F32_NEAREST
  | Byte.x91 => Some WASM_OP_F32_SQRT
  | Byte.x92 => Some WASM_OP_F32_ADD
  | Byte.x93 => Some WASM_OP_F32_SUB
  | Byte.x94 => Some WASM_OP_F32_MUL
  | Byte.x95 => Some WASM_OP_F32_DIV
  | Byte.x96 => Some WASM_OP_F32_MIN
  | Byte.x97 => Some WASM_OP_F32_MAX
  | Byte.x98 => Some WASM_OP_F32_COPYSIGN
  | Byte.x99 => Some WASM_OP_F64_ABS
  | Byte.x9a => Some WASM_OP_F64_NEG
  | Byte.x9b => Some WASM_OP_F64_CEIL
  | Byte.x9c => Some WASM_OP_F64_FLOOR
  | Byte.x9d => Some WASM_OP_F64_TRUNC
  | Byte.x9e => Some WASM_OP_F64_NEAREST
  | Byte.x9f => Some WASM_OP_F64_SQRT
  | Byte.xa0 => Some WASM_OP_F64_ADD
  | Byte.xa1 => Some WASM_OP_F64_SUB
  | Byte.xa2 => Some WASM_OP_F64_MUL
  | Byte.xa3 => Some WASM_OP_F64_DIV
  | Byte.xa4 => Some WASM_OP_F64_MIN
  | Byte.xa5 => Some WASM_OP_F64_MAX
  | Byte.xa6 => Some WASM_OP_F64_COPYSIGN
  | Byte.xa7 => Some WASM_OP_I32_WRAP_I64
  | Byte.xa8 => Some WASM_OP_I32_TRUNC_S_F32
  | Byte.xa9 => Some WASM_OP_I32_TRUNC_U_F32
  | Byte.xaa => Some WASM_OP_I32_TRUNC_S_F64
  | Byte.xab => Some WASM_OP_I32_TRUNC_U_F64
  | Byte.xac => Some WASM_OP_I64_EXTEND_S_I32
  | Byte.xad => Some WASM_OP_I64_EXTEND_U_I32
  | Byte.xae => Some WASM_OP_I64_TRUNC_S_F32
  | Byte.xaf => Some WASM_OP_I64_TRUNC_U_F32
  | Byte.xb0 => Some WASM_OP_I64_TRUNC_S_F64
  | Byte.xb1 => Some WASM_OP_I64_TRUNC_U_F64
  | Byte.xb2 => Some WASM_OP_F32_CONVERT_S_I32
  | Byte.xb3 => Some WASM_OP_F32_CONVERT_U_I32
  | Byte.xb4 => Some WASM_OP_F32_CONVERT_S_I64
  | Byte.xb5 => Some WASM_OP_F32_CONVERT_U_I64
  | Byte.xb6 => Some WASM_OP_F32_DEMOTE_F64
  | Byte.xb7 => Some WASM_OP_F64_CONVERT_S_I32
  | Byte.xb8 => Some WASM_OP_F64_CONVERT_U_I32
  | Byte.xb9 => Some WASM_OP_F64_CONVERT_S_I64
  | Byte.xba => Some WASM_OP_F64_CONVERT_U_I64
  | Byte.xbb => Some WASM_OP_F64_PROMOTE_F32
  | Byte.xbc => Some WASM_OP_I32_REINTERPRET_F32
  | Byte.xbd => Some WASM_OP_I64_REINTERPRET_F64
  | Byte.xbe => Some WASM_OP_F32_REINTERPRET_I32
  | Byte.xbf => Some WASM_OP_F64_REINTERPRET_I64
  | Byte.xc0 => Some WASM_OP_I32_EXTEND8_S
  | Byte.xc1 => Some WASM_OP_I32_EXTEND16_S
  | Byte.xc2 => Some WASM_OP_I64_EXTEND8_S
  | Byte.xc3 => Some WASM_OP_I64_EXTEND16_S
  | Byte.xc4 => Some WASM_OP_I64_EXTEND32_S
  | Byte.xc5 => Some WASM_OP_DROP_64
  | Byte.xc6 => Some WASM_OP_SELECT_64
  | Byte.xc7 => Some EXT_OP_GET_LOCAL_FAST
  | Byte.xc8 => Some EXT_OP_SET_LOCAL_FAST_I64
  | Byte.xc9 => Some EXT_OP_SET_LOCAL_FAST
  | Byte.xca => Some EXT_OP_TEE_LOCAL_FAST
  | Byte.xcb => Some EXT_OP_TEE_LOCAL_FAST_I64
  | Byte.xcc => Some EXT_OP_COPY_STACK_TOP
  | Byte.xcd => Some EXT_OP_COPY_STACK_TOP_I64
  | Byte.xce => Some EXT_OP_COPY_STACK_VALUES
  | Byte.xcf => Some WASM_OP_IMPDEP
  | Byte.xd0 => Some WASM_OP_REF_NULL
  | Byte.xd1 => Some WASM_OP_REF_IS_NULL
  | Byte.xd2 => Some WASM_OP_REF_FUNC
  | Byte.xd3 => Some WASM_OP_REF_EQ
  | Byte.xd4 => Some WASM_OP_REF_AS_NON_NULL
  | Byte.xd5 => Some WASM_OP_BR_ON_NULL
  | Byte.xd6 => Some WASM_OP_BR_ON_NON_NULL
  | Byte.xd7 => Some EXT_OP_BLOCK
  | Byte.xd8 => Some EXT_OP_LOOP
  | Byte.xd9 => Some EXT_OP_IF
  | Byte.xda => Some EXT_OP_BR_TABLE_CACHE
  | Byte.xdb => Some EXT_OP_TRY
  | Byte.xfb => Some WASM_OP_GC_PREFIX
  | Byte.xfc => Some WASM_OP_MISC_PREFIX
  | Byte.xfd => Some WASM_OP_SIMD_PREFIX
  | Byte.xfe => Some WASM_OP_ATOMIC_PREFIX
  | _ => None
  end.

(** The instructions behind [WASM_OP_MISC_PREFIX]. *)
Inductive WASMMiscEXTOpcode :=
| WASM_OP_I32_TRUNC_SAT_S_F32 | WASM_OP_I32_TRUNC_SAT_U_F32 | WASM_OP_I32_TRUNC_SAT_S_F64
| WASM_OP_I32_TRUNC_SAT_U_F64 | WASM_OP_I64_TRUNC_SAT_S_F32 | WASM_OP_I64_TRUNC_SAT_U_F32
| WASM_OP_I64_TRUNC_SAT_S_F64 | WASM_OP_I64_TRUNC_SAT_U_F64 | WASM_OP_MEMORY_INIT
| WASM_OP_DATA_DROP | WASM_OP_MEMORY_COPY | WASM_OP_MEMORY_FILL | WASM_OP_TABLE_INIT
| WASM_OP_ELEM_DROP | WASM_OP_TABLE_COPY | WASM_OP_TABLE_GROW | WASM_OP_TABLE_SIZE
| WASM_OP_TABLE_FILL.

Definition misc_opcode_value (o : WASMMiscEXTOpcode) : Z :=
  match o with
  | WASM_OP_I32_TRUNC_SAT_S_F32 => 0
  | WASM_OP_I32_TRUNC_SAT_U_F32 => 1
  | WASM_OP_I32_TRUNC_SAT_S_F64 => 2
  | WASM_OP_I32_TRUNC_SAT_U_F64 => 3
  | WASM_OP_I64_TRUNC_SAT_S_F32 => 4
  | WASM_OP_I64_TRUNC_SAT_U_F32 => 5
  | WASM_OP_I64_TRUNC_SAT_S_F64 => 6
  | WASM_OP_I64_TRUNC_SAT_U_F64 => 7
  | WASM_OP_MEMORY_INIT => 8
  | WASM_OP_DATA_DROP => 9
  | WASM_OP_MEMORY_COPY => 10
  | WASM_OP_MEMORY_FILL => 11
  | WASM_OP_TABLE_INIT => 12
  | WASM_OP_ELEM_DROP => 13
  | WASM_OP_TABLE_COPY => 14
  | WASM_OP_TABLE_GROW => 15
  | WASM_OP_TABLE_SIZE => 16
  | WASM_OP_TABLE_FILL => 17
  end.

Definition misc_opcode (v : Z) : option WASMMiscEXTOpcode :=
  match v with
  | 0 => Some WASM_OP_I32_TRUNC_SAT_S_F32
  | 1 => Some WASM_OP_I32_TRUNC_SAT_U_F32
  | 2 => Some WASM_OP_I32_TRUNC_SAT_S_F64
  | 3 => Some WASM_OP_I32_TRUNC_SAT_U_F64
  | 4 => Some WASM_OP_I64_TRUNC_SAT_S_F32
  | 5 => Some WASM_OP_I64_TRUNC_SAT_U_F32
  | 6 => Some WASM_OP_I64_TRUNC_SAT_S_F64
  | 7 => Some WASM_OP_I64_TRUNC_SAT_U_F64
  | 8 => Some WASM_OP_MEMORY_INIT
  | 9 => Some WASM_OP_DATA_DROP
  | 10 => Some WASM_OP_MEMORY_COPY
  | 11 => Some WASM_OP_MEMORY_FILL
  | 12 => Some WASM_OP_TABLE_INIT
  | 13 => Some WASM_OP_ELEM_DROP
  | 14 => Some WASM_OP_TABLE_COPY
  | 15 => Some WASM_OP_TABLE_GROW
  | 16 => Some WASM_OP_TABLE_SIZE
  | 17 => Some WASM_OP_TABLE_FILL
  | _ => None
  end.

(** ** Value types *)

(** [VALUE_TYPE_VOID] is the type of a block without a result; a cell of type
    [VALUE_TYPE_ANY] only arises behind code that cannot be reached. *)
Inductive value_type :=
| VALUE_TYPE_I32 | VALUE_TYPE_I64 | VALUE_TYPE_F32 | VALUE_TYPE_F64
| VALUE_TYPE_FUNCREF | VALUE_TYPE_EXTERNREF | VALUE_TYPE_VOID | VALUE_TYPE_ANY.

#[export] Instance value_type_eq_dec : EqDecision value_type.
Proof. solve_decision. Defined.

Abbreviation value_type_eqb a b := (bool_decide (a =@{value_type} b)).

(** [is_valid_value_type_for_interpreter]: the type of a byte. *)
Definition valid_value_type (b : byte) : option value_type :=
  match b with
  | Byte.x7f => Some VALUE_TYPE_I32
  | Byte.x7e => Some VALUE_TYPE_I64
  | Byte.x7d => Some VALUE_TYPE_F32
  | Byte.x7c => Some VALUE_TYPE_F64
  | Byte.x70 => Some VALUE_TYPE_FUNCREF
  | Byte.x6f => Some VALUE_TYPE_EXTERNREF
  | _ => None
  end.

(** [is_byte_a_type], with the type. *)
Definition is_byte_a_type (b : byte) : option value_type :=
  match b with
  | Byte.x40 => Some VALUE_TYPE_VOID
  | _ => valid_value_type b
  end.

Definition is_32bit_type (t : value_type) : bool :=
  match t with
  | VALUE_TYPE_I32 | VALUE_TYPE_F32 | VALUE_TYPE_ANY
  | VALUE_TYPE_FUNCREF | VALUE_TYPE_EXTERNREF => true
  | _ => false
  end.

Definition is_64bit_type (t : value_type) : bool :=
  match t with
  | VALUE_TYPE_I64 | VALUE_TYPE_F64 => true
  | _ => false
  end.

Definition wasm_value_type_size (t : value_type) : nat :=
  match t with
  | VALUE_TYPE_VOID => 0
  | VALUE_TYPE_I32 | VALUE_TYPE_F32 | VALUE_TYPE_ANY => 4
  | VALUE_TYPE_I64 | VALUE_TYPE_F64 => 8
  | VALUE_TYPE_FUNCREF | VALUE_TYPE_EXTERNREF => 4
  end.

(** Values occupy cells of four bytes. *)
Definition wasm_value_type_cell_num (t : value_type) : nat := wasm_value_type_size t / 4.

Fixpoint wasm_get_cell_num (types : list value_type) : nat :=
  match types with
  | [] => 0
  | t :: types => wasm_value_type_cell_num t + wasm_get_cell_num types
  end.

(** [types] of the structure is the parameters followed by the results. *)
Record WASMFuncType := FuncType {
  param_types : list value_type;
  result_types : list value_type
}.

#[export] Instance WASMFuncType_eq_dec : EqDecision WASMFuncType.
Proof. solve_decision. Defined.

Definition param_cell_num (t : WASMFuncType) : nat := wasm_get_cell_num (param_types t).
Definition ret_cell_num (t : WASMFuncType) : nat := wasm_get_cell_num (result_types t).

Inductive label_type :=
| LABEL_TYPE_BLOCK | LABEL_TYPE_LOOP | LABEL_TYPE_IF | LABEL_TYPE_FUNCTION.

#[export] Instance label_type_eq_dec : EqDecision label_type.
Proof. solve_decision. Defined.

Inductive BlockType :=
| value_block (t : value_type)
| type_block (t : WASMFuncType).

Definition block_type_get_param_types (b : BlockType) : list value_type :=
  match b with
  | type_block t => param_types t
  | value_block _ => []
  end.

Definition block_type_get_result_types (b : BlockType) : list value_type :=
  match b with
  | value_block VALUE_TYPE_VOID => []
  | value_block t => [t]
  | type_block t => result_types t
  end.

Definition block_type_get_arity (b : BlockType) (l : label_type) : nat :=
  match l with
  | LABEL_TYPE_LOOP => length (block_type_get_param_types b)
  | _ => length (block_type_get_result_types b)
  end.

Definition UINT16_MAX : nat := Z.to_nat 65535.

(** ** Facts *)

Lemma byte_opcode_byte o : byte_opcode (opcode_byte o) = Some o.
Proof. by destruct o. Qed.

Lemma byte_opcode_Some b o : byte_opcode b = Some o -> b = opcode_byte o.
Proof. destruct b; intros [= <-]; done. Qed.

Lemma misc_opcode_Some v o : misc_opcode v = Some o -> v = misc_opcode_value o.
Proof.
  destruct v as [|p|]; cbn; try discriminate; [by intros [= <-]|].
  do 5 (destruct p as [p|p|]; cbn; try discriminate; try (by intros [= <-])).
Qed.

Lemma cell_num_le t : (wasm_value_type_cell_num t <= 2)%nat.
Proof. destruct t; vm_compute; lia. Qed.

Lemma get_cell_num_app l1 l2 :
  wasm_get_cell_num (l1 ++ l2) = (wasm_get_cell_num l1 + wasm_get_cell_num l2)%nat.
Proof. induction l1 as [|t l1 IH]; cbn; [done|rewrite IH; lia]. Qed.
