(* ===== verification/Loader.v ===== *)
(** * The checker of function bodies

    [wasm_loader_prepare_bytecode] of
    [core/iwasm/interpreter/wasm_loader.c]: it walks over the code of a
    function once, checks the types of the operands on an abstract stack, and
    rewrites the code in place for the interpreter. The build is the one of the
    trusted application: classic interpreter, reference types and bulk memory
    operations, no multiple memories, exceptions, tail calls, threads or SIMD.

    The code is a list of bytes that the pointer [p] splits: [p_done] are the
    bytes before it, as rewritten so far, and [p_rest] the bytes from it on. The
    code is only read at [p] and only written before it. An address in the
    code is its distance from the start. The result is [None] when the function
    is rejected; the text of the error and failures to allocate the tables of
    the checker are left out. *)

From S2P Require Import Prelude Memory Leb Opcode.

(** ** The module *)

Record WASMGlobal := Global {
  val_type : value_type;
  is_mutable : bool;
  init_funcref : option Z
}.

Record WASMTableSeg := TableSeg {
  seg_elem_type : value_type;
  init_values : list Z
}.

(** The parts of [WASMModule] that the checker reads: [functions] and
    [import_functions] by their types, tables by the type of their elements,
    [exports] by the indices of the exported functions. [init_funcref] of a
    global is the function its initial value refers to. *)
Record WASMModule := WasmModule {
  types : list WASMFuncType;
  import_functions : list WASMFuncType;
  functions : list WASMFuncType;
  import_globals : list WASMGlobal;
  globals : list WASMGlobal;
  import_tables : list value_type;
  tables : list value_type;
  table_segments : list WASMTableSeg;
  data_seg_count : Z;
  data_seg_count1 : Z;
  import_memory_count : Z;
  memory_count : Z;
  exports : list Z;
  aux_stack_size : Z;
  aux_stack_top_global_index : Z
}.

Definition all_functions (m : WASMModule) : list WASMFuncType := import_functions m ++ functions m.
Definition all_globals (m : WASMModule) : list WASMGlobal := import_globals m ++ globals m.
Definition all_tables (m : WASMModule) : list value_type := import_tables m ++ tables m.

(** ** The context *)

Record BranchBlock := Block {
  blk_label_type : label_type;
  block_type : BlockType;
  start_addr : nat;
  else_addr : option nat;
  blk_stack_cell_num : nat;
  is_stack_polymorphic : bool
}.

(** The stacks are lists with the top in front: [stack_cell_num] and [csp_num]
    are their lengths. [br_table_cache_list] has the address of an instruction
    and its targets. *)
Record WASMLoaderContext := Ctx {
  p_done : bytes;
  p_rest : bytes;
  frame_ref : list value_type;
  max_stack_cell_num : nat;
  frame_csp : list BranchBlock;
  max_csp_num : nat;
  br_table_cache_list : list (nat * list Z)
}.

Definition set_p (d r : bytes) (c : WASMLoaderContext) :=
  Ctx d r (frame_ref c) (max_stack_cell_num c) (frame_csp c) (max_csp_num c) (br_table_cache_list c).
Definition set_frame_ref (v : list value_type) (c : WASMLoaderContext) :=
  Ctx (p_done c) (p_rest c) v (max_stack_cell_num c) (frame_csp c) (max_csp_num c)
    (br_table_cache_list c).
Definition set_max_stack_cell_num (v : nat) (c : WASMLoaderContext) :=
  Ctx (p_done c) (p_rest c) (frame_ref c) v (frame_csp c) (max_csp_num c) (br_table_cache_list c).
Definition set_frame_csp (v : list BranchBlock) (c : WASMLoaderContext) :=
  Ctx (p_done c) (p_rest c) (frame_ref c) (max_stack_cell_num c) v (max_csp_num c)
    (br_table_cache_list c).
Definition set_max_csp_num (v : nat) (c : WASMLoaderContext) :=
  Ctx (p_done c) (p_rest c) (frame_ref c) (max_stack_cell_num c) (frame_csp c) v
    (br_table_cache_list c).
Definition set_br_table_cache_list (v : list (nat * list Z)) (c : WASMLoaderContext) :=
  Ctx (p_done c) (p_rest c) (frame_ref c) (max_stack_cell_num c) (frame_csp c) (max_csp_num c) v.

Definition stack_cell_num (c : WASMLoaderContext) : nat := length (frame_ref c).
Definition csp_num (c : WASMLoaderContext) : nat := length (frame_csp c).

Definition set_polymorphic (v : bool) (b : BranchBlock) : BranchBlock :=
  Block (blk_label_type b) (block_type b) (start_addr b) (else_addr b) (blk_stack_cell_num b) v.
Definition set_else_addr (v : option nat) (b : BranchBlock) : BranchBlock :=
  Block (blk_label_type b) (block_type b) (start_addr b) v (blk_stack_cell_num b)
    (is_stack_polymorphic b).

(** ** The monad of the checker: [goto fail] is [None]. *)

Definition LM (A : Type) : Type := WASMLoaderContext -> option (A * WASMLoaderContext).

#[export] Instance LM_ret : MRet LM := fun A a c => Some (a, c).
#[export] Instance LM_bind : MBind LM := fun A B k m c =>
  match m c with
  | Some (a, c) => k a c
  | None => None
  end.

Definition goto_fail {A} : LM A := fun _ => None.
Definition lget {A} (f : WASMLoaderContext -> A) : LM A := fun c => Some (f c, c).
Definition lset (f : WASMLoaderContext -> WASMLoaderContext) : LM () := fun c => Some (tt, f c).
Definition check (b : bool) : LM () := if b then mret tt else goto_fail.
Definition lsome {A} (o : option A) : LM A :=
  match o with
  | Some a => mret a
  | None => goto_fail
  end.

(** [frame_csp - 1]: the stack of blocks is not empty while there is code. *)
Definition cur_block : LM BranchBlock := c ← lget frame_csp; lsome (head c).

Definition set_cur_block (f : BranchBlock -> BranchBlock) : LM () :=
  lset (fun c => match frame_csp c with
                 | b :: bs => set_frame_csp (f b :: bs) c
                 | [] => c
                 end).

(** ** Reading and rewriting the code *)

(** [p += n] *)
Definition advance (n : nat) : LM () :=
  lset (fun c => set_p (p_done c ++ take n (p_rest c)) (drop n (p_rest c)) c).

Definition CHECK_BUF (n : nat) : LM () :=
  r ← lget p_rest; check (n <=? length r)%nat.

Definition read_uint8 : LM byte :=
  r ← lget p_rest; b ← lsome (head r); advance 1;; mret b.

(** A LEB128 integer at [p], without moving [p], and with its length. *)
Definition peek_leb (reader : bytes -> leb_error + Z * bytes) : LM (Z * nat) :=
  r ← lget p_rest;
  match reader r with
  | inr (v, r') => mret (v, length r - length r')%nat
  | inl _ => goto_fail
  end.

Definition lread_leb (reader : bytes -> leb_error + Z * bytes) : LM Z :=
  v ← peek_leb reader; advance (snd v);; mret (fst v).

Definition pb_read_leb_uint32 : LM Z := lread_leb read_leb_uint32.
Definition pb_read_leb_int32 : LM Z := lread_leb read_leb_int32.
Definition pb_read_leb_int64 : LM Z := lread_leb read_leb_int64.

Definition cur_p : LM nat := lget (fun c => length (p_done c)).

(** [*addr = b] *)
Definition put_code (addr : nat) (b : byte) : LM () :=
  lset (fun c => set_p (<[addr := b]> (p_done c)) (p_rest c) c).

Definition put_opcode (addr : nat) (o : WASMOpcode) : LM () := put_code addr (opcode_byte o).

(** [while (q < p) *q++ = WASM_OP_NOP] *)
Definition fill_nop (q : nat) : LM () :=
  lset (fun c => set_p (take q (p_done c)
    ++ replicate (length (p_done c) - q) (opcode_byte WASM_OP_NOP)) (p_rest c) c).

(** ** The abstract stack *)

Definition wasm_loader_push_frame_ref (type : value_type) : LM () :=
  lset (fun c => set_frame_ref (replicate (wasm_value_type_cell_num type) type ++ frame_ref c) c);;
  n ← lget stack_cell_num;
  max ← lget max_stack_cell_num;
  if (max <? n)%nat then
    lset (set_max_stack_cell_num n);;
    check (n <=? UINT16_MAX)%nat
  else mret tt.

Definition check_stack_top_values (frame_ref : list value_type) (stack_cell_num : nat)
    (type : value_type) : bool :=
  let type_cell_num := wasm_value_type_cell_num type in
  (type_cell_num <=? stack_cell_num)%nat
  && forallb (fun t => value_type_eqb t type) (take type_cell_num frame_ref).

Definition top_is_any (frame_ref : list value_type) : bool :=
  match frame_ref with
  | t :: _ => value_type_eqb t VALUE_TYPE_ANY
  | [] => false
  end.

(** The cells of the current block. *)
Definition available_stack_cell : LM nat :=
  b ← cur_block; n ← lget stack_cell_num; mret (n - blk_stack_cell_num b)%nat.

Definition check_stack_pop (type : value_type) : LM () :=
  block_stack_cell_num ← available_stack_cell;
  r ← lget frame_ref;
  if (0 <? block_stack_cell_num)%nat && top_is_any r then mret tt
  else check (check_stack_top_values r block_stack_cell_num type).

Definition wasm_loader_pop_frame_ref (type : value_type) : LM () :=
  b ← cur_block;
  available ← available_stack_cell;
  if (available =? 0)%nat && is_stack_polymorphic b then mret tt else
  if value_type_eqb type VALUE_TYPE_VOID then mret tt else
  check_stack_pop type;;
  lset (fun c =>
    let cell_num_to_pop :=
      if top_is_any (frame_ref c) then 1%nat else wasm_value_type_cell_num type in
    set_frame_ref (drop cell_num_to_pop (frame_ref c)) c).

Fixpoint repeat_op (n : nat) (m : LM ()) : LM () :=
  match n with
  | O => mret tt
  | S n => m;; repeat_op n m
  end.

Definition wasm_loader_push_pop_frame_ref (pop_cnt : nat) (type_push type_pop : value_type) : LM () :=
  repeat_op pop_cnt (wasm_loader_pop_frame_ref type_pop);;
  wasm_loader_push_frame_ref type_push.

(** [POP_TYPE] of each type from the last to the first, and [PUSH_TYPE] from the
    first to the last. *)
Fixpoint push_types (types : list value_type) : LM () :=
  match types with
  | [] => mret tt
  | t :: types => wasm_loader_push_frame_ref t;; push_types types
  end.

Fixpoint pop_each (types : list value_type) : LM () :=
  match types with
  | [] => mret tt
  | t :: types => wasm_loader_pop_frame_ref t;; pop_each types
  end.

Definition pop_types (types : list value_type) : LM () := pop_each (rev types).

(** ** The stack of blocks *)

Definition wasm_loader_push_frame_csp (label : label_type) (type : BlockType) (start : nat) : LM () :=
  n ← lget stack_cell_num;
  lset (fun c => set_frame_csp (Block label type start None n false :: frame_csp c) c);;
  num ← lget csp_num;
  max ← lget max_csp_num;
  if (max <? num)%nat then
    lset (set_max_csp_num num);;
    check (num <=? UINT16_MAX)%nat
  else mret tt.

Definition wasm_loader_pop_frame_csp : LM () :=
  num ← lget csp_num;
  check (1 <=? num)%nat;;
  lset (fun c => set_frame_csp (tail (frame_csp c)) c).

(** [RESET_STACK]: the cells of the current block are dropped. *)
Definition RESET_STACK : LM () :=
  b ← cur_block;
  lset (fun c => set_frame_ref
    (drop (stack_cell_num c - blk_stack_cell_num b) (frame_ref c)) c).

Definition SET_CUR_BLOCK_STACK_POLYMORPHIC_STATE (flag : bool) : LM () :=
  set_cur_block (set_polymorphic flag).

(** The values on top of the stack, without popping them. *)
Fixpoint check_top_types (frame_ref : list value_type) (available : nat)
    (types : list value_type) : bool :=
  match types with
  | [] => true
  | t :: types =>
      check_stack_top_values frame_ref available t
      && check_top_types (drop (wasm_value_type_cell_num t) frame_ref)
           (available - wasm_value_type_cell_num t) types
  end.

Definition label_types (b : BranchBlock) : list value_type :=
  match blk_label_type b with
  | LABEL_TYPE_LOOP => block_type_get_param_types (block_type b)
  | _ => block_type_get_result_types (block_type b)
  end.

Definition wasm_loader_check_br (depth : Z) (opcode : WASMOpcode) : LM () :=
  num ← lget csp_num;
  check (depth <=? Z.of_nat num - 1);;
  csp ← lget frame_csp;
  target_block ← lsome (csp !! Z.to_nat depth);
  cur ← cur_block;
  let types := label_types target_block in
  if is_stack_polymorphic cur then
    frame_ref_old ← lget frame_ref;
    pop_types types;;
    push_types types;;
    match opcode with
    | WASM_OP_BR_TABLE => lset (set_frame_ref frame_ref_old)
    | _ => mret tt
    end
  else
    available ← available_stack_cell;
    r ← lget frame_ref;
    check (check_top_types r available (rev types)).

(** The depth of the target that was read. *)
Definition check_branch_block (opcode : WASMOpcode) : LM Z :=
  depth ← pb_read_leb_uint32;
  wasm_loader_check_br depth opcode;;
  mret depth.

Definition check_block_stack (block : BranchBlock) : LM () :=
  let return_types := block_type_get_result_types (block_type block) in
  n ← lget stack_cell_num;
  if is_stack_polymorphic block then
    pop_types return_types;;
    n ← lget stack_cell_num;
    check (n =? blk_stack_cell_num block)%nat;;
    push_types return_types
  else
    let available := (n - blk_stack_cell_num block)%nat in
    check (available =? wasm_get_cell_num return_types)%nat;;
    r ← lget frame_ref;
    check (check_top_types r available (rev return_types)).

(** ** Signatures *)

(** The instructions that only pop operands of one type and push a result,
    with [POP_AND_PUSH] and [POP2_AND_PUSH]: the number of operands, their type
    and the type of the result. *)
Definition comparison_signature (o : WASMOpcode) : option (nat * value_type * value_type) :=
  let pop_and_push pop push := Some (1%nat, pop, push) in
  let pop2_and_push pop push := Some (2%nat, pop, push) in
  match o with
  | WASM_OP_I32_EQZ => pop_and_push VALUE_TYPE_I32 VALUE_TYPE_I32
  | WASM_OP_I32_EQ | WASM_OP_I32_NE | WASM_OP_I32_LT_S | WASM_OP_I32_LT_U | WASM_OP_I32_GT_S
  | WASM_OP_I32_GT_U | WASM_OP_I32_LE_S | WASM_OP_I32_LE_U | WASM_OP_I32_GE_S | WASM_OP_I32_GE_U =>
      pop2_and_push VALUE_TYPE_I32 VALUE_TYPE_I32
  | WASM_OP_I64_EQZ => pop_and_push VALUE_TYPE_I64 VALUE_TYPE_I32
  | WASM_OP_I64_EQ | WASM_OP_I64_NE | WASM_OP_I64_LT_S | WASM_OP_I64_LT_U | WASM_OP_I64_GT_S
  | WASM_OP_I64_GT_U | WASM_OP_I64_LE_S | WASM_OP_I64_LE_U | WASM_OP_I64_GE_S | WASM_OP_I64_GE_U =>
      pop2_and_push VALUE_TYPE_I64 VALUE_TYPE_I32
  | WASM_OP_F32_EQ | WASM_OP_F32_NE | WASM_OP_F32_LT | WASM_OP_F32_GT | WASM_OP_F32_LE
  | WASM_OP_F32_GE =>
      pop2_and_push VALUE_TYPE_F32 VALUE_TYPE_I32
  | WASM_OP_F64_EQ | WASM_OP_F64_NE | WASM_OP_F64_LT | WASM_OP_F64_GT | WASM_OP_F64_LE
  | WASM_OP_F64_GE =>
      pop2_and_push VALUE_TYPE_F64 VALUE_TYPE_I32
  | _ => None
  end.

Definition arithmetic_signature (o : WASMOpcode) : option (nat * value_type * value_type) :=
  let pop_and_push pop push := Some (1%nat, pop, push) in
  let pop2_and_push pop push := Some (2%nat, pop, push) in
  match o with
  | WASM_OP_I32_CLZ | WASM_OP_I32_CTZ | WASM_OP_I32_POPCNT =>
      pop_and_push VALUE_TYPE_I32 VALUE_TYPE_I32
  | WASM_OP_I32_ADD | WASM_OP_I32_SUB | WASM_OP_I32_MUL | WASM_OP_I32_DIV_S | WASM_OP_I32_DIV_U
  | WASM_OP_I32_REM_S | WASM_OP_I32_REM_U | WASM_OP_I32_AND | WASM_OP_I32_OR | WASM_OP_I32_XOR
  | WASM_OP_I32_SHL | WASM_OP_I32_SHR_S | WASM_OP_I32_SHR_U | WASM_OP_I32_ROTL
  | WASM_OP_I32_ROTR =>
      pop2_and_push VALUE_TYPE_I32 VALUE_TYPE_I32
  | WASM_OP_I64_CLZ | WASM_OP_I64_CTZ | WASM_OP_I64_POPCNT =>
      pop_and_push VALUE_TYPE_I64 VALUE_TYPE_I64
  | WASM_OP_I64_ADD | WASM_OP_I64_SUB | WASM_OP_I64_MUL | WASM_OP_I64_DIV_S | WASM_OP_I64_DIV_U
  | WASM_OP_I64_REM_S | WASM_OP_I64_REM_U | WASM_OP_I64_AND | WASM_OP_I64_OR | WASM_OP_I64_XOR
  | WASM_OP_I64_SHL | WASM_OP_I64_SHR_S | WASM_OP_I64_SHR_U | WASM_OP_I64_ROTL
  | WASM_OP_I64_ROTR =>
      pop2_and_push VALUE_TYPE_I64 VALUE_TYPE_I64
  | WASM_OP_F32_ABS | WASM_OP_F32_NEG | WASM_OP_F32_CEIL | WASM_OP_F32_FLOOR | WASM_OP_F32_TRUNC
  | WASM_OP_F32_NEAREST | WASM_OP_F32_SQRT =>
      pop_and_push VALUE_TYPE_F32 VALUE_TYPE_F32
  | WASM_OP_F32_ADD | WASM_OP_F32_SUB | WASM_OP_F32_MUL | WASM_OP_F32_DIV | WASM_OP_F32_MIN
  | WASM_OP_F32_MAX | WASM_OP_F32_COPYSIGN =>
      pop2_and_push VALUE_TYPE_F32 VALUE_TYPE_F32
  | WASM_OP_F64_ABS | WASM_OP_F64_NEG | WASM_OP_F64_CEIL | WASM_OP_F64_FLOOR | WASM_OP_F64_TRUNC
  | WASM_OP_F64_NEAREST | WASM_OP_F64_SQRT =>
      pop_and_push VALUE_TYPE_F64 VALUE_TYPE_F64
  | WASM_OP_F64_ADD | WASM_OP_F64_SUB | WASM_OP_F64_MUL | WASM_OP_F64_DIV | WASM_OP_F64_MIN
  | WASM_OP_F64_MAX | WASM_OP_F64_COPYSIGN =>
      pop2_and_push VALUE_TYPE_F64 VALUE_TYPE_F64
  | _ => None
  end.

Definition conversion_signature (o : WASMOpcode) : option (nat * value_type * value_type) :=
  let pop_and_push pop push := Some (1%nat, pop, push) in
  match o with
  | WASM_OP_I32_WRAP_I64 => pop_and_push VALUE_TYPE_I64 VALUE_TYPE_I32
  | WASM_OP_I32_TRUNC_S_F32 | WASM_OP_I32_TRUNC_U_F32 => pop_and_push VALUE_TYPE_F32 VALUE_TYPE_I32
  | WASM_OP_I32_TRUNC_S_F64 | WASM_OP_I32_TRUNC_U_F64 => pop_and_push VALUE_TYPE_F64 VALUE_TYPE_I32
  | WASM_OP_I64_EXTEND_S_I32 | WASM_OP_I64_EXTEND_U_I32 => pop_and_push VALUE_TYPE_I32 VALUE_TYPE_I64
  | WASM_OP_I64_TRUNC_S_F32 | WASM_OP_I64_TRUNC_U_F32 => pop_and_push VALUE_TYPE_F32 VALUE_TYPE_I64
  | WASM_OP_I64_TRUNC_S_F64 | WASM_OP_I64_TRUNC_U_F64 => pop_and_push VALUE_TYPE_F64 VALUE_TYPE_I64
  | WASM_OP_F32_CONVERT_S_I32 | WASM_OP_F32_CONVERT_U_I32 => pop_and_push VALUE_TYPE_I32 VALUE_TYPE_F32
  | WASM_OP_F32_CONVERT_S_I64 | WASM_OP_F32_CONVERT_U_I64 => pop_and_push VALUE_TYPE_I64 VALUE_TYPE_F32
  | WASM_OP_F32_DEMOTE_F64 => pop_and_push VALUE_TYPE_F64 VALUE_TYPE_F32
  | WASM_OP_F64_CONVERT_S_I32 | WASM_OP_F64_CONVERT_U_I32 => pop_and_push VALUE_TYPE_I32 VALUE_TYPE_F64
  | WASM_OP_F64_CONVERT_S_I64 | WASM_OP_F64_CONVERT_U_I64 => pop_and_push VALUE_TYPE_I64 VALUE_TYPE_F64
  | WASM_OP_F64_PROMOTE_F32 => pop_and_push VALUE_TYPE_F32 VALUE_TYPE_F64
  | WASM_OP_I32_REINTERPRET_F32 => pop_and_push VALUE_TYPE_F32 VALUE_TYPE_I32
  | WASM_OP_I64_REINTERPRET_F64 => pop_and_push VALUE_TYPE_F64 VALUE_TYPE_I64
  | WASM_OP_F32_REINTERPRET_I32 => pop_and_push VALUE_TYPE_I32 VALUE_TYPE_F32
  | WASM_OP_F64_REINTERPRET_I64 => pop_and_push VALUE_TYPE_I64 VALUE_TYPE_F64
  | WASM_OP_I32_EXTEND8_S | WASM_OP_I32_EXTEND16_S => pop_and_push VALUE_TYPE_I32 VALUE_TYPE_I32
  | WASM_OP_I64_EXTEND8_S | WASM_OP_I64_EXTEND16_S | WASM_OP_I64_EXTEND32_S =>
      pop_and_push VALUE_TYPE_I64 VALUE_TYPE_I64
  | _ => None
  end.

Definition numeric_signature (o : WASMOpcode) : option (nat * value_type * value_type) :=
  match comparison_signature o with
  | Some s => Some s
  | None =>
      match arithmetic_signature o with
      | Some s => Some s
      | None => conversion_signature o
      end
  end.

(** Loads and stores: the type of the value and whether it is stored. *)
Definition memory_signature (o : WASMOpcode) : option (value_type * bool) :=
  match o with
  | WASM_OP_I32_LOAD | WASM_OP_I32_LOAD8_S | WASM_OP_I32_LOAD8_U | WASM_OP_I32_LOAD16_S
  | WASM_OP_I32_LOAD16_U => Some (VALUE_TYPE_I32, false)
  | WASM_OP_I64_LOAD | WASM_OP_I64_LOAD8_S | WASM_OP_I64_LOAD8_U | WASM_OP_I64_LOAD16_S
  | WASM_OP_I64_LOAD16_U | WASM_OP_I64_LOAD32_S | WASM_OP_I64_LOAD32_U =>
      Some (VALUE_TYPE_I64, false)
  | WASM_OP_F32_LOAD => Some (VALUE_TYPE_F32, false)
  | WASM_OP_F64_LOAD => Some (VALUE_TYPE_F64, false)
  | WASM_OP_I32_STORE | WASM_OP_I32_STORE8 | WASM_OP_I32_STORE16 => Some (VALUE_TYPE_I32, true)
  | WASM_OP_I64_STORE | WASM_OP_I64_STORE8 | WASM_OP_I64_STORE16 | WASM_OP_I64_STORE32 =>
      Some (VALUE_TYPE_I64, true)
  | WASM_OP_F32_STORE => Some (VALUE_TYPE_F32, true)
  | WASM_OP_F64_STORE => Some (VALUE_TYPE_F64, true)
  | _ => None
  end.

(** The largest alignment, as an exponent of two. *)
Definition mem_access_aligns : list Z :=
  [2; 3; 2; 3; 0; 0; 1; 1; 0; 0; 1; 1; 2; 2; 2; 3; 2; 3; 0; 1; 0; 1; 2].

Definition check_memory_access_align (opcode : WASMOpcode) (align : Z) : bool :=
  match mem_access_aligns !! Z.to_nat (Z_of_byte (opcode_byte opcode)
                                       - Z_of_byte (opcode_byte WASM_OP_I32_LOAD)) with
  | Some max => align <=? max
  | None => false
  end.

(** [WASM_OP_I32_TRUNC_SAT_S_F32] to [WASM_OP_I64_TRUNC_SAT_U_F64]. *)
Definition trunc_sat_signature (o : WASMMiscEXTOpcode) : option (value_type * value_type) :=
  match o with
  | WASM_OP_I32_TRUNC_SAT_S_F32 | WASM_OP_I32_TRUNC_SAT_U_F32 => Some (VALUE_TYPE_F32, VALUE_TYPE_I32)
  | WASM_OP_I32_TRUNC_SAT_S_F64 | WASM_OP_I32_TRUNC_SAT_U_F64 => Some (VALUE_TYPE_F64, VALUE_TYPE_I32)
  | WASM_OP_I64_TRUNC_SAT_S_F32 | WASM_OP_I64_TRUNC_SAT_U_F32 => Some (VALUE_TYPE_F32, VALUE_TYPE_I64)
  | WASM_OP_I64_TRUNC_SAT_S_F64 | WASM_OP_I64_TRUNC_SAT_U_F64 => Some (VALUE_TYPE_F64, VALUE_TYPE_I64)
  | _ => None
  end.

(** ** Locals *)

(** A local is addressed by its first cell; the array has 16-bit entries. *)
Fixpoint init_local_offsets (local_offset : Z) (types : list value_type) : list Z :=
  match types with
  | [] => []
  | t :: types =>
      local_offset mod 2 ^ 16
      :: init_local_offsets (local_offset + Z.of_nat (wasm_value_type_cell_num t)) types
  end.

Definition init_function_local_offsets (func_type : WASMFuncType) (local_types : list value_type)
    : list Z :=
  init_local_offsets 0 (param_types func_type ++ local_types).

Section check.
Context (module : WASMModule) (func_type : WASMFuncType) (local_types : list value_type).

(** ** Checks of indices *)

Definition check_function_type (type_idx : Z) : LM WASMFuncType :=
  if type_idx <? 0 then goto_fail else lsome (types module !! Z.to_nat type_idx).

Definition check_function_index (func_idx : Z) : LM WASMFuncType :=
  lsome (all_functions module !! Z.to_nat func_idx).

Definition get_table_elem_type (table_idx : Z) : LM value_type :=
  lsome (all_tables module !! Z.to_nat table_idx).

Definition get_table_seg_elem_type (table_seg_idx : Z) : LM value_type :=
  lsome (seg_elem_type <$> table_segments module !! Z.to_nat table_seg_idx).

Definition check_memory : LM () :=
  check (negb ((memory_count module =? 0) && (import_memory_count module =? 0))).

Definition check_memidx (memidx : Z) : LM () := check (memidx =? 0).

(** A function whose reference is taken is imported, or it occurs in the
    initial value of a global, in a table segment or among the exports. *)
Definition func_declared (func_idx : Z) : bool :=
  existsb (fun g => value_type_eqb (val_type g) VALUE_TYPE_FUNCREF
                    && bool_decide (init_funcref g = Some func_idx)) (globals module)
  || existsb (fun s => value_type_eqb (seg_elem_type s) VALUE_TYPE_FUNCREF
                       && existsb (Z.eqb func_idx) (init_values s)) (table_segments module)
  || existsb (Z.eqb func_idx) (exports module).

(** The index, the type and the first cell of a local. *)
Definition GET_LOCAL_INDEX_TYPE_AND_OFFSET : LM (value_type * Z) :=
  local_idx ← pb_read_leb_uint32;
  local_type ← lsome ((param_types func_type ++ local_types) !! Z.to_nat local_idx);
  local_offset ← lsome (init_function_local_offsets func_type local_types !! Z.to_nat local_idx);
  mret (local_type, local_offset).

(** The short form of an access to a local. *)
Definition put_local_fast (p_org : nat) (o : WASMOpcode) (local_type : value_type)
    (local_offset : Z) : LM () :=
  if local_offset <? 128 then
    put_opcode p_org o;;
    put_code (p_org + 1) (byte_of_Z (if is_32bit_type local_type then local_offset
                                     else Z.lor local_offset 128));;
    fill_nop (p_org + 2)
  else mret tt.

(** ** Control instructions *)

Definition ext_block_opcode (opcode : WASMOpcode) : WASMOpcode :=
  match opcode with
  | WASM_OP_LOOP => EXT_OP_LOOP
  | WASM_OP_IF => EXT_OP_IF
  | _ => EXT_OP_BLOCK
  end.

Definition block_label (opcode : WASMOpcode) : label_type :=
  match opcode with
  | WASM_OP_LOOP => LABEL_TYPE_LOOP
  | WASM_OP_IF => LABEL_TYPE_IF
  | _ => LABEL_TYPE_BLOCK
  end.

(** The parameters of a block: the loop ends early when nothing is left to pop
    in code that cannot be reached. *)
Fixpoint pop_block_params (types : list value_type) : LM () :=
  match types with
  | [] => mret tt
  | t :: types =>
      b ← cur_block;
      available ← available_stack_cell;
      if (available =? 0)%nat && is_stack_polymorphic b then mret tt
      else wasm_loader_pop_frame_ref t;; pop_block_params types
  end.

Definition handle_op_block_and_loop (opcode : WASMOpcode) : LM () :=
  p_org ← cur_p;
  b ← (r ← lget p_rest; lsome (head r));
  type ← match is_byte_a_type b with
         | Some value_type => advance 1;; mret (value_block value_type)
         | None =>
             type_index ← pb_read_leb_int32;
             t ← check_function_type type_index;
             put_opcode (p_org - 1) (ext_block_opcode opcode);;
             mret (type_block t)
         end;
  pop_block_params (rev (block_type_get_param_types type));;
  p ← cur_p;
  wasm_loader_push_frame_csp (block_label opcode) type p;;
  push_types (block_type_get_param_types type).

(** [p] is behind the opcode. *)
Definition handle_op_else (p : nat) : LM () :=
  num ← lget csp_num;
  check (2 <=? num)%nat;;
  block ← cur_block;
  check (bool_decide (blk_label_type block = LABEL_TYPE_IF));;
  check (bool_decide (else_addr block = None));;
  check_block_stack block;;
  set_cur_block (set_else_addr (Some (p - 1)%nat));;
  RESET_STACK;;
  SET_CUR_BLOCK_STACK_POLYMORPHIC_STATE false;;
  push_types (block_type_get_param_types (block_type block)).

(** Behind an [if] without [else], the [end] is first taken as an [else], and
    then read once more. *)
Definition handle_op_end : LM () :=
  cur ← cur_block;
  check_block_stack cur;;
  if bool_decide (blk_label_type cur = LABEL_TYPE_IF) && bool_decide (else_addr cur = None) then
    lset (fun c => set_p (take (length (p_done c) - 1) (p_done c))
                     (drop (length (p_done c) - 1) (p_done c) ++ p_rest c) c);;
    p ← cur_p;
    handle_op_else p
  else
    wasm_loader_pop_frame_csp;;
    num ← lget csp_num;
    r ← lget p_rest;
    check ((0 <? num)%nat || (length r =? 0)%nat).

Definition reset_polymorphic : LM () :=
  RESET_STACK;; SET_CUR_BLOCK_STACK_POLYMORPHIC_STATE true.

(** The first pass over the targets, [n] of which are left: the last of them,
    without moving [p]. *)
Fixpoint br_table_depths (n : nat) (csp_num : nat) (depth : Z) (rest : bytes) : option Z :=
  match n with
  | O => Some depth
  | S n =>
      match read_leb_uint32 rest with
      | inl _ => None
      | inr (depth, rest) =>
          if Z.of_nat csp_num - 1 <? depth then None else br_table_depths n csp_num depth rest
      end
  end.

Definition depth_arity (depth : Z) : LM nat :=
  csp ← lget frame_csp;
  b ← lsome (csp !! Z.to_nat depth);
  mret (block_type_get_arity (block_type b) (blk_label_type b)).

(** The second pass: each target is checked and stored in one byte, or, from
    the first that does not fit on, in a table beside the code. The result is
    the table, or the end of the stored bytes; [i] targets are done and [n] are
    left. *)
Fixpoint br_table_targets (n : nat) (default_arity : nat) (i : Z)
    (p_opcode p_depth_begin p_depth : nat) (br_table_cache : option (list Z))
    : LM (option (list Z) * nat) :=
  match n with
  | O => mret (br_table_cache, p_depth)
  | S n =>
      next ← peek_leb read_leb_uint32;
      arity ← depth_arity (fst next);
      check (arity =? default_arity)%nat;;
      depth ← check_branch_block WASM_OP_BR_TABLE;
      done_ ← lget p_done;
      r ← match br_table_cache with
          | Some br_depths => mret (Some (br_depths ++ [depth]), p_depth)
          | None =>
              if 255 <? depth then
                put_opcode p_opcode EXT_OP_BR_TABLE_CACHE;;
                mret (Some ((Z_of_byte <$> done_.[p_depth_begin,+ Z.to_nat i]) ++ [depth]), p_depth)
              else
                put_code p_depth (byte_of_Z depth);;
                mret (None, S p_depth)
          end;
      br_table_targets n default_arity (i + 1) p_opcode p_depth_begin (snd r) (fst r)
  end.

Definition handle_op_br_table : LM () :=
  p ← cur_p;
  let p_opcode := (p - 1)%nat in
  count ← pb_read_leb_uint32;
  wasm_loader_pop_frame_ref VALUE_TYPE_I32;;
  r ← lget p_rest;
  num ← lget csp_num;
  let n := S (Z.to_nat count) in
  depth ← lsome (br_table_depths n num 0 r);
  default_arity ← depth_arity depth;
  p_depth_begin ← cur_p;
  t ← br_table_targets n default_arity 0 p_opcode p_depth_begin p_depth_begin None;
  match fst t with
  | Some br_depths =>
      lset (fun c => set_br_table_cache_list ((p_opcode, br_depths) :: br_table_cache_list c) c);;
      fill_nop p_depth_begin
  | None => fill_nop (snd t)
  end;;
  reset_polymorphic.

(** ** The instructions *)

Definition POP_I32 : LM () := wasm_loader_pop_frame_ref VALUE_TYPE_I32.
Definition PUSH_I32 : LM () := wasm_loader_push_frame_ref VALUE_TYPE_I32.

Definition handle_op_drop : LM () :=
  b ← cur_block;
  available ← available_stack_cell;
  r ← lget frame_ref;
  if (available =? 0)%nat then check (is_stack_polymorphic b) else
  match r with
  | t :: _ =>
      if is_32bit_type t then lset (set_frame_ref (drop 1 r))
      else if is_64bit_type t then
        lset (set_frame_ref (drop 2 r));;
        p ← cur_p;
        put_opcode (p - 1) WASM_OP_DROP_64
      else goto_fail
  | [] => goto_fail
  end.

Definition handle_op_select : LM () :=
  b ← cur_block;
  POP_I32;;
  available ← available_stack_cell;
  r ← lget frame_ref;
  if (available =? 0)%nat then
    check (is_stack_polymorphic b);;
    wasm_loader_push_frame_ref VALUE_TYPE_ANY
  else
    match r with
    | ref_type :: _ =>
        match ref_type with
        | VALUE_TYPE_I32 | VALUE_TYPE_F32 | VALUE_TYPE_ANY => mret tt
        | VALUE_TYPE_I64 | VALUE_TYPE_F64 => p ← cur_p; put_opcode (p - 1) WASM_OP_SELECT_64
        | _ => goto_fail
        end;;
        wasm_loader_push_pop_frame_ref 2 ref_type ref_type
    | [] => goto_fail
    end.

(** [vec_len] has 8 bits. *)
Definition handle_op_select_t : LM () :=
  vec_len ← pb_read_leb_uint32;
  check (vec_len mod 2 ^ 8 =? 1);;
  b ← read_uint8;
  type ← lsome (valid_value_type b);
  POP_I32;;
  wasm_loader_pop_frame_ref type;;
  wasm_loader_pop_frame_ref type;;
  wasm_loader_push_frame_ref type.

(** The second check runs in the state that the first leaves, which is the same
    when it fails. *)
Definition handle_op_ref_is_null : LM () :=
  (fun c => match wasm_loader_pop_frame_ref VALUE_TYPE_FUNCREF c with
            | Some r => Some r
            | None => wasm_loader_pop_frame_ref VALUE_TYPE_EXTERNREF c
            end);;
  PUSH_I32.

Definition handle_op_ref_func : LM () :=
  func_idx ← pb_read_leb_uint32;
  _ ← check_function_index func_idx;
  check ((func_idx <? Z.of_nat (length (import_functions module))) || func_declared func_idx);;
  wasm_loader_push_frame_ref VALUE_TYPE_FUNCREF.

Definition handle_op_global (opcode : WASMOpcode) : LM () :=
  p ← cur_p;
  let p_org := (p - 1)%nat in
  global_idx ← pb_read_leb_uint32;
  g ← lsome (all_globals module !! Z.to_nat global_idx);
  let global_type := val_type g in
  let is_64 := value_type_eqb global_type VALUE_TYPE_I64 || value_type_eqb global_type VALUE_TYPE_F64 in
  match opcode with
  | WASM_OP_GET_GLOBAL =>
      wasm_loader_push_frame_ref global_type;;
      if is_64 then put_opcode p_org WASM_OP_GET_GLOBAL_64 else mret tt
  | _ =>
      check (is_mutable g);;
      (if is_64 then put_opcode p_org WASM_OP_SET_GLOBAL_64
       else if (0 <? aux_stack_size module) && (global_idx =? aux_stack_top_global_index module)
       then put_opcode p_org WASM_OP_SET_GLOBAL_AUX_STACK
       else mret tt);;
      wasm_loader_pop_frame_ref global_type
  end.

Definition handle_op_load_store (opcode : WASMOpcode) (t : value_type) (is_store : bool) : LM () :=
  check_memory;;
  align ← pb_read_leb_uint32;
  _ ← pb_read_leb_uint32;
  check (check_memory_access_align opcode align);;
  if is_store then wasm_loader_pop_frame_ref t;; POP_I32
  else wasm_loader_push_pop_frame_ref 1 t VALUE_TYPE_I32.

Definition read_memidx : LM () := memidx ← pb_read_leb_uint32; check_memidx memidx.

Definition handle_op_memory_init : LM () :=
  data_seg_idx ← pb_read_leb_uint32;
  check_memory;;
  read_memidx;;
  check (data_seg_idx <? data_seg_count module);;
  check (negb (data_seg_count1 module =? 0));;
  POP_I32;; POP_I32;; POP_I32.

Definition handle_op_data_drop : LM () :=
  data_seg_idx ← pb_read_leb_uint32;
  check (data_seg_idx <? data_seg_count module);;
  check (negb (data_seg_count1 module =? 0)).

Definition handle_op_memory_copy : LM () :=
  CHECK_BUF 2;;
  read_memidx;;
  read_memidx;;
  check_memory;;
  POP_I32;; POP_I32;; POP_I32.

Definition handle_op_memory_fill : LM () :=
  read_memidx;;
  check_memory;;
  POP_I32;; POP_I32;; POP_I32.

Definition handle_op_table_init : LM () :=
  table_seg_idx ← pb_read_leb_uint32;
  table_idx ← pb_read_leb_uint32;
  tbl_type ← get_table_elem_type table_idx;
  seg_type ← get_table_seg_elem_type table_seg_idx;
  check (value_type_eqb seg_type tbl_type);;
  POP_I32;; POP_I32;; POP_I32.

Definition handle_op_elem_drop : LM () :=
  table_seg_idx ← pb_read_leb_uint32;
  _ ← get_table_seg_elem_type table_seg_idx;
  mret tt.

Definition handle_op_table_copy : LM () :=
  dst_tbl_idx ← pb_read_leb_uint32;
  dst_type ← get_table_elem_type dst_tbl_idx;
  src_tbl_idx ← pb_read_leb_uint32;
  src_type ← get_table_elem_type src_tbl_idx;
  check (value_type_eqb src_type dst_type);;
  POP_I32;; POP_I32;; POP_I32.

Definition handle_op_table_size : LM () :=
  table_idx ← pb_read_leb_uint32;
  _ ← get_table_elem_type table_idx;
  PUSH_I32.

Definition handle_op_table_grow : LM () :=
  table_idx ← pb_read_leb_uint32;
  decl_type ← get_table_elem_type table_idx;
  POP_I32;;
  wasm_loader_pop_frame_ref decl_type;;
  PUSH_I32.

Definition handle_op_table_fill : LM () :=
  table_idx ← pb_read_leb_uint32;
  decl_type ← get_table_elem_type table_idx;
  POP_I32;;
  wasm_loader_pop_frame_ref decl_type;;
  POP_I32.

Definition handle_op_misc : LM () :=
  opcode1 ← pb_read_leb_uint32;
  o ← lsome (misc_opcode opcode1);
  match trunc_sat_signature o with
  | Some (type_pop, type_push) => wasm_loader_push_pop_frame_ref 1 type_push type_pop
  | None =>
  match o with
  | WASM_OP_MEMORY_INIT => handle_op_memory_init
  | WASM_OP_DATA_DROP => handle_op_data_drop
  | WASM_OP_MEMORY_COPY => handle_op_memory_copy
  | WASM_OP_MEMORY_FILL => handle_op_memory_fill
  | WASM_OP_TABLE_INIT => handle_op_table_init
  | WASM_OP_ELEM_DROP => handle_op_elem_drop
  | WASM_OP_TABLE_COPY => handle_op_table_copy
  | WASM_OP_TABLE_SIZE => handle_op_table_size
  | WASM_OP_TABLE_GROW => handle_op_table_grow
  | WASM_OP_TABLE_FILL => handle_op_table_fill
  | _ => goto_fail
  end
  end.

Definition handle_op_call : LM () :=
  func_idx ← pb_read_leb_uint32;
  t ← check_function_index func_idx;
  pop_types (param_types t);;
  push_types (result_types t).

Definition handle_op_call_indirect : LM () :=
  type_idx ← pb_read_leb_uint32;
  table_idx ← pb_read_leb_uint32;
  tbl_elem_type ← get_table_elem_type table_idx;
  check (value_type_eqb tbl_elem_type VALUE_TYPE_FUNCREF);;
  POP_I32;;
  t ← check_function_type type_idx;
  pop_types (param_types t);;
  push_types (result_types t).

Definition handle_op_table_get : LM () :=
  table_idx ← pb_read_leb_uint32;
  decl_ref_type ← get_table_elem_type table_idx;
  POP_I32;;
  wasm_loader_push_frame_ref decl_ref_type.

Definition handle_op_table_set : LM () :=
  table_idx ← pb_read_leb_uint32;
  decl_ref_type ← get_table_elem_type table_idx;
  wasm_loader_pop_frame_ref decl_ref_type;;
  POP_I32.

Definition handle_op_ref_null : LM () :=
  b ← read_uint8;
  match valid_value_type b with
  | Some VALUE_TYPE_FUNCREF => wasm_loader_push_frame_ref VALUE_TYPE_FUNCREF
  | Some VALUE_TYPE_EXTERNREF => wasm_loader_push_frame_ref VALUE_TYPE_EXTERNREF
  | _ => goto_fail
  end.

Definition handle_op_get_local (p_org : nat) : LM () :=
  l ← GET_LOCAL_INDEX_TYPE_AND_OFFSET;
  wasm_loader_push_frame_ref (fst l);;
  put_local_fast p_org EXT_OP_GET_LOCAL_FAST (fst l) (snd l).

Definition handle_op_set_local (p_org : nat) : LM () :=
  l ← GET_LOCAL_INDEX_TYPE_AND_OFFSET;
  put_local_fast p_org EXT_OP_SET_LOCAL_FAST (fst l) (snd l);;
  wasm_loader_pop_frame_ref (fst l).

Definition handle_op_tee_local (p_org : nat) : LM () :=
  l ← GET_LOCAL_INDEX_TYPE_AND_OFFSET;
  wasm_loader_pop_frame_ref (fst l);;
  wasm_loader_push_frame_ref (fst l);;
  put_local_fast p_org EXT_OP_TEE_LOCAL_FAST (fst l) (snd l).

Definition handle_op_return : LM () := pop_types (result_types func_type);; reset_polymorphic.

Definition handle_op_memory_size : LM () := check_memory;; read_memidx;; PUSH_I32.

Definition handle_op_memory_grow : LM () :=
  check_memory;; read_memidx;; wasm_loader_push_pop_frame_ref 1 VALUE_TYPE_I32 VALUE_TYPE_I32.

(** One round of the loop; [p] is behind the opcode. *)
Definition handle_op (opcode : WASMOpcode) : LM () :=
  p ← cur_p;
  let p_org := (p - 1)%nat in
  match numeric_signature opcode with
  | Some (pop_cnt, type_pop, type_push) => wasm_loader_push_pop_frame_ref pop_cnt type_push type_pop
  | None =>
  match memory_signature opcode with
  | Some (t, is_store) => handle_op_load_store opcode t is_store
  | None =>
  match opcode with
  | WASM_OP_UNREACHABLE => reset_polymorphic
  | WASM_OP_NOP => mret tt
  | WASM_OP_IF => POP_I32;; handle_op_block_and_loop opcode
  | WASM_OP_BLOCK | WASM_OP_LOOP => handle_op_block_and_loop opcode
  | WASM_OP_ELSE => handle_op_else p
  | WASM_OP_END => handle_op_end
  | WASM_OP_BR => _ ← check_branch_block opcode; reset_polymorphic
  | WASM_OP_BR_IF => POP_I32;; _ ← check_branch_block opcode; mret tt
  | WASM_OP_BR_TABLE => handle_op_br_table
  | WASM_OP_RETURN => handle_op_return
  | WASM_OP_CALL => handle_op_call
  | WASM_OP_CALL_INDIRECT => handle_op_call_indirect
  | WASM_OP_DROP => handle_op_drop
  | WASM_OP_SELECT => handle_op_select
  | WASM_OP_SELECT_T => handle_op_select_t
  | WASM_OP_TABLE_GET => handle_op_table_get
  | WASM_OP_TABLE_SET => handle_op_table_set
  | WASM_OP_REF_NULL => handle_op_ref_null
  | WASM_OP_REF_IS_NULL => handle_op_ref_is_null
  | WASM_OP_REF_FUNC => handle_op_ref_func
  | WASM_OP_GET_LOCAL => handle_op_get_local p_org
  | WASM_OP_SET_LOCAL => handle_op_set_local p_org
  | WASM_OP_TEE_LOCAL => handle_op_tee_local p_org
  | WASM_OP_GET_GLOBAL | WASM_OP_SET_GLOBAL => handle_op_global opcode
  | WASM_OP_MEMORY_SIZE => handle_op_memory_size
  | WASM_OP_MEMORY_GROW => handle_op_memory_grow
  | WASM_OP_I32_CONST => _ ← pb_read_leb_int32; PUSH_I32
  | WASM_OP_I64_CONST => _ ← pb_read_leb_int64; wasm_loader_push_frame_ref VALUE_TYPE_I64
  | WASM_OP_F32_CONST => CHECK_BUF 4;; advance 4;; wasm_loader_push_frame_ref VALUE_TYPE_F32
  | WASM_OP_F64_CONST => CHECK_BUF 8;; advance 8;; wasm_loader_push_frame_ref VALUE_TYPE_F64
  | WASM_OP_MISC_PREFIX => handle_op_misc
  | _ => goto_fail
  end
  end
  end.

(** The body of the loop. *)
Definition check_round : LM () :=
  b ← read_uint8;
  opcode ← lsome (byte_opcode b);
  handle_op opcode.

(** The end of the loop: all code is read, or [goto fail]; or the rounds given
    as fuel are used up, which the code has no counterpart of. *)
Inductive loop_end :=
| LoopDone (c : WASMLoaderContext)
| LoopFail
| LoopOutOfFuel.

Fixpoint check_loop (fuel : nat) (c : WASMLoaderContext) : loop_end :=
  match fuel with
  | O => LoopOutOfFuel
  | S fuel =>
      match p_rest c with
      | [] => LoopDone c
      | _ => match check_round c with
             | Some (_, c') => check_loop fuel c'
             | None => LoopFail
             end
      end
  end.

Definition loader_ctx_init (code : bytes) : WASMLoaderContext := Ctx [] code [] 0 [] 0 [].

(** The result of the check: the rewritten code, [max_stack_cell_num],
    [max_block_num] and the tables of branches; or an error. *)
Inductive load_result :=
| Loaded (code : bytes) (max_stack_cell_num max_block_num : nat) (br_tables : list (nat * list Z))
| LoadError
| LoadOutOfFuel.

(** An [end] may be read twice, any other round moves [p]: twice the size of
    the code is enough for the loop. *)
Definition wasm_loader_prepare_bytecode (code : bytes) : load_result :=
  match wasm_loader_push_frame_csp LABEL_TYPE_FUNCTION (type_block func_type) 0 (loader_ctx_init code) with
  | None => LoadError
  | Some (_, c) =>
      match check_loop (S (2 * length code)) c with
      | LoopOutOfFuel => LoadOutOfFuel
      | LoopFail => LoadError
      | LoopDone c =>
          if (csp_num c =? 0)%nat
          then Loaded (p_done c) (max_stack_cell_num c) (max_csp_num c) (br_table_cache_list c)
          else LoadError
      end
  end.

End check.
