(* ===== verification/Numeric.v ===== *)
(** * Arithmetic of the interpreter

    The functions and macros of
    [core/iwasm/interpreter/wasm_interp_classic.c] that compute on operands.
    An integer operand is the unsigned number in its cells; a float is the
    number of its bits. Floating point arithmetic of C is IEEE 754 with rounding
    to nearest, here that of the Standard Library's [SpecFloat]; C leaves open
    which NaN an operation gives, here it is the macro [NAN]. *)

From Stdlib Require Import Floats.SpecFloat.
From S2P Require Import Prelude Memory Leb Opcode.

(** The exceptions that instructions raise. *)
Inductive wasm_exception :=
| EXCE_UNREACHABLE
| EXCE_OUT_OF_BOUNDS_MEMORY_ACCESS
| EXCE_INTEGER_OVERFLOW
| EXCE_INTEGER_DIVIDE_BY_ZERO
| EXCE_INVALID_CONVERSION_TO_INTEGER
| EXCE_INVALID_FUNCTION_TYPE_INDEX
| EXCE_UNKNOWN_FUNCTION
| EXCE_UNDEFINED_ELEMENT
| EXCE_UNINITIALIZED_ELEMENT
| EXCE_CALL_UNLINKED_IMPORT_FUNC
| EXCE_AUX_STACK_OVERFLOW
| EXCE_AUX_STACK_UNDERFLOW
| EXCE_OUT_OF_BOUNDS_TABLE_ACCESS
| EXCE_OPERAND_STACK_OVERFLOW
| EXCE_INVALID_ARGUMENT_COUNT
| EXCE_UNSUPPORTED_OPCODE
| EXCE_INVALID_LOCAL_TYPE
| EXCE_FIND_BLOCK_ADDR
| EXCE_NATIVE.

#[export] Instance wasm_exception_eq_dec : EqDecision wasm_exception.
Proof. solve_decision. Defined.

(** A result, or the exception. *)
Abbreviation result A := (wasm_exception + A)%type.

(** ** Integers *)

(** The width of an operand in bits, and its cells. *)
Inductive width := W32 | W64.

Definition bits (w : width) : Z := match w with W32 => 32 | W64 => 64 end.
Definition cells (w : width) : nat := match w with W32 => 1 | W64 => 2 end.

Definition wrap (w : width) (z : Z) : Z := z mod 2 ^ bits w.

(** The signed value of an unsigned one. *)
Definition signed (w : width) (z : Z) : Z :=
  if z <? 2 ^ (bits w - 1) then z else z - 2 ^ bits w.

(** [rotl32], [rotr32], [rotl64] and [rotr64]. *)
Definition rotl (w : width) (n c : Z) : Z :=
  let mask := bits w - 1 in
  let c := Z.land (c mod bits w) mask in
  Z.lor (wrap w (Z.shiftl n c)) (Z.shiftr n (Z.land (wrap w (0 - c)) mask)).

Definition rotr (w : width) (n c : Z) : Z :=
  let mask := bits w - 1 in
  let c := Z.land (c mod bits w) mask in
  Z.lor (Z.shiftr n c) (wrap w (Z.shiftl n (Z.land (wrap w (0 - c)) mask))).

(** [clz32] and [clz64]: the loop ends after at most one round per bit, because
    some bit is set. *)
Fixpoint clz_loop (fuel : nat) (w : width) (type num : Z) : Z :=
  match fuel with
  | O => num
  | S fuel =>
      if negb (Z.land type (2 ^ (bits w - 1)) =? 0) then num
      else clz_loop fuel w (wrap w (Z.shiftl type 1)) (num + 1)
  end.

Definition clz (w : width) (type : Z) : Z :=
  if type =? 0 then bits w else clz_loop (Z.to_nat (bits w)) w type 0.

Fixpoint ctz_loop (fuel : nat) (type num : Z) : Z :=
  match fuel with
  | O => num
  | S fuel =>
      if negb (Z.land type 1 =? 0) then num else ctz_loop fuel (Z.shiftr type 1) (num + 1)
  end.

Definition ctz (w : width) (type : Z) : Z :=
  if type =? 0 then bits w else ctz_loop (Z.to_nat (bits w)) type 0.

(** Each round clears the lowest bit that is set. *)
Fixpoint popcount_loop (fuel : nat) (u ret : Z) : Z :=
  match fuel with
  | O => ret
  | S fuel => if u =? 0 then ret else popcount_loop fuel (Z.land u (u - 1)) (ret + 1)
  end.

Definition popcount (w : width) (u : Z) : Z := popcount_loop (Z.to_nat (bits w)) u 0.

(** [sign_ext_8_32] and the like: from [from] bits. *)
Definition sign_ext (from : Z) (w : width) (val : Z) : Z :=
  if negb (Z.land val (2 ^ (from - 1)) =? 0) then Z.lor val (2 ^ bits w - 2 ^ from) else val.

Definition div_s (w : width) (x y : Z) : result Z :=
  let a := signed w x in
  let b := signed w y in
  if (a =? - 2 ^ (bits w - 1)) && (b =? -1) then inl EXCE_INTEGER_OVERFLOW else
  if b =? 0 then inl EXCE_INTEGER_DIVIDE_BY_ZERO else inr (wrap w (Z.quot a b)).

Definition div_u (a b : Z) : result Z :=
  if b =? 0 then inl EXCE_INTEGER_DIVIDE_BY_ZERO else inr (a / b).

Definition rem_s (w : width) (x y : Z) : result Z :=
  let a := signed w x in
  let b := signed w y in
  if (a =? - 2 ^ (bits w - 1)) && (b =? -1) then inr 0 else
  if b =? 0 then inl EXCE_INTEGER_DIVIDE_BY_ZERO else inr (wrap w (Z.rem a b)).

Definition rem_u (a b : Z) : result Z :=
  if b =? 0 then inl EXCE_INTEGER_DIVIDE_BY_ZERO else inr (a mod b).

Definition shl (w : width) (a b : Z) : Z := wrap w (Z.shiftl a (b mod bits w)).
Definition shr_s (w : width) (a b : Z) : Z := wrap w (Z.shiftr (signed w a) (b mod bits w)).
Definition shr_u (w : width) (a b : Z) : Z := Z.shiftr a (b mod bits w).

(** ** Floats *)

Definition prec (w : width) : Z := match w with W32 => 24 | W64 => 53 end.
Definition emax (w : width) : Z := match w with W32 => 128 | W64 => 1024 end.

(** [NAN] *)
Definition nan_bits (w : width) : Z :=
  match w with W32 => 0x7fc00000 | W64 => 0x7ff8000000000000 end.

Definition mbits (w : width) : Z := prec w - 1.
Definition sign_of (w : width) (x : Z) : bool := Z.testbit x (bits w - 1).

(** The float of a bit pattern, and the bit pattern of a float. *)
Definition float_of_bits (w : width) (x : Z) : spec_float :=
  let s := sign_of w x in
  let m := x mod 2 ^ mbits w in
  let e := Z.shiftr x (mbits w) mod (2 * emax w) in
  if e =? 0 then
    match m with
    | Zpos p => S754_finite s p (emin (prec w) (emax w))
    | _ => S754_zero s
    end
  else if e =? 2 * emax w - 1 then
    if m =? 0 then S754_infinity s else S754_nan
  else match 2 ^ mbits w + m with
       | Zpos p => S754_finite s p (e - 1 + emin (prec w) (emax w))
       | _ => S754_nan
       end.

Definition bits_of_float (w : width) (f : spec_float) : Z :=
  let sign (s : bool) := if s then 2 ^ (bits w - 1) else 0 in
  match f with
  | S754_nan => nan_bits w
  | S754_zero s => sign s
  | S754_infinity s => sign s + Z.shiftl (2 * emax w - 1) (mbits w)
  | S754_finite s m e =>
      if Zpos m <? 2 ^ mbits w then sign s + Zpos m
      else sign s + Z.shiftl (e + 1 - emin (prec w) (emax w)) (mbits w) + (Zpos m - 2 ^ mbits w)
  end.

Definition is_nan (w : width) (x : Z) : bool :=
  match float_of_bits w x with
  | S754_nan => true
  | _ => false
  end.

Definition fcmp (w : width) (f : spec_float -> spec_float -> bool) (x y : Z) : bool :=
  f (float_of_bits w x) (float_of_bits w y).

Definition feq (w : width) := fcmp w SFeqb.
Definition flt (w : width) := fcmp w SFltb.
Definition fle (w : width) := fcmp w SFleb.

Definition f1 (w : width) (f : spec_float -> spec_float) (x : Z) : Z :=
  bits_of_float w (f (float_of_bits w x)).
Definition f2 (w : width) (f : spec_float -> spec_float -> spec_float) (x y : Z) : Z :=
  bits_of_float w (f (float_of_bits w x) (float_of_bits w y)).

Definition fadd (w : width) := f2 w (SFadd (prec w) (emax w)).
Definition fsub (w : width) := f2 w (SFsub (prec w) (emax w)).
Definition fmul (w : width) := f2 w (SFmul (prec w) (emax w)).
Definition fdiv (w : width) := f2 w (SFdiv (prec w) (emax w)).
Definition fsqrt (w : width) := f1 w (SFsqrt (prec w) (emax w)).

(** [fabsf] and [fabs] clear the sign. *)
Definition fabs (w : width) (x : Z) : Z := Z.clearbit x (bits w - 1).

(** [WASM_OP_F32_NEG] and [WASM_OP_F64_NEG]. *)
Definition fneg (w : width) (x : Z) : Z :=
  let sign_bit := 2 ^ (bits w - 1) in
  if negb (Z.land x sign_bit =? 0) then Z.land x (sign_bit - 1) else Z.lor x sign_bit.

(** [f32_min], [f32_max], [f64_min] and [f64_max]. *)
Definition fmin (w : width) (a b : Z) : Z :=
  if is_nan w a || is_nan w b then nan_bits w
  else if feq w a 0 && feq w a b then if sign_of w a then a else b
  else if flt w b a then b else a.

Definition fmax (w : width) (a b : Z) : Z :=
  if is_nan w a || is_nan w b then nan_bits w
  else if feq w a 0 && feq w a b then if sign_of w a then b else a
  else if flt w b a then a else b.

(** [local_copysignf] and [local_copysign]. *)
Definition copysign (w : width) (x y : Z) : Z :=
  Z.lor (Z.land x (2 ^ (bits w - 1) - 1)) (Z.land y (2 ^ (bits w - 1))).

(** Rounding of [m * 2 ^ e] to an integer, for a magnitude. *)
Inductive rounding := to_zero | up | to_even.

Definition round_magnitude (r : rounding) (m e : Z) : Z :=
  if 0 <=? e then Z.shiftl m e else
  let q := Z.shiftr m (- e) in
  let rest := m - Z.shiftl q (- e) in
  let half := 2 ^ (- e - 1) in
  match r with
  | to_zero => q
  | up => if rest =? 0 then q else q + 1
  | to_even =>
      if (rest <? half) || ((rest =? half) && Z.even q) then q else q + 1
  end.

(** [truncf], [ceilf], [floorf], [rintf] and the like: [r] depends on the sign. *)
Definition round_float (w : width) (r : bool -> rounding) (f : spec_float) : spec_float :=
  match f with
  | S754_finite s m e =>
      if 0 <=? e then f else
      let q := round_magnitude (r s) (Zpos m) e in
      if q =? 0 then S754_zero s
      else binary_normalize (prec w) (emax w) (cond_Zopp s q) 0 s
  | _ => f
  end.

Definition ftrunc (w : width) := f1 w (round_float w (fun _ => to_zero)).
Definition fceil (w : width) := f1 w (round_float w (fun s => if s then to_zero else up)).
Definition ffloor (w : width) := f1 w (round_float w (fun s => if s then up else to_zero)).
Definition frint (w : width) := f1 w (round_float w (fun _ => to_even)).

(** [(float32)z] of an integer, and between the two formats. *)
Definition float_of_int (w : width) (z : Z) : Z :=
  bits_of_float w (binary_normalize (prec w) (emax w) z 0 false).

Definition convert_float (src dst : width) (x : Z) : Z :=
  match float_of_bits src x with
  | S754_finite s m e =>
      bits_of_float dst (binary_normalize (prec dst) (emax dst) (cond_Zopp s (Zpos m)) e s)
  | f => bits_of_float dst f
  end.

(** [(int64)x]: the fraction is discarded. *)
Definition int_of_float (w : width) (x : Z) : Z :=
  match float_of_bits w x with
  | S754_finite s m e => cond_Zopp s (round_magnitude to_zero (Zpos m) e)
  | _ => 0
  end.

(** [trunc_f32_to_i32] and the like: [src_min] and [src_max] are constants of
    the code, integers that the format represents. *)
Definition trunc_to (src dst : width) (src_min src_max dst_min dst_max x : Z) : Z :=
  if is_nan src x then 0
  else if fle src x (float_of_int src src_min) then dst_min
  else if fle src (float_of_int src src_max) x then dst_max
  else wrap dst (int_of_float src x).

(** [trunc_f32_to_int] and [trunc_f64_to_int]. *)
Definition trunc_to_int (src dst : width) (src_min src_max : Z) (saturating is_sign : bool) (x : Z)
    : result Z :=
  if negb saturating && is_nan src x then inl EXCE_INVALID_CONVERSION_TO_INTEGER else
  if negb saturating && (fle src x (float_of_int src src_min)
                         || fle src (float_of_int src src_max) x)
  then inl EXCE_INTEGER_OVERFLOW else
  let dst_min := if is_sign then 2 ^ (bits dst - 1) else 0 in
  let dst_max := if is_sign then 2 ^ (bits dst - 1) - 1 else 2 ^ bits dst - 1 in
  inr (trunc_to src dst src_min src_max dst_min dst_max x).

(** ** Numeric instructions *)

(** What an instruction pops and pushes, and what it computes: [val1] is below
    [val2] on the stack. *)
Inductive numeric_instr :=
| unary (src dst : width) (f : Z -> result Z)
| binary (src dst : width) (f : Z -> Z -> result Z).

Definition DEF_OP_EQZ (w : width) := unary w W32 (fun x => inr (Z.b2z (x =? 0))).
Definition DEF_OP_CMP (w : width) (cond : Z -> Z -> bool) :=
  binary w W32 (fun val1 val2 => inr (Z.b2z (cond val1 val2))).
Definition DEF_OP_BIT_COUNT (w : width) (operation : Z -> Z) := unary w w (fun x => inr (operation x)).
Definition DEF_OP_NUMERIC (w : width) (operation : Z -> Z -> Z) :=
  binary w w (fun val1 val2 => inr (operation val1 val2)).
Definition DEF_OP_MATH (w : width) (method : Z -> Z) := unary w w (fun x => inr (method x)).
Definition DEF_OP_CONVERT (src dst : width) (f : Z -> Z) := unary src dst (fun x => inr (f x)).
Definition DEF_OP_TRUNC (src dst : width) (min max : Z) (is_sign : bool) :=
  unary src dst (trunc_to_int src dst min max false is_sign).
Definition DEF_OP_TRUNC_SAT (src dst : width) (min max : Z) (is_sign : bool) :=
  unary src dst (trunc_to_int src dst min max true is_sign).

(** A comparison of signed operands. *)
Definition scmp (w : width) (f : Z -> Z -> bool) (x y : Z) : bool := f (signed w x) (signed w y).

Definition i32_compare (o : WASMOpcode) : option numeric_instr :=
  match o with
  | WASM_OP_I32_EQZ => Some (DEF_OP_EQZ W32)
  | WASM_OP_I32_EQ => Some (DEF_OP_CMP W32 Z.eqb)
  | WASM_OP_I32_NE => Some (DEF_OP_CMP W32 (fun x y => negb (x =? y)))
  | WASM_OP_I32_LT_S => Some (DEF_OP_CMP W32 (scmp W32 Z.ltb))
  | WASM_OP_I32_LT_U => Some (DEF_OP_CMP W32 Z.ltb)
  | WASM_OP_I32_GT_S => Some (DEF_OP_CMP W32 (scmp W32 Z.gtb))
  | WASM_OP_I32_GT_U => Some (DEF_OP_CMP W32 Z.gtb)
  | WASM_OP_I32_LE_S => Some (DEF_OP_CMP W32 (scmp W32 Z.leb))
  | WASM_OP_I32_LE_U => Some (DEF_OP_CMP W32 Z.leb)
  | WASM_OP_I32_GE_S => Some (DEF_OP_CMP W32 (scmp W32 Z.geb))
  | WASM_OP_I32_GE_U => Some (DEF_OP_CMP W32 Z.geb)
  | _ => None
  end.

Definition i64_compare (o : WASMOpcode) : option numeric_instr :=
  match o with
  | WASM_OP_I64_EQZ => Some (DEF_OP_EQZ W64)
  | WASM_OP_I64_EQ => Some (DEF_OP_CMP W64 Z.eqb)
  | WASM_OP_I64_NE => Some (DEF_OP_CMP W64 (fun x y => negb (x =? y)))
  | WASM_OP_I64_LT_S => Some (DEF_OP_CMP W64 (scmp W64 Z.ltb))
  | WASM_OP_I64_LT_U => Some (DEF_OP_CMP W64 Z.ltb)
  | WASM_OP_I64_GT_S => Some (DEF_OP_CMP W64 (scmp W64 Z.gtb))
  | WASM_OP_I64_GT_U => Some (DEF_OP_CMP W64 Z.gtb)
  | WASM_OP_I64_LE_S => Some (DEF_OP_CMP W64 (scmp W64 Z.leb))
  | WASM_OP_I64_LE_U => Some (DEF_OP_CMP W64 Z.leb)
  | WASM_OP_I64_GE_S => Some (DEF_OP_CMP W64 (scmp W64 Z.geb))
  | WASM_OP_I64_GE_U => Some (DEF_OP_CMP W64 Z.geb)
  | _ => None
  end.

Definition float_compare (o : WASMOpcode) : option numeric_instr :=
  match o with
  | WASM_OP_F32_EQ => Some (DEF_OP_CMP W32 (feq W32))
  | WASM_OP_F32_NE => Some (DEF_OP_CMP W32 (fun x y => negb (feq W32 x y)))
  | WASM_OP_F32_LT => Some (DEF_OP_CMP W32 (flt W32))
  | WASM_OP_F32_GT => Some (DEF_OP_CMP W32 (fun x y => flt W32 y x))
  | WASM_OP_F32_LE => Some (DEF_OP_CMP W32 (fle W32))
  | WASM_OP_F32_GE => Some (DEF_OP_CMP W32 (fun x y => fle W32 y x))
  | WASM_OP_F64_EQ => Some (DEF_OP_CMP W64 (feq W64))
  | WASM_OP_F64_NE => Some (DEF_OP_CMP W64 (fun x y => negb (feq W64 x y)))
  | WASM_OP_F64_LT => Some (DEF_OP_CMP W64 (flt W64))
  | WASM_OP_F64_GT => Some (DEF_OP_CMP W64 (fun x y => flt W64 y x))
  | WASM_OP_F64_LE => Some (DEF_OP_CMP W64 (fle W64))
  | WASM_OP_F64_GE => Some (DEF_OP_CMP W64 (fun x y => fle W64 y x))
  | _ => None
  end.

Definition i32_numeric (o : WASMOpcode) : option numeric_instr :=
  match o with
  | WASM_OP_I32_CLZ => Some (DEF_OP_BIT_COUNT W32 (clz W32))
  | WASM_OP_I32_CTZ => Some (DEF_OP_BIT_COUNT W32 (ctz W32))
  | WASM_OP_I32_POPCNT => Some (DEF_OP_BIT_COUNT W32 (popcount W32))
  | WASM_OP_I32_ADD => Some (DEF_OP_NUMERIC W32 (fun a b => wrap W32 (a + b)))
  | WASM_OP_I32_SUB => Some (DEF_OP_NUMERIC W32 (fun a b => wrap W32 (a - b)))
  | WASM_OP_I32_MUL => Some (DEF_OP_NUMERIC W32 (fun a b => wrap W32 (a * b)))
  | WASM_OP_I32_DIV_S => Some (binary W32 W32 (div_s W32))
  | WASM_OP_I32_DIV_U => Some (binary W32 W32 div_u)
  | WASM_OP_I32_REM_S => Some (binary W32 W32 (rem_s W32))
  | WASM_OP_I32_REM_U => Some (binary W32 W32 rem_u)
  | WASM_OP_I32_AND => Some (DEF_OP_NUMERIC W32 Z.land)
  | WASM_OP_I32_OR => Some (DEF_OP_NUMERIC W32 Z.lor)
  | WASM_OP_I32_XOR => Some (DEF_OP_NUMERIC W32 Z.lxor)
  | WASM_OP_I32_SHL => Some (DEF_OP_NUMERIC W32 (shl W32))
  | WASM_OP_I32_SHR_S => Some (DEF_OP_NUMERIC W32 (shr_s W32))
  | WASM_OP_I32_SHR_U => Some (DEF_OP_NUMERIC W32 (shr_u W32))
  | WASM_OP_I32_ROTL => Some (DEF_OP_NUMERIC W32 (rotl W32))
  | WASM_OP_I32_ROTR => Some (DEF_OP_NUMERIC W32 (rotr W32))
  | _ => None
  end.

Definition i64_numeric (o : WASMOpcode) : option numeric_instr :=
  match o with
  | WASM_OP_I64_CLZ => Some (DEF_OP_BIT_COUNT W64 (clz W64))
  | WASM_OP_I64_CTZ => Some (DEF_OP_BIT_COUNT W64 (ctz W64))
  | WASM_OP_I64_POPCNT => Some (DEF_OP_BIT_COUNT W64 (popcount W64))
  | WASM_OP_I64_ADD => Some (DEF_OP_NUMERIC W64 (fun a b => wrap W64 (a + b)))
  | WASM_OP_I64_SUB => Some (DEF_OP_NUMERIC W64 (fun a b => wrap W64 (a - b)))
  | WASM_OP_I64_MUL => Some (DEF_OP_NUMERIC W64 (fun a b => wrap W64 (a * b)))
  | WASM_OP_I64_DIV_S => Some (binary W64 W64 (div_s W64))
  | WASM_OP_I64_DIV_U => Some (binary W64 W64 div_u)
  | WASM_OP_I64_REM_S => Some (binary W64 W64 (rem_s W64))
  | WASM_OP_I64_REM_U => Some (binary W64 W64 rem_u)
  | WASM_OP_I64_AND => Some (DEF_OP_NUMERIC W64 Z.land)
  | WASM_OP_I64_OR => Some (DEF_OP_NUMERIC W64 Z.lor)
  | WASM_OP_I64_XOR => Some (DEF_OP_NUMERIC W64 Z.lxor)
  | WASM_OP_I64_SHL => Some (DEF_OP_NUMERIC W64 (shl W64))
  | WASM_OP_I64_SHR_S => Some (DEF_OP_NUMERIC W64 (shr_s W64))
  | WASM_OP_I64_SHR_U => Some (DEF_OP_NUMERIC W64 (shr_u W64))
  | WASM_OP_I64_ROTL => Some (DEF_OP_NUMERIC W64 (rotl W64))
  | WASM_OP_I64_ROTR => Some (DEF_OP_NUMERIC W64 (rotr W64))
  | _ => None
  end.

Definition f32_numeric (o : WASMOpcode) : option numeric_instr :=
  match o with
  | WASM_OP_F32_ABS => Some (DEF_OP_MATH W32 (fabs W32))
  | WASM_OP_F32_NEG => Some (DEF_OP_MATH W32 (fneg W32))
  | WASM_OP_F32_CEIL => Some (DEF_OP_MATH W32 (fceil W32))
  | WASM_OP_F32_FLOOR => Some (DEF_OP_MATH W32 (ffloor W32))
  | WASM_OP_F32_TRUNC => Some (DEF_OP_MATH W32 (ftrunc W32))
  | WASM_OP_F32_NEAREST => Some (DEF_OP_MATH W32 (frint W32))
  | WASM_OP_F32_SQRT => Some (DEF_OP_MATH W32 (fsqrt W32))
  | WASM_OP_F32_ADD => Some (DEF_OP_NUMERIC W32 (fadd W32))
  | WASM_OP_F32_SUB => Some (DEF_OP_NUMERIC W32 (fsub W32))
  | WASM_OP_F32_MUL => Some (DEF_OP_NUMERIC W32 (fmul W32))
  | WASM_OP_F32_DIV => Some (DEF_OP_NUMERIC W32 (fdiv W32))
  | WASM_OP_F32_MIN => Some (DEF_OP_NUMERIC W32 (fmin W32))
  | WASM_OP_F32_MAX => Some (DEF_OP_NUMERIC W32 (fmax W32))
  | WASM_OP_F32_COPYSIGN => Some (DEF_OP_NUMERIC W32 (copysign W32))
  | _ => None
  end.

Definition f64_numeric (o : WASMOpcode) : option numeric_instr :=
  match o with
  | WASM_OP_F64_ABS => Some (DEF_OP_MATH W64 (fabs W64))
  | WASM_OP_F64_NEG => Some (DEF_OP_MATH W64 (fneg W64))
  | WASM_OP_F64_CEIL => Some (DEF_OP_MATH W64 (fceil W64))
  | WASM_OP_F64_FLOOR => Some (DEF_OP_MATH W64 (ffloor W64))
  | WASM_OP_F64_TRUNC => Some (DEF_OP_MATH W64 (ftrunc W64))
  | WASM_OP_F64_NEAREST => Some (DEF_OP_MATH W64 (frint W64))
  | WASM_OP_F64_SQRT => Some (DEF_OP_MATH W64 (fsqrt W64))
  | WASM_OP_F64_ADD => Some (DEF_OP_NUMERIC W64 (fadd W64))
  | WASM_OP_F64_SUB => Some (DEF_OP_NUMERIC W64 (fsub W64))
  | WASM_OP_F64_MUL => Some (DEF_OP_NUMERIC W64 (fmul W64))
  | WASM_OP_F64_DIV => Some (DEF_OP_NUMERIC W64 (fdiv W64))
  | WASM_OP_F64_MIN => Some (DEF_OP_NUMERIC W64 (fmin W64))
  | WASM_OP_F64_MAX => Some (DEF_OP_NUMERIC W64 (fmax W64))
  | WASM_OP_F64_COPYSIGN => Some (DEF_OP_NUMERIC W64 (copysign W64))
  | _ => None
  end.

(** The constants next to the ranges that floats represent. *)
Definition f32_below_i32 : Z := -2147483904.
Definition f32_below_i64 : Z := -9223373136366403584.
Definition f64_below_i32 : Z := -2147483649.
Definition f64_below_i64 : Z := -9223372036854777856.

Definition conversion (o : WASMOpcode) : option numeric_instr :=
  match o with
  | WASM_OP_I32_WRAP_I64 => Some (DEF_OP_CONVERT W64 W32 (fun x => Z.land x 0xFFFFFFFF))
  | WASM_OP_I32_TRUNC_S_F32 => Some (DEF_OP_TRUNC W32 W32 f32_below_i32 2147483648 true)
  | WASM_OP_I32_TRUNC_U_F32 => Some (DEF_OP_TRUNC W32 W32 (-1) 4294967296 false)
  | WASM_OP_I32_TRUNC_S_F64 => Some (DEF_OP_TRUNC W64 W32 f64_below_i32 2147483648 true)
  | WASM_OP_I32_TRUNC_U_F64 => Some (DEF_OP_TRUNC W64 W32 (-1) 4294967296 false)
  | WASM_OP_I64_EXTEND_S_I32 => Some (DEF_OP_CONVERT W32 W64 (fun x => wrap W64 (signed W32 x)))
  | WASM_OP_I64_EXTEND_U_I32 => Some (DEF_OP_CONVERT W32 W64 id)
  | WASM_OP_I64_TRUNC_S_F32 => Some (DEF_OP_TRUNC W32 W64 f32_below_i64 9223372036854775808 true)
  | WASM_OP_I64_TRUNC_U_F32 => Some (DEF_OP_TRUNC W32 W64 (-1) 18446744073709551616 false)
  | WASM_OP_I64_TRUNC_S_F64 => Some (DEF_OP_TRUNC W64 W64 f64_below_i64 9223372036854775808 true)
  | WASM_OP_I64_TRUNC_U_F64 => Some (DEF_OP_TRUNC W64 W64 (-1) 18446744073709551616 false)
  | WASM_OP_F32_CONVERT_S_I32 => Some (DEF_OP_CONVERT W32 W32 (fun x => float_of_int W32 (signed W32 x)))
  | WASM_OP_F32_CONVERT_U_I32 => Some (DEF_OP_CONVERT W32 W32 (float_of_int W32))
  | WASM_OP_F32_CONVERT_S_I64 => Some (DEF_OP_CONVERT W64 W32 (fun x => float_of_int W32 (signed W64 x)))
  | WASM_OP_F32_CONVERT_U_I64 => Some (DEF_OP_CONVERT W64 W32 (float_of_int W32))
  | WASM_OP_F32_DEMOTE_F64 => Some (DEF_OP_CONVERT W64 W32 (convert_float W64 W32))
  | WASM_OP_F64_CONVERT_S_I32 => Some (DEF_OP_CONVERT W32 W64 (fun x => float_of_int W64 (signed W32 x)))
  | WASM_OP_F64_CONVERT_U_I32 => Some (DEF_OP_CONVERT W32 W64 (float_of_int W64))
  | WASM_OP_F64_CONVERT_S_I64 => Some (DEF_OP_CONVERT W64 W64 (fun x => float_of_int W64 (signed W64 x)))
  | WASM_OP_F64_CONVERT_U_I64 => Some (DEF_OP_CONVERT W64 W64 (float_of_int W64))
  | WASM_OP_F64_PROMOTE_F32 => Some (DEF_OP_CONVERT W32 W64 (convert_float W32 W64))
  | WASM_OP_I32_EXTEND8_S => Some (DEF_OP_CONVERT W32 W32 (fun x => sign_ext 8 W32 (x mod 2 ^ 8)))
  | WASM_OP_I32_EXTEND16_S => Some (DEF_OP_CONVERT W32 W32 (fun x => sign_ext 16 W32 (x mod 2 ^ 16)))
  | WASM_OP_I64_EXTEND8_S => Some (DEF_OP_CONVERT W64 W64 (fun x => sign_ext 8 W64 (x mod 2 ^ 8)))
  | WASM_OP_I64_EXTEND16_S => Some (DEF_OP_CONVERT W64 W64 (fun x => sign_ext 16 W64 (x mod 2 ^ 16)))
  | WASM_OP_I64_EXTEND32_S => Some (DEF_OP_CONVERT W64 W64 (fun x => sign_ext 32 W64 (x mod 2 ^ 32)))
  | _ => None
  end.

Definition trunc_sat (o : WASMMiscEXTOpcode) : option numeric_instr :=
  match o with
  | WASM_OP_I32_TRUNC_SAT_S_F32 => Some (DEF_OP_TRUNC_SAT W32 W32 f32_below_i32 2147483648 true)
  | WASM_OP_I32_TRUNC_SAT_U_F32 => Some (DEF_OP_TRUNC_SAT W32 W32 (-1) 4294967296 false)
  | WASM_OP_I32_TRUNC_SAT_S_F64 => Some (DEF_OP_TRUNC_SAT W64 W32 f64_below_i32 2147483648 true)
  | WASM_OP_I32_TRUNC_SAT_U_F64 => Some (DEF_OP_TRUNC_SAT W64 W32 (-1) 4294967296 false)
  | WASM_OP_I64_TRUNC_SAT_S_F32 => Some (DEF_OP_TRUNC_SAT W32 W64 f32_below_i64 9223372036854775808 true)
  | WASM_OP_I64_TRUNC_SAT_U_F32 => Some (DEF_OP_TRUNC_SAT W32 W64 (-1) 18446744073709551616 false)
  | WASM_OP_I64_TRUNC_SAT_S_F64 => Some (DEF_OP_TRUNC_SAT W64 W64 f64_below_i64 9223372036854775808 true)
  | WASM_OP_I64_TRUNC_SAT_U_F64 => Some (DEF_OP_TRUNC_SAT W64 W64 (-1) 18446744073709551616 false)
  | _ => None
  end.

Fixpoint first_handler (handlers : list (WASMOpcode -> option numeric_instr)) (o : WASMOpcode)
    : option numeric_instr :=
  match handlers with
  | [] => None
  | h :: handlers =>
      match h o with
      | Some i => Some i
      | None => first_handler handlers o
      end
  end.

(** The handlers of the numeric instructions, reinterpretations apart, which
    do nothing. *)
Definition numeric_handler : WASMOpcode -> option numeric_instr :=
  first_handler [i32_compare; i64_compare; float_compare; i32_numeric; i64_numeric; f32_numeric;
                 f64_numeric; conversion].
