(* ===== verification/BlockAddr.v ===== *)
(** * The ends of blocks

    [wasm_loader_find_block_addr] of
    [core/iwasm/interpreter/wasm_loader.c]: the interpreter looks for the
    [else] and the [end] of a block when it needs them, by walking over the
    rewritten code, and keeps what it found in a cache. The walk has no bound:
    a byte outside of the code of the function is undefined behaviour here. *)

From S2P Require Import Prelude Memory Leb Opcode.

(** An entry of the cache. Addresses are those of the code in memory. *)
Record BlockAddr := MkBlockAddr {
  ba_start_addr : Z;
  ba_else_addr : option Z;
  ba_end_addr : option Z
}.

Definition BLOCK_ADDR_CACHE_SIZE : Z := 64.
Definition BLOCK_ADDR_CONFLICT_SIZE : nat := 2.

(** [exec_env->block_addr_cache]: the used entries of each row. *)
Abbreviation addr_cache := (gmap Z (list BlockAddr)).

Definition cache_index (start_addr : Z) : Z := Z.land start_addr (BLOCK_ADDR_CACHE_SIZE - 1).

Definition cache_row (cache : addr_cache) (start_addr : Z) : list BlockAddr :=
  default [] (cache !! cache_index start_addr).

Definition cache_find (cache : addr_cache) (start_addr : Z) : option BlockAddr :=
  snd <$> list_find (fun b => ba_start_addr b = start_addr) (cache_row cache start_addr).

(** A free entry is used, or the first one is moved to the second. *)
Definition cache_add (cache : addr_cache) (b : BlockAddr) : addr_cache :=
  let row := cache_row cache (ba_start_addr b) in
  <[cache_index (ba_start_addr b) :=
     if (length row <? BLOCK_ADDR_CONFLICT_SIZE)%nat then row ++ [b]
     else b :: take (BLOCK_ADDR_CONFLICT_SIZE - 1) row]> cache.

(** An entry of [block_stack], with addresses in the code of the function. *)
Record block_entry := BlockEntry {
  be_start : option nat;
  be_else : option nat;
  be_end : option nat
}.

Definition block_stack_size : nat := 16.

Definition set_be_else (v : option nat) (b : block_entry) := BlockEntry (be_start b) v (be_end b).
Definition set_be_end (v : option nat) (b : block_entry) := BlockEntry (be_start b) (be_else b) v.
(** [start_addr] and [else_addr] of an entry are set when a block begins. *)
Definition begin_entry (start : nat) (b : block_entry) := BlockEntry (Some start) None (be_end b).

(** ** Skipping over an instruction *)

(** [skip_leb]: the bytes behind the first one without the top bit. *)
Fixpoint skip_leb (p : bytes) : outcome bytes :=
  match p with
  | [] => Fault UB
  | b :: p => if Z.land (Z_of_byte b) 128 =? 0 then Ret p else skip_leb p
  end.

Fixpoint skip_lebs (n : nat) (p : bytes) : outcome bytes :=
  match n with
  | O => Ret p
  | S n => match skip_leb p with Ret p => skip_lebs n p | Fault f => Fault f end
  end.

Definition skip_bytes (n : nat) (p : bytes) : outcome bytes :=
  if (n <=? length p)%nat then Ret (drop n p) else Fault UB.

(** The bytes from the first one that is not [WASM_OP_NOP] on. *)
Fixpoint skip_nops (p : bytes) : outcome bytes :=
  match p with
  | [] => Fault UB
  | b :: p' => if decide (b = opcode_byte WASM_OP_NOP) then skip_nops p' else Ret p
  end.

(** A type in one byte, or an index. *)
Definition skip_type (p : bytes) : outcome bytes :=
  match p with
  | [] => Fault UB
  | b :: p' => match is_byte_a_type b with Some _ => Ret p' | None => skip_leb p end
  end.

(** [read_leb_uint32] of the loader with an end that is never reached; an error
    is [goto fail]. *)
Definition read_count (p : bytes) : outcome (option (Z * bytes)) :=
  match read_leb_uint32 p with
  | inr (v, p) => Ret (Some (v, p))
  | inl unexpected_end => Fault UB
  | inl _ => Ret None
  end.

(** The immediates of an instruction that starts or ends no block: the bytes
    behind them, or [None] for [return false]. *)
Definition skip_misc (p : bytes) : outcome (option bytes) :=
  let ret (r : outcome bytes) := match r with Ret p => Ret (Some p) | Fault f => Fault f end in
  match read_count p with
  | Fault f => Fault f
  | Ret None => Ret None
  | Ret (Some (opcode1, p)) =>
      match misc_opcode (opcode1 mod 256) with
      | None => Ret None
      | Some (WASM_OP_I32_TRUNC_SAT_S_F32 | WASM_OP_I32_TRUNC_SAT_U_F32
             | WASM_OP_I32_TRUNC_SAT_S_F64 | WASM_OP_I32_TRUNC_SAT_U_F64
             | WASM_OP_I64_TRUNC_SAT_S_F32 | WASM_OP_I64_TRUNC_SAT_U_F32
             | WASM_OP_I64_TRUNC_SAT_S_F64 | WASM_OP_I64_TRUNC_SAT_U_F64) => Ret (Some p)
      | Some (WASM_OP_MEMORY_INIT | WASM_OP_MEMORY_COPY | WASM_OP_TABLE_INIT
             | WASM_OP_TABLE_COPY) => ret (skip_lebs 2 p)
      | Some (WASM_OP_DATA_DROP | WASM_OP_MEMORY_FILL | WASM_OP_ELEM_DROP | WASM_OP_TABLE_SIZE
             | WASM_OP_TABLE_GROW | WASM_OP_TABLE_FILL) => ret (skip_lebs 1 p)
      end
  end.

Definition skip_br_table (p : bytes) : outcome (option bytes) :=
  match read_count p with
  | Fault f => Fault f
  | Ret None => Ret None
  | Ret (Some (count, p)) =>
      if zlen p <? count + 1 then Fault UB else
      match skip_nops (drop (Z.to_nat (count + 1)) p) with
      | Ret p => Ret (Some p)
      | Fault f => Fault f
      end
  end.

Definition skip_br_table_cache (p : bytes) : outcome (option bytes) :=
  match read_count p with
  | Fault f => Fault f
  | Ret None => Ret None
  | Ret (Some (_, p)) =>
      match skip_nops p with
      | Ret p => Ret (Some p)
      | Fault f => Fault f
      end
  end.

(** The instructions without immediates from [WASM_OP_I32_EQZ] to
    [WASM_OP_I64_EXTEND32_S]. *)
Definition is_numeric_opcode (o : WASMOpcode) : bool :=
  let v := Z_of_byte (opcode_byte o) in
  (Z_of_byte (opcode_byte WASM_OP_I32_EQZ) <=? v)
  && (v <=? Z_of_byte (opcode_byte WASM_OP_I64_EXTEND32_S)).

Definition is_memory_opcode (o : WASMOpcode) : bool :=
  let v := Z_of_byte (opcode_byte o) in
  (Z_of_byte (opcode_byte WASM_OP_I32_LOAD) <=? v)
  && (v <=? Z_of_byte (opcode_byte WASM_OP_I64_STORE32)).

Definition skip_immediates (o : WASMOpcode) (p : bytes) : outcome (option bytes) :=
  let ret (r : outcome bytes) := match r with Ret p => Ret (Some p) | Fault f => Fault f end in
  if is_numeric_opcode o then Ret (Some p) else
  if is_memory_opcode o then ret (skip_lebs 2 p) else
  match o with
  | WASM_OP_UNREACHABLE | WASM_OP_NOP | WASM_OP_RETURN | WASM_OP_DROP | WASM_OP_SELECT
  | WASM_OP_DROP_64 | WASM_OP_SELECT_64 | WASM_OP_REF_IS_NULL => Ret (Some p)
  | WASM_OP_BR | WASM_OP_BR_IF | WASM_OP_CALL | WASM_OP_TABLE_GET | WASM_OP_TABLE_SET
  | WASM_OP_REF_FUNC | WASM_OP_GET_LOCAL | WASM_OP_SET_LOCAL | WASM_OP_TEE_LOCAL
  | WASM_OP_GET_GLOBAL | WASM_OP_SET_GLOBAL | WASM_OP_GET_GLOBAL_64 | WASM_OP_SET_GLOBAL_64
  | WASM_OP_SET_GLOBAL_AUX_STACK | WASM_OP_MEMORY_SIZE | WASM_OP_MEMORY_GROW
  | WASM_OP_I32_CONST | WASM_OP_I64_CONST => ret (skip_leb p)
  | WASM_OP_CALL_INDIRECT => ret (skip_lebs 2 p)
  | WASM_OP_BR_TABLE => skip_br_table p
  | EXT_OP_BR_TABLE_CACHE => skip_br_table_cache p
  | WASM_OP_SELECT_T =>
      ret (match skip_leb p with Ret p => skip_bytes 1 p | Fault f => Fault f end)
  | WASM_OP_REF_NULL => ret (skip_type p)
  | EXT_OP_GET_LOCAL_FAST | EXT_OP_SET_LOCAL_FAST | EXT_OP_TEE_LOCAL_FAST => ret (skip_bytes 1 p)
  | WASM_OP_F32_CONST => ret (skip_bytes 4 p)
  | WASM_OP_F64_CONST => ret (skip_bytes 8 p)
  | WASM_OP_MISC_PREFIX => skip_misc p
  | _ => Ret None
  end.

(** ** The walk *)

Record found := Found {
  fd_else_addr : option nat;
  fd_end_addr : nat;
  fd_block_stack : list block_entry
}.

(** [size] is the number of bytes of the code, and [p] the ones from [p] on:
    the address of [p] is [size - length p]. The result is [None] for
    [return false]. *)
Fixpoint find_loop (fuel : nat) (size : nat) (label : label_type) (block_nested_depth : nat)
    (else_addr : option nat) (block_stack : list block_entry) (p : bytes)
    : outcome (option found) :=
  match fuel with
  | O => Fault OutOfFuel
  | S fuel =>
      match p with
      | [] => Fault UB
      | b :: p =>
          let addr := (size - length p - 1)%nat in
          let enter (r : outcome bytes) :=
            match r with
            | Fault f => Fault f
            | Ret p =>
                find_loop fuel size label (S block_nested_depth) else_addr
                  (alter (begin_entry (size - length p)) block_nested_depth block_stack) p
            end in
          match byte_opcode b with
          | None => Ret None
          | Some (WASM_OP_BLOCK | WASM_OP_LOOP | WASM_OP_IF) => enter (skip_type p)
          | Some (EXT_OP_BLOCK | EXT_OP_LOOP | EXT_OP_IF) => enter (skip_leb p)
          | Some WASM_OP_ELSE =>
              find_loop fuel size label block_nested_depth
                (if bool_decide (label = LABEL_TYPE_IF) && (block_nested_depth =? 1)%nat
                 then Some addr else else_addr)
                (alter (set_be_else (Some addr)) (block_nested_depth - 1)%nat block_stack) p
          | Some WASM_OP_END =>
              if (block_nested_depth =? 1)%nat then
                Ret (Some (Found else_addr addr (alter (set_be_end (Some addr)) 0%nat block_stack)))
              else
                find_loop fuel size label (block_nested_depth - 1) else_addr
                  (alter (set_be_end (Some addr)) (block_nested_depth - 1)%nat block_stack) p
          | Some o =>
              match skip_immediates o p with
              | Fault f => Fault f
              | Ret None => Ret None
              | Ret (Some p) => find_loop fuel size label block_nested_depth else_addr block_stack p
              end
          end
      end
  end.

(** The blocks of the stack are added to the cache, up to the first entry that
    was not used. *)
Fixpoint add_blocks (code_addr : Z) (stack : list block_entry) (cache : addr_cache) : addr_cache :=
  match stack with
  | [] => cache
  | b :: stack =>
      match be_start b with
      | None => cache
      | Some start =>
          let abs (a : nat) := code_addr + Z.of_nat a in
          add_blocks code_addr stack
            (cache_add cache (MkBlockAddr (abs start) (abs <$> be_else b) (abs <$> be_end b)))
      end
  end.

(** [code_addr] is the address of the code in memory, [start_addr] the distance
    of the block from it. The result has the addresses of [else] and [end] in
    memory, and the cache. *)
Definition wasm_loader_find_block_addr (cache : addr_cache) (code_addr : Z) (code : bytes)
    (start_addr : nat) (label : label_type)
    : outcome (option (option Z * option Z * addr_cache)) :=
  let start := code_addr + Z.of_nat start_addr in
  match cache_find cache start with
  | Some b => Ret (Some (ba_else_addr b, ba_end_addr b, cache))
  | None =>
      let p := drop start_addr code in
      let block_stack :=
        BlockEntry (Some start_addr) None None
        :: replicate (block_stack_size - 1) (BlockEntry None None None) in
      match find_loop (S (length p)) (length code) label 1 None block_stack p with
      | Fault f => Fault f
      | Ret None => Ret None
      | Ret (Some r) =>
          let abs (a : nat) := code_addr + Z.of_nat a in
          Ret (Some (abs <$> fd_else_addr r, Some (abs (fd_end_addr r)),
                     add_blocks code_addr (fd_block_stack r) cache))
      end
  end.
