(* ===== verification/Interp.v ===== *)
(** * The interpreter

    [core/iwasm/interpreter/wasm_interp_classic.c]:
    [wasm_interp_call_func_bytecode] executes the code that the loader has
    checked and rewritten. It checks none of its accesses to the code, to the
    operands, to the labels, to the locals and globals: an access outside of
    them is undefined behaviour here, and so is one outside of the linear
    memory. A frame has the operand stack and the label stack of its function as
    lists with the top in front; [sp_boundary] and [csp_boundary] are the sizes
    that the loader computed.

    The linear memory and the native functions are interfaces: the operations on
    a state of the environment. *)

From S2P Require Import Prelude Memory Leb LinearMemory Opcode Numeric BlockAddr.

(** ** The interfaces *)

(** The memory of the module instance: its description, its bytes, a store of
    bytes at an address, and [memory.grow], which answers the old number of
    pages or [2 ^ 32 - 1]. *)
Class AppMemory (S : Type) := {
  am_memory : S -> option WASMMemoryInstance;
  am_bytes : S -> memory;
  am_write : Z -> bytes -> S -> S;
  am_grow : Z -> S -> outcome (Z * S)
}.

(** An imported function, by its index: the two cells of its result, or [None]
    when it has set an exception. *)
Class Natives (S : Type) := {
  invoke_native : nat -> list Z -> S -> outcome (option (Z * Z) * S)
}.

(** ** Functions and frames *)

Record WASMFunction := Function {
  func_type : WASMFuncType;
  local_types : list value_type;
  local_offsets : list Z;
  code : bytes;
  code_addr : Z;
  func_max_stack_cell_num : nat;
  func_max_block_num : nat;
  func_br_table_cache : list (nat * list Z)
}.

Inductive WASMFunctionInstance :=
| import_function (index : nat) (t : WASMFuncType)
| wasm_function (f : WASMFunction).

Definition function_type (f : WASMFunctionInstance) : WASMFuncType :=
  match f with
  | import_function _ t => t
  | wasm_function f => func_type f
  end.

Definition local_cell_num (f : WASMFunction) : nat := wasm_get_cell_num (local_types f).

(** Addresses of the code are distances from its start; [frame_sp] is a height
    of the operand stack. *)
Record WASMBranchBlock := BranchBlock {
  begin_addr : nat;
  target_addr : option nat;
  frame_sp : nat;
  cell_num : nat
}.

Record WASMInterpFrame := Frame {
  function : WASMFunction;
  ip : nat;
  lp : list Z;
  sp : list Z;
  csp : list WASMBranchBlock;
  frame_size : Z
}.

Definition set_ip (v : nat) (f : WASMInterpFrame) :=
  Frame (function f) v (lp f) (sp f) (csp f) (frame_size f).
Definition set_lp (v : list Z) (f : WASMInterpFrame) :=
  Frame (function f) (ip f) v (sp f) (csp f) (frame_size f).
Definition set_sp (v : list Z) (f : WASMInterpFrame) :=
  Frame (function f) (ip f) (lp f) v (csp f) (frame_size f).
Definition set_csp (v : list WASMBranchBlock) (f : WASMInterpFrame) :=
  Frame (function f) (ip f) (lp f) (sp f) v (frame_size f).

(** [elems] has [cur_size] entries. *)
Record WASMTableInstance := TableInstance {
  max_size : Z;
  elems : list Z
}.

Definition cur_size (t : WASMTableInstance) : Z := zlen (elems t).

(** ** The state *)

(** The current frame and those of its callers; [outs] are the cells that were
    returned to the caller of the interpreter. [wasm_stack_free] is the room
    between [wasm_stack.top] and [wasm_stack.top_boundary]. *)
Record istate (S : Type) := State {
  frame : WASMInterpFrame;
  prev_frames : list WASMInterpFrame;
  outs : list Z;
  block_addr_cache : addr_cache;
  wasm_stack_free : Z;
  global_data : bytes;
  table_insts : list WASMTableInstance;
  data_dropped : list bool;
  elem_dropped : list bool;
  linear_mem_size : Z;
  env : S
}.
Arguments State {S}.
Arguments frame {S}.
Arguments prev_frames {S}.
Arguments outs {S}.
Arguments block_addr_cache {S}.
Arguments wasm_stack_free {S}.
Arguments global_data {S}.
Arguments table_insts {S}.
Arguments data_dropped {S}.
Arguments elem_dropped {S}.
Arguments linear_mem_size {S}.
Arguments env {S}.

Section setters.
Context {S : Type}.
Implicit Type st : istate S.
Definition set_frame v st := State v (prev_frames st) (outs st) (block_addr_cache st)
  (wasm_stack_free st) (global_data st) (table_insts st) (data_dropped st) (elem_dropped st)
  (linear_mem_size st) (env st).
Definition set_prev_frames v st := State (frame st) v (outs st) (block_addr_cache st)
  (wasm_stack_free st) (global_data st) (table_insts st) (data_dropped st) (elem_dropped st)
  (linear_mem_size st) (env st).
Definition set_outs v st := State (frame st) (prev_frames st) v (block_addr_cache st)
  (wasm_stack_free st) (global_data st) (table_insts st) (data_dropped st) (elem_dropped st)
  (linear_mem_size st) (env st).
Definition set_cache v st := State (frame st) (prev_frames st) (outs st) v
  (wasm_stack_free st) (global_data st) (table_insts st) (data_dropped st) (elem_dropped st)
  (linear_mem_size st) (env st).
Definition set_wasm_stack_free v st := State (frame st) (prev_frames st) (outs st)
  (block_addr_cache st) v (global_data st) (table_insts st) (data_dropped st) (elem_dropped st)
  (linear_mem_size st) (env st).
Definition set_global_data v st := State (frame st) (prev_frames st) (outs st)
  (block_addr_cache st) (wasm_stack_free st) v (table_insts st) (data_dropped st)
  (elem_dropped st) (linear_mem_size st) (env st).
Definition set_table_insts v st := State (frame st) (prev_frames st) (outs st)
  (block_addr_cache st) (wasm_stack_free st) (global_data st) v (data_dropped st)
  (elem_dropped st) (linear_mem_size st) (env st).
Definition set_data_dropped v st := State (frame st) (prev_frames st) (outs st)
  (block_addr_cache st) (wasm_stack_free st) (global_data st) (table_insts st) v
  (elem_dropped st) (linear_mem_size st) (env st).
Definition set_elem_dropped v st := State (frame st) (prev_frames st) (outs st)
  (block_addr_cache st) (wasm_stack_free st) (global_data st) (table_insts st) (data_dropped st)
  v (linear_mem_size st) (env st).
Definition set_linear_mem_size v st := State (frame st) (prev_frames st) (outs st)
  (block_addr_cache st) (wasm_stack_free st) (global_data st) (table_insts st) (data_dropped st)
  (elem_dropped st) v (env st).
Definition set_env (v : S) st := State (frame st) (prev_frames st) (outs st)
  (block_addr_cache st) (wasm_stack_free st) (global_data st) (table_insts st) (data_dropped st)
  (elem_dropped st) (linear_mem_size st) v.
End setters.

(** ** The monad: [goto got_exception] is an exception. *)

Definition IM (S A : Type) : Type := istate S -> outcome (result A * istate S).

#[export] Instance IM_ret S : MRet (IM S) := fun A a s => Ret (inr a, s).
#[export] Instance IM_bind S : MBind (IM S) := fun A B k m s =>
  match m s with
  | Ret (inr a, s) => k a s
  | Ret (inl e, s) => Ret (inl e, s)
  | Fault f => Fault f
  end.

Section interpreter.
Context {S : Type}.
Abbreviation I := (IM S).

Definition raise {A} (e : wasm_exception) : I A := fun s => Ret (inl e, s).
Definition iundefined {A} : I A := fun _ => Fault UB.
Definition iget {A} (f : istate S -> A) : I A := fun s => Ret (inr (f s), s).
Definition iset (f : istate S -> istate S) : I () := fun s => Ret (inr tt, f s).
Definition irequire (b : bool) : I () := if b then mret tt else iundefined.
Definition isome {A} (o : option A) : I A :=
  match o with
  | Some a => mret a
  | None => iundefined
  end.
Definition iresult {A} (r : result A) : I A :=
  match r with
  | inr a => mret a
  | inl e => raise e
  end.

Definition fget {A} (f : WASMInterpFrame -> A) : I A := iget (fun s => f (frame s)).
Definition fset (f : WASMInterpFrame -> WASMInterpFrame) : I () :=
  iset (fun s => set_frame (f (frame s)) s).

(** ** Operands *)

Definition push_cell (v : Z) : I () :=
  f ← iget frame;
  irequire (length (sp f) <? func_max_stack_cell_num (function f))%nat;;
  fset (set_sp (v :: sp f)).

Definition pop_cell : I Z :=
  s ← fget sp;
  match s with
  | v :: s => fset (set_sp s);; mret v
  | [] => iundefined
  end.

Definition PUSH_I32 (v : Z) : I () := push_cell (wrap W32 v).

(** The low half has the lower address. *)
Definition PUSH_I64 (v : Z) : I () :=
  push_cell (v mod 2 ^ 32);; push_cell (wrap W64 v / 2 ^ 32).

Definition POP_I32 : I Z := pop_cell.
Definition POP_I64 : I Z := hi ← pop_cell; lo ← pop_cell; mret (lo + 2 ^ 32 * hi).

Definition PUSH (w : width) (v : Z) : I () := match w with W32 => PUSH_I32 v | W64 => PUSH_I64 v end.
Definition POP (w : width) : I Z := match w with W32 => POP_I32 | W64 => POP_I64 end.

(** [n] cells at once, from the lowest. *)
Definition pop_cells (n : nat) : I (list Z) :=
  s ← fget sp;
  irequire (n <=? length s)%nat;;
  fset (set_sp (drop n s));;
  mret (rev (take n s)).

Fixpoint push_cells (l : list Z) : I () :=
  match l with
  | [] => mret tt
  | v :: l => push_cell v;; push_cells l
  end.

(** ** The code *)

Definition fetch : I byte :=
  f ← iget frame;
  b ← isome (code (function f) !! ip f);
  fset (set_ip (ip f + 1));;
  mret b.

Definition skip_byte : I () := _ ← fetch; mret tt.

Definition fetch_bytes (n : nat) : I bytes :=
  f ← iget frame;
  irequire (ip f + n <=? length (code (function f)))%nat;;
  fset (set_ip (ip f + n));;
  mret ((code (function f)).[ip f,+n]).

Definition fetch_leb (reader : bytes -> outcome (Z * bytes)) : I Z :=
  f ← iget frame;
  match reader (drop (ip f) (code (function f))) with
  | Ret (v, rest) => fset (set_ip (length (code (function f)) - length rest));; mret v
  | Fault e => fun _ => Fault e
  end.

Definition fetch_uint32 : I Z := fetch_leb interp_read_leb_uint32.

(** ** Labels *)

Definition PUSH_CSP (param_cell_num cell_num : nat) (target : option nat) : I () :=
  f ← iget frame;
  irequire (length (csp f) <? func_max_block_num (function f))%nat;;
  irequire (param_cell_num <=? length (sp f))%nat;;
  fset (set_csp (BranchBlock (ip f) target (length (sp f) - param_cell_num) cell_num :: csp f)).

Definition POP_CSP : I () :=
  c ← fget csp;
  match c with
  | _ :: c => fset (set_csp c)
  | [] => iundefined
  end.

(** The target is left on top of the stack; its values are moved down. *)
Definition POP_CSP_N (n : nat) : I WASMBranchBlock :=
  c ← fget csp;
  b ← isome (c !! n);
  fset (set_csp (drop n c));;
  s ← fget sp;
  irequire (frame_sp b + cell_num b <=? length s)%nat;;
  fset (set_sp (take (cell_num b) s ++ drop (length s - frame_sp b) s));;
  mret b.

Definition find_block_addr (start_addr : nat) (label : label_type)
    : I (option nat * option nat) :=
  f ← fget function;
  cache ← iget block_addr_cache;
  let rel (a : Z) := Z.to_nat (a - code_addr f) in
  match wasm_loader_find_block_addr cache (code_addr f) (code f) start_addr label with
  | Fault e => fun _ => Fault e
  | Ret None => raise EXCE_FIND_BLOCK_ADDR
  | Ret (Some (else_addr, end_addr, cache)) =>
      iset (set_cache cache);; mret (rel <$> else_addr, rel <$> end_addr)
  end.

(** [label_pop_csp_n] *)
Definition branch (depth : Z) : I () :=
  b ← POP_CSP_N (Z.to_nat depth);
  match target_addr b with
  | Some a => fset (set_ip a)
  | None =>
      r ← find_block_addr (begin_addr b) LABEL_TYPE_BLOCK;
      end_addr ← isome (snd r);
      fset (set_ip end_addr)
  end.

(** ** Calls *)

(** The module: its functions with the imported ones first, the places of the
    globals, and the segments. [ptr_size] is the size of a pointer. *)
Context `{AM : !AppMemory S} `{NF : !Natives S}.
Context (ptr_size : Z) (wasm_types : list WASMFuncType) (functions : list WASMFunctionInstance).
Context (global_offsets : list nat) (data_segments : list bytes) (table_segs : list (list Z)).
Context (aux_stack_boundary aux_stack_bottom : Z).

Definition offsetof_lp : Z := 9 * ptr_size.
Definition sizeof_WASMBranchBlock : Z := 4 * ptr_size.

Definition wasm_interp_interp_frame_size (all_cell_num : Z) : Z :=
  align_uint (offsetof_lp + all_cell_num * 4) 4.

Definition ALLOC_FRAME (size : Z) : I () :=
  free ← iget wasm_stack_free;
  if wrap32 free <? wrap32 (size * 2) then raise EXCE_OPERAND_STACK_OVERFLOW
  else iset (set_wasm_stack_free (free - size)).

Definition FREE_FRAME (size : Z) : I () :=
  iset (fun s => set_wasm_stack_free (wasm_stack_free s + size) s).

Definition NULL_REF : Z := 0xFFFFFFFF.

(** The cells of a local that is no parameter: zero, or [NULL_REF]. *)
Definition init_local (t : value_type) : list Z :=
  match t with
  | VALUE_TYPE_EXTERNREF | VALUE_TYPE_FUNCREF => [NULL_REF]
  | _ => replicate (wasm_value_type_cell_num t) 0
  end.

(** The frame of a function with its arguments; the function is the first
    block. *)
Definition new_frame (f : WASMFunction) (args : list Z) (size : Z) : WASMInterpFrame :=
  Frame f 0 (args ++ concat (init_local <$> local_types f)) []
    [BranchBlock 0 (Some (length (code f) - 1)%nat) 0 (ret_cell_num (func_type f))] size.

Definition func_frame_size (f : WASMFunction) : Z :=
  wasm_interp_interp_frame_size
    (Z.of_nat (param_cell_num (func_type f) + local_cell_num f + func_max_stack_cell_num f)
     + Z.of_nat (func_max_block_num f) * sizeof_WASMBranchBlock / 4).

(** Results of one or two cells are pushed; other results are dropped. *)
Definition wasm_interp_call_func_native (index : nat) (t : WASMFuncType) (args : list Z) : I () :=
  let local_cell_num := Z.max (Z.of_nat (param_cell_num t)) 2 in
  let size := wasm_interp_interp_frame_size local_cell_num in
  ALLOC_FRAME size;;
  e ← iget env;
  match invoke_native index args e with
  | Fault f => fun _ => Fault f
  | Ret (ret, e) =>
      iset (set_env e);;
      match ret with
      | None => raise EXCE_NATIVE
      | Some (argv_ret0, argv_ret1) =>
          (if (ret_cell_num t =? 1)%nat then push_cell argv_ret0
           else if (ret_cell_num t =? 2)%nat then push_cell argv_ret0;; push_cell argv_ret1
           else mret tt);;
          FREE_FRAME size;;
          iset (fun s => match am_memory (env s) with
                         | Some m => set_linear_mem_size (memory_data_size m) s
                         | None => s
                         end)
      end
  end.

(** The arguments are copied behind the frame before the room for the frame of
    the callee is checked. *)
Definition copy_to_outs_area (args : list Z) : I () :=
  match args with
  | [] => mret tt
  | _ => free ← iget wasm_stack_free; irequire (offsetof_lp + 4 * zlen args <=? free)
  end.

Definition call_func_from_interp (f : WASMFunctionInstance) : I () :=
  args ← pop_cells (param_cell_num (function_type f));
  copy_to_outs_area args;;
  match f with
  | import_function index t => wasm_interp_call_func_native index t args
  | wasm_function f =>
      let size := func_frame_size f in
      ALLOC_FRAME size;;
      irequire (0 <? func_max_block_num f)%nat;;
      iset (fun s => set_frame (new_frame f args size) (set_prev_frames (frame s :: prev_frames s) s))
  end.

(** Whether the interpreter goes on, or has returned to its caller. *)
Inductive next := running | returned.

Definition return_func : I next :=
  f ← iget frame;
  values ← pop_cells (ret_cell_num (func_type (function f)));
  FREE_FRAME (frame_size f);;
  prev ← iget prev_frames;
  match prev with
  | [] => iset (set_outs values);; mret returned
  | g :: prev =>
      iset (fun s => set_frame g (set_prev_frames prev s));;
      push_cells values;;
      mret running
  end.

(** ** Control instructions *)

Definition block_types (type_index : Z) : I WASMFuncType := isome (wasm_types !! Z.to_nat type_index).

(** The cells of a type in one byte. *)
Definition byte_type_cell_num (b : byte) : nat :=
  match is_byte_a_type b with
  | Some t => wasm_value_type_cell_num t
  | None => 0
  end.

(** The end of a block is only looked up in the cache. *)
Definition handle_op_block (param_cell_num cell_num : nat) : I () :=
  f ← iget frame;
  cache ← iget block_addr_cache;
  let hit := cache_find cache (code_addr (function f) + Z.of_nat (ip f)) in
  PUSH_CSP param_cell_num cell_num
    (b ← hit; (fun a => Z.to_nat (a - code_addr (function f))) <$> ba_end_addr b).

Definition handle_op_loop (param_cell_num cell_num : nat) : I () :=
  p ← fget ip; PUSH_CSP param_cell_num cell_num (Some p).

Definition handle_op_if (param_cell_num cell_num : nat) : I () :=
  p ← fget ip;
  r ← find_block_addr p LABEL_TYPE_IF;
  end_addr ← isome (snd r);
  cond ← POP_I32;
  if negb (cond =? 0) then PUSH_CSP param_cell_num cell_num (Some end_addr)
  else match fst r with
       | None => fset (set_ip (end_addr + 1))
       | Some else_addr =>
           PUSH_CSP param_cell_num cell_num (Some end_addr);;
           fset (set_ip (else_addr + 1))
       end.

Definition handle_op_else : I () :=
  c ← fget csp;
  b ← isome (head c);
  a ← isome (target_addr b);
  fset (set_ip a).

Definition handle_op_end : I next :=
  c ← fget csp;
  if (1 <? length c)%nat then POP_CSP;; mret running else return_func.

Definition handle_op_br_table : I () :=
  count ← fetch_uint32;
  lidx ← POP_I32;
  let lidx := if count <? lidx then count else lidx in
  f ← iget frame;
  depth ← isome (code (function f) !! (ip f + Z.to_nat lidx)%nat);
  branch (Z_of_byte depth).

(** The search in [br_table_cache_list] for the address of the instruction. *)
Definition handle_op_br_table_cache : I () :=
  lidx ← POP_I32;
  f ← iget frame;
  node ← isome (list_find (fun n => fst n = (ip f - 1)%nat) (func_br_table_cache (function f)));
  let br_depths := snd (snd node) in
  let br_count := zlen br_depths - 1 in
  let lidx := if br_count <? lidx then br_count else lidx in
  depth ← isome (br_depths !! Z.to_nat lidx);
  branch depth.

Definition handle_op_call : I () :=
  fidx ← fetch_uint32;
  f ← isome (functions !! Z.to_nat fidx);
  call_func_from_interp f.

Definition handle_op_call_indirect : I () :=
  tidx ← fetch_uint32;
  cur_type ← isome (wasm_types !! Z.to_nat tidx);
  tbl_idx ← fetch_uint32;
  tables ← iget table_insts;
  tbl_inst ← isome (tables !! Z.to_nat tbl_idx);
  val ← POP_I32;
  if cur_size tbl_inst <=? val then raise EXCE_UNDEFINED_ELEMENT else
  fidx ← isome (elems tbl_inst !! Z.to_nat val);
  if fidx =? NULL_REF then raise EXCE_UNINITIALIZED_ELEMENT else
  if zlen functions <=? fidx then raise EXCE_UNKNOWN_FUNCTION else
  f ← isome (functions !! Z.to_nat fidx);
  if bool_decide (cur_type = function_type f) then call_func_from_interp f
  else raise EXCE_INVALID_FUNCTION_TYPE_INDEX.

(** ** Parametric instructions *)

Definition handle_op_drop (w : width) : I () := _ ← pop_cells (cells w); mret tt.

(** The second operand is on top. *)
Definition handle_op_select (w : width) : I () :=
  cond ← POP_I32;
  val2 ← pop_cells (cells w);
  val1 ← pop_cells (cells w);
  push_cells (if cond =? 0 then val2 else val1).

Definition handle_op_select_t : I () :=
  _ ← fetch_uint32;
  type ← fetch;
  handle_op_select (match valid_value_type type with
                    | Some (VALUE_TYPE_I64 | VALUE_TYPE_F64) => W64
                    | _ => W32
                    end).

(** ** Tables and references *)

Definition get_table (tbl_idx : Z) : I WASMTableInstance :=
  t ← iget table_insts; isome (t !! Z.to_nat tbl_idx).

Definition put_table (tbl_idx : Z) (t : WASMTableInstance) : I () :=
  iset (fun s => set_table_insts (<[Z.to_nat tbl_idx := t]> (table_insts s)) s).

Definition handle_op_table_get : I () :=
  tbl_idx ← fetch_uint32;
  tbl_inst ← get_table tbl_idx;
  elem_idx ← POP_I32;
  if cur_size tbl_inst <=? elem_idx then raise EXCE_OUT_OF_BOUNDS_TABLE_ACCESS else
  v ← isome (elems tbl_inst !! Z.to_nat elem_idx);
  PUSH_I32 v.

Definition handle_op_table_set : I () :=
  tbl_idx ← fetch_uint32;
  tbl_inst ← get_table tbl_idx;
  elem_val ← POP_I32;
  elem_idx ← POP_I32;
  if cur_size tbl_inst <=? elem_idx then raise EXCE_OUT_OF_BOUNDS_TABLE_ACCESS else
  put_table tbl_idx (TableInstance (max_size tbl_inst)
                       (<[Z.to_nat elem_idx := elem_val]> (elems tbl_inst))).

Definition handle_op_ref_null : I () := _ ← fetch_uint32; PUSH_I32 NULL_REF.

Definition handle_op_ref_is_null : I () :=
  ref_val ← POP_I32; PUSH_I32 (if ref_val =? NULL_REF then 1 else 0).

Definition handle_op_ref_func : I () := func_idx ← fetch_uint32; PUSH_I32 func_idx.

(** ** Locals *)

Definition local_width (t : value_type) : width := if is_64bit_type t then W64 else W32.

(** Cells of the frame, from the lowest. *)
Definition read_local (w : width) (local_offset : Z) : I (list Z) :=
  l ← fget lp;
  irequire (Z.to_nat local_offset + cells w <=? length l)%nat;;
  mret (l.[Z.to_nat local_offset,+cells w]).

Definition write_local (local_offset : Z) (v : list Z) : I () :=
  l ← fget lp;
  irequire (Z.to_nat local_offset + length v <=? length l)%nat;;
  fset (set_lp (take (Z.to_nat local_offset) l ++ v ++ drop (Z.to_nat local_offset + length v) l)).

(** The type decides on the number of cells. *)
Definition GET_LOCAL_INDEX_TYPE_AND_OFFSET : I (width * Z) :=
  local_idx ← fetch_uint32;
  f ← fget function;
  local_offset ← isome (local_offsets f !! Z.to_nat local_idx);
  local_type ← isome ((param_types (func_type f) ++ local_types f) !! Z.to_nat local_idx);
  match local_type with
  | VALUE_TYPE_VOID | VALUE_TYPE_ANY => raise EXCE_INVALID_LOCAL_TYPE
  | t => mret (local_width t, local_offset)
  end.

(** The offset and the width of the short forms in one byte. *)
Definition fetch_local_fast : I (width * Z) :=
  b ← fetch;
  let local_offset := Z_of_byte b in
  mret (if negb (Z.land local_offset 128 =? 0) then (W64, Z.land local_offset 127)
        else (W32, local_offset)).

Definition get_local (l : width * Z) : I () := v ← read_local (fst l) (snd l); push_cells v.

Definition set_local (l : width * Z) : I () := v ← pop_cells (cells (fst l)); write_local (snd l) v.

Definition tee_local (l : width * Z) : I () :=
  v ← pop_cells (cells (fst l)); push_cells v;; write_local (snd l) v.

(** ** Globals *)

Definition get_global_addr : I nat :=
  global_idx ← fetch_uint32; isome (global_offsets !! Z.to_nat global_idx).

Definition read_global (addr n : nat) : I Z :=
  d ← iget global_data;
  irequire (addr + n <=? length d)%nat;;
  mret (le_decode (d.[addr,+n])).

Definition write_global (addr n : nat) (v : Z) : I () :=
  d ← iget global_data;
  irequire (addr + n <=? length d)%nat;;
  iset (set_global_data (splice addr (le_encode n v) d)).

Definition handle_op_get_global (w : width) : I () :=
  addr ← get_global_addr; v ← read_global addr (4 * cells w); PUSH w v.

Definition handle_op_set_global (w : width) : I () :=
  addr ← get_global_addr; v ← POP w; write_global addr (4 * cells w) v.

Definition handle_op_set_global_aux_stack : I () :=
  addr ← get_global_addr;
  aux_stack_top ← POP_I32;
  if aux_stack_top <=? aux_stack_boundary then raise EXCE_AUX_STACK_OVERFLOW else
  if aux_stack_bottom <? aux_stack_top then raise EXCE_AUX_STACK_UNDERFLOW else
  write_global addr 4 aux_stack_top.

(** ** Linear memory *)

Definition get_memory : I WASMMemoryInstance := e ← iget env; isome (am_memory e).

(** The address of an access of [n] bytes, or the jump to [out_of_bounds]. *)
Definition check_memory_overflow (offset addr n : Z) : I Z :=
  m ← get_memory;
  linear_mem_size ← iget linear_mem_size;
  match CHECK_MEMORY_OVERFLOW m linear_mem_size offset addr n with
  | Some maddr => mret maddr
  | None => raise EXCE_OUT_OF_BOUNDS_MEMORY_ACCESS
  end.

Definition check_bulk_memory_overflow (start n : Z) : I Z :=
  m ← get_memory;
  linear_mem_size ← iget linear_mem_size;
  match CHECK_BULK_MEMORY_OVERFLOW m linear_mem_size start n with
  | Some maddr => mret maddr
  | None => raise EXCE_OUT_OF_BOUNDS_MEMORY_ACCESS
  end.

(** The addresses of the memory. *)
Definition in_memory (maddr n : Z) : I () :=
  m ← get_memory;
  irequire ((memory_data m <=? maddr) && (maddr + n <=? memory_data m + memory_data_size m)).

Definition load_bytes (maddr : Z) (n : nat) : I bytes :=
  in_memory maddr (Z.of_nat n);;
  e ← iget env;
  mret ((fun i => am_bytes e (maddr + Z.of_nat i)) <$> seq 0 n).

Definition store_bytes (maddr : Z) (b : bytes) : I () :=
  in_memory maddr (zlen b);;
  iset (fun s => set_env (am_write maddr b (env s)) s).

(** The number of bytes of a load, the width of the result, and its extension. *)
Definition load_handler (o : WASMOpcode) : option (nat * width * (Z -> Z)) :=
  match o with
  | WASM_OP_I32_LOAD | WASM_OP_F32_LOAD => Some (4%nat, W32, id)
  | WASM_OP_I64_LOAD | WASM_OP_F64_LOAD => Some (8%nat, W64, id)
  | WASM_OP_I32_LOAD8_S => Some (1%nat, W32, sign_ext 8 W32)
  | WASM_OP_I32_LOAD8_U => Some (1%nat, W32, id)
  | WASM_OP_I32_LOAD16_S => Some (2%nat, W32, sign_ext 16 W32)
  | WASM_OP_I32_LOAD16_U => Some (2%nat, W32, id)
  | WASM_OP_I64_LOAD8_S => Some (1%nat, W64, sign_ext 8 W64)
  | WASM_OP_I64_LOAD8_U => Some (1%nat, W64, id)
  | WASM_OP_I64_LOAD16_S => Some (2%nat, W64, sign_ext 16 W64)
  | WASM_OP_I64_LOAD16_U => Some (2%nat, W64, id)
  | WASM_OP_I64_LOAD32_S => Some (4%nat, W64, sign_ext 32 W64)
  | WASM_OP_I64_LOAD32_U => Some (4%nat, W64, id)
  | _ => None
  end.

Definition handle_load (n : nat) (w : width) (extend : Z -> Z) : I () :=
  _ ← fetch_uint32;
  offset ← fetch_uint32;
  addr ← POP_I32;
  maddr ← check_memory_overflow offset addr (Z.of_nat n);
  b ← load_bytes maddr n;
  PUSH w (extend (le_decode b)).

(** The width of the operand of a store, and the number of bytes. *)
Definition store_handler (o : WASMOpcode) : option (width * nat) :=
  match o with
  | WASM_OP_I32_STORE | WASM_OP_F32_STORE => Some (W32, 4%nat)
  | WASM_OP_I64_STORE | WASM_OP_F64_STORE => Some (W64, 8%nat)
  | WASM_OP_I32_STORE8 => Some (W32, 1%nat)
  | WASM_OP_I32_STORE16 => Some (W32, 2%nat)
  | WASM_OP_I64_STORE8 => Some (W64, 1%nat)
  | WASM_OP_I64_STORE16 => Some (W64, 2%nat)
  | WASM_OP_I64_STORE32 => Some (W64, 4%nat)
  | _ => None
  end.

Definition handle_store (w : width) (n : nat) : I () :=
  _ ← fetch_uint32;
  offset ← fetch_uint32;
  sval ← POP w;
  addr ← POP_I32;
  maddr ← check_memory_overflow offset addr (Z.of_nat n);
  store_bytes maddr (le_encode n sval).

Definition handle_op_memory_size : I () :=
  _ ← fetch_uint32;
  m ← get_memory;
  PUSH_I32 (cur_page_count m).

(** [linear_mem_size] is only refreshed after a success; a failed call leaves
    the size as it is. *)
Definition handle_op_memory_grow : I () :=
  _ ← fetch_uint32;
  delta ← POP_I32;
  e ← iget env;
  match am_grow delta e with
  | Fault f => fun _ => Fault f
  | Ret (r, e) =>
      iset (set_env e);;
      PUSH_I32 r;;
      m ← get_memory;
      if r =? wrap W32 (-1) then mret tt
      else iset (set_linear_mem_size (memory_data_size m))
  end.

(** ** Constants *)

Definition handle_op_float_const (w : width) : I () :=
  b ← fetch_bytes (4 * cells w); PUSH w (le_decode b).

(** ** Instructions with a prefix *)

Definition handle_numeric (i : numeric_instr) : I () :=
  match i with
  | unary src dst f => x ← POP src; r ← iresult (f x); PUSH dst r
  | binary src dst f => val2 ← POP src; val1 ← POP src; r ← iresult (f val1 val2); PUSH dst r
  end.

(** The memory index is skipped as one byte. *)
Definition handle_op_memory_init : I () :=
  segment ← fetch_uint32;
  skip_byte;;
  n ← POP_I32;
  offset ← POP_I32;
  addr ← POP_I32;
  maddr ← check_bulk_memory_overflow addr n;
  dropped ← iget data_dropped;
  is_dropped ← isome (dropped !! Z.to_nat segment);
  data ← (if is_dropped : bool then mret [] else isome (data_segments !! Z.to_nat segment));
  if zlen data <? wrap_u64 (offset + n) then raise EXCE_OUT_OF_BOUNDS_MEMORY_ACCESS else
  store_bytes maddr (data.[Z.to_nat offset,+ Z.to_nat n]).

Definition handle_op_data_drop : I () :=
  segment ← fetch_uint32;
  d ← iget data_dropped;
  irequire (Z.to_nat segment <? length d)%nat;;
  iset (set_data_dropped (<[Z.to_nat segment := true]> d)).

Definition handle_op_memory_copy : I () :=
  len ← POP_I32;
  src ← POP_I32;
  dst ← POP_I32;
  skip_byte;;
  mdst ← check_bulk_memory_overflow dst len;
  skip_byte;;
  msrc ← check_bulk_memory_overflow src len;
  if negb (len =? 0) && negb (mdst =? msrc) then
    b ← load_bytes msrc (Z.to_nat len);
    store_bytes mdst b
  else mret tt.

Definition handle_op_memory_fill : I () :=
  skip_byte;;
  len ← POP_I32;
  fill_val ← POP_I32;
  dst ← POP_I32;
  mdst ← check_bulk_memory_overflow dst len;
  store_bytes mdst (replicate (Z.to_nat len) (byte_of_Z fill_val)).

Definition offset_len_out_of_bounds (offset len max_size : Z) : bool :=
  (wrap32 (offset + len) <? offset) || (max_size <? wrap32 (offset + len)).

Definition handle_op_table_init : I () :=
  elem_idx ← fetch_uint32;
  tbl_idx ← fetch_uint32;
  tbl_inst ← get_table tbl_idx;
  n ← POP_I32;
  s ← POP_I32;
  d ← POP_I32;
  dropped ← iget elem_dropped;
  is_dropped ← isome (dropped !! Z.to_nat elem_idx);
  seg ← (if is_dropped : bool then mret [] else isome (table_segs !! Z.to_nat elem_idx));
  if offset_len_out_of_bounds s n (zlen seg) || offset_len_out_of_bounds d n (cur_size tbl_inst)
  then raise EXCE_OUT_OF_BOUNDS_TABLE_ACCESS else
  put_table tbl_idx (TableInstance (max_size tbl_inst)
    (take (Z.to_nat d) (elems tbl_inst) ++ seg.[Z.to_nat s,+ Z.to_nat n]
     ++ drop (Z.to_nat d + Z.to_nat n) (elems tbl_inst))).

Definition handle_op_elem_drop : I () :=
  elem_idx ← fetch_uint32;
  d ← iget elem_dropped;
  irequire (Z.to_nat elem_idx <? length d)%nat;;
  iset (set_elem_dropped (<[Z.to_nat elem_idx := true]> d)).

Definition handle_op_table_copy : I () :=
  dst_tbl_idx ← fetch_uint32;
  dst_tbl_inst ← get_table dst_tbl_idx;
  src_tbl_idx ← fetch_uint32;
  src_tbl_inst ← get_table src_tbl_idx;
  n ← POP_I32;
  s ← POP_I32;
  d ← POP_I32;
  if offset_len_out_of_bounds d n (cur_size dst_tbl_inst)
     || offset_len_out_of_bounds s n (cur_size src_tbl_inst)
  then raise EXCE_OUT_OF_BOUNDS_TABLE_ACCESS else
  put_table dst_tbl_idx (TableInstance (max_size dst_tbl_inst)
    (take (Z.to_nat d) (elems dst_tbl_inst) ++ (elems src_tbl_inst).[Z.to_nat s,+ Z.to_nat n]
     ++ drop (Z.to_nat d + Z.to_nat n) (elems dst_tbl_inst))).

Definition wasm_enlarge_table (tbl_idx inc_size init_val : Z) : I bool :=
  if inc_size =? 0 then mret true else
  t ← get_table tbl_idx;
  if 2 ^ 32 - 1 - cur_size t <? inc_size then mret false else
  let total_size := cur_size t + inc_size in
  if max_size t <? total_size then mret false else
  put_table tbl_idx (TableInstance (max_size t)
    (elems t ++ replicate (Z.to_nat inc_size) init_val));;
  mret true.

Definition handle_op_table_grow : I () :=
  tbl_idx ← fetch_uint32;
  tbl_inst ← get_table tbl_idx;
  n ← POP_I32;
  init_val ← POP_I32;
  r ← wasm_enlarge_table tbl_idx n init_val;
  PUSH_I32 (if r : bool then cur_size tbl_inst else -1).

Definition handle_op_table_size : I () :=
  tbl_idx ← fetch_uint32;
  tbl_inst ← get_table tbl_idx;
  PUSH_I32 (cur_size tbl_inst).

Definition handle_op_table_fill : I () :=
  tbl_idx ← fetch_uint32;
  tbl_inst ← get_table tbl_idx;
  n ← POP_I32;
  fill_val ← POP_I32;
  elem_idx ← POP_I32;
  if offset_len_out_of_bounds elem_idx n (cur_size tbl_inst)
  then raise EXCE_OUT_OF_BOUNDS_TABLE_ACCESS else
  put_table tbl_idx (TableInstance (max_size tbl_inst)
    (take (Z.to_nat elem_idx) (elems tbl_inst) ++ replicate (Z.to_nat n) fill_val
     ++ drop (Z.to_nat elem_idx + Z.to_nat n) (elems tbl_inst))).

Definition handle_op_misc : I () :=
  opcode1 ← fetch_uint32;
  match misc_opcode (opcode1 mod 256) with
  | None => raise EXCE_UNSUPPORTED_OPCODE
  | Some o =>
  match trunc_sat o with
  | Some i => handle_numeric i
  | None =>
  match o with
  | WASM_OP_MEMORY_INIT => handle_op_memory_init
  | WASM_OP_DATA_DROP => handle_op_data_drop
  | WASM_OP_MEMORY_COPY => handle_op_memory_copy
  | WASM_OP_MEMORY_FILL => handle_op_memory_fill
  | WASM_OP_TABLE_INIT => handle_op_table_init
  | WASM_OP_ELEM_DROP => handle_op_elem_drop
  | WASM_OP_TABLE_COPY => handle_op_table_copy
  | WASM_OP_TABLE_GROW => handle_op_table_grow
  | WASM_OP_TABLE_SIZE => handle_op_table_size
  | WASM_OP_TABLE_FILL => handle_op_table_fill
  | _ => raise EXCE_UNSUPPORTED_OPCODE
  end
  end
  end.

(** ** The loop *)

Definition go_on (m : I ()) : I next := m;; mret running.

Definition ext_block (params results : WASMFuncType -> nat) (k : nat -> nat -> I ()) : I next :=
  type_index ← fetch_uint32;
  t ← block_types type_index;
  go_on (k (params t) (results t)).

Definition handle_op (o : WASMOpcode) : I next :=
  match numeric_handler o with
  | Some i => go_on (handle_numeric i)
  | None =>
  match load_handler o with
  | Some (n, w, extend) => go_on (handle_load n w extend)
  | None =>
  match store_handler o with
  | Some (w, n) => go_on (handle_store w n)
  | None =>
  match o with
  | WASM_OP_UNREACHABLE => raise EXCE_UNREACHABLE
  | WASM_OP_NOP => mret running
  | EXT_OP_BLOCK => ext_block param_cell_num ret_cell_num handle_op_block
  | WASM_OP_BLOCK => b ← fetch; go_on (handle_op_block 0 (byte_type_cell_num b))
  | EXT_OP_LOOP => ext_block param_cell_num param_cell_num handle_op_loop
  | WASM_OP_LOOP => _ ← fetch; go_on (handle_op_loop 0 0)
  | EXT_OP_IF => ext_block param_cell_num ret_cell_num handle_op_if
  | WASM_OP_IF => b ← fetch; go_on (handle_op_if 0 (byte_type_cell_num b))
  | WASM_OP_ELSE => go_on handle_op_else
  | WASM_OP_END => handle_op_end
  | WASM_OP_BR => depth ← fetch_uint32; go_on (branch depth)
  | WASM_OP_BR_IF =>
      depth ← fetch_uint32;
      cond ← POP_I32;
      if negb (cond =? 0) then go_on (branch depth) else mret running
  | WASM_OP_BR_TABLE => go_on handle_op_br_table
  | EXT_OP_BR_TABLE_CACHE => go_on handle_op_br_table_cache
  | WASM_OP_RETURN => return_func
  | WASM_OP_CALL => go_on handle_op_call
  | WASM_OP_CALL_INDIRECT => go_on handle_op_call_indirect
  | WASM_OP_DROP => go_on (handle_op_drop W32)
  | WASM_OP_DROP_64 => go_on (handle_op_drop W64)
  | WASM_OP_SELECT => go_on (handle_op_select W32)
  | WASM_OP_SELECT_64 => go_on (handle_op_select W64)
  | WASM_OP_SELECT_T => go_on handle_op_select_t
  | WASM_OP_TABLE_GET => go_on handle_op_table_get
  | WASM_OP_TABLE_SET => go_on handle_op_table_set
  | WASM_OP_REF_NULL => go_on handle_op_ref_null
  | WASM_OP_REF_IS_NULL => go_on handle_op_ref_is_null
  | WASM_OP_REF_FUNC => go_on handle_op_ref_func
  | WASM_OP_GET_LOCAL => l ← GET_LOCAL_INDEX_TYPE_AND_OFFSET; go_on (get_local l)
  | EXT_OP_GET_LOCAL_FAST => l ← fetch_local_fast; go_on (get_local l)
  | WASM_OP_SET_LOCAL => l ← GET_LOCAL_INDEX_TYPE_AND_OFFSET; go_on (set_local l)
  | EXT_OP_SET_LOCAL_FAST => l ← fetch_local_fast; go_on (set_local l)
  | WASM_OP_TEE_LOCAL => l ← GET_LOCAL_INDEX_TYPE_AND_OFFSET; go_on (tee_local l)
  | EXT_OP_TEE_LOCAL_FAST => l ← fetch_local_fast; go_on (tee_local l)
  | WASM_OP_GET_GLOBAL => go_on (handle_op_get_global W32)
  | WASM_OP_GET_GLOBAL_64 => go_on (handle_op_get_global W64)
  | WASM_OP_SET_GLOBAL => go_on (handle_op_set_global W32)
  | WASM_OP_SET_GLOBAL_64 => go_on (handle_op_set_global W64)
  | WASM_OP_SET_GLOBAL_AUX_STACK => go_on handle_op_set_global_aux_stack
  | WASM_OP_MEMORY_SIZE => go_on handle_op_memory_size
  | WASM_OP_MEMORY_GROW => go_on handle_op_memory_grow
  | WASM_OP_I32_CONST => v ← fetch_leb interp_read_leb_int32; go_on (PUSH_I32 v)
  | WASM_OP_I64_CONST => v ← fetch_leb interp_read_leb_int64; go_on (PUSH_I64 v)
  | WASM_OP_F32_CONST => go_on (handle_op_float_const W32)
  | WASM_OP_F64_CONST => go_on (handle_op_float_const W64)
  | WASM_OP_I32_REINTERPRET_F32 | WASM_OP_I64_REINTERPRET_F64 | WASM_OP_F32_REINTERPRET_I32
  | WASM_OP_F64_REINTERPRET_I64 => mret running
  | WASM_OP_MISC_PREFIX => go_on handle_op_misc
  | WASM_OP_IMPDEP => iundefined
  | _ => raise EXCE_UNSUPPORTED_OPCODE
  end
  end
  end
  end.

(** One instruction; the table of handlers has no entry for other bytes. *)
Definition step : I next :=
  b ← fetch;
  o ← isome (byte_opcode b);
  handle_op o.

(** [fuel] instructions. *)
Fixpoint run (fuel : nat) : I next :=
  match fuel with
  | O => mret running
  | Datatypes.S fuel =>
      r ← step;
      match r with
      | running => run fuel
      | returned => mret returned
      end
  end.

(** ** The entry *)

(** [wasm_interp_call_func_bytecode], called from outside of the interpreter:
    the size of the memory, the first frame, and [fuel] instructions. *)
Definition init_linear_mem_size (s : istate S) : istate S :=
  set_linear_mem_size (match am_memory (env s) with Some m => memory_data_size m | None => 0 end) s.

Definition wasm_interp_call_func_bytecode (fuel : nat) (f : WASMFunction) (args : list Z) : I next :=
  iset init_linear_mem_size;;
  let size := func_frame_size f in
  ALLOC_FRAME size;;
  irequire (0 <? func_max_block_num f)%nat;;
  iset (fun s => set_frame (new_frame f args size) (set_prev_frames [] s));;
  run fuel.

(** [FREE_FRAME] of the outermost frame, which frees all that is above it, after
    an exception as well. *)
Definition free_frames {A} (top : Z) (m : I A) : I A := fun s =>
  match m s with
  | Ret (r, s) => Ret (r, set_wasm_stack_free top s)
  | Fault e => Fault e
  end.

(** What [wasm_interp_call_wasm] does with a function that is not imported: a
    frame for the results of the callee, the arguments behind it, the call, and
    the results at the start of [argv]. A failed check of the room for the
    arguments leaves the frame allocated. The result is the array [argv], or
    [None] while the function is still running. *)
Definition wasm_interp_call_wasm (fuel : nat) (f : WASMFunction) (argv : list Z)
    : I (option (list Z)) :=
  if (length argv <? param_cell_num (func_type f))%nat then raise EXCE_INVALID_ARGUMENT_COUNT else
  let args := take (param_cell_num (func_type f)) argv in
  top ← iget wasm_stack_free;
  ALLOC_FRAME (wasm_interp_interp_frame_size (Z.max (Z.of_nat (ret_cell_num (func_type f))) 2));;
  free ← iget wasm_stack_free;
  if free <? offsetof_lp + 4 * zlen args then raise EXCE_OPERAND_STACK_OVERFLOW else
  r ← free_frames top (wasm_interp_call_func_bytecode fuel f args);
  match r with
  | running => mret None
  | returned =>
      values ← iget outs;
      irequire (ret_cell_num (func_type f) <=? length argv)%nat;;
      mret (Some (values ++ drop (ret_cell_num (func_type f)) argv))
  end.

End interpreter.
