(* ===== verification/LoaderSpec.v ===== *)
(** * What the checker of function bodies does

    Rules for the operations of [Loader.v]: what they read and write of the
    code, what they leave alone, and their effect on the abstract stack. *)

From S2P Require Import Prelude Memory Leb LebSpec Opcode Loader.

#[global] Arguments wasm_value_type_cell_num : simpl never.

(** ** Integers in the code *)

(** The bytes [bs] are an integer [v], whatever follows: for the loader, for the
    interpreter, and for a walk that skips it. *)
Record leb_is (reader : bytes -> leb_error + Z * bytes) (ireader : bytes -> outcome (Z * bytes))
    (bs : bytes) (v : Z) : Prop := {
  li_read : forall x, reader (bs ++ x) = inr (v, x);
  li_interp : forall x, ireader (bs ++ x) = Ret (v, x);
  li_bytes : leb_prefix bs = Some bs
}.

Lemma leb_prefix_app buf bs x :
  leb_prefix buf = Some bs -> leb_prefix bs = Some bs /\ leb_prefix (bs ++ x) = Some bs.
Proof.
  revert bs. induction buf as [|b buf IH]; intros bs; [done|]. cbn [leb_prefix].
  destruct (Z.ltb_spec (Z_of_byte b) 128) as [Hb|Hb].
  - intros [= <-]. cbn [leb_prefix app]. destruct (Z.ltb_spec (Z_of_byte b) 128); [done|lia].
  - destruct (leb_prefix buf) as [bs0|] eqn:E; [|done]. intros [= <-].
    destruct (IH bs0 eq_refl) as [H1 H2]. cbn [leb_prefix app].
    destruct (Z.ltb_spec (Z_of_byte b) 128); [lia|]. by rewrite H1, H2.
Qed.

Lemma leb_spec_local n value low high buf v rest :
  leb_spec n value low high buf = inr (v, rest) ->
  exists bs, buf = bs ++ rest /\ leb_prefix bs = Some bs /\
    forall x, leb_spec n value low high (bs ++ x) = inr (v, x).
Proof.
  unfold leb_spec. destruct (leb_prefix (take _ buf)) as [bs|] eqn:E; [|by destruct (Nat.leb _ _)].
  destruct (_ && _) eqn:Hr; [|done]. intros [= <- <-].
  pose proof (leb_prefix_take _ _ _ E) as E'.
  destruct (leb_prefix_snoc _ _ E) as (_ & _ & _ & _ & Ht).
  rewrite take_take in Ht. pose proof (f_equal length Ht) as Hl. rewrite length_take in Hl.
  assert (length bs <= length buf)%nat as Hlen by lia.
  assert (length bs <= Z.to_nat ((n + 6) / 7))%nat as Hmost by lia.
  rewrite Nat.min_l in Ht by lia.
  exists bs. split; [by rewrite <- Ht at 1; rewrite take_drop|].
  split; [by eapply leb_prefix_app|]. intros x.
  rewrite take_app_ge by lia.
  destruct (leb_prefix_app _ _ (take (Z.to_nat ((n + 6) / 7) - length bs) x) E) as [_ ->].
  by rewrite Hr, drop_app_length.
Qed.

Lemma read_uint32_is buf v rest :
  read_leb_uint32 buf = inr (v, rest) ->
  exists bs, buf = bs ++ rest /\ leb_is read_leb_uint32 interp_read_leb_uint32 bs v.
Proof.
  rewrite read_leb_uint32_spec. intros (bs & -> & Hb & Hx)%leb_spec_local.
  exists bs. split; [done|]. split; [intros x; by rewrite read_leb_uint32_spec| |done].
  intros x. apply interp_read_agrees; [unfold leb_width; tauto|exact single_uint32|].
  change (read_leb_uint32 (bs ++ x) = inr (v, x)). by rewrite read_leb_uint32_spec.
Qed.

Lemma read_int32_is buf v rest :
  read_leb_int32 buf = inr (v, rest) ->
  exists bs, buf = bs ++ rest /\ leb_is read_leb_int32 interp_read_leb_int32 bs v.
Proof.
  rewrite read_leb_int32_spec. intros (bs & -> & Hb & Hx)%leb_spec_local.
  exists bs. split; [done|]. split; [intros x; by rewrite read_leb_int32_spec| |done].
  intros x. apply interp_read_agrees; [unfold leb_width; tauto|exact single_int32|].
  change (read_leb_int32 (bs ++ x) = inr (v, x)). by rewrite read_leb_int32_spec.
Qed.

Lemma read_int64_is buf v rest :
  read_leb_int64 buf = inr (v, rest) ->
  exists bs, buf = bs ++ rest /\ leb_is read_leb_int64 interp_read_leb_int64 bs v.
Proof.
  rewrite read_leb_int64_spec. intros (bs & -> & Hb & Hx)%leb_spec_local.
  exists bs. split; [done|]. split; [intros x; by rewrite read_leb_int64_spec| |done].
  intros x. apply interp_read_agrees; [unfold leb_width; tauto|exact single_int64|].
  change (read_leb_int64 (bs ++ x) = inr (v, x)). by rewrite read_leb_int64_spec.
Qed.

(** An index that was read as a signed integer is read again as an unsigned
    one. *)
Lemma int32_is_uint32 bs v :
  leb_is read_leb_int32 interp_read_leb_int32 bs v -> 0 <= v ->
  leb_is read_leb_uint32 interp_read_leb_uint32 bs v.
Proof.
  intros [Hr _ Hb] Hv. specialize (Hr []). rewrite app_nil_r in Hr.
  assert (read_leb_uint32 bs = inr (v, [])) as Hu.
  { rewrite read_leb_int32_spec in Hr. rewrite read_leb_uint32_spec. unfold leb_spec in *.
    destruct (leb_prefix (take _ bs)) as [bs'|] eqn:E; [|by destruct (Nat.leb _ _)].
    rewrite (leb_prefix_take _ _ _ E) in Hb. injection Hb as ->.
    destruct (Z.leb_spec (- 2 ^ 31) (leb_signed bs)), (Z.ltb_spec (leb_signed bs) (2 ^ 31));
      cbn [andb] in Hr; try done.
    injection Hr as Hs Hd. destruct (leb_groups _ _ _ E) as (bs' & b & Hbs & Hb & _ & Hval & Hlow & Hlen & _ & Hsg).
    pose proof (leb_value_range bs) as Hrange.
    assert (leb_value bs = v) as ->.
    { rewrite Hsg in Hs. destruct (64 <=? Z_of_byte b); [|lia]. lia. }
    destruct (Z.leb_spec 0 v), (Z.ltb_spec v (2 ^ 32)); cbn [andb]; try lia. by rewrite Hd. }
  destruct (read_uint32_is _ _ _ Hu) as (bs0 & E & H). rewrite app_nil_r in E. by subst bs0.
Qed.

(** ** Inverting a successful check *)

Lemma bind_Some {A B} (m : LM A) (k : A -> LM B) c b c2 :
  (m ≫= k) c = Some (b, c2) -> exists a c1, m c = Some (a, c1) /\ k a c1 = Some (b, c2).
Proof. unfold mbind, LM_bind. destruct (m c) as [[a c1]|]; [eauto|done]. Qed.

Lemma get_Some {A} (f : WASMLoaderContext -> A) c a c' :
  lget f c = Some (a, c') -> a = f c /\ c' = c.
Proof. by intros [= <- <-]. Qed.

Lemma set_Some f c a c' : lset f c = Some (a, c') -> c' = f c.
Proof. by intros [= _ <-]. Qed.

Lemma ret_Some {A} (a b : A) c c' : (mret a : LM A) c = Some (b, c') -> b = a /\ c' = c.
Proof. by intros [= <- <-]. Qed.

Lemma check_Some b c a c' : check b c = Some (a, c') -> b = true /\ c' = c.
Proof. destruct b; [by intros [= _ <-]|done]. Qed.

Lemma some_Some {A} (o : option A) c a c' : lsome o c = Some (a, c') -> o = Some a /\ c' = c.
Proof. destruct o; [by intros [= <- <-]|done]. Qed.

Lemma cur_block_Some c b c' :
  cur_block c = Some (b, c') -> c' = c /\ exists bs, frame_csp c = b :: bs.
Proof.
  intros (csp & c1 & [-> ->]%get_Some & [Hh ->]%some_Some)%bind_Some.
  split; [done|]. destruct (frame_csp c) as [|b' bs]; [done|]. injection Hh as ->. by exists bs.
Qed.

(** A hypothesis that a composed check succeeds becomes one for each part. *)
Ltac linv_step :=
  match goal with
  | H : (_ ≫= _) _ = Some (_, _) |- _ =>
      let a := fresh "v" in let c := fresh "c" in let H1 := fresh "E" in
      apply bind_Some in H; destruct H as (a & c & H1 & H)
  | H : lget _ _ = Some (_, _) |- _ => apply get_Some in H as [? ?]
  | H : lset _ _ = Some (_, _) |- _ => apply set_Some in H
  | H : check _ _ = Some (_, _) |- _ => apply check_Some in H as [? ?]
  | H : lsome _ _ = Some (_, _) |- _ => apply some_Some in H as [? ?]
  | H : cur_block _ = Some (_, _) |- _ => apply cur_block_Some in H as [? [? ?]]
  | H : @mret LM _ _ _ _ = Some (_, _) |- _ => apply ret_Some in H as [? ?]
  | H : (fun _ => Some _) _ = Some _ |- _ => cbn beta in H
  | H : @goto_fail _ _ = Some _ |- _ => discriminate H
  | H : ?u = tt |- _ => clear H
  | H : cur_p _ = Some (_, _) |- _ => unfold cur_p in H
  end.
Ltac linv := repeat (linv_step; try subst).

(** ** Reading the code *)

(** [c'] differs from [c] in the code only: [orig] was read and [bs] is there
    instead. *)
Record moved (c c' : WASMLoaderContext) (orig bs : bytes) : Prop := {
  mv_rest : p_rest c = orig ++ p_rest c';
  mv_done : p_done c' = p_done c ++ bs;
  mv_len : length orig = length bs;
  mv_same : c' = set_p (p_done c') (p_rest c') c
}.

Lemma moved_refl c : moved c c [] [].
Proof. split; [done|by rewrite app_nil_r|done|by destruct c]. Qed.

Lemma moved_trans c c1 c2 o1 b1 o2 b2 :
  moved c c1 o1 b1 -> moved c1 c2 o2 b2 -> moved c c2 (o1 ++ o2) (b1 ++ b2).
Proof.
  intros [R1 D1 L1 S1] [R2 D2 L2 S2]. split.
  - by rewrite R1, R2, app_assoc.
  - by rewrite D2, D1, app_assoc.
  - rewrite !length_app. lia.
  - rewrite S2 at 1. rewrite S1. by destruct c.
Qed.

Lemma advance_Some n c u c' :
  advance n c = Some (u, c') -> (n <= length (p_rest c))%nat ->
  exists bs, length bs = n /\ moved c c' bs bs.
Proof.
  intros ->%set_Some Hn. exists (take n (p_rest c)). split; [rewrite length_take; lia|].
  split; cbn; [by rewrite take_drop|done..].
Qed.

Lemma read_uint8_Some c b c' : read_uint8 c = Some (b, c') -> moved c c' [b] [b].
Proof.
  unfold read_uint8, advance. intros H. linv.
  destruct (p_rest c) as [|b' r] eqn:E; simplify_eq/=. split; cbn; rewrite ?E; done.
Qed.

Lemma peek_leb_Some reader c v n c' :
  peek_leb reader c = Some ((v, n), c') ->
  c' = c /\ exists rest, reader (p_rest c) = inr (v, rest) /\ n = (length (p_rest c) - length rest)%nat.
Proof.
  unfold peek_leb. intros H. linv. destruct (reader (p_rest c)) as [|[v' rest]] eqn:E; [done|].
  linv. simplify_eq. split; [done|]. by exists rest.
Qed.

Lemma lread_leb_Some reader ireader c v c' :
  (forall buf v rest, reader buf = inr (v, rest) ->
     exists bs, buf = bs ++ rest /\ leb_is reader ireader bs v) ->
  lread_leb reader c = Some (v, c') ->
  exists bs, leb_is reader ireader bs v /\ moved c c' bs bs.
Proof.
  intros Hr. unfold lread_leb. intros ([v' n] & c1 & (-> & rest & Hv & ->)%peek_leb_Some & H)%bind_Some.
  unfold advance in H. linv. cbn [fst snd]. destruct (Hr _ _ _ Hv) as (bs & Hbs & Hl). exists bs. split; [done|].
  rewrite Hbs, length_app. replace (length bs + length rest - length rest)%nat with (length bs) by lia.
  split; cbn; rewrite ?Hbs; rewrite ?take_app_length, ?drop_app_length; done.
Qed.

Abbreviation leb_u := (leb_is read_leb_uint32 interp_read_leb_uint32).
Abbreviation leb_s32 := (leb_is read_leb_int32 interp_read_leb_int32).
Abbreviation leb_s64 := (leb_is read_leb_int64 interp_read_leb_int64).

Lemma read_u_Some c v c' :
  pb_read_leb_uint32 c = Some (v, c') -> exists bs, leb_u bs v /\ moved c c' bs bs.
Proof. apply lread_leb_Some, read_uint32_is. Qed.

Lemma read_s32_Some c v c' :
  pb_read_leb_int32 c = Some (v, c') -> exists bs, leb_s32 bs v /\ moved c c' bs bs.
Proof. apply lread_leb_Some, read_int32_is. Qed.

Lemma read_s64_Some c v c' :
  pb_read_leb_int64 c = Some (v, c') -> exists bs, leb_s64 bs v /\ moved c c' bs bs.
Proof. apply lread_leb_Some, read_int64_is. Qed.

(** ** The abstract stack *)

(** The lowest [n] elements of a stack. *)
Definition low {A} (n : nat) (l : list A) : list A := drop (length l - n) l.

Arguments low : simpl never.

Lemma low_app {A} n (l1 l2 : list A) : (n <= length l2)%nat -> low n (l1 ++ l2) = low n l2.
Proof.
  intros H. unfold low. rewrite length_app, drop_app_ge by lia. f_equal. lia.
Qed.

Lemma low_all {A} (l : list A) : low (length l) l = l.
Proof. unfold low. by rewrite Nat.sub_diag. Qed.

Lemma low_length {A} n (l : list A) : (n <= length l)%nat -> length (low n l) = n.
Proof. intros H. unfold low. rewrite length_drop. lia. Qed.

Lemma low_low {A} n k (l : list A) : (n <= k <= length l)%nat -> low n (low k l) = low n l.
Proof.
  intros H. unfold low at 2. rewrite <- (take_drop (length l - k) l) at 3.
  rewrite low_app; [done|rewrite length_drop; lia].
Qed.

(** The cells of values, the last on top. *)
Fixpoint stk (ts : list value_type) : list value_type :=
  match ts with
  | [] => []
  | t :: ts => stk ts ++ replicate (wasm_value_type_cell_num t) t
  end.

Lemma stk_app l1 l2 : stk (l1 ++ l2) = stk l2 ++ stk l1.
Proof. induction l1 as [|t l1 IH]; cbn; [by rewrite app_nil_r|by rewrite IH, app_assoc]. Qed.

Lemma stk_length ts : length (stk ts) = wasm_get_cell_num ts.
Proof. induction ts as [|t ts IH]; cbn; [done|]. rewrite length_app, length_replicate, IH. lia. Qed.

Lemma stk_Forall (P : value_type -> Prop) ts : Forall P ts -> Forall P (stk ts).
Proof.
  induction 1 as [|t ts Ht _ IH]; cbn; [done|]. apply Forall_app. split; [done|].
  by apply Forall_replicate.
Qed.

Lemma stk_snoc t l :
  stk (l ++ [t]) = replicate (wasm_value_type_cell_num t) t ++ stk l.
Proof. by rewrite stk_app. Qed.

(** The cells above the [n] lowest ones are those of whole values. *)
Definition whole (n : nat) (l : list value_type) : Prop :=
  (n <= length l)%nat
  /\ exists ts, Forall (fun t => 0 < wasm_value_type_cell_num t)%nat ts /\ l = stk ts ++ low n l.

Lemma whole_low n l : (n <= length l)%nat -> whole n (low n l).
Proof.
  intros H. pose proof (low_length n l H) as Hl. split; [lia|]. exists []. split; [done|].
  unfold low at 2. by rewrite Hl, Nat.sub_diag.
Qed.

Lemma whole_push n l t :
  whole n l -> whole n (replicate (wasm_value_type_cell_num t) t ++ l)
    /\ low n (replicate (wasm_value_type_cell_num t) t ++ l) = low n l.
Proof.
  intros (H & ts & Hts & E). rewrite low_app by done. split; [|done].
  split; [rewrite length_app; lia|]. rewrite low_app by done.
  destruct (decide (wasm_value_type_cell_num t = 0)%nat) as [->|H0]; [by exists ts|].
  exists (ts ++ [t]). rewrite stk_snoc, <- app_assoc, <- E. split; [|done].
  apply Forall_app. split; [done|]. constructor; [lia|done].
Qed.

Lemma whole_pushes n ts l : whole n l -> whole n (stk ts ++ l) /\ low n (stk ts ++ l) = low n l.
Proof.
  intros W. split; [|apply low_app, W]. induction ts as [|t ts IH] using rev_ind; [done|].
  rewrite stk_snoc, <- app_assoc. by apply whole_push.
Qed.

(** The value on top, when there is one above [n]. *)
Lemma whole_top n t l :
  whole n (t :: l) -> (n < length (t :: l))%nat ->
  exists rest, t :: l = replicate (wasm_value_type_cell_num t) t ++ rest
    /\ whole n rest /\ low n rest = low n (t :: l) /\ (0 < wasm_value_type_cell_num t)%nat.
Proof.
  intros (H & ts & Hts & E) Hn. destruct ts as [|t0 ts0 _] using rev_ind.
  { cbn in E. apply (f_equal length) in E. rewrite low_length in E by lia. lia. }
  apply Forall_app in Hts as [Hts Ht0]. inversion Ht0 as [|? ? H0 _]; subst.
  rewrite stk_snoc, <- app_assoc in E.
  assert (t0 = t) as ->.
  { destruct (wasm_value_type_cell_num t0); [lia|]. cbn in E. by injection E. }
  exists (stk ts0 ++ low n (t :: l)).
  assert (low n (stk ts0 ++ low n (t :: l)) = low n (t :: l)) as Hlow.
  { rewrite low_app by (rewrite low_length; lia). rewrite <- (low_length n (t :: l)) at 1 by lia.
    apply low_all. }
  split_and!; [done| |done|done]. split; [rewrite length_app, low_length; lia|].
  exists ts0. by rewrite Hlow.
Qed.

Definition base (c : WASMLoaderContext) : nat :=
  match frame_csp c with
  | b :: _ => blk_stack_cell_num b
  | [] => 0
  end.

(** Code that may be reached: no block is behind a jump. *)
Definition live (c : WASMLoaderContext) : Prop :=
  Forall (fun b => is_stack_polymorphic b = false) (frame_csp c)
  /\ Forall (fun t => t <> VALUE_TYPE_ANY) (frame_ref c).

(** From [c] to [c'] values of types [pops] were popped and values of types
    [pushes] pushed. Where the code is not reached, only the cells below the
    current block are known to be kept. *)
Record stkop (pops pushes : list value_type) (c c' : WASMLoaderContext) : Prop := {
  so_csp : frame_csp c' = frame_csp c;
  so_max_csp : max_csp_num c' = max_csp_num c;
  so_cache : br_table_cache_list c' = br_table_cache_list c;
  so_max : (max_stack_cell_num c <= max_stack_cell_num c')%nat;
  so_bound : (stack_cell_num c <= max_stack_cell_num c)%nat ->
             (stack_cell_num c' <= max_stack_cell_num c')%nat;
  so_low : whole (base c) (frame_ref c) ->
           whole (base c) (frame_ref c') /\ low (base c) (frame_ref c') = low (base c) (frame_ref c);
  so_live : whole (base c) (frame_ref c) -> live c ->
            live c' /\ exists rest, frame_ref c = stk pops ++ rest /\ frame_ref c' = stk pushes ++ rest
                                    /\ (base c <= length rest)%nat
}.

Lemma stkop_refl c : stkop [] [] c c.
Proof. split; try done. intros Hb Hl. split; [done|]. exists (frame_ref c). split_and!; [done..|apply Hb]. Qed.

Lemma base_csp c c' : frame_csp c' = frame_csp c -> base c' = base c.
Proof. unfold base. by intros ->. Qed.

(** Changes of the code do not matter. *)
Lemma stkop_set_p ps qs c c' d r : stkop ps qs c c' -> stkop ps qs c (set_p d r c').
Proof. by intros []; split. Qed.

Lemma stkop_moved ps qs c c1 c2 o bs : stkop ps qs c c1 -> moved c1 c2 o bs -> stkop ps qs c c2.
Proof. intros H [_ _ _ ->]. by apply stkop_set_p. Qed.

Lemma check_top_stk t l n :
  check_stack_top_values l n t = true ->
  (wasm_value_type_cell_num t <= n)%nat /\ forall t' l', l = t' :: l' ->
    (0 < wasm_value_type_cell_num t)%nat -> t' = t.
Proof.
  unfold check_stack_top_values. cbn zeta. intros [Hn%Nat.leb_le Hf]%andb_true_iff. split; [done|].
  intros t' l' -> H0. destruct (wasm_value_type_cell_num t); [lia|]. cbn in Hf.
  apply andb_true_iff in Hf as [Hf _]. by apply bool_decide_eq_true in Hf.
Qed.

Lemma available_Some c n c' :
  available_stack_cell c = Some (n, c') -> c' = c /\ n = (stack_cell_num c - base c)%nat.
Proof.
  unfold available_stack_cell. intros H. linv. split; [done|].
  unfold base. match goal with H : frame_csp _ = _ |- _ => by rewrite H end.
Qed.

Lemma not_void t : t <> VALUE_TYPE_VOID -> (0 < wasm_value_type_cell_num t)%nat.
Proof. destruct t; intros H; try done; vm_compute; lia. Qed.

(** What a pop removes. *)
Lemma pop_Some t c u c' :
  wasm_loader_pop_frame_ref t c = Some (u, c') ->
  (c' = c /\ (~ live c \/ t = VALUE_TYPE_VOID))
  \/ exists k, c' = set_frame_ref (drop k (frame_ref c)) c
       /\ (whole (base c) (frame_ref c) ->
             whole (base c) (drop k (frame_ref c))
             /\ low (base c) (drop k (frame_ref c)) = low (base c) (frame_ref c))
       /\ (whole (base c) (frame_ref c) -> live c ->
             frame_ref c = replicate (wasm_value_type_cell_num t) t ++ drop k (frame_ref c)).
Proof.
  unfold wasm_loader_pop_frame_ref. intros H.
  apply bind_Some in H as (b & c0 & [-> [bs Hcsp]]%cur_block_Some & H).
  apply bind_Some in H as (n & c0 & [-> ->]%available_Some & H).
  destruct (_ && _) eqn:Hp.
  { linv. left. split; [done|]. left. intros [Hl _]. rewrite Hcsp in Hl.
    inversion Hl; subst. apply andb_true_iff in Hp as [_ Hp]. congruence. }
  destruct (value_type_eqb t VALUE_TYPE_VOID) eqn:Hv.
  { linv. left. apply bool_decide_eq_true in Hv. auto. }
  apply bool_decide_eq_false, not_void in Hv.
  apply bind_Some in H as (u1 & c1 & H1 & ->%set_Some).
  unfold check_stack_pop in H1.
  apply bind_Some in H1 as (n & c0 & [-> ->]%available_Some & H1). linv.
  right. exists (if top_is_any (frame_ref c) then 1%nat else wasm_value_type_cell_num t).
  unfold stack_cell_num in *. destruct ((0 <? _)%nat && _) eqn:Ha.
  - apply andb_true_iff in Ha as [Hn%Nat.ltb_lt Ha]. linv. split; [done|]. rewrite Ha.
    destruct (frame_ref c) as [|t' r] eqn:Hr; [done|]. apply bool_decide_eq_true in Ha as ->.
    split.
    + intros Hw. destruct (whole_top _ _ _ Hw) as (rest & E & Hw' & Hlow & _); [lia|].
      injection E as ->. done.
    + intros Hw [_ Hl]. rewrite Hr in Hl. inversion Hl; subst. done.
  - linv. split; [done|]. match goal with H : check_stack_top_values _ _ _ = true |- _ =>
      destruct (check_top_stk _ _ _ H) as [Hn Ht] end.
    replace (top_is_any (frame_ref c)) with false.
    2:{ destruct (top_is_any _); [|done]. rewrite andb_true_r in Ha. apply Nat.ltb_ge in Ha. lia. }
    destruct (frame_ref c) as [|t' r] eqn:Hr; [cbn [length] in Hn; lia|].
    specialize (Ht _ _ eq_refl Hv) as ->.
    assert (whole (base c) (t :: r) -> exists rest,
      t :: r = replicate (wasm_value_type_cell_num t) t ++ rest
      /\ whole (base c) rest /\ low (base c) rest = low (base c) (t :: r)) as Htop.
    { intros Hw. destruct (whole_top _ _ _ Hw) as (rest & E & Hw' & Hlow & _); [lia|eauto]. }
    split; intros Hw; destruct (Htop Hw) as (rest & E & Hw' & Hlow);
      replace (drop (wasm_value_type_cell_num t) (t :: r)) with rest;
      try (by rewrite E, drop_app_length'; [|rewrite length_replicate]); done.
Qed.

Lemma stkop_pop ps t c c1 u c2 :
  stkop ps [] c c1 -> wasm_loader_pop_frame_ref t c1 = Some (u, c2) -> stkop (t :: ps) [] c c2.
Proof.
  intros H1 Hp. pose proof (base_csp _ _ (so_csp _ _ _ _ H1)) as Hb. destruct H1 as [Hc Hm Hca Hx Hbd Hlow Hlv].
  apply pop_Some in Hp as [[-> Hd]|(k & -> & Hk & Hkl)].
  - split; try done. intros H0 Hl. destruct (Hlv H0 Hl) as (Hl1 & rest & E1 & E2 & E3).
    split; [done|]. exists rest. destruct Hd as [[]| ->]; [done|]. cbn. by rewrite app_nil_r.
  - rewrite Hb in *. unfold stack_cell_num in *. split; cbn; try done.
    + intros H0. rewrite length_drop. specialize (Hbd H0). lia.
    + intros H0. destruct (Hlow H0) as [H2 H3]. rewrite <- H3. auto.
    + intros H0 Hl. destruct (Hlv H0 Hl) as (Hl1 & rest' & E1 & E2 & E3). cbn in E2.
      destruct (Hlow H0) as [H2 _]. specialize (Hkl H2 Hl1). destruct (Hk H2) as [[Hlen _] _].
      rewrite <- E2, Hkl, app_assoc in E1. split; [|by eexists].
      destruct Hl1 as [Hl1 Hl2]. split; [done|]. by apply Forall_drop.
Qed.

Lemma push_Some t c u c' :
  wasm_loader_push_frame_ref t c = Some (u, c') ->
  exists max, c' = set_max_stack_cell_num max
      (set_frame_ref (replicate (wasm_value_type_cell_num t) t ++ frame_ref c) c)
    /\ (max_stack_cell_num c <= max)%nat
    /\ (stack_cell_num c' <= max)%nat.
Proof.
  unfold wasm_loader_push_frame_ref. intros H. linv. cbn [max_stack_cell_num set_frame_ref] in H.
  destruct (Nat.ltb_spec (max_stack_cell_num c)
    (stack_cell_num (set_frame_ref (replicate (wasm_value_type_cell_num t) t ++ frame_ref c) c))).
  - linv. eexists. split; [done|]. unfold stack_cell_num in *. cbn in *. lia.
  - linv. exists (max_stack_cell_num c). split; [by destruct c|]. unfold stack_cell_num in *. cbn in *. lia.
Qed.

Lemma stkop_push ps qs t c c1 u c2 :
  stkop ps qs c c1 -> wasm_loader_push_frame_ref t c1 = Some (u, c2) ->
  t <> VALUE_TYPE_ANY \/ ~ live c -> stkop ps (qs ++ [t]) c c2.
Proof.
  intros [Hc Hm Hca Hx Hbd Hlow Hlv] (max & -> & Hmax & Hn)%push_Some Ht.
  unfold stack_cell_num in *. cbn in *. split; cbn; try done.
  - lia.
  - intros H0. destruct (Hlow H0) as [H1 H2]. rewrite <- H2. by apply whole_push.
  - intros H0 Hl. destruct Ht as [Ht|[]]; [|done].
    destruct (Hlv H0 Hl) as ([Hl1 Hl2] & rest & E1 & E2 & E3). split.
    + split; [done|]. apply Forall_app. split; [by apply Forall_replicate|done].
    + exists rest. rewrite stk_snoc, <- app_assoc, <- E2. done.
Qed.

Lemma stkop_pop_each l ps c c1 u c2 :
  stkop ps [] c c1 -> pop_each l c1 = Some (u, c2) -> stkop (rev l ++ ps) [] c c2.
Proof.
  revert ps c1. induction l as [|t l IH]; intros ps c1 H1 H; cbn in H.
  - by linv.
  - apply bind_Some in H as (u1 & c3 & Hp & H). cbn. rewrite <- app_assoc.
    eapply IH; [|exact H]. by eapply stkop_pop.
Qed.

Lemma stkop_pop_types ts ps c c1 u c2 :
  stkop ps [] c c1 -> pop_types ts c1 = Some (u, c2) -> stkop (ts ++ ps) [] c c2.
Proof. intros H1 H. rewrite <- (rev_involutive ts). by eapply stkop_pop_each. Qed.

Lemma stkop_push_types ts ps qs c c1 u c2 :
  stkop ps qs c c1 -> push_types ts c1 = Some (u, c2) ->
  Forall (fun t => t <> VALUE_TYPE_ANY) ts \/ ~ live c -> stkop ps (qs ++ ts) c c2.
Proof.
  revert qs c1. induction ts as [|t ts IH]; intros qs c1 H1 H Ht; cbn in H.
  - linv. by rewrite app_nil_r.
  - apply bind_Some in H as (u1 & c3 & Hp & H). replace (qs ++ t :: ts) with ((qs ++ [t]) ++ ts).
    2:{ by rewrite <- app_assoc. }
    eapply IH; [|exact H|].
    + eapply stkop_push; [done..|]. destruct Ht as [Ht|]; [left; by inversion Ht|by right].
    + destruct Ht as [Ht|]; [left; by inversion Ht|by right].
Qed.

Lemma stkop_repeat_pop n t ps c c1 u c2 :
  stkop ps [] c c1 -> repeat_op n (wasm_loader_pop_frame_ref t) c1 = Some (u, c2) ->
  stkop (replicate n t ++ ps) [] c c2.
Proof.
  revert ps c1. induction n as [|n IH]; intros ps c1 H1 H; cbn in H.
  - by linv.
  - apply bind_Some in H as (u1 & c3 & Hp & H). rewrite replicate_S_end, <- app_assoc.
    eapply IH; [|exact H]. by eapply stkop_pop.
Qed.

Lemma stkop_push_pop ps n push pop c c1 u c2 :
  stkop ps [] c c1 -> wasm_loader_push_pop_frame_ref n push pop c1 = Some (u, c2) ->
  push <> VALUE_TYPE_ANY \/ ~ live c -> stkop (replicate n pop ++ ps) [push] c c2.
Proof.
  intros H1 (u1 & c3 & Hp & H)%bind_Some Ht. apply (stkop_push _ [] _ _ _ _ _) with (2 := H); [|done].
  by eapply stkop_repeat_pop.
Qed.

(** Where the code is not reached, the types do not matter. *)
Lemma stkop_dead ps qs ps' qs' c c' : stkop ps qs c c' -> ~ live c -> stkop ps' qs' c c'.
Proof. intros [] Hd. by split. Qed.

Lemma stkop_drop_top ps t l c c1 :
  stkop ps [] c c1 -> frame_ref c1 = t :: l -> (base c < stack_cell_num c1)%nat ->
  stkop (t :: ps) [] c (set_frame_ref (drop (wasm_value_type_cell_num t) (frame_ref c1)) c1).
Proof.
  intros [Hc Hm Hca Hx Hbd Hlow Hlv] Hr Hn. unfold stack_cell_num in *. rewrite Hr in *.
  assert (forall Hw : whole (base c) (t :: l), exists rest,
    t :: l = replicate (wasm_value_type_cell_num t) t ++ rest
    /\ drop (wasm_value_type_cell_num t) (t :: l) = rest
    /\ whole (base c) rest /\ low (base c) rest = low (base c) (t :: l)) as Htop.
  { intros Hw. destruct (whole_top _ _ _ Hw Hn) as (rest & E & H1 & H2 & _).
    exists rest. split_and!; [done| |done|done]. by rewrite E, drop_app_length'; [|rewrite length_replicate]. }
  split; cbn [frame_csp max_csp_num br_table_cache_list max_stack_cell_num frame_ref set_frame_ref]; try done.
  - intros H0. unfold stack_cell_num in *. cbn [frame_ref set_frame_ref]. rewrite length_drop. specialize (Hbd H0). lia.
  - intros H0. destruct (Hlow H0) as [H1 H2]. destruct (Htop H1) as (rest & E & -> & H3 & H4).
    by rewrite H4.
  - intros H0 Hl. destruct (Hlow H0) as [H1 _]. destruct (Hlv H0 Hl) as ([Hl1 Hl2] & rest' & E1 & E2 & E3).
    destruct (Htop H1) as (rest & E & -> & [H3 _] & H4). cbn in E2. subst rest'. split.
    + split; [done|]. cbn. rewrite Hr, E in Hl2. by apply Forall_app in Hl2 as [_ ?].
    + exists rest. cbn. rewrite <- app_assoc, <- E. done.
Qed.

(** ** What an instruction reads, writes, pops and pushes *)

Definition same_code (c c' : WASMLoaderContext) : Prop :=
  p_done c' = p_done c /\ p_rest c' = p_rest c.

Lemma pop_code t c u c' : wasm_loader_pop_frame_ref t c = Some (u, c') -> same_code c c'.
Proof. intros [[-> _]|(k & -> & _)]%pop_Some; done. Qed.

Lemma push_code t c u c' : wasm_loader_push_frame_ref t c = Some (u, c') -> same_code c c'.
Proof. intros (max & -> & _)%push_Some. done. Qed.

Lemma same_code_trans c c1 c2 : same_code c c1 -> same_code c1 c2 -> same_code c c2.
Proof. unfold same_code. intros [-> ->] [-> ->]. done. Qed.

Lemma pop_each_code l c u c' : pop_each l c = Some (u, c') -> same_code c c'.
Proof.
  revert c. induction l as [|t l IH]; intros c H; cbn in H; [by linv|].
  apply bind_Some in H as (u1 & c1 & H1%pop_code & H). eauto using same_code_trans.
Qed.

Lemma push_types_code l c u c' : push_types l c = Some (u, c') -> same_code c c'.
Proof.
  revert c. induction l as [|t l IH]; intros c H; cbn in H; [by linv|].
  apply bind_Some in H as (u1 & c1 & H1%push_code & H). eauto using same_code_trans.
Qed.

Lemma repeat_pop_code n t c u c' :
  repeat_op n (wasm_loader_pop_frame_ref t) c = Some (u, c') -> same_code c c'.
Proof.
  revert c. induction n as [|n IH]; intros c H; cbn in H; [by linv|].
  apply bind_Some in H as (u1 & c1 & H1%pop_code & H). eauto using same_code_trans.
Qed.

Record emit (orig bs : bytes) (pops pushes : list value_type) (c c' : WASMLoaderContext) : Prop := {
  em_rest : p_rest c = orig ++ p_rest c';
  em_done : p_done c' = p_done c ++ bs;
  em_len : length orig = length bs;
  em_stk : stkop pops pushes c c'
}.

Lemma emit_refl c : emit [] [] [] [] c c.
Proof. split; [done|by rewrite app_nil_r|done|apply stkop_refl]. Qed.

Lemma emit_moved o b ps qs c c1 c2 o' b' :
  emit o b ps qs c c1 -> moved c1 c2 o' b' -> emit (o ++ o') (b ++ b') ps qs c c2.
Proof.
  intros [R D L S] [R' D' L' S']. split.
  - by rewrite R, R', app_assoc.
  - by rewrite D', D, app_assoc.
  - rewrite !length_app. lia.
  - rewrite S'. by apply stkop_set_p.
Qed.

Lemma emit_code o b ps qs ps' qs' c c1 c2 :
  emit o b ps qs c c1 -> same_code c1 c2 -> stkop ps' qs' c c2 -> emit o b ps' qs' c c2.
Proof. intros [R D L S] [H1 H2] S'. split; rewrite ?H1, ?H2; done. Qed.

Lemma emit_pop o b ps t c c1 u c2 :
  emit o b ps [] c c1 -> wasm_loader_pop_frame_ref t c1 = Some (u, c2) -> emit o b (t :: ps) [] c c2.
Proof. intros H E. eapply emit_code; [done|by eapply pop_code|]. eapply stkop_pop; [apply H|done]. Qed.

Lemma emit_push o b ps qs t c c1 u c2 :
  emit o b ps qs c c1 -> wasm_loader_push_frame_ref t c1 = Some (u, c2) ->
  t <> VALUE_TYPE_ANY \/ ~ live c -> emit o b ps (qs ++ [t]) c c2.
Proof. intros H E Ht. eapply emit_code; [done|by eapply push_code|]. eapply stkop_push; [apply H|done..]. Qed.

Lemma emit_pop_types o b ps ts c c1 u c2 :
  emit o b ps [] c c1 -> pop_types ts c1 = Some (u, c2) -> emit o b (ts ++ ps) [] c c2.
Proof.
  intros H E. eapply emit_code; [done|by eapply pop_each_code|]. eapply stkop_pop_types; [apply H|done].
Qed.

Lemma emit_push_types o b ps qs ts c c1 u c2 :
  emit o b ps qs c c1 -> push_types ts c1 = Some (u, c2) ->
  Forall (fun t => t <> VALUE_TYPE_ANY) ts \/ ~ live c -> emit o b ps (qs ++ ts) c c2.
Proof.
  intros H E Ht. eapply emit_code; [done|by eapply push_types_code|].
  eapply stkop_push_types; [apply H|done..].
Qed.

Lemma emit_push_pop o b ps n push pop c c1 u c2 :
  emit o b ps [] c c1 -> wasm_loader_push_pop_frame_ref n push pop c1 = Some (u, c2) ->
  push <> VALUE_TYPE_ANY \/ ~ live c -> emit o b (replicate n pop ++ ps) [push] c c2.
Proof.
  intros H E Ht. eapply emit_code; [done| |eapply stkop_push_pop; [apply H|done..]].
  apply bind_Some in E as (u1 & c3 & E1 & E2).
  eapply same_code_trans; [by eapply repeat_pop_code|by eapply push_code].
Qed.

Lemma emit_dead o b ps qs ps' qs' c c' : emit o b ps qs c c' -> ~ live c -> emit o b ps' qs' c c'.
Proof. intros [] Hd. split; [done..|]. by eapply stkop_dead. Qed.

Lemma leb_is_length reader ireader bs v : leb_is reader ireader bs v -> (1 <= length bs)%nat.
Proof. intros [_ _ H]. destruct bs; [done|cbn; lia]. Qed.

(** Rewriting bytes of the instruction. *)
Lemma emit_put o bs ps qs c c1 i b u c2 addr :
  emit o bs ps qs c c1 -> put_code addr b c1 = Some (u, c2) ->
  addr = (length (p_done c) + i)%nat -> emit o (<[i := b]> bs) ps qs c c2.
Proof.
  intros [R D L S] ->%set_Some ->. split; cbn; [done| |by rewrite length_insert|by apply stkop_set_p].
  rewrite D. rewrite insert_app_r_alt by lia. f_equal. f_equal. lia.
Qed.

Lemma emit_fill o bs ps qs c c1 i u c2 addr :
  emit o bs ps qs c c1 -> fill_nop addr c1 = Some (u, c2) ->
  addr = (length (p_done c) + i)%nat -> (i <= length bs)%nat ->
  emit o (take i bs ++ replicate (length bs - i) (opcode_byte WASM_OP_NOP)) ps qs c c2.
Proof.
  intros [R D L S] ->%set_Some -> Hi. split; cbn; [done| | |by apply stkop_set_p].
  - rewrite D, take_app_ge by lia. rewrite length_app, <- app_assoc.
    repeat (f_equal; try lia).
  - rewrite length_app, length_take, length_replicate. lia.
Qed.
