(* ===== verification/Bytecode.v ===== *)
(** * The language of the rewritten code

    The instructions that the checker leaves behind and the interpreter
    executes, with the types of the operands they pop and push: the contract
    between [wasm_loader_prepare_bytecode], [wasm_loader_find_block_addr] and
    [wasm_interp_call_func_bytecode]. *)

From S2P Require Import Prelude Memory Leb LebSpec Opcode Loader LoaderSpec.

Section bytecode.
Context (module : WASMModule) (func_type : WASMFuncType) (local_types : list value_type).

Definition func_locals : list value_type := param_types func_type ++ local_types.

Definition has_memory : bool :=
  negb ((memory_count module =? 0) && (import_memory_count module =? 0)).

(** Accesses to locals: the opcode, that of the short form, and what is popped
    and pushed. *)
Inductive local_op := op_get_local | op_set_local | op_tee_local.

Definition local_opcode (l : local_op) : WASMOpcode :=
  match l with
  | op_get_local => WASM_OP_GET_LOCAL
  | op_set_local => WASM_OP_SET_LOCAL
  | op_tee_local => WASM_OP_TEE_LOCAL
  end.
Definition local_fast_opcode (l : local_op) : WASMOpcode :=
  match l with
  | op_get_local => EXT_OP_GET_LOCAL_FAST
  | op_set_local => EXT_OP_SET_LOCAL_FAST
  | op_tee_local => EXT_OP_TEE_LOCAL_FAST
  end.
Definition local_pops (l : local_op) (t : value_type) : list value_type :=
  match l with
  | op_get_local => []
  | _ => [t]
  end.
Definition local_pushes (l : local_op) (t : value_type) : list value_type :=
  match l with
  | op_set_local => []
  | _ => [t]
  end.

Definition get_global_opcode (t : value_type) : WASMOpcode :=
  if is_64bit_type t then WASM_OP_GET_GLOBAL_64 else WASM_OP_GET_GLOBAL.

(** The opcodes of a store to a global. *)
Definition set_global_opcode (t : value_type) (o : WASMOpcode) : Prop :=
  if is_64bit_type t then o = WASM_OP_SET_GLOBAL_64
  else o = WASM_OP_SET_GLOBAL \/ o = WASM_OP_SET_GLOBAL_AUX_STACK.

Definition misc_code (opc : bytes) (o : WASMMiscEXTOpcode) : Prop := leb_u opc (misc_opcode_value o).

Abbreviation i32 := VALUE_TYPE_I32.
Abbreviation opb o := (opcode_byte o).

(** Instructions that go on behind themselves: their bytes, the types of the
    operands with the top one last, and those of the results. *)
Inductive straight : bytes -> list value_type -> list value_type -> Prop :=
| st_nop : straight [opb WASM_OP_NOP] [] []
| st_numeric o n pop push : numeric_signature o = Some (n, pop, push) ->
    straight [opb o] (replicate n pop) [push]
| st_load o t a va f vf : memory_signature o = Some (t, false) -> has_memory = true ->
    leb_u a va -> leb_u f vf -> straight (opb o :: a ++ f) [i32] [t]
| st_store o t a va f vf : memory_signature o = Some (t, true) -> has_memory = true ->
    leb_u a va -> leb_u f vf -> straight (opb o :: a ++ f) [i32; t] []
| st_drop t : wasm_value_type_cell_num t = 1%nat -> straight [opb WASM_OP_DROP] [t] []
| st_drop_64 t : wasm_value_type_cell_num t = 2%nat -> straight [opb WASM_OP_DROP_64] [t] []
| st_select t : wasm_value_type_cell_num t = 1%nat -> straight [opb WASM_OP_SELECT] [t; t; i32] [t]
| st_select_64 t : wasm_value_type_cell_num t = 2%nat ->
    straight [opb WASM_OP_SELECT_64] [t; t; i32] [t]
| st_select_t n vn b t : leb_u n vn -> valid_value_type b = Some t ->
    straight (opb WASM_OP_SELECT_T :: n ++ [b]) [t; t; i32] [t]
| st_table_get n i t : leb_u n i -> all_tables module !! Z.to_nat i = Some t ->
    straight (opb WASM_OP_TABLE_GET :: n) [i32] [t]
| st_table_set n i t : leb_u n i -> all_tables module !! Z.to_nat i = Some t ->
    straight (opb WASM_OP_TABLE_SET :: n) [i32; t] []
| st_ref_null b t : valid_value_type b = Some t -> t = VALUE_TYPE_FUNCREF \/ t = VALUE_TYPE_EXTERNREF ->
    straight [opb WASM_OP_REF_NULL; b] [] [t]
| st_ref_is_null t : t = VALUE_TYPE_FUNCREF \/ t = VALUE_TYPE_EXTERNREF ->
    straight [opb WASM_OP_REF_IS_NULL] [t] [i32]
| st_ref_func n i t : leb_u n i -> all_functions module !! Z.to_nat i = Some t ->
    straight (opb WASM_OP_REF_FUNC :: n) [] [VALUE_TYPE_FUNCREF]
| st_local l n i t : leb_u n i -> func_locals !! Z.to_nat i = Some t ->
    straight (opb (local_opcode l) :: n) (local_pops l t) (local_pushes l t)
| st_local_fast l i t off : func_locals !! i = Some t ->
    init_function_local_offsets func_type local_types !! i = Some off -> off < 128 ->
    straight [opb (local_fast_opcode l);
              byte_of_Z (if is_32bit_type t then off else Z.lor off 128)]
      (local_pops l t) (local_pushes l t)
| st_get_global n i g : leb_u n i -> all_globals module !! Z.to_nat i = Some g ->
    straight (opb (get_global_opcode (val_type g)) :: n) [] [val_type g]
| st_set_global o n i g : leb_u n i -> all_globals module !! Z.to_nat i = Some g ->
    is_mutable g = true -> set_global_opcode (val_type g) o -> straight (opb o :: n) [val_type g] []
| st_memory_size n : leb_u n 0 -> has_memory = true -> straight (opb WASM_OP_MEMORY_SIZE :: n) [] [i32]
| st_memory_grow n : leb_u n 0 -> has_memory = true -> straight (opb WASM_OP_MEMORY_GROW :: n) [i32] [i32]
| st_i32_const n v : leb_s32 n v -> straight (opb WASM_OP_I32_CONST :: n) [] [i32]
| st_i64_const n v : leb_s64 n v -> straight (opb WASM_OP_I64_CONST :: n) [] [VALUE_TYPE_I64]
| st_f32_const b : length b = 4%nat -> straight (opb WASM_OP_F32_CONST :: b) [] [VALUE_TYPE_F32]
| st_f64_const b : length b = 8%nat -> straight (opb WASM_OP_F64_CONST :: b) [] [VALUE_TYPE_F64]
| st_trunc_sat opc o pop push : misc_code opc o -> trunc_sat_signature o = Some (pop, push) ->
    straight (opb WASM_OP_MISC_PREFIX :: opc) [pop] [push]
| st_memory_init opc n i x : misc_code opc WASM_OP_MEMORY_INIT -> leb_u n i -> leb_u x 0 ->
    i < data_seg_count module -> has_memory = true ->
    straight (opb WASM_OP_MISC_PREFIX :: opc ++ n ++ x) [i32; i32; i32] []
| st_data_drop opc n i : misc_code opc WASM_OP_DATA_DROP -> leb_u n i -> i < data_seg_count module ->
    straight (opb WASM_OP_MISC_PREFIX :: opc ++ n) [] []
| st_memory_copy opc x y : misc_code opc WASM_OP_MEMORY_COPY -> leb_u x 0 -> leb_u y 0 ->
    has_memory = true -> straight (opb WASM_OP_MISC_PREFIX :: opc ++ x ++ y) [i32; i32; i32] []
| st_memory_fill opc x : misc_code opc WASM_OP_MEMORY_FILL -> leb_u x 0 -> has_memory = true ->
    straight (opb WASM_OP_MISC_PREFIX :: opc ++ x) [i32; i32; i32] []
| st_table_init opc n i m j s t : misc_code opc WASM_OP_TABLE_INIT -> leb_u n i -> leb_u m j ->
    table_segments module !! Z.to_nat i = Some s -> all_tables module !! Z.to_nat j = Some t ->
    straight (opb WASM_OP_MISC_PREFIX :: opc ++ n ++ m) [i32; i32; i32] []
| st_elem_drop opc n i s : misc_code opc WASM_OP_ELEM_DROP -> leb_u n i ->
    table_segments module !! Z.to_nat i = Some s ->
    straight (opb WASM_OP_MISC_PREFIX :: opc ++ n) [] []
| st_table_copy opc n i m j s t : misc_code opc WASM_OP_TABLE_COPY -> leb_u n i -> leb_u m j ->
    all_tables module !! Z.to_nat i = Some s -> all_tables module !! Z.to_nat j = Some t ->
    straight (opb WASM_OP_MISC_PREFIX :: opc ++ n ++ m) [i32; i32; i32] []
| st_table_size opc n i t : misc_code opc WASM_OP_TABLE_SIZE -> leb_u n i ->
    all_tables module !! Z.to_nat i = Some t ->
    straight (opb WASM_OP_MISC_PREFIX :: opc ++ n) [] [i32]
| st_table_grow opc n i t : misc_code opc WASM_OP_TABLE_GROW -> leb_u n i ->
    all_tables module !! Z.to_nat i = Some t ->
    straight (opb WASM_OP_MISC_PREFIX :: opc ++ n) [t; i32] [i32]
| st_table_fill opc n i t : misc_code opc WASM_OP_TABLE_FILL -> leb_u n i ->
    all_tables module !! Z.to_nat i = Some t ->
    straight (opb WASM_OP_MISC_PREFIX :: opc ++ n) [i32; t; i32] [].

(** Calls. *)
Inductive call_code : bytes -> list value_type -> list value_type -> Prop :=
| cc_call n i t : leb_u n i -> all_functions module !! Z.to_nat i = Some t ->
    call_code (opb WASM_OP_CALL :: n) (param_types t) (result_types t)
| cc_call_indirect n i m j t : leb_u n i -> leb_u m j -> types module !! Z.to_nat i = Some t ->
    all_tables module !! Z.to_nat j = Some VALUE_TYPE_FUNCREF ->
    call_code (opb WASM_OP_CALL_INDIRECT :: n ++ m) (param_types t ++ [i32]) (result_types t).

End bytecode.
