(* ===== verification/CheckSpec.v ===== *)
(** * The checker emits the language of the rewritten code

    Every round of [wasm_loader_prepare_bytecode] on an instruction that does
    not change the stack of blocks leaves the bytes of an instruction of
    [Bytecode.v], and moves its abstract stack by the types of that
    instruction. *)

From S2P Require Import Prelude Memory Leb LebSpec Opcode Loader LoaderSpec Bytecode.

(** ** Extending what was emitted along a chain of checks *)

Ltac em_step :=
  lazymatch goal with |- _ \/ ~ live _ => fail | _ => idtac end;
  match goal with
  | K : emit _ _ _ _ ?c ?c1, H : moved ?c1 _ _ _ |- _ => pose proof (emit_moved _ _ _ _ _ _ _ _ _ K H); clear K H
  | K : emit _ _ _ _ ?c ?c1, H : pb_read_leb_uint32 ?c1 = Some (_, _) |- _ =>
      apply read_u_Some in H; destruct H as (? & ? & H)
  | K : emit _ _ _ _ ?c ?c1, H : pb_read_leb_int32 ?c1 = Some (_, _) |- _ =>
      apply read_s32_Some in H; destruct H as (? & ? & H)
  | K : emit _ _ _ _ ?c ?c1, H : pb_read_leb_int64 ?c1 = Some (_, _) |- _ =>
      apply read_s64_Some in H; destruct H as (? & ? & H)
  | K : emit _ _ _ _ ?c ?c1, H : read_uint8 ?c1 = Some (_, _) |- _ => apply read_uint8_Some in H
  | K : emit _ _ _ [] ?c ?c1, H : wasm_loader_pop_frame_ref _ ?c1 = Some (_, _) |- _ =>
      pose proof (emit_pop _ _ _ _ _ _ _ _ K H); clear K H
  | H : Loader.POP_I32 _ = Some (_, _) |- _ => unfold Loader.POP_I32 in H
  | H : Loader.PUSH_I32 _ = Some (_, _) |- _ => unfold Loader.PUSH_I32 in H
  | K : emit _ _ _ [] ?c ?c1, H : pop_types _ ?c1 = Some (_, _) |- _ =>
      pose proof (emit_pop_types _ _ _ _ _ _ _ _ K H); clear K H
  | K : emit _ _ _ _ ?c ?c1, H : wasm_loader_push_frame_ref _ ?c1 = Some (_, _) |- _ =>
      eapply (emit_push _ _ _ _ _ _ _ _ _ K) in H; [clear K|try (left; done)]
  | K : emit _ _ _ _ ?c ?c1, H : push_types _ ?c1 = Some (_, _) |- _ =>
      eapply (emit_push_types _ _ _ _ _ _ _ _ _ K) in H; [clear K|try (left; done)]
  | K : emit _ _ _ [] ?c ?c1, H : wasm_loader_push_pop_frame_ref _ _ _ ?c1 = Some (_, _) |- _ =>
      eapply (emit_push_pop _ _ _ _ _ _ _ _ _ _ K) in H; [clear K|try (left; done)]
  | H : check_memory _ _ = Some (_, _) |- _ => apply check_Some in H; destruct H as [? ->]
  end.
Ltac em := repeat em_step; cbn [app replicate] in *.

Section checker.
Context (module : WASMModule) (func_type : WASMFuncType) (local_types : list value_type).

Abbreviation straight := (straight module func_type local_types).
Abbreviation call_code := (call_code module).
Abbreviation NOP := (opcode_byte WASM_OP_NOP).

Definition not_any (t : value_type) : Prop := t <> VALUE_TYPE_ANY.

(** The types of a module are value types. *)
Record module_types : Prop := {
  mt_types : Forall (fun t => Forall not_any (param_types t) /\ Forall not_any (result_types t))
               (types module ++ all_functions module);
  mt_globals : Forall (fun g => not_any (val_type g)) (all_globals module);
  mt_tables : Forall not_any (all_tables module);
  mt_locals : Forall not_any (func_locals func_type local_types);
  mt_results : Forall not_any (result_types func_type)
}.
Context (MT : module_types).

(** A round that emits an instruction, perhaps with padding. *)
Definition emits_straight (c c' : WASMLoaderContext) : Prop :=
  exists orig bs n ps qs, straight bs ps qs /\ emit orig (bs ++ replicate n NOP) ps qs c c'.

Lemma emits_intro orig bs ps qs c c' :
  straight bs ps qs -> emit orig bs ps qs c c' -> emits_straight c c'.
Proof. intros H1 H2. exists orig, bs, 0%nat, ps, qs. cbn. by rewrite app_nil_r. Qed.

Lemma check_memory_Some c u c' :
  check_memory module c = Some (u, c') -> c' = c /\ has_memory module = true.
Proof. intros [H ->]%check_Some. done. Qed.

Lemma memidx_Some c u c' :
  read_memidx c = Some (u, c') -> exists bs, leb_u bs 0 /\ moved c c' bs bs.
Proof.
  intros (v & c1 & (bs & Hbs & Hm)%read_u_Some & [->%Z.eqb_eq ->]%check_Some)%bind_Some. eauto.
Qed.

Lemma numeric_signature_not_any o n pop push :
  numeric_signature o = Some (n, pop, push) -> push <> VALUE_TYPE_ANY.
Proof. destruct o; intros [= <- <- <-]; done. Qed.

Lemma memory_signature_not_any o t s : memory_signature o = Some (t, s) -> t <> VALUE_TYPE_ANY.
Proof. destruct o; intros [= <- <-]; done. Qed.

Lemma trunc_sat_not_any o pop push : trunc_sat_signature o = Some (pop, push) -> push <> VALUE_TYPE_ANY.
Proof. destruct o; intros [= <- <-]; done. Qed.

Lemma valid_value_type_not_any b t : valid_value_type b = Some t -> t <> VALUE_TYPE_ANY.
Proof. destruct b; intros [= <-]; done. Qed.

(** ** Simple instructions *)

Section round.
Context (c c1 c' : WASMLoaderContext) (u : ()).

Ltac fin := eapply emits_intro; [|eassumption]; econstructor; solve [eauto].

Lemma load_store_emits o t is_store :
  memory_signature o = Some (t, is_store) -> emit [opcode_byte o] [opcode_byte o] [] [] c c1 ->
  handle_op_load_store module o t is_store c1 = Some (u, c') -> emits_straight c c'.
Proof.
  intros Ho K H. pose proof (memory_signature_not_any _ _ _ Ho). unfold handle_op_load_store in H.
  apply bind_Some in H as (u1 & c2 & [-> Hm]%check_memory_Some & H).
  destruct is_store; linv; em; fin.
Qed.

Lemma numeric_emits o n pop push :
  numeric_signature o = Some (n, pop, push) -> emit [opcode_byte o] [opcode_byte o] [] [] c c1 ->
  wasm_loader_push_pop_frame_ref n push pop c1 = Some (u, c') -> emits_straight c c'.
Proof.
  intros Ho K H. pose proof (numeric_signature_not_any _ _ _ _ Ho). em. rewrite app_nil_r in H. fin.
Qed.

Abbreviation from o := (emit [opcode_byte o] [opcode_byte o] [] [] c c1).

Lemma table_type i t : all_tables module !! i = Some t -> t <> VALUE_TYPE_ANY.
Proof. intros H. by eapply (Forall_lookup_1 _ _ _ _ (mt_tables MT)). Qed.

Lemma table_get_emits : from WASM_OP_TABLE_GET ->
  handle_op_table_get module c1 = Some (u, c') -> emits_straight c c'.
Proof.
  intros K H. unfold handle_op_table_get, get_table_elem_type in H. linv. em; [|left; by eapply table_type]. fin.
Qed.

Lemma table_set_emits : from WASM_OP_TABLE_SET ->
  handle_op_table_set module c1 = Some (u, c') -> emits_straight c c'.
Proof. intros K H. unfold handle_op_table_set, get_table_elem_type in H. linv. em. fin. Qed.

Lemma ref_null_emits : from WASM_OP_REF_NULL ->
  handle_op_ref_null c1 = Some (u, c') -> emits_straight c c'.
Proof.
  intros K H. unfold handle_op_ref_null in H. linv.
  destruct (valid_value_type v) as [[]|] eqn:E1; try done; em; fin.
Qed.

Lemma ref_is_null_emits : from WASM_OP_REF_IS_NULL ->
  handle_op_ref_is_null c1 = Some (u, c') -> emits_straight c c'.
Proof.
  intros K H. unfold handle_op_ref_is_null in H. linv.
  destruct (wasm_loader_pop_frame_ref VALUE_TYPE_FUNCREF c1) as [[]|] eqn:E1; simplify_eq.
  - em. eapply emits_intro; [|eassumption]. eapply st_ref_is_null; auto.
  - em. eapply emits_intro; [|eassumption]. eapply st_ref_is_null; auto.
Qed.

Lemma ref_func_emits : from WASM_OP_REF_FUNC ->
  handle_op_ref_func module c1 = Some (u, c') -> emits_straight c c'.
Proof. intros K H. unfold handle_op_ref_func, check_function_index in H. linv. em. fin. Qed.

Lemma select_t_emits : from WASM_OP_SELECT_T ->
  handle_op_select_t c1 = Some (u, c') -> emits_straight c c'.
Proof.
  intros K H. unfold handle_op_select_t in H. linv. 
  match goal with H : valid_value_type _ = Some _ |- _ => pose proof (valid_value_type_not_any _ _ H) end.
  em. fin.
Qed.

Lemma memory_size_emits : from WASM_OP_MEMORY_SIZE ->
  handle_op_memory_size module c1 = Some (u, c') -> emits_straight c c'.
Proof.
  intros K H. unfold handle_op_memory_size in H. linv. em.
  match goal with H : read_memidx _ = _ |- _ => apply memidx_Some in H as (? & ? & ?) end. em. fin.
Qed.

Lemma memory_grow_emits : from WASM_OP_MEMORY_GROW ->
  handle_op_memory_grow module c1 = Some (u, c') -> emits_straight c c'.
Proof.
  intros K H. unfold handle_op_memory_grow in H. linv. em.
  match goal with H : read_memidx _ = _ |- _ => apply memidx_Some in H as (? & ? & ?) end. em. fin.
Qed.

Lemma float_const_emits n t :
  (n = 4 /\ t = VALUE_TYPE_F32 /\ from WASM_OP_F32_CONST
   \/ n = 8 /\ t = VALUE_TYPE_F64 /\ from WASM_OP_F64_CONST)%nat ->
  (CHECK_BUF n;; advance n;; wasm_loader_push_frame_ref t) c1 = Some (u, c') -> emits_straight c c'.
Proof.
  intros K H. unfold CHECK_BUF in H. linv.
  match goal with H : advance _ _ = _, H1 : _ = true |- _ =>
    apply advance_Some in H as (? & ? & ?); [|by apply Nat.leb_le] end.
  destruct K as [(-> & -> & K)|(-> & -> & K)]; em; fin.
Qed.

Context (W : whole (base c) (frame_ref c)).

Lemma dead_any ps qs c2 t l :
  stkop ps qs c c2 -> frame_ref c2 = t :: l -> t <> VALUE_TYPE_ANY \/ ~ live c.
Proof.
  intros S E. destruct (decide (t = VALUE_TYPE_ANY)) as [->|]; [right|by left].
  intros Hl. destruct (so_live _ _ _ _ S W Hl) as [[_ Hl2] _]. rewrite E in Hl2.
  by inversion Hl2.
Qed.

Lemma dead_polymorphic b bs : frame_csp c = b :: bs -> is_stack_polymorphic b = true -> ~ live c.
Proof. intros E Hp [Hl _]. rewrite E in Hl. inversion Hl; congruence. Qed.

Lemma cells_32 t : is_32bit_type t = true -> wasm_value_type_cell_num t = 1%nat.
Proof. by destruct t. Qed.

Lemma cells_64 t : is_64bit_type t = true -> wasm_value_type_cell_num t = 2%nat.
Proof. by destruct t. Qed.

Lemma drop_emits : from WASM_OP_DROP ->
  Loader.handle_op_drop c1 = Some (u, c') -> emits_straight c c'.
Proof.
  intros K H. unfold Loader.handle_op_drop in H.
  apply bind_Some in H as (b & c2 & [-> [bs Hcsp]]%cur_block_Some & H).
  apply bind_Some in H as (n & c2 & [-> ->]%available_Some & H). linv.
  pose proof (so_csp _ _ _ _ (em_stk _ _ _ _ _ _ K)) as Hc. pose proof (base_csp _ _ Hc) as Hb.
  rewrite Hb in H. destruct (Nat.eqb_spec (stack_cell_num c1 - base c) 0) as [H0|H0].
  - linv. rewrite Hc in Hcsp. eapply emits_intro; [by eapply (st_drop _ _ _ VALUE_TYPE_I32)|].
    eapply emit_dead; [done|by eapply dead_polymorphic].
  - destruct (frame_ref c1) as [|t l] eqn:Hr; [done|].
    pose proof (stkop_drop_top [] t l c c1 (em_stk _ _ _ _ _ _ K) Hr) as S. rewrite Hr in S.
    specialize (S ltac:(lia)).
    destruct (is_32bit_type t) eqn:H32; [|destruct (is_64bit_type t) eqn:H64]; linv.
    + rewrite (cells_32 _ H32) in S. eapply emits_intro; [by eapply st_drop, cells_32|].
      by eapply emit_code; [exact K| |exact S].
    + rewrite (cells_64 _ H64) in S.
      assert (emit [opcode_byte WASM_OP_DROP] [opcode_byte WASM_OP_DROP] [t] [] c
                (set_frame_ref (drop 2 (t :: l)) c1)) as K2 by (by eapply emit_code; [exact K| |exact S]).
      eapply emits_intro; [by eapply st_drop_64, cells_64|].
      eapply (emit_put _ _ _ _ _ _ 0 _ _ _ _ K2) in H; [exact H|]. cbn. rewrite (em_done _ _ _ _ _ _ K).
      rewrite length_app. cbn. lia.
Qed.

Lemma select_emits : from WASM_OP_SELECT ->
  Loader.handle_op_select c1 = Some (u, c') -> emits_straight c c'.
Proof.
  intros K H. unfold Loader.handle_op_select in H.
  apply bind_Some in H as (b & c2 & [-> [bs Hcsp]]%cur_block_Some & H).
  apply bind_Some in H as (u1 & c2 & Hp & H).
  apply bind_Some in H as (n & c3 & [-> ->]%available_Some & H). linv.
  pose proof (so_csp _ _ _ _ (em_stk _ _ _ _ _ _ K)) as Hc. rewrite Hc in Hcsp.
  em. match goal with K : emit _ _ _ _ c c2 |- _ => rename K into K2 end.
  destruct (Nat.eqb_spec (stack_cell_num c2 - base c2) 0) as [H0|H0].
  - linv. pose proof (dead_polymorphic _ _ Hcsp H1) as Hd. em; [|by right].
    eapply emits_intro; [by eapply (st_select _ _ _ VALUE_TYPE_I32)|]. by eapply emit_dead.
  - destruct (frame_ref c2) as [|t l] eqn:Hr; [done|].
    pose proof (dead_any _ _ _ _ _ (em_stk _ _ _ _ _ _ K2) Hr) as Hd.
    destruct t; linv; em; try done; try (eapply emits_intro; [|eassumption]; by eapply st_select);
    match goal with H : put_opcode _ _ _ = Some _ |- _ =>
      eapply (emit_put _ _ _ _ _ _ 0 _ _ _ _ K2) in H; [cbn in H|] end.
    all: try (cbn; rewrite (em_done _ _ _ _ _ _ K2), length_app; cbn; lia).
    all: em; eapply emits_intro; [|eassumption]; by eapply st_select_64.
Qed.

(** ** Locals and globals *)

Lemma get_local_index_Some c2 t off c3 :
  Loader.GET_LOCAL_INDEX_TYPE_AND_OFFSET func_type local_types c2 = Some ((t, off), c3) ->
  exists n i, leb_u n i /\ moved c2 c3 n n
    /\ func_locals func_type local_types !! Z.to_nat i = Some t
    /\ init_function_local_offsets func_type local_types !! Z.to_nat i = Some off.
Proof.
  unfold Loader.GET_LOCAL_INDEX_TYPE_AND_OFFSET. intros H. linv. simplify_eq.
  match goal with H : pb_read_leb_uint32 _ = _ |- _ => apply read_u_Some in H as (n & Hn & Hm) end. eauto 10.
Qed.

(** The short form replaces the opcode and the index. *)
Lemma local_fast_Some b n v ps qs c2 o t off u0 c3 p_org :
  emit (b :: n) (b :: n) ps qs c c2 -> leb_u n v -> p_org = length (p_done c) ->
  put_local_fast p_org o t off c2 = Some (u0, c3) ->
  (c3 = c2 /\ 128 <= off)
  \/ (off < 128 /\ emit (b :: n)
       ([opcode_byte o; byte_of_Z (if is_32bit_type t then off else Z.lor off 128)]
        ++ replicate (length n - 1) NOP) ps qs c c3).
Proof.
  intros K Hn%leb_is_length -> H. unfold put_local_fast in H.
  destruct (Z.ltb_spec off 128); linv; [|auto]. right. split; [done|].
  destruct n as [|b1 n]; [cbn in Hn; lia|].
  match goal with H : put_opcode _ _ _ = _ |- _ =>
    eapply (emit_put _ _ _ _ _ _ 0 _ _ _ _ K) in H; [cbn in H|lia]; rename H into K1 end.
  match goal with H : put_code _ _ _ = _ |- _ =>
    eapply (emit_put _ _ _ _ _ _ 1 _ _ _ _ K1) in H; [cbn in H|lia]; rename H into K2 end.
  eapply (emit_fill _ _ _ _ _ _ 2 _ _ _ K2) in H; [|lia|cbn; lia].
  cbn in H |- *. rewrite ?take_0 in H. exact H.
Qed.

Lemma locals_not_any i t : func_locals func_type local_types !! i = Some t -> t <> VALUE_TYPE_ANY.
Proof. intros H. by eapply (Forall_lookup_1 _ _ _ _ (mt_locals MT)). Qed.

Lemma straight_local l n i t off orig c2 :
  leb_u n i -> func_locals func_type local_types !! Z.to_nat i = Some t ->
  init_function_local_offsets func_type local_types !! Z.to_nat i = Some off ->
  emit orig (opcode_byte (local_opcode l) :: n) (local_pops l t) (local_pushes l t) c c2 \/
  (off < 128 /\ emit orig
     ([opcode_byte (local_fast_opcode l); byte_of_Z (if is_32bit_type t then off else Z.lor off 128)]
      ++ replicate (length n - 1) NOP) (local_pops l t) (local_pushes l t) c c2) ->
  emits_straight c c2.
Proof.
  intros Hn Ht Ho [K|[Hoff K]].
  - eapply emits_intro; [|exact K]. by eapply st_local.
  - do 5 eexists. split; [|exact K]. by eapply st_local_fast.
Qed.

Definition at_org (p_org : nat) := p_org = length (p_done c).

Lemma get_local_emits p_org : at_org p_org -> from WASM_OP_GET_LOCAL ->
  handle_op_get_local func_type local_types p_org c1 = Some (u, c') -> emits_straight c c'.
Proof.
  intros Ho K H. unfold handle_op_get_local in H.
  apply bind_Some in H as ([t off] & c2 & (n & i & Hn & Hm & Ht & Hoff)%get_local_index_Some & H).
  pose proof (locals_not_any _ _ Ht). linv. em.
  match goal with K : emit _ _ _ _ _ _ |- _ =>
    destruct (local_fast_Some _ _ _ _ _ _ _ _ _ _ _ _ K Hn Ho H) as [[-> _]|[]] end;
  eapply (straight_local op_get_local); eauto.
Qed.

Lemma set_local_emits p_org : at_org p_org -> from WASM_OP_SET_LOCAL ->
  handle_op_set_local func_type local_types p_org c1 = Some (u, c') -> emits_straight c c'.
Proof.
  intros Ho K H. unfold handle_op_set_local in H.
  apply bind_Some in H as ([t off] & c2 & (n & i & Hn & Hm & Ht & Hoff)%get_local_index_Some & H).
  apply bind_Some in H as ([] & c3 & Hf & H). cbn [fst snd] in *. em.
  match goal with K : emit _ _ _ _ _ c2 |- _ =>
    destruct (local_fast_Some _ _ _ _ _ _ _ _ _ _ _ _ K Hn Ho Hf) as [[-> _]|[]] end;
  em; eapply (straight_local op_set_local); eauto.
Qed.

Lemma tee_local_emits p_org : at_org p_org -> from WASM_OP_TEE_LOCAL ->
  handle_op_tee_local func_type local_types p_org c1 = Some (u, c') -> emits_straight c c'.
Proof.
  intros Ho K H. unfold handle_op_tee_local in H.
  apply bind_Some in H as ([t off] & c2 & (n & i & Hn & Hm & Ht & Hoff)%get_local_index_Some & H).
  pose proof (locals_not_any _ _ Ht). linv. em.
  match goal with K : emit _ _ _ _ _ _ |- _ =>
    destruct (local_fast_Some _ _ _ _ _ _ _ _ _ _ _ _ K Hn Ho H) as [[-> _]|[]] end;
  eapply (straight_local op_tee_local); eauto.
Qed.

Lemma is_64_spec t :
  value_type_eqb t VALUE_TYPE_I64 || value_type_eqb t VALUE_TYPE_F64 = is_64bit_type t.
Proof. by destruct t. Qed.

Lemma global_emits o : o = WASM_OP_GET_GLOBAL \/ o = WASM_OP_SET_GLOBAL -> from o ->
  handle_op_global module o c1 = Some (u, c') -> emits_straight c c'.
Proof.
  intros Ho K H. unfold handle_op_global in H.
  apply bind_Some in H as (p & c2 & [-> ->]%get_Some & H).
  assert (length (p_done c1) - 1 = length (p_done c) + 0)%nat as Horg.
  { rewrite (em_done _ _ _ _ _ _ K), length_app. cbn. lia. }
  apply bind_Some in H as (i & c2 & Hi & H). apply bind_Some in H as (g & c3 & [Hg ->]%some_Some & H).
  pose proof (Forall_lookup_1 _ _ _ _ (mt_globals MT) Hg) as Hany.
  rewrite is_64_spec in H. em. destruct Ho as [-> | ->]; cbn in H.
  - apply bind_Some in H as (u1 & c4 & Hp & H). em.
    match type of Hp with emit _ (_ :: ?x) _ _ _ _ =>
      assert (forall o', get_global_opcode (val_type g) = o' ->
        straight (opcode_byte o' :: x) [] [val_type g]) as Hst by (intros o' <-; by eapply st_get_global) end.
    unfold get_global_opcode in Hst. destruct (is_64bit_type (val_type g)); linv.
    + eapply emit_put in H; [|exact Hp|exact Horg].
      eapply emits_intro; [by apply (Hst WASM_OP_GET_GLOBAL_64)|exact H].
    + eapply emits_intro; [by apply (Hst WASM_OP_GET_GLOBAL)|exact Hp].
  - apply bind_Some in H as (u1 & c4 & [Hmut ->]%check_Some & H).
    apply bind_Some in H as ([] & c5 & Hp & H).
    match goal with K : emit _ (_ :: ?x) _ _ c _ |- _ =>
      assert (exists o', set_global_opcode (val_type g) o' /\
        emit (opcode_byte WASM_OP_SET_GLOBAL :: x) (opcode_byte o' :: x) [] [] c c5) as (o' & Ho' & K');
      [|em; eapply emits_intro; [by eapply st_set_global|eassumption]]; rename K into K1 end.
    unfold set_global_opcode. destruct (is_64bit_type (val_type g)).
    { eapply emit_put in Hp; [|exact K1|exact Horg]. eauto. }
    destruct (_ && _); [|linv; eauto].
    eapply emit_put in Hp; [|exact K1|exact Horg]. eauto.
Qed.

(** ** Instructions with a prefix *)

Ltac mi := match goal with H : read_memidx _ = Some _ |- _ => apply memidx_Some in H as (? & ? & H) end.

Lemma misc_emits : from WASM_OP_MISC_PREFIX ->
  Loader.handle_op_misc module c1 = Some (u, c') -> emits_straight c c'.
Proof.
  intros K H. unfold Loader.handle_op_misc in H.
  apply bind_Some in H as (v & c2 & Hv & H). apply bind_Some in H as (o & c3 & [Ho ->]%some_Some & H).
  apply misc_opcode_Some in Ho as ->. em.
  destruct (trunc_sat_signature o) as [[pop push]|] eqn:Et.
  { pose proof (trunc_sat_not_any _ _ _ Et). em. eapply emits_intro; [|eassumption].
    by eapply st_trunc_sat. }
  destruct o; try done; clear Et;
    unfold Loader.handle_op_memory_init, Loader.handle_op_data_drop, Loader.handle_op_memory_copy,
      Loader.handle_op_memory_fill, Loader.handle_op_table_init, Loader.handle_op_elem_drop,
      Loader.handle_op_table_copy, Loader.handle_op_table_size, Loader.handle_op_table_grow,
      Loader.handle_op_table_fill, get_table_elem_type, get_table_seg_elem_type, CHECK_BUF in H;
    linv; em; repeat (mi; em);
    repeat match goal with H : _ <$> _ = Some _ |- _ => apply fmap_Some in H as (? & ? & ?) end;
    repeat match goal with H : emit _ _ _ _ _ _ |- _ => rewrite <- ?app_assoc in H; cbn [app] in H end;
    repeat match goal with H : (_ <? _) = true |- _ => apply Z.ltb_lt in H end;
    eapply emits_intro; try eassumption.
  - by eapply st_memory_init.
  - by eapply st_data_drop.
  - by eapply st_memory_copy.
  - by eapply st_memory_fill.
  - by eapply st_table_init.
  - by eapply st_elem_drop.
  - by eapply st_table_copy.
  - by eapply st_table_grow.
  - by eapply st_table_size.
  - by eapply st_table_fill.
Qed.

(** ** Calls *)

Definition emits_call : Prop :=
  exists orig bs ps qs, call_code bs ps qs /\ emit orig bs ps qs c c'.

Lemma function_not_any i t :
  all_functions module !! i = Some t -> Forall not_any (result_types t).
Proof.
  intros H. pose proof (mt_types MT) as Hf. apply Forall_app in Hf as [_ Hf].
  by apply (Forall_lookup_1 _ _ _ _ Hf) in H as [_ ?].
Qed.

Lemma type_not_any i t :
  types module !! i = Some t -> Forall not_any (param_types t) /\ Forall not_any (result_types t).
Proof.
  intros H. pose proof (mt_types MT) as Hf. apply Forall_app in Hf as [Hf _].
  by apply (Forall_lookup_1 _ _ _ _ Hf) in H.
Qed.

Lemma call_emits : from WASM_OP_CALL ->
  Loader.handle_op_call module c1 = Some (u, c') -> emits_call.
Proof.
  intros K H. unfold Loader.handle_op_call, check_function_index in H. linv.
  match goal with H : all_functions _ !! _ = Some _ |- _ => pose proof (function_not_any _ _ H) end.
  em. rewrite app_nil_r in *. do 4 eexists. split; [|eassumption]. by eapply cc_call.
Qed.

Lemma call_indirect_emits : from WASM_OP_CALL_INDIRECT ->
  Loader.handle_op_call_indirect module c1 = Some (u, c') -> emits_call.
Proof.
  intros K H. unfold Loader.handle_op_call_indirect, get_table_elem_type, check_function_type in H. linv.
  match goal with H : (if ?b then _ else _) _ = _ |- _ => destruct b; [done|] end. linv.
  match goal with H : types _ !! _ = Some _ |- _ => destruct (type_not_any _ _ H) as [_ ?] end.
  match goal with H : bool_decide _ = true |- _ => apply bool_decide_eq_true in H; subst end.
  em. do 4 eexists. split; [|eassumption]. by eapply cc_call_indirect.
Qed.

End round.
End checker.
