(* ===== verification/CheckControl.v ===== *)
(** * The checker on control instructions

    What a round of [wasm_loader_prepare_bytecode] does with the instructions
    that change the stack of blocks, or jump. *)

From S2P Require Import Prelude Memory Leb LebSpec Opcode Loader LoaderSpec Bytecode CheckSpec.

(** The bytes that a step reads and writes, and the parts it leaves alone. *)
Definition wrote (orig bs : bytes) (c c' : WASMLoaderContext) : Prop :=
  p_rest c = orig ++ p_rest c' /\ p_done c' = p_done c ++ bs /\ length orig = length bs.

Lemma emit_wrote o b ps qs c c' : emit o b ps qs c c' -> wrote o b c c'.
Proof. by intros []. Qed.

(** ** Values on top of the stack *)

Lemma push_types_ref ts c u c' : push_types ts c = Some (u, c') -> frame_ref c' = stk ts ++ frame_ref c.
Proof.
  revert c. induction ts as [|t ts IH]; intros c H; cbn in H; [by linv|].
  apply bind_Some in H as (u1 & c1 & (max & -> & _)%push_Some & H). rewrite (IH _ H). cbn.
  by rewrite <- app_assoc.
Qed.

Lemma check_top_values_stk t l n :
  check_stack_top_values l n t = true -> (n <= length l)%nat ->
  exists l', l = replicate (wasm_value_type_cell_num t) t ++ l' /\ (wasm_value_type_cell_num t <= n)%nat.
Proof.
  unfold check_stack_top_values. cbn zeta. intros [Hn%Nat.leb_le Hf]%andb_true_iff Hl.
  exists (drop (wasm_value_type_cell_num t) l). split; [|done].
  rewrite <- (take_drop (wasm_value_type_cell_num t) l) at 1. f_equal. symmetry.
  apply replicate_as_Forall. split; [rewrite length_take; lia|]. apply Forall_forall. intros x Hx.
  rewrite forallb_forall in Hf. apply list_elem_of_In in Hx. by apply Hf, bool_decide_eq_true in Hx.
Qed.

Lemma check_top_types_stk ts l n :
  check_top_types l n (rev ts) = true -> (n <= length l)%nat ->
  exists l', l = stk ts ++ l' /\ (wasm_get_cell_num ts <= n)%nat.
Proof.
  revert l n. induction ts as [|t ts IH] using rev_ind; intros l n H Hn.
  { exists l. cbn. split; [done|lia]. }
  rewrite rev_app_distr in H. cbn in H. apply andb_true_iff in H as [H1 H2].
  destruct (check_top_values_stk _ _ _ H1 Hn) as (l1 & -> & Hc).
  rewrite drop_app_length' in H2 by (by rewrite length_replicate).
  rewrite length_app, length_replicate in Hn.
  destruct (IH _ _ H2) as (l2 & -> & Hc2); [lia|].
  exists l2. rewrite stk_snoc, <- app_assoc, get_cell_num_app. cbn. split; [done|lia].
Qed.

(** The values of types [ts] are on top of the current block. *)
Definition on_top (ts : list value_type) (c : WASMLoaderContext) : Prop :=
  exists rest, frame_ref c = stk ts ++ rest /\ (base c <= length rest)%nat.

Lemma top_types_on_top c ts :
  check_top_types (frame_ref c) (stack_cell_num c - base c) (rev ts) = true ->
  (base c <= stack_cell_num c)%nat -> on_top ts c.
Proof.
  unfold stack_cell_num. intros H Hb. apply check_top_types_stk in H as (l & E & Hn); [|lia].
  exists l. split; [done|]. apply (f_equal length) in E. rewrite length_app, stk_length in E. lia.
Qed.

Lemma set_frame_ref_id c : set_frame_ref (frame_ref c) c = c.
Proof. by destruct c. Qed.

Lemma stkop_live_eq ts c c' :
  stkop ts ts c c' -> whole (base c) (frame_ref c) -> live c -> frame_ref c' = frame_ref c.
Proof. intros S W Hl. destruct (so_live _ _ _ _ S W Hl) as (_ & rest & -> & -> & _). done. Qed.

(** A branch: the values of its target are on top of the stack, which it
    leaves. *)
Lemma check_br_Some depth o c u c' :
  wasm_loader_check_br depth o c = Some (u, c') -> whole (base c) (frame_ref c) ->
  same_code c c' /\ stkop [] [] c c' /\ exists b, frame_csp c !! Z.to_nat depth = Some b
    /\ (live c -> c' = c /\ on_top (label_types b) c).
Proof.
  intros H W. unfold wasm_loader_check_br in H.
  apply bind_Some in H as (n & c0 & [-> ->]%get_Some & H).
  apply bind_Some in H as (u1 & c0 & [Hn ->]%check_Some & H).
  apply bind_Some in H as (csp & c0 & [-> ->]%get_Some & H).
  apply bind_Some in H as (b & c0 & [Hb ->]%some_Some & H).
  apply bind_Some in H as (cur & c0 & [-> [bs Hcsp]]%cur_block_Some & H).
  destruct (is_stack_polymorphic cur) eqn:Hp.
  - apply bind_Some in H as (fr & c0 & [-> ->]%get_Some & H).
    apply bind_Some in H as (u2 & c2 & H2 & H). apply bind_Some in H as (u3 & c3 & H3 & H).
    pose proof (same_code_trans _ _ _ (pop_each_code _ _ _ _ H2) (push_types_code _ _ _ _ H3)) as Hcode.
    pose proof (dead_polymorphic c _ _ Hcsp Hp) as Hdead.
    assert (stkop [] [] c c3) as S3.
    { eapply stkop_dead; [|done]. pose proof (stkop_pop_types _ _ _ _ _ _ (stkop_refl c) H2) as S2.
      rewrite app_nil_r in S2. pose proof (stkop_push_types _ _ [] _ _ _ _ S2 H3) as S3. auto. }
    assert (same_code c c' /\ stkop [] [] c c') as [Hc' S'].
    { destruct o; linv; try done. split; [done|]. destruct S3 as [E1 E2 E3 E4 E5 E6 E7].
      split; cbn; try done. unfold stack_cell_num in *. cbn. lia. }
    split_and!; [done..|]. exists b. split; [done|]. intros Hl. by destruct Hdead.
  - apply bind_Some in H as (n & c0 & [-> ->]%available_Some & H). linv.
    split_and!; [done|apply stkop_refl|]. exists b. split; [done|].
    intros Hl. split; [done|]. apply top_types_on_top; [done|apply W].
Qed.

(** The end of a block: its results are on top of what was below it. *)
Lemma check_block_stack_Some b bs c u c' :
  check_block_stack b c = Some (u, c') -> frame_csp c = b :: bs -> whole (base c) (frame_ref c) ->
  let results := block_type_get_result_types (block_type b) in
  same_code c c' /\ frame_csp c' = frame_csp c /\ max_csp_num c' = max_csp_num c
  /\ br_table_cache_list c' = br_table_cache_list c
  /\ (max_stack_cell_num c <= max_stack_cell_num c')%nat
  /\ (stack_cell_num c <= max_stack_cell_num c -> stack_cell_num c' <= max_stack_cell_num c')%nat
  /\ frame_ref c' = stk results ++ low (base c) (frame_ref c)
  /\ (live c -> c' = c).
Proof.
  intros H Hcsp W results. unfold check_block_stack in H.
  apply bind_Some in H as (n & c0 & [-> ->]%get_Some & H).
  assert (blk_stack_cell_num b = base c) as Hb by (unfold base; by rewrite Hcsp).
  destruct (is_stack_polymorphic b) eqn:Hp.
  - apply bind_Some in H as (u2 & c2 & H2 & H). apply bind_Some in H as (n & c0 & [-> ->]%get_Some & H).
    apply bind_Some in H as (u3 & c3 & [Hn%Nat.eqb_eq ->]%check_Some & H3).
    pose proof (dead_polymorphic c _ _ Hcsp Hp) as Hdead.
    pose proof (stkop_pop_types _ _ _ _ _ _ (stkop_refl c) H2) as S2. rewrite app_nil_r in S2.
    pose proof (stkop_push_types _ _ [] _ _ _ _ S2 H3 (or_intror Hdead)) as S3. cbn in S3.
    pose proof (same_code_trans _ _ _ (pop_each_code _ _ _ _ H2) (push_types_code _ _ _ _ H3)) as Hcode.
    split_and!; [done|apply S3..| |by intros].
    rewrite (push_types_ref _ _ _ _ H3). f_equal. destruct (so_low _ _ _ _ S2 W) as [_ <-].
    rewrite <- Hb, <- Hn. symmetry. apply low_all.
  - apply bind_Some in H as (u3 & c3 & [Hn%Nat.eqb_eq ->]%check_Some & H). linv.
    split_and!; try done. rewrite Hb in *. destruct W as [Hw _]. unfold stack_cell_num in *.
    match goal with H : check_top_types _ _ _ = true |- _ =>
      destruct (check_top_types_stk _ _ _ H) as (l & E & Hc); [lia|] end.
    rewrite E at 1. f_equal. rewrite E. rewrite E, length_app, stk_length in Hn, Hw.
    fold results in Hn, Hw, E |- *. rewrite low_app by lia. replace (base c) with (length l) by lia.
    symmetry. apply low_all.
Qed.

(** ** Jumps *)

Abbreviation NOP := (opcode_byte WASM_OP_NOP).
Abbreviation opb o := (opcode_byte o).

(** A branch to depth [d] is possible behind the operands [ps]. *)
Definition can_branch (c : WASMLoaderContext) (ps : list value_type) (d : Z) : Prop :=
  exists b, frame_csp c !! Z.to_nat d = Some b /\ (live c -> on_top (label_types b ++ ps) c).

(** Instructions behind which the code is not reached, with the table that is
    put beside the code. *)
Inductive jump_code (func_type : WASMFuncType) (c : WASMLoaderContext)
    : bytes -> list (nat * list Z) -> Prop :=
| jc_unreachable : jump_code func_type c [opb WASM_OP_UNREACHABLE] []
| jc_return : (live c -> on_top (result_types func_type) c) ->
    jump_code func_type c [opb WASM_OP_RETURN] []
| jc_br n d : leb_u n d -> can_branch c [] d -> jump_code func_type c (opb WASM_OP_BR :: n) []
| jc_br_table n count ds : leb_u n count -> zlen ds = count + 1 -> Forall (fun d => 0 <= d < 256) ds ->
    Forall (can_branch c [VALUE_TYPE_I32]) ds ->
    jump_code func_type c (opb WASM_OP_BR_TABLE :: n ++ (byte_of_Z <$> ds)) []
| jc_br_table_cache n count ds : leb_u n count -> zlen ds = count + 1 ->
    Forall (can_branch c [VALUE_TYPE_I32]) ds ->
    jump_code func_type c (opb EXT_OP_BR_TABLE_CACHE :: n) [(length (p_done c), ds)].

(** The rest of the block is not reached. *)
Record jumped (c c' : WASMLoaderContext) (b : BranchBlock) (bs : list BranchBlock) : Prop := {
  ju_csp : frame_csp c = b :: bs;
  ju_csp' : frame_csp c' = set_polymorphic true b :: bs;
  ju_ref : frame_ref c' = low (base c) (frame_ref c);
  ju_max_csp : max_csp_num c' = max_csp_num c;
  ju_max : (max_stack_cell_num c <= max_stack_cell_num c')%nat
}.

(** Apart from the code and the tables of branches. *)
Definition same_stacks (c c' : WASMLoaderContext) : Prop :=
  frame_csp c' = frame_csp c /\ frame_ref c' = frame_ref c /\ max_csp_num c' = max_csp_num c
  /\ max_stack_cell_num c' = max_stack_cell_num c.

Lemma same_stacks_refl c : same_stacks c c.
Proof. done. Qed.

Lemma reset_Some ps qs c c0 c1 u c' :
  stkop ps qs c c0 -> same_stacks c0 c1 -> whole (base c) (frame_ref c) ->
  reset_polymorphic c1 = Some (u, c') ->
  same_code c1 c' /\ br_table_cache_list c' = br_table_cache_list c1 /\ exists b bs, jumped c c' b bs.
Proof.
  intros S (E1 & E2 & E3 & E4) W (u1 & c2 & (b & c3 & [-> [bs Hcsp]]%cur_block_Some & ->%set_Some)%bind_Some
    & ->%set_Some)%bind_Some.
  cbn. rewrite Hcsp. split; [done|]. split; [done|]. rewrite E1 in Hcsp. exists b, bs. split; cbn.
  - by rewrite <- (so_csp _ _ _ _ S).
  - done.
  - destruct (so_low _ _ _ _ S W) as [_ <-]. unfold low, stack_cell_num. rewrite E2.
    rewrite <- (base_csp _ _ (so_csp _ _ _ _ S)). unfold base. by rewrite Hcsp.
  - rewrite E3. apply S.
  - rewrite E4. apply S.
Qed.

Lemma on_top_pop ps ts c c1 :
  stkop ps [] c c1 -> whole (base c) (frame_ref c) -> live c ->
  on_top ts c1 -> on_top (ts ++ ps) c.
Proof.
  intros S W Hl (rest & E & Hr). destruct (so_live _ _ _ _ S W Hl) as (_ & r & E1 & E2 & E3).
  cbn in E2. exists rest. rewrite stk_app, <- app_assoc, <- E, E2. split; [done|].
  by rewrite <- (base_csp _ _ (so_csp _ _ _ _ S)).
Qed.

Lemma branch_block_Some ps o c c1 d c2 :
  stkop ps [] c c1 -> whole (base c) (frame_ref c) -> check_branch_block o c1 = Some (d, c2) ->
  exists n, leb_u n d /\ wrote n n c1 c2 /\ stkop ps [] c c2 /\ can_branch c ps d
    /\ (live c -> frame_ref c2 = frame_ref c1).
Proof.
  intros S W (d' & c3 & (n & Hn & Hm)%read_u_Some & H)%bind_Some.
  apply bind_Some in H as (u & c4 & Hbr & [-> ->]%ret_Some).
  pose proof (stkop_moved _ _ _ _ _ _ _ S Hm) as S3.
  pose proof (base_csp _ _ (so_csp _ _ _ _ S3)) as Hb.
  destruct (check_br_Some _ _ _ _ _ Hbr) as ([Hc1 Hc2] & S4 & b & Hlk & Hlv).
  { rewrite Hb. by apply S3. }
  assert (stkop ps [] c c4) as S5.
  { destruct S3 as [E1 E2 E3 E4 E5 E6 E7], S4 as [F1 F2 F3 F4 F5 F6 F7].
    rewrite Hb in *. split; [congruence..|lia|auto| |].
    - intros H0. destruct (E6 H0) as [H1 H2]. destruct (F6 H1) as [H3 H4]. by rewrite H4.
    - intros H0 Hl. destruct (E7 H0 Hl) as (Hl1 & r & R1 & R2 & R3).
      destruct (E6 H0) as [H1 _]. destruct (F7 H1 Hl1) as (Hl2 & r' & R4 & R5 & R6).
      split; [done|]. exists r. cbn in *. split_and!; [done|by rewrite R5, <- R4|done]. }
  exists n. split_and!; [done| |done| |].
  - unfold wrote. rewrite Hc1, Hc2. by destruct Hm.
  - exists b. rewrite <- (so_csp _ _ _ _ S3). split; [done|]. intros Hl.
    destruct (so_live _ _ _ _ S3 W Hl) as [Hl3 _]. destruct (Hlv Hl3) as [_ Ht]. exact (on_top_pop _ _ _ _ S3 W Hl Ht).
  - intros Hl. destruct (so_live _ _ _ _ S3 W Hl) as [Hl3 _]. destruct (Hlv Hl3) as [-> _].
    destruct Hm as [_ _ _ ->]. done.
Qed.

Section control.
Context (module : WASMModule) (func_type : WASMFuncType) (local_types : list value_type).
Context (MT : module_types module func_type local_types).
Context (c c1 c' : WASMLoaderContext) (u : ()) (W : whole (base c) (frame_ref c)).
Abbreviation from o := (emit [opb o] [opb o] [] [] c c1).

(** A round that jumps away. *)
Definition emits_jump : Prop :=
  exists orig bs n tables b bls,
    jump_code func_type c bs tables /\ wrote orig (bs ++ replicate n NOP) c c'
    /\ jumped c c' b bls /\ br_table_cache_list c' = tables ++ br_table_cache_list c.

Lemma jump_intro orig bs tables c2 ps qs u2 :
  jump_code func_type c bs tables -> wrote orig bs c c2 -> stkop ps qs c c2 -> tables = [] ->
  reset_polymorphic c2 = Some (u2, c') -> emits_jump.
Proof.
  intros Hj Hw S -> H. destruct (reset_Some _ _ _ _ _ _ _ S (same_stacks_refl c2) W H) as ([H1 H2] & Hca & b & bls & HJ).
  exists orig, bs, 0%nat, [], b, bls. cbn. rewrite app_nil_r, Hca. split_and!; [done| |done|apply S].
  unfold wrote in *. by rewrite H1, H2.
Qed.

Lemma unreachable_emits : from WASM_OP_UNREACHABLE -> reset_polymorphic c1 = Some (u, c') -> emits_jump.
Proof. intros K H. eapply jump_intro; [constructor|by eapply emit_wrote|apply K|done|done]. Qed.

Lemma return_emits : from WASM_OP_RETURN -> handle_op_return func_type c1 = Some (u, c') -> emits_jump.
Proof.
  intros K (u1 & c2 & Hp & H)%bind_Some. em. rewrite app_nil_r in *.
  match goal with K : emit _ _ _ _ c c2 |- _ => rename K into K2 end.
  eapply jump_intro; [|by eapply emit_wrote|apply K2|done|done]. apply jc_return.
  intros Hl. destruct (so_live _ _ _ _ (em_stk _ _ _ _ _ _ K2) W Hl) as (_ & r & E1 & E2 & E3).
  by exists r.
Qed.

Lemma br_emits : from WASM_OP_BR ->
  (_ ← check_branch_block WASM_OP_BR; reset_polymorphic) c1 = Some (u, c') -> emits_jump.
Proof.
  intros K (d & c2 & Hb & H)%bind_Some.
  destruct (branch_block_Some _ _ _ _ _ _ (em_stk _ _ _ _ _ _ K) W Hb) as (n & Hn & Hw & S & Hcan & _).
  eapply (jump_intro (opb WASM_OP_BR :: n) (opb WASM_OP_BR :: n)); [by eapply jc_br| |exact S|done|done].
  destruct Hw as (R & D & L), K as [R1 D1 L1 _]. unfold wrote. rewrite R1, R, D, D1, <- app_assoc. done.
Qed.

Lemma br_if_emits : from WASM_OP_BR_IF ->
  (Loader.POP_I32;; _ ← check_branch_block WASM_OP_BR_IF; mret tt) c1 = Some (u, c') ->
  exists n d, leb_u n d /\ can_branch c [VALUE_TYPE_I32] d
    /\ emit (opb WASM_OP_BR_IF :: n) (opb WASM_OP_BR_IF :: n) [VALUE_TYPE_I32] [] c c'.
Proof.
  intros K (u1 & c2 & Hp & (d & c3 & Hb & [-> ->]%ret_Some)%bind_Some)%bind_Some. em.
  match goal with K : emit _ _ _ _ c c2 |- _ => rename K into K2 end.
  destruct (branch_block_Some _ _ _ _ _ _ (em_stk _ _ _ _ _ _ K2) W Hb) as (n & Hn & Hw & S & Hcan & _).
  exists n, d. split_and!; [done..|]. destruct Hw as (R & D & L), K2 as [R1 D1 L1 _].
  split; [by rewrite R1, R|by rewrite D, D1, <- app_assoc|done|done].
Qed.

(** ** Tables of branches *)

(** The code and the table after the targets [ds]; the rest of the bytes that
    were read is still behind them. *)
Definition table_inv (n : bytes) (c2 : WASMLoaderContext) (cache : option (list Z)) (p_depth : nat)
    (ds : list Z) : Prop :=
  stkop [VALUE_TYPE_I32] [] c c2 /\ Forall (can_branch c [VALUE_TYPE_I32]) ds
  /\ exists o junk, p_rest c = (opb WASM_OP_BR_TABLE :: n ++ o) ++ p_rest c2
     /\ match cache with
        | None => p_done c2 = p_done c ++ opb WASM_OP_BR_TABLE :: n ++ (byte_of_Z <$> ds) ++ junk
                  /\ length o = (length ds + length junk)%nat /\ Forall (fun d => 0 <= d < 256) ds
                  /\ p_depth = (length (p_done c) + S (length n) + length ds)%nat
        | Some depths => depths = ds /\ length o = length junk
                         /\ p_done c2 = p_done c ++ opb EXT_OP_BR_TABLE_CACHE :: n ++ junk
        end.

Lemma insert_middle {A} (l1 l2 l3 : list A) i x :
  i = (length l1 + length l2)%nat -> (1 <= length l3)%nat ->
  <[i := x]> (l1 ++ l2 ++ l3) = l1 ++ l2 ++ x :: drop 1 l3.
Proof.
  intros -> H. destruct l3 as [|y l3]; [cbn in H; lia|].
  rewrite insert_app_r_alt by lia. rewrite insert_app_r_alt by lia.
  by replace (_ - _ - _)%nat with 0%nat by lia.
Qed.

Lemma leb_u_nonneg n v : leb_u n v -> 0 <= v < 2 ^ 32.
Proof.
  intros [H _ _]. specialize (H []). rewrite read_leb_uint32_spec in H. unfold leb_spec in H.
  destruct (leb_prefix _) as [bs|]; [|by destruct (Nat.leb _ _)].
  destruct (_ && _) eqn:E; [|done]. injection H as <- _. apply andb_true_iff in E as [E1 E2]. lia.
Qed.

Lemma bytes_of_depths ds : Forall (fun d => 0 <= d < 256) ds -> Z_of_byte <$> (byte_of_Z <$> ds) = ds.
Proof.
  induction 1 as [|d ds Hd _ IH]; [done|]. cbn. rewrite Z_of_byte_of_Z, Z.mod_small by lia. by f_equal.
Qed.

(** The next target [d] was read from the bytes [m]. *)
Lemma table_next n m cache p_depth p_opcode p_begin ds d i c2 c3 r c4 :
  p_opcode = length (p_done c) -> p_begin = (length (p_done c) + S (length n))%nat -> i = zlen ds ->
  table_inv n c2 cache p_depth ds -> leb_u m d -> wrote m m c2 c3 -> stkop [VALUE_TYPE_I32] [] c c3 ->
  can_branch c [VALUE_TYPE_I32] d ->
  match cache with
  | Some br_depths => mret (Some (br_depths ++ [d]), p_depth)
  | None =>
      if 255 <? d then
        put_opcode p_opcode EXT_OP_BR_TABLE_CACHE;;
        mret (Some ((Z_of_byte <$> (p_done c3).[p_begin,+ Z.to_nat i]) ++ [d]), p_depth)
      else
        put_code p_depth (byte_of_Z d);;
        mret (None, S p_depth)
  end c3 = Some (r, c4) ->
  table_inv n c4 (fst r) (snd r) (ds ++ [d]).
Proof.
  intros Hop Hbe Hi (_ & Hcan & o & junk & HR & Hc) Hm (R & D & _) S Hd H.
  pose proof (leb_u_nonneg _ _ Hm) as Hd0. pose proof (leb_is_length _ _ _ _ Hm) as Hml.
  assert (Forall (can_branch c [VALUE_TYPE_I32]) (ds ++ [d])) as Hcan'.
  { apply Forall_app. by split; [|constructor]. }
  assert (p_rest c = (opb WASM_OP_BR_TABLE :: n ++ o ++ m) ++ p_rest c3) as HR'.
  { rewrite HR, R. cbn. by rewrite <- !app_assoc. }
  destruct cache as [br|].
  - destruct Hc as (-> & Hlen & HD). linv. split_and!; [done..|].
    exists (o ++ m), (junk ++ m). split; [done|]. cbn. split; [done|]. rewrite !length_app. split; [lia|].
    by rewrite D, HD, <- app_assoc; cbn; rewrite <- app_assoc.
  - destruct Hc as (HD & Hlen & Hr & Hp).
    assert (p_done c3 = p_done c ++ opb WASM_OP_BR_TABLE :: n ++ (byte_of_Z <$> ds) ++ junk ++ m) as HD3.
    { rewrite D, HD, <- app_assoc. cbn. by rewrite <- !app_assoc. }
    destruct (Z.ltb_spec 255 d).
    + apply bind_Some in H as (u1 & c5 & ->%set_Some & H). linv.
      split_and!; [by apply stkop_set_p|done|]. exists (o ++ m), ((byte_of_Z <$> ds) ++ junk ++ m).
      split; [done|]. cbn [fst p_done set_p]. split_and!.
      * f_equal. rewrite HD3.
        replace (p_done c ++ opb WASM_OP_BR_TABLE :: n ++ (byte_of_Z <$> ds) ++ junk ++ m)
          with ((p_done c ++ opb WASM_OP_BR_TABLE :: n) ++ (byte_of_Z <$> ds) ++ junk ++ m)
          by (rewrite <- app_assoc; done).
        rewrite drop_app_length' by (rewrite length_app; cbn; lia).
        rewrite take_app_length' by (rewrite length_fmap; lia).
        by rewrite bytes_of_depths.
      * rewrite !length_app, length_fmap. lia.
      * rewrite HD3. replace (length (p_done c)) with (length (p_done c) + 0)%nat by lia.
        by rewrite insert_app_r.
    + apply bind_Some in H as (u1 & c5 & ->%set_Some & H). linv.
      split_and!; [by apply stkop_set_p|done|].
      exists (o ++ m), (drop 1 (junk ++ m)). split; [done|]. cbn [fst snd p_done set_p].
      rewrite HD3, fmap_app, !length_app, length_drop, length_app. cbn [length]. split_and!; [|lia| |lia].
      * replace (p_done c ++ opb WASM_OP_BR_TABLE :: n ++ (byte_of_Z <$> ds) ++ junk ++ m)
          with ((p_done c ++ opb WASM_OP_BR_TABLE :: n) ++ (byte_of_Z <$> ds) ++ junk ++ m)
          by (rewrite <- app_assoc; done).
        rewrite insert_middle; [|rewrite length_app, length_fmap; cbn; lia|rewrite length_app; lia].
        rewrite <- app_assoc. cbn. rewrite <- app_assoc. done.
      * apply Forall_app. split; [done|]. constructor; [lia|done].
Qed.

Lemma table_targets n left arity i p_opcode p_begin p_depth cache ds c2 r c3 :
  p_opcode = length (p_done c) -> p_begin = (length (p_done c) + S (length n))%nat ->
  i = zlen ds -> table_inv n c2 cache p_depth ds ->
  br_table_targets left arity i p_opcode p_begin p_depth cache c2 = Some (r, c3) ->
  exists ds', zlen ds' = i + Z.of_nat left /\ table_inv n c3 (fst r) (snd r) ds'.
Proof.
  intros Hop Hbe. revert i p_depth cache ds c2.
  induction left as [|left IH]; intros i p_depth cache ds c2 Hi Inv H.
  { apply ret_Some in H as [-> ->]. exists ds. split; [lia|done]. }
  cbn in H.
  apply bind_Some in H as ([nv nl] & c4 & [-> _]%peek_leb_Some & H).
  apply bind_Some in H as (ar & c4 & (csp & c5 & [-> ->]%get_Some
    & (b & c6 & [_ ->]%some_Some & [-> ->]%ret_Some)%bind_Some)%bind_Some & H).
  apply bind_Some in H as (u1 & c4 & [_ ->]%check_Some & H).
  apply bind_Some in H as (d & c4 & Hb & H).
  destruct (branch_block_Some _ _ _ _ _ _ (proj1 Inv) W Hb) as (m & Hm & Hw & S & Hcan & _).
  apply bind_Some in H as (dn & c5 & [-> ->]%get_Some & H).
  apply bind_Some in H as (r1 & c5 & Hr & H).
  pose proof (table_next _ _ _ _ _ _ _ _ _ _ _ _ _ Hop Hbe Hi Inv Hm Hw S Hcan Hr) as Inv'.
  assert (i + 1 = zlen (ds ++ [d])) as Hi' by (subst i; rewrite length_app; cbn [length]; lia).
  destruct (IH _ _ _ _ _ Hi' Inv' H) as (ds' & Hl & Hinv). exists ds'. split; [lia|exact Hinv].
Qed.

Lemma br_table_emits : from WASM_OP_BR_TABLE ->
  Loader.handle_op_br_table c1 = Some (u, c') -> emits_jump.
Proof.
  intros K H. unfold Loader.handle_op_br_table in H.
  apply bind_Some in H as (p & c2 & [-> ->]%get_Some & H).
  assert (length (p_done c1) - 1 = length (p_done c))%nat as Hop.
  { rewrite (em_done _ _ _ _ _ _ K), length_app. cbn. lia. }
  apply bind_Some in H as (count & c2 & Hn & H). apply bind_Some in H as (u2 & c3 & Hp & H). em.
  match goal with K : emit _ (_ :: ?x) _ _ c c3, L : leb_u ?x _ |- _ =>
    rename K into K3, x into n, L into Hn' end.
  apply bind_Some in H as (r & c4 & [-> ->]%get_Some & H).
  apply bind_Some in H as (num & c4 & [-> ->]%get_Some & H).
  apply bind_Some in H as (depth & c4 & [_ ->]%some_Some & H).
  apply bind_Some in H as (ar & c4 & (csp & c5 & [-> ->]%get_Some
    & (b & c6 & [_ ->]%some_Some & [-> ->]%ret_Some)%bind_Some)%bind_Some & H).
  apply bind_Some in H as (p & c4 & [-> ->]%get_Some & H).
  apply bind_Some in H as ([r pd] & c4 & Ht & H).
  apply bind_Some in H as (u3 & c5 & Hf & H). cbn [fst snd] in Hf.
  assert (length (p_done c3) = length (p_done c) + S (length n))%nat as Hbe.
  { rewrite (em_done _ _ _ _ _ _ K3), length_app. done. }
  eapply (table_targets n _ _ _ _ _ _ _ [] c3) in Ht as (ds & Hds & S & Hcan & o & junk & HR & Hc);
    [|exact Hop|exact Hbe|done|].
  2:{ split_and!; [apply K3|constructor|]. exists [], []. rewrite app_nil_r. destruct K3 as [R D L _].
      split; [done|]. cbn. rewrite !app_nil_r. rewrite D, length_app in Hbe |- *. cbn. split_and!; [done..|lia]. }
  pose proof (leb_u_nonneg _ _ Hn') as Hpos.
  assert (zlen ds = count + 1) as Hds' by (rewrite Hds; lia). clear Hds.
  cbn [fst snd] in Hc. destruct r as [depths|].
  - destruct Hc as (-> & Hlen & HD). apply bind_Some in Hf as (u4 & c6 & ->%set_Some & ->%set_Some).
    eapply (reset_Some [VALUE_TYPE_I32] [] c c4) in H as ([H1 H2] & Hca & b' & bls & HJ); [|done..].
    exists (opb WASM_OP_BR_TABLE :: n ++ o), (opb EXT_OP_BR_TABLE_CACHE :: n), (length junk),
      [(length (p_done c), ds)], b', bls.
    split_and!; [by eapply jc_br_table_cache| |done|].
    + cbn [p_done p_rest set_p] in H1, H2. unfold wrote. rewrite H1, H2. split; [done|].
      rewrite Hbe. cbn. rewrite HD.
      replace (p_done c ++ opb EXT_OP_BR_TABLE_CACHE :: n ++ junk)
        with ((p_done c ++ opb EXT_OP_BR_TABLE_CACHE :: n) ++ junk) by (rewrite <- app_assoc; done).
      rewrite take_app_length' by (rewrite length_app; cbn; lia).
      rewrite <- app_assoc. cbn. rewrite !length_app, length_replicate. cbn. split; [|lia].
      repeat f_equal. lia.
    + rewrite Hca. cbn. rewrite Hop. f_equal. by apply (so_cache _ _ _ _ S).
  - destruct Hc as (HD & Hlen & Hr & ->). apply set_Some in Hf as ->.
    eapply (reset_Some [VALUE_TYPE_I32] [] c c4) in H as ([H1 H2] & Hca & b' & bls & HJ); [|done..].
    exists (opb WASM_OP_BR_TABLE :: n ++ o), (opb WASM_OP_BR_TABLE :: n ++ (byte_of_Z <$> ds)),
      (length junk), [], b', bls.
    split_and!; [by eapply jc_br_table| |done|].
    + cbn [p_done p_rest set_p] in H1, H2. unfold wrote. rewrite H1, H2. split; [done|].
      cbn. rewrite HD.
      replace (p_done c ++ opb WASM_OP_BR_TABLE :: n ++ (byte_of_Z <$> ds) ++ junk)
        with ((p_done c ++ opb WASM_OP_BR_TABLE :: n ++ (byte_of_Z <$> ds)) ++ junk)
        by (rewrite <- app_assoc; cbn; by rewrite <- app_assoc).
      rewrite take_app_length' by (rewrite length_app; cbn; rewrite length_app, length_fmap; lia).
      rewrite <- app_assoc. cbn. rewrite !length_app, length_replicate. cbn.
      rewrite !length_app, length_fmap. split; [|lia]. repeat f_equal. lia.
    + rewrite Hca. by apply (so_cache _ _ _ _ S).
Qed.

(** ** Blocks *)

(** The start of a block: a type in one byte, or the index of a type. *)
Inductive block_code (o : WASMOpcode) : bytes -> BlockType -> Prop :=
| bc_value b t : is_byte_a_type b = Some t -> block_code o [opb o; b] (value_block t)
| bc_type n i t : leb_u n i -> types module !! Z.to_nat i = Some t ->
    block_code o (opb (ext_block_opcode o) :: n) (type_block t).

(** The parameters were popped, and are pushed in the new block. *)
Record opened (o : WASMOpcode) (ps : list value_type) (type : BlockType) (c2 : WASMLoaderContext)
    : Prop := {
  op_stk : stkop (block_type_get_param_types type ++ ps) [] c c2;
  op_csp : frame_csp c' = Block (block_label o) type (length (p_done c')) None (stack_cell_num c2) false
                          :: frame_csp c;
  op_ref : frame_ref c' = stk (block_type_get_param_types type) ++ frame_ref c2;
  op_max_csp : (max_csp_num c <= max_csp_num c')%nat;
  op_csp_num : (csp_num c' <= max_csp_num c')%nat;
  op_max : (max_stack_cell_num c <= max_stack_cell_num c')%nat;
  op_bound : (stack_cell_num c <= max_stack_cell_num c)%nat ->
             (stack_cell_num c' <= max_stack_cell_num c')%nat;
  op_cache : br_table_cache_list c' = br_table_cache_list c
}.

Lemma block_params_Some l ps c2 u2 c3 :
  stkop ps [] c c2 -> pop_block_params l c2 = Some (u2, c3) ->
  same_code c2 c3 /\ stkop (rev l ++ ps) [] c c3.
Proof.
  revert ps c2. induction l as [|t l IH]; intros ps c2 S H; cbn in H; [by linv|].
  apply bind_Some in H as (b & c0 & [-> [bs Hcsp]]%cur_block_Some & H).
  apply bind_Some in H as (n & c0 & [-> _]%available_Some & H).
  destruct (_ && _) eqn:Hp.
  - linv. split; [done|]. eapply stkop_dead; [done|]. apply andb_true_iff in Hp as [_ Hp].
    eapply dead_polymorphic; [|exact Hp]. by rewrite <- (so_csp _ _ _ _ S).
  - apply bind_Some in H as (u3 & c4 & Hpop & H). cbn. rewrite <- app_assoc.
    destruct (IH (t :: ps) c4) as [H1 H2]; [by eapply stkop_pop|done|].
    split; [|done]. eapply same_code_trans; [by eapply pop_code|done].
Qed.

Lemma push_csp_Some label type start c2 u2 c3 :
  wasm_loader_push_frame_csp label type start c2 = Some (u2, c3) ->
  exists max, c3 = set_max_csp_num max (set_frame_csp
      (Block label type start None (stack_cell_num c2) false :: frame_csp c2) c2)
    /\ (max_csp_num c2 <= max)%nat /\ (csp_num c3 <= max)%nat.
Proof.
  unfold wasm_loader_push_frame_csp. intros H. linv.
  cbn [max_csp_num set_frame_csp] in H. unfold csp_num in *. cbn [frame_csp set_frame_csp] in H.
  destruct (Nat.ltb_spec (max_csp_num c2)
    (length (Block label type start None (stack_cell_num c2) false :: frame_csp c2))) as [Hlt|Hlt];
    rewrite ?(proj2 (Nat.ltb_lt _ _) Hlt), ?(proj2 (Nat.ltb_ge _ _) Hlt) in H; linv.
  - eexists. split; [done|]. cbn in *. lia.
  - exists (max_csp_num c2). split; [by destruct c2|]. cbn in *. lia.
Qed.

Lemma type_not_any_block type :
  (exists t, type = value_block t /\ t <> VALUE_TYPE_ANY) \/ (exists i t, types module !! i = Some t /\ type = type_block t) ->
  Forall not_any (block_type_get_param_types type) /\ Forall not_any (block_type_get_result_types type).
Proof.
  intros [(t & -> & Ht)|(i & t & Hi & ->)]; cbn; [|by eapply type_not_any].
  split; [done|]. by destruct t; repeat constructor.
Qed.

Lemma is_byte_a_type_not_any b t : is_byte_a_type b = Some t -> t <> VALUE_TYPE_ANY.
Proof. destruct b; intros [= <-]; done. Qed.

Lemma block_code_not_any o bs type : block_code o bs type ->
  Forall not_any (block_type_get_param_types type) /\ Forall not_any (block_type_get_result_types type).
Proof.
  intros [b t Hb|n i t Hn Hi]; apply type_not_any_block; [left|right; eauto].
  eauto using is_byte_a_type_not_any.
Qed.

Lemma block_emits o ps c2 :
  o = WASM_OP_BLOCK \/ o = WASM_OP_LOOP \/ o = WASM_OP_IF ->
  emit [opb o] [opb o] ps [] c c2 -> handle_op_block_and_loop module o c2 = Some (u, c') ->
  exists orig bs type c3, block_code o bs type /\ wrote orig bs c c' /\ opened o ps type c3.
Proof.
  intros Ho K H. unfold handle_op_block_and_loop in H.
  apply bind_Some in H as (p & c3 & [-> ->]%get_Some & H).
  apply bind_Some in H as (b & c3 & (r & c4 & [-> ->]%get_Some & [Hb ->]%some_Some)%bind_Some & H).
  apply bind_Some in H as (type & c3 & Ht & H).
  assert (exists orig bs, block_code o bs type /\ emit orig bs ps [] c c3) as (orig & bs & Hbc & K3).
  { destruct (is_byte_a_type b) as [vt|] eqn:Eb.
    - apply bind_Some in Ht as (u3 & c5 & Ha & [-> ->]%ret_Some).
      destruct (p_rest c2) as [|b' r] eqn:Er; [done|]. injection Hb as ->.
      apply set_Some in Ha. assert (moved c2 c5 [b] [b]) as Hm.
      { subst c5. rewrite Er. split; cbn; rewrite ?Er; done. }
      do 2 eexists. split; [by apply bc_value|]. exact (emit_moved _ _ _ _ _ _ _ _ _ K Hm).
    - apply bind_Some in Ht as (i & c5 & Hi & Ht). apply bind_Some in Ht as (t & c6 & Hti & Ht).
      apply bind_Some in Ht as (u3 & c7 & Hput & [-> ->]%ret_Some).
      unfold check_function_type in Hti. destruct (Z.ltb_spec i 0); [done|]. linv. 
      apply read_s32_Some in Hi as (n & Hn & Hm). 
      pose proof (emit_moved _ _ _ _ _ _ _ _ _ K Hm) as K5.
      eapply (emit_put _ _ _ _ _ _ 0 _ _ _ _ K5) in Hput.
      2:{ rewrite (em_done _ _ _ _ _ _ K), length_app. cbn. lia. }
      do 2 eexists. split; [|exact Hput]. eapply bc_type; [by eapply int32_is_uint32|done]. }
  apply bind_Some in H as (u3 & c4 & Hpop & H).
  destruct (block_params_Some _ _ _ _ _ (em_stk _ _ _ _ _ _ K3) Hpop) as [Hcode S4].
  rewrite rev_involutive in S4.
  apply bind_Some in H as (p & c5 & [-> ->]%get_Some & H).
  apply bind_Some in H as (u4 & c5 & (max & -> & Hmax & Hnum)%push_csp_Some & H).
  pose proof (push_types_code _ _ _ _ H) as [Hc1 Hc2].
  pose proof (stkop_push_types _ _ _ _ _ _ _ (stkop_refl _) H) as S5. cbn in S5.
  specialize (S5 (or_introl (proj1 (block_code_not_any _ _ _ Hbc)))).
  exists orig, bs, type, c4. split; [done|]. split.
  { destruct (emit_wrote _ _ _ _ _ _ K3) as (R & D & L), Hcode as [E1 E2]. cbn in Hc1, Hc2.
    unfold wrote. rewrite Hc1, Hc2, E1, E2. done. }
  destruct S4 as [F1 F2 F3 F4 F5 F6 F7], S5 as [G1 G2 G3 G4 G5 G6 G7].
  unfold csp_num, stack_cell_num in *. cbn in *.
  split; try done.
  - rewrite G1, Hc1, F1. done.
  - by rewrite (push_types_ref _ _ _ _ H).
  - lia.
  - unfold csp_num. rewrite G1, G2. done.
  - lia.
  - intros Hs. unfold stack_cell_num in *. auto.
  - congruence.
Qed.

End control.

(** What stays, up to the stacks themselves. *)
Record bounded (c c' : WASMLoaderContext) : Prop := {
  bd_max_csp : max_csp_num c' = max_csp_num c;
  bd_max : (max_stack_cell_num c <= max_stack_cell_num c')%nat;
  bd_bound : (stack_cell_num c <= max_stack_cell_num c)%nat ->
             (stack_cell_num c' <= max_stack_cell_num c')%nat;
  bd_cache : br_table_cache_list c' = br_table_cache_list c
}.

(** The first part of an [if] is done, and the second one starts. *)
Record else_done (c c' : WASMLoaderContext) (b : BranchBlock) (bs : list BranchBlock) (p : nat)
    : Prop := {
  el_csp : frame_csp c = b :: bs;
  el_outer : bs <> [];
  el_label : blk_label_type b = LABEL_TYPE_IF;
  el_none : else_addr b = None;
  el_csp' : frame_csp c' = set_polymorphic false (set_else_addr (Some p) b) :: bs;
  el_ref : frame_ref c' = stk (block_type_get_param_types (block_type b)) ++ low (base c) (frame_ref c);
  el_live : live c -> frame_ref c = stk (block_type_get_result_types (block_type b))
                                      ++ low (base c) (frame_ref c);
  el_bounded : bounded c c'
}.

Lemma low_low_base b bs c results l :
  frame_csp c = b :: bs -> (base c <= length l)%nat ->
  drop (length (stk results ++ low (base c) l) - blk_stack_cell_num b) (stk results ++ low (base c) l)
  = low (base c) l.
Proof.
  intros Hcsp Hl. replace (blk_stack_cell_num b) with (base c) by (unfold base; by rewrite Hcsp).
  fold (low (base c) (stk results ++ low (base c) l)).
  rewrite low_app by (rewrite low_length; lia). by rewrite low_low by lia.
Qed.

Lemma else_Some p c u c' :
  handle_op_else p c = Some (u, c') -> whole (base c) (frame_ref c) ->
  same_code c c' /\ exists b bs, else_done c c' b bs (p - 1).
Proof.
  intros H W. unfold handle_op_else in H.
  apply bind_Some in H as (n & c0 & [-> ->]%get_Some & H).
  apply bind_Some in H as (u1 & c0 & [Hn%Nat.leb_le ->]%check_Some & H).
  apply bind_Some in H as (b & c0 & [-> [bs Hcsp]]%cur_block_Some & H).
  apply bind_Some in H as (u2 & c0 & [Hl%bool_decide_eq_true ->]%check_Some & H).
  apply bind_Some in H as (u3 & c0 & [Hel%bool_decide_eq_true ->]%check_Some & H).
  apply bind_Some in H as (u4 & c2 & Hcb & H).
  destruct (check_block_stack_Some _ _ _ _ _ Hcb Hcsp W) as ([D1 D2] & E1 & E2 & E3 & E4 & E5 & E6 & E7).
  apply bind_Some in H as (u5 & c3 & ->%set_Some & H).
  apply bind_Some in H as (u6 & c4 & (b' & c5 & [-> [bs' Hcsp']]%cur_block_Some & ->%set_Some)%bind_Some & H).
  apply bind_Some in H as (u7 & c5 & ->%set_Some & H).
  rewrite E1, Hcsp in Hcsp', H. cbn in Hcsp', H. injection Hcsp' as <- <-.
  rewrite E6 in H.
  rewrite (low_low_base _ _ _ _ _ Hcsp (proj1 W)) in H.
  pose proof (push_types_code _ _ _ _ H) as [Hc1 Hc2]. cbn in Hc1, Hc2.
  assert (whole (base c) (low (base c) (frame_ref c))) as Wl by (apply whole_low, W).
  split; [split; congruence|]. exists b, bs.
  assert (bounded c c' /\ frame_csp c' = set_polymorphic false (set_else_addr (Some (p - 1)%nat) b) :: bs) as [B' C'].
  { clear -H E1 E2 E3 E4 W. revert H. generalize (block_type_get_param_types (block_type b)) as ts.
    intros ts H.
    assert (forall ts c0 u c', push_types ts c0 = Some (u, c') -> bounded c0 c' /\ frame_csp c' = frame_csp c0) as Hp.
    { clear. induction ts as [|t ts IH]; intros c0 u c' H; cbn in H.
      - linv. done.
      - apply bind_Some in H as (u1 & c1 & (max & -> & Hm & Hn)%push_Some & H).
        destruct (IH _ _ _ H) as [[F1 F2 F3 F4] F5]. cbn in *. split; [|done].
        split; cbn; try done; [lia|]. intros _. apply F3. done. }
    destruct (Hp _ _ _ _ H) as [[F1 F2 F3 F4] F5]. cbn in *. split; [|done].
    split; [congruence|lia| |congruence]. intros Hs. apply F3. unfold stack_cell_num in *. cbn.
    rewrite low_length by apply W. pose proof (proj1 W). lia. }
  split; try done.
  - intros ->. unfold csp_num in Hn. rewrite Hcsp in Hn. cbn in Hn. lia.
  - by rewrite (push_types_ref _ _ _ _ H).
  - intros Hlv. specialize (E7 Hlv) as ->. done.
Qed.

(** The end of a block, and the first reading of the end of an [if] without
    [else]. *)
Record end_done (c c' : WASMLoaderContext) (b : BranchBlock) (bs : list BranchBlock) : Prop := {
  en_csp : frame_csp c = b :: bs;
  en_final : ~ (blk_label_type b = LABEL_TYPE_IF /\ else_addr b = None);
  en_csp' : frame_csp c' = bs;
  en_rest : bs = [] -> p_rest c' = [];
  en_ref : frame_ref c' = stk (block_type_get_result_types (block_type b)) ++ low (base c) (frame_ref c);
  en_live : live c -> frame_ref c = stk (block_type_get_result_types (block_type b))
                                      ++ low (base c) (frame_ref c);
  en_bounded : bounded c c'
}.

Lemma end_Some c c1 u c' :
  moved c c1 [opb WASM_OP_END] [opb WASM_OP_END] -> whole (base c) (frame_ref c) ->
  Loader.handle_op_end c1 = Some (u, c') ->
  (exists b bs, wrote [opb WASM_OP_END] [opb WASM_OP_END] c c' /\ end_done c c' b bs)
  \/ (same_code c c' /\ exists b bs p, else_done c c' b bs p).
Proof.
  intros [R D _ S] W H. unfold Loader.handle_op_end in H.
  apply bind_Some in H as (b & c0 & [-> [bs Hcsp]]%cur_block_Some & H).
  apply bind_Some in H as (u4 & c2 & Hcb & H).
  assert (whole (base c1) (frame_ref c1)) as W1 by (by rewrite S).
  destruct (check_block_stack_Some _ _ _ _ _ Hcb Hcsp W1) as ([D1 D2] & E1 & E2 & E3 & E4 & E5 & E6 & E7).
  assert (forall c3, c3 = set_p (p_done c3) (p_rest c3) c2 -> bounded c c3) as Hbd.
  { intros c3 ->. rewrite S in E2, E3, E4, E5. split; cbn in *; done. }
  assert (live c -> frame_ref c = stk (block_type_get_result_types (block_type b))
      ++ low (base c) (frame_ref c)) as Hlive.
  { intros Hl. rewrite S in E6, E7. rewrite (E7 Hl) in E6. exact E6. }
  rewrite S in Hcsp, E1, E6. cbn in Hcsp, E1, E6. change (base (set_p _ _ c)) with (base c) in E6.
  destruct (_ && _) eqn:Hif.
  - right. apply bind_Some in H as (u5 & c3 & ->%set_Some & H).
    apply bind_Some in H as (p & c3 & [-> ->]%get_Some & H).
    set (c3 := set_p _ _ c2) in H.
    assert (whole (base c3) (frame_ref c3) /\ base c3 = base c) as [W3 Hb3].
    { assert (base c3 = base c) as -> by (apply base_csp; exact E1).
      split; [|done]. subst c3. cbn. rewrite E6. apply whole_pushes, whole_low, W. }
    destruct (else_Some _ _ _ _ H W3) as ([F1 F2] & b' & bs' & El).
    split.
    + split; rewrite ?F1, ?F2; subst c3; cbn.
      * rewrite D1, D, length_app. cbn. rewrite Nat.add_sub. by rewrite take_app_length.
      * rewrite D1, D, length_app. cbn. rewrite Nat.add_sub. rewrite drop_app_length, D2, R. done.
    + exists b', bs'. destruct El as [G1 G2 G3 G4 G5 G6 G7 G8]. subst c3. cbn in G1, G6.
      rewrite E1, Hcsp in G1. injection G1 as <- <-. eexists. split; try done.
      * rewrite Hb3, E6 in G6. rewrite G6. f_equal. 
        rewrite low_app by (rewrite low_length; [lia|apply W]). apply low_low. pose proof (proj1 W). lia.
      * destruct (Hbd (set_p (p_done c2) (p_rest c2) c2)) as [I1 I2 I3 I4]; [done|].
        destruct G8 as [J1 J2 J3 J4]. unfold stack_cell_num in *. cbn in *.
        split; [congruence|lia|auto|congruence].
  - left. apply bind_Some in H as (u5 & c3 & Hpop & H).
    apply bind_Some in Hpop as (n & c4 & [-> ->]%get_Some & Hpop).
    apply bind_Some in Hpop as (u6 & c4 & [_ ->]%check_Some & ->%set_Some).
    linv. cbn in *. exists b, bs. rewrite E1, Hcsp in *. cbn in *. split.
    + unfold wrote. cbn. by rewrite D1, D2, R.
    + split; try done.
      * intros [Ha Hb]. rewrite !bool_decide_eq_true_2 in Hif by done. done.
      * intros ->. cbn in *. destruct (p_rest c2); [done|]. cbn in *. done.
      * destruct (Hbd (set_p (p_done c2) (p_rest c2) c2)) as [I1 I2 I3 I4]; [done|]. by split.
Qed.
