(* ===== verification/SkipSpec.v ===== *)
(** * Skipping over the instructions of the rewritten code

    [wasm_loader_find_block_addr] walks over each instruction of [Bytecode.v]
    exactly to its end, perhaps with the padding behind it. *)

From S2P Require Import Prelude Memory Leb LebSpec Opcode Loader LoaderSpec Bytecode CheckSpec CheckControl BlockAddr.

(** The opcodes that start, split or end a block. *)
Definition structural (o : WASMOpcode) : bool :=
  match o with
  | WASM_OP_BLOCK | WASM_OP_LOOP | WASM_OP_IF | EXT_OP_BLOCK | EXT_OP_LOOP | EXT_OP_IF
  | WASM_OP_ELSE | WASM_OP_END => true
  | _ => false
  end.

Lemma skip_leb_prefix bs x : leb_prefix bs = Some bs -> skip_leb (bs ++ x) = Ret x.
Proof.
  induction bs as [|b bs IH]; [done|]. cbn [leb_prefix app skip_leb]. intros H.
  assert ((Z.land (Z_of_byte b) 128 =? 0) = (Z_of_byte b <? 128)) as -> by (by destruct b).
  destruct (Z_of_byte b <? 128).
  - injection H as <-. done.
  - destruct (leb_prefix bs) as [bs'|] eqn:E; [|done]. injection H as ->. by apply IH.
Qed.

Lemma skip_leb_is reader ireader bs v x : leb_is reader ireader bs v -> skip_leb (bs ++ x) = Ret x.
Proof. intros [_ _ H]. by apply skip_leb_prefix. Qed.

Lemma read_count_is bs v x : leb_u bs v -> read_count (bs ++ x) = Ret (Some (v, x)).
Proof. intros [H _ _]. unfold read_count. by rewrite H. Qed.

Lemma skip_bytes_app n b x : length b = n -> skip_bytes n (b ++ x) = Ret x.
Proof.
  intros <-. unfold skip_bytes. rewrite length_app.
  destruct (Nat.leb_spec (length b) (length b + length x)); [|lia]. by rewrite drop_app_length.
Qed.

(** An instruction whose immediates end before [x], up to the padding that is
    skipped with them. *)
Definition skips (bs : bytes) : Prop :=
  exists o tl, bs = opcode_byte o :: tl /\ structural o = false
    /\ forall x, skip_immediates o (tl ++ x) = Ret (Some x).

Lemma skips_intro o tl :
  structural o = false -> (forall x, skip_immediates o (tl ++ x) = Ret (Some x)) -> skips (opcode_byte o :: tl).
Proof. intros H1 H2. by exists o, tl. Qed.

Lemma numeric_skips o n pop push : numeric_signature o = Some (n, pop, push) -> skips [opcode_byte o].
Proof. intros H. apply skips_intro; destruct o; try discriminate H; done. Qed.

Lemma memory_skips o t s a va f vf :
  memory_signature o = Some (t, s) -> leb_u a va -> leb_u f vf -> skips (opcode_byte o :: a ++ f).
Proof.
  intros H Ha Hf.
  assert (is_numeric_opcode o = false /\ is_memory_opcode o = true /\ structural o = false) as (H1 & H2 & H3).
  { by destruct o. }
  apply skips_intro; [done|]. intros x. unfold skip_immediates. rewrite H1, H2, <- app_assoc. cbn [skip_lebs].
  rewrite (skip_leb_is _ _ _ _ _ Ha), (skip_leb_is _ _ _ _ _ Hf). done.
Qed.

Lemma misc_skips opc o r :
  misc_code opc o ->
  (forall x, match o with
             | WASM_OP_MEMORY_INIT | WASM_OP_MEMORY_COPY | WASM_OP_TABLE_INIT
             | WASM_OP_TABLE_COPY => skip_lebs 2 (r ++ x) = Ret x
             | WASM_OP_DATA_DROP | WASM_OP_MEMORY_FILL | WASM_OP_ELEM_DROP | WASM_OP_TABLE_SIZE
             | WASM_OP_TABLE_GROW | WASM_OP_TABLE_FILL => skip_lebs 1 (r ++ x) = Ret x
             | _ => r = []
             end) ->
  skips (opcode_byte WASM_OP_MISC_PREFIX :: opc ++ r).
Proof.
  intros Ho Hr. apply skips_intro; [done|]. intros x. cbn. unfold skip_misc.
  rewrite <- app_assoc, (read_count_is _ _ _ Ho). specialize (Hr x).
  destruct o; cbn in Hr |- *; try rewrite Hr; done.
Qed.

Lemma straight_skips m ft lt bs ps qs : straight m ft lt bs ps qs -> skips bs.
Proof.
  destruct 1;
    try (by eapply numeric_skips); try (by eapply memory_skips);
    try (apply skips_intro; [done|by intros x]);
    try (apply skips_intro; [done|]; intros x; cbn; by rewrite (skip_leb_is _ _ _ _ _ H));
    try (eapply misc_skips; [eassumption|]; cbv iota; intros z; cbn [skip_lebs]; rewrite <- ?app_assoc;
         repeat match goal with H : leb_u ?bs _ |- context [skip_leb (?bs ++ _)] =>
           rewrite (skip_leb_is _ _ _ _ _ H) end; done).
  - apply skips_intro; [done|]. intros x. cbn. rewrite <- app_assoc, (skip_leb_is _ _ _ _ _ H).
    by rewrite skip_bytes_app.
  - apply skips_intro; [done|]. intros x. cbn. by destruct b.
  - apply skips_intro; [by destruct l|]. intros x. destruct l; cbn; by rewrite (skip_leb_is _ _ _ _ _ H).
  - apply skips_intro; [by destruct l|]. intros x. by destruct l.
  - unfold get_global_opcode. destruct (is_64bit_type _); apply skips_intro; try done; intros x; cbn;
      by rewrite (skip_leb_is _ _ _ _ _ H).
  - unfold set_global_opcode in *.
    assert (o = WASM_OP_SET_GLOBAL_64 \/ o = WASM_OP_SET_GLOBAL \/ o = WASM_OP_SET_GLOBAL_AUX_STACK) as Ho.
    { destruct (is_64bit_type _); tauto. }
    destruct Ho as [-> |[-> | ->]]; apply skips_intro; try done; intros x; cbn;
      by rewrite (skip_leb_is _ _ _ _ _ H).
  - apply skips_intro; [done|]. intros x. cbn. by rewrite (skip_bytes_app 4).
  - apply skips_intro; [done|]. intros x. cbn. by rewrite (skip_bytes_app 8).
  - rewrite <- (app_nil_r opc). eapply misc_skips; [done|]. intros x. by destruct o.
Qed.

Lemma call_skips m bs ps qs : call_code m bs ps qs -> skips bs.
Proof.
  destruct 1; apply skips_intro; try done; intros x; cbn; rewrite <- ?app_assoc.
  - by rewrite (skip_leb_is _ _ _ _ _ H).
  - by rewrite (skip_leb_is _ _ _ _ _ H), (skip_leb_is _ _ _ _ _ H0).
Qed.

(** ** Padding *)

Definition NOP : byte := opcode_byte WASM_OP_NOP.

Fixpoint strip (p : bytes) : bytes :=
  match p with
  | [] => []
  | b :: p' => if decide (b = NOP) then strip p' else p
  end.

Lemma strip_pad n x : strip (replicate n NOP ++ x) = strip x.
Proof. by induction n. Qed.

Lemma skip_nops_strip x : strip x <> [] -> skip_nops x = Ret (strip x).
Proof.
  induction x as [|b x IH]; [done|]. cbn [skip_nops strip]. change NOP with (opcode_byte WASM_OP_NOP).
  by destruct (decide (b = opcode_byte WASM_OP_NOP)).
Qed.

(** The instructions that jump away may be skipped with the padding behind
    them. *)
Lemma jump_skips ft c bs tables :
  jump_code ft c bs tables ->
  exists o tl, bs = opcode_byte o :: tl /\ structural o = false
    /\ ((forall x, skip_immediates o (tl ++ x) = Ret (Some x))
        \/ (forall x, strip x <> [] -> skip_immediates o (tl ++ x) = Ret (Some (strip x)))).
Proof.
  destruct 1.
  - by exists WASM_OP_UNREACHABLE, []; auto.
  - by exists WASM_OP_RETURN, []; auto.
  - exists WASM_OP_BR, n. split_and!; [done..|]. left. intros x. cbn. by rewrite (skip_leb_is _ _ _ _ _ H).
  - eexists WASM_OP_BR_TABLE, _. split_and!; [done..|]. right. intros x Hx. cbn. unfold skip_br_table.
    rewrite <- app_assoc, (read_count_is _ _ _ H).
    destruct (Z.ltb_spec (zlen ((byte_of_Z <$> ds) ++ x)) (count + 1)) as [Hl|_].
    { rewrite length_app, length_fmap in Hl. lia. }
    rewrite drop_app_length' by (rewrite length_fmap; lia). by rewrite (skip_nops_strip _ Hx).
  - exists EXT_OP_BR_TABLE_CACHE, n. split_and!; [done..|]. right. intros x Hx. cbn.
    unfold skip_br_table_cache. by rewrite (read_count_is _ _ _ H), (skip_nops_strip _ Hx).
Qed.
