(* ===== verification/CheckRound.v ===== *)
(** * The rounds of the checker

    A round of the loop of [wasm_loader_prepare_bytecode], as a relation between
    the contexts before and after it; the invariant of the contexts; and the
    number of rounds. *)

From S2P Require Import Prelude Memory Leb LebSpec Opcode Loader LoaderSpec Bytecode CheckSpec CheckControl.

Section rounds.
Context (module : WASMModule) (func_type : WASMFuncType) (local_types : list value_type).
Context (MT : module_types module func_type local_types).

Abbreviation round := (check_round module func_type local_types).

Lemma check_loop_round fuel c :
  p_rest c <> [] ->
  check_loop module func_type local_types (S fuel) c
  = match round c with
    | Some (_, c') => check_loop module func_type local_types fuel c'
    | None => LoopFail
    end.
Proof. intros H. cbn. by destruct (p_rest c). Qed.

Definition if_operand (o : WASMOpcode) : list value_type :=
  match o with
  | WASM_OP_IF => [VALUE_TYPE_I32]
  | _ => []
  end.

Inductive round_spec (c c' : WASMLoaderContext) : Prop :=
| rs_straight : emits_straight module func_type local_types c c' -> round_spec c c'
| rs_call : emits_call module c c' -> round_spec c c'
| rs_br_if n d : leb_u n d -> can_branch c [VALUE_TYPE_I32] d ->
    emit (opb WASM_OP_BR_IF :: n) (opb WASM_OP_BR_IF :: n) [VALUE_TYPE_I32] [] c c' -> round_spec c c'
| rs_jump : emits_jump func_type c c' -> round_spec c c'
| rs_block o orig bs type c2 : o = WASM_OP_BLOCK \/ o = WASM_OP_LOOP \/ o = WASM_OP_IF ->
    block_code module o bs type -> wrote orig bs c c' -> opened c c' o (if_operand o) type c2 ->
    round_spec c c'
| rs_else b bls p : wrote [opb WASM_OP_ELSE] [opb WASM_OP_ELSE] c c' -> else_done c c' b bls p ->
    round_spec c c'
| rs_end_else b bls p r : p_rest c = opb WASM_OP_END :: r -> same_code c c' -> else_done c c' b bls p ->
    round_spec c c'
| rs_end b bls : wrote [opb WASM_OP_END] [opb WASM_OP_END] c c' -> end_done c c' b bls ->
    round_spec c c'.

Lemma else_moved o c c1 c' b bs p :
  moved c c1 [opb o] [opb o] -> else_done c1 c' b bs p -> same_code c1 c' ->
  wrote [opb o] [opb o] c c' /\ else_done c c' b bs p.
Proof.
  intros [R D _ S] El [E1 E2]. split; [unfold wrote; by rewrite E1, E2|].
  rewrite S in El. destruct El as [G1 G2 G3 G4 G5 G6 G7 [H1 H2 H3 H4]]. by repeat (split; try done).
Qed.

Lemma round_Some c u c' :
  round c = Some (u, c') -> whole (base c) (frame_ref c) -> round_spec c c'.
Proof.
  intros H W. unfold check_round in H.
  apply bind_Some in H as (b & c1 & Hm%read_uint8_Some & H).
  apply bind_Some in H as (o & c2 & [->%byte_opcode_Some ->]%some_Some & H).
  pose proof (emit_moved _ _ _ _ _ _ _ _ _ (emit_refl c) Hm) as K. cbn [app] in K.
  unfold Loader.handle_op in H. apply bind_Some in H as (p & c2 & [-> ->]%get_Some & H).
  assert (length (p_done c1) - 1 = length (p_done c))%nat as Horg.
  { rewrite (em_done _ _ _ _ _ _ K), length_app. cbn. lia. }
  destruct (numeric_signature o) as [[[n pop] push]|] eqn:En.
  { eapply rs_straight, numeric_emits; eauto. }
  destruct (memory_signature o) as [[t st]|] eqn:Em.
  { eapply rs_straight, load_store_emits; eauto. }
  destruct o; try discriminate En; try discriminate Em; try discriminate H; clear En Em.
  - eapply rs_jump, unreachable_emits; eauto.
  - linv. eapply rs_straight, emits_intro; [constructor|exact K].
  - destruct (block_emits module func_type local_types MT c c' u _ _ _ (or_introl eq_refl) K H) as (? & ? & ? & ? & ? & ? & ?).
    eapply (rs_block _ _ WASM_OP_BLOCK); eauto.
  - destruct (block_emits module func_type local_types MT c c' u _ _ _ (or_intror (or_introl eq_refl)) K H) as (? & ? & ? & ? & ? & ? & ?).
    eapply (rs_block _ _ WASM_OP_LOOP); eauto.
  - apply bind_Some in H as (u2 & c3 & Hp & H). em.
    match goal with K : emit _ _ _ _ c c3 |- _ => rename K into K3 end.
    destruct (block_emits module func_type local_types MT c c' u _ _ _ (or_intror (or_intror eq_refl)) K3 H) as (? & ? & ? & ? & ? & ? & ?).
    eapply (rs_block _ _ WASM_OP_IF); eauto.
  - destruct (else_Some _ _ _ _ H) as (Hcode & b & bs & El).
    { destruct Hm as [_ _ _ ->]. done. }
    destruct (else_moved _ _ _ _ _ _ _ Hm El Hcode) as [Hw El']. by eapply rs_else.
  - destruct (end_Some _ _ _ _ Hm W H) as [(b & bs & Hw & He)|(Hc & b & bs & p & El)].
    + by eapply rs_end.
    + eapply rs_end_else; [|done..]. rewrite (mv_rest _ _ _ _ Hm). done.
  - eapply rs_jump, br_emits; eauto.
  - destruct (br_if_emits c c1 c' u W K H) as (n & d & Hn & Hcan & K').
    by eapply rs_br_if.
  - eapply rs_jump, br_table_emits; eauto.
  - eapply rs_jump, return_emits; eauto.
  - eapply rs_call, call_emits; eauto.
  - eapply rs_call, call_indirect_emits; eauto.
  - eapply rs_straight, drop_emits; eauto.
  - eapply rs_straight, select_emits; eauto.
  - eapply rs_straight, select_t_emits; eauto.
  - eapply rs_straight, get_local_emits; [exact MT|exact Horg|exact K|exact H].
  - eapply rs_straight, set_local_emits; [exact Horg|exact K|exact H].
  - eapply rs_straight, tee_local_emits; [exact MT|exact Horg|exact K|exact H].
  - eapply rs_straight, (global_emits _ _ _ MT c c1 c' u WASM_OP_GET_GLOBAL); [auto|exact K|exact H].
  - eapply rs_straight, (global_emits _ _ _ MT c c1 c' u WASM_OP_SET_GLOBAL); [auto|exact K|exact H].
  - eapply rs_straight, table_get_emits; eauto.
  - eapply rs_straight, table_set_emits; eauto.
  - eapply rs_straight, memory_size_emits; eauto.
  - eapply rs_straight, memory_grow_emits; eauto.
  - apply bind_Some in H as (v & c2 & Hv & H). em. eapply rs_straight, emits_intro; [|exact H].
    by eapply st_i32_const.
  - apply bind_Some in H as (v & c2 & Hv & H). em. eapply rs_straight, emits_intro; [|exact H].
    by eapply st_i64_const.
  - eapply rs_straight, (float_const_emits _ _ _ c c1 c' u 4 VALUE_TYPE_F32); [left; auto|exact H].
  - eapply rs_straight, (float_const_emits _ _ _ c c1 c' u 8 VALUE_TYPE_F64); [right; auto|exact H].
  - eapply rs_straight, ref_null_emits; eauto.
  - eapply rs_straight, ref_is_null_emits; eauto.
  - eapply rs_straight, ref_func_emits; eauto.
  - eapply rs_straight, misc_emits; eauto.
Qed.

(** The byte of an [end] is one of these two. *)
Lemma round_end c u c' r :
  round c = Some (u, c') -> p_rest c = opb WASM_OP_END :: r -> whole (base c) (frame_ref c) ->
  (exists b bs, wrote [opb WASM_OP_END] [opb WASM_OP_END] c c' /\ end_done c c' b bs)
  \/ (same_code c c' /\ exists b bs p, else_done c c' b bs p).
Proof.
  intros H E W. unfold check_round in H. apply bind_Some in H as (b & c1 & Hm%read_uint8_Some & H).
  pose proof (mv_rest _ _ _ _ Hm) as R. rewrite E in R. injection R as <- _.
  apply bind_Some in H as (o & c2 & [Ho ->]%some_Some & H). injection Ho as <-.
  apply bind_Some in H as (p & c2 & [-> ->]%get_Some & H).
  by eapply end_Some.
Qed.

(** ** The invariant *)

(** The blocks split the stack at values. *)
Fixpoint chain (l : list value_type) (csp : list BranchBlock) : Prop :=
  match csp with
  | [] => True
  | b :: bs => whole (blk_stack_cell_num b) l /\ chain (low (blk_stack_cell_num b) l) bs
  end.

Definition block_types_ok (b : BranchBlock) : Prop :=
  Forall not_any (block_type_get_param_types (block_type b))
  /\ Forall not_any (block_type_get_result_types (block_type b)).

Record wf (c : WASMLoaderContext) : Prop := {
  wf_chain : chain (frame_ref c) (frame_csp c);
  wf_bound : (stack_cell_num c <= max_stack_cell_num c)%nat;
  wf_csp : (csp_num c <= max_csp_num c)%nat;
  wf_cache : Forall (fun e => fst e < length (p_done c))%nat (br_table_cache_list c);
  wf_end : frame_csp c = [] -> p_rest c = [];
  wf_types : Forall block_types_ok (frame_csp c);
  wf_func : forall b, last (frame_csp c) = Some b ->
              block_type b = type_block func_type /\ blk_label_type b = LABEL_TYPE_FUNCTION
}.

Lemma chain_whole c : frame_csp c <> [] -> chain (frame_ref c) (frame_csp c) -> whole (base c) (frame_ref c).
Proof. unfold base. destruct (frame_csp c); [done|]. by intros _ [? _]. Qed.

Lemma chain_stkop ps qs c c' :
  stkop ps qs c c' -> chain (frame_ref c) (frame_csp c) -> chain (frame_ref c') (frame_csp c).
Proof.
  intros S H. destruct (frame_csp c) as [|b bs] eqn:E; [done|]. cbn in H |- *. destruct H as [H1 H2].
  assert (base c = blk_stack_cell_num b) as Hb by (unfold base; by rewrite E).
  rewrite <- Hb in *. destruct (so_low _ _ _ _ S H1) as [H3 H4]. by rewrite H4.
Qed.

Lemma chain_pushes ts l csp : chain l csp -> chain (stk ts ++ l) csp.
Proof.
  destruct csp as [|b bs]; [done|]. cbn. intros [H1 H2].
  destruct (whole_pushes _ ts _ H1) as [H3 H4]. by rewrite H4.
Qed.

Lemma cache_grow {A} (l : list (nat * A)) n m :
  Forall (fun e => fst e < n)%nat l -> (n <= m)%nat -> Forall (fun e => fst e < m)%nat l.
Proof. intros H Hn. eapply Forall_impl; [exact H|]. cbn. lia. Qed.

Lemma wrote_length orig bs c c' : wrote orig bs c c' ->
  (length (p_done c) <= length (p_done c'))%nat
  /\ (length (p_done c') + length (p_rest c') = length (p_done c) + length (p_rest c))%nat.
Proof. intros (R & D & L). rewrite R, D, !length_app. lia. Qed.

Lemma wf_same_csp orig bs ps qs c c' :
  wf c -> p_rest c <> [] -> wrote orig bs c c' -> stkop ps qs c c' -> wf c'.
Proof.
  intros [H1 H2 H3 H4 H5 H6 H7] Hp Hw S. pose proof (wrote_length _ _ _ _ Hw) as [Hl _].
  split; unfold csp_num; rewrite ?(so_csp _ _ _ _ S); try done.
  - by eapply chain_stkop.
  - by apply S.
  - by rewrite (so_max_csp _ _ _ _ S).
  - rewrite (so_cache _ _ _ _ S). by eapply cache_grow.
  - intros E. by destruct Hp; apply H5.
Qed.

Lemma last_cons_cons {A} (x y : A) l : last (x :: y :: l) = last (y :: l).
Proof. done. Qed.

Lemma last_top {A} (x : A) l (P : A -> Prop) :
  (forall b, last l = Some b -> P b) -> l <> [] -> forall b, last (x :: l) = Some b -> P b.
Proof. destruct l; [done|]. intros H _ b. rewrite last_cons_cons. apply H. Qed.

Lemma last_replace {A} (x y : A) l (P : A -> Prop) :
  (P x -> P y) -> (forall b, last (x :: l) = Some b -> P b) -> forall b, last (y :: l) = Some b -> P b.
Proof.
  intros H1 H2. destruct l as [|z l]; [|rewrite last_cons_cons in *; done].
  cbn in *. intros b [= <-]. auto.
Qed.

Lemma wf_else c c' b bs p :
  wf c -> else_done c c' b bs p -> (length (p_done c) <= length (p_done c'))%nat -> wf c'.
Proof.
  intros [H1 H2 H3 H4 H5 H6 H7] [E1 E2 E3 E4 E5 E6 E7 [F1 F2 F3 F4]] Hl.
  rewrite E1 in *. cbn in H1. destruct H1 as [W1 W2].
  assert (base c = blk_stack_cell_num b) as Hb by (unfold base; by rewrite E1).
  split; unfold csp_num in *; rewrite ?E5; try done.
  - cbn. rewrite E6, Hb. pose proof (whole_low _ _ (proj1 W1)) as Wl.
    destruct (whole_pushes _ (block_type_get_param_types (block_type b)) _ Wl) as [G1 G2].
    rewrite G2. rewrite low_low by (pose proof (proj1 W1); lia). done.
  - by apply F3.
  - rewrite F1. rewrite E1 in H3. done.
  - rewrite F4. by eapply cache_grow.
  - inversion H6; subst. constructor; done.
  - eapply last_replace; [|exact H7]. done.
Qed.

Lemma wf_round c u c' : wf c -> p_rest c <> [] -> round c = Some (u, c') -> wf c' /\ round_spec c c'.
Proof.
  intros Hwf Hp H. assert (frame_csp c <> []) as Hne by (intros E; by apply Hp, Hwf).
  pose proof (chain_whole _ Hne (wf_chain _ Hwf)) as W.
  pose proof (round_Some _ _ _ H W) as R. split; [|done]. destruct R as [
    (orig & bs & n & ps & qs & _ & K)|(orig & bs & ps & qs & _ & K)|n d _ _ K
    |(orig & bs & n & tb & b & bls & J & Hw & HJ & Hca)|o orig bs type c2 Ho Hb Hw Hop
    |b bls p Hw El|b bls p r Hr [Hc1 Hc2] El|b bls Hw En].
  1-3: eapply wf_same_csp; [done|done|by eapply emit_wrote|apply K].
  - pose proof (wrote_length _ _ _ _ Hw) as [Hl _].
    destruct Hwf as [H1 H2 H3 H4 H5 H6 H7], HJ as [J1 J2 J3 J4 J5]. rewrite J1 in *.
    assert (base c = blk_stack_cell_num b) as Hbb by (unfold base; by rewrite J1).
    split; unfold csp_num, stack_cell_num in *; rewrite ?J2, ?J3, ?J4; try done.
    + cbn in H1 |- *. destruct H1 as [G1 G2]. rewrite Hbb, low_low by (pose proof (proj1 G1); lia).
      split; [apply whole_low, G1|done].
    + rewrite low_length by apply W. pose proof (proj1 W). lia.
    + rewrite J1 in H3. done.
    + rewrite Hca. apply Forall_app. split; [|by eapply cache_grow].
      destruct Hw as (_ & D & _). destruct J; try constructor; [|constructor]. cbn.
      rewrite D, length_app. cbn. lia.
    + inversion H6; subst. by constructor.
    + by eapply last_replace; [|exact H7].
  - pose proof (wrote_length _ _ _ _ Hw) as [Hl _].
    destruct Hwf as [H1 H2 H3 H4 H5 H6 H7], Hop as [O1 O2 O3 O4 O5 O6 O7 O8].
    split; rewrite ?O2, ?O3; try done.
    + cbn. unfold stack_cell_num. pose proof (chain_stkop _ _ _ _ O1 H1) as G.
      assert (whole (length (frame_ref c2)) (frame_ref c2)) as Wt.
      { rewrite <- (low_all (frame_ref c2)) at 2. by apply whole_low. }
      destruct (whole_pushes _ (block_type_get_param_types type) _ Wt) as [G1 G2].
      rewrite G2, low_all. done.
    + auto.
    + rewrite O8. by eapply cache_grow.
    + constructor; [|done]. by eapply block_code_not_any.
    + eapply last_top; [|done]. done.
  - eapply wf_else; [done..|]. by eapply wrote_length.
  - eapply wf_else; [done..|]. by rewrite Hc1.
  - pose proof (wrote_length _ _ _ _ Hw) as [Hl _].
    destruct Hwf as [H1 H2 H3 H4 H5 H6 H7], En as [E1 E2 E3 E4 E5 E6 [F1 F2 F3 F4]].
    rewrite E1 in *. assert (base c = blk_stack_cell_num b) as Hbb by (unfold base; by rewrite E1).
    split; unfold csp_num in *; rewrite ?E3, ?E5; try done.
    + apply chain_pushes. rewrite Hbb. apply H1.
    + auto.
    + rewrite F1. rewrite E1 in H3. cbn in H3. lia.
    + rewrite F4. by eapply cache_grow.
    + by inversion H6.
    + intros b2 Hb2. apply H7. destruct bls; [done|]. by rewrite last_cons_cons.
Qed.

End rounds.
