(* ===== verification/CheckRuns.v ===== *)
(** * Runs of the checker

    The loop of [wasm_loader_prepare_bytecode] ends within its fuel; a run that
    accepts a function passes, for every block that is open, through the end of
    that block. *)

From S2P Require Import Prelude Memory Leb LebSpec Opcode Loader LoaderSpec Bytecode CheckSpec CheckControl CheckRound.

Section runs.
Context (module : WASMModule) (func_type : WASMFuncType) (local_types : list value_type).
Context (MT : module_types module func_type local_types).
Abbreviation round := (check_round module func_type local_types).
Abbreviation wf := (wf func_type).
Abbreviation round_spec := (round_spec module func_type local_types).
Abbreviation check_loop := (check_loop module func_type local_types).

(** ** Termination *)

(** An [if] whose [else] was not seen: its end is read twice. *)
Definition open_if (b : BranchBlock) : bool :=
  bool_decide (blk_label_type b = LABEL_TYPE_IF) && bool_decide (else_addr b = None).

Definition measure (c : WASMLoaderContext) : nat :=
  2 * length (p_rest c)
  + match frame_csp c with
    | b :: _ => if open_if b then 1 else 0
    | [] => 0
    end.

Lemma wrote_measure orig bs c c' :
  wrote orig bs c c' -> bs <> [] -> (measure c' < measure c)%nat.
Proof.
  intros (R & D & L) Hne. unfold measure. rewrite R, length_app.
  assert (1 <= length orig)%nat by (rewrite L; destruct bs; [done|cbn; lia]).
  destruct (frame_csp c') as [|b' ?], (frame_csp c) as [|b ?];
    try destruct (open_if b'); try destruct (open_if b); lia.
Qed.

Lemma straight_nonempty bs ps qs : straight module func_type local_types bs ps qs -> bs <> [].
Proof. by destruct 1. Qed.

Lemma app_nonempty {A} (l1 l2 : list A) : l1 <> [] -> l1 ++ l2 <> [].
Proof. by destruct l1. Qed.

Lemma round_measure c c' : round_spec c c' -> (measure c' < measure c)%nat.
Proof.
  intros [(orig & bs & n & ps & qs & Hst & K)|(orig & bs & ps & qs & Hcc & K)|n d _ _ K
    |(orig & bs & n & tb & b & bls & J & Hw & HJ & Hca)|o orig bs type c2 Ho Hb Hw Hop
    |b bls p Hw El|b bls p r Hr [Hc1 Hc2] El|b bls Hw En].
  - eapply wrote_measure; [by eapply emit_wrote|]. by eapply app_nonempty, straight_nonempty.
  - eapply wrote_measure; [by eapply emit_wrote|]. by destruct Hcc.
  - eapply wrote_measure; [by eapply emit_wrote|done].
  - eapply wrote_measure; [done|]. apply app_nonempty. by destruct J.
  - eapply wrote_measure; [done|]. by destruct Hb.
  - by eapply wrote_measure.
  - unfold measure. rewrite Hc2, (el_csp _ _ _ _ _ El), (el_csp' _ _ _ _ _ El).
    unfold open_if. cbn [blk_label_type else_addr set_polymorphic set_else_addr].
    rewrite (el_label _ _ _ _ _ El), (el_none _ _ _ _ _ El), !bool_decide_eq_true_2 by done.
    rewrite bool_decide_eq_false_2 by done. cbn. lia.
  - by eapply wrote_measure.
Qed.

(** The loop does not use up more rounds than the measure says. *)
Lemma check_loop_ends c fuel : wf c -> (measure c < fuel)%nat -> check_loop fuel c <> LoopOutOfFuel.
Proof.
  revert c. induction fuel as [|fuel IH]; intros c Hwf Hf; [lia|].
  destruct (decide (p_rest c = [])) as [E|Hne]; [cbn; by rewrite E|].
  rewrite check_loop_round by done. destruct (round c) as [[u c']|] eqn:Hr; [|done].
  destruct (wf_round _ _ _ MT _ _ _ Hwf Hne Hr) as [Hwf' Hs]. apply round_measure in Hs. apply IH; [done|lia].
Qed.

(** Fuel that is not used up does not matter. *)
Lemma check_loop_more c f1 f2 :
  check_loop f1 c <> LoopOutOfFuel -> (f1 <= f2)%nat -> check_loop f2 c = check_loop f1 c.
Proof.
  revert c f2. induction f1 as [|f1 IH]; intros c f2 Hr Hle; [done|]. destruct f2 as [|f2]; [lia|].
  cbn in Hr |- *. destruct (p_rest c); [done|]. destruct (round c) as [[u c']|]; [|done]. apply IH; [done|lia].
Qed.

(** ** The first context *)

Definition start_block : BranchBlock := Block LABEL_TYPE_FUNCTION (type_block func_type) 0 None 0 false.

Definition start_ctx (code : bytes) : WASMLoaderContext := Ctx [] code [] 0 [start_block] 1 [].

Lemma push_start code :
  wasm_loader_push_frame_csp LABEL_TYPE_FUNCTION (type_block func_type) 0 (loader_ctx_init code)
  = Some (tt, start_ctx code).
Proof. done. Qed.

Lemma start_wf code : wf (start_ctx code).
Proof.
  pose proof (mt_locals _ _ _ MT) as Hp. apply Forall_app in Hp as [Hp _]. split; cbn; try done.
  - split; [|done]. split; [done|]. by exists [].
  - constructor; [|done]. split; [done|]. apply (mt_results _ _ _ MT).
  - intros b [= <-]. done.
Qed.

Lemma prepare_Some code cd ms mb br :
  wasm_loader_prepare_bytecode module func_type local_types code = Loaded cd ms mb br ->
  exists cf, check_loop (S (2 * length code)) (start_ctx code) = LoopDone cf
    /\ frame_csp cf = [] /\ p_done cf = cd /\ max_stack_cell_num cf = ms /\ max_csp_num cf = mb
    /\ br_table_cache_list cf = br.
Proof.
  unfold wasm_loader_prepare_bytecode. rewrite push_start.
  destruct (check_loop _ _) as [cf| |] eqn:E; [|done..].
  destruct (Nat.eqb_spec (csp_num cf) 0) as [H0|]; [|done]. intros [= <- <- <- <-]. exists cf.
  split_and!; [done|by apply nil_length_inv|done..].
Qed.

Lemma start_measure code : measure (start_ctx code) = (2 * length code)%nat.
Proof.
  unfold measure. cbn [frame_csp start_ctx p_rest]. change (open_if start_block) with false. cbv iota. lia.
Qed.

(** ** Accepted code *)

(** The context [cf] at the end is reached from [c]. *)
Definition accepts (cf c : WASMLoaderContext) : Prop := exists fuel, check_loop fuel c = LoopDone cf.

(** The bytes from [c] on, as they are at the end. *)
Definition ahead (cf c : WASMLoaderContext) : bytes := drop (length (p_done c)) (p_done cf).

Lemma accepts_step cf c : accepts cf c -> p_rest c <> [] -> exists c', round c = Some (tt, c') /\ accepts cf c'.
Proof.
  intros [fuel H] Hne. destruct fuel as [|fuel]; [done|]. rewrite check_loop_round in H by done.
  destruct (round c) as [[[] c']|]; [|done]. exists c'. split; [done|]. by exists fuel.
Qed.

Lemma accepts_end cf c : accepts cf c -> p_rest c = [] -> cf = c.
Proof.
  intros [fuel H] He. destruct fuel as [|fuel]; [done|]. cbn in H. rewrite He in H. by injection H as ->.
Qed.

(** Induction along an accepted run. *)
Lemma accepts_ind_run cf (P : WASMLoaderContext -> Prop) :
  (forall c, wf c -> accepts cf c -> p_rest c = [] -> P c) ->
  (forall c c', wf c -> accepts cf c -> p_rest c <> [] -> round c = Some (tt, c') ->
     wf c' -> round_spec c c' -> accepts cf c' -> P c' -> P c) ->
  forall c, wf c -> accepts cf c -> P c.
Proof.
  intros Hend Hstep c. remember (measure c) as m eqn:Hm. revert c Hm.
  induction m as [m IH] using (well_founded_induction lt_wf). intros c -> Hwf Ha.
  destruct (decide (p_rest c = [])) as [He|Hne]; [auto|].
  destruct (accepts_step _ _ Ha Hne) as (c' & Hr & Ha').
  destruct (wf_round _ _ _ MT _ _ _ Hwf Hne Hr) as [Hwf' Hs].
  eapply Hstep; eauto. eapply IH; [|done..]. by apply round_measure.
Qed.

(** What only grows. *)
Record below (c c' : WASMLoaderContext) : Prop := {
  bl_max : (max_stack_cell_num c <= max_stack_cell_num c')%nat;
  bl_max_csp : (max_csp_num c <= max_csp_num c')%nat;
  bl_done : exists bs, p_done c' = p_done c ++ bs;
  bl_len : (length (p_done c') + length (p_rest c') = length (p_done c) + length (p_rest c))%nat;
  bl_cache : exists t, br_table_cache_list c' = t ++ br_table_cache_list c
                       /\ Forall (fun e => length (p_done c) <= fst e)%nat t
}.

Lemma below_refl c : below c c.
Proof. split; [done|done|exists []; by rewrite app_nil_r|done|by exists []]. Qed.

Lemma below_trans c c1 c2 : below c c1 -> below c1 c2 -> below c c2.
Proof.
  intros [A1 A2 [x A3] A4 (t & A5 & A6)] [B1 B2 [y B3] B4 (s & B5 & B6)]. split; try lia.
  - exists (x ++ y). by rewrite B3, A3, app_assoc.
  - exists (s ++ t). rewrite B5, A5, app_assoc. split; [done|]. apply Forall_app. split; [|done].
    eapply Forall_impl; [exact B6|]. cbn. rewrite A3, length_app. lia.
Qed.

Lemma wrote_below orig bs c c' :
  wrote orig bs c c' -> (max_stack_cell_num c <= max_stack_cell_num c')%nat ->
  (max_csp_num c <= max_csp_num c')%nat -> br_table_cache_list c' = br_table_cache_list c -> below c c'.
Proof.
  intros Hw H1 H2 H3. pose proof (wrote_length _ _ _ _ Hw) as [_ Hl]. destruct Hw as (R & D & L).
  split; [done|done|by exists bs|done|]. exists []. by rewrite H3.
Qed.

Lemma emit_below orig bs ps qs c c' : emit orig bs ps qs c c' -> below c c'.
Proof.
  intros K. eapply wrote_below; [by eapply emit_wrote|apply K| |apply K].
  by rewrite (so_max_csp _ _ _ _ (em_stk _ _ _ _ _ _ K)).
Qed.

Lemma round_below c c' : round_spec c c' -> below c c'.
Proof.
  intros [(orig & bs & n & ps & qs & Hst & K)|(orig & bs & ps & qs & Hcc & K)|n d _ _ K
    |(orig & bs & n & tb & b & bls & J & Hw & HJ & Hca)|o orig bs type c2 Ho Hb Hw Hop
    |b bls p Hw El|b bls p r Hr [Hc1 Hc2] El|b bls Hw En].
  1-3: by eapply emit_below.
  - pose proof (wrote_length _ _ _ _ Hw) as [_ Hl]. destruct Hw as (R & D & L), HJ as [J1 J2 J3 J4 J5].
    split; [done|by rewrite J4|by eexists|done|]. exists tb. split; [done|].
    destruct J; repeat constructor.
  - eapply wrote_below; [done|apply Hop|apply Hop|apply Hop].
  - destruct (el_bounded _ _ _ _ _ El). eapply wrote_below; [done..| |done]. lia.
  - destruct (el_bounded _ _ _ _ _ El) as [H1 H2 H3 H4]. split; [done|lia| |by rewrite Hc1, Hc2|].
    + exists []. by rewrite app_nil_r.
    + exists []. by rewrite H4.
  - destruct (en_bounded _ _ _ _ En). eapply wrote_below; [done..| |done]. lia.
Qed.

Lemma accepts_below cf c : wf c -> accepts cf c -> below c cf.
Proof.
  revert c. apply accepts_ind_run.
  - intros c _ Ha He. rewrite (accepts_end _ _ Ha He). apply below_refl.
  - intros c c' _ _ _ _ _ Hs _ IH. eapply below_trans; [by apply round_below|done].
Qed.

Lemma accepts_rest cf c : wf c -> accepts cf c -> p_rest cf = [].
Proof.
  revert c. apply accepts_ind_run; [|done]. intros c _ Ha He. by rewrite (accepts_end _ _ Ha He).
Qed.

Lemma accepts_ahead cf c : wf c -> accepts cf c -> length (ahead cf c) = length (p_rest c).
Proof.
  intros Hwf Ha. destruct (accepts_below _ _ Hwf Ha) as [_ _ [x Hx] Hl _].
  rewrite (accepts_rest _ _ Hwf Ha) in Hl. unfold ahead. rewrite length_drop. cbn in Hl. lia.
Qed.

(** The code that a round writes is there at the end. *)
Lemma ahead_wrote cf orig bs c c' :
  wrote orig bs c c' -> wf c' -> accepts cf c' -> ahead cf c = bs ++ ahead cf c'.
Proof.
  intros (R & D & L) Hwf Ha. destruct (accepts_below _ _ Hwf Ha) as [_ _ [x Hx] _ _].
  unfold ahead. rewrite Hx, drop_app_length, D, <- app_assoc, drop_app_length. done.
Qed.

End runs.
