(* ===== verification/Regions.v ===== *)
(** * Blocks on an accepted run

    The contexts of an accepted run, and for each of them the [else] and the
    [end] of the blocks that are open there. *)

From S2P Require Import Prelude Memory Leb LebSpec Opcode Loader LoaderSpec Bytecode CheckSpec CheckControl SkipSpec CheckRound CheckRuns.

(** A block at two points of the run. *)
Record same_block (b b' : BranchBlock) : Prop := {
  sb_label : blk_label_type b' = blk_label_type b;
  sb_type : block_type b' = block_type b;
  sb_start : start_addr b' = start_addr b;
  sb_cells : blk_stack_cell_num b' = blk_stack_cell_num b;
  sb_else : else_addr b <> None -> else_addr b' <> None
}.

Lemma same_block_refl b : same_block b b.
Proof. done. Qed.

Lemma same_block_trans b1 b2 b3 : same_block b1 b2 -> same_block b2 b3 -> same_block b1 b3.
Proof. intros [] []. split; try congruence. auto. Qed.

Section regions.
Context (module : WASMModule) (func_type : WASMFuncType) (local_types : list value_type).
Context (MT : module_types module func_type local_types).
Abbreviation round := (check_round module func_type local_types).
Abbreviation wf := (wf func_type).
Abbreviation round_spec := (round_spec module func_type local_types).
Abbreviation accepts := (accepts module func_type local_types).

(** ** Outer blocks *)

Lemma chain_below l pre b bs :
  chain l (pre ++ b :: bs) -> (blk_stack_cell_num b <= length l)%nat.
Proof.
  revert l. induction pre as [|b' pre IH]; intros l H; cbn in H.
  - apply H.
  - destruct H as [[H1 _] H2]. specialize (IH _ H2). rewrite low_length in IH by done. lia.
Qed.

Lemma chain_low l pre b bs :
  chain l (pre ++ b :: bs) -> chain (low (blk_stack_cell_num b) l) bs.
Proof.
  revert l. induction pre as [|b' pre IH]; intros l H; cbn in H.
  - apply H.
  - destruct H as [[H1 _] H2]. pose proof (chain_below _ _ _ _ H2) as Hb.
    rewrite low_length in Hb by done. specialize (IH _ H2). by rewrite low_low in IH by lia.
Qed.

(** A change above the current block keeps what is below the blocks. *)
Lemma low_outer c l' pre b bs :
  frame_csp c = pre ++ b :: bs -> chain (frame_ref c) (frame_csp c) ->
  low (base c) l' = low (base c) (frame_ref c) -> (base c <= length l')%nat ->
  low (blk_stack_cell_num b) l' = low (blk_stack_cell_num b) (frame_ref c).
Proof.
  intros Hcsp Hch Hl Hb. unfold base in *.
  destruct pre as [|b' pre]; rewrite Hcsp in *; cbn in *; [done|].
  destruct Hch as [[W _] Hch]. pose proof (chain_below _ _ _ _ Hch) as H.
  rewrite low_length in H by done.
  rewrite <- (low_low (blk_stack_cell_num b) (blk_stack_cell_num b') l') by lia.
  rewrite Hl. apply low_low. lia.
Qed.

Definition keeps_block (c c' : WASMLoaderContext) (b : BranchBlock) (pre bs : list BranchBlock) : Prop :=
  exists pre' b', frame_csp c' = pre' ++ b' :: bs /\ same_block b b'
    /\ low (blk_stack_cell_num b) (frame_ref c') = low (blk_stack_cell_num b) (frame_ref c)
    /\ (pre <> [] -> b' = b).

Lemma keeps_same c c' b pre bs :
  frame_csp c = pre ++ b :: bs -> frame_csp c' = frame_csp c ->
  low (blk_stack_cell_num b) (frame_ref c') = low (blk_stack_cell_num b) (frame_ref c) ->
  keeps_block c c' b pre bs.
Proof. intros E E' L. exists pre, b. split_and!; [by rewrite E'|done|done|done]. Qed.

(** Only the flags of the current block change. *)
Lemma keeps_flags c c' b pre bs b0 b1 bs0 :
  frame_csp c = pre ++ b :: bs -> frame_csp c = b0 :: bs0 -> frame_csp c' = b1 :: bs0 ->
  same_block b0 b1 ->
  low (blk_stack_cell_num b) (frame_ref c') = low (blk_stack_cell_num b) (frame_ref c) ->
  keeps_block c c' b pre bs.
Proof.
  intros E E0 E1 S L. rewrite E0 in E. destruct pre as [|b2 pre]; cbn in E; injection E as -> ->.
  - exists [], b1. split_and!; try done.
  - exists (b1 :: pre), b. split_and!; try done.
Qed.

Lemma base_le c : wf c -> (base c <= length (frame_ref c))%nat.
Proof.
  intros Hwf. pose proof (wf_chain _ _ Hwf) as H. unfold base. destruct (frame_csp c); [lia|apply H].
Qed.

Lemma else_keeps c c' b pre bs b0 bs0 p :
  wf c -> frame_csp c = pre ++ b :: bs -> else_done c c' b0 bs0 p -> keeps_block c c' b pre bs.
Proof.
  intros Hwf E [E1 E2 E3 E4 E5 E6 E7 E8]. pose proof (base_le _ Hwf) as Hb.
  eapply keeps_flags; [done..| |]; [done|].
  eapply low_outer; [done|apply Hwf| |]; rewrite E6.
  - rewrite low_app by (rewrite low_length; done). by rewrite low_low by lia.
  - rewrite length_app, low_length by done. lia.
Qed.

Lemma round_outer c c' pre b bs :
  wf c -> round_spec c c' -> frame_csp c = pre ++ b :: bs -> (length bs < length (frame_csp c'))%nat ->
  keeps_block c c' b pre bs.
Proof.
  intros Hwf R E Hlen. pose proof (base_le _ Hwf) as Hb.
  assert (whole (base c) (frame_ref c)) as W.
  { apply chain_whole; [|apply Hwf]. rewrite E. by destruct pre. }
  assert (forall ps qs, stkop ps qs c c' -> keeps_block c c' b pre bs) as Hstk.
  { intros ps qs S. eapply keeps_same; [done|apply S|]. destruct (so_low _ _ _ _ S W) as [[H1 _] H2].
    eapply low_outer; [done|apply Hwf|done|done]. }
  destruct R as [(orig & bs' & n & ps & qs & Hst & K)|(orig & bs' & ps & qs & Hcc & K)|n d _ _ K
    |(orig & bs' & n & tb & b0 & bls & J & Hw & HJ & Hca)|o orig bs' type c2 Ho Hbc Hw Hop
    |b0 bls p Hw El|b0 bls p r Hr [Hc1 Hc2] El|b0 bls Hw En].
  1-3: by eapply Hstk, em_stk.
  - destruct HJ as [J1 J2 J3 J4 J5]. eapply keeps_flags; [done..| |].
    + done.
    + eapply low_outer; [done|apply Hwf| |]; rewrite J3; [by rewrite low_low by lia|].
      by rewrite low_length.
  - destruct Hop as [O1 O2 O3 O4 O5 O6 O7 O8].
    exists (Block (block_label o) type (length (p_done c')) None (stack_cell_num c2) false :: pre), b.
    rewrite O2, E. split_and!; try done.
    destruct (so_low _ _ _ _ O1 W) as [[H1 _] H2].
    assert (low (blk_stack_cell_num b) (frame_ref c2) = low (blk_stack_cell_num b) (frame_ref c)) as Hl.
    { eapply low_outer; [done|apply Hwf|done|done]. }
    rewrite O3, low_app; [done|].
    pose proof (chain_stkop _ _ _ _ O1 (wf_chain _ _ Hwf)) as Hch. rewrite E in Hch.
    by eapply chain_below.
  - by eapply else_keeps.
  - by eapply else_keeps.
  - destruct En as [E1 E2 E3 E4 E5 E6 E7]. rewrite E1 in E.
    destruct pre as [|b2 pre]; cbn in E; injection E as -> ->.
    { rewrite E3 in Hlen. lia. }
    exists pre, b. split_and!; try done. rewrite E5.
    pose proof (wf_chain _ _ Hwf) as Hch. rewrite E1 in Hch. cbn in Hch. destruct Hch as [_ Hch].
    unfold base in *. rewrite E1 in *. pose proof (chain_below _ _ _ _ Hch) as Hl.
    rewrite low_app by done. apply low_low. rewrite low_length in Hl by done. lia.
Qed.


(** ** The contexts of an accepted run *)

Context (src : bytes) (cf : WASMLoaderContext).
Context (Acc : accepts cf (start_ctx func_type src)) (Hcf : frame_csp cf = []).
Abbreviation ahead := (ahead cf).

Definition rstep (c c' : WASMLoaderContext) : Prop := p_rest c <> [] /\ round c = Some (tt, c').
Definition on_run (c : WASMLoaderContext) : Prop := rtc rstep (start_ctx func_type src) c.

Lemma rstep_fun c c1 c2 : rstep c c1 -> rstep c c2 -> c1 = c2.
Proof. intros [_ H1] [_ H2]. congruence. Qed.

Lemma on_run_ok c : on_run c -> wf c /\ accepts cf c.
Proof.
  unfold on_run. intros H. assert (wf (start_ctx func_type src)) as W by (by eapply start_wf).
  revert W Acc. induction H as [|c c1 c2 [Hne Hr] _ IH]; [done|]. intros W A. apply IH.
  - by eapply wf_round.
  - destruct (accepts_step _ _ _ _ _ A Hne) as (c' & Hr' & A'). congruence.
Qed.

Lemma on_run_start : on_run (start_ctx func_type src).
Proof. constructor. Qed.

Lemma on_run_rstep c c' : on_run c -> rstep c c' -> on_run c' /\ round_spec c c'.
Proof.
  intros H S. split; [by eapply rtc_r|]. destruct (on_run_ok _ H) as [W _], S as [Hne Hr].
  by eapply wf_round.
Qed.

Lemma on_run_next c : on_run c -> frame_csp c <> [] -> exists c', rstep c c'.
Proof.
  intros H Hne. destruct (on_run_ok _ H) as [W A].
  destruct (decide (p_rest c = [])) as [He|Hp].
  - rewrite (accepts_end _ _ _ _ _ A He) in Hcf. done.
  - destruct (accepts_step _ _ _ _ _ A Hp) as (c' & Hr & _). by exists c'.
Qed.

(** The blocks stay, or the current one becomes unreachable. *)
Definition plain_csp (c c' : WASMLoaderContext) : Prop :=
  frame_csp c' = frame_csp c
  \/ exists b bs, frame_csp c = b :: bs /\ frame_csp c' = set_polymorphic true b :: bs.

Lemma plain_csp_length c c' : plain_csp c c' -> length (frame_csp c') = length (frame_csp c).
Proof. by intros [-> |(b & bs & -> & ->)]. Qed.

(** What a round leaves in the code, as it is at the end. *)
Inductive round_kind (c c' : WASMLoaderContext) : Prop :=
| rk_plain bs n : ahead c = bs ++ replicate n NOP ++ ahead c' ->
    skips bs \/ (exists tb, jump_code func_type c bs tb) -> plain_csp c c' -> round_kind c c'
| rk_block o bs type c2 : ahead c = bs ++ ahead c' ->
    o = WASM_OP_BLOCK \/ o = WASM_OP_LOOP \/ o = WASM_OP_IF -> block_code module o bs type ->
    opened c c' o (if_operand o) type c2 -> round_kind c c'
| rk_else b bls p : ahead c = opb WASM_OP_ELSE :: ahead c' -> else_done c c' b bls p ->
    length (p_done c') = S (length (p_done c)) -> round_kind c c'
| rk_again b bls p c2 : ahead c = ahead c' -> same_code c c' -> else_done c c' b bls p ->
    rstep c' c2 -> ahead c = opb WASM_OP_END :: ahead c2 -> round_kind c c'
| rk_end b bls : ahead c = opb WASM_OP_END :: ahead c' -> end_done c c' b bls -> round_kind c c'.

Lemma on_run_whole c : on_run c -> frame_csp c <> [] -> whole (base c) (frame_ref c).
Proof. intros H Hne. apply chain_whole; [done|]. by eapply wf_chain, on_run_ok. Qed.

Lemma rstep_kind c c' : on_run c -> rstep c c' -> round_kind c c'.
Proof.
  intros Hon St. destruct (on_run_rstep _ _ Hon St) as [Hon' R]. destruct (on_run_ok _ Hon') as [W' A'].
  assert (forall orig bs, wrote orig bs c c' -> ahead c = bs ++ ahead c') as Hah.
  { intros orig bs Hw. by eapply ahead_wrote. }
  destruct R as [(orig & bs & n & ps & qs & Hst & K)|(orig & bs & ps & qs & Hcc & K)|n d Hn Hcan K
    |(orig & bs & n & tb & b & bls & J & Hw & HJ & Hca)|o orig bs type c2 Ho Hbc Hw Hop
    |b bls p Hw El|b bls p r Hr [Hc1 Hc2] El|b bls Hw En].
  - eapply rk_plain; [|left; by eapply straight_skips|left; apply (so_csp _ _ _ _ (em_stk _ _ _ _ _ _ K))].
    rewrite (Hah _ _ (emit_wrote _ _ _ _ _ _ K)), <- app_assoc. done.
  - eapply (rk_plain _ _ _ 0); [|left; by eapply call_skips|left; apply (so_csp _ _ _ _ (em_stk _ _ _ _ _ _ K))].
    rewrite (Hah _ _ (emit_wrote _ _ _ _ _ _ K)). done.
  - eapply (rk_plain _ _ _ 0); [|left|left; apply (so_csp _ _ _ _ (em_stk _ _ _ _ _ _ K))].
    + rewrite (Hah _ _ (emit_wrote _ _ _ _ _ _ K)). done.
    + apply skips_intro; [done|]. intros x. cbn. by rewrite (skip_leb_is _ _ _ _ _ Hn).
  - eapply rk_plain; [|right; by exists tb|].
    + rewrite (Hah _ _ Hw), <- app_assoc. done.
    + right. exists b, bls. split; apply HJ.
  - eapply rk_block; [by eapply Hah|done..].
  - eapply rk_else; [by eapply (Hah _ _ Hw)|done|]. destruct Hw as (_ & D & _).
    rewrite D, length_app. cbn. lia.
  - assert (frame_csp c' <> []) as Hne by (by rewrite (el_csp' _ _ _ _ _ El)).
    destruct (on_run_next _ Hon' Hne) as [c2 St2]. destruct (on_run_rstep _ _ Hon' St2) as [Hon2 _].
    destruct (on_run_ok _ Hon2) as [W2 A2].
    assert (ahead c = ahead c') as Hsame by (unfold CheckRuns.ahead; by rewrite Hc1).
    eapply rk_again; [done|done|done|exact St2|]. rewrite Hsame.
    destruct (round_end module func_type local_types c' tt c2 r (proj2 St2))
      as [(b2 & bs2 & Hw & _)|(_ & b2 & bs2 & p2 & El2)].
    + by rewrite Hc2.
    + by apply on_run_whole.
    + exact (ahead_wrote _ _ _ MT _ _ _ _ _ Hw W2 A2).
    + pose proof (el_none _ _ _ _ _ El2) as Hnone. pose proof (el_csp _ _ _ _ _ El2) as Hb2.
      rewrite (el_csp' _ _ _ _ _ El) in Hb2. injection Hb2 as <- <-. done.
  - eapply rk_end; [by eapply (Hah _ _ Hw)|done].
Qed.


(** ** The end of a block *)

(** From [c] on, the block at level [k] from the bottom has its [else], if any,
    before the context [oe], and its [end] at the context [cE]. *)
Inductive ends (k : nat) : WASMLoaderContext -> option WASMLoaderContext -> WASMLoaderContext -> Prop :=
| ends_here c c' b bls : rstep c c' -> ahead c = opb WASM_OP_END :: ahead c' -> end_done c c' b bls ->
    length (frame_csp c) = k -> ends k c None c
| ends_else c c' b bls p oe cE : rstep c c' -> ahead c = opb WASM_OP_ELSE :: ahead c' ->
    else_done c c' b bls p -> length (p_done c') = S (length (p_done c)) ->
    length (frame_csp c) = k -> ends k c' oe cE -> ends k c (Some c') cE
| ends_step c c' oe cE : rstep c c' -> (k <= length (frame_csp c'))%nat ->
    (length (frame_csp c) = k -> head (ahead c) <> Some (opb WASM_OP_ELSE)) ->
    ends k c' oe cE -> ends k c oe cE.

Lemma ends_fun k c oe1 cE1 oe2 cE2 : ends k c oe1 cE1 -> ends k c oe2 cE2 -> oe1 = oe2 /\ cE1 = cE2.
Proof.
  intros H1. revert oe2 cE2.
  induction H1 as [c c' b bls St Ha En Hk|c c' b bls p oe cE St Ha El Hl Hk H IH|c c' oe cE St Hk Hh H IH];
    intros oe2 cE2 H2; destruct H2 as [c c2 b2 bls2 St2 Ha2 En2 Hk2|c c2 b2 bls2 p2 oe2 cE2 St2 Ha2 El2 Hl2 Hk2 H2
      |c c2 oe2 cE2 St2 Hk2 Hh2 H2]; pose proof (rstep_fun _ _ _ St St2); subst c2; try done.
  - by rewrite Ha in Ha2.
  - rewrite (en_csp' _ _ _ _ En) in Hk2. rewrite (en_csp _ _ _ _ En) in Hk. cbn in Hk. lia.
  - by rewrite Ha in Ha2.
  - by destruct (IH _ _ H2) as [_ ->].
  - rewrite Ha in Hh2. by destruct (Hh2 Hk).
  - rewrite (en_csp' _ _ _ _ En2) in Hk. rewrite (en_csp _ _ _ _ En2) in Hk2. cbn in Hk2. lia.
  - rewrite Ha2 in Hh. by destruct (Hh Hk2).
  - by apply IH.
Qed.

Lemma kind_csp_length c c' :
  round_kind c c' -> (exists b bls, ahead c = opb WASM_OP_END :: ahead c' /\ end_done c c' b bls)
    \/ (length (frame_csp c) <= length (frame_csp c'))%nat.
Proof.
  intros [bs n Ha Hs Hl|o bs type c2 Ha Ho Hb Hop|b bls p Ha El Hl|b bls p c2 Ha Hc El St Ha2|b bls Ha En].
  - right. rewrite (plain_csp_length _ _ Hl). lia.
  - right. rewrite (op_csp _ _ _ _ _ _ Hop). cbn. lia.
  - right. rewrite (el_csp _ _ _ _ _ El), (el_csp' _ _ _ _ _ El). done.
  - right. rewrite (el_csp _ _ _ _ _ El), (el_csp' _ _ _ _ _ El). done.
  - left. eauto.
Qed.

Lemma skips_head bs x : skips bs -> head (bs ++ x) <> Some (opb WASM_OP_ELSE).
Proof.
  intros (o & tl & -> & Ho & _). cbn. intros [= E]. assert (o = WASM_OP_ELSE) as ->; [|done].
  apply (f_equal byte_opcode) in E. rewrite byte_opcode_byte in E. by injection E.
Qed.

Lemma jump_head ft c bs tb x : jump_code ft c bs tb -> head (bs ++ x) <> Some (opb WASM_OP_ELSE).
Proof. by destruct 1. Qed.

Lemma kind_else_head c c' :
  round_kind c c' -> head (ahead c) = Some (opb WASM_OP_ELSE) ->
  exists b bls p, ahead c = opb WASM_OP_ELSE :: ahead c' /\ else_done c c' b bls p
    /\ length (p_done c') = S (length (p_done c)).
Proof.
  intros [bs n Ha Hs Hl|o bs type c2 Ha Ho Hb Hop|b bls p Ha El Hl|b bls p c2 Ha Hc El St Ha2|b bls Ha En] H.
  - rewrite Ha in H. exfalso. destruct Hs as [Hs|[tb Hs]]; [by eapply skips_head|by eapply jump_head].
  - rewrite Ha in H. destruct Hb; [destruct Ho as [-> |[-> | ->]]; done|].
    destruct Ho as [-> |[-> | ->]]; done.
  - eauto 10.
  - by rewrite Ha2 in H.
  - by rewrite Ha in H.
Qed.

Lemma ends_exists k c :
  on_run c -> (1 <= k <= length (frame_csp c))%nat -> exists oe cE, ends k c oe cE.
Proof.
  intros Hon. destruct (on_run_ok _ Hon) as [W A]. revert c W A Hon.
  apply (accepts_ind_run _ _ _ MT cf
    (fun c => on_run c -> (1 <= k <= length (frame_csp c))%nat -> exists oe cE, ends k c oe cE)).
  - intros c _ A He _ Hk. rewrite (accepts_end _ _ _ _ _ A He) in Hcf. rewrite Hcf in Hk. cbn in Hk. lia.
  - intros c c' W A Hne Hr W' _ A' IH Hon Hk. assert (rstep c c') as St by done.
    destruct (on_run_rstep _ _ Hon St) as [Hon' _]. pose proof (rstep_kind _ _ Hon St) as Hkind.
    destruct (decide (length (frame_csp c) = k /\ head (ahead c) = Some (opb WASM_OP_ELSE))) as [[Hk1 Hh]|Hno].
    { destruct (kind_else_head _ _ Hkind Hh) as (b & bls & p & Ha & El & Hl).
      destruct IH as (oe & cE & H); [done| |].
      { rewrite (el_csp _ _ _ _ _ El) in Hk. rewrite (el_csp' _ _ _ _ _ El). exact Hk. }
      exists (Some c'), cE. by eapply ends_else. }
    assert (length (frame_csp c) = k -> head (ahead c) <> Some (opb WASM_OP_ELSE)) as Hh by tauto.
    destruct (kind_csp_length _ _ Hkind) as [(b & bls & Ha & En)|Hle].
    + destruct (decide (length (frame_csp c) = k)) as [Hk1|Hk1].
      { exists None, c. by eapply ends_here. }
      assert (k <= length (frame_csp c'))%nat as Hk2.
      { rewrite (en_csp' _ _ _ _ En). rewrite (en_csp _ _ _ _ En) in Hk, Hk1. cbn in Hk, Hk1. lia. }
      destruct IH as (oe & cE & H); [done|lia|]. exists oe, cE. by eapply ends_step.
    + destruct IH as (oe & cE & H); [done|lia|]. exists oe, cE. eapply ends_step; [done|lia|done..].
Qed.

(** What is known where a block ends. *)
Definition end_ctx (c cE : WASMLoaderContext) (b : BranchBlock) (bs : list BranchBlock) : Prop :=
  on_run cE /\ exists b' cN, rstep cE cN /\ ahead cE = opb WASM_OP_END :: ahead cN /\ end_done cE cN b' bs
    /\ same_block b b'
    /\ low (blk_stack_cell_num b) (frame_ref cE) = low (blk_stack_cell_num b) (frame_ref c).

(** What is known behind an [else]. *)
Definition else_ctx (c cL : WASMLoaderContext) (b : BranchBlock) (bs : list BranchBlock) : Prop :=
  on_run cL /\ exists b' p, frame_csp cL = b' :: bs /\ same_block b b' /\ is_stack_polymorphic b' = false
    /\ else_addr b' = Some p
    /\ frame_ref cL = stk (block_type_get_param_types (block_type b))
                        ++ low (blk_stack_cell_num b) (frame_ref c)
    /\ (1 <= length (p_done cL))%nat /\ p_done cL !! (length (p_done cL) - 1)%nat = Some (opb WASM_OP_ELSE).

Lemma ends_ctx k c oe cE :
  ends k c oe cE -> forall pre b bs, on_run c -> frame_csp c = pre ++ b :: bs -> S (length bs) = k ->
  end_ctx c cE b bs /\ (forall cL, oe = Some cL -> else_ctx c cL b bs).
Proof.
  induction 1 as [c c' b0 bls St Ha En Hk|c c' b0 bls p oe cE St Ha El Hl Hk H IH|c c' oe cE St Hk Hh H IH];
    intros pre b bs Hon Hcsp Hlen.
  - split; [|done]. assert (pre = []) as ->.
    { rewrite Hcsp, length_app in Hk. cbn in Hk. destruct pre; [done|cbn in Hk; lia]. }
    split; [done|]. exists b, c'. split_and!; try done.
    pose proof (en_csp _ _ _ _ En) as E. rewrite Hcsp in E. cbn in E. by injection E as -> ->.
  - assert (pre = []) as ->.
    { rewrite Hcsp, length_app in Hk. cbn in Hk. destruct pre; [done|cbn in Hk; lia]. }
    cbn in Hcsp. pose proof (el_csp _ _ _ _ _ El) as E. rewrite Hcsp in E. injection E as <- <-.
    destruct (on_run_rstep _ _ Hon St) as [Hon' _]. destruct (on_run_ok _ Hon) as [W _].
    destruct (else_keeps _ _ b [] bs _ _ _ W Hcsp El) as (pre' & b' & E' & S' & L' & _).
    assert (pre' = []) as ->.
    { pose proof (el_csp' _ _ _ _ _ El) as E2. rewrite E' in E2. destruct pre' as [|x pre']; [done|].
      cbn in E2. injection E2 as _ E2. apply (f_equal length) in E2. rewrite length_app in E2. cbn in E2. lia. }
    destruct (IH [] b' bs Hon' E' Hlen) as [(HonE & b2 & cN & StN & HaN & EnN & S2 & L2) _].
    split.
    + split; [done|]. exists b2, cN. split_and!; try done; [by eapply same_block_trans|].
      rewrite <- L', <- (sb_cells _ _ S'). exact L2.
    + intros cL [= <-]. split; [done|]. rewrite E', (el_csp' _ _ _ _ _ El) in *.
      cbn in E'. injection E' as <-. eexists _, p. split_and!; try done.
      * rewrite (el_ref _ _ _ _ _ El). unfold base. by rewrite Hcsp.
      * lia.
      * destruct (on_run_ok _ Hon') as [W' A'].
        destruct (accepts_below _ _ _ MT _ _ W' A') as [_ _ [x Hx] _ _].
        assert (p_done cf !! length (p_done c) = Some (opb WASM_OP_ELSE)) as Hlk.
        { unfold CheckRuns.ahead in Ha. rewrite <- (take_drop (length (p_done c)) (p_done cf)), Ha.
          rewrite lookup_app_r, length_take; [|rewrite length_take; lia].
          apply (f_equal length) in Ha. rewrite length_drop in Ha. cbn in Ha.
          replace (_ - _)%nat with 0%nat by lia. done. }
        rewrite Hl. replace (S _ - 1)%nat with (length (p_done c)) by lia.
        rewrite Hx, lookup_app_l in Hlk by lia. done.
  - destruct (on_run_rstep _ _ Hon St) as [Hon' R]. destruct (on_run_ok _ Hon) as [W _].
    destruct (round_outer _ _ pre b bs W R Hcsp) as (pre' & b' & E' & S' & L' & _); [lia|].
    destruct (IH pre' b' bs Hon' E' Hlen) as [(HonE & b2 & cN & StN & HaN & EnN & S2 & L2) Helse].
    split.
    + split; [done|]. exists b2, cN. split_and!; try done; [by eapply same_block_trans|].
      rewrite <- L', <- (sb_cells _ _ S'). exact L2.
    + intros cL Ho. destruct (Helse cL Ho) as (Hon3 & b3 & p3 & G1 & G2 & G3 & G4 & G5 & G6 & G7).
      split; [done|]. exists b3, p3. split_and!; try done; [by eapply same_block_trans|].
      rewrite G5, (sb_cells _ _ S'), (sb_type _ _ S'), L'. done.
Qed.

End regions.
