(* ===== verification/FindBlock.v ===== *)
(** * [wasm_loader_find_block_addr] finds the ends of blocks

    On the rewritten code of an accepted function, the walk from the start of a
    block finds the [else] and the [end] that the checker saw for it; and what
    it puts into the cache is right for the blocks inside. *)

From S2P Require Import Prelude Memory Leb LebSpec Opcode Loader LoaderSpec Bytecode CheckSpec CheckControl BlockAddr SkipSpec CheckRound CheckRuns Regions.

(** ** Steps of the walk *)

Definition walks (size : nat) (label : label_type) (d : nat) (e : option nat) (st : list block_entry)
    (p : bytes) (R : outcome (option found)) : Prop :=
  forall fuel, (length p < fuel)%nat -> find_loop fuel size label d e st p = R.

Lemma find_plain fuel size label d e st o p p' :
  structural o = false -> skip_immediates o p = Ret (Some p') ->
  find_loop (S fuel) size label d e st (opcode_byte o :: p) = find_loop fuel size label d e st p'.
Proof. intros Ho Hs. cbn [find_loop]. rewrite byte_opcode_byte. destruct o; try discriminate Ho; by rewrite Hs. Qed.

Lemma walks_plain size label d e st o p p' R :
  structural o = false -> skip_immediates o p = Ret (Some p') -> (length p' <= length p)%nat ->
  walks size label d e st p' R -> walks size label d e st (opcode_byte o :: p) R.
Proof.
  intros Ho Hs Hl H [|fuel] Hf; [cbn in Hf; lia|]. rewrite (find_plain _ _ _ _ _ _ _ _ _ Ho Hs).
  apply H. cbn in Hf. lia.
Qed.

Lemma walks_nop size label d e st p R :
  walks size label d e st (NOP :: p) R <-> walks size label d e st p R.
Proof.
  split; intros H.
  - intros fuel Hf. rewrite <- (H (S fuel)) by (cbn; lia). symmetry. by apply (find_plain _ _ _ _ _ _ WASM_OP_NOP).
  - by apply (walks_plain _ _ _ _ _ WASM_OP_NOP p p).
Qed.

Lemma walks_strip size label d e st p R :
  walks size label d e st (strip p) R <-> walks size label d e st p R.
Proof.
  induction p as [|b p IH]; [done|]. cbn [strip]. destruct (decide (b = NOP)) as [->|]; [|done].
  by rewrite IH, walks_nop.
Qed.

Lemma walks_pad size label d e st n p R :
  walks size label d e st p R -> walks size label d e st (replicate n NOP ++ p) R.
Proof. induction n as [|n IH]; [done|]. intros H. cbn. apply walks_nop. auto. Qed.

Lemma strip_length p : (length (strip p) <= length p)%nat.
Proof. induction p as [|b p IH]; [done|]. cbn [strip]. destruct (decide (b = NOP)); cbn [length]; lia. Qed.

Lemma strip_nonempty p b : b ∈ p -> b <> NOP -> strip p <> [].
Proof.
  intros H Hb. induction p as [|b' p IH]; [by apply not_elem_of_nil in H|]. cbn [strip].
  destruct (decide (b' = NOP)) as [->|]; [|done]. apply elem_of_cons in H as [->|H]; [done|auto].
Qed.

Lemma alter_Some {A} (f : A -> A) (i j : nat) (l : list A) e :
  alter f i l !! j = Some e ->
  (j = i /\ exists e0, l !! i = Some e0 /\ e = f e0) \/ (j <> i /\ l !! j = Some e).
Proof.
  destruct (decide (j = i)) as [->|Hne].
  - rewrite list_lookup_alter_eq. intros (e0 & H & ->)%fmap_Some. eauto.
  - rewrite list_lookup_alter_ne by done. auto.
Qed.

Section find.
Context (module : WASMModule) (func_type : WASMFuncType) (local_types : list value_type).
Context (MT : module_types module func_type local_types).
Context (src : bytes) (cf : WASMLoaderContext).
Context (Acc : accepts module func_type local_types cf (start_ctx func_type src)) (Hcf : frame_csp cf = []).
Abbreviation ahead := (ahead cf).
Abbreviation on_run := (on_run module func_type local_types src).
Abbreviation rstep := (rstep module func_type local_types).
Abbreviation ends := (ends module func_type local_types cf).
Abbreviation size := (length (p_done cf)).
Definition pos (c : WASMLoaderContext) : nat := length (p_done c).

Lemma ahead_pos c : on_run c -> (pos c + length (ahead c) = size)%nat.
Proof.
  intros Hon. destruct (on_run_ok _ _ _ MT _ _ Acc _ Hon) as [W A].
  destruct (accepts_below _ _ _ MT _ _ W A) as [_ _ [x Hx] _ _].
  unfold pos, CheckRuns.ahead. rewrite length_drop, Hx, length_app. lia.
Qed.

(** ** Entries of the stack of blocks *)

(** Where a block starts. *)
Definition block_start (c : WASMLoaderContext) : Prop :=
  on_run c /\ exists b bs, frame_csp c = b :: bs /\ start_addr b = pos c /\ else_addr b = None.

(** The address of an [else], one byte before the context behind it. *)
Definition else_pos (oe : option WASMLoaderContext) : option nat := (fun c => (pos c - 1)%nat) <$> oe.

Definition closed_entry (e : block_entry) : Prop :=
  exists cS oe cE, block_start cS /\ ends (length (frame_csp cS)) cS oe cE
    /\ be_start e = Some (pos cS) /\ be_else e = else_pos oe /\ be_end e = Some (pos cE).

(** The block at level [k] is open at [c]; its [else] was seen before [seen]. *)
Definition open_entry (k : nat) (c : WASMLoaderContext) (e : block_entry) : Prop :=
  exists cS seen, block_start cS /\ length (frame_csp cS) = k
    /\ be_start e = Some (pos cS) /\ be_else e = else_pos seen
    /\ (forall oe cE, ends k c oe cE -> ends k cS (match seen with Some x => Some x | None => oe end) cE)
    /\ (seen <> None -> forall pre b bs, frame_csp c = pre ++ b :: bs -> S (length bs) = k -> else_addr b <> None).

Definition stack_ok (k : nat) (c : WASMLoaderContext) (st : list block_entry) : Prop :=
  forall i e, st !! i = Some e ->
    ((k + i <= length (frame_csp c))%nat -> open_entry (k + i) c e)
    /\ ((length (frame_csp c) < k + i)%nat -> be_start e = None \/ closed_entry e).

Lemma open_entry_step k c c' e :
  on_run c -> rstep c c' -> open_entry k c e -> (k <= length (frame_csp c) -> k <= length (frame_csp c'))%nat ->
  (1 <= k <= length (frame_csp c))%nat ->
  (length (frame_csp c) = k -> head (ahead c) <> Some (opb WASM_OP_ELSE)) -> open_entry k c' e.
Proof.
  intros Hon St (cS & seen & H1 & H2 & H3 & H4 & H5 & H6) Hk Hk1 Hh.
  exists cS, seen. split_and!; try done.
  - intros oe cE He. apply H5. eapply ends_step; [exact St|lia|done|done].
  - intros Hs pre' b' bs E' Hl.
    destruct (on_run_rstep _ _ _ MT _ _ Acc _ _ Hon St) as [_ R].
    destruct (on_run_ok _ _ _ MT _ _ Acc _ Hon) as [W _].
    assert (exists pre b bs0, frame_csp c = pre ++ b :: bs0 /\ S (length bs0) = k) as (pre & b & bs0 & E & Hl0).
    { exists (take (length (frame_csp c) - k) (frame_csp c)).
      destruct (drop (length (frame_csp c) - k) (frame_csp c)) as [|b bs0] eqn:Ed.
      - apply (f_equal length) in Ed. rewrite length_drop in Ed. cbn in Ed. lia.
      - exists b, bs0. split; [by rewrite <- Ed, take_drop|].
        apply (f_equal length) in Ed. rewrite length_drop in Ed. cbn in Ed. lia. }
    destruct (round_outer _ _ _ _ _ pre b bs0 W R E) as (pre2 & b2 & E2 & S2 & _); [lia|].
    rewrite E2 in E'.
    apply app_inj_2 in E' as [_ [= -> ->]]; [|cbn; lia].
    apply (sb_else _ _ S2). by eapply (H6 Hs pre b).
Qed.


Lemma stack_same k c c' st :
  on_run c -> rstep c c' -> (1 <= k)%nat -> length (frame_csp c') = length (frame_csp c) ->
  head (ahead c) <> Some (opb WASM_OP_ELSE) -> stack_ok k c st -> stack_ok k c' st.
Proof.
  intros Hon St Hk Hl Hh Ok i e He. destruct (Ok i e He) as [H1 H2]. rewrite Hl. split; [|done].
  intros Hi. eapply open_entry_step; [done..|auto|lia|lia|done].
Qed.

Lemma stack_block k c c' st :
  on_run c -> rstep c c' -> (1 <= k <= length (frame_csp c))%nat ->
  length (frame_csp c') = S (length (frame_csp c)) -> block_start c' ->
  head (ahead c) <> Some (opb WASM_OP_ELSE) -> stack_ok k c st ->
  stack_ok k c' (alter (begin_entry (pos c')) (length (frame_csp c) + 1 - k)%nat st).
Proof.
  intros Hon St Hk Hl Hb Hh Ok i e He. apply alter_Some in He.
  rewrite Hl. destruct He as [(-> & e0 & He0 & ->)|[Hne He]].
  - split; [|lia]. intros _. exists c', None. split_and!; try done. lia.
  - destruct (Ok i e He) as [H1 H2]. split.
    + intros Hi. eapply open_entry_step; [done..|apply H1; lia|lia|lia|done].
    + intros Hi. apply H2. lia.
Qed.

Lemma stack_end k c c' st b bls :
  on_run c -> rstep c c' -> (1 <= k <= length (frame_csp c))%nat ->
  ahead c = opb WASM_OP_END :: ahead c' -> end_done c c' b bls -> stack_ok k c st ->
  stack_ok k c' (alter (set_be_end (Some (pos c))) (length (frame_csp c) - k)%nat st).
Proof.
  intros Hon St Hk Ha En Ok i e He. apply alter_Some in He.
  assert (S (length (frame_csp c')) = length (frame_csp c)) as Hl.
  { by rewrite (en_csp _ _ _ _ En), (en_csp' _ _ _ _ En). }
  destruct He as [(-> & e0 & He0 & ->)|[Hne He]].
  - destruct (Ok _ _ He0) as [H1 _]. split; [lia|]. intros _. right.
    destruct H1 as (cS & seen & H1 & H2 & H3 & H4 & H5 & H6); [lia|].
    exists cS, seen, c. split_and!; try done. rewrite H2.
    replace seen with (match seen with Some x => Some x | None => None end) by (by destruct seen).
    apply H5. eapply ends_here; [done..|lia].
  - destruct (Ok i e He) as [H1 H2]. split.
    + intros Hi. eapply open_entry_step; [done..|apply H1; lia|lia|lia|by rewrite Ha].
    + intros Hi. apply H2. lia.
Qed.

Lemma stack_else k c c' st b bls p :
  on_run c -> rstep c c' -> (1 <= k <= length (frame_csp c))%nat ->
  ahead c = opb WASM_OP_ELSE :: ahead c' -> else_done c c' b bls p -> pos c' = S (pos c) ->
  stack_ok k c st ->
  stack_ok k c' (alter (set_be_else (Some (pos c))) (length (frame_csp c) - k)%nat st).
Proof.
  intros Hon St Hk Ha El Hp Ok i e He. apply alter_Some in He.
  assert (length (frame_csp c') = length (frame_csp c)) as Hl.
  { by rewrite (el_csp _ _ _ _ _ El), (el_csp' _ _ _ _ _ El). }
  rewrite Hl. destruct He as [(-> & e0 & He0 & ->)|[Hne He]].
  - destruct (Ok _ _ He0) as [H1 _]. split; [|lia]. intros _.
    destruct H1 as (cS & seen & H1 & H2 & H3 & H4 & H5 & H6); [lia|].
    assert (seen = None) as ->.
    { destruct seen; [|done]. exfalso. eapply (H6 ltac:(done) [] b bls).
      - apply (el_csp _ _ _ _ _ El).
      - rewrite (el_csp _ _ _ _ _ El) in Hk |- *. cbn in Hk |- *. lia.
      - apply (el_none _ _ _ _ _ El). }
    exists cS, (Some c'). split_and!; try done.
    + cbn. f_equal. rewrite Hp. lia.
    + intros oe cE He. apply (H5 (Some c')). eapply ends_else; [done..| |exact He]. lia.
    + intros _ pre b' bs E' Hlb. rewrite (el_csp' _ _ _ _ _ El) in E'.
      destruct pre as [|x pre]; cbn in E'; [by injection E' as <- <-|].
      injection E' as _ E'. apply (f_equal length) in E'. rewrite length_app in E'. cbn in E'.
      rewrite (el_csp _ _ _ _ _ El) in Hk, Hlb. cbn in Hk, Hlb. lia.
  - destruct (Ok i e He) as [H1 H2]. split; [|done]. intros Hi.
    eapply open_entry_step; [done..|auto|lia|lia|lia].
Qed.

(** ** The walk *)

Definition walk_else (label : label_type) (e : option nat) (oe : option WASMLoaderContext) : option nat :=
  match label, oe with
  | LABEL_TYPE_IF, Some c => Some (pos c - 1)%nat
  | _, _ => e
  end.

Lemma walks_else size label d e st p R :
  walks size label d
    (if bool_decide (label = LABEL_TYPE_IF) && (d =? 1)%nat then Some (size - length p - 1)%nat else e)
    (alter (set_be_else (Some (size - length p - 1)%nat)) (d - 1)%nat st) p R ->
  walks size label d e st (opb WASM_OP_ELSE :: p) R.
Proof. intros H [|fuel] Hf; [cbn in Hf; lia|]. cbn [find_loop]. apply H. cbn in Hf. lia. Qed.

Lemma walks_end size label d e st p R :
  d <> 1%nat ->
  walks size label (d - 1) e (alter (set_be_end (Some (size - length p - 1)%nat)) (d - 1)%nat st) p R ->
  walks size label d e st (opb WASM_OP_END :: p) R.
Proof.
  intros Hd H [|fuel] Hf; [cbn in Hf; lia|]. cbn [find_loop].
  change (byte_opcode (opb WASM_OP_END)) with (Some WASM_OP_END). cbv iota.
  destruct (Nat.eqb_spec d 1); [done|]. apply H. cbn in Hf. lia.
Qed.

Lemma walks_last size label e st p :
  walks size label 1 e st (opb WASM_OP_END :: p)
    (Ret (Some (Found e (size - length p - 1) (alter (set_be_end (Some (size - length p - 1)%nat)) 0%nat st)))).
Proof. intros [|fuel] Hf; [cbn in Hf; lia|]. done. Qed.

Lemma walks_block size label d e st o bs type p R :
  o = WASM_OP_BLOCK \/ o = WASM_OP_LOOP \/ o = WASM_OP_IF -> block_code module o bs type ->
  walks size label (S d) e (alter (begin_entry (size - length p)) d st) p R ->
  walks size label d e st (bs ++ p) R.
Proof.
  intros Ho Hb H [|fuel] Hf; [lia|].
  assert (exists o' tl, bs = opb o' :: tl /\
    (forall fuel, find_loop (S fuel) size label d e st (bs ++ p)
       = find_loop fuel size label (S d) e (alter (begin_entry (size - length p)) d st) p)) as (o' & tl & -> & Hs).
  { destruct Hb as [b t Hb|n i t Hn Hi]; do 2 eexists; (split; [done|]); intros fuel'; cbn [app].
    - assert (skip_type (b :: p) = Ret p) as Hs by (cbn; by rewrite Hb).
      destruct Ho as [-> |[-> | ->]]; cbn [find_loop]; rewrite byte_opcode_byte; by rewrite Hs.
    - pose proof (skip_leb_is _ _ _ _ p Hn) as Hs.
      destruct Ho as [-> |[-> | ->]]; cbn [find_loop]; rewrite byte_opcode_byte; cbn [ext_block_opcode]; by rewrite Hs. }
  rewrite Hs. apply H. cbn in Hf. rewrite length_app in Hf. lia.
Qed.

Lemma block_opened_start c c' o ps type c2 :
  on_run c' -> opened c c' o ps type c2 -> block_start c'.
Proof. intros Hon Hop. split; [done|]. do 2 eexists. split; [apply Hop|done]. Qed.

Lemma end_ahead c : on_run c -> frame_csp c <> [] -> opb WASM_OP_END ∈ ahead c.
Proof.
  intros Hon Hne.
  destruct (ends_exists _ _ _ MT _ _ Acc Hcf 1 c Hon) as (oe & cE & He).
  { destruct (frame_csp c); [done|cbn; lia]. }
  clear Hne. revert Hon. induction He as [c c' b bls St Ha En Hk|c c' b bls p oe cE St Ha El Hl Hk H IH
    |c c' oe cE St Hk Hh H IH]; intros Hon.
  - rewrite Ha. apply elem_of_cons. auto.
  - destruct (on_run_rstep _ _ _ MT _ _ Acc _ _ Hon St) as [Hon' _]. rewrite Ha. apply elem_of_cons. auto.
  - destruct (on_run_rstep _ _ _ MT _ _ Acc _ _ Hon St) as [Hon' _]. specialize (IH Hon').
    destruct (rstep_kind _ _ _ MT _ _ Acc Hcf _ _ Hon St) as
      [bs n Ha Hs Hl|o bs type c2 Ha Ho Hb Hop|b bls p Ha El Hl|b bls p c2 Ha Hc El St2 Ha2|b bls Ha En];
      rewrite Ha; rewrite ?elem_of_app, ?elem_of_cons; auto.
Qed.


(** The entries are right at the end of the walk. *)
Definition stack_done (st : list block_entry) : Prop :=
  forall e, e ∈ st -> be_start e = None \/ closed_entry e.

Lemma stack_last k c c' st b bls :
  on_run c -> rstep c c' -> (1 <= k)%nat -> length (frame_csp c) = k ->
  ahead c = opb WASM_OP_END :: ahead c' -> end_done c c' b bls -> stack_ok k c st ->
  stack_done (alter (set_be_end (Some (pos c))) 0%nat st).
Proof.
  intros Hon St Hk Hl Ha En Ok e (i & He)%list_elem_of_lookup.
  assert (1 <= k <= length (frame_csp c))%nat as Hk' by lia.
  pose proof (stack_end _ _ _ _ _ _ Hon St Hk' Ha En Ok) as Ok'. rewrite Hl, Nat.sub_diag in Ok'.
  destruct (Ok' i e He) as [_ H]. apply H. rewrite (en_csp' _ _ _ _ En).
  rewrite (en_csp _ _ _ _ En) in Hl. cbn in Hl. lia.
Qed.

Lemma pos_ahead c (x : bytes) : on_run c -> length x = length (ahead c) -> (size - length x = pos c)%nat.
Proof. intros Hon Hx. pose proof (ahead_pos _ Hon). lia. Qed.

Lemma pos_byte b c c' :
  on_run c -> on_run c' -> ahead c = b :: ahead c' -> (size - length (ahead c') - 1 = pos c)%nat /\ pos c' = S (pos c).
Proof.
  intros Hon Hon' Ha. pose proof (ahead_pos _ Hon) as H1. pose proof (ahead_pos _ Hon') as H2.
  rewrite Ha in H1. cbn in H1. lia.
Qed.

(** A block has one [else] at most. *)
Lemma ends_no_else k c oe cE :
  ends k c oe cE -> forall pre b bs, on_run c -> frame_csp c = pre ++ b :: bs -> S (length bs) = k ->
  else_addr b <> None -> oe = None.
Proof.
  induction 1 as [c c' b0 bls St Ha En Hk|c c' b0 bls p oe cE St Ha El Hl Hk H IH|c c' oe cE St Hk Hh H IH];
    intros pre b bs Hon Hcsp Hlen Hel; [done| |].
  - destruct Hel. pose proof (el_csp _ _ _ _ _ El) as E. rewrite Hcsp in E, Hk.
    rewrite length_app in Hk. cbn in Hk. destruct pre; [|cbn in Hk; lia]. injection E as -> ->.
    apply (el_none _ _ _ _ _ El).
  - destruct (on_run_rstep _ _ _ MT _ _ Acc _ _ Hon St) as [Hon' R].
    destruct (on_run_ok _ _ _ MT _ _ Acc _ Hon) as [W _].
    destruct (round_outer _ _ _ _ _ pre b bs W R Hcsp) as (pre' & b' & E' & S' & _); [lia|].
    eapply IH; [done|exact E'|done|]. by apply (sb_else _ _ S').
Qed.

(** From [c], in the block that [k] blocks enclose or in one inside of it, the
    walk reaches the end [cE] of the block. *)
Definition finds (label : label_type) (k : nat) (c : WASMLoaderContext) (oe : option WASMLoaderContext)
    (cE : WASMLoaderContext) : Prop :=
  forall e st, on_run c -> (1 <= k <= length (frame_csp c))%nat -> stack_ok k c st ->
  exists st', walks size label (length (frame_csp c) + 1 - k) e st (ahead c)
      (Ret (Some (Found (walk_else label e oe) (pos cE) st'))) /\ stack_done st'.

(** The [else] of the block. *)
Lemma finds_own_else label k c c' b bls p oe cE :
  rstep c c' -> ahead c = opb WASM_OP_ELSE :: ahead c' -> else_done c c' b bls p -> length (frame_csp c) = k ->
  ends k c' oe cE -> finds label k c' oe cE -> finds label k c (Some c') cE.
Proof.
  intros St Ha El Hk H IH e st Hon Hk1 Ok. destruct (on_run_rstep _ _ _ MT _ _ Acc _ _ Hon St) as [Hon' _].
  destruct (pos_byte _ _ _ Hon Hon' Ha) as [Hp Hp'].
  assert (length (frame_csp c') = length (frame_csp c)) as Hlen.
  { by rewrite (el_csp _ _ _ _ _ El), (el_csp' _ _ _ _ _ El). }
  pose proof (stack_else _ _ _ _ _ _ _ Hon St Hk1 Ha El Hp' Ok) as Ok'.
  destruct (IH (if bool_decide (label = LABEL_TYPE_IF) then Some (pos c) else e) _ Hon' ltac:(lia) Ok')
    as (st' & Hw & Hd).
  exists st'. split; [|done]. rewrite Ha. apply walks_else. rewrite Hp.
  replace (length (frame_csp c) + 1 - k)%nat with 1%nat by lia. cbn [Nat.eqb Nat.sub].
  rewrite andb_true_r. replace (length (frame_csp c') + 1 - k)%nat with 1%nat in Hw by lia.
  replace (length (frame_csp c) - k)%nat with 0%nat in Hw by lia.
  replace (walk_else label e (Some c')) with (walk_else label (if bool_decide (label = LABEL_TYPE_IF) then Some (pos c) else e) oe).
  { exact Hw. }
  rewrite (ends_no_else _ _ _ _ H [] _ _ Hon' (el_csp' _ _ _ _ _ El)); [|rewrite (el_csp _ _ _ _ _ El) in Hk; exact Hk|done].
  destruct label; cbn; try done. f_equal. lia.
Qed.

(** An instruction that begins and ends no block. *)
Lemma finds_plain label k c c' bs n oe cE :
  rstep c c' -> (k <= length (frame_csp c'))%nat -> ahead c = bs ++ replicate n NOP ++ ahead c' ->
  skips bs \/ (exists tb, jump_code func_type c bs tb) -> plain_csp c c' ->
  finds label k c' oe cE -> finds label k c oe cE.
Proof.
  intros St Hk Ha Hs Hl IH e st Hon Hk1 Ok. destruct (on_run_rstep _ _ _ MT _ _ Acc _ _ Hon St) as [Hon' _].
  assert (1 <= k <= length (frame_csp c'))%nat as Hk2 by lia.
  apply plain_csp_length in Hl. assert (head (ahead c) <> Some (opb WASM_OP_ELSE)) as Hh'.
  { rewrite Ha. destruct Hs as [Hs|[tb Hs]]; [by eapply skips_head|by eapply jump_head]. }
  destruct (IH e st Hon' Hk2) as (st' & Hw & Hd); [eapply stack_same; [exact Hon|done|lia|done..]|].
  exists st'. split; [|done]. rewrite Ha. rewrite Hl in Hw.
  apply (walks_pad _ _ _ _ _ n) in Hw.
  destruct Hs as [(o & tl & -> & Ho & Hs)|[tb Hs]].
  { eapply walks_plain; [done|apply Hs| |exact Hw]. rewrite !length_app. lia. }
  destruct (jump_skips _ _ _ _ Hs) as (o & tl & -> & Ho & [Hs'|Hs']).
  { eapply walks_plain; [done|apply Hs'| |exact Hw]. rewrite !length_app. lia. }
  eapply walks_plain; [done|apply Hs'| |].
  - rewrite strip_pad. eapply (strip_nonempty _ (opb WASM_OP_END)); [|done].
    apply end_ahead; [done|]. intros E. rewrite E in Hk2. cbn in Hk2. lia.
  - etrans; [apply strip_length|]. rewrite !length_app. lia.
  - by apply walks_strip.
Qed.

(** A step inside of the block. *)
Lemma finds_step label k c c' oe cE :
  rstep c c' -> (k <= length (frame_csp c'))%nat ->
  (length (frame_csp c) = k -> head (ahead c) <> Some (opb WASM_OP_ELSE)) ->
  finds label k c' oe cE -> finds label k c oe cE.
Proof.
  intros St Hk Hh IH e st Hon Hk1 Ok. destruct (on_run_rstep _ _ _ MT _ _ Acc _ _ Hon St) as [Hon' _].
  assert (1 <= k <= length (frame_csp c'))%nat as Hk2 by lia.
  destruct (rstep_kind _ _ _ MT _ _ Acc Hcf _ _ Hon St) as
    [bs n Ha Hs Hl|o bs type c2 Ha Ho Hb Hop|b bls p Ha El Hl|b bls p c2 Ha Hc El St2 Ha2|b bls Ha En].
  - by eapply (finds_plain label k c c').
  - assert (length (frame_csp c') = S (length (frame_csp c))) as Hl by (by rewrite (op_csp _ _ _ _ _ _ Hop)).
    assert (head (ahead c) <> Some (opb WASM_OP_ELSE)) as Hh'.
    { rewrite Ha. by destruct Hb; destruct Ho as [-> |[-> | ->]]. }
    destruct (IH e (alter (begin_entry (pos c')) (length (frame_csp c) + 1 - k)%nat st) Hon' Hk2)
      as (st' & Hw & Hd).
    { eapply stack_block; [done..| |done|done]. by eapply block_opened_start. }
    exists st'. split; [|done]. rewrite Ha. eapply walks_block; [done|done|].
    rewrite (pos_ahead c') by done. rewrite Hl in Hw.
    by replace (S (length (frame_csp c)) + 1 - k)%nat with (S (length (frame_csp c) + 1 - k)) in Hw by lia.
  - destruct (pos_byte _ _ _ Hon Hon' Ha) as [Hp Hp'].
    assert (length (frame_csp c') = length (frame_csp c)) as Hlen.
    { by rewrite (el_csp _ _ _ _ _ El), (el_csp' _ _ _ _ _ El). }
    assert (length (frame_csp c) <> k) as Hne.
    { intros E. specialize (Hh E). by rewrite Ha in Hh. }
    pose proof (stack_else _ _ _ _ _ _ _ Hon St Hk1 Ha El Hp' Ok) as Ok'.
    destruct (IH e _ Hon' Hk2 Ok') as (st' & Hw & Hd). exists st'. split; [|done].
    rewrite Ha. apply walks_else. rewrite Hp.
    destruct (Nat.eqb_spec (length (frame_csp c) + 1 - k) 1); [lia|]. rewrite andb_false_r.
    rewrite Hlen in Hw. by replace (length (frame_csp c) + 1 - k - 1)%nat with (length (frame_csp c) - k)%nat by lia.
  - assert (length (frame_csp c') = length (frame_csp c)) as Hlen.
    { by rewrite (el_csp _ _ _ _ _ El), (el_csp' _ _ _ _ _ El). }
    destruct (IH e st Hon' Hk2) as (st' & Hw & Hd); [eapply stack_same; [exact Hon|done|lia|done|by rewrite Ha2|done]|].
    exists st'. rewrite Ha. rewrite Hlen in Hw. done.
  - destruct (pos_byte _ _ _ Hon Hon' Ha) as [Hp _].
    assert (S (length (frame_csp c')) = length (frame_csp c)) as Hlen.
    { by rewrite (en_csp _ _ _ _ En), (en_csp' _ _ _ _ En). }
    pose proof (stack_end _ _ _ _ _ _ Hon St Hk1 Ha En Ok) as Ok'.
    destruct (IH e _ Hon' Hk2 Ok') as (st' & Hw & Hd). exists st'. split; [|done].
    rewrite Ha. apply walks_end; [lia|]. rewrite Hp.
    replace (length (frame_csp c) + 1 - k - 1)%nat with (length (frame_csp c) - k)%nat by lia.
    by replace (length (frame_csp c') + 1 - k)%nat with (length (frame_csp c) - k)%nat in Hw by lia.
Qed.

Lemma find_ends label k c oe cE : ends k c oe cE -> finds label k c oe cE.
Proof.
  induction 1 as [c c' b bls St Ha En Hk|c c' b bls p oe cE St Ha El Hl Hk H IH|c c' oe cE St Hk Hh H IH];
    [|by eapply finds_own_else|by eapply finds_step].
  intros e st Hon Hk1 Ok. destruct (on_run_rstep _ _ _ MT _ _ Acc _ _ Hon St) as [Hon' _].
  destruct (pos_byte _ _ _ Hon Hon' Ha) as [Hp _].
  exists (alter (set_be_end (Some (pos c))) 0%nat st). split; [|exact (stack_last _ _ _ _ _ _ Hon St (proj1 Hk1) Hk Ha En Ok)].
  rewrite Ha. replace (length (frame_csp c) + 1 - k)%nat with 1%nat by lia.
  pose proof (walks_last size label e st (ahead c')) as Hw. rewrite Hp in Hw.
  by replace (walk_else label e None) with e by (by destruct label).
Qed.


(** ** One start for each address *)

Lemma rtc_linear c c1 c2 : rtc rstep c c1 -> rtc rstep c c2 -> rtc rstep c1 c2 \/ rtc rstep c2 c1.
Proof.
  intros H. revert c2. induction H as [c|c c' c1 S1 H1 IH]; intros c2 H2; [by left|].
  inversion H2 as [|? c'' ? S2 H2']; subst; [right; by eapply rtc_l|].
  assert (c'' = c') as -> by (by eapply rstep_fun). by apply IH.
Qed.

Lemma pos_step c c' : on_run c -> rstep c c' ->
  (pos c < pos c')%nat \/ (pos c = pos c' /\ exists b bs, frame_csp c' = b :: bs /\ else_addr b <> None
                            /\ forall c2, rstep c' c2 -> (pos c' < pos c2)%nat).
Proof.
  intros Hon St. destruct (on_run_rstep _ _ _ MT _ _ Acc _ _ Hon St) as [Hon' _].
  pose proof (ahead_pos _ Hon) as H1. pose proof (ahead_pos _ Hon') as H2.
  destruct (rstep_kind _ _ _ MT _ _ Acc Hcf _ _ Hon St) as
    [bs n Ha Hs Hl|o bs type c2 Ha Ho Hb Hop|b bls p Ha El Hl|b bls p c2 Ha Hc El St2 Ha2|b bls Ha En];
    [left; rewrite Ha in H1|left; rewrite Ha in H1|left; rewrite Ha in H1|right|left; rewrite Ha in H1].
  - destruct Hs as [(o & tl & -> & _)|[tb Hs]]; [|destruct Hs]; rewrite ?length_app in H1; cbn in H1;
      rewrite ?length_app in H1; lia.
  - destruct Hb; rewrite ?length_app in H1; cbn in H1; rewrite ?length_app in H1; lia.
  - cbn in H1. lia.
  - rewrite Ha in H1. split; [lia|]. exists (set_polymorphic false (set_else_addr (Some p) b)), bls.
    split; [apply (el_csp' _ _ _ _ _ El)|]. split; [done|]. intros c3 St3.
    assert (c3 = c2) as -> by (by eapply rstep_fun).
    destruct (on_run_rstep _ _ _ MT _ _ Acc _ _ Hon' St2) as [Hon2 _].
    pose proof (ahead_pos _ Hon2) as H3. rewrite <- Ha, Ha2 in H2. cbn in H2. lia.
  - cbn in H1. lia.
Qed.

Lemma pos_run c c' : on_run c -> rtc rstep c c' -> (pos c <= pos c')%nat.
Proof.
  intros Hon H. revert Hon. induction H as [c|c c1 c' S1 H1 IH]; intros Hon; [done|].
  destruct (on_run_rstep _ _ _ MT _ _ Acc _ _ Hon S1) as [Hon1 _]. specialize (IH Hon1).
  destruct (pos_step _ _ Hon S1) as [?|[? _]]; lia.
Qed.

Lemma block_start_le c1 c2 :
  on_run c1 -> block_start c2 -> pos c1 = pos c2 -> rtc rstep c1 c2 -> c1 = c2.
Proof.
  intros Hon (Hon2 & b & bs & E & _ & Hb) Hp H. inversion H as [|? c' ? S1 H1]; subst; [done|].
  destruct (on_run_rstep _ _ _ MT _ _ Acc _ _ Hon S1) as [Hon1 _].
  pose proof (pos_run _ _ Hon1 H1) as Hle.
  destruct (pos_step _ _ Hon S1) as [?|(Hq & b' & bs' & E' & Hb' & Hnext)]; [lia|].
  inversion H1 as [|? c3 ? S3 H3]; subst.
  - rewrite E in E'. injection E' as <- <-. done.
  - destruct (on_run_rstep _ _ _ MT _ _ Acc _ _ Hon1 S3) as [Hon3 _].
    pose proof (pos_run _ _ Hon3 H3). specialize (Hnext _ S3). lia.
Qed.

Lemma block_start_inj c1 c2 : block_start c1 -> block_start c2 -> pos c1 = pos c2 -> c1 = c2.
Proof.
  intros H1 H2 Hp. destruct (rtc_linear _ _ _ (proj1 H1) (proj1 H2)) as [H|H].
  - eapply block_start_le; [apply H1|done..].
  - symmetry. eapply block_start_le; [apply H2|done..].
Qed.

(** ** The cache *)

Context (code_addr : Z).
Definition abs (a : nat) : Z := code_addr + Z.of_nat a.

(** An entry that is right for a block of this function. *)
Definition entry_right (e : BlockAddr) : Prop :=
  exists cS oe cE, block_start cS /\ ends (length (frame_csp cS)) cS oe cE
    /\ ba_start_addr e = abs (pos cS) /\ ba_else_addr e = abs <$> else_pos oe
    /\ ba_end_addr e = Some (abs (pos cE)).

Definition in_cache (e : BlockAddr) (cache : addr_cache) : Prop :=
  exists i row, cache !! i = Some row /\ e ∈ row.

Lemma cache_add_in e b cache : in_cache e (cache_add cache b) -> e = b \/ in_cache e cache.
Proof.
  intros (i & row & Hi & He). unfold cache_add in Hi. apply lookup_insert_Some in Hi as [[<- <-]|[Hne Hi]].
  2:{ right. by exists i, row. }
  assert (forall e, e ∈ cache_row cache (ba_start_addr b) -> in_cache e cache) as Hrow.
  { unfold cache_row. intros e' He'. destruct (cache !! _) as [row|] eqn:E; cbn in He'; [|by apply not_elem_of_nil in He'].
    by exists (cache_index (ba_start_addr b)), row. }
  destruct (_ <? _)%nat.
  - apply elem_of_app in He as [He|He]; [auto|]. apply list_elem_of_singleton in He. auto.
  - apply elem_of_cons in He as [He|He]; [auto|]. right. apply Hrow. by eapply elem_of_take in He as (? & ? & ?); eapply list_elem_of_lookup_2.
Qed.

Lemma cache_find_in cache a e : cache_find cache a = Some e -> in_cache e cache /\ ba_start_addr e = a.
Proof.
  unfold cache_find. intros ([i e'] & H & ->)%fmap_Some. apply list_find_Some in H as (Hl & Hs & _).
  split; [|done]. unfold cache_row in Hl. destruct (cache !! _) as [row|] eqn:E; [|done].
  cbn in *. exists (cache_index a), row. split; [done|]. by eapply list_elem_of_lookup_2.
Qed.

Lemma add_blocks_in st cache e :
  stack_done st -> in_cache e (add_blocks code_addr st cache) -> in_cache e cache \/ entry_right e.
Proof.
  revert cache. induction st as [|b st IH]; intros cache Hd H; cbn in H; [by left|].
  destruct (be_start b) as [start|] eqn:Hb; [|by left].
  apply IH in H as [H|H]; [|by right|].
  2:{ intros e' He'. apply Hd. apply elem_of_cons. by right. }
  apply cache_add_in in H as [->|H]; [|by left]. right.
  destruct (Hd b) as [H|(cS & oe & cE & H1 & H2 & H3 & H4 & H5)].
  { apply elem_of_cons. by left. }
  { congruence. }
  exists cS, oe, cE. rewrite Hb in H3. injection H3 as ->. cbn. rewrite H4, H5. done.
Qed.

Lemma start_stack c :
  block_start c ->
  stack_ok (length (frame_csp c)) c
    (BlockEntry (Some (pos c)) None None :: replicate (block_stack_size - 1) (BlockEntry None None None)).
Proof.
  intros Hb i e He. destruct i as [|i].
  - injection He as <-. split; [|lia]. intros _. exists c, None. split_and!; try done.
  - split; [lia|]. intros _. left. rewrite lookup_cons_ne_0 in He by done. cbn [pred] in He.
    by apply lookup_replicate_1 in He as [-> _].
Qed.

(** The addresses of the [else] and the [end] of a block, whatever the cache
    holds for the addresses of other blocks. *)
Lemma find_block_addr_ends cache c oe cE label :
  block_start c -> ends (length (frame_csp c)) c oe cE ->
  (forall e, in_cache e cache -> ba_start_addr e = abs (pos c) -> entry_right e) ->
  exists else_addr cache',
    wasm_loader_find_block_addr cache code_addr (p_done cf) (pos c) label
    = Ret (Some (else_addr, Some (abs (pos cE)), cache'))
    /\ (label = LABEL_TYPE_IF -> else_addr = abs <$> else_pos oe)
    /\ forall e, in_cache e cache' -> in_cache e cache \/ entry_right e.
Proof.
  intros Hb He Hcache. unfold wasm_loader_find_block_addr. fold (abs (pos c)).
  destruct (cache_find cache (abs (pos c))) as [e|] eqn:Ef.
  - apply cache_find_in in Ef as [Hin Ha]. destruct (Hcache e Hin Ha) as (cS & oe' & cE' & H1 & H2 & H3 & H4 & H5).
    assert (cS = c) as ->.
    { apply block_start_inj; [done..|]. rewrite H3 in Ha. unfold abs in Ha. lia. }
    destruct (ends_fun _ _ _ _ _ _ _ _ _ _ H2 He) as [-> ->].
    exists (ba_else_addr e), cache. rewrite H5. split_and!; [done|done|by left].
  - assert (1 <= length (frame_csp c) <= length (frame_csp c))%nat as Hk.
    { destruct Hb as (_ & b & bs & E & _). rewrite E. cbn. lia. }
    destruct (find_ends label _ _ _ _ He None _ (proj1 Hb) Hk (start_stack _ Hb)) as (st' & Hw & Hd).
    replace (length (frame_csp c) + 1 - length (frame_csp c))%nat with 1%nat in Hw by lia.
    change (drop (pos c) (p_done cf)) with (ahead c). cbn zeta. rewrite (Hw (S (length (ahead c)))) by lia.
    eexists _, _. split; [done|]. cbn. split; [by intros ->; destruct oe|].
    intros e H. by apply (add_blocks_in st').
Qed.

End find.
