(* ===== verification/Labels.v ===== *)
(** * Inside of a block

    The contexts of an accepted run from the start of a block to its end, and
    what the interpreter needs to know of the places it jumps to. *)

From S2P Require Import Prelude Memory Leb LebSpec Opcode Loader LoaderSpec Bytecode CheckSpec CheckControl BlockAddr SkipSpec CheckRound CheckRuns Regions FindBlock.

Section labels.
Context (module : WASMModule) (func_type : WASMFuncType) (local_types : list value_type).
Context (MT : module_types module func_type local_types).
Context (src : bytes) (cf : WASMLoaderContext).
Context (Acc : accepts module func_type local_types cf (start_ctx func_type src)) (Hcf : frame_csp cf = []).
Abbreviation ahead := (ahead cf).
Abbreviation on_run := (on_run module func_type local_types src).
Abbreviation rstep := (rstep module func_type local_types).
Abbreviation ends := (ends module func_type local_types cf).
Abbreviation block_start := (block_start module func_type local_types src).

(** From [a] to [c] the block at level [k] stays open. *)
Definition inside (k : nat) (a c : WASMLoaderContext) : Prop :=
  rtc (fun x y => rstep x y /\ (k <= length (frame_csp y))%nat) a c.

Lemma inside_run k a c : inside k a c -> rtc rstep a c.
Proof. induction 1 as [|x y z [H _] _ IH]; [constructor|by eapply rtc_l]. Qed.

Lemma inside_step k a c c' : inside k a c -> rstep c c' -> (k <= length (frame_csp c'))%nat -> inside k a c'.
Proof. intros H1 H2 H3. eapply rtc_r; [exact H1|done]. Qed.

Lemma inside_trans k a b c : inside k a b -> inside k b c -> inside k a c.
Proof. intros H1 H2. unfold inside. by etrans. Qed.

Lemma inside_le k k' a c : inside k a c -> (k' <= k)%nat -> inside k' a c.
Proof. intros H Hk. eapply rtc_subrel; [|exact H]. intros x y [H1 H2]. split; [done|lia]. Qed.

Lemma on_run_run a c : on_run a -> rtc rstep a c -> on_run c.
Proof. intros H1 H2. unfold Regions.on_run. by etrans. Qed.

Lemma ends_inside k c oe cE : ends k c oe cE -> (k <= length (frame_csp c))%nat ->
  inside k c cE /\ (forall cL, oe = Some cL -> inside k c cL /\ (k <= length (frame_csp cL))%nat).
Proof.
  induction 1 as [c c' b bls St Ha En Hk|c c' b bls p oe cE St Ha El Hl Hk H IH|c c' oe cE St Hk Hh H IH]; intros Hc.
  - split; [constructor|done].
  - assert (k <= length (frame_csp c'))%nat as Hc'.
    { rewrite (el_csp _ _ _ _ _ El) in Hc. by rewrite (el_csp' _ _ _ _ _ El). }
    destruct (IH Hc') as [H1 _]. split.
    + eapply rtc_l; [|exact H1]. done.
    + intros cL [= <-]. split; [|done]. eapply rtc_l; [|constructor]. done.
  - destruct (IH Hk) as [H1 H2]. split.
    + eapply rtc_l; [|exact H1]. done.
    + intros cL Ho. destruct (H2 cL Ho) as [H3 H4]. split; [|done]. eapply rtc_l; [|exact H3]. done.
Qed.

(** The end of an open block does not depend on where we are in it. *)
Lemma inside_ends k k' a c oe cE :
  on_run a -> inside k a c -> (1 <= k' <= k)%nat -> (k' <= length (frame_csp a))%nat ->
  ends k' c oe cE -> exists oe', ends k' a oe' cE.
Proof.
  intros Hon H. revert Hon oe. induction H as [|x y z [H1 H2] _ IH]; intros Hon oe Hk Hka He; [eauto|].
  destruct (on_run_rstep _ _ _ MT _ _ Acc _ _ Hon H1) as [Hon' _].
  destruct (IH Hon' oe) as [oe' He']; [done|lia|done|].
  pose proof (rstep_kind _ _ _ MT _ _ Acc Hcf _ _ Hon H1) as Hkind.
  destruct (decide (length (frame_csp x) = k' /\ head (ahead x) = Some (opb WASM_OP_ELSE))) as [[Hl Hh]|Hno].
  - destruct (kind_else_head _ _ _ _ _ _ Hkind Hh) as (b & bls & p & Ha & El & Hp).
    exists (Some y). by eapply ends_else.
  - exists oe'. eapply ends_step; [done|lia|tauto|done].
Qed.

Lemma rstep_measure c c' : on_run c -> rstep c c' -> (measure c' < measure c)%nat.
Proof. intros Hon St. eapply round_measure, on_run_rstep; done. Qed.

Lemma run_measure c c' : on_run c -> rtc rstep c c' -> (measure c' <= measure c)%nat.
Proof.
  intros Hon H. revert Hon. induction H as [|x y z St _ IH]; intros Hon; [done|].
  pose proof (rstep_measure _ _ Hon St). destruct (on_run_rstep _ _ _ MT _ _ Acc _ _ Hon St) as [Hon' _].
  specialize (IH Hon'). lia.
Qed.

(** A block that was opened before another one is open at its start. *)
Lemma inside_prefix k a b c :
  on_run a -> inside k a c -> rtc rstep a b -> rtc rstep b c -> inside k a b.
Proof.
  intros Hon Hi Hab. revert Hon Hi. induction Hab as [|x y z St Hyz IH]; intros Hon Hi Hbc; [constructor|].
  destruct (on_run_rstep _ _ _ MT _ _ Acc _ _ Hon St) as [Hon' _].
  inversion Hi as [|? y' ? [St' Hk] Hi']; subst.
  - exfalso. pose proof (rstep_measure _ _ Hon St).
    assert (on_run z) as Honz by (by eapply on_run_run).
    pose proof (run_measure _ _ Hon' Hyz). pose proof (run_measure _ _ Honz Hbc). lia.
  - assert (y' = y) as -> by (by eapply rstep_fun). eapply rtc_l; [done|]. by apply IH.
Qed.

Lemma inside_length k a c : inside k a c -> (k <= length (frame_csp a))%nat -> (k <= length (frame_csp c))%nat.
Proof. induction 1 as [|x y z [H1 H2] _ IH]; [done|]. intros _. by apply IH. Qed.

Lemma inside_outer k k' a b c :
  on_run a -> on_run b -> inside k' a c -> inside k b c -> (k' < k)%nat ->
  length (frame_csp a) = k' -> length (frame_csp b) = k -> inside k' a b.
Proof.
  intros Ha Hb H1 H2 Hk La Lb.
  destruct (rtc_linear _ _ _ _ _ _ Ha Hb) as [H|H].
  - eapply inside_prefix; [done|exact H1|done|by eapply inside_run].
  - exfalso. assert (inside k b a) as H3 by (eapply inside_prefix; [done|exact H2|done|by eapply inside_run]).
    apply inside_length in H3; [|lia]. lia.
Qed.

(** ** An [if] without [else] *)

Lemma again_ends c c' b bls p c2 k :
  on_run c -> rstep c c' -> else_done c c' b bls p -> rstep c' c2 -> ahead c' = opb WASM_OP_END :: ahead c2 ->
  length (frame_csp c') = k -> ends k c' None c'.
Proof.
  intros Hon St El St2 Ha Hk. destruct (on_run_rstep _ _ _ MT _ _ Acc _ _ Hon St) as [Hon' _].
  destruct (rstep_kind _ _ _ MT _ _ Acc Hcf _ _ Hon' St2) as
    [bs n Ha2 Hs Hl|o bs type c3 Ha2 Ho Hb Hop|b2 bls2 p2 Ha2 El2 Hl|b2 bls2 p2 c3 Ha2 Hc El2 St3 Ha3|b2 bls2 Ha2 En].
  - exfalso. rewrite Ha2 in Ha. destruct Hs as [(o & tl & -> & Ho & _)|[tb Hs]].
    + cbn in Ha. injection Ha as Ho' _. apply (f_equal byte_opcode) in Ho'. rewrite byte_opcode_byte in Ho'.
      injection Ho' as ->. done.
    + by destruct Hs.
  - exfalso. rewrite Ha2 in Ha. destruct Hb; destruct Ho as [-> |[-> | ->]]; done.
  - exfalso. by rewrite Ha2 in Ha.
  - exfalso. pose proof (el_none _ _ _ _ _ El2) as Hn. pose proof (el_csp _ _ _ _ _ El2) as E.
    rewrite (el_csp' _ _ _ _ _ El) in E. injection E as <- <-. done.
  - by eapply ends_here.
Qed.

(** At the end of an [if] without [else] only its parameters are there. *)
Lemma ends_no_else_params k c oe cE :
  ends k c oe cE -> oe = None -> forall pre b bs, on_run c -> frame_csp c = pre ++ b :: bs -> S (length bs) = k ->
  open_if b = true ->
  frame_ref cE = stk (block_type_get_param_types (block_type b)) ++ low (blk_stack_cell_num b) (frame_ref c)
  /\ exists b', frame_csp cE = b' :: bs /\ is_stack_polymorphic b' = false.
Proof.
  induction 1 as [c c' b0 bls St Ha En Hk|c c' b0 bls p oe cE St Ha El Hl Hk H IH|c c' oe cE St Hk Hh H IH];
    intros Hoe pre b bs Hon Hcsp Hlen Hif; [|done|].
  - exfalso. assert (pre = []) as ->.
    { rewrite Hcsp, length_app in Hk. cbn in Hk. destruct pre; [done|cbn in Hk; lia]. }
    pose proof (en_csp _ _ _ _ En) as E. rewrite Hcsp in E. injection E as -> ->.
    apply (en_final _ _ _ _ En). unfold open_if in Hif. apply andb_true_iff in Hif as [H1 H2].
    apply bool_decide_eq_true in H1, H2. done.
  - destruct (on_run_rstep _ _ _ MT _ _ Acc _ _ Hon St) as [Hon' R].
    destruct (on_run_ok _ _ _ MT _ _ Acc _ Hon) as [W _].
    destruct (round_outer _ _ _ _ _ pre b bs W R Hcsp) as (pre' & b' & E' & S' & L' & Hsame); [lia|].
    assert (open_if b' = true -> frame_ref cE = stk (block_type_get_param_types (block_type b))
        ++ low (blk_stack_cell_num b) (frame_ref c)
      /\ exists b'', frame_csp cE = b'' :: bs /\ is_stack_polymorphic b'' = false) as Hrec.
    { intros Hif'. destruct (IH Hoe pre' b' bs Hon' E' Hlen Hif') as [H1 H2]. split; [|done].
      rewrite H1, (sb_type _ _ S'), (sb_cells _ _ S'), L'. done. }
    destruct pre as [|b1 pre]; [|apply Hrec; by rewrite Hsame].
    cbn in Hcsp. clear Hsame.
    destruct (rstep_kind _ _ _ MT _ _ Acc Hcf _ _ Hon St) as
      [bs2 n Ha2 Hs Hl|o bs2 type c3 Ha2 Ho Hb Hop|b2 bls2 p2 Ha2 El2 Hl|b2 bls2 p2 c3 Ha2 Hc El2 St3 Ha3|b2 bls2 Ha2 En].
    + (* the block stays, its flags apart *)
      apply Hrec. unfold open_if in *. apply andb_true_iff in Hif as [Hif1 Hif2].
      assert (blk_label_type b' = blk_label_type b /\ else_addr b' = else_addr b) as [-> ->]; [|by rewrite Hif1, Hif2].
      assert (pre' = []) as ->.
      { apply plain_csp_length in Hl. rewrite E', Hcsp, length_app in Hl. cbn in Hl. destruct pre'; [done|cbn in Hl; lia]. }
      destruct Hl as [E|(b0 & bs0 & E1 & E2)].
      * rewrite E', Hcsp in E. by injection E as ->.
      * rewrite Hcsp in E1. rewrite E' in E2. injection E1 as -> ->. injection E2 as ->. done.
    + assert (pre' <> []) as Hpre.
      { intros ->. rewrite (op_csp _ _ _ _ _ _ Hop), Hcsp in E'. cbn in E'. injection E' as _ E'.
        apply (f_equal length) in E'. cbn in E'. lia. }
      apply Hrec. rewrite (op_csp _ _ _ _ _ _ Hop), Hcsp in E'. destruct pre' as [|x pre']; [done|].
      cbn in E'. injection E' as _ E'. change (b :: bs) with ([] ++ b :: bs) in E'.
      apply app_inj_2 in E' as [_ [= <-]]; [done|done].
    + exfalso. rewrite Hcsp in Hh. cbn in Hh. rewrite Ha2 in Hh. by apply Hh.
    + pose proof (el_csp _ _ _ _ _ El2) as E1. rewrite Hcsp in E1. injection E1 as <- <-.
      assert (length (frame_csp c') = k) as Hk' by (rewrite (el_csp' _ _ _ _ _ El2); done).
      assert (ahead c' = opb WASM_OP_END :: CheckRuns.ahead cf c3) as Ha4 by (by rewrite <- Ha2).
      pose proof (again_ends _ _ _ _ _ _ _ Hon St El2 St3 Ha4 Hk') as He.
      destruct (ends_fun _ _ _ _ _ _ _ _ _ _ H He) as [_ ->].
      split; [|eexists; split; [apply (el_csp' _ _ _ _ _ El2)|done]].
      rewrite (el_ref _ _ _ _ _ El2). unfold base. by rewrite Hcsp.
    + exfalso. rewrite (en_csp' _ _ _ _ En) in Hk. pose proof (en_csp _ _ _ _ En) as E1. rewrite Hcsp in E1.
      injection E1 as _ <-. lia.
Qed.

End labels.
