(* ===== verification/InterpSpec.v ===== *)
(** * A logic for the interpreter

    Total correctness of the monad of [Interp.v] up to exceptions: [iwp m Q s]
    says that [m] reaches no undefined behaviour from [s], and that [Q] holds
    unless it raises an exception or a call of the operating system panics. The rules below follow what an instruction
    has read, popped and pushed so far. *)

From S2P Require Import Prelude Memory Leb LebSpec LinearMemory Opcode Loader LoaderSpec Bytecode Numeric BlockAddr Interp.

Definition iwp {S A} (m : IM S A) (Q : A -> istate S -> Prop) (s : istate S) : Prop :=
  match m s with
  | Ret (inr a, s') => Q a s'
  | Ret (inl _, _) => True
  | Fault f => only_panic f
  end.

Section rules.
Context {S : Type}.
Implicit Types (s : istate S).

Lemma iwp_ret {A} (a : A) Q s : Q a s -> iwp (mret a) Q s.
Proof. done. Qed.

Lemma iwp_bind {A B} (m : IM S A) (k : A -> IM S B) Q s :
  iwp m (fun a s' => iwp (k a) Q s') s -> iwp (m ≫= k) Q s.
Proof. unfold iwp, mbind, IM_bind. by destruct (m s) as [[[e|a] s']|]. Qed.

Lemma iwp_mono {A} (m : IM S A) (P Q : A -> istate S -> Prop) s :
  iwp m P s -> (forall a s', P a s' -> Q a s') -> iwp m Q s.
Proof. unfold iwp. destruct (m s) as [[[e|a] s']|]; auto. Qed.

Lemma iwp_get {A} (f : istate S -> A) Q s : Q (f s) s -> iwp (iget f) Q s.
Proof. done. Qed.

Lemma iwp_set f Q s : Q tt (f s) -> iwp (iset f) Q s.
Proof. done. Qed.

Lemma iwp_raise {A} e (Q : A -> istate S -> Prop) s : iwp (raise e) Q s.
Proof. done. Qed.

Lemma iwp_require b Q s : b = true -> Q tt s -> iwp (irequire b) Q s.
Proof. by intros ->. Qed.

Lemma iwp_some {A} (o : option A) a Q s : o = Some a -> Q a s -> iwp (isome o) Q s.
Proof. by intros ->. Qed.

Lemma iwp_result {A} (r : result A) Q s : (forall a, r = inr a -> Q a s) -> iwp (iresult r) Q s.
Proof. destruct r; [done|]. intros H. by apply H. Qed.
End rules.

Definition cell_ok (z : Z) : Prop := 0 <= z < 2 ^ 32.
Abbreviation cells_ok := (Forall cell_ok).

(** ** What the environment promises *)

Section interp.
Context {S : Type} `{AM : !AppMemory S} `{NF : !Natives S}.
Context (module : WASMModule).
Context (ptr_size : Z) (functions : list WASMFunctionInstance).
Context (global_offsets : list nat) (data_segments : list bytes) (table_segs : list (list Z)).
Context (aux_stack_boundary aux_stack_bottom : Z).

(** The laws of the linear memory and of the native functions, with an
    invariant of theirs. *)
Class EnvLaws (inv : S -> Prop) : Prop := {
  el_write e m a b : inv e -> am_memory e = Some m ->
    memory_data m <= a /\ a + zlen b <= memory_data m + memory_data_size m ->
    inv (am_write a b e) /\ am_memory (am_write a b e) = Some m;
  el_grow e m delta : inv e -> am_memory e = Some m -> cell_ok delta ->
    wp only_panic (am_grow delta) (fun _ e' => inv e' /\
      exists m', am_memory e' = Some m' /\ memory_data_size m <= memory_data_size m') e;
  el_native e i t args : inv e -> import_functions module !! i = Some t ->
    length args = param_cell_num t -> cells_ok args ->
    wp only_panic (invoke_native i args) (fun ret e' => inv e'
      /\ (am_memory e = None \/ exists m', am_memory e' = Some m')
      /\ forall x y, ret = Some (x, y) -> cell_ok x /\ cell_ok y) e
}.

Context (inv : S -> Prop) `{EL : !EnvLaws inv}.

(** What was instantiated for the module. *)
Record env_ok (s : istate S) : Prop := {
  eo_globals : forall i g, all_globals module !! i = Some g ->
    exists off, global_offsets !! i = Some off
      /\ (off + 4 * wasm_value_type_cell_num (val_type g) <= length (global_data s))%nat;
  eo_tables : forall i t, all_tables module !! i = Some t ->
    exists ti, table_insts s !! i = Some ti /\ cells_ok (elems ti);
  eo_data : zlen (data_dropped s) = data_seg_count module;
  eo_elem : length (elem_dropped s) = length (table_segments module);
  eo_memory : has_memory module = true ->
    exists m, am_memory (env s) = Some m /\ linear_mem_size s <= memory_data_size m;
  eo_inv : inv (env s)
}.

Record segments_ok : Prop := {
  so_data : zlen data_segments = data_seg_count module;
  so_elem : length table_segs = length (table_segments module);
  so_elem_cells : Forall cells_ok table_segs
}.
Context (SO : segments_ok).

(** ** An instruction in progress *)

(** From [s0] to [s]: [k] bytes read, [p] cells popped and [q] pushed. *)
Record did (s0 s : istate S) (k p q : nat) : Prop := {
  di_frame : exists lp' sp', frame s = Frame (function (frame s0)) (ip (frame s0) + k) lp' sp'
      (csp (frame s0)) (frame_size (frame s0))
    /\ length sp' = (length (sp (frame s0)) - p + q)%nat /\ cells_ok sp'
    /\ length lp' = length (lp (frame s0)) /\ cells_ok lp';
  di_popped : (p <= length (sp (frame s0)))%nat;
  di_prev : prev_frames s = prev_frames s0;
  di_outs : outs s = outs s0;
  di_cache : block_addr_cache s = block_addr_cache s0;
  di_free : wasm_stack_free s = wasm_stack_free s0;
  di_env : env_ok s
}.

Lemma did_refl s : cells_ok (sp (frame s)) -> cells_ok (lp (frame s)) -> env_ok s -> did s s 0 0 0.
Proof.
  intros H1 H2 H3. split; try done; [|lia]. exists (lp (frame s)), (sp (frame s)).
  rewrite !Nat.add_0_r, Nat.sub_0_r. by destruct (frame s).
Qed.

(** A change of the rest of the state. *)
Lemma did_env s0 s s' k p q :
  did s0 s k p q -> frame s' = frame s -> prev_frames s' = prev_frames s -> outs s' = outs s ->
  block_addr_cache s' = block_addr_cache s -> wasm_stack_free s' = wasm_stack_free s -> env_ok s' ->
  did s0 s' k p q.
Proof. intros [H1 H2 H3 H4 H5 H6 H7] E1 E2 E3 E4 E5 E6. split; rewrite ?E1, ?E2, ?E3, ?E4, ?E5; done. Qed.

Lemma env_ok_frame s f : env_ok s -> env_ok (set_frame f s).
Proof. by intros []. Qed.

(** ** Reading the code *)

Definition code_at (s : istate S) (k : nat) (bs : bytes) : Prop :=
  exists x, drop (ip (frame s) + k) (code (function (frame s))) = bs ++ x.

Lemma code_at_app s k bs1 bs2 : code_at s k (bs1 ++ bs2) <-> code_at s k bs1 /\ code_at s (k + length bs1) bs2.
Proof.
  unfold code_at. split.
  - intros [x Hx]. rewrite <- app_assoc in Hx. split; [by eexists|]. exists x.
    rewrite Nat.add_assoc, <- drop_drop, Hx. by rewrite drop_app_length.
  - intros [[x Hx] [y Hy]]. exists y. rewrite Nat.add_assoc, <- drop_drop, Hx, drop_app_length in Hy.
    by rewrite Hx, Hy, app_assoc.
Qed.

Lemma did_skip s0 s k n p q lp' sp' :
  did s0 s k p q ->
  frame s = Frame (function (frame s0)) (ip (frame s0) + k) lp' sp' (csp (frame s0)) (frame_size (frame s0)) ->
  did s0 (set_frame (set_ip (ip (frame s0) + k + n)%nat (frame s)) s) (k + n) p q.
Proof.
  intros [H1 H2 H3 H4 H5 H6 H7] E. split; try done; [|by apply env_ok_frame].
  destruct H1 as (lp2 & sp2 & E2 & H). rewrite E in E2. injection E2 as <- <-.
  exists lp', sp'. cbn. rewrite E. unfold set_ip. cbn. by rewrite Nat.add_assoc.
Qed.

Lemma iwp_fetch_env s0 s k p q b Q :
  did s0 s k p q -> code_at s0 k [b] ->
  (forall s', did s0 s' (k + 1) p q -> env s' = env s -> Q b s') -> iwp fetch Q s.
Proof.
  intros D [x Hx] HQ. destruct (di_frame _ _ _ _ _ D) as (lp' & sp' & E & _).
  apply iwp_bind, iwp_get. rewrite E. cbn [code function ip].
  apply iwp_bind. eapply (iwp_some _ b).
  { rewrite <- (Nat.add_0_r (ip (frame s0) + k)), <- lookup_drop, Hx. done. }
  apply iwp_bind, iwp_set, iwp_ret, HQ; [by eapply did_skip|done].
Qed.

Lemma iwp_fetch s0 s k p q b Q :
  did s0 s k p q -> code_at s0 k [b] ->
  (forall s', did s0 s' (k + 1) p q -> Q b s') -> iwp fetch Q s.
Proof. intros D Hc HQ. eapply iwp_fetch_env; [done..|auto]. Qed.

Lemma iwp_fetch_leb reader ireader s0 s k p q bs v Q :
  did s0 s k p q -> leb_is reader ireader bs v -> code_at s0 k bs ->
  (forall s', did s0 s' (k + length bs) p q -> Q v s') -> iwp (fetch_leb ireader) Q s.
Proof.
  intros D Hl [x Hx] HQ. destruct (di_frame _ _ _ _ _ D) as (lp' & sp' & E & _).
  apply iwp_bind, iwp_get. rewrite E. cbn [code function ip]. rewrite Hx, (li_interp _ _ _ _ Hl).
  apply iwp_bind, iwp_set, iwp_ret.
  replace (length (code (function (frame s0))) - length x)%nat with (ip (frame s0) + k + length bs)%nat.
  { apply HQ. by eapply did_skip. }
  apply (f_equal length) in Hx. rewrite length_drop, length_app in Hx.
  pose proof (leb_is_length _ _ _ _ Hl). lia.
Qed.

Lemma iwp_fetch_bytes s0 s k p q b n Q :
  did s0 s k p q -> code_at s0 k b -> length b = n -> (1 <= n)%nat ->
  (forall s', did s0 s' (k + n) p q -> Q b s') -> iwp (fetch_bytes n) Q s.
Proof.
  intros D [x Hx] <- Hn HQ. destruct (di_frame _ _ _ _ _ D) as (lp' & sp' & E & _).
  apply iwp_bind, iwp_get. rewrite E. cbn [code function ip]. apply iwp_bind, iwp_require.
  { apply Nat.leb_le. apply (f_equal length) in Hx. rewrite length_drop, length_app in Hx. lia. }
  apply iwp_bind, iwp_set, iwp_ret. rewrite Hx, take_app_length. apply HQ. by eapply did_skip.
Qed.

(** ** Operands *)

Definition room (s : istate S) (p q : nat) : Prop :=
  (length (sp (frame s)) - p + q <= func_max_stack_cell_num (function (frame s)))%nat.

Lemma iwp_push_cell s0 s k p q v Q :
  did s0 s k p q -> cell_ok v -> room s0 p (q + 1) ->
  (forall s', did s0 s' k p (q + 1) -> Q tt s') -> iwp (push_cell v) Q s.
Proof.
  intros D Hv Hr HQ. destruct (di_frame _ _ _ _ _ D) as (lp' & sp' & E & Hl & Hs & Hlp & Hlo).
  apply iwp_bind, iwp_get. rewrite E. cbn [sp function]. apply iwp_bind, iwp_require.
  { apply Nat.ltb_lt. unfold room in Hr. lia. }
  apply iwp_set, HQ. destruct D as [H1 H2 H3 H4 H5 H6 H7]. split; try done; [|by apply env_ok_frame].
  exists lp', (v :: sp'). cbn. rewrite E. split_and!; [done|lia|by constructor|done..].
Qed.

Lemma iwp_push_cells s0 s k p q l Q :
  did s0 s k p q -> cells_ok l -> room s0 p (q + length l) ->
  (forall s', did s0 s' k p (q + length l) -> Q tt s') -> iwp (push_cells l) Q s.
Proof.
  revert s q. induction l as [|v l IH]; intros s q D Hl Hr HQ; cbn.
  - apply iwp_ret, HQ. by rewrite Nat.add_0_r.
  - inversion Hl; subst. apply iwp_bind. eapply iwp_push_cell; [done|done|unfold room in *; cbn in Hr; lia|].
    intros s' D'. eapply IH; [exact D'|done|unfold room in *; cbn in Hr; lia|].
    intros s2 D2. apply HQ. cbn. by replace (q + Datatypes.S (length l))%nat with (q + 1 + length l)%nat by lia.
Qed.

Lemma iwp_pop_cell s0 s k p Q :
  did s0 s k p 0 -> (p + 1 <= length (sp (frame s0)))%nat ->
  (forall v s', cell_ok v -> did s0 s' k (p + 1) 0 -> Q v s') -> iwp pop_cell Q s.
Proof.
  intros D Hp HQ. destruct (di_frame _ _ _ _ _ D) as (lp' & sp' & E & Hl & Hs & Hlp & Hlo).
  apply iwp_bind, iwp_get. rewrite E. cbn [sp]. destruct sp' as [|v sp']; [cbn in Hl; lia|].
  inversion Hs; subst. apply iwp_bind, iwp_set, iwp_ret, HQ; [done|].
  destruct D as [H5 H6 H7 H8 H9 H10 H11]. split; try done; [|by apply env_ok_frame].
  exists lp', sp'. cbn in Hl |- *. rewrite E. split_and!; [done|lia|done..].
Qed.

Lemma iwp_pop_cells s0 s k p n Q :
  did s0 s k p 0 -> (p + n <= length (sp (frame s0)))%nat ->
  (forall l s', cells_ok l -> length l = n -> did s0 s' k (p + n) 0 -> Q l s') -> iwp (pop_cells n) Q s.
Proof.
  intros D Hp HQ. destruct (di_frame _ _ _ _ _ D) as (lp' & sp' & E & Hl & Hs & Hlp & Hlo).
  apply iwp_bind, iwp_get. rewrite E. cbn [sp]. apply iwp_bind, iwp_require; [apply Nat.leb_le; lia|].
  apply iwp_bind, iwp_set, iwp_ret, HQ.
  - apply Forall_rev. by apply Forall_take.
  - rewrite length_rev, length_take. lia.
  - destruct D as [H5 H6 H7 H8 H9 H10 H11]. split; try done; [|by apply env_ok_frame].
    exists lp', (drop n sp'). cbn. rewrite E, length_drop. split_and!; [done|lia|by apply Forall_drop|done..].
Qed.

Lemma pop_cell_global (s : istate S) : forall v s', pop_cell s = Ret (inr v, s') -> global_data s' = global_data s.
Proof.
  intros v s'. unfold pop_cell, mbind, IM_bind, fget, iget. destruct (sp (frame s)); [done|].
  by intros [= _ <-].
Qed.

Lemma wrap32_ok v : cell_ok (wrap W32 v).
Proof. unfold wrap, cell_ok. cbn. apply Z.mod_pos_bound. lia. Qed.

Lemma iwp_PUSH s0 s k p q w v Q :
  did s0 s k p q -> room s0 p (q + cells w) ->
  (forall s', did s0 s' k p (q + cells w) -> Q tt s') -> iwp (PUSH w v) Q s.
Proof.
  intros D Hr HQ. destruct w; cbn in *.
  - eapply iwp_push_cell; [done|apply wrap32_ok|done|done].
  - apply iwp_bind. eapply iwp_push_cell; [done| |unfold room in *; lia|].
    { unfold cell_ok. apply Z.mod_pos_bound. lia. }
    intros s1 D1. eapply iwp_push_cell; [exact D1| |unfold room in *; lia|].
    { unfold cell_ok, wrap. cbn. pose proof (Z.mod_pos_bound v (2 ^ 64)).
      split; [apply Z.div_pos; lia|apply Z.div_lt_upper_bound; lia]. }
    intros s2 D2. apply HQ. by replace (q + 2)%nat with (q + 1 + 1)%nat by lia.
Qed.

Lemma iwp_POP s0 s k p w Q :
  did s0 s k p 0 -> (p + cells w <= length (sp (frame s0)))%nat ->
  (forall v s', 0 <= v < 2 ^ bits w -> did s0 s' k (p + cells w) 0 -> Q v s') -> iwp (POP w) Q s.
Proof.
  intros D Hp HQ. destruct w; cbn in *.
  - eapply iwp_pop_cell; [done|done|]. intros v s' Hv D'. by apply HQ.
  - apply iwp_bind. eapply iwp_pop_cell; [done|lia|]. intros hi s1 Hhi D1.
    apply iwp_bind. eapply iwp_pop_cell; [exact D1|lia|]. intros lo s2 Hlo D2.
    apply iwp_ret, HQ; [unfold cell_ok in *; lia|]. by replace (p + 2)%nat with (p + 1 + 1)%nat by lia.
Qed.

(** The globals stay while operands are popped. *)
Lemma iwp_POP_global s0 s k p w Q :
  did s0 s k p 0 -> (p + cells w <= length (sp (frame s0)))%nat ->
  (forall v s', 0 <= v < 2 ^ bits w -> did s0 s' k (p + cells w) 0 -> global_data s' = global_data s -> Q v s') ->
  iwp (POP w) Q s.
Proof.
  intros D Hp HQ.
  assert (iwp (POP w) (fun v s' => 0 <= v < 2 ^ bits w /\ did s0 s' k (p + cells w) 0) s) as H.
  { eapply iwp_POP; [done..|]. auto. }
  revert H. unfold iwp. destruct (POP w s) as [[[e|v] s']|] eqn:E; [done| |done]. intros [H1 H2].
  apply HQ; [done..|]. destruct w; cbn in E.
  - by eapply pop_cell_global.
  - unfold POP_I64, mbind, IM_bind in E. destruct (pop_cell s) as [[[e1|hi] s1]|] eqn:E1; try done.
    destruct (pop_cell s1) as [[[e2|lo] s2]|] eqn:E2; try done. injection E as _ <-.
    rewrite (pop_cell_global _ _ _ E2). by eapply pop_cell_global.
Qed.

(** ** Linear memory *)

Definition in_range (s : istate S) (maddr n : Z) : Prop :=
  exists m, am_memory (env s) = Some m /\ memory_data m <= maddr
    /\ maddr + n <= memory_data m + memory_data_size m.

Lemma iwp_get_memory s0 s k p q Q :
  did s0 s k p q -> has_memory module = true ->
  (forall m, am_memory (env s) = Some m -> linear_mem_size s <= memory_data_size m -> Q m s) ->
  iwp get_memory Q s.
Proof.
  intros D Hm HQ. destruct (eo_memory _ (di_env _ _ _ _ _ D) Hm) as (m & Em & Hl).
  apply iwp_bind, iwp_get. eapply iwp_some; [done|]. auto.
Qed.

Lemma iwp_check_memory s0 s k p q offset addr n Q :
  did s0 s k p q -> has_memory module = true -> cell_ok offset -> cell_ok addr -> cell_ok n ->
  (forall maddr, in_range s maddr n -> Q maddr s) -> iwp (check_memory_overflow offset addr n) Q s.
Proof.
  unfold cell_ok. intros D Hm Ho Ha Hn HQ. apply iwp_bind. eapply iwp_get_memory; [done..|].
  intros m Em Hl. apply iwp_bind, iwp_get. unfold CHECK_MEMORY_OVERFLOW, wrap_u64.
  rewrite (Z.mod_small (offset + addr)) by lia. rewrite Z.mod_small by lia.
  destruct (Z.leb_spec (offset + addr + n) (linear_mem_size s)); [|done].
  apply HQ. exists m. split; [done|lia].
Qed.

Lemma iwp_check_bulk s0 s k p q start n Q :
  did s0 s k p q -> has_memory module = true -> cell_ok start -> cell_ok n ->
  (forall maddr, in_range s maddr n -> Q maddr s) -> iwp (check_bulk_memory_overflow start n) Q s.
Proof.
  unfold cell_ok. intros D Hm Ha Hn HQ. apply iwp_bind. eapply iwp_get_memory; [done..|].
  intros m Em Hl. apply iwp_bind, iwp_get. unfold CHECK_BULK_MEMORY_OVERFLOW, wrap32, wrap_u64.
  rewrite (Z.mod_small start) by lia. rewrite Z.mod_small by lia.
  destruct (Z.leb_spec (start + n) (linear_mem_size s)); [|done].
  apply HQ. exists m. split; [done|lia].
Qed.

Lemma iwp_in_memory s maddr n Q : in_range s maddr n -> Q tt s -> iwp (in_memory maddr n) Q s.
Proof.
  intros (m & Em & H1 & H2) HQ. apply iwp_bind, iwp_bind, iwp_get. eapply iwp_some; [done|].
  apply iwp_require; [|done]. apply andb_true_iff. split; apply Z.leb_le; lia.
Qed.

Lemma iwp_load s maddr n Q :
  in_range s maddr (Z.of_nat n) -> (forall b, length b = n -> Q b s) -> iwp (load_bytes maddr n) Q s.
Proof.
  intros Hr HQ. apply iwp_bind, iwp_in_memory; [done|]. apply iwp_bind, iwp_get, iwp_ret, HQ.
  by rewrite length_fmap, length_seq.
Qed.

Lemma iwp_store s0 s k p q maddr b Q :
  did s0 s k p q -> in_range s maddr (zlen b) -> (forall s', did s0 s' k p q -> Q tt s') ->
  iwp (store_bytes maddr b) Q s.
Proof.
  intros D Hr HQ. apply iwp_bind, iwp_in_memory; [done|]. apply iwp_set, HQ.
  destruct Hr as (m & Em & H1 & H2). pose proof (di_env _ _ _ _ _ D) as [E1 E2 E3 E4 E5 E6].
  destruct (el_write (env s) m maddr b E6 Em) as [Hi Hm]; [done|].
  eapply did_env; [done..|]. split; try done. cbn. intros H. destruct (E5 H) as (m' & Em' & Hl).
  exists m. split; [done|]. congruence.
Qed.

(** ** Globals, tables and segments *)

Lemma iwp_get_global_addr s0 s k p q bs v g Q :
  did s0 s k p q -> leb_u bs v -> code_at s0 k bs -> all_globals module !! Z.to_nat v = Some g ->
  (forall off s', did s0 s' (k + length bs) p q ->
     (off + 4 * wasm_value_type_cell_num (val_type g) <= length (global_data s'))%nat -> Q off s') ->
  iwp (get_global_addr global_offsets) Q s.
Proof.
  intros D Hl Hc Hg HQ. apply iwp_bind. eapply iwp_fetch_leb; [done..|]. intros s' D'.
  destruct (eo_globals _ (di_env _ _ _ _ _ D') _ _ Hg) as (off & Ho & Hle).
  eapply iwp_some; [done|]. by apply HQ.
Qed.

Lemma iwp_write_global s0 s k p q off n v Q :
  did s0 s k p q -> (off + n <= length (global_data s))%nat ->
  (forall s', did s0 s' k p q -> Q tt s') -> iwp (write_global off n v) Q s.
Proof.
  intros D Hle HQ. apply iwp_bind, iwp_get, iwp_bind, iwp_require; [by apply Nat.leb_le|].
  apply iwp_set, HQ. pose proof (di_env _ _ _ _ _ D) as [E1 E2 E3 E4 E5 E6].
  eapply did_env; [done..|]. split; try done. cbn. rewrite length_splice by (rewrite length_le_encode; lia). done.
Qed.

Lemma iwp_get_table s0 s k p q i t Q :
  did s0 s k p q -> all_tables module !! Z.to_nat i = Some t ->
  (forall ti, table_insts s !! Z.to_nat i = Some ti -> cells_ok (elems ti) -> Q ti s) ->
  iwp (get_table i) Q s.
Proof.
  intros D Ht HQ. destruct (eo_tables _ (di_env _ _ _ _ _ D) _ _ Ht) as (ti & Hi & Hc).
  apply iwp_bind, iwp_get. eapply iwp_some; [done|]. auto.
Qed.

Lemma iwp_put_table s0 s k p q i ti Q :
  did s0 s k p q -> cells_ok (elems ti) -> (forall s', did s0 s' k p q -> Q tt s') ->
  iwp (put_table i ti) Q s.
Proof.
  intros D Hc HQ. apply iwp_set, HQ. pose proof (di_env _ _ _ _ _ D) as [E1 E2 E3 E4 E5 E6].
  eapply did_env; [done..|]. split; try done. cbn. intros j t Ht. destruct (E2 _ _ Ht) as (tj & Hj & Hcj).
  destruct (decide (Z.to_nat i = j)) as [<-|Hne].
  - exists ti. split; [|done]. apply list_lookup_insert_eq. by eapply lookup_lt_Some.
  - exists tj. by rewrite list_lookup_insert_ne.
Qed.
End interp.
