(* ===== verification/Exec.v ===== *)
(** * The interpreter executes the language of the rewritten code

    An instruction of [Bytecode.v] that goes on behind itself reaches no
    undefined behaviour: it raises an exception, or it pops and pushes the cells
    of its types and goes on with the next byte. *)

From S2P Require Import Prelude Memory Leb LebSpec LinearMemory Opcode Loader LoaderSpec Bytecode CheckSpec CheckControl Numeric BlockAddr Interp InterpSpec.

(** The memory indices that the interpreter skips as one byte. *)
Definition short_index (bs : bytes) : Prop :=
  forall opc o r, bs = opcode_byte WASM_OP_MISC_PREFIX :: opc ++ r -> misc_code opc o ->
  match o with
  | WASM_OP_MEMORY_INIT => forall n v x, r = n ++ x -> leb_u n v -> (length x <= 1)%nat
  | WASM_OP_MEMORY_COPY => (length r <= 2)%nat
  | WASM_OP_MEMORY_FILL => (length r <= 1)%nat
  | _ => True
  end.

(** The same of the bytes of one instruction, as a program. *)
Definition short_bytes (bs : bytes) : bool :=
  match bs with
  | b :: r =>
      if decide (b = opcode_byte WASM_OP_MISC_PREFIX) then
        match read_leb_uint32 r with
        | inr (v, r) =>
            match misc_opcode v with
            | Some WASM_OP_MEMORY_INIT =>
                match read_leb_uint32 r with
                | inr (_, r) => (length r <=? 1)%nat
                | inl _ => true
                end
            | Some WASM_OP_MEMORY_COPY => (length r <=? 2)%nat
            | Some WASM_OP_MEMORY_FILL => (length r <=? 1)%nat
            | _ => true
            end
        | inl _ => true
        end
      else true
  | [] => true
  end.

Lemma short_bytes_index bs pad : short_bytes (bs ++ pad) = true -> short_index bs.
Proof.
  intros H opc o r -> Ho. cbn [app short_bytes] in H. rewrite decide_True in H by done.
  rewrite <- app_assoc, (li_read _ _ _ _ Ho) in H.
  replace (misc_opcode (misc_opcode_value o)) with (Some o) in H by (by destruct o).
  destruct o; try done; cbn beta iota in H.
  - intros n v x -> Hn. rewrite <- app_assoc, (li_read _ _ _ _ Hn) in H.
    apply Nat.leb_le in H. rewrite length_app in H. lia.
  - apply Nat.leb_le in H. rewrite length_app in H. lia.
  - apply Nat.leb_le in H. rewrite length_app in H. lia.
Qed.

Section exec.
Context {S : Type} `{AM : !AppMemory S} `{NF : !Natives S}.
Context (module : WASMModule) (func_type0 : WASMFuncType) (local_types0 : list value_type).
Context (MT : module_types module func_type0 local_types0).
Context (ptr_size : Z) (functions : list WASMFunctionInstance).
Context (global_offsets : list nat) (data_segments : list bytes) (table_segs : list (list Z)).
Context (aux_stack_boundary aux_stack_bottom : Z).
Context (inv : S -> Prop) `{EL : !EnvLaws module inv}.
Context (SO : segments_ok module data_segments table_segs).

Abbreviation step := (step ptr_size (types module) functions global_offsets data_segments table_segs
  aux_stack_boundary aux_stack_bottom).
Abbreviation handle_op := (Interp.handle_op ptr_size (types module) functions global_offsets data_segments
  table_segs aux_stack_boundary aux_stack_bottom).
Abbreviation did := (did module global_offsets inv).
Abbreviation cellnum := wasm_value_type_cell_num.

(** The values of a module have cells. *)
Record module_values : Prop := {
  mv_globals : Forall (fun g => val_type g <> VALUE_TYPE_VOID) (all_globals module);
  mv_tables : Forall (fun t => cellnum t = 1%nat) (all_tables module);
  mv_locals : Forall (fun t => t <> VALUE_TYPE_VOID) (func_locals func_type0 local_types0)
}.
Context (MV : module_values).

Lemma iwp_step s0 o tl Q :
  did s0 s0 0 0 0 -> code_at s0 0 (opcode_byte o :: tl) ->
  (forall s, did s0 s 1 0 0 -> code_at s0 1 tl -> iwp (handle_op o) Q s) -> iwp step Q s0.
Proof.
  intros D Hc HQ. apply (code_at_app s0 0 [opcode_byte o]) in Hc as [Hc1 Hc2].
  apply iwp_bind. eapply iwp_fetch; [done..|]. intros s D'.
  apply iwp_bind. eapply iwp_some; [apply byte_opcode_byte|]. by apply HQ.
Qed.

(** Read an integer with the hypothesis [H]; pop a cell. *)
Ltac ifetch H s D :=
  unfold fetch_uint32; apply iwp_bind; eapply iwp_fetch_leb with (2 := H); [eassumption|eassumption|]; intros s D.

(** What is left of the instruction. *)
Definition next_ok (s0 : istate S) (k p q : nat) (r : next) (s : istate S) : Prop :=
  r = running /\ did s0 s k p q.

Lemma iwp_go_on (m : IM S ()) s0 k p q s :
  iwp m (fun _ s' => did s0 s' k p q) s -> iwp (go_on m) (next_ok s0 k p q) s.
Proof. intros H. apply iwp_bind. eapply iwp_mono; [exact H|]. intros [] s' D. by apply iwp_ret. Qed.

(** ** Numeric instructions *)

Definition instr_cells (i : numeric_instr) : nat * nat * nat :=
  match i with
  | unary src dst _ => (1, cells src, cells dst)%nat
  | binary src dst _ => (2, cells src, cells dst)%nat
  end.

Lemma numeric_agrees o n pop push :
  numeric_signature o = Some (n, pop, push) ->
  match numeric_handler o with
  | Some i => instr_cells i = (n, cellnum pop, cellnum push)
  | None => (o = WASM_OP_I32_REINTERPRET_F32 \/ o = WASM_OP_I64_REINTERPRET_F64
             \/ o = WASM_OP_F32_REINTERPRET_I32 \/ o = WASM_OP_F64_REINTERPRET_I64)
            /\ n = 1%nat /\ cellnum pop = cellnum push
  end.
Proof. destruct o; intros [= <- <- <-]; cbv; tauto. Qed.

Lemma iwp_numeric i n a b s0 s k :
  instr_cells i = (n, a, b) -> did s0 s k 0 0 -> (n * a <= length (sp (frame s0)))%nat -> room s0 (n * a) b ->
  iwp (handle_numeric i) (fun _ s' => did s0 s' k (n * a) b) s.
Proof.
  intros Hi D Hp Hr. destruct i as [src dst f|src dst f]; injection Hi as <- <- <-; cbn [Nat.mul] in *;
    rewrite ?Nat.add_0_r in *.
  - apply iwp_bind. eapply iwp_POP; [done|cbn; lia|]. intros v s1 Hv D1. apply iwp_bind, iwp_result.
    intros r _. eapply iwp_PUSH; [exact D1|done|]. done.
  - apply iwp_bind. eapply iwp_POP; [done|cbn; lia|]. intros v s1 Hv D1.
    apply iwp_bind. eapply iwp_POP; [exact D1|cbn; lia|]. intros v2 s2 Hv2 D2. apply iwp_bind, iwp_result.
    intros r _. eapply iwp_PUSH; [exact D2|done|]. done.
Qed.

Lemma get_cell_num_replicate n t : wasm_get_cell_num (replicate n t) = (n * cellnum t)%nat.
Proof. induction n as [|n IH]; [done|]. cbn [replicate wasm_get_cell_num]. rewrite IH. lia. Qed.

Definition enough (s : istate S) (ps qs : list value_type) : Prop :=
  (wasm_get_cell_num ps <= length (sp (frame s)))%nat /\ room s (wasm_get_cell_num ps) (wasm_get_cell_num qs).

Definition executes (s0 : istate S) (bs : bytes) (ps qs : list value_type) : Prop :=
  iwp step (next_ok s0 (length bs) (wasm_get_cell_num ps) (wasm_get_cell_num qs)) s0.

Lemma get_cell_num_one t : wasm_get_cell_num [t] = cellnum t.
Proof. cbn. lia. Qed.

Lemma exec_numeric s0 o n pop push :
  numeric_signature o = Some (n, pop, push) -> did s0 s0 0 0 0 -> code_at s0 0 [opcode_byte o] ->
  enough s0 (replicate n pop) [push] -> executes s0 [opcode_byte o] (replicate n pop) [push].
Proof.
  intros Ho D Hc [Hp Hr]. unfold executes. rewrite get_cell_num_replicate, get_cell_num_one in *.
  eapply iwp_step; [done..|]. intros s D1 _. pose proof (numeric_agrees _ _ _ _ Ho) as Ha.
  unfold Interp.handle_op. destruct (numeric_handler o) as [i|].
  - apply iwp_go_on. by apply iwp_numeric.
  - destruct Ha as (Ho' & -> & Hcell). rewrite Hcell in *.
    assert (did s0 s 1 (1 * cellnum push) (cellnum push)) as D'.
    { destruct D1 as [(lp' & sp' & E & Hl & H) H2 H3 H4 H5 H6 H7]. split; try done; try lia.
      exists lp', sp'. split; [done|]. split; [lia|done]. }
    destruct Ho' as [-> |[-> |[-> | ->]]]; by apply iwp_ret.
Qed.

(** ** Loads and stores *)

Lemma load_agrees o t : memory_signature o = Some (t, false) ->
  numeric_handler o = None /\ exists n w f, load_handler o = Some (n, w, f) /\ cells w = cellnum t /\ (n <= 8)%nat.
Proof. destruct o; intros [= <-]; split; try done; do 3 eexists; (split; [done|]); split; try done; lia. Qed.

Lemma store_agrees o t : memory_signature o = Some (t, true) ->
  numeric_handler o = None /\ load_handler o = None
  /\ exists w n, store_handler o = Some (w, n) /\ cells w = cellnum t /\ (n <= 8)%nat.
Proof. destruct o; intros [= <-]; split_and!; try done; do 2 eexists; (split; [done|]); split; try done; lia. Qed.

(** Automation for the rest: the numbers of cells, a pop, the room for a push,
    and the end of an instruction. *)
Lemma did_eq s0 s k p q k' p' q' :
  did s0 s k p q -> k' = k -> p' = p -> q' = q -> did s0 s k' p' q'.
Proof. by intros H -> -> ->. Qed.

Ltac icells :=
  cbn [wasm_get_cell_num] in *;
  change (wasm_value_type_cell_num VALUE_TYPE_I32) with 1%nat in *;
  change (wasm_value_type_cell_num VALUE_TYPE_FUNCREF) with 1%nat in *;
  change (wasm_value_type_cell_num VALUE_TYPE_EXTERNREF) with 1%nat in *.
Ltac istart := unfold executes, enough in *;
  repeat match goal with H : _ /\ room _ _ _ |- _ =>
    let a := fresh "Hpop" in let b := fresh "Hroom" in destruct H as [a b] end; icells.
Ltac iroom := unfold room in *; icells; cbn [cells] in *; lia.
Ltac ipop v s Hv D :=
  unfold POP_I32; apply iwp_bind; eapply iwp_pop_cell; [eassumption|lia|]; intros v s Hv D.
Ltac ifin := eapply did_eq; [eassumption|cbn [length]; rewrite ?length_app; cbn [length]; lia|icells; cbn [cells]; lia..].

Lemma exec_load s0 o t a va f vf :
  memory_signature o = Some (t, false) -> has_memory module = true -> leb_u a va -> leb_u f vf ->
  did s0 s0 0 0 0 -> code_at s0 0 (opcode_byte o :: a ++ f) ->
  enough s0 [VALUE_TYPE_I32] [t] -> executes s0 (opcode_byte o :: a ++ f) [VALUE_TYPE_I32] [t].
Proof.
  intros Ho Hm Ha Hf D Hc [Hp Hr]. unfold executes. rewrite !get_cell_num_one in *.
  eapply iwp_step; [done..|]. intros s D1 Hc1. apply code_at_app in Hc1 as [Hc1 Hc2].
  destruct (load_agrees _ _ Ho) as [Hn (n & w & ext & Hl & Hcw & Hn8)].
  unfold Interp.handle_op. rewrite Hn, Hl. apply iwp_go_on. unfold handle_load, fetch_uint32, POP_I32.
  ifetch Ha s2 D2. ifetch Hf s3 D3.
  apply iwp_bind. eapply iwp_pop_cell; [done|cbn; exact Hp|]. intros addr s4 Haddr D4.
  apply iwp_bind. eapply iwp_check_memory; [done|done|by eapply leb_u_nonneg|done|unfold cell_ok; lia|].
  intros maddr Hr4. apply iwp_bind, iwp_load; [done|]. intros b Hb.
  eapply iwp_PUSH; [done|by rewrite Hcw|]. intros s5 D5. rewrite Hcw in D5.
  cbn in D5 |- *. rewrite length_app. exact D5.
Qed.

Lemma exec_store s0 o t a va f vf :
  memory_signature o = Some (t, true) -> has_memory module = true -> leb_u a va -> leb_u f vf ->
  did s0 s0 0 0 0 -> code_at s0 0 (opcode_byte o :: a ++ f) ->
  enough s0 [VALUE_TYPE_I32; t] [] -> executes s0 (opcode_byte o :: a ++ f) [VALUE_TYPE_I32; t] [].
Proof.
  intros Ho Hm Ha Hf D Hc Hen. istart.
  eapply iwp_step; [done..|]. intros s D1 Hc1. apply code_at_app in Hc1 as [Hc1 Hc2].
  destruct (store_agrees _ _ Ho) as (Hn & Hl & w & n & Hs & Hcw & Hn8).
  unfold Interp.handle_op. rewrite Hn, Hl, Hs. apply iwp_go_on. unfold handle_store.
  ifetch Ha s2 D2. ifetch Hf s3 D3.
  apply iwp_bind. eapply iwp_POP; [done|lia|]. intros v s4 _ D4. ipop addr s5 Haddr D5.
  apply iwp_bind. eapply iwp_check_memory; [done|done|by eapply leb_u_nonneg|done|unfold cell_ok; lia|].
  intros maddr Hr5. eapply iwp_store; [exact EL|done|by rewrite length_le_encode|]. intros s6 D6. ifin.
Qed.

(** ** Parametric instructions *)

Lemma exec_drop s0 o w t : o = WASM_OP_DROP /\ w = W32 \/ o = WASM_OP_DROP_64 /\ w = W64 ->
  cellnum t = cells w -> did s0 s0 0 0 0 -> code_at s0 0 [opcode_byte o] ->
  enough s0 [t] [] -> executes s0 [opcode_byte o] [t] [].
Proof.
  intros Ho Ht D Hc Hen. istart. eapply iwp_step; [done..|]. intros s D1 _.
  assert (iwp (go_on (Interp.handle_op_drop w)) (next_ok s0 1 (cells w + 0) 0) s) as H.
  { apply iwp_go_on, iwp_bind. eapply iwp_pop_cells; [done|lia|]. intros l s2 _ _ D2. apply iwp_ret. ifin. }
  rewrite Ht. destruct Ho as [[-> ->]|[-> ->]]; exact H.
Qed.

Lemma iwp_select s0 s k w t :
  cellnum t = cells w -> did s0 s k 0 0 -> enough s0 [t; t; VALUE_TYPE_I32] [t] ->
  iwp (Interp.handle_op_select w)
    (fun _ s' => did s0 s' k (wasm_get_cell_num [t; t; VALUE_TYPE_I32]) (wasm_get_cell_num [t])) s.
Proof.
  intros Ht D Hen. istart. unfold Interp.handle_op_select. rewrite Ht in *.
  ipop cond s1 Hcond D1. apply iwp_bind. eapply iwp_pop_cells; [done|lia|]. intros l2 s2 Hl2 Hn2 D2.
  apply iwp_bind. eapply iwp_pop_cells; [done|lia|]. intros l1 s3 Hl1 Hn1 D3.
  assert (cells_ok (if cond =? 0 then l2 else l1) /\ length (if cond =? 0 then l2 else l1) = cells w) as [Hc Hl].
  { by destruct (cond =? 0). }
  eapply iwp_push_cells; [done|done| |].
  - rewrite Hl. iroom.
  - intros s4 D4. rewrite Hl in D4. ifin.
Qed.

Lemma exec_select s0 o w t : o = WASM_OP_SELECT /\ w = W32 \/ o = WASM_OP_SELECT_64 /\ w = W64 ->
  cellnum t = cells w -> did s0 s0 0 0 0 -> code_at s0 0 [opcode_byte o] ->
  enough s0 [t; t; VALUE_TYPE_I32] [t] -> executes s0 [opcode_byte o] [t; t; VALUE_TYPE_I32] [t].
Proof.
  intros Ho Ht D Hc Hen. eapply iwp_step; [done..|]. intros s D1 _.
  assert (iwp (go_on (Interp.handle_op_select w))
    (next_ok s0 1 (wasm_get_cell_num [t; t; VALUE_TYPE_I32]) (wasm_get_cell_num [t])) s) as H.
  { apply iwp_go_on. by apply iwp_select. }
  destruct Ho as [[-> ->]|[-> ->]]; exact H.
Qed.

Lemma exec_select_t s0 n vn b t : leb_u n vn -> valid_value_type b = Some t ->
  did s0 s0 0 0 0 -> code_at s0 0 (opcode_byte WASM_OP_SELECT_T :: n ++ [b]) ->
  enough s0 [t; t; VALUE_TYPE_I32] [t] ->
  executes s0 (opcode_byte WASM_OP_SELECT_T :: n ++ [b]) [t; t; VALUE_TYPE_I32] [t].
Proof.
  intros Hn Hb D Hc Hen. eapply iwp_step; [done..|]. intros s D1 Hc1.
  apply code_at_app in Hc1 as [Hc1 Hc2]. apply (iwp_go_on handle_op_select_t).
  unfold handle_op_select_t. ifetch Hn s2 D2. apply iwp_bind. eapply iwp_fetch; [done..|]. intros s3 D3.
  rewrite Hb. cbn [length]. rewrite length_app.
  eapply iwp_mono; [eapply (iwp_select s0 s3) with (t := t); [clear -Hb; destruct b; try discriminate Hb; injection Hb as <-; done|exact D3|done]|].
  intros [] s4 D4. ifin.
Qed.

(** ** Tables and references *)

Lemma table_cells i t : all_tables module !! i = Some t -> cellnum t = 1%nat.
Proof. intros H. by eapply (Forall_lookup_1 _ _ _ _ (mv_tables MV)). Qed.

Lemma exec_table_get s0 n i t : leb_u n i -> all_tables module !! Z.to_nat i = Some t ->
  did s0 s0 0 0 0 -> code_at s0 0 (opcode_byte WASM_OP_TABLE_GET :: n) ->
  enough s0 [VALUE_TYPE_I32] [t] -> executes s0 (opcode_byte WASM_OP_TABLE_GET :: n) [VALUE_TYPE_I32] [t].
Proof.
  intros Hn Ht D Hc Hen. istart. rewrite (table_cells _ _ Ht) in *. eapply iwp_step; [done..|]. intros s D1 Hc1.
  apply (iwp_go_on (handle_op_table_get)). unfold handle_op_table_get. ifetch Hn s2 D2.
  apply iwp_bind. eapply iwp_get_table; [done..|]. intros ti Hti Hcells. ipop elem_idx s3 Hidx D3.
  destruct (Z.leb_spec (cur_size ti) elem_idx); [done|]. apply iwp_bind.
  destruct (elems ti !! Z.to_nat elem_idx) as [v|] eqn:Ev.
  2:{ apply lookup_ge_None in Ev. unfold cur_size, cell_ok in *. lia. }
  apply iwp_ret. eapply (iwp_PUSH _ _ _ _ _ _ _ _ W32); [done|iroom|]. intros s4 D4. ifin.
Qed.

Lemma exec_table_set s0 n i t : leb_u n i -> all_tables module !! Z.to_nat i = Some t ->
  did s0 s0 0 0 0 -> code_at s0 0 (opcode_byte WASM_OP_TABLE_SET :: n) ->
  enough s0 [VALUE_TYPE_I32; t] [] -> executes s0 (opcode_byte WASM_OP_TABLE_SET :: n) [VALUE_TYPE_I32; t] [].
Proof.
  intros Hn Ht D Hc Hen. istart. rewrite (table_cells _ _ Ht) in *. eapply iwp_step; [done..|]. intros s D1 Hc1.
  apply (iwp_go_on (handle_op_table_set)). unfold handle_op_table_set. ifetch Hn s2 D2.
  apply iwp_bind. eapply iwp_get_table; [done..|]. intros ti Hti Hcells.
  ipop elem_val s3 Hval D3. ipop elem_idx s4 Hidx D4.
  destruct (Z.leb_spec (cur_size ti) elem_idx); [done|].
  eapply iwp_put_table; [done|cbn; by apply Forall_insert|]. intros s5 D5. ifin.
Qed.


Lemma exec_ref_null s0 b t : valid_value_type b = Some t ->
  t = VALUE_TYPE_FUNCREF \/ t = VALUE_TYPE_EXTERNREF ->
  did s0 s0 0 0 0 -> code_at s0 0 [opcode_byte WASM_OP_REF_NULL; b] ->
  enough s0 [] [t] -> executes s0 [opcode_byte WASM_OP_REF_NULL; b] [] [t].
Proof.
  intros Hb Ht D Hc Hen. istart. eapply iwp_step; [done..|]. intros s D1 Hc1.
  assert (exists v, leb_u [b] v) as [v Hv].
  { clear -Hb Ht. assert (b = Byte.x70 \/ b = Byte.x6f) as [-> | ->].
    { destruct Ht as [-> | ->]; destruct b; try discriminate Hb; auto. }
    - destruct (read_uint32_is [Byte.x70] 112 [] eq_refl) as (bs & E & H).
      rewrite app_nil_r in E. rewrite <- E in H. eauto.
    - destruct (read_uint32_is [Byte.x6f] 111 [] eq_refl) as (bs & E & H).
      rewrite app_nil_r in E. rewrite <- E in H. eauto. }
  apply (iwp_go_on (handle_op_ref_null)). unfold handle_op_ref_null. ifetch Hv s2 D2.
  eapply (iwp_PUSH _ _ _ _ _ _ _ _ W32); [done|destruct Ht as [-> | ->]; iroom|].
  intros s3 D3. destruct Ht as [-> | ->]; ifin.
Qed.

Lemma exec_ref_is_null s0 t : t = VALUE_TYPE_FUNCREF \/ t = VALUE_TYPE_EXTERNREF ->
  did s0 s0 0 0 0 -> code_at s0 0 [opcode_byte WASM_OP_REF_IS_NULL] ->
  enough s0 [t] [VALUE_TYPE_I32] -> executes s0 [opcode_byte WASM_OP_REF_IS_NULL] [t] [VALUE_TYPE_I32].
Proof.
  intros Ht D Hc Hen. assert (cellnum t = 1%nat) as Hcell by (destruct Ht as [-> | ->]; done).
  istart. rewrite Hcell in *. eapply iwp_step; [done..|]. intros s D1 _.
  apply (iwp_go_on (handle_op_ref_is_null)). unfold handle_op_ref_is_null. ipop v s2 Hv D2.
  eapply (iwp_PUSH _ _ _ _ _ _ _ _ W32); [done|iroom|]. intros s3 D3. ifin.
Qed.

Lemma exec_ref_func s0 n i : leb_u n i ->
  did s0 s0 0 0 0 -> code_at s0 0 (opcode_byte WASM_OP_REF_FUNC :: n) ->
  enough s0 [] [VALUE_TYPE_FUNCREF] -> executes s0 (opcode_byte WASM_OP_REF_FUNC :: n) [] [VALUE_TYPE_FUNCREF].
Proof.
  intros Hn D Hc Hen. istart. eapply iwp_step; [done..|]. intros s D1 Hc1.
  apply (iwp_go_on (handle_op_ref_func)). unfold handle_op_ref_func. ifetch Hn s2 D2.
  eapply (iwp_PUSH _ _ _ _ _ _ _ _ W32); [done|iroom|]. intros s3 D3. ifin.
Qed.

(** ** Locals *)

(** The locals of the frame are those of the function that was checked. *)
Record locals_ok (s : istate S) : Prop := {
  lo_type : Interp.func_type (function (frame s)) = func_type0;
  lo_types : Interp.local_types (function (frame s)) = local_types0;
  lo_offsets : local_offsets (function (frame s)) = init_function_local_offsets func_type0 local_types0;
  lo_cells : length (lp (frame s)) = wasm_get_cell_num (func_locals func_type0 local_types0)
}.

(** A local is inside of the frame, although its place is cut to 16 bits. *)
Lemma local_offset_bound o types i t off :
  types !! i = Some t -> init_local_offsets (Z.of_nat o) types !! i = Some off ->
  exists off', off = off' mod 2 ^ 16 /\ 0 <= off' /\ off' + Z.of_nat (cellnum t) <= Z.of_nat (o + wasm_get_cell_num types).
Proof.
  revert o i. induction types as [|t0 types IH]; intros o i Ht Ho; [done|]. destruct i as [|i]; cbn in Ht, Ho.
  - injection Ht as ->. injection Ho as <-. exists (Z.of_nat o). cbn [wasm_get_cell_num]. lia.
  - rewrite <- Nat2Z.inj_add in Ho. destruct (IH _ _ Ht Ho) as (off' & -> & H1 & H2).
    exists off'. cbn [wasm_get_cell_num]. lia.
Qed.

Lemma local_inside i t off :
  func_locals func_type0 local_types0 !! i = Some t ->
  init_function_local_offsets func_type0 local_types0 !! i = Some off ->
  0 <= off < 2 ^ 16 /\ (Z.to_nat off + cellnum t <= wasm_get_cell_num (func_locals func_type0 local_types0))%nat.
Proof.
  intros Ht Ho. destruct (local_offset_bound 0 _ _ _ _ Ht Ho) as (off' & -> & H1 & H2).
  pose proof (Z.mod_pos_bound off' (2 ^ 16)) as Hm. split; [lia|].
  fold (func_locals func_type0 local_types0) in *. pose proof (Z.mod_le off' (2 ^ 16)). lia.
Qed.

Lemma local_cells i t : func_locals func_type0 local_types0 !! i = Some t ->
  cells (local_width t) = cellnum t /\ (is_32bit_type t = negb (is_64bit_type t)).
Proof.
  intros H. pose proof (Forall_lookup_1 _ _ _ _ (mv_locals MV) H) as H1.
  pose proof (Forall_lookup_1 _ _ _ _ (mt_locals _ _ _ MT) H) as H2. by destruct t.
Qed.

Definition local_handler (l : local_op) : width * Z -> IM S () :=
  match l with
  | op_get_local => get_local
  | op_set_local => set_local
  | op_tee_local => tee_local
  end.

Lemma iwp_write_local s0 s k p q off v Q :
  did s0 s k p q -> (Z.to_nat off + length v <= length (lp (frame s0)))%nat -> cells_ok v ->
  (forall s', did s0 s' k p q -> Q tt s') -> iwp (write_local off v) Q s.
Proof.
  intros D Hle Hv HQ. destruct (di_frame _ _ _ _ _ _ _ _ D) as (lp' & sp' & E & H1 & H2 & H3 & H4).
  apply iwp_bind, iwp_get. rewrite E. cbn [lp]. apply iwp_bind, iwp_require; [apply Nat.leb_le; lia|].
  apply iwp_set, HQ. destruct D as [_ G2 G3 G4 G5 G6 G7]. split; try done; [|by apply env_ok_frame].
  eexists _, sp'. cbn. rewrite E. split; [done|]. split_and!; try done.
  - rewrite !length_app, length_take, length_drop. lia.
  - repeat (apply Forall_app; split); [by apply Forall_take|done|by apply Forall_drop].
Qed.

Lemma iwp_local l t w off s0 s k :
  did s0 s k 0 0 -> cells w = cellnum t -> (Z.to_nat off + cellnum t <= length (lp (frame s0)))%nat ->
  enough s0 (local_pops l t) (local_pushes l t) ->
  iwp (local_handler l (w, off))
    (fun _ s' => did s0 s' k (wasm_get_cell_num (local_pops l t)) (wasm_get_cell_num (local_pushes l t))) s.
Proof.
  intros D Hw Hoff [Hpop Hroom].
  destruct l; cbn [local_pops local_pushes local_handler] in *; icells.
  - unfold get_local. apply iwp_bind. destruct (di_frame _ _ _ _ _ _ _ _ D) as (lp' & sp' & E & H1 & H2 & H3 & H4).
    apply iwp_bind, iwp_get. rewrite E. cbn [lp fst snd]. apply iwp_bind, iwp_require; [apply Nat.leb_le; lia|].
    apply iwp_ret. 
    assert (length (lp'.[Z.to_nat off,+cells w]) = cells w) as Hlen by (rewrite length_take, length_drop; lia).
    eapply iwp_push_cells; [exact D|by apply Forall_take, Forall_drop|rewrite Hlen; iroom|].
    intros s2 D2. rewrite Hlen in D2. ifin.
  - unfold set_local. apply iwp_bind. cbn [fst snd]. eapply iwp_pop_cells; [exact D|lia|].
    intros v s2 Hv Hn D2. eapply iwp_write_local; [exact D2|lia|done|]. intros s3 D3. ifin.
  - unfold tee_local. apply iwp_bind. cbn [fst snd]. eapply iwp_pop_cells; [exact D|lia|].
    intros v s2 Hv Hn D2. apply iwp_bind. eapply iwp_push_cells; [exact D2|done|iroom|]. intros s3 D3.
    eapply iwp_write_local; [exact D3|lia|done|]. intros s4 D4. ifin.
Qed.

Lemma exec_local s0 l n i t : leb_u n i -> func_locals func_type0 local_types0 !! Z.to_nat i = Some t ->
  locals_ok s0 -> did s0 s0 0 0 0 -> code_at s0 0 (opcode_byte (local_opcode l) :: n) ->
  enough s0 (local_pops l t) (local_pushes l t) ->
  executes s0 (opcode_byte (local_opcode l) :: n) (local_pops l t) (local_pushes l t).
Proof.
  intros Hn Ht [L1 L2 L3 L4] D Hc Hen. eapply iwp_step; [done..|]. intros s D1 Hc1.
  assert (exists off, init_function_local_offsets func_type0 local_types0 !! Z.to_nat i = Some off) as [off Ho].
  { apply lookup_lt_is_Some. apply lookup_lt_Some in Ht. unfold init_function_local_offsets.
    assert (forall o ts, length (init_local_offsets o ts) = length ts) as ->; [|done].
    intros o ts. revert o. induction ts as [|x ts IH]; intros o; cbn; [done|by rewrite IH]. }
  destruct (local_inside _ _ _ Ht Ho) as [_ Hin]. destruct (local_cells _ _ Ht) as [Hw _].
  assert (iwp (p ← Interp.GET_LOCAL_INDEX_TYPE_AND_OFFSET; go_on (local_handler l p))
    (next_ok s0 (length (opcode_byte (local_opcode l) :: n)) (wasm_get_cell_num (local_pops l t))
       (wasm_get_cell_num (local_pushes l t))) s) as H; [|by destruct l].
  apply iwp_bind. unfold Interp.GET_LOCAL_INDEX_TYPE_AND_OFFSET. ifetch Hn s2 D2.
  destruct (di_frame _ _ _ _ _ _ _ _ D2) as (lp' & sp' & E & _).
  apply iwp_bind, iwp_get. rewrite E. cbn [function]. rewrite L1, L2, L3.
  apply iwp_bind. eapply iwp_some; [exact Ho|]. apply iwp_bind. eapply iwp_some; [exact Ht|].
  pose proof (Forall_lookup_1 _ _ _ _ (mt_locals _ _ _ MT) Ht) as Hany.
  pose proof (Forall_lookup_1 _ _ _ _ (mv_locals MV) Ht) as Hvoid.
  assert (iwp (mret (local_width t, off) : IM S _) (fun p => iwp (go_on (local_handler l p))
    (next_ok s0 (length (opcode_byte (local_opcode l) :: n)) (wasm_get_cell_num (local_pops l t))
       (wasm_get_cell_num (local_pushes l t)))) s2) as H; [|by destruct t].
  apply iwp_ret, iwp_go_on. eapply iwp_mono; [by eapply iwp_local; [exact D2|..]; rewrite ?L4|].
  intros [] s3 D3. ifin.
Qed.

(** The byte of the short form. *)
Lemma fast_byte off : 0 <= off < 128 ->
  Z_of_byte (byte_of_Z off) = off /\ Z.land off 128 = 0
  /\ Z.land (Z_of_byte (byte_of_Z (Z.lor off 128))) 128 <> 0
  /\ Z.land (Z_of_byte (byte_of_Z (Z.lor off 128))) 127 = off.
Proof.
  intros H. pose (ok := fun n : nat => let off := Z.of_nat n in
    (Z_of_byte (byte_of_Z off) =? off) && (Z.land off 128 =? 0)
    && negb (Z.land (Z_of_byte (byte_of_Z (Z.lor off 128))) 128 =? 0)
    && (Z.land (Z_of_byte (byte_of_Z (Z.lor off 128))) 127 =? off)).
  assert (forallb ok (seq 0 128) = true) as Hall by (vm_compute; reflexivity).
  rewrite forallb_forall in Hall. specialize (Hall (Z.to_nat off)). unfold ok in Hall.
  rewrite Z2Nat.id in Hall by lia.
  assert (In (Z.to_nat off) (seq 0 128)) as Hin by (apply in_seq; lia).
  specialize (Hall Hin). rewrite !andb_true_iff, negb_true_iff, !Z.eqb_eq, Z.eqb_neq in Hall. tauto.
Qed.

Lemma exec_local_fast s0 l i t off : func_locals func_type0 local_types0 !! i = Some t ->
  init_function_local_offsets func_type0 local_types0 !! i = Some off -> off < 128 ->
  locals_ok s0 -> did s0 s0 0 0 0 ->
  code_at s0 0 [opcode_byte (local_fast_opcode l); byte_of_Z (if is_32bit_type t then off else Z.lor off 128)] ->
  enough s0 (local_pops l t) (local_pushes l t) ->
  executes s0 [opcode_byte (local_fast_opcode l); byte_of_Z (if is_32bit_type t then off else Z.lor off 128)]
    (local_pops l t) (local_pushes l t).
Proof.
  intros Ht Ho H128 [L1 L2 L3 L4] D Hc Hen. eapply iwp_step; [done..|]. intros s D1 Hc1.
  destruct (local_inside _ _ _ Ht Ho) as [H0 Hin]. destruct (local_cells _ _ Ht) as [Hw H32].
  destruct (fast_byte off) as (B1 & B2 & B3 & B4); [lia|].
  assert (iwp (p ← fetch_local_fast; go_on (local_handler l p))
    (next_ok s0 2 (wasm_get_cell_num (local_pops l t)) (wasm_get_cell_num (local_pushes l t))) s) as H;
    [|by destruct l].
  apply iwp_bind. unfold fetch_local_fast. apply iwp_bind. eapply iwp_fetch; [done..|]. intros s2 D2.
  apply iwp_ret. cbn zeta.
  match goal with |- iwp (go_on (local_handler l ?x)) _ _ => replace x with (local_width t, off) end.
  - apply iwp_go_on. by eapply iwp_local; [exact D2|..]; rewrite ?L4.
  - unfold local_width. rewrite H32. destruct (is_64bit_type t); cbn [negb].
    + destruct (Z.eqb_spec (Z.land (Z_of_byte (byte_of_Z (Z.lor off 128))) 128) 0); [done|]. cbn. by rewrite B4.
    + rewrite B1, B2. done.
Qed.


(** ** Globals *)

Definition type_width (t : value_type) : width := if is_64bit_type t then W64 else W32.

Lemma global_cells i g : all_globals module !! i = Some g ->
  cells (type_width (val_type g)) = cellnum (val_type g).
Proof.
  intros H. pose proof (Forall_lookup_1 _ _ _ _ (mv_globals MV) H) as H1. cbn beta in H1.
  by destruct (val_type g).
Qed.

Lemma exec_get_global s0 n i g : leb_u n i -> all_globals module !! Z.to_nat i = Some g ->
  did s0 s0 0 0 0 -> code_at s0 0 (opcode_byte (get_global_opcode (val_type g)) :: n) ->
  enough s0 [] [val_type g] ->
  executes s0 (opcode_byte (get_global_opcode (val_type g)) :: n) [] [val_type g].
Proof.
  intros Hn Hg D Hc Hen. istart. pose proof (global_cells _ _ Hg) as Hw.
  eapply iwp_step; [done..|]. intros s D1 Hc1.
  assert (iwp (go_on (handle_op_get_global global_offsets (type_width (val_type g))))
    (next_ok s0 (length (opcode_byte (get_global_opcode (val_type g)) :: n)) 0 (cellnum (val_type g) + 0)) s) as H.
  2:{ unfold get_global_opcode, type_width in *. by destruct (is_64bit_type (val_type g)). }
  apply iwp_go_on. unfold handle_op_get_global. apply iwp_bind.
  eapply iwp_get_global_addr; [done..|]. intros off s2 D2 Hoff. apply iwp_bind. unfold read_global.
  apply iwp_bind, iwp_get, iwp_bind, iwp_require; [apply Nat.leb_le; lia|]. apply iwp_ret.
  eapply iwp_PUSH; [done|iroom|]. intros s3 D3. ifin.
Qed.

Lemma exec_set_global s0 o n i g : leb_u n i -> all_globals module !! Z.to_nat i = Some g ->
  set_global_opcode (val_type g) o ->
  did s0 s0 0 0 0 -> code_at s0 0 (opcode_byte o :: n) ->
  enough s0 [val_type g] [] -> executes s0 (opcode_byte o :: n) [val_type g] [].
Proof.
  intros Hn Hg Ho D Hc Hen. istart. pose proof (global_cells _ _ Hg) as Hw.
  eapply iwp_step; [done..|]. intros s D1 Hc1.
  assert (iwp (go_on (handle_op_set_global global_offsets (type_width (val_type g))))
    (next_ok s0 (length (opcode_byte o :: n)) (cellnum (val_type g) + 0) 0) s) as H.
  { apply iwp_go_on. unfold handle_op_set_global. apply iwp_bind.
    eapply iwp_get_global_addr; [done..|]. intros off s2 D2 Hoff. apply iwp_bind.
    eapply iwp_POP_global; [exact D2|lia|]. intros v s3 _ D3 Hd.
    eapply iwp_write_global; [exact D3|rewrite Hd; lia|]. intros s4 D4. ifin. }
  unfold set_global_opcode, type_width in *. destruct (is_64bit_type (val_type g)) eqn:E64.
  { by subst o. }
  destruct Ho as [-> | ->]; [done|]. cbn [cells] in Hw. clear H.
  apply (iwp_go_on (handle_op_set_global_aux_stack global_offsets aux_stack_boundary aux_stack_bottom)).
  unfold handle_op_set_global_aux_stack. apply iwp_bind.
  eapply iwp_get_global_addr; [done..|]. intros off s2 D2 Hoff. apply iwp_bind.
  eapply iwp_POP_global with (w := W32); [exact D2|cbn; lia|]. intros v s3 _ D3 Hd.
  destruct (v <=? aux_stack_boundary); [done|]. destruct (aux_stack_bottom <? v); [done|].
  eapply iwp_write_global; [exact D3|rewrite Hd; lia|]. intros s4 D4. ifin.
Qed.

(** ** Memory and constants *)

Lemma exec_memory_size s0 n : leb_u n 0 -> has_memory module = true ->
  did s0 s0 0 0 0 -> code_at s0 0 (opcode_byte WASM_OP_MEMORY_SIZE :: n) ->
  enough s0 [] [VALUE_TYPE_I32] -> executes s0 (opcode_byte WASM_OP_MEMORY_SIZE :: n) [] [VALUE_TYPE_I32].
Proof.
  intros Hn Hm D Hc Hen. istart. eapply iwp_step; [done..|]. intros s D1 Hc1.
  apply (iwp_go_on (Interp.handle_op_memory_size)). unfold Interp.handle_op_memory_size. ifetch Hn s2 D2.
  apply iwp_bind. eapply iwp_get_memory; [done..|]. intros m _ _.
  eapply (iwp_PUSH _ _ _ _ _ _ _ _ W32); [done|iroom|]. intros s3 D3. ifin.
Qed.

Lemma exec_memory_grow s0 n : leb_u n 0 -> has_memory module = true ->
  did s0 s0 0 0 0 -> code_at s0 0 (opcode_byte WASM_OP_MEMORY_GROW :: n) ->
  enough s0 [VALUE_TYPE_I32] [VALUE_TYPE_I32] ->
  executes s0 (opcode_byte WASM_OP_MEMORY_GROW :: n) [VALUE_TYPE_I32] [VALUE_TYPE_I32].
Proof.
  intros Hn Hm D Hc Hen. istart. eapply iwp_step; [done..|]. intros s D1 Hc1.
  apply (iwp_go_on (Interp.handle_op_memory_grow)). unfold Interp.handle_op_memory_grow. ifetch Hn s2 D2.
  ipop delta s3 Hd D3. apply iwp_bind, iwp_get.
  pose proof (di_env _ _ _ _ _ _ _ _ D3) as [E1 E2 E3 E4 E5 E6]. destruct (E5 Hm) as (m & Em & Hl).
  pose proof (el_grow module (env s3) m delta E6 Em Hd) as Hg. unfold wp in Hg.
  destruct (am_grow delta (env s3)) as [[r e']|f]; [destruct Hg as (Hi & m' & Em' & Hle)|exact Hg].
  apply iwp_bind, iwp_set.
  assert (did s0 (set_env e' s3) (1 + length n) (0 + 1) 0) as D4.
  { eapply did_env; [exact D3|done..|]. split; try done. cbn. intros _. exists m'. split; [done|lia]. }
  apply iwp_bind. eapply (iwp_PUSH _ _ _ _ _ _ _ _ W32); [exact D4|iroom|]. intros s5 D5.
  apply iwp_bind. eapply iwp_get_memory; [exact D5|done|]. intros m5 Em5 Hl5.
  destruct (r =? wrap W32 (-1)); [apply iwp_ret; ifin|]. apply iwp_set.
  assert (did s0 (set_linear_mem_size (memory_data_size m5) s5) (1 + length n) (0 + 1) (0 + 1)) as D6.
  { pose proof (di_env _ _ _ _ _ _ _ _ D5) as [F1 F2 F3 F4 F5 F6].
    eapply did_env; [exact D5|done..|]. split; try done. cbn. intros _. exists m5. split; [done|lia]. }
  ifin.
Qed.

Lemma exec_i32_const s0 n v : leb_s32 n v ->
  did s0 s0 0 0 0 -> code_at s0 0 (opcode_byte WASM_OP_I32_CONST :: n) ->
  enough s0 [] [VALUE_TYPE_I32] -> executes s0 (opcode_byte WASM_OP_I32_CONST :: n) [] [VALUE_TYPE_I32].
Proof.
  intros Hn D Hc Hen. istart. eapply iwp_step; [done..|]. intros s D1 Hc1.
  apply (iwp_bind (fetch_leb interp_read_leb_int32)). eapply iwp_fetch_leb with (2 := Hn); [done..|]. intros s2 D2.
  apply iwp_go_on. eapply (iwp_PUSH _ _ _ _ _ _ _ _ W32); [done|iroom|]. intros s3 D3. ifin.
Qed.

Lemma exec_i64_const s0 n v : leb_s64 n v ->
  did s0 s0 0 0 0 -> code_at s0 0 (opcode_byte WASM_OP_I64_CONST :: n) ->
  enough s0 [] [VALUE_TYPE_I64] -> executes s0 (opcode_byte WASM_OP_I64_CONST :: n) [] [VALUE_TYPE_I64].
Proof.
  intros Hn D Hc Hen. istart. change (cellnum VALUE_TYPE_I64) with 2%nat in *.
  eapply iwp_step; [done..|]. intros s D1 Hc1.
  apply (iwp_bind (fetch_leb interp_read_leb_int64)). eapply iwp_fetch_leb with (2 := Hn); [done..|]. intros s2 D2.
  apply iwp_go_on. eapply (iwp_PUSH _ _ _ _ _ _ _ _ W64); [done|iroom|]. intros s3 D3. ifin.
Qed.

Lemma exec_float_const s0 o b w t :
  o = WASM_OP_F32_CONST /\ w = W32 /\ t = VALUE_TYPE_F32 \/ o = WASM_OP_F64_CONST /\ w = W64 /\ t = VALUE_TYPE_F64 ->
  length b = (4 * cells w)%nat ->
  did s0 s0 0 0 0 -> code_at s0 0 (opcode_byte o :: b) ->
  enough s0 [] [t] -> executes s0 (opcode_byte o :: b) [] [t].
Proof.
  intros Ho Hb D Hc Hen. assert (cellnum t = cells w /\ 1 <= cells w)%nat as [Hw Hw1].
  { destruct Ho as [(-> & -> & ->)|(-> & -> & ->)]; (split; [done|cbn; lia]). }
  istart. rewrite Hw in *. eapply iwp_step; [done..|]. intros s D1 Hc1.
  assert (iwp (go_on (handle_op_float_const w)) (next_ok s0 (length (opcode_byte o :: b)) 0 (cells w + 0)) s) as H.
  2:{ destruct Ho as [(-> & -> & ->)|(-> & -> & ->)]; exact H. }
  apply iwp_go_on. unfold handle_op_float_const. apply iwp_bind.
  eapply iwp_fetch_bytes; [done|done|done|lia|]. intros s2 D2.
  eapply iwp_PUSH; [done|iroom|]. intros s3 D3. eapply did_eq; [done|cbn [length]; lia|lia|lia].
Qed.


(** ** Instructions with a prefix *)

Abbreviation misc opc r := (opcode_byte WASM_OP_MISC_PREFIX :: opc ++ r).
Abbreviation i32 := VALUE_TYPE_I32.

(** The handler behind the second opcode. *)
Definition misc_handler (o : WASMMiscEXTOpcode) : IM S () :=
  match trunc_sat o with
  | Some i => handle_numeric i
  | None =>
  match o with
  | WASM_OP_MEMORY_INIT => handle_op_memory_init data_segments
  | WASM_OP_DATA_DROP => handle_op_data_drop
  | WASM_OP_MEMORY_COPY => handle_op_memory_copy
  | WASM_OP_MEMORY_FILL => handle_op_memory_fill
  | WASM_OP_TABLE_INIT => handle_op_table_init table_segs
  | WASM_OP_ELEM_DROP => handle_op_elem_drop
  | WASM_OP_TABLE_COPY => handle_op_table_copy
  | WASM_OP_TABLE_GROW => handle_op_table_grow
  | WASM_OP_TABLE_SIZE => handle_op_table_size
  | WASM_OP_TABLE_FILL => handle_op_table_fill
  | _ => raise EXCE_UNSUPPORTED_OPCODE
  end
  end.

Lemma exec_misc s0 opc o r ps qs : misc_code opc o -> did s0 s0 0 0 0 -> code_at s0 0 (misc opc r) ->
  (forall s, did s0 s (1 + length opc) 0 0 -> code_at s0 (1 + length opc) r ->
     iwp (misc_handler o) (fun _ s' => did s0 s' (1 + length opc + length r)
       (wasm_get_cell_num ps) (wasm_get_cell_num qs)) s) ->
  executes s0 (misc opc r) ps qs.
Proof.
  intros Ho D Hc H. eapply iwp_step; [done..|]. intros s D1 Hc1. apply code_at_app in Hc1 as [Hc1 Hc2].
  apply (iwp_go_on (Interp.handle_op_misc data_segments table_segs)). unfold Interp.handle_op_misc.
  ifetch Ho s2 D2. replace (misc_opcode (misc_opcode_value o mod 256)) with (Some o) by (by destruct o).
  fold (misc_handler o). eapply iwp_mono; [by apply H|]. intros [] s3 D3.
  eapply did_eq; [exact D3|cbn [length]; rewrite length_app; lia|done..].
Qed.

Lemma trunc_sat_agrees o pop push : trunc_sat_signature o = Some (pop, push) ->
  exists i, trunc_sat o = Some i /\ instr_cells i = (1%nat, cellnum pop, cellnum push).
Proof. destruct o; intros [= <- <-]; by eexists. Qed.

Lemma exec_trunc_sat s0 opc o pop push : misc_code opc o -> trunc_sat_signature o = Some (pop, push) ->
  did s0 s0 0 0 0 -> code_at s0 0 (opcode_byte WASM_OP_MISC_PREFIX :: opc) ->
  enough s0 [pop] [push] -> executes s0 (opcode_byte WASM_OP_MISC_PREFIX :: opc) [pop] [push].
Proof.
  intros Ho Ht D Hc [Hpop Hroom]. rewrite <- (app_nil_r opc) in Hc |- *. eapply exec_misc; [done..|].
  intros s D1 _. destruct (trunc_sat_agrees _ _ _ Ht) as (i & Hi & Hcells). unfold misc_handler. rewrite Hi.
  rewrite !get_cell_num_one in *. eapply iwp_mono; [eapply iwp_numeric; [exact Hcells|exact D1|lia|]|].
  - unfold room in *. lia.
  - intros [] s2 D2. eapply did_eq; [exact D2|cbn; lia|lia|done].
Qed.

Lemma iwp_skip_byte s0 s k p q b Q :
  did s0 s k p q -> code_at s0 k [b] ->
  (forall s', did s0 s' (k + 1) p q -> env s' = env s -> Q tt s') -> iwp skip_byte Q s.
Proof. intros D Hc HQ. apply iwp_bind. eapply iwp_fetch_env; [done..|]. intros s' D' E. by apply iwp_ret, HQ. Qed.

Lemma slice_length {A} (l : list A) a n : (length (l.[a,+n]) <= n)%nat.
Proof. rewrite length_take. lia. Qed.

Lemma in_range_sub s maddr n n' : in_range s maddr n -> n' <= n -> in_range s maddr n'.
Proof. intros (m & H1 & H2 & H3) Hn. exists m. split_and!; [done..|lia]. Qed.

Lemma one_byte (x : bytes) : length x = 1%nat -> exists b, x = [b].
Proof. destruct x as [|b [|]]; try done. eauto. Qed.

Lemma exec_memory_init s0 opc n i x : misc_code opc WASM_OP_MEMORY_INIT -> leb_u n i ->
  length x = 1%nat -> i < data_seg_count module -> has_memory module = true ->
  did s0 s0 0 0 0 -> code_at s0 0 (misc opc (n ++ x)) -> enough s0 [i32; i32; i32] [] ->
  executes s0 (misc opc (n ++ x)) [i32; i32; i32] [].
Proof.
  intros Ho Hn Hx Hi Hm D Hc Hen. apply exec_misc with (o := WASM_OP_MEMORY_INIT); [done..|].
  intros s D1 Hc1. istart. apply code_at_app in Hc1 as [Hc1 Hc2]. destruct (one_byte _ Hx) as [b ->].
  unfold misc_handler, handle_op_memory_init. cbn [trunc_sat]. ifetch Hn s2 D2.
  apply iwp_bind. eapply iwp_skip_byte; [done..|]. intros s3 D3 _.
  ipop len s4 Hlen D4. ipop offset s5 Hoffset D5. ipop addr s6 Haddr D6.
  apply iwp_bind. eapply iwp_check_bulk; [done..|]. intros maddr Hr.
  pose proof (leb_u_nonneg _ _ Hn) as H0. pose proof (di_env _ _ _ _ _ _ _ _ D6) as [E1 E2 E3 E4 E5 E6].
  apply iwp_bind, iwp_get, iwp_bind.
  destruct (data_dropped s6 !! Z.to_nat i) as [dr|] eqn:Ed; [|apply lookup_ge_None in Ed; lia].
  apply iwp_ret, iwp_bind.
  destruct (data_segments !! Z.to_nat i) as [dt|] eqn:Edt;
    [|apply lookup_ge_None in Edt; pose proof (so_data _ _ _ SO); lia].
  assert (forall data : bytes, iwp (if zlen data <? wrap_u64 (offset + len) then raise EXCE_OUT_OF_BOUNDS_MEMORY_ACCESS
     else store_bytes maddr (data.[Z.to_nat offset,+ Z.to_nat len]))
     (fun _ s' => did s0 s' (1 + length opc + length (n ++ [b])) 3 0) s6) as Hst.
  { intros data. destruct (_ <? _); [done|]. eapply iwp_store; [exact EL|exact D6| |].
    - eapply in_range_sub; [done|]. pose proof (slice_length data (Z.to_nat offset) (Z.to_nat len)).
      unfold cell_ok in *. lia.
    - intros s7 D7. eapply did_eq; [exact D7|rewrite length_app; cbn; lia|done..]. }
  destruct dr; apply iwp_ret, Hst.
Qed.

Lemma exec_data_drop s0 opc n i : misc_code opc WASM_OP_DATA_DROP -> leb_u n i -> i < data_seg_count module ->
  did s0 s0 0 0 0 -> code_at s0 0 (misc opc n) -> enough s0 [] [] -> executes s0 (misc opc n) [] [].
Proof.
  intros Ho Hn Hi D Hc Hen. apply exec_misc with (o := WASM_OP_DATA_DROP); [done..|].
  intros s D1 Hc1. istart. unfold misc_handler, handle_op_data_drop. cbn [trunc_sat]. ifetch Hn s2 D2.
  pose proof (leb_u_nonneg _ _ Hn) as H0. pose proof (di_env _ _ _ _ _ _ _ _ D2) as [E1 E2 E3 E4 E5 E6].
  apply iwp_bind, iwp_get, iwp_bind, iwp_require; [apply Nat.ltb_lt; lia|]. apply iwp_set.
  eapply did_env; [exact D2|done..|]. split; try done. cbn. by rewrite length_insert.
Qed.

Lemma exec_memory_copy s0 opc r : misc_code opc WASM_OP_MEMORY_COPY ->
  length r = 2%nat -> has_memory module = true ->
  did s0 s0 0 0 0 -> code_at s0 0 (misc opc r) -> enough s0 [i32; i32; i32] [] ->
  executes s0 (misc opc r) [i32; i32; i32] [].
Proof.
  intros Ho Hr Hm D Hc Hen. apply exec_misc with (o := WASM_OP_MEMORY_COPY); [done..|].
  intros s D1 Hc1. istart. destruct r as [|b1 [|b2 [|]]]; try done.
  apply (code_at_app s0 _ [b1] [b2]) in Hc1 as [Hc1 Hc2].
  unfold misc_handler, handle_op_memory_copy. cbn [trunc_sat].
  ipop len s2 Hlen D2. ipop src s3 Hsrc D3. ipop dst s4 Hdst D4.
  apply iwp_bind. eapply iwp_skip_byte; [done..|]. intros s5 D5 _.
  apply iwp_bind. eapply iwp_check_bulk; [done..|]. intros mdst Hr5.
  apply iwp_bind. eapply iwp_skip_byte; [done..|]. intros s6 D6 E6.
  apply iwp_bind. eapply iwp_check_bulk; [done..|]. intros msrc Hr6.
  assert (did s0 s6 (1 + length opc + length [b1; b2]) 3 0) as D6'.
  { eapply did_eq; [exact D6|cbn; lia|done..]. }
  destruct (_ && _); [|by apply iwp_ret]. apply iwp_bind.
  unfold cell_ok in *. apply iwp_load; [by rewrite Z2Nat.id by lia|]. intros b Hb.
  eapply iwp_store; [exact EL|exact D6'| |done]. unfold in_range in *. rewrite E6.
  replace (zlen b) with len by lia. done.
Qed.

Lemma exec_memory_fill s0 opc x : misc_code opc WASM_OP_MEMORY_FILL ->
  length x = 1%nat -> has_memory module = true ->
  did s0 s0 0 0 0 -> code_at s0 0 (misc opc x) -> enough s0 [i32; i32; i32] [] ->
  executes s0 (misc opc x) [i32; i32; i32] [].
Proof.
  intros Ho Hx Hm D Hc Hen. apply exec_misc with (o := WASM_OP_MEMORY_FILL); [done..|].
  intros s D1 Hc1. istart. destruct (one_byte _ Hx) as [b ->].
  unfold misc_handler, handle_op_memory_fill. cbn [trunc_sat].
  apply iwp_bind. eapply iwp_skip_byte; [done..|]. intros s2 D2 _.
  ipop len s3 Hlen D3. ipop v s4 Hv D4. ipop dst s5 Hdst D5.
  apply iwp_bind. eapply iwp_check_bulk; [done..|]. intros mdst Hr.
  unfold cell_ok in *. eapply iwp_store; [exact EL|exact D5| |].
  - rewrite length_replicate. by rewrite Z2Nat.id by lia.
  - intros s6 D6. eapply did_eq; [exact D6|cbn; lia|done..].
Qed.


Lemma cells_splice (l v : list Z) a n : cells_ok l -> cells_ok v -> cells_ok (take a l ++ v ++ drop n l).
Proof. intros Hl Hv. repeat (apply Forall_app; split); [by apply Forall_take|done|by apply Forall_drop]. Qed.

Lemma cells_slice (l : list Z) a n : cells_ok l -> cells_ok (l.[a,+n]).
Proof. intros Hl. by apply Forall_take, Forall_drop. Qed.

Lemma exec_table_init s0 opc n i m j sg t : misc_code opc WASM_OP_TABLE_INIT -> leb_u n i -> leb_u m j ->
  table_segments module !! Z.to_nat i = Some sg -> all_tables module !! Z.to_nat j = Some t ->
  did s0 s0 0 0 0 -> code_at s0 0 (misc opc (n ++ m)) -> enough s0 [i32; i32; i32] [] ->
  executes s0 (misc opc (n ++ m)) [i32; i32; i32] [].
Proof.
  intros Ho Hn Hm Hs Ht D Hc Hen. apply exec_misc with (o := WASM_OP_TABLE_INIT); [done..|].
  intros s D1 Hc1. istart. apply code_at_app in Hc1 as [Hc1 Hc2].
  unfold misc_handler, handle_op_table_init. cbn [trunc_sat]. ifetch Hn s2 D2. ifetch Hm s3 D3.
  apply iwp_bind. eapply iwp_get_table; [done..|]. intros ti Hti Hcells.
  ipop len s4 Hlen D4. ipop src s5 Hsrc D5. ipop dst s6 Hdst D6.
  pose proof (di_env _ _ _ _ _ _ _ _ D6) as [E1 E2 E3 E4 E5 E6]. apply lookup_lt_Some in Hs.
  apply iwp_bind, iwp_get, iwp_bind.
  destruct (elem_dropped s6 !! Z.to_nat i) as [dr|] eqn:Ed; [|apply lookup_ge_None in Ed; lia].
  apply iwp_ret, iwp_bind.
  destruct (table_segs !! Z.to_nat i) as [seg|] eqn:Es;
    [|apply lookup_ge_None in Es; pose proof (so_elem _ _ _ SO); lia].
  pose proof (Forall_lookup_1 _ _ _ _ (so_elem_cells _ _ _ SO) Es) as Hseg.
  assert (forall sg : list Z, cells_ok sg -> iwp (if offset_len_out_of_bounds src len (zlen sg)
      || offset_len_out_of_bounds dst len (cur_size ti) then raise EXCE_OUT_OF_BOUNDS_TABLE_ACCESS else
      put_table j (TableInstance (max_size ti) (take (Z.to_nat dst) (elems ti) ++ sg.[Z.to_nat src,+ Z.to_nat len]
        ++ drop (Z.to_nat dst + Z.to_nat len) (elems ti))))
     (fun _ s' => did s0 s' (1 + length opc + length (n ++ m)) 3 0) s6) as Hst.
  { intros sg' Hsg. destruct (_ || _); [done|]. eapply iwp_put_table; [exact D6| |].
    - cbn. by apply cells_splice, cells_slice.
    - intros s7 D7. eapply did_eq; [exact D7|rewrite length_app; cbn; lia|done..]. }
  destruct dr; apply iwp_ret, Hst; done.
Qed.

Lemma exec_elem_drop s0 opc n i sg : misc_code opc WASM_OP_ELEM_DROP -> leb_u n i ->
  table_segments module !! Z.to_nat i = Some sg ->
  did s0 s0 0 0 0 -> code_at s0 0 (misc opc n) -> enough s0 [] [] -> executes s0 (misc opc n) [] [].
Proof.
  intros Ho Hn Hi D Hc Hen. apply exec_misc with (o := WASM_OP_ELEM_DROP); [done..|].
  intros s D1 Hc1. istart. unfold misc_handler, handle_op_elem_drop. cbn [trunc_sat]. ifetch Hn s2 D2.
  pose proof (di_env _ _ _ _ _ _ _ _ D2) as [E1 E2 E3 E4 E5 E6]. apply lookup_lt_Some in Hi.
  apply iwp_bind, iwp_get, iwp_bind, iwp_require; [apply Nat.ltb_lt; lia|]. apply iwp_set.
  eapply did_env; [exact D2|done..|]. split; try done. cbn. by rewrite length_insert.
Qed.

Lemma exec_table_copy s0 opc n i m j t1 t2 : misc_code opc WASM_OP_TABLE_COPY -> leb_u n i -> leb_u m j ->
  all_tables module !! Z.to_nat i = Some t1 -> all_tables module !! Z.to_nat j = Some t2 ->
  did s0 s0 0 0 0 -> code_at s0 0 (misc opc (n ++ m)) -> enough s0 [i32; i32; i32] [] ->
  executes s0 (misc opc (n ++ m)) [i32; i32; i32] [].
Proof.
  intros Ho Hn Hm Ht1 Ht2 D Hc Hen. apply exec_misc with (o := WASM_OP_TABLE_COPY); [done..|].
  intros s D1 Hc1. istart. apply code_at_app in Hc1 as [Hc1 Hc2].
  unfold misc_handler, handle_op_table_copy. cbn [trunc_sat]. ifetch Hn s2 D2.
  apply iwp_bind. eapply iwp_get_table with (2 := Ht1); [done|]. intros ti Hti Hcells1. ifetch Hm s3 D3.
  apply iwp_bind. eapply iwp_get_table with (2 := Ht2); [done|]. intros tj Htj Hcells2.
  ipop len s4 Hlen D4. ipop src s5 Hsrc D5. ipop dst s6 Hdst D6.
  destruct (_ || _); [done|]. eapply iwp_put_table; [exact D6| |].
  - cbn. by apply cells_splice, cells_slice.
  - intros s7 D7. eapply did_eq; [exact D7|rewrite length_app; cbn; lia|done..].
Qed.

Lemma exec_table_size s0 opc n i t : misc_code opc WASM_OP_TABLE_SIZE -> leb_u n i ->
  all_tables module !! Z.to_nat i = Some t ->
  did s0 s0 0 0 0 -> code_at s0 0 (misc opc n) -> enough s0 [] [i32] -> executes s0 (misc opc n) [] [i32].
Proof.
  intros Ho Hn Ht D Hc Hen. apply exec_misc with (o := WASM_OP_TABLE_SIZE); [done..|].
  intros s D1 Hc1. istart. unfold misc_handler, handle_op_table_size. cbn [trunc_sat]. ifetch Hn s2 D2.
  apply iwp_bind. eapply iwp_get_table; [done..|]. intros ti Hti Hcells.
  eapply (iwp_PUSH _ _ _ _ _ _ _ _ W32); [done|iroom|]. intros s3 D3. ifin.
Qed.

Lemma iwp_enlarge_table s0 s k p q i t n v Q :
  did s0 s k p q -> all_tables module !! Z.to_nat i = Some t -> cell_ok v ->
  (forall r s', did s0 s' k p q -> Q r s') -> iwp (wasm_enlarge_table i n v) Q s.
Proof.
  intros D Ht Hv HQ. unfold wasm_enlarge_table. destruct (n =? 0); [by apply iwp_ret, HQ|].
  apply iwp_bind. eapply iwp_get_table; [done..|]. intros ti Hti Hcells.
  destruct (_ <? _); [by apply iwp_ret, HQ|]. cbn zeta. destruct (_ <? _); [by apply iwp_ret, HQ|].
  apply iwp_bind. eapply iwp_put_table; [exact D| |].
  - cbn. apply Forall_app. split; [done|]. by apply Forall_replicate.
  - intros s2 D2. by apply iwp_ret, HQ.
Qed.

Lemma exec_table_grow s0 opc n i t : misc_code opc WASM_OP_TABLE_GROW -> leb_u n i ->
  all_tables module !! Z.to_nat i = Some t ->
  did s0 s0 0 0 0 -> code_at s0 0 (misc opc n) -> enough s0 [t; i32] [i32] -> executes s0 (misc opc n) [t; i32] [i32].
Proof.
  intros Ho Hn Ht D Hc Hen. apply exec_misc with (o := WASM_OP_TABLE_GROW); [done..|].
  intros s D1 Hc1. istart. rewrite (table_cells _ _ Ht) in *.
  unfold misc_handler, handle_op_table_grow. cbn [trunc_sat]. ifetch Hn s2 D2.
  apply iwp_bind. eapply iwp_get_table; [done..|]. intros ti Hti Hcells.
  ipop len s3 Hlen D3. ipop v s4 Hv D4.
  apply iwp_bind. eapply iwp_enlarge_table; [exact D4|exact Ht|done|]. intros r s5 D5.
  eapply (iwp_PUSH _ _ _ _ _ _ _ _ W32); [done|iroom|]. intros s6 D6. ifin.
Qed.

Lemma exec_table_fill s0 opc n i t : misc_code opc WASM_OP_TABLE_FILL -> leb_u n i ->
  all_tables module !! Z.to_nat i = Some t ->
  did s0 s0 0 0 0 -> code_at s0 0 (misc opc n) -> enough s0 [i32; t; i32] [] -> executes s0 (misc opc n) [i32; t; i32] [].
Proof.
  intros Ho Hn Ht D Hc Hen. apply exec_misc with (o := WASM_OP_TABLE_FILL); [done..|].
  intros s D1 Hc1. istart. rewrite (table_cells _ _ Ht) in *.
  unfold misc_handler, handle_op_table_fill. cbn [trunc_sat]. ifetch Hn s2 D2.
  apply iwp_bind. eapply iwp_get_table; [done..|]. intros ti Hti Hcells.
  ipop len s3 Hlen D3. ipop v s4 Hv D4. ipop idx s5 Hidx D5.
  destruct (offset_len_out_of_bounds _ _ _); [done|]. eapply iwp_put_table; [exact D5| |].
  - cbn. apply cells_splice; [done|]. by apply Forall_replicate.
  - intros s6 D6. ifin.
Qed.

(** ** Every instruction that goes on behind itself *)

Lemma exec_straight s0 bs ps qs :
  straight module func_type0 local_types0 bs ps qs -> short_index bs ->
  locals_ok s0 -> did s0 s0 0 0 0 -> code_at s0 0 bs -> enough s0 ps qs -> executes s0 bs ps qs.
Proof.
  intros Hst Hshort L D Hc Hen. destruct Hst.
  - unfold executes. eapply iwp_step; [done..|]. intros s D1 _. apply (iwp_ret running). split; [done|exact D1].
  - by apply exec_numeric.
  - by eapply exec_load.
  - by eapply exec_store.
  - eapply exec_drop; [left; auto|done..].
  - eapply exec_drop; [right; auto|done..].
  - eapply exec_select; [left; auto|done..].
  - eapply exec_select; [right; auto|done..].
  - by eapply exec_select_t.
  - by eapply exec_table_get.
  - by eapply exec_table_set.
  - by eapply exec_ref_null.
  - by eapply exec_ref_is_null.
  - by eapply exec_ref_func.
  - by eapply exec_local.
  - by eapply exec_local_fast.
  - by eapply exec_get_global.
  - by eapply exec_set_global.
  - by eapply exec_memory_size.
  - by eapply exec_memory_grow.
  - by eapply exec_i32_const.
  - by eapply exec_i64_const.
  - eapply exec_float_const; [left; split_and!; done|done..].
  - eapply exec_float_const; [right; split_and!; done|done..].
  - by eapply exec_trunc_sat.
  - pose proof (leb_is_length _ _ _ _ H1). eapply exec_memory_init; [done|done| |done..].
    pose proof (Hshort opc _ (n ++ x) eq_refl H n i x eq_refl H0). lia.
  - by eapply exec_data_drop.
  - pose proof (leb_is_length _ _ _ _ H0). pose proof (leb_is_length _ _ _ _ H1).
    eapply exec_memory_copy; [done| |done..].
    pose proof (Hshort opc _ (x ++ y) eq_refl H) as Hlen. cbn in Hlen. rewrite length_app in *. lia.
  - pose proof (leb_is_length _ _ _ _ H0). eapply exec_memory_fill; [done| |done..].
    pose proof (Hshort opc _ x eq_refl H) as Hlen. cbn in Hlen. lia.
  - by eapply exec_table_init.
  - by eapply exec_elem_drop.
  - by eapply exec_table_copy.
  - by eapply exec_table_size.
  - by eapply exec_table_grow.
  - by eapply exec_table_fill.
Qed.

End exec.
