(* ===== verification/CheckBounds.v ===== *)
(** * The bounds of a checked function

    [max_stack_cell_num] and [max_csp_num] of an accepted function have 16 bits:
    no operation of the checker makes them larger. *)

From S2P Require Import Prelude Memory Leb LebSpec Opcode Loader LoaderSpec.

#[local] Opaque UINT16_MAX.

Definition small (c : WASMLoaderContext) : Prop :=
  (max_stack_cell_num c <= UINT16_MAX)%nat /\ (max_csp_num c <= UINT16_MAX)%nat.

Class Keeps {A} (m : LM A) : Prop := keeps : forall c a c', m c = Some (a, c') -> small c -> small c'.

Lemma limits_bind {A B} (m : LM A) (k : A -> LM B) :
  Keeps m -> (forall a, Keeps (k a)) -> Keeps (m ≫= k).
Proof. intros H1 H2 c b c' (a & c1 & E1 & E2)%bind_Some Hs. exact (H2 _ _ _ _ E2 (H1 _ _ _ E1 Hs)). Qed.

#[export] Instance keeps_ret {A} (a : A) : Keeps (mret a).
Proof. by intros c b c' [-> ->]%ret_Some. Qed.

#[export] Instance keeps_get {A} (f : WASMLoaderContext -> A) : Keeps (lget f).
Proof. by intros c b c' [-> ->]%get_Some. Qed.

#[export] Instance keeps_check b : Keeps (check b).
Proof. by intros c a c' [_ ->]%check_Some. Qed.

#[export] Instance keeps_some {A} (o : option A) : Keeps (lsome o).
Proof. by intros c b c' [_ ->]%some_Some. Qed.

#[export] Instance keeps_fail {A} : Keeps (@goto_fail A).
Proof. done. Qed.

Lemma keeps_set f : (forall c, small c -> small (f c)) -> Keeps (lset f).
Proof. intros H c a c' ->%set_Some. apply H. Qed.

(** One operation after the other, in every case. *)
Ltac keep :=
  repeat match goal with
    | |- Keeps (lset _) => apply keeps_set; intros ? [H1 H2]; split; [exact H1|exact H2]
    | |- Keeps (_ ≫= _) => apply limits_bind; [|intros ?]
    | |- Keeps (match ?x with _ => _ end) => destruct x
    | |- Keeps _ => exact _
    end.

#[export] Instance keeps_cur_block : Keeps cur_block.
Proof. unfold cur_block. keep. Qed.

#[export] Instance keeps_set_cur_block f : Keeps (set_cur_block f).
Proof. apply keeps_set. intros c H. by destruct (frame_csp c). Qed.

#[export] Instance keeps_advance n : Keeps (advance n).
Proof. unfold advance. keep. Qed.

#[export] Instance keeps_CHECK_BUF n : Keeps (CHECK_BUF n).
Proof. unfold CHECK_BUF. keep. Qed.

#[export] Instance keeps_read_uint8 : Keeps read_uint8.
Proof. unfold read_uint8. keep. Qed.

#[export] Instance keeps_peek r : Keeps (peek_leb r).
Proof. unfold peek_leb. keep. Qed.

#[export] Instance keeps_leb r : Keeps (lread_leb r).
Proof. unfold lread_leb. keep. Qed.

#[export] Instance keeps_cur_p : Keeps cur_p.
Proof. unfold cur_p. keep. Qed.

#[export] Instance keeps_put_code a b : Keeps (put_code a b).
Proof. unfold put_code. keep. Qed.

#[export] Instance keeps_put_opcode a b : Keeps (put_opcode a b).
Proof. unfold put_opcode. keep. Qed.

#[export] Instance keeps_fill_nop q : Keeps (fill_nop q).
Proof. unfold fill_nop. keep. Qed.

#[export] Instance keeps_push t : Keeps (wasm_loader_push_frame_ref t).
Proof.
  intros c a c' H [S1 S2]. unfold wasm_loader_push_frame_ref in H.
  apply bind_Some in H as (u1 & c1 & ->%set_Some & H). apply bind_Some in H as (n & c1 & [-> ->]%get_Some & H).
  apply bind_Some in H as (m & c1 & [-> ->]%get_Some & H). destruct (_ <? _)%nat.
  - apply bind_Some in H as (u2 & c2 & ->%set_Some & [Hc%Nat.leb_le ->]%check_Some). done.
  - by apply ret_Some in H as [_ ->].
Qed.

#[export] Instance keeps_push_csp l t p : Keeps (wasm_loader_push_frame_csp l t p).
Proof.
  intros c a c' H [S1 S2]. unfold wasm_loader_push_frame_csp in H.
  apply bind_Some in H as (n & c1 & [-> ->]%get_Some & H).
  apply bind_Some in H as (u1 & c1 & ->%set_Some & H). apply bind_Some in H as (n & c1 & [-> ->]%get_Some & H).
  apply bind_Some in H as (m & c1 & [-> ->]%get_Some & H). destruct (_ <? _)%nat.
  - apply bind_Some in H as (u2 & c2 & ->%set_Some & [Hc%Nat.leb_le ->]%check_Some). done.
  - by apply ret_Some in H as [_ ->].
Qed.

#[export] Instance keeps_available : Keeps available_stack_cell.
Proof. unfold available_stack_cell. keep. Qed.

#[export] Instance keeps_check_pop t : Keeps (check_stack_pop t).
Proof. unfold check_stack_pop. keep. Qed.

#[export] Instance keeps_pop t : Keeps (wasm_loader_pop_frame_ref t).
Proof. unfold wasm_loader_pop_frame_ref. keep. Qed.

#[export] Instance keeps_repeat n m : Keeps m -> Keeps (repeat_op n m).
Proof. intros H. induction n; cbn; keep. Qed.

#[export] Instance keeps_push_pop n t t' : Keeps (wasm_loader_push_pop_frame_ref n t t').
Proof. unfold wasm_loader_push_pop_frame_ref. keep. Qed.

#[export] Instance keeps_push_types ts : Keeps (push_types ts).
Proof. induction ts; cbn; keep. Qed.

#[export] Instance keeps_pop_each ts : Keeps (pop_each ts).
Proof. induction ts; cbn; keep. Qed.

#[export] Instance keeps_pop_types ts : Keeps (pop_types ts).
Proof. unfold pop_types. keep. Qed.

#[export] Instance keeps_pop_csp : Keeps wasm_loader_pop_frame_csp.
Proof. unfold wasm_loader_pop_frame_csp. keep. Qed.

#[export] Instance keeps_reset : Keeps reset_polymorphic.
Proof. unfold reset_polymorphic, RESET_STACK, SET_CUR_BLOCK_STACK_POLYMORPHIC_STATE. keep. Qed.

#[export] Instance keeps_check_br d o : Keeps (wasm_loader_check_br d o).
Proof. unfold wasm_loader_check_br. keep. Qed.

#[export] Instance keeps_branch o : Keeps (check_branch_block o).
Proof. unfold check_branch_block, pb_read_leb_uint32. keep. Qed.

#[export] Instance keeps_block_stack b : Keeps (check_block_stack b).
Proof. unfold check_block_stack. keep. Qed.

#[export] Instance keeps_block_params ts : Keeps (pop_block_params ts).
Proof. induction ts; cbn; keep. Qed.

#[export] Instance keeps_else p : Keeps (handle_op_else p).
Proof. unfold handle_op_else, RESET_STACK, SET_CUR_BLOCK_STACK_POLYMORPHIC_STATE. keep. Qed.

#[export] Instance keeps_end : Keeps handle_op_end.
Proof. unfold handle_op_end. keep. Qed.

#[export] Instance keeps_arity d : Keeps (depth_arity d).
Proof. unfold depth_arity. keep. Qed.

#[export] Instance keeps_targets n a i p p' p'' t : Keeps (br_table_targets n a i p p' p'' t).
Proof. revert i p'' t. induction n; intros i p'' t; cbn [br_table_targets]; keep. Qed.

#[export] Instance keeps_br_table : Keeps handle_op_br_table.
Proof. unfold handle_op_br_table, pb_read_leb_uint32. keep. Qed.

Section check.
Context (module : WASMModule) (func_type : WASMFuncType) (local_types : list value_type).

#[local] Instance keeps_ref_is_null : Keeps handle_op_ref_is_null.
Proof.
  apply limits_bind; [|intros _; unfold PUSH_I32; keep]. intros c a c' H.
  destruct (wasm_loader_pop_frame_ref VALUE_TYPE_FUNCREF c) as [r|] eqn:E.
  - injection H as ->. exact (keeps_pop _ _ _ _ E).
  - exact (keeps_pop _ _ _ _ H).
Qed.

#[local] Instance keeps_local : Keeps (GET_LOCAL_INDEX_TYPE_AND_OFFSET func_type local_types).
Proof. unfold GET_LOCAL_INDEX_TYPE_AND_OFFSET, pb_read_leb_uint32. keep. Qed.

#[local] Instance keeps_put_local p o t off : Keeps (put_local_fast p o t off).
Proof. unfold put_local_fast. keep. Qed.

#[local] Instance keeps_block o : Keeps (handle_op_block_and_loop module o).
Proof. unfold handle_op_block_and_loop, pb_read_leb_int32, check_function_type. keep. Qed.

#[local] Instance keeps_misc : Keeps (handle_op_misc module).
Proof.
  unfold handle_op_misc, handle_op_memory_init, handle_op_data_drop, handle_op_memory_copy, handle_op_memory_fill,
    handle_op_table_init, handle_op_elem_drop, handle_op_table_copy, handle_op_table_size, handle_op_table_grow,
    handle_op_table_fill, read_memidx, check_memidx, check_memory, get_table_elem_type, get_table_seg_elem_type,
    pb_read_leb_uint32, POP_I32, PUSH_I32. keep.
Qed.

Lemma keeps_round o : Keeps (Loader.handle_op module func_type local_types o).
Proof.
  apply limits_bind; [exact _|]. intros p. cbn zeta.
  destruct (numeric_signature o) as [[[n t] t']|]; [keep|].
  destruct (memory_signature o) as [[t st]|].
  { unfold handle_op_load_store, check_memory, pb_read_leb_uint32, POP_I32. keep. }
  unfold handle_op_return, handle_op_call, handle_op_call_indirect, handle_op_drop, handle_op_select,
    handle_op_select_t, handle_op_table_get, handle_op_table_set, handle_op_ref_null, handle_op_ref_func,
    handle_op_get_local, handle_op_set_local, handle_op_tee_local, handle_op_global, handle_op_memory_size,
    handle_op_memory_grow, read_memidx, check_memidx, check_memory, get_table_elem_type, check_function_type,
    check_function_index, pb_read_leb_uint32, pb_read_leb_int32, pb_read_leb_int64, POP_I32, PUSH_I32.
  destruct o; keep.
Qed.

#[export] Instance keeps_check_round : Keeps (check_round module func_type local_types).
Proof. unfold check_round. pose proof keeps_round as Hr. keep. Qed.

Lemma keeps_loop fuel c cf : check_loop module func_type local_types fuel c = LoopDone cf -> small c -> small cf.
Proof.
  revert c. induction fuel as [|fuel IH]; intros c H Hc; [done|]. cbn in H.
  destruct (p_rest c); [by injection H as <-|].
  destruct (check_round _ _ _ c) as [[u c']|] eqn:Hr; [|done]. eapply IH; [exact H|]. by eapply keeps.
Qed.

(** The sizes that the checker computes for an accepted function have 16
    bits, whatever its code is. *)
Lemma prepared_small code cd ms mb br :
  wasm_loader_prepare_bytecode module func_type local_types code = Loaded cd ms mb br ->
  (ms <= UINT16_MAX)%nat /\ (mb <= UINT16_MAX)%nat.
Proof.
  unfold wasm_loader_prepare_bytecode. destruct (wasm_loader_push_frame_csp _ _ _ _) as [[u c]|] eqn:Hp; [|done].
  destruct (check_loop _ _ _ _ c) as [cf| |] eqn:Hl; [|done..]. destruct (csp_num cf =? 0)%nat; [|done].
  intros [= <- <- <- <-]. eapply keeps_loop; [exact Hl|]. refine (keeps _ _ _ Hp _). split; cbn; apply Nat.le_0_l.
Qed.
End check.
