(* ===== verification/Sound.v ===== *)
(** * Checked code is safe to execute

    The invariant of the interpreter on functions that the checker has
    accepted: the frames are at contexts of the runs of the checker. *)

From S2P Require Import Prelude Memory Leb LebSpec LinearMemory Opcode Loader LoaderSpec Bytecode CheckSpec CheckControl BlockAddr SkipSpec CheckRound CheckRuns Regions FindBlock Labels Numeric Interp InterpSpec Exec.

Section sound.
Context {S : Type} `{AM : !AppMemory S} `{NF : !Natives S}.
Context (module : WASMModule).
Context (ptr_size : Z) (functions : list WASMFunctionInstance).
Context (global_offsets : list nat) (data_segments : list bytes) (table_segs : list (list Z)).
Context (aux_stack_boundary aux_stack_bottom : Z).
Context (inv : S -> Prop) `{EL : !EnvLaws module inv}.
Context (SO : segments_ok module data_segments table_segs).

(** The code that was loaded for a function, and the last context of its
    check. *)
Context (source : WASMFunction -> bytes) (final : WASMFunction -> WASMLoaderContext).

Abbreviation ft := Interp.func_type.
Abbreviation lt := Interp.local_types.
Definition run_of (f : WASMFunction) : WASMLoaderContext -> Prop := on_run module (ft f) (lt f) (source f).
Definition rstep_of (f : WASMFunction) := rstep module (ft f) (lt f).
Definition ends_of (f : WASMFunction) := ends module (ft f) (lt f) (final f).
Definition start_of (f : WASMFunction) := block_start module (ft f) (lt f) (source f).
Definition inside_of (f : WASMFunction) := inside module (ft f) (lt f).
Definition ahead_of (f : WASMFunction) := ahead (final f).

(** The cells of the frame of a function. *)
Definition func_cells (f : WASMFunction) : Z :=
  Z.of_nat (param_cell_num (ft f) + local_cell_num f + func_max_stack_cell_num f)
  + Z.of_nat (func_max_block_num f) * sizeof_WASMBranchBlock ptr_size / 4.

(** A function that the checker has accepted. *)
Record loaded (f : WASMFunction) : Prop := {
  ld_types : module_types module (ft f) (lt f);
  ld_values : module_values module (ft f) (lt f);
  ld_offsets : local_offsets f = init_function_local_offsets (ft f) (lt f);
  ld_accepts : accepts module (ft f) (lt f) (final f) (start_ctx (ft f) (source f));
  ld_final : frame_csp (final f) = [];
  ld_code : code f = p_done (final f);
  ld_max : func_max_stack_cell_num f = max_stack_cell_num (final f);
  ld_blocks : func_max_block_num f = max_csp_num (final f);
  ld_cache : func_br_table_cache f = br_table_cache_list (final f);
  ld_size : offsetof_lp ptr_size + 4 * func_cells f + 4 <= 2 ^ 31
}.

(** The functions of the module instance: they have the types that the checker
    knows, natives return at most two cells, the memory indices that the
    interpreter skips have one byte, and the code of a function is at an address
    of its own. *)
Record functions_ok : Prop := {
  fo_types : function_type <$> functions = all_functions module;
  fo_import : forall i t, import_function i t ∈ functions ->
    import_functions module !! i = Some t /\ (ret_cell_num t <= 2)%nat
    /\ offsetof_lp ptr_size + 4 * Z.max (Z.of_nat (param_cell_num t)) 2 + 4 <= 2 ^ 31;
  fo_loaded : forall f, wasm_function f ∈ functions -> loaded f;
  fo_short : forall f c c', wasm_function f ∈ functions -> run_of f c -> rstep_of f c c' ->
    short_bytes (drop (length (p_done c)) (p_done c')) = true;
  fo_places : forall f1 f2 a, wasm_function f1 ∈ functions -> wasm_function f2 ∈ functions ->
    code_addr f1 <= a < code_addr f1 + zlen (code f1) ->
    code_addr f2 <= a < code_addr f2 + zlen (code f2) -> f1 = f2;
  fo_ptr : 0 <= ptr_size
}.
Context (FO : functions_ok).

(** ** Labels *)

(** The label of an open block at level [k]. *)
Record label_ok (f : WASMFunction) (c : WASMLoaderContext) (k : nat) (L : WASMBranchBlock)
    (b : Loader.BranchBlock) (bs : list Loader.BranchBlock) (cS : WASMLoaderContext) : Prop := {
  lb_start : start_of f cS;
  lb_csp : exists b0, frame_csp cS = b0 :: bs /\ same_block b0 b;
  lb_level : Datatypes.S (length bs) = k;
  lb_inside : inside_of f k cS c;
  lb_live : live cS;
  lb_cells : blk_label_type b = LABEL_TYPE_LOOP -> stack_cell_num cS
             = (blk_stack_cell_num b + wasm_get_cell_num (block_type_get_param_types (block_type b)))%nat;
  lb_begin : begin_addr L = pos cS;
  lb_sp : frame_sp L = blk_stack_cell_num b;
  lb_num : cell_num L = wasm_get_cell_num (label_types b);
  lb_target : forall oe cE, ends_of f k cS oe cE ->
    match blk_label_type b with
    | LABEL_TYPE_LOOP => target_addr L = Some (pos cS)
    | LABEL_TYPE_BLOCK => target_addr L = None \/ target_addr L = Some (pos cE)
    | _ => target_addr L = Some (pos cE)
    end
}.

Fixpoint labels (f : WASMFunction) (c : WASMLoaderContext) (Ls : list WASMBranchBlock)
    (csp : list Loader.BranchBlock) : Prop :=
  match Ls, csp with
  | [], [] => True
  | L :: Ls, b :: bs => (exists cS, label_ok f c (Datatypes.S (length bs)) L b bs cS) /\ labels f c Ls bs
  | _, _ => False
  end.

Lemma labels_length f c Ls csp : labels f c Ls csp -> length Ls = length csp.
Proof.
  revert csp. induction Ls as [|L Ls IH]; intros [|b bs] H; try done. cbn. f_equal. apply IH, H.
Qed.

(** The labels move along with the run while the blocks are open. *)
Lemma labels_inside f c c' Ls csp :
  labels f c Ls csp -> inside_of f (length csp) c c' -> labels f c' Ls csp.
Proof.
  revert csp. induction Ls as [|L Ls IH]; intros [|b bs] H Hi; try done. destruct H as [[cS HL] H]. split.
  - exists cS. destruct HL. split; try done. by eapply inside_trans.
  - apply IH; [done|]. eapply inside_le; [exact Hi|cbn; lia].
Qed.

(** The flags of the current block do not matter. *)
Lemma labels_same f c Ls b b' bs :
  labels f c Ls (b :: bs) -> same_block b b' -> labels f c Ls (b' :: bs).
Proof.
  destruct Ls as [|L Ls]; [done|]. intros [[cS [H1 (b0 & H2 & H2') H3 H4 H5 H6 H7 H8 H9 H10]] H] Sb. split; [|done].
  exists cS. pose proof Sb as [S1 S2 S3 S4 S5]. split; try done.
  - exists b0. split; [done|]. by eapply same_block_trans.
  - rewrite S1, S4, S2. done.
  - by rewrite S4.
  - unfold label_types in *. by rewrite S1, S2.
  - intros oe cE He. rewrite S1. by eapply H10.
Qed.

Lemma labels_lookup f c Ls csp n b :
  labels f c Ls csp -> csp !! n = Some b ->
  exists L cS, Ls !! n = Some L
    /\ label_ok f c (Datatypes.S (length (drop (Datatypes.S n) csp))) L b (drop (Datatypes.S n) csp) cS
    /\ labels f c (drop n Ls) (drop n csp).
Proof.
  revert csp n. induction Ls as [|L Ls IH]; intros [|b0 bs] n H Hn; try done.
  destruct n as [|n].
  - injection Hn as ->. destruct H as [[cS HL] H]. exists L, cS. split; [done|]. split; [exact HL|].
    split; [eauto|done].
  - destruct H as [_ H]. exact (IH bs n H Hn).
Qed.

(** The outer labels are those of the start of an open block. *)
Lemma labels_back f c cS k Ls csp :
  loaded f -> labels f c Ls csp -> run_of f cS -> inside_of f k cS c -> (length csp < k)%nat ->
  length (frame_csp cS) = k -> labels f cS Ls csp.
Proof.
  intros LD. revert csp. induction Ls as [|L Ls IH]; intros [|b bs] H Hon Hi Hl Hk; try done.
  destruct H as [[cS' HL] H]. split; [|apply IH; [done..|cbn in Hl; lia|done]].
  exists cS'. destruct HL as [H1 (b0 & H2 & H2') H3 H4 H5 H6 H7 H8 H9 H10]. split; eauto.
  eapply (inside_outer _ _ _ (ld_types _ LD) _ _ (ld_accepts _ LD) k); [apply H1|done..| |done].
  by rewrite H2.
Qed.

(** The labels at another place of the block on top. *)
Lemma labels_move f c c2 L Ls b b0 b2 bs cS :
  loaded f -> labels f c Ls bs -> label_ok f c (Datatypes.S (length bs)) L b bs cS ->
  frame_csp cS = b0 :: bs -> same_block b0 b2 -> inside_of f (Datatypes.S (length bs)) cS c2 ->
  labels f c2 (L :: Ls) (b2 :: bs).
Proof.
  intros LD H HL E Sb Hi. pose proof HL as [H1 (b1 & H2 & H2') H3 H4 H5 H6 H7 H8 H9 H10].
  rewrite E in H2. injection H2 as <-. destruct Sb as [S1 S2 S3 S4 S5], H2' as [T1 T2 T3 T4 T5]. split.
  - exists cS. split; try done.
    + exists b0. by repeat split.
    + intros Hl. rewrite H6 by congruence. congruence.
    + congruence.
    + rewrite H9. unfold label_types. by rewrite S1, S2, T1, T2.
    + intros oe cE He. rewrite S1, <- T1. by eapply H10.
  - eapply labels_inside; [eapply (labels_back _ _ cS); [done|exact H|apply H1|exact H4|lia|by rewrite E]|].
    eapply inside_le; [exact Hi|lia].
Qed.

Lemma stk_not_any ts : Forall not_any ts -> Forall (fun t => t <> VALUE_TYPE_ANY) (stk ts).
Proof.
  induction 1 as [|t ts Ht _ IH]; cbn; [done|]. apply Forall_app. split; [done|]. by apply Forall_replicate.
Qed.

(** ** Contexts of a run *)

Section run.
Context (f : WASMFunction) (LD : loaded f).

Lemma run_next c : run_of f c -> frame_csp c <> [] ->
  exists c', rstep_of f c c' /\ run_of f c' /\ round_spec module (ft f) (lt f) c c'.
Proof.
  intros Hon Hne. destruct (on_run_next _ _ _ (ld_types _ LD) _ _ (ld_accepts _ LD) (ld_final _ LD) _ Hon Hne) as [c' St].
  exists c'. split; [done|]. by eapply on_run_rstep, St; [apply LD..|].
Qed.

Lemma run_context_wf c : run_of f c -> wf (ft f) c.
Proof. intros Hon. by eapply on_run_ok, Hon; apply LD. Qed.

Lemma run_below c : run_of f c -> below c (final f).
Proof.
  intros Hon. destruct (on_run_ok _ _ _ (ld_types _ LD) _ _ (ld_accepts _ LD) _ Hon) as [W A].
  by eapply accepts_below; [apply LD|..].
Qed.

Lemma run_whole c : run_of f c -> frame_csp c <> [] -> whole (base c) (frame_ref c).
Proof. intros Hon Hne. apply chain_whole; [done|]. by eapply wf_chain, run_context_wf. Qed.

Lemma run_room c : run_of f c -> (stack_cell_num c <= func_max_stack_cell_num f)%nat.
Proof.
  intros Hon. rewrite (ld_max _ LD). pose proof (wf_bound _ _ (run_context_wf _ Hon)).
  pose proof (bl_max _ _ (run_below _ Hon)). lia.
Qed.

Lemma run_blocks c : run_of f c -> (length (frame_csp c) <= func_max_block_num f)%nat.
Proof.
  intros Hon. rewrite (ld_blocks _ LD). pose proof (wf_csp _ _ (run_context_wf _ Hon)) as H.
  pose proof (bl_max_csp _ _ (run_below _ Hon)). unfold csp_num in H. lia.
Qed.

Lemma run_wrote c c' orig bs : run_of f c' -> wrote orig bs c c' -> ahead_of f c = bs ++ ahead_of f c'.
Proof.
  intros Hon Hw. destruct (on_run_ok _ _ _ (ld_types _ LD) _ _ (ld_accepts _ LD) _ Hon) as [W A].
  by eapply (ahead_wrote _ _ _ (ld_types _ LD)).
Qed.

Lemma run_pos c : run_of f c -> (pos c + length (ahead_of f c) = length (code f))%nat.
Proof. intros Hon. rewrite (ld_code _ LD). eapply ahead_pos, Hon; apply LD. Qed.

Lemma run_code c : run_of f c -> drop (pos c) (code f) = ahead_of f c.
Proof. intros _. by rewrite (ld_code _ LD). Qed.

Lemma run_end_ahead c : run_of f c -> frame_csp c <> [] -> (pos c < length (code f))%nat.
Proof.
  intros Hon Hne. pose proof (run_pos _ Hon).
  pose proof (end_ahead _ _ _ (ld_types _ LD) _ _ (ld_accepts _ LD) (ld_final _ LD) _ Hon Hne) as Hin.
  fold (ahead_of f c) in Hin. destruct (ahead_of f c); [by apply not_elem_of_nil in Hin|cbn in *; lia].
Qed.

Lemma run_ends c k : run_of f c -> (1 <= k <= length (frame_csp c))%nat -> exists oe cE, ends_of f k c oe cE.
Proof. intros Hon Hk. by eapply ends_exists, Hk; [apply LD..|]. Qed.
End run.

(** ** The invariant of the interpreter *)

Record frame_ok (fr : WASMInterpFrame) : Prop := {
  fr_function : wasm_function (function fr) ∈ functions;
  fr_sp : cells_ok (sp fr);
  fr_lp : cells_ok (lp fr);
  fr_locals : length (lp fr) = wasm_get_cell_num (func_locals (ft (function fr)) (lt (function fr)));
  fr_size : frame_size fr = func_frame_size ptr_size (function fr)
}.

(** Before an instruction that the checker saw at [c], up to [n] bytes of
    padding; [m] cells are to be pushed before it goes on. *)
Record before (fr : WASMInterpFrame) (m : nat) (c : WASMLoaderContext) (n : nat) : Prop := {
  be_run : run_of (function fr) c;
  be_live : live c;
  be_blocks : frame_csp c <> [];
  be_code : drop (ip fr) (code (function fr)) = replicate n NOP ++ ahead_of (function fr) c;
  be_pos : (ip fr + n = pos c)%nat;
  be_cells : (length (sp fr) + m = stack_cell_num c)%nat;
  be_labels : labels (function fr) c (csp fr) (frame_csp c)
}.
Definition at_code (fr : WASMInterpFrame) (m : nat) : Prop := exists c n, before fr m c n.

(** At the [end] of a block, which the checker saw at [cE]; the code before it
    may be one that is not reached. *)
Record at_end_of (fr : WASMInterpFrame) (cE cN : WASMLoaderContext) (b : Loader.BranchBlock)
    (bs : list Loader.BranchBlock) : Prop := {
  ae_run : run_of (function fr) cE;
  ae_step : rstep_of (function fr) cE cN;
  ae_ahead : ahead_of (function fr) cE = opb WASM_OP_END :: ahead_of (function fr) cN;
  ae_done : end_done cE cN b bs;
  ae_outer : Forall (fun b => is_stack_polymorphic b = false) bs;
  ae_low : Forall (fun t => t <> VALUE_TYPE_ANY) (low (blk_stack_cell_num b) (frame_ref cE));
  ae_ip : ip fr = pos cE;
  ae_cells : length (sp fr) = (blk_stack_cell_num b
               + wasm_get_cell_num (block_type_get_result_types (block_type b)))%nat;
  ae_labels : labels (function fr) cE (csp fr) (b :: bs)
}.
Definition at_end (fr : WASMInterpFrame) : Prop := exists cE cN b bs, at_end_of fr cE cN b bs.

(** The callers of a function that returns [n] cells, when its frame is gone;
    the last one returns [N] cells. *)
Fixpoint callers_ok (N n : nat) (free : Z) (frames : list WASMInterpFrame) : Prop :=
  match frames with
  | [] => n = N
  | g :: gs => frame_ok g /\ at_code g n /\ frame_size g <= free < 2 ^ 32
               /\ callers_ok N (ret_cell_num (ft (function g))) (free + frame_size g) gs
  end.

Definition right_of (f : WASMFunction) : BlockAddr -> Prop :=
  entry_right module (ft f) (lt f) (source f) (final f) (code_addr f).

Definition cache_ok (cache : addr_cache) : Prop :=
  forall e, in_cache e cache -> exists f, wasm_function f ∈ functions /\ right_of f e.

Record state_base (N : nat) (s : istate S) : Prop := {
  sb_frame : frame_ok (frame s);
  sb_callers : callers_ok N (ret_cell_num (ft (function (frame s))))
                 (wasm_stack_free s + frame_size (frame s)) (prev_frames s);
  sb_free : frame_size (frame s) <= wasm_stack_free s < 2 ^ 32;
  sb_cache : cache_ok (block_addr_cache s);
  sb_env : env_ok module global_offsets inv s
}.

Definition state_ok (N : nat) (s : istate S) : Prop :=
  state_base N s /\ (at_code (frame s) 0 \/ at_end (frame s)).

Abbreviation did := (did module global_offsets inv).

Lemma fr_loaded fr : frame_ok fr -> loaded (function fr).
Proof. intros H. by apply FO, H. Qed.

(** Only the frame changes. *)
Lemma base_frame N s fr :
  state_base N s -> frame_ok fr -> function fr = function (frame s) -> frame_size fr = frame_size (frame s) ->
  state_base N (set_frame fr s).
Proof.
  intros [H1 H2 H3 H4 H5] Hf E1 E2. split; cbn; rewrite ?E1, ?E2; try done. by apply env_ok_frame.
Qed.

Lemma frame_set_csp v fr : frame_ok fr -> frame_ok (set_csp v fr).
Proof. by intros []. Qed.

Lemma frame_set_ip v fr : frame_ok fr -> frame_ok (set_ip v fr).
Proof. by intros []. Qed.

Lemma frame_set_sp v fr : frame_ok fr -> cells_ok v -> frame_ok (set_sp v fr).
Proof. by intros []. Qed.

Lemma base_did N s0 s k p q : state_base N s0 -> did s0 s k p q -> state_base N s.
Proof.
  intros [[G1 G2 G3 G4 G5] H2 H3 H4 H5] [(lp' & sp' & E & D1 & D2 & D3 & D4) _ D6 D7 D8 D9 D10].
  split; rewrite ?D6, ?D8, ?D9, ?E; try done. split; cbn; [done..|by rewrite D3|done].
Qed.

Lemma base_refl N s : state_base N s -> did s s 0 0 0.
Proof. intros [[G1 G2 G3 G4 G5] H2 H3 H4 H5]. by apply did_refl. Qed.

(** The interpreter goes on at [c'] behind an instruction. *)
Lemma did_before N s0 s k p q c' n :
  state_base N s0 -> did s0 s k p q -> run_of (function (frame s0)) c' -> live c' -> frame_csp c' <> [] ->
  drop (ip (frame s0) + k) (code (function (frame s0)))
    = replicate n NOP ++ ahead_of (function (frame s0)) c' ->
  (ip (frame s0) + k + n = pos c')%nat -> (length (sp (frame s0)) - p + q = stack_cell_num c')%nat ->
  labels (function (frame s0)) c' (csp (frame s0)) (frame_csp c') -> state_ok N s.
Proof.
  intros B D Hon Hl Hne Hc Hp Hs HL. split; [by eapply base_did|]. left. exists c', n.
  destruct (di_frame _ _ _ _ _ _ _ _ D) as (lp' & sp' & -> & D1 & D2 & D3 & D4). split; cbn; try done. lia.
Qed.

(** ** Branches *)

Lemma base_cache N s cache : state_base N s -> cache_ok cache -> state_base N (set_cache cache s).
Proof. intros [H1 H2 H3 H4 H5] Hc. split; try done. by destruct H5. Qed.

(** An entry of the cache for a block of the current function. *)
Lemma cache_right N s cS e :
  state_base N s -> start_of (function (frame s)) cS -> in_cache e (block_addr_cache s) ->
  ba_start_addr e = abs (code_addr (function (frame s))) (pos cS) -> right_of (function (frame s)) e.
Proof.
  intros B Hs Hin Ha. pose proof (fr_loaded _ (sb_frame _ _ B)) as LD.
  destruct (sb_cache _ _ B e Hin) as (f2 & Hf2 & Hr). pose proof (fo_loaded FO _ Hf2) as LD2.
  pose proof Hr as (cS2 & oe2 & cE2 & G1 & G2 & G3 & G4 & G5).
  rewrite G3 in Ha. unfold abs in Ha. pose proof (fr_function _ (sb_frame _ _ B)) as Hf.
  assert (forall g c, loaded g -> start_of g c -> (pos c < length (code g))%nat) as Hlt.
  { intros g c LDg [Hon (b2 & bs2 & E2 & _)]. apply run_end_ahead; [done..|]. by rewrite E2. }
  pose proof (Hlt _ _ LD2 G1). pose proof (Hlt _ _ LD Hs).
  rewrite <- (fo_places FO f2 (function (frame s)) (code_addr (function (frame s)) + Z.of_nat (pos cS))); [done..| |]; lia.
Qed.

(** The addresses that are found for a block, from the cache or in the code. *)
Lemma iwp_find_block N s cS oe cE label Q :
  state_base N s -> start_of (function (frame s)) cS ->
  ends_of (function (frame s)) (length (frame_csp cS)) cS oe cE ->
  (forall r cache, cache_ok cache -> (label = LABEL_TYPE_IF -> fst r = else_pos oe) -> snd r = Some (pos cE) ->
     Q r (set_cache cache s)) ->
  iwp (find_block_addr (pos cS) label) Q s.
Proof.
  intros B Hs He HQ. pose proof (fr_loaded _ (sb_frame _ _ B)) as LD.
  set (f := function (frame s)) in *.
  destruct (find_block_addr_ends _ _ _ (ld_types _ LD) _ _ (ld_accepts _ LD) (ld_final _ LD)
    (code_addr f) (block_addr_cache s) cS oe cE label) as (ea & cache' & H1 & H2 & H3); [done..| |].
  { intros e Hin Ha. by eapply cache_right. }
  apply iwp_bind, iwp_get, iwp_bind, iwp_get. fold f. rewrite (ld_code _ LD), H1.
  apply iwp_bind, iwp_set, iwp_ret. assert (forall a, Z.to_nat (abs (code_addr f) a - code_addr f) = a) as Hrel.
  { intros a. unfold abs. lia. }
  apply HQ.
  - intros e Hin. destruct (H3 e Hin) as [H|H]; [by apply (sb_cache _ _ B)|]. exists f. split; [|done].
    apply (sb_frame _ _ B).
  - intros ->. cbn [fst]. rewrite (H2 eq_refl). destruct oe; cbn; [|done]. by rewrite Hrel.
  - cbn. by rewrite Hrel.
Qed.

Lemma at_end_intro c L b bs cS oe cE fr Ls :
  loaded (function fr) ->
  label_ok (function fr) c (Datatypes.S (length bs)) L b bs cS -> labels (function fr) c Ls bs ->
  ends_of (function fr) (Datatypes.S (length bs)) cS oe cE ->
  csp fr = L :: Ls -> ip fr = pos cE ->
  length (sp fr) = (blk_stack_cell_num b + wasm_get_cell_num (block_type_get_result_types (block_type b)))%nat ->
  at_end fr.
Proof.
  intros LD HL HLs He Ecsp Eip Esp. pose proof HL as [H1 (b0 & H2 & H2') H3 H4 H5 H6 H7 H8 H9 H10].
  destruct (ends_ctx _ _ _ (ld_types _ LD) _ _ (ld_accepts _ LD) _ _ _ _ He [] b0 bs) as
    [(Hon & b2 & cN & St & Ha & En & Sb & Hlow) _]; [apply H1|done|done|].
  pose proof H2' as [T1 T2 T3 T4 T5]. pose proof Sb as [S1 S2 S3 S4 S5].
  destruct H5 as [Hl1 Hl2]. exists cE, cN, b2, bs. split; try done.
  - rewrite H2 in Hl1. by inversion Hl1.
  - rewrite S4, Hlow. by apply Forall_drop.
  - by rewrite S4, S2, <- T4, <- T2.
  - rewrite Ecsp. eapply labels_move; [done|exact HLs|exact HL|done|done|].
    eapply proj1, ends_inside; [exact He|by rewrite H2].
Qed.

Lemma iwp_branch N s d c b :
  state_base N s -> run_of (function (frame s)) c ->
  labels (function (frame s)) c (csp (frame s)) (frame_csp c) ->
  frame_csp c !! Z.to_nat d = Some b ->
  (blk_stack_cell_num b + wasm_get_cell_num (label_types b) <= length (sp (frame s)))%nat ->
  iwp (branch d) (fun _ => state_ok N) s.
Proof.
  intros B Hon HLs Hb Hsp. pose proof (fr_loaded _ (sb_frame _ _ B)) as LD.
  destruct (labels_lookup _ _ _ _ _ _ HLs Hb) as (L & cS & HL & Hok & Hd).
  set (n := Z.to_nat d) in *. set (bs := drop (Datatypes.S n) (frame_csp c)) in *.
  assert (drop n (frame_csp c) = b :: bs) as Ebs by (by apply drop_S).
  rewrite (drop_S _ _ _ HL), Ebs in Hd. destruct Hd as [_ HLs'].
  pose proof Hok as [H1 (b0 & H2 & H2') H3 H4 H5 H6 H7 H8 H9 H10].
  unfold branch, POP_CSP_N. fold n. apply iwp_bind, iwp_bind, iwp_get, iwp_bind. eapply iwp_some; [done|].
  apply iwp_bind, iwp_set, iwp_bind, iwp_get, iwp_bind. cbn [sp frame set_frame set_csp].
  apply iwp_require; [apply Nat.leb_le; lia|]. apply iwp_bind, iwp_set, iwp_ret. cbn [frame set_frame].
  set (s' := set_frame _ (set_frame _ s)).
  assert (function (frame s') = function (frame s)) as Ef by done.
  assert (csp (frame s') = L :: drop (Datatypes.S n) (csp (frame s))) as Ec.
  { cbn. by apply drop_S. }
  assert (length (sp (frame s')) = (blk_stack_cell_num b + wasm_get_cell_num (label_types b))%nat) as Es.
  { cbn. rewrite length_app, length_take, length_drop. lia. }
  assert (state_base N s') as B'.
  { apply base_frame; [apply base_frame; [done|by apply frame_set_csp, B|done|done]| |done|done].
    apply frame_set_sp; [by apply frame_set_csp, B|]. pose proof (fr_sp _ (sb_frame _ _ B)).
    apply Forall_app. split; [by apply Forall_take|by apply Forall_drop]. }
  clearbody s'.
  destruct (run_ends _ LD cS (Datatypes.S (length bs))) as (oe & cE & He); [apply H1|rewrite H2; cbn; lia|].
  pose proof (H10 _ _ He) as Ht.
  assert (forall s2, state_base N s2 -> frame s2 = frame s' -> blk_label_type b <> LABEL_TYPE_LOOP ->
    iwp (fset (set_ip (pos cE))) (fun _ => state_ok N) s2) as Hend.
  { intros s2 B2 E2 Hlab. apply iwp_set. split; [apply base_frame; [done|by apply frame_set_ip, B2|done|done]|].
    right. cbn [frame set_frame]. rewrite E2.
    eapply at_end_intro; cbn [function set_ip csp sp ip]; rewrite ?Ef; try done.
    rewrite Es. unfold label_types. revert Hlab. by destruct (blk_label_type b). }
  assert (blk_label_type b <> LABEL_TYPE_LOOP -> target_addr L = None \/ target_addr L = Some (pos cE)) as Ht'.
  { revert Ht. destruct (blk_label_type b); auto. done. }
  destruct (decide (blk_label_type b = LABEL_TYPE_LOOP)) as [Hloop|Hloop].
  - rewrite Hloop in Ht. rewrite Ht. apply iwp_set.
    split; [apply base_frame; [done|by apply frame_set_ip, B'|done|done]|].
    left. exists cS, 0%nat. split; cbn; rewrite ?Ef; try done.
    + apply H1.
    + by rewrite H2.
    + by apply run_code; [|apply H1].
    + rewrite Es, H6 by done. unfold label_types. rewrite Hloop. lia.
    + rewrite Ec, H2. eapply labels_move; [done|exact HLs'|exact Hok|done|done|constructor].
  - destruct (Ht' Hloop) as [-> | ->]; [|by apply Hend].
    rewrite H7. apply iwp_bind. eapply iwp_find_block; [done|by rewrite Ef|rewrite Ef, H2; exact He|].
    intros r cache Hc _ Hr. apply iwp_bind. eapply iwp_some; [done|]. apply Hend; [by apply base_cache|done..].
Qed.

(** ** Returns *)

(** After an instruction: the invariant, or [N] cells for the caller of the
    interpreter. *)
Definition step_post (N : nat) (r : next) (s : istate S) : Prop :=
  match r with
  | running => state_ok N s
  | returned => length (outs s) = N /\ cells_ok (outs s) /\ cache_ok (block_addr_cache s)
                /\ env_ok module global_offsets inv s
  end.

Lemma iwp_return N s :
  state_base N s -> (ret_cell_num (ft (function (frame s))) <= length (sp (frame s)))%nat ->
  iwp return_func (step_post N) s.
Proof.
  intros B Hn. apply iwp_bind, iwp_get, iwp_bind.
  eapply iwp_pop_cells; [by eapply base_refl|cbn; lia|]. intros values s1 Hv Hlen D.
  apply iwp_bind, iwp_set, iwp_bind, iwp_get. cbn [prev_frames set_wasm_stack_free].
  pose proof (di_prev _ _ _ _ _ _ _ _ D) as Ep. pose proof (di_free _ _ _ _ _ _ _ _ D) as Ef.
  pose proof (di_cache _ _ _ _ _ _ _ _ D) as Ec. pose proof (di_env _ _ _ _ _ _ _ _ D) as He.
  pose proof (sb_callers _ _ B) as Hc. rewrite Ep. destruct (prev_frames s) as [|g gs].
  - apply iwp_bind, iwp_set, iwp_ret. cbn in Hc |- *. rewrite Ec. split_and!; [lia|done|apply B|by destruct He].
  - apply iwp_bind, iwp_set, iwp_bind. destruct Hc as (Hg & (c & n & [G1 G2 G3 G4 G5 G6 G7]) & Hfree & Hgs).
    set (s3 := set_frame g _).
    assert (state_base N s3) as B3.
    { split; cbn; rewrite ?Ef, ?Ec; try done; [apply B|by destruct He]. }
    eapply iwp_push_cells; [by eapply base_refl|done| |].
    { unfold room. cbn. pose proof (run_room _ (fr_loaded _ Hg) _ G1). lia. }
    intros s' D'. apply iwp_ret. eapply did_before; [exact B3|exact D'|exact G1|exact G2|exact G3| | | |exact G7]; cbn;
      [by rewrite Nat.add_0_r|lia..].
Qed.

(** ** The [end] of a block *)

Abbreviation step := (step ptr_size (types module) functions global_offsets data_segments table_segs
  aux_stack_boundary aux_stack_bottom).

Lemma step_end N s cE cN b bs :
  state_base N s -> at_end_of (frame s) cE cN b bs -> iwp step (step_post N) s.
Proof.
  intros B [H1 H2 H3 H4 H5 H6 H7 H8 H9]. pose proof (fr_loaded _ (sb_frame _ _ B)) as LD.
  pose proof (run_code _ LD _ H1) as Hcode. rewrite H3, <- H7 in Hcode.
  eapply (iwp_step _ _ _ _ _ _ _ _ _ _ WASM_OP_END []); [by eapply base_refl| |].
  { eexists. rewrite Nat.add_0_r. exact Hcode. }
  intros s1 D _. cbn. destruct (di_frame _ _ _ _ _ _ _ _ D) as (lp' & sp' & E & D1 & D2 & D3 & D4).
  apply iwp_bind, iwp_get. rewrite E. cbn [csp]. rewrite (labels_length _ _ _ _ H9).
  pose proof (base_did _ _ _ _ _ _ B D) as B1.
  destruct (on_run_rstep _ _ _ (ld_types _ LD) _ _ (ld_accepts _ LD) _ _ H1 H2) as [HonN R].
  cbn [length]. destruct (Nat.ltb_spec 1 (Datatypes.S (length bs))) as [Hlt|Hlt].
  - apply iwp_bind, iwp_bind, iwp_get. rewrite E. cbn [csp].
    destruct (csp (frame s)) as [|L Ls] eqn:Ecsp; [done|]. apply iwp_set, iwp_ret. cbn.
    split; [apply base_frame; [done|by apply frame_set_csp, B1|done|done]|]. left. exists cN, 0%nat.
    pose proof (en_csp' _ _ _ _ H4) as En. pose proof (en_csp _ _ _ _ H4) as Eb. rewrite E.
    assert (base cE = blk_stack_cell_num b) as Hbase by (unfold base; by rewrite Eb).
    assert (frame_csp cE <> []) as HneE by (by rewrite Eb).
    pose proof (proj1 (run_whole _ LD _ H1 HneE)) as Hle.
    split; cbn; try done.
    + split; [by rewrite En|]. rewrite (en_ref _ _ _ _ H4), Hbase. apply Forall_app. split; [|done].
      pose proof (wf_types _ _ (run_context_wf _ LD _ H1)) as Ht. rewrite Eb in Ht. inversion Ht as [|?? [_ Hr] _]; subst.
      by apply stk_not_any.
    + rewrite En. intros ->. cbn in Hlt. lia.
    + rewrite <- drop_drop, Hcode. done.
    + pose proof (run_pos _ LD _ H1) as P1. pose proof (run_pos _ LD _ HonN) as P2. rewrite H3 in P1. cbn in P1. lia.
    + unfold stack_cell_num. rewrite (en_ref _ _ _ _ H4), length_app, stk_length, low_length by done. lia.
    + rewrite En. destruct H9 as [_ H9]. eapply labels_inside; [exact H9|]. eapply inside_step; [constructor|done|].
      by rewrite En.
  - apply iwp_return; [done|]. rewrite E. cbn. destruct bs; [|cbn in Hlt; lia].
    destruct (wf_func _ _ (run_context_wf _ LD _ H1) b) as [Hty _]; [by rewrite (en_csp _ _ _ _ H4)|].
    rewrite Hty in H8. cbn in H8. unfold ret_cell_num. lia.
Qed.

(** ** The first frame of a function *)

Lemma start_run f : run_of f (start_ctx (ft f) (source f)).
Proof. constructor. Qed.

Lemma start_end f oe cE : loaded f ->
  ends_of f 1 (start_ctx (ft f) (source f)) oe cE -> pos cE = (length (code f) - 1)%nat.
Proof.
  intros LD He. destruct (ends_ctx _ _ _ (ld_types _ LD) _ _ (ld_accepts _ LD) _ _ _ _ He [] (start_block (ft f)) [])
    as [(Hon & b & cN & St & Ha & En & _) _]; [apply start_run|done..|].
  destruct (on_run_rstep _ _ _ (ld_types _ LD) _ _ (ld_accepts _ LD) _ _ Hon St) as [HonN _].
  destruct (on_run_ok _ _ _ (ld_types _ LD) _ _ (ld_accepts _ LD) _ HonN) as [W A].
  pose proof (accepts_ahead _ _ _ (ld_types _ LD) _ _ W A) as Hl. rewrite (en_rest _ _ _ _ En eq_refl) in Hl. cbn in Hl.
  pose proof (run_pos _ LD _ Hon) as Hp. unfold ahead_of in Hp. rewrite Ha in Hp. cbn in Hp. lia.
Qed.

Lemma start_labels f args size : loaded f ->
  labels f (start_ctx (ft f) (source f)) (csp (new_frame f args size)) [start_block (ft f)].
Proof.
  intros LD. split; [|done]. exists (start_ctx (ft f) (source f)). split; cbn; try done.
  - split; [apply start_run|]. by exists (start_block (ft f)), [].
  - by exists (start_block (ft f)).
  - constructor.
  - split; by repeat constructor.
  - intros oe cE He. f_equal. symmetry. by eapply start_end.
Qed.

Lemma init_local_cells t : length (init_local t) = wasm_value_type_cell_num t /\ cells_ok (init_local t).
Proof.
  unfold init_local, NULL_REF. destruct t; cbn; split; try done; repeat constructor; unfold cell_ok; lia.
Qed.

Lemma new_frame_ok f args :
  wasm_function f ∈ functions -> length args = param_cell_num (ft f) -> cells_ok args ->
  frame_ok (new_frame f args (func_frame_size ptr_size f)) /\ at_code (new_frame f args (func_frame_size ptr_size f)) 0.
Proof.
  intros Hf Hl Ha. pose proof (fo_loaded FO _ Hf) as LD. split.
  - split; cbn; try done.
    + apply Forall_app. split; [done|]. induction (lt f) as [|t ts IH]; cbn; [done|].
      apply Forall_app. split; [apply init_local_cells|done].
    + unfold func_locals. rewrite length_app, get_cell_num_app, Hl. unfold param_cell_num. f_equal.
      induction (lt f) as [|t ts IH]; cbn; [done|]. by rewrite length_app, IH, (proj1 (init_local_cells t)).
  - exists (start_ctx (ft f) (source f)), 0%nat. split; try done.
    + apply start_run.
    + split; by repeat constructor.
    + cbn. by rewrite (ld_code _ LD).
    + by apply start_labels.
Qed.

Lemma new_frame_blocks f : wasm_function f ∈ functions -> (0 < func_max_block_num f)%nat.
Proof. intros Hf. exact (run_blocks _ (fo_loaded FO _ Hf) _ (start_run f)). Qed.

Lemma frame_size_bounds n :
  0 <= ptr_size -> 0 <= n -> offsetof_lp ptr_size + 4 * n + 4 <= 2 ^ 31 ->
  offsetof_lp ptr_size + 4 * n <= wasm_interp_interp_frame_size ptr_size n < 2 ^ 31.
Proof.
  intros Hp Hn Hs. unfold wasm_interp_interp_frame_size, align_uint, wrap32.
  unfold offsetof_lp in *. rewrite Z.mod_small by lia. change (4 - 1) with (Z.ones 2).
  rewrite Z.ldiff_ones_r, Z.shiftl_mul_pow2, Z.shiftr_div_pow2 by lia.
  change (2 ^ 2) with 4. change (Z.ones 2) with 3.
  pose proof (Z.div_mod (9 * ptr_size + n * 4 + 3) 4). pose proof (Z.mod_pos_bound (9 * ptr_size + n * 4 + 3) 4). lia.
Qed.

Lemma func_cells_nonneg f : 0 <= func_cells f /\ Z.of_nat (func_max_stack_cell_num f) <= func_cells f.
Proof.
  unfold func_cells, sizeof_WASMBranchBlock. pose proof (fo_ptr FO).
  assert (0 <= Z.of_nat (func_max_block_num f) * (4 * ptr_size) / 4) by (apply Z.div_pos; nia). lia.
Qed.

Lemma func_size_bounds f : loaded f ->
  offsetof_lp ptr_size + 4 * Z.of_nat (func_max_stack_cell_num f) <= func_frame_size ptr_size f < 2 ^ 31.
Proof.
  intros LD. destruct (func_cells_nonneg f) as [H1 H2]. pose proof (frame_size_bounds _ (fo_ptr FO) H1 (ld_size _ LD)) as H.
  unfold func_frame_size. fold (func_cells f). lia.
Qed.

(** ** Instructions *)

Section instructions.
Context (N : nat) (s : istate S) (B : state_base N s) (c c' : WASMLoaderContext).
Context (Hb : before (frame s) 0 c 0) (St : rstep_of (function (frame s)) c c').
Abbreviation f := (function (frame s)).
Abbreviation D0 := (base_refl N s B).

Lemma cur_loaded : loaded f.
Proof. apply fr_loaded, B. Qed.

Lemma run_next_ctx : run_of f c'.
Proof. by eapply on_run_rstep, St; [apply cur_loaded..|apply Hb]. Qed.

Lemma cur_code : drop (ip (frame s)) (code f) = ahead_of f c.
Proof. apply (be_code _ _ _ _ Hb). Qed.

Lemma code_wrote orig bs x : wrote orig (bs ++ x) c c' -> code_at s 0 bs.
Proof.
  intros Hw. exists (x ++ ahead_of f c').
  rewrite Nat.add_0_r, cur_code, (run_wrote _ cur_loaded _ _ _ _ run_next_ctx Hw). by rewrite app_assoc.
Qed.

Lemma cur_whole : whole (base c) (frame_ref c).
Proof. eapply run_whole; [apply cur_loaded|apply Hb..]. Qed.

Lemma cur_cells : length (sp (frame s)) = stack_cell_num c.
Proof. pose proof (be_cells _ _ _ _ Hb). lia. Qed.

Lemma cur_locals : locals_ok (ft f) (lt f) s.
Proof. split; [done|done|apply cur_loaded|apply B]. Qed.

(** Behind an instruction without jump. *)
Lemma wrote_next orig bs n s' p q :
  wrote orig (bs ++ replicate n NOP) c c' -> frame_csp c' = frame_csp c -> live c' -> did s s' (length bs) p q ->
  (length (sp (frame s)) - p + q = stack_cell_num c')%nat -> state_ok N s'.
Proof.
  intros Hw Ecsp Hl D Hs. pose proof (run_wrote _ cur_loaded _ _ _ _ run_next_ctx Hw) as Ha.
  eapply (did_before _ _ _ _ _ _ c' n); [exact B|exact D|apply run_next_ctx|done| | | |done|].
  - rewrite Ecsp. apply Hb.
  - rewrite <- drop_drop, cur_code, Ha, <- app_assoc. by rewrite drop_app_length.
  - pose proof (be_pos _ _ _ _ Hb). destruct Hw as (_ & Hd & _). unfold pos in *.
    rewrite Hd, !length_app, length_replicate. lia.
  - rewrite Ecsp. eapply labels_inside; [apply Hb|]. eapply inside_step; [constructor|done|by rewrite Ecsp].
Qed.

Lemma emit_enough orig bs ps qs : emit orig bs ps qs c c' -> enough s ps qs.
Proof.
  intros K. destruct (so_live _ _ _ _ (em_stk _ _ _ _ _ _ K) cur_whole (be_live _ _ _ _ Hb)) as (Hl & rest & E1 & E2 & _).
  pose proof (run_room _ cur_loaded _ run_next_ctx) as Hr. pose proof cur_cells as Hc. unfold stack_cell_num in *.
  rewrite E1 in Hc. rewrite E2 in Hr. rewrite !length_app, !stk_length in *. split; unfold room; lia.
Qed.

Lemma emit_next orig bs n ps qs s' :
  emit orig (bs ++ replicate n NOP) ps qs c c' ->
  did s s' (length bs) (wasm_get_cell_num ps) (wasm_get_cell_num qs) -> state_ok N s'.
Proof.
  intros K D. destruct (so_live _ _ _ _ (em_stk _ _ _ _ _ _ K) cur_whole (be_live _ _ _ _ Hb)) as (Hl & rest & E1 & E2 & _).
  eapply wrote_next; [by eapply emit_wrote|apply K|done|exact D|].
  pose proof cur_cells as Hc. unfold stack_cell_num in *. rewrite E1 in Hc. rewrite E2.
  rewrite !length_app, !stk_length in *. lia.
Qed.

Lemma step_straight orig bs n ps qs :
  straight module (ft f) (lt f) bs ps qs -> emit orig (bs ++ replicate n NOP) ps qs c c' -> iwp step (step_post N) s.
Proof.
  intros Hst K. eapply iwp_mono.
  - eapply exec_straight; [apply cur_loaded|exact EL|exact SO|apply cur_loaded|exact Hst| |apply cur_locals|apply D0| |].
    + apply (short_bytes_index _ (replicate n NOP)).
      pose proof (fo_short FO f c c' (fr_function _ (sb_frame _ _ B)) (be_run _ _ _ _ Hb) St) as Hs.
      by rewrite (em_done _ _ _ _ _ _ K), drop_app_length in Hs.
    + by eapply code_wrote, emit_wrote.
    + by eapply emit_enough.
  - intros r s' [-> D]. cbn. by eapply emit_next.
Qed.

(** ** Jumps *)

Lemma on_top_cells ts b i :
  on_top ts c -> frame_csp c !! i = Some b ->
  (blk_stack_cell_num b + wasm_get_cell_num ts <= length (sp (frame s)))%nat.
Proof.
  intros (rest & E & Hr) Hi. rewrite cur_cells. unfold stack_cell_num. rewrite E, length_app, stk_length.
  assert (blk_stack_cell_num b <= base c)%nat; [|lia].
  pose proof (wf_chain _ _ (run_context_wf _ cur_loaded _ (be_run _ _ _ _ Hb))) as Hch.
  pose proof (proj1 cur_whole) as Hw. unfold base in *.
  destruct (frame_csp c) as [|b0 bs]; [done|]. destruct i as [|i]; [by injection Hi as ->|]. cbn in Hi, Hch.
  rewrite <- (take_drop_middle _ _ _ Hi) in Hch. apply proj2, chain_below in Hch. by rewrite low_length in Hch.
Qed.

Lemma branch_did s1 k ps d :
  did s s1 k (wasm_get_cell_num ps) 0 -> can_branch c ps d -> iwp (branch d) (fun _ => state_ok N) s1.
Proof.
  intros D (b & Hd & Ht). specialize (Ht (be_live _ _ _ _ Hb)). pose proof (on_top_cells _ _ _ Ht Hd) as Hc.
  rewrite get_cell_num_app in Hc.
  destruct (di_frame _ _ _ _ _ _ _ _ D) as (lp' & sp' & E & D1 & D2 & D3 & D4).
  eapply iwp_branch; [by eapply base_did|rewrite E; apply Hb| |exact Hd|rewrite E; cbn; lia].
  rewrite E. apply Hb.
Qed.

Lemma can_branch_pop ps d : can_branch c ps d -> (wasm_get_cell_num ps <= length (sp (frame s)))%nat.
Proof.
  intros (b & Hd & Ht). specialize (Ht (be_live _ _ _ _ Hb)). pose proof (on_top_cells _ _ _ Ht Hd) as Hc.
  rewrite get_cell_num_app in Hc. lia.
Qed.

Lemma iwp_go_post (m : IM S ()) s1 : iwp m (fun _ => state_ok N) s1 -> iwp (go_on m) (step_post N) s1.
Proof. intros H. apply iwp_bind. eapply iwp_mono; [exact H|]. intros [] s' D. by apply iwp_ret. Qed.

Lemma step_br_if n d :
  leb_u n d -> can_branch c [VALUE_TYPE_I32] d ->
  emit (opb WASM_OP_BR_IF :: n) (opb WASM_OP_BR_IF :: n) [VALUE_TYPE_I32] [] c c' -> iwp step (step_post N) s.
Proof.
  intros Hn Hd K. pose proof (emit_wrote _ _ _ _ _ _ K) as Hw. pose proof (can_branch_pop _ _ Hd) as Hp.
  rewrite <- (app_nil_r (opb WASM_OP_BR_IF :: n)) in Hw at 2.
  eapply iwp_step; [apply D0|by eapply code_wrote|]. intros s1 D1 Hc. cbn. unfold fetch_uint32.
  apply iwp_bind. eapply iwp_fetch_leb with (2 := Hn); [done|done|]. intros s2 D2.
  apply iwp_bind. eapply iwp_pop_cell; [exact D2|cbn; exact Hp|]. intros v s3 _ D3.
  destruct (_ =? _); cbn [negb].
  - apply (iwp_ret running). cbn. eapply (emit_next _ (opb WASM_OP_BR_IF :: n) 0 [VALUE_TYPE_I32] []); [|exact D3].
    cbn. by rewrite app_nil_r.
  - apply iwp_go_post. by eapply (branch_did _ _ [VALUE_TYPE_I32]).
Qed.

Lemma code_lookup k (bs : bytes) (s1 : istate S) lp' sp' i b :
  code_at s k bs -> frame s1 = Frame f (ip (frame s) + k) lp' sp' (csp (frame s)) (frame_size (frame s)) ->
  bs !! i = Some b -> code (function (frame s1)) !! (ip (frame s1) + i)%nat = Some b.
Proof.
  intros [x Hx] E Hi. rewrite E. cbn [code function ip]. rewrite <- lookup_drop, Hx.
  by apply lookup_app_l_Some.
Qed.

Lemma clamp_lookup (ds : list Z) count v :
  zlen ds = count + 1 -> 0 <= count -> cell_ok v -> exists d, ds !! Z.to_nat (if count <? v then count else v) = Some d /\ d ∈ ds.
Proof.
  intros Hl H0 [Hv _]. destruct (lookup_lt_is_Some_2 ds (Z.to_nat (if count <? v then count else v))) as [d Hd].
  { destruct (Z.ltb_spec count v); lia. }
  exists d. split; [done|]. by eapply list_elem_of_lookup_2.
Qed.

Lemma step_br_table n count ds :
  leb_u n count -> zlen ds = count + 1 -> Forall (fun d => 0 <= d < 256) ds ->
  Forall (can_branch c [VALUE_TYPE_I32]) ds ->
  code_at s 0 (opb WASM_OP_BR_TABLE :: n ++ (byte_of_Z <$> ds)) -> iwp step (step_post N) s.
Proof.
  intros Hn Hl H256 Hds Hc. eapply iwp_step; [apply D0|exact Hc|]. intros s1 D1 [Hc1 Hc2]%code_at_app. cbn.
  apply iwp_go_post. unfold handle_op_br_table, fetch_uint32.
  apply iwp_bind. eapply iwp_fetch_leb with (2 := Hn); [done|done|]. intros s2 D2.
  assert (1 <= length (sp (frame s)))%nat as Hp.
  { destruct ds as [|d ds]; [cbn in Hl; pose proof (leb_u_nonneg _ _ Hn); lia|].
    inversion Hds as [|?? Hd _]; subst. exact (can_branch_pop _ _ Hd). }
  apply iwp_bind. eapply iwp_pop_cell; [exact D2|exact Hp|]. intros v s3 Hv D3.
  apply iwp_bind, iwp_get, iwp_bind.
  destruct (clamp_lookup _ _ _ Hl (proj1 (leb_u_nonneg _ _ Hn)) Hv) as (d & Hd & Hin).
  destruct (di_frame _ _ _ _ _ _ _ _ D3) as (lp' & sp' & E & _).
  eapply (iwp_some _ (byte_of_Z d)).
  { eapply code_lookup; [exact Hc2|exact E|]. by rewrite list_lookup_fmap, Hd. }
  rewrite Forall_forall in H256, Hds. rewrite Z_of_byte_of_Z, Z.mod_small by (by apply H256).
  eapply (branch_did _ _ [VALUE_TYPE_I32]); [exact D3|by apply Hds].
Qed.

Lemma step_br_table_cache n count ds tables :
  leb_u n count -> zlen ds = count + 1 -> Forall (can_branch c [VALUE_TYPE_I32]) ds ->
  code_at s 0 (opb EXT_OP_BR_TABLE_CACHE :: n) -> (pos c < pos c')%nat ->
  br_table_cache_list c' = [(pos c, ds)] ++ tables -> iwp step (step_post N) s.
Proof.
  intros Hn Hl Hds Hc Hpos Hca. eapply iwp_step; [apply D0|exact Hc|]. intros s1 D1 Hc1. cbn.
  apply iwp_go_post. unfold handle_op_br_table_cache.
  assert (1 <= length (sp (frame s)))%nat as Hp.
  { destruct ds as [|d ds]; [cbn in Hl; pose proof (leb_u_nonneg _ _ Hn); lia|].
    inversion Hds as [|?? Hd _]; subst. exact (can_branch_pop _ _ Hd). }
  apply iwp_bind. eapply iwp_pop_cell; [exact D1|exact Hp|]. intros v s3 Hv D3.
  apply iwp_bind, iwp_get, iwp_bind. destruct (di_frame _ _ _ _ _ _ _ _ D3) as (lp' & sp' & E & _).
  destruct (bl_cache _ _ (run_below _ cur_loaded _ run_next_ctx)) as (t & Ht & Hft).
  eapply (iwp_some _ (length t, (pos c, ds))).
  { rewrite E. cbn [function ip]. rewrite (ld_cache _ cur_loaded), Ht, Hca.
    pose proof (be_pos _ _ _ _ Hb). replace (ip (frame s) + 1 - 1)%nat with (pos c) by lia.
    rewrite list_find_app_r; [|].
    - cbn. by rewrite decide_True by done.
    - apply list_find_None. eapply Forall_impl; [exact Hft|]. unfold pos in *. cbn. intros e He Heq. lia. }
  destruct (clamp_lookup _ _ _ Hl (proj1 (leb_u_nonneg _ _ Hn)) Hv) as (d & Hd & Hin). cbn [snd].
  replace (zlen ds - 1) with count by lia. apply iwp_bind. eapply iwp_some; [exact Hd|].
  rewrite Forall_forall in Hds. eapply (branch_did _ _ [VALUE_TYPE_I32]); [exact D3|by apply Hds].
Qed.

Lemma step_jump : emits_jump (ft f) c c' -> iwp step (step_post N) s.
Proof.
  intros (orig & bs & n & tb & b & bls & J & Hw & HJ & Hca). pose proof (code_wrote _ _ _ Hw) as Hc.
  destruct J as [|Ht|m d Hm Hd|m count ds Hm Hl H256 Hds|m count ds Hm Hl Hds].
  - eapply iwp_step; [apply D0|exact Hc|]. intros s1 D1 _. done.
  - eapply iwp_step; [apply D0|exact Hc|]. intros s1 D1 _. cbn.
    destruct (di_frame _ _ _ _ _ _ _ _ D1) as (lp' & sp' & E & D2 & _).
    apply iwp_return; [by eapply base_did|]. rewrite E. cbn.
    destruct (Ht (be_live _ _ _ _ Hb)) as (rest & Er & _).
    pose proof cur_cells as Hcc. unfold stack_cell_num in Hcc. rewrite Er, length_app, stk_length in Hcc.
    unfold ret_cell_num. lia.
  - eapply iwp_step; [apply D0|exact Hc|]. intros s1 D1 Hc1. cbn. unfold fetch_uint32.
    apply iwp_bind. eapply iwp_fetch_leb with (2 := Hm); [done|done|]. intros s2 D2.
    apply iwp_go_post. by eapply (branch_did _ _ []).
  - by eapply step_br_table.
  - eapply step_br_table_cache; [exact Hm|exact Hl|exact Hds|exact Hc| |exact Hca].
    destruct Hw as (_ & Hd & _). unfold pos. rewrite Hd, !length_app. cbn. lia.
Qed.

(** ** Blocks *)

Definition block_handler (o : WASMOpcode) (type : BlockType) : IM S () :=
  let params := wasm_get_cell_num (block_type_get_param_types type) in
  let results := wasm_get_cell_num (block_type_get_result_types type) in
  match o with
  | WASM_OP_BLOCK => handle_op_block params results
  | WASM_OP_LOOP => handle_op_loop params params
  | _ => handle_op_if params results
  end.

Lemma value_block_cells b t : is_byte_a_type b = Some t ->
  byte_type_cell_num b = wasm_get_cell_num (block_type_get_result_types (value_block t)).
Proof. intros H. unfold byte_type_cell_num. rewrite H. by destruct t. Qed.

Lemma step_block_code o bs type Q :
  o = WASM_OP_BLOCK \/ o = WASM_OP_LOOP \/ o = WASM_OP_IF -> block_code module o bs type -> code_at s 0 bs ->
  (forall s1, did s s1 (length bs) 0 0 -> iwp (go_on (block_handler o type)) Q s1) -> iwp step Q s.
Proof.
  intros Ho Hbc Hc HQ. destruct Hbc as [b t Hbt|n i t Hn Hi].
  - pose proof (value_block_cells _ _ Hbt) as Hcell. eapply iwp_step; [apply D0|exact Hc|]. intros s1 D1 Hc1.
    destruct Ho as [-> |[-> | ->]]; cbn; apply iwp_bind; eapply iwp_fetch; try done; intros s2 D2;
      rewrite ?Hcell; by apply HQ.
  - eapply iwp_step; [apply D0|exact Hc|]. intros s1 D1 Hc1.
    destruct Ho as [-> |[-> | ->]]; cbn; unfold ext_block, fetch_uint32, block_types; apply iwp_bind;
      (eapply iwp_fetch_leb with (2 := Hn); [done|done|]); intros s2 D2; apply iwp_bind;
      (eapply iwp_some; [done|]); by apply HQ.
Qed.

Section block.
Context (o : WASMOpcode) (orig bs : bytes) (type : BlockType) (c2 : WASMLoaderContext).
Context (Ho : o = WASM_OP_BLOCK \/ o = WASM_OP_LOOP \/ o = WASM_OP_IF) (Hbc : block_code module o bs type).
Context (Hw : wrote orig bs c c') (Hop : opened c c' o (if_operand o) type c2).
Abbreviation params := (wasm_get_cell_num (block_type_get_param_types type)).
Abbreviation results := (wasm_get_cell_num (block_type_get_result_types type)).
Abbreviation new_block := (Block (block_label o) type (pos c') None (stack_cell_num c2) false).
Abbreviation level := (Datatypes.S (length (frame_csp c))).

Lemma block_stack : live c' /\ stack_cell_num c' = (stack_cell_num c2 + params)%nat
  /\ stack_cell_num c = (stack_cell_num c' + wasm_get_cell_num (if_operand o))%nat.
Proof.
  destruct Hop as [O1 O2 O3 O4 O5 O6 O7 O8].
  destruct (so_live _ _ _ _ O1 cur_whole (be_live _ _ _ _ Hb)) as ([L1 L2] & rest & E1 & E2 & _). cbn in E2.
  destruct (be_live _ _ _ _ Hb) as [L3 _]. split.
  - split; [rewrite O2; by constructor|]. rewrite O3. apply Forall_app. split; [|done].
    by eapply stk_not_any, block_code_not_any, Hbc; apply cur_loaded.
  - unfold stack_cell_num. rewrite O3, E1, E2, !length_app, !stk_length, get_cell_num_app. lia.
Qed.

Lemma block_is_start : start_of f c'.
Proof. by eapply block_opened_start; [apply run_next_ctx|]. Qed.

Lemma block_inside : inside_of f (length (frame_csp c)) c c'.
Proof. eapply inside_step; [constructor|done|]. rewrite (op_csp _ _ _ _ _ _ Hop). cbn. lia. Qed.

(** At the first instruction of the block, with [x] more operands. *)
Record entering (s1 : istate S) (x : nat) : Prop := {
  et_base : state_base N s1;
  et_function : function (frame s1) = f;
  et_ip : ip (frame s1) = pos c';
  et_csp : csp (frame s1) = csp (frame s);
  et_sp : length (sp (frame s1)) = (stack_cell_num c' + x)%nat
}.

Lemma entering_intro s1 : did s s1 (length bs) 0 0 -> entering s1 (wasm_get_cell_num (if_operand o)).
Proof.
  intros D. destruct (di_frame _ _ _ _ _ _ _ _ D) as (lp' & sp' & E & D1 & _). split; rewrite ?E; try done.
  - by eapply base_did.
  - cbn. pose proof (be_pos _ _ _ _ Hb). destruct Hw as (_ & Hd & _). unfold pos in *. rewrite Hd, length_app. lia.
  - cbn. rewrite D1, cur_cells. destruct block_stack as (_ & _ & ->). lia.
Qed.

Definition label_types_of : list value_type := label_types new_block.

(** The label of the block. *)
Lemma iwp_PUSH_CSP s1 target Q :
  entering s1 0 ->
  (forall oe cE, ends_of f level c' oe cE ->
    match block_label o with
    | LABEL_TYPE_LOOP => target = Some (pos c')
    | LABEL_TYPE_BLOCK => target = None \/ target = Some (pos cE)
    | _ => target = Some (pos cE)
    end) ->
  (forall L, label_ok f c' level L new_block (frame_csp c) c' ->
     labels f c' (csp (frame s)) (frame_csp c) -> Q tt (set_frame (set_csp (L :: csp (frame s)) (frame s1)) s1)) ->
  iwp (PUSH_CSP params (wasm_get_cell_num label_types_of) target) Q s1.
Proof.
  intros [E1 E2 E3 E4 E5] Ht HQ. destruct block_stack as (Hl & Hs1 & Hs2).
  pose proof (run_blocks _ cur_loaded _ run_next_ctx) as Hblocks. rewrite (op_csp _ _ _ _ _ _ Hop) in Hblocks.
  apply iwp_bind, iwp_get, iwp_bind, iwp_require.
  { apply Nat.ltb_lt. rewrite E2, E4, (labels_length _ _ _ _ (be_labels _ _ _ _ Hb)). cbn in Hblocks. lia. }
  apply iwp_bind, iwp_require; [apply Nat.leb_le; lia|]. apply iwp_set. rewrite E4. apply HQ.
  - split; cbn; try done.
    + apply block_is_start.
    + exists new_block. split; [apply Hop|done].
    + constructor.
    + rewrite E5. lia.
  - eapply labels_inside; [apply Hb|apply block_inside].
Qed.

(** The block is entered. *)
Lemma enter_block L s1 :
  entering s1 0 -> label_ok f c' level L new_block (frame_csp c) c' ->
  labels f c' (csp (frame s)) (frame_csp c) -> state_ok N (set_frame (set_csp (L :: csp (frame s)) (frame s1)) s1).
Proof.
  intros [E1 E2 E3 E4 E5] HL HLs. destruct block_stack as (Hl & Hs1 & Hs2).
  split; [apply base_frame; [done|by apply frame_set_csp, E1|done|done]|]. left. exists c', 0%nat.
  split; cbn; rewrite ?E2, ?E3; try done.
  - apply run_next_ctx.
  - by rewrite (op_csp _ _ _ _ _ _ Hop).
  - apply run_code; [apply cur_loaded|apply run_next_ctx].
  - lia.
  - rewrite (op_csp _ _ _ _ _ _ Hop). split; [by exists c'|done].
Qed.
Lemma iwp_block s1 : o = WASM_OP_BLOCK -> entering s1 0 -> iwp (block_handler o type) (fun _ => state_ok N) s1.
Proof.
  intros Eo E. pose proof E as [E1 E2 E3 E4 E5]. pose proof iwp_PUSH_CSP as Hpush. pose proof enter_block as Henter.
  unfold label_types_of, label_types in Hpush. rewrite Eo in Hpush, Henter |- *. cbn in Hpush.
  apply iwp_bind, iwp_get, iwp_bind, iwp_get. apply Hpush; [done| |auto].
  intros oe cE He. destruct (cache_find _ _) as [e|] eqn:Hf; cbn; [|by left].
  apply cache_find_in in Hf as [Hin Ha].
  assert (start_of (function (frame s1)) c') as Hs by (rewrite E2; apply block_is_start).
  destruct (cache_right _ _ _ _ E1 Hs Hin) as (cS & oe' & cE' & H1 & H2 & H3 & H4 & H5).
  { by rewrite Ha, E3. }
  rewrite E2 in *. assert (cS = c') as ->.
  { eapply block_start_inj; [apply cur_loaded|apply cur_loaded|apply cur_loaded|done|done|].
    rewrite Ha, E3 in H3. unfold abs in H3. lia. }
  rewrite (op_csp _ _ _ _ _ _ Hop) in H2. destruct (ends_fun _ _ _ _ _ _ _ _ _ _ H2 He) as [_ ->].
  right. rewrite H5. cbn. f_equal. unfold abs. lia.
Qed.

Lemma iwp_loop s1 : o = WASM_OP_LOOP -> entering s1 0 -> iwp (block_handler o type) (fun _ => state_ok N) s1.
Proof.
  intros Eo E. pose proof E as [E1 E2 E3 E4 E5]. pose proof iwp_PUSH_CSP as Hpush. pose proof enter_block as Henter.
  unfold label_types_of, label_types in Hpush. rewrite Eo in Hpush, Henter |- *. cbn in Hpush.
  apply iwp_bind, iwp_get. rewrite E3. apply Hpush; [done|done|auto].
Qed.

(** Behind the [else] of an [if]. *)
Lemma enter_else s1 L oe cE cL :
  entering s1 0 -> label_ok f c' level L new_block (frame_csp c) c' -> labels f c' (csp (frame s)) (frame_csp c) ->
  ends_of f level c' oe cE -> oe = Some cL ->
  state_ok N (set_frame (set_ip (pos cL - 1 + 1) (set_csp (L :: csp (frame s)) (frame s1))) s1).
Proof.
  intros [E1 E2 E3 E4 E5] HL HLs He ->. destruct block_stack as (Hl & Hs1 & Hs2).
  pose proof (op_csp _ _ _ _ _ _ Hop) as Ec.
  destruct (ends_ctx _ _ _ (ld_types _ cur_loaded) _ _ (ld_accepts _ cur_loaded) _ _ _ _ He [] new_block (frame_csp c))
    as [_ Helse]; [apply run_next_ctx|exact Ec|done|].
  destruct (Helse cL eq_refl) as (Hon & b' & p & G1 & G2 & G3 & G4 & G5 & G6 & G7). cbn in G5.
  split; [apply base_frame; [done|by apply frame_set_ip, frame_set_csp, E1|done|done]|].
  left. exists cL, 0%nat. fold (pos cL) in G6. replace (pos cL - 1 + 1)%nat with (pos cL) by lia.
  split; cbn; rewrite ?E2; try done.
  - split; [rewrite G1; constructor; [done|apply Hb]|]. rewrite G5. apply Forall_app. split.
    + by eapply stk_not_any, block_code_not_any, Hbc; apply cur_loaded.
    + apply Forall_drop, Hl.
  - by rewrite G1.
  - apply run_code; [apply cur_loaded|done].
  - rewrite E5, Hs1. change (stack_cell_num cL) with (length (frame_ref cL)). rewrite G5, length_app, stk_length, low_length; [lia|].
    change (stack_cell_num c2 <= stack_cell_num c')%nat. lia.
  - rewrite G1. eapply labels_move; [apply cur_loaded|exact HLs|exact HL|exact Ec|exact G2|].
    destruct (ends_inside _ _ _ _ _ _ _ _ He) as [_ Hi]; [by rewrite Ec|]. by apply Hi.
Qed.

(** Behind an [if] that is not taken and has no [else]. *)
Lemma skip_if s1 cE :
  o = WASM_OP_IF -> entering s1 0 -> ends_of f level c' None cE ->
  state_ok N (set_frame (set_ip (pos cE + 1) (frame s1)) s1).
Proof.
  intros Eo [E1 E2 E3 E4 E5] He. destruct block_stack as (Hl & Hs1 & Hs2). pose proof cur_loaded as LD.
  pose proof (op_csp _ _ _ _ _ _ Hop) as Ec.
  destruct (ends_no_else_params _ _ _ (ld_types _ LD) _ _ (ld_accepts _ LD) (ld_final _ LD) _ _ _ _ He eq_refl
    [] new_block (frame_csp c)) as [Hr (b' & Hb' & Hp)]; [apply run_next_ctx|exact Ec|done|by rewrite Eo|]. cbn in Hr.
  destruct (ends_ctx _ _ _ (ld_types _ LD) _ _ (ld_accepts _ LD) _ _ _ _ He [] new_block (frame_csp c))
    as [(Hon & b2 & cN & StN & Ha & En & Sb & Hlow) _]; [apply run_next_ctx|exact Ec|done|].
  pose proof (en_csp _ _ _ _ En) as Eb2. rewrite Hb' in Eb2. injection Eb2 as <-.
  destruct Sb as [S1 S2 S3 S4 S5]. cbn in S2, S4.
  assert (base cE = stack_cell_num c2) as Hbase by (unfold base; by rewrite Hb').
  assert (length (low (stack_cell_num c2) (frame_ref c')) = stack_cell_num c2) as Hll.
  { apply low_length. change (stack_cell_num c2 <= stack_cell_num c')%nat. lia. }
  assert (Forall (fun t => t <> VALUE_TYPE_ANY) (low (stack_cell_num c2) (frame_ref c'))) as Hlany.
  { apply Forall_drop, Hl. }
  assert (live cE) as HlE.
  { split; [rewrite Hb'; constructor; [done|apply Hb]|]. rewrite Hr. apply Forall_app. split; [|done].
    by eapply stk_not_any, block_code_not_any, Hbc; apply LD. }
  pose proof (en_live _ _ _ _ En HlE) as Hres. rewrite S2, Hbase in Hres. cbn in Hlow. rewrite Hlow, Hr in Hres.
  assert (params = results) as Hpr.
  { apply (f_equal length) in Hres. rewrite !length_app, !stk_length in Hres. lia. }
  assert (frame_ref cN = stk (block_type_get_result_types type) ++ low (stack_cell_num c2) (frame_ref c')) as HN.
  { rewrite (en_ref _ _ _ _ En), S2, Hbase, Hlow. done. }
  pose proof (en_csp' _ _ _ _ En) as EcN.
  destruct (on_run_rstep _ _ _ (ld_types _ LD) _ _ (ld_accepts _ LD) _ _ Hon StN) as [HonN _].
  assert (pos cE + 1 = pos cN)%nat as HpN.
  { pose proof (run_pos _ LD _ Hon) as P1. pose proof (run_pos _ LD _ HonN) as P2. unfold ahead_of in P1.
    rewrite Ha in P1. unfold ahead_of in P2. cbn in P1. lia. }
  split; [apply base_frame; [done|by apply frame_set_ip, E1|done|done]|]. left. exists cN, 0%nat.
  split; cbn; rewrite ?E2, ?HpN; try done.
  - split; [rewrite EcN; apply Hb|]. rewrite HN. apply Forall_app. split; [|done].
    by eapply stk_not_any, block_code_not_any, Hbc; apply LD.
  - rewrite EcN. apply Hb.
  - by apply run_code.
  - rewrite E5, Hs1. change (stack_cell_num cN) with (length (frame_ref cN)). rewrite HN, length_app, stk_length. lia.
  - rewrite E4, EcN. eapply labels_inside; [apply Hb|]. eapply inside_trans; [apply block_inside|].
    eapply inside_step; [|exact StN|by rewrite EcN]. eapply inside_le; [|exact (Nat.le_succ_diag_r _)].
    eapply proj1, ends_inside; [exact He|by rewrite Ec].
Qed.

Lemma entering_cache s1 x cache : entering s1 x -> cache_ok cache -> entering (set_cache cache s1) x.
Proof. intros [E1 E2 E3 E4 E5] Hc. split; try done. by apply base_cache. Qed.

Lemma entering_pop s1 s2 x : entering s1 x -> did s1 s2 0 x 0 -> entering s2 0.
Proof.
  intros [E1 E2 E3 E4 E5] D. destruct (di_frame _ _ _ _ _ _ _ _ D) as (lp' & sp' & E & D1 & _).
  split; rewrite ?E; try done; [by eapply base_did|cbn; lia..].
Qed.

Lemma iwp_if s1 : o = WASM_OP_IF -> entering s1 1 -> iwp (block_handler o type) (fun _ => state_ok N) s1.
Proof.
  intros Eo E. pose proof E as [E1 E2 E3 E4 E5]. pose proof iwp_PUSH_CSP as Hpush. pose proof enter_block as Henter.
  pose proof enter_else as Helse. pose proof skip_if as Hskip.
  unfold label_types_of, label_types in Hpush. rewrite Eo in Hpush, Henter, Helse |- *. cbn in Hpush.
  destruct (run_ends _ cur_loaded c' level run_next_ctx) as (oe & cE & He).
  { rewrite (op_csp _ _ _ _ _ _ Hop). cbn. lia. }
  apply iwp_bind, iwp_get, iwp_bind. rewrite E3.
  eapply (iwp_find_block N _ c' oe cE); [done|rewrite E2; apply block_is_start| |].
  { rewrite E2, (op_csp _ _ _ _ _ _ Hop). exact He. }
  intros r cache Hcache Hr1 Hr2. specialize (Hr1 eq_refl). pose proof (entering_cache _ _ _ E Hcache) as E'.
  apply iwp_bind. eapply iwp_some; [done|].
  apply iwp_bind. eapply iwp_pop_cell; [by eapply base_refl, E'|rewrite (et_sp _ _ E'); cbn; lia|].
  intros v s2 _ D2. pose proof (entering_pop _ _ 1 E' D2) as E2'.
  assert (forall oe2 cE2, ends_of f level c' oe2 cE2 -> Some (pos cE) = Some (pos cE2)) as Ht.
  { intros oe2 cE2 He2. destruct (ends_fun _ _ _ _ _ _ _ _ _ _ He He2) as [_ ->]. done. }
  destruct (v =? 0); cbn [negb].
  - rewrite Hr1. destruct oe as [cL|]; cbn.
    + apply iwp_bind. apply Hpush; [done|exact Ht|]. intros L HL HLs. apply iwp_set. exact (Helse _ _ _ _ cL E2' HL HLs He eq_refl).
    + exact (Hskip _ _ Eo E2' He).
  - apply Hpush; [done|exact Ht|auto].
Qed.

Lemma step_block : iwp step (step_post N) s.
Proof.
  eapply step_block_code; [exact Ho|exact Hbc| |].
  { eapply (code_wrote _ _ []). rewrite app_nil_r. exact Hw. }
  intros s1 D. pose proof (entering_intro _ D) as E. apply iwp_go_post.
  pose proof iwp_block as H1. pose proof iwp_loop as H2. pose proof iwp_if as H3.
  destruct Ho as [Eo|[Eo|Eo]]; rewrite Eo in E; auto.
Qed.

End block.

(** ** The ends of blocks *)

Lemma step_at_end : at_end (frame s) -> iwp step (step_post N) s.
Proof. intros (cE & cN & b & bs & H). by eapply step_end. Qed.

Lemma cur_end b bs :
  wrote [opb WASM_OP_END] [opb WASM_OP_END] c c' -> end_done c c' b bs -> iwp step (step_post N) s.
Proof.
  intros Hw En. apply step_at_end. exists c, c', b, bs. pose proof (be_live _ _ _ _ Hb) as [L1 L2].
  pose proof (en_csp _ _ _ _ En) as Ec. pose proof (be_pos _ _ _ _ Hb).
  assert (base c = blk_stack_cell_num b) as Hbase by (unfold base; by rewrite Ec).
  split; try done; try apply Hb.
  - exact (run_wrote _ cur_loaded _ _ _ _ run_next_ctx Hw).
  - rewrite Ec in L1. by inversion L1.
  - by apply Forall_drop.
  - lia.
  - rewrite cur_cells. unfold stack_cell_num.
    rewrite (en_live _ _ _ _ En (be_live _ _ _ _ Hb)), length_app, stk_length, low_length by apply cur_whole. lia.
  - rewrite <- Ec. apply Hb.
Qed.

Lemma cur_results b bs p : else_done c c' b bs p ->
  length (sp (frame s)) = (blk_stack_cell_num b + wasm_get_cell_num (block_type_get_result_types (block_type b)))%nat.
Proof.
  intros El. rewrite cur_cells. unfold stack_cell_num.
  rewrite (el_live _ _ _ _ _ El (be_live _ _ _ _ Hb)), length_app, stk_length, low_length by apply cur_whole.
  unfold base. rewrite (el_csp _ _ _ _ _ El). lia.
Qed.

(** The first part of an [if] ends before its [else]. *)
Lemma cur_else b bs p :
  wrote [opb WASM_OP_ELSE] [opb WASM_OP_ELSE] c c' -> else_done c c' b bs p -> iwp step (step_post N) s.
Proof.
  intros Hw El. pose proof (cur_results _ _ _ El) as Hres. pose proof (be_labels _ _ _ _ Hb) as HLs.
  rewrite (el_csp _ _ _ _ _ El) in HLs. destruct (csp (frame s)) as [|L Ls] eqn:Ecsp; [done|].
  destruct HLs as [[cS HL] HLs].
  destruct (run_ends _ cur_loaded cS (Datatypes.S (length bs))) as (oe & cE & He).
  { apply HL. }
  { destruct (lb_csp _ _ _ _ _ _ _ HL) as (b0 & -> & _). cbn. lia. }
  pose proof (lb_target _ _ _ _ _ _ _ HL _ _ He) as Ht. rewrite (el_label _ _ _ _ _ El) in Ht.
  eapply iwp_step; [apply D0|exact (code_wrote _ [opb WASM_OP_ELSE] [] Hw)|]. intros s1 D1 _. cbn. apply iwp_go_post.
  destruct (di_frame _ _ _ _ _ _ _ _ D1) as (lp' & sp' & E & D2 & _).
  apply iwp_bind, iwp_get. rewrite E. cbn [csp]. rewrite Ecsp.
  apply iwp_bind. eapply iwp_some; [done|]. apply iwp_bind. eapply iwp_some; [done|]. apply iwp_set.
  pose proof (base_did _ _ _ _ _ _ B D1) as B1.
  split; [apply base_frame; [done|by apply frame_set_ip, B1|done|done]|]. right. cbn. rewrite E.
  eapply at_end_intro; cbn; [apply cur_loaded|exact HL|exact HLs|exact He|done|done|lia].
Qed.

(** The end of an [if] without [else], which the checker reads twice. *)
Lemma cur_end_else b bs p r :
  p_rest c = opb WASM_OP_END :: r -> same_code c c' -> else_done c c' b bs p -> iwp step (step_post N) s.
Proof.
  intros Hr [Hc1 Hc2] El. pose proof (cur_results _ _ _ El) as Hres. pose proof (be_pos _ _ _ _ Hb) as Hp.
  pose proof (el_csp' _ _ _ _ _ El) as Ec'. pose proof (el_csp _ _ _ _ _ El) as Ec.
  pose proof (be_live _ _ _ _ Hb) as [L1 L2]. apply step_at_end.
  destruct (run_next _ cur_loaded c' run_next_ctx) as (cN & StN & HonN & _); [by rewrite Ec'|].
  destruct (round_end _ _ _ _ _ _ r (proj2 StN)) as [(b2 & bs2 & Hw & En)|(_ & b2 & bs2 & p2 & El2)].
  - by rewrite Hc2.
  - apply (run_whole _ cur_loaded); [apply run_next_ctx|by rewrite Ec'].
  - pose proof (en_csp _ _ _ _ En) as E2. rewrite Ec' in E2. injection E2 as E2 <-.
    exists c', cN, b2, bs. split; try done; try apply run_next_ctx.
    + exact (run_wrote _ cur_loaded _ _ _ _ HonN Hw).
    + rewrite Ec in L1. by inversion L1.
    + rewrite <- E2. cbn. rewrite (el_ref _ _ _ _ _ El).
      assert (base c = blk_stack_cell_num b) as Hbase by (unfold base; by rewrite Ec).
      rewrite Hbase, low_app by (rewrite low_length; [done|rewrite <- Hbase; apply cur_whole]).
      do 2 apply Forall_drop. done.
    + unfold pos. rewrite Hc1. fold (pos c). lia.
    + by rewrite <- E2.
    + rewrite <- E2. eapply (labels_same _ _ _ b); [|by repeat split]. rewrite <- Ec.
      eapply labels_inside; [apply Hb|]. eapply inside_step; [constructor|exact St|by rewrite Ec, Ec'].
  - pose proof (el_none _ _ _ _ _ El2) as Hn. pose proof (el_csp _ _ _ _ _ El2) as E2.
    rewrite Ec' in E2. by injection E2 as <- _.
Qed.

(** ** Calls *)

Lemma copy_outs s2 k p n args (Q : () -> istate S -> Prop) :
  did s s2 k p 0 -> length args = n -> (n <= length (sp (frame s)))%nat -> Q tt s2 ->
  iwp (copy_to_outs_area ptr_size args) Q s2.
Proof.
  intros D Hl Hn HQ. destruct args as [|a args]; [done|]. apply iwp_bind, iwp_get. apply iwp_require; [|done].
  apply Z.leb_le. rewrite (di_free _ _ _ _ _ _ _ _ D). rewrite cur_cells in Hn.
  pose proof (run_room _ cur_loaded _ (be_run _ _ _ _ Hb)). pose proof (func_size_bounds _ cur_loaded).
  pose proof (sb_free _ _ B). pose proof (fr_size _ (sb_frame _ _ B)). lia.
Qed.

(** Room for a frame. *)
Lemma iwp_ALLOC_FRAME (s2 : istate S) size Q :
  0 <= size < 2 ^ 31 -> 0 <= wasm_stack_free s2 < 2 ^ 32 ->
  (2 * size <= wasm_stack_free s2 -> Q tt (set_wasm_stack_free (wasm_stack_free s2 - size) s2)) ->
  iwp (ALLOC_FRAME size) Q s2.
Proof.
  intros Hs Hf HQ. apply iwp_bind, iwp_get. unfold wrap32. rewrite !Z.mod_small by lia.
  destruct (Z.ltb_spec (wasm_stack_free s2) (size * 2)); [done|]. apply iwp_set, HQ. lia.
Qed.

Lemma cur_free : 0 <= wasm_stack_free s < 2 ^ 32.
Proof.
  pose proof (sb_free _ _ B). pose proof (fr_size _ (sb_frame _ _ B)).
  pose proof (func_size_bounds _ cur_loaded). pose proof (fo_ptr FO). unfold offsetof_lp in *. lia.
Qed.

Section call.
Context (orig bs : bytes) (ps qs : list value_type) (K : emit orig bs ps qs c c').

Lemma emit_pos : (ip (frame s) + length bs = pos c')%nat.
Proof. pose proof (be_pos _ _ _ _ Hb). unfold pos in *. rewrite (em_done _ _ _ _ _ _ K), length_app. lia. Qed.

Lemma call_wasm s2 args g :
  did s s2 (length bs) (wasm_get_cell_num ps) 0 -> wasm_function g ∈ functions ->
  length args = param_cell_num (ft g) -> cells_ok args -> qs = result_types (ft g) ->
  iwp (ALLOC_FRAME (func_frame_size ptr_size g);; irequire (0 <? func_max_block_num g)%nat;;
       iset (fun s => set_frame (new_frame g args (func_frame_size ptr_size g))
                        (set_prev_frames (frame s :: prev_frames s) s))) (fun _ => state_ok N) s2.
Proof.
  intros D Hg Hl Ha Eq. pose proof (di_free _ _ _ _ _ _ _ _ D) as Ef. pose proof cur_free as Hf.
  pose proof (func_size_bounds _ (fo_loaded FO _ Hg)) as Hsz. pose proof (fo_ptr FO) as Hp.
  assert (0 <= func_frame_size ptr_size g) as H0 by (unfold offsetof_lp in *; lia).
  apply iwp_bind, iwp_ALLOC_FRAME; [lia|by rewrite Ef|]. intros Hsize.
  apply iwp_bind, iwp_require; [by apply Nat.ltb_lt, new_frame_blocks|]. apply iwp_set.
  destruct (new_frame_ok _ _ Hg Hl Ha) as [Hfr Hat]. split; [|by left].
  pose proof (base_did _ _ _ _ _ _ B D) as [B1 B2 B3 B4 B5].
  split; cbn [frame set_frame prev_frames set_prev_frames wasm_stack_free set_wasm_stack_free block_addr_cache];
    try done; [|cbn [frame_size new_frame]; lia|by destruct B5].
  cbn [callers_ok frame_size new_frame function]. split_and!; [done| |lia|lia|].
  - exists c', 0%nat. destruct (di_frame _ _ _ _ _ _ _ _ D) as (lp' & sp' & -> & D1 & _).
    destruct (so_live _ _ _ _ (em_stk _ _ _ _ _ _ K) cur_whole (be_live _ _ _ _ Hb)) as (Hlv & rest & E1 & E2 & _).
    pose proof (so_csp _ _ _ _ (em_stk _ _ _ _ _ _ K)) as Ecsp.
    split; cbn; try done.
    + apply run_next_ctx.
    + rewrite Ecsp. apply Hb.
    + rewrite <- drop_drop, cur_code, (run_wrote _ cur_loaded _ _ _ _ run_next_ctx (emit_wrote _ _ _ _ _ _ K)).
      by rewrite drop_app_length.
    + rewrite emit_pos. lia.
    + pose proof cur_cells as Hcc. unfold stack_cell_num in *. rewrite E1 in Hcc. rewrite E2.
      rewrite !length_app, !stk_length in *. subst qs. unfold ret_cell_num. lia.
    + rewrite Ecsp. eapply labels_inside; [apply Hb|]. eapply inside_step; [constructor|done|by rewrite Ecsp].
  - by replace (wasm_stack_free s2 - func_frame_size ptr_size g + func_frame_size ptr_size g)
      with (wasm_stack_free s2) by lia.
Qed.
(** The results of a native function. *)
Definition native_results (n : nat) (r : Z * Z) : list Z :=
  if (n =? 1)%nat then [fst r] else if (n =? 2)%nat then [fst r; snd r] else [].

Lemma native_results_ok n x y : (n <= 2)%nat -> cell_ok x -> cell_ok y ->
  length (native_results n (x, y)) = n /\ cells_ok (native_results n (x, y)).
Proof. intros Hn Hx Hy. destruct n as [|[|[|n]]]; [done| | |lia]; (split; [done|]); cbn; by rewrite ?Forall_cons. Qed.

Lemma iwp_push_results (s2 : istate S) n x y Q :
  (length (sp (frame s2)) + length (native_results n (x, y)) <= func_max_stack_cell_num (function (frame s2)))%nat ->
  Q tt (set_frame (set_sp (rev (native_results n (x, y)) ++ sp (frame s2)) (frame s2)) s2) ->
  iwp (if (n =? 1)%nat then push_cell x else if (n =? 2)%nat then push_cell x;; push_cell y else mret tt) Q s2.
Proof.
  unfold native_results. intros Hr HQ. destruct (n =? 1)%nat; [|destruct (n =? 2)%nat].
  - apply iwp_bind, iwp_get, iwp_bind, iwp_require; [apply Nat.ltb_lt; cbn in Hr; lia|done].
  - apply iwp_bind, iwp_bind, iwp_get, iwp_bind, iwp_require; [apply Nat.ltb_lt; cbn in Hr; lia|].
    apply iwp_set, iwp_bind, iwp_get, iwp_bind, iwp_require; [apply Nat.ltb_lt; cbn in Hr |- *; lia|done].
  - apply iwp_ret. destruct s2 as [[]]. exact HQ.
Qed.

Lemma call_native s2 args i t :
  did s s2 (length bs) (wasm_get_cell_num ps) 0 -> import_function i t ∈ functions ->
  length args = param_cell_num t -> cells_ok args -> qs = result_types t ->
  iwp (wasm_interp_call_func_native ptr_size i t args) (fun _ => state_ok N) s2.
Proof.
  intros D Hi Hl Ha Eq. destruct (fo_import FO _ _ Hi) as (Him & Hret & Hsz). pose proof cur_free as Hf.
  pose proof (di_free _ _ _ _ _ _ _ _ D) as Ef. pose proof (fo_ptr FO) as Hp. cbn zeta.
  unfold wasm_interp_call_func_native. set (cells := Z.max _ _) in *. set (size := wasm_interp_interp_frame_size _ _).
  assert (0 <= size < 2 ^ 31) as Hsize.
  { pose proof (frame_size_bounds cells). fold size in H. unfold offsetof_lp in *. lia. }
  apply iwp_bind, iwp_ALLOC_FRAME; [done|by rewrite Ef|]. intros Hroom. apply iwp_bind, iwp_get. cbn [env set_wasm_stack_free].
  pose proof (di_env _ _ _ _ _ _ _ _ D) as [V1 V2 V3 V4 V5 V6].
  pose proof (el_native module _ _ _ _ V6 Him Hl Ha) as Hinv. unfold wp in Hinv.
  destruct (invoke_native i args (env s2)) as [[ret e']|f']; [destruct Hinv as (Hie & Hmem & Hret')|exact Hinv].
  apply iwp_bind, iwp_set. destruct ret as [[x y]|]; [|done].
  destruct (Hret' x y eq_refl) as [Hx Hy]. destruct (native_results_ok _ _ _ Hret Hx Hy) as [Hrl Hrc].
  destruct (di_frame _ _ _ _ _ _ _ _ D) as (lp' & sp' & E & D1 & D2 & D3 & D4).
  destruct (emit_enough _ _ _ _ K) as [_ Hroom2]. unfold room in Hroom2. rewrite Eq in Hroom2.
  fold (ret_cell_num t) in Hroom2.
  apply iwp_bind, iwp_push_results.
  { cbn [frame set_env set_wasm_stack_free]. rewrite E. cbn [sp function]. lia. }
  apply iwp_bind, iwp_set, iwp_set.
  eapply (emit_next _ _ 0); [cbn; rewrite app_nil_r; exact K|].
  set (s5 := set_wasm_stack_free _ (set_frame _ _)).
  assert (frame s5 = Frame f (ip (frame s) + length bs) lp' (rev (native_results (ret_cell_num t) (x, y)) ++ sp')
    (csp (frame s)) (frame_size (frame s))) as E5.
  { cbn. by rewrite E. }
  assert (forall s6, frame s6 = frame s5 -> prev_frames s6 = prev_frames s2 -> outs s6 = outs s2 ->
    block_addr_cache s6 = block_addr_cache s2 -> wasm_stack_free s6 = wasm_stack_free s2 ->
    env_ok module global_offsets inv s6 ->
    did s s6 (length bs) (wasm_get_cell_num ps) (wasm_get_cell_num qs)) as Hdid.
  { intros s6 F1 F2 F3 F4 F5 F6. destruct D as [_ G2 G3 G4 G5 G6 _].
    split; rewrite ?F1, ?F2, ?F3, ?F4, ?F5; try done. eexists _, _. split; [exact E5|].
    rewrite length_app, length_rev, Hrl, Eq. unfold ret_cell_num.
    split_and!; [lia| |done|done]. apply Forall_app. split; [by apply Forall_rev|done]. }
  destruct (am_memory (env s5)) as [m|] eqn:Em; apply Hdid; try done; cbn; try lia.
  - split; cbn; try done. intros _. exists m. split; [done|lia].
  - split; cbn; try done. intros Hm. destruct (V5 Hm) as (m & Hm1 & _). cbn in Em.
    destruct Hmem as [Hmem|[m' Hmem]]; congruence.
Qed.

(** A call, with the arguments of its type on the stack. *)
Lemma call_function s2 p g :
  did s s2 (length bs) p 0 -> g ∈ functions ->
  wasm_get_cell_num ps = (p + param_cell_num (function_type g))%nat -> qs = result_types (function_type g) ->
  iwp (call_func_from_interp ptr_size g) (fun _ => state_ok N) s2.
Proof.
  intros D Hg Hps Hqs. destruct (emit_enough _ _ _ _ K) as [Hen _].
  apply iwp_bind. eapply iwp_pop_cells; [exact D|lia|]. intros args s3 Ha Hl D3. rewrite <- Hps in D3.
  apply iwp_bind. eapply copy_outs; [exact D3|exact Hl|lia|].
  destruct g as [i t|g]; [by eapply call_native|by eapply call_wasm].
Qed.

End call.

Lemma functions_lookup i t : all_functions module !! i = Some t ->
  exists g, functions !! i = Some g /\ function_type g = t.
Proof. rewrite <- (fo_types FO), list_lookup_fmap. intros (g & Hg & ->)%fmap_Some. eauto. Qed.

Lemma step_call orig bs ps qs :
  call_code module bs ps qs -> emit orig bs ps qs c c' -> iwp step (step_post N) s.
Proof.
  intros Hcc K. assert (code_at s 0 bs) as Hc.
  { eapply (code_wrote _ _ []). rewrite app_nil_r. by eapply emit_wrote. }
  destruct (emit_enough _ _ _ _ K) as [Hen _].
  destruct Hcc as [n i t Hn Hi|n i m j t Hn Hm Hi Hj].
  - eapply iwp_step; [apply D0|exact Hc|]. intros s1 D1 Hc1. cbn. apply iwp_go_post.
    unfold handle_op_call, fetch_uint32. apply iwp_bind. eapply iwp_fetch_leb with (2 := Hn); [done|done|].
    intros s2 D2. destruct (functions_lookup _ _ Hi) as (g & Hg & <-). apply iwp_bind. eapply iwp_some; [done|].
    eapply call_function; [exact K|exact D2|by eapply list_elem_of_lookup_2|done|done].
  - eapply iwp_step; [apply D0|exact Hc|]. intros s1 D1 [Hc1 Hc2]%code_at_app. cbn. apply iwp_go_post.
    unfold handle_op_call_indirect, fetch_uint32.
    apply iwp_bind. eapply iwp_fetch_leb with (2 := Hn); [done|done|]. intros s2 D2.
    apply iwp_bind. eapply iwp_some; [done|].
    apply iwp_bind. eapply iwp_fetch_leb with (2 := Hm); [done|done|]. intros s3 D3.
    destruct (eo_tables _ _ _ _ (di_env _ _ _ _ _ _ _ _ D3) _ _ Hj) as (ti & Hti & Hcells).
    apply iwp_bind, iwp_get, iwp_bind. eapply iwp_some; [done|].
    apply iwp_bind. eapply iwp_pop_cell; [exact D3| |].
    { rewrite get_cell_num_app in Hen. change (wasm_get_cell_num [VALUE_TYPE_I32]) with 1%nat in Hen. lia. }
    intros v s4 [Hv _] D4. destruct (Z.leb_spec (cur_size ti) v) as [|Hlt]; [done|]. unfold cur_size in Hlt.
    destruct (lookup_lt_is_Some_2 (elems ti) (Z.to_nat v)) as [fidx Hf]; [lia|].
    apply iwp_bind. eapply iwp_some; [done|]. destruct (fidx =? NULL_REF); [done|].
    destruct (Z.leb_spec (zlen functions) fidx) as [|Hlt2]; [done|].
    pose proof (Forall_lookup_1 _ _ _ _ Hcells Hf) as [Hf0 _].
    destruct (lookup_lt_is_Some_2 functions (Z.to_nat fidx)) as [g Hg]; [lia|].
    apply iwp_bind. eapply iwp_some; [done|]. case_bool_decide as Ht; [|done]. subst t.
    eapply call_function; [exact K| |by eapply list_elem_of_lookup_2| |done].
    + cbn [length]. rewrite length_app. replace (Datatypes.S (length n + length m)) with (1 + length n + length m)%nat by lia.
      exact D4.
    + rewrite get_cell_num_app. change (wasm_get_cell_num [VALUE_TYPE_I32]) with 1%nat. unfold param_cell_num. lia.
Qed.

Lemma step_round : round_spec module (ft f) (lt f) c c' -> iwp step (step_post N) s.
Proof.
  intros [(orig & bs & n & ps & qs & Hst & K)|(orig & bs & ps & qs & Hcc & K)|n d Hn Hd K|J
    |o orig bs type c2 Ho Hbc Hw Hop|b bls p Hw El|b bls p r Hr Hc El|b bls Hw En].
  - by eapply step_straight.
  - by eapply step_call.
  - by eapply step_br_if.
  - by apply step_jump.
  - by eapply step_block.
  - by eapply cur_else.
  - by eapply cur_end_else.
  - by eapply cur_end.
Qed.

End instructions.

(** ** Steps and runs *)

Lemma step_nop N s c n :
  state_base N s -> before (frame s) 0 c (Datatypes.S n) -> iwp step (step_post N) s.
Proof.
  intros B [H1 H2 H3 H4 H5 H6 H7]. eapply (iwp_step _ _ _ _ _ _ _ _ _ _ WASM_OP_NOP []); [by eapply base_refl| |].
  { eexists. rewrite Nat.add_0_r. exact H4. }
  intros s1 D _. apply (iwp_ret running). cbn.
  eapply (did_before _ _ _ _ _ _ c n); [exact B|exact D|exact H1|exact H2|exact H3| | | |exact H7]; [|lia..].
  rewrite <- drop_drop, H4. done.
Qed.

Lemma step_ok N s : state_ok N s -> iwp step (step_post N) s.
Proof.
  intros [B [(c & [|n] & Hb)|(cE & cN & b & bs & He)]].
  - destruct (run_next _ (fr_loaded _ (sb_frame _ _ B)) c) as (c' & St & _ & Hr); [apply Hb..|].
    by eapply step_round.
  - by eapply step_nop.
  - by eapply step_end.
Qed.

Abbreviation run := (run ptr_size (types module) functions global_offsets data_segments table_segs
  aux_stack_boundary aux_stack_bottom).

Lemma run_ok N fuel s : state_ok N s -> iwp (run fuel) (step_post N) s.
Proof.
  revert s. induction fuel as [|fuel IH]; intros s H; [done|]. cbn [Interp.run]. apply iwp_bind.
  eapply iwp_mono; [by apply step_ok|]. intros [] s' H'; [by apply IH|done].
Qed.

End sound.
