(* ===== verification/NumericSpec.v ===== *)
(** * Integer instructions

    The loops and bit tricks of the interpreter against what the instructions
    mean. *)

From S2P Require Import Prelude Memory Leb LebSpec Opcode Numeric.

(** The sum of the [n] lowest binary digits. *)
Fixpoint digit_sum (n : nat) (u : Z) : Z :=
  match n with
  | O => 0
  | S n => u mod 2 + digit_sum n (u / 2)
  end.

Lemma bits_pos w : 0 < bits w.
Proof. by destruct w. Qed.

Lemma top_bit w x : 0 < x < 2 ^ bits w ->
  negb (Z.land x (2 ^ (bits w - 1)) =? 0) = (Z.log2 x =? bits w - 1).
Proof.
  intros Hx. pose proof (bits_pos w) as Hb.
  assert (Z.land x (2 ^ (bits w - 1)) = if Z.testbit x (bits w - 1) then 2 ^ (bits w - 1) else 0) as ->.
  { apply Z.bits_inj'. intros i Hi. rewrite Z.land_spec, Z.pow2_bits_eqb by lia.
    destruct (Z.eqb_spec (bits w - 1) i) as [<-|Hne].
    - rewrite andb_true_r. destruct (Z.testbit x (bits w - 1)) eqn:E; [by rewrite Z.pow2_bits_true by lia|by rewrite Z.bits_0].
    - rewrite andb_false_r. destruct (Z.testbit x (bits w - 1)); [by rewrite Z.pow2_bits_false by lia|by rewrite Z.bits_0]. }
  pose proof (Z.log2_lt_pow2 x (bits w)) as [Hl _]; [lia|]. specialize (Hl (proj2 Hx)).
  destruct (Z.testbit x (bits w - 1)) eqn:E.
  - assert (0 < 2 ^ (bits w - 1)) by (apply Z.pow_pos_nonneg; lia).
    destruct (Z.eqb_spec (2 ^ (bits w - 1)) 0); [lia|]. cbn. symmetry. apply Z.eqb_eq.
    destruct (Z.lt_ge_cases (Z.log2 x) (bits w - 1)); [|lia].
    rewrite Z.bits_above_log2 in E by lia. done.
  - cbn. symmetry. apply Z.eqb_neq. intros Hlog. rewrite <- Hlog, Z.bit_log2 in E by lia. done.
Qed.

Lemma clz_loop_spec fuel w x num :
  0 < x < 2 ^ bits w -> bits w - 1 - Z.log2 x < Z.of_nat fuel ->
  clz_loop fuel w x num = num + (bits w - 1 - Z.log2 x).
Proof.
  revert x num. induction fuel as [|fuel IH]; intros x num Hx Hf.
  - pose proof (Z.log2_lt_pow2 x (bits w)) as [Hl _]; [lia|]. specialize (Hl (proj2 Hx)). lia.
  - cbn [clz_loop]. rewrite top_bit by done. destruct (Z.eqb_spec (Z.log2 x) (bits w - 1)) as [->|Hne]; [lia|].
    pose proof (Z.log2_lt_pow2 x (bits w)) as [Hl _]; [lia|]. specialize (Hl (proj2 Hx)).
    assert (x < 2 ^ (bits w - 1)) as Hlt by (apply Z.log2_lt_pow2; lia).
    assert (2 ^ bits w = 2 * 2 ^ (bits w - 1)) as Hp.
    { rewrite <- Z.pow_succ_r by (pose proof (bits_pos w); lia). f_equal. lia. }
    assert (wrap w (Z.shiftl x 1) = 2 * x) as ->.
    { unfold wrap. rewrite Z.shiftl_mul_pow2 by lia. rewrite Z.mod_small; lia. }
    rewrite IH; [|lia|]; rewrite Z.log2_double by lia; lia.
Qed.

Lemma clz_spec w x : 0 < x < 2 ^ bits w -> clz w x = bits w - 1 - Z.log2 x.
Proof.
  intros Hx. unfold clz. destruct (Z.eqb_spec x 0); [lia|]. rewrite clz_loop_spec; [lia|done|].
  pose proof (Z.log2_nonneg x). pose proof (bits_pos w). lia.
Qed.

Lemma land_1 x : Z.land x 1 = x mod 2.
Proof. change 1 with (Z.ones 1). by rewrite Z.land_ones by lia. Qed.

Lemma ctz_loop_spec fuel x num :
  0 < x < 2 ^ Z.of_nat fuel -> exists k, ctz_loop fuel x num = num + k /\ 0 <= k
    /\ (2 ^ k | x) /\ Z.odd (x / 2 ^ k) = true.
Proof.
  revert x num. induction fuel as [|fuel IH]; intros x num Hx; [cbn in Hx; lia|].
  cbn [ctz_loop]. rewrite land_1, Zmod_odd. destruct (Z.odd x) eqn:Ho.
  - exists 0. cbn. rewrite Z.div_1_r. split_and!; [lia|lia|exists x; lia|done].
  - cbn. rewrite Z.shiftr_div_pow2 by lia. change (2 ^ 1) with 2.
    pose proof (Z.div_mod x 2) as Hd. rewrite Zmod_odd, Ho in Hd.
    rewrite Nat2Z.inj_succ, Z.pow_succ_r in Hx by lia.
    destruct (IH (x / 2) (num + 1)) as (k & E & Hk & [q Hq] & Hodd); [lia|].
    exists (k + 1). rewrite E, Z.pow_add_r by lia. change (2 ^ 1) with 2. split_and!; [lia|lia| |].
    + exists q. nia.
    + rewrite (Z.mul_comm (2 ^ k)), <- Z.div_div; [done|lia|]. apply Z.pow_pos_nonneg; lia.
Qed.

(** Clearing the lowest bit that is set. *)
Lemma land_pred_double q : 0 < q -> Z.land (2 * q) (2 * q - 1) = 2 * Z.land q (q - 1).
Proof.
  intros Hq. replace (2 * q - 1) with (2 * (q - 1) + 1) by lia. apply Z.bits_inj'. intros i Hi.
  rewrite Z.land_spec. destruct (Z.eq_dec i 0) as [->|Hne].
  - by rewrite !Z.testbit_even_0.
  - replace i with (Z.succ (i - 1)) by lia.
    rewrite Z.testbit_even_succ, Z.testbit_odd_succ, Z.testbit_even_succ, Z.land_spec by lia. done.
Qed.

Lemma land_pred_odd q : 0 <= q -> Z.land (2 * q + 1) (2 * q + 1 - 1) = 2 * q.
Proof.
  intros Hq. replace (2 * q + 1 - 1) with (2 * q) by lia. apply Z.bits_inj'. intros i Hi.
  rewrite Z.land_spec. destruct (Z.eq_dec i 0) as [->|Hne].
  - by rewrite Z.testbit_even_0, andb_false_r.
  - replace i with (Z.succ (i - 1)) by lia. rewrite Z.testbit_odd_succ, Z.testbit_even_succ by lia. apply andb_diag.
Qed.

Lemma even_digits q : (2 * q) mod 2 = 0 /\ 2 * q / 2 = q.
Proof. rewrite Z.mul_comm. by rewrite Z.mod_mul, Z.div_mul. Qed.

Lemma odd_digits q : (2 * q + 1) mod 2 = 1 /\ (2 * q + 1) / 2 = q.
Proof. rewrite Z.add_comm, (Z.mul_comm 2). by rewrite Z.mod_add, Z.div_add. Qed.

Lemma digit_sum_pred n u : 0 < u < 2 ^ Z.of_nat n ->
  digit_sum n (Z.land u (u - 1)) = digit_sum n u - 1 /\ 0 <= Z.land u (u - 1) < 2 ^ Z.of_nat n.
Proof.
  revert u. induction n as [|n IH]; intros u Hu; [cbn in Hu; lia|].
  rewrite Nat2Z.inj_succ, Z.pow_succ_r in * by lia. cbn [digit_sum].
  destruct (Z.Even_or_Odd u) as [[q ->]|[q ->]].
  - rewrite land_pred_double by lia. destruct (even_digits q) as [-> ->].
    destruct (even_digits (Z.land q (q - 1))) as [-> ->]. destruct (IH q); lia.
  - rewrite land_pred_odd by lia. destruct (odd_digits q) as [-> ->]. destruct (even_digits q) as [-> ->]. lia.
Qed.

Lemma digit_sum_bound n u : 0 <= u -> 0 <= digit_sum n u <= Z.of_nat n.
Proof.
  revert u. induction n as [|n IH]; intros u Hu; [done|]. cbn [digit_sum].
  pose proof (Z.mod_pos_bound u 2). pose proof (IH (u / 2) ltac:(apply Z.div_pos; lia)). lia.
Qed.

Lemma popcount_loop_spec fuel n u ret :
  0 <= u < 2 ^ Z.of_nat n -> digit_sum n u <= Z.of_nat fuel -> popcount_loop fuel u ret = ret + digit_sum n u.
Proof.
  revert u ret. induction fuel as [|fuel IH]; intros u ret Hu Hf; cbn [popcount_loop].
  - pose proof (digit_sum_bound n u (proj1 Hu)). lia.
  - destruct (Z.eqb_spec u 0) as [->|Hne].
    + assert (forall k, digit_sum k 0 = 0) as ->; [|lia]. intros k. induction k as [|k IHk]; [done|].
      cbn [digit_sum]. by rewrite Zdiv_0_l, IHk.
    + destruct (digit_sum_pred n u) as [H1 H2]; [lia|]. rewrite IH; lia.
Qed.

(** ** Rotations *)

Lemma rot_count w c : Z.land (c mod bits w) (bits w - 1) = c mod bits w.
Proof.
  assert (exists k, bits w = 2 ^ k /\ bits w - 1 = Z.ones k /\ 0 <= k) as (k & E & E' & Hk).
  { destruct w; [by exists 5|by exists 6]. }
  rewrite E', Z.land_ones, E by done. by rewrite Z.mod_mod by (apply Z.pow_nonzero; lia).
Qed.

Lemma rot_back w k : 0 <= k < bits w -> Z.land (wrap w (0 - k)) (bits w - 1) = (- k) mod bits w.
Proof.
  intros Hk. unfold wrap. assert (exists j, bits w = 2 ^ j /\ bits w - 1 = Z.ones j /\ 0 <= j /\ (2 ^ j | 2 ^ bits w)) as (j & E & E' & Hj & Hd).
  { destruct w; [exists 5|exists 6]; split_and!; try done; [exists (2 ^ 27)|exists (2 ^ 58)]; done. }
  rewrite E', Z.land_ones by done. rewrite E at 2.
  destruct Hd as [q Hq]. rewrite Hq, (Z.mul_comm q), Z.rem_mul_r; [|apply Z.pow_nonzero; lia|].
  - rewrite (Z.mul_comm (2 ^ j)), Z.mod_add by (apply Z.pow_nonzero; lia).
    by rewrite Z.mod_mod by (apply Z.pow_nonzero; lia).
  - assert (0 < 2 ^ bits w) by (apply Z.pow_pos_nonneg; pose proof (bits_pos w); lia).
    assert (0 < 2 ^ j) by (apply Z.pow_pos_nonneg; lia). nia.
Qed.

Lemma high_bits w n i : 0 <= n < 2 ^ bits w -> bits w <= i -> Z.testbit n i = false.
Proof.
  intros Hn Hi. destruct (Z.eq_dec n 0) as [->|Hne]; [apply Z.bits_0|]. apply Z.bits_above_log2; [lia|].
  assert (Z.log2 n < bits w) by (apply Z.log2_lt_pow2; lia). lia.
Qed.

Lemma opposite_mod w k : 0 <= k < bits w -> (- k) mod bits w = if k =? 0 then 0 else bits w - k.
Proof.
  intros Hk. destruct (Z.eqb_spec k 0) as [->|Hne]; [by rewrite Z.mod_0_l by lia|].
  symmetry. apply (Z.mod_unique_pos _ _ (-1)); lia.
Qed.

Lemma rotl_bit w n c i : 0 <= n < 2 ^ bits w -> 0 <= i < bits w ->
  Z.testbit (rotl w n c) i = Z.testbit n ((i - c) mod bits w).
Proof.
  intros Hn Hi. pose proof (bits_pos w) as Hb. unfold rotl. cbn zeta. rewrite rot_count.
  pose proof (Z.mod_pos_bound c (bits w) Hb) as Hk. rewrite <- Zminus_mod_idemp_r.
  set (k := c mod bits w) in *. clearbody k. rewrite rot_back, opposite_mod by done.
  unfold wrap. rewrite Z.lor_spec, Z.mod_pow2_bits_low, Z.shiftl_spec by lia.
  destruct (Z.eqb_spec k 0) as [->|Hne].
  - rewrite Z.shiftr_0_r, Z.sub_0_r, Z.mod_small by done. apply orb_diag.
  - rewrite Z.shiftr_spec by lia. destruct (Z.lt_ge_cases i k) as [Hlt|Hge].
    + rewrite Z.testbit_neg_r by lia. cbn [orb]. f_equal. apply (Z.mod_unique_pos _ _ (-1)); lia.
    + rewrite (high_bits w n (i + _)), orb_false_r by lia. f_equal. symmetry. apply Z.mod_small. lia.
Qed.

Lemma rotr_rotl w n c : 0 <= n < 2 ^ bits w -> rotr w n c = rotl w n (- c).
Proof.
  intros Hn. pose proof (bits_pos w) as Hb. unfold rotl, rotr. cbn zeta. rewrite !rot_count.
  pose proof (Z.mod_pos_bound c (bits w) Hb) as Hk. pose proof (Z.mod_pos_bound (- c) (bits w) Hb) as Hk'.
  rewrite !rot_back by done. rewrite Z.lor_comm.
  assert ((- (c mod bits w)) mod bits w = (- c) mod bits w) as ->.
  { rewrite <- !(Z.sub_0_l). by rewrite Zminus_mod_idemp_r. }
  assert ((- ((- c) mod bits w)) mod bits w = c mod bits w) as ->; [|done].
  rewrite <- (Z.sub_0_l (_ mod _)), Zminus_mod_idemp_r. f_equal. lia.
Qed.

(** ** Sign extension *)

Lemma sign_ext_spec from w v : 0 < from <= bits w -> 0 <= v < 2 ^ from ->
  sign_ext from w v = wrap w (if v <? 2 ^ (from - 1) then v else v - 2 ^ from).
Proof.
  intros Hf Hv. assert (2 ^ from = 2 * 2 ^ (from - 1)) as Hp.
  { rewrite <- Z.pow_succ_r by lia. f_equal. lia. }
  assert (2 ^ from <= 2 ^ bits w) as Hle by (apply Z.pow_le_mono_r; lia).
  assert (0 < 2 ^ (from - 1)) as H0 by (apply Z.pow_pos_nonneg; lia).
  unfold sign_ext, wrap.
  assert (Z.land v (2 ^ (from - 1)) = if v <? 2 ^ (from - 1) then 0 else 2 ^ (from - 1)) as ->.
  { apply Z.bits_inj'. intros i Hi. rewrite Z.land_spec, Z.pow2_bits_eqb by lia.
    destruct (Z.eqb_spec (from - 1) i) as [<-|Hne].
    - rewrite andb_true_r, Z.testbit_odd, Z.shiftr_div_pow2 by lia.
      destruct (Z.ltb_spec v (2 ^ (from - 1))); [rewrite Z.div_small by lia; by rewrite Z.bits_0|].
      rewrite Z.pow2_bits_true by lia. replace (v / 2 ^ (from - 1)) with 1; [done|].
      apply (Z.div_unique_pos _ _ _ (v - 2 ^ (from - 1))); lia.
    - rewrite andb_false_r. destruct (v <? _); [by rewrite Z.bits_0|by rewrite Z.pow2_bits_false by lia]. }
  destruct (Z.ltb_spec v (2 ^ (from - 1))) as [Hlt|Hge].
  - cbn. by rewrite Z.mod_small by lia.
  - destruct (Z.eqb_spec (2 ^ (from - 1)) 0); [lia|]. cbn [negb].
    assert (2 ^ bits w - 2 ^ from = (2 ^ (bits w - from) - 1) * 2 ^ from) as E.
    { rewrite Z.mul_sub_distr_r, <- Z.pow_add_r by lia. replace (bits w - from + from) with (bits w) by lia. lia. }
    rewrite E. rewrite lor_shifted; [|lia|lia|].
    + rewrite <- E. apply (Z.mod_unique_pos _ _ (-1)); lia.
    + assert (0 < 2 ^ (bits w - from)) by (apply Z.pow_pos_nonneg; lia). lia.
Qed.

(** ** The theorem *)

(** C29: the loops and bit tricks of the integer instructions of the interpreter
    compute what the instructions mean, for 32 and for 64 bits: [clz] is the
    distance of the highest set bit from the top, [ctz] the position of the
    lowest one, [popcount] the sum of the binary digits; a rotation moves every
    bit by the given count, modulo the width; and sign extension gives the same
    signed number in more bits. *)
Theorem integer_instructions_exact w x c i from v :
  0 < x < 2 ^ bits w -> 0 <= i < bits w -> 0 < from <= bits w -> 0 <= v < 2 ^ from ->
  clz w x = bits w - 1 - Z.log2 x
  /\ (0 <= ctz w x /\ (2 ^ ctz w x | x) /\ Z.odd (x / 2 ^ ctz w x) = true)
  /\ popcount w x = digit_sum (Z.to_nat (bits w)) x
  /\ Z.testbit (rotl w x c) i = Z.testbit x ((i - c) mod bits w)
  /\ Z.testbit (rotr w x c) i = Z.testbit x ((i + c) mod bits w)
  /\ sign_ext from w v = wrap w (if v <? 2 ^ (from - 1) then v else v - 2 ^ from)
  /\ clz w 0 = bits w /\ ctz w 0 = bits w /\ popcount w 0 = 0.
Proof.
  intros Hx Hi Hf Hv. pose proof (bits_pos w) as Hb.
  split; [|split; [|split_and!]].
  - by apply clz_spec.
  - unfold ctz. destruct (Z.eqb_spec x 0); [lia|].
    destruct (ctz_loop_spec (Z.to_nat (bits w)) x 0) as (k & -> & H); [by rewrite Z2Nat.id by lia|].
    by rewrite Z.add_0_l.
  - unfold popcount. rewrite (popcount_loop_spec _ (Z.to_nat (bits w))); rewrite ?Z2Nat.id by lia; [done|lia|].
    pose proof (digit_sum_bound (Z.to_nat (bits w)) x). lia.
  - apply rotl_bit; lia.
  - rewrite rotr_rotl by lia. rewrite rotl_bit by lia. do 2 f_equal. lia.
  - by apply sign_ext_spec.
  - done.
  - done.
  - by destruct w.
Qed.

Lemma integer_instructions_exact_witness :
  clz W32 0x00f00000 = 8 /\ popcount W32 0x00f00000 = 4 /\ sign_ext 8 W64 0xff = 2 ^ 64 - 1.
Proof.
  destruct (integer_instructions_exact W32 0x00f00000 5 3 8 0x7f) as (H1 & _ & H2 & _); [done..|].
  destruct (integer_instructions_exact W64 1 5 3 8 0xff) as (_ & _ & _ & _ & _ & H3 & _); [done..|].
  rewrite H1, H2, H3. done.
Defined.
