(* ===== verification/Safety.v ===== *)
(** * Functions that the loader accepts are executed safely

    The composition of the loader and the interpreter: the code that
    [wasm_loader_prepare_bytecode] leaves of bytes that it has accepted never
    leads [wasm_interp_call_func_bytecode] out of its operand stack, its labels,
    its locals, the globals, the tables, the segments or the linear memory. Two
    conditions are not checked by the loader: memory indices of one byte and
    native functions that return at most two cells. *)

From S2P Require Import Prelude Memory Leb LebSpec LinearMemory Opcode Loader LoaderSpec Bytecode CheckSpec CheckControl BlockAddr SkipSpec CheckRound CheckRuns Regions FindBlock Labels Numeric Interp InterpSpec Exec CheckBounds Sound.

(** ** Short memory indices *)

Section short.
Context (module : WASMModule) (func_type : WASMFuncType) (local_types : list value_type).
Context (MT : module_types module func_type local_types).
Abbreviation round := (check_round module func_type local_types).
Abbreviation rstep := (rstep module func_type local_types).

(** Every memory index that the interpreter skips as one byte has one byte: the
    check that the loader lacks, along its rounds. *)
Fixpoint short_rounds (fuel : nat) (c : WASMLoaderContext) : bool :=
  match fuel with
  | O => true
  | S fuel =>
      match p_rest c with
      | [] => true
      | _ => match round c with
             | Some (_, c') => short_bytes (drop (length (p_done c)) (p_done c')) && short_rounds fuel c'
             | None => true
             end
      end
  end.

Definition short_indices (code : bytes) : bool :=
  short_rounds (S (2 * length code)) (start_ctx func_type code).

Lemma short_rounds_run fuel c c1 c2 :
  wf func_type c -> (measure c <= fuel)%nat -> short_rounds fuel c = true -> rtc rstep c c1 -> rstep c1 c2 ->
  short_bytes (drop (length (p_done c1)) (p_done c2)) = true.
Proof.
  intros W Hf Hs Hr. revert fuel W Hf Hs. induction Hr as [c|c c' c1 St _ IH]; intros fuel W Hf Hs Hl.
  - destruct fuel as [|fuel].
    { destruct Hl as [Hne Hr]. destruct (wf_round _ _ _ MT _ _ _ W Hne Hr) as [_ Hm%round_measure]. lia. }
    destruct Hl as [Hne Hr]. cbn in Hs. destruct (p_rest c) eqn:E; [done|]. rewrite Hr in Hs.
    by apply andb_true_iff in Hs as [Hs _].
  - destruct St as [Hne Hr]. destruct (wf_round _ _ _ MT _ _ _ W Hne Hr) as [W' Hm%round_measure].
    destruct fuel as [|fuel]; [lia|]. cbn in Hs. destruct (p_rest c) eqn:E; [done|]. rewrite Hr in Hs.
    apply andb_true_iff in Hs as [_ Hs]. eapply (IH fuel); [done|lia|done..].
Qed.

Lemma short_indices_run code c1 c2 :
  short_indices code = true -> on_run module func_type local_types code c1 -> rstep c1 c2 ->
  short_bytes (drop (length (p_done c1)) (p_done c2)) = true.
Proof.
  intros Hs Hon Hl. eapply short_rounds_run; [by eapply start_wf| |exact Hs|exact Hon|exact Hl].
  rewrite start_measure. lia.
Qed.
End short.

(** ** The module instance *)

Section safety.
Context {S : Type} `{AM : !AppMemory S} `{NF : !Natives S}.
Context (module : WASMModule).
Context (ptr_size : Z) (functions : list WASMFunctionInstance).
Context (global_offsets : list nat) (data_segments : list bytes) (table_segs : list (list Z)).
Context (aux_stack_boundary aux_stack_bottom : Z).
Context (inv : S -> Prop) `{EL : !EnvLaws module inv}.

Abbreviation UINT16 := 65535.

(** A function as the loader leaves it, from the bytes [source]: the types of
    its module and its locals are valid, and the loader has accepted the bytes
    and rewritten them. *)
Record prepared (f : WASMFunction) (source : bytes) : Prop := {
  pr_types : module_types module (Interp.func_type f) (Interp.local_types f);
  pr_values : module_values module (Interp.func_type f) (Interp.local_types f);
  pr_code : wasm_loader_prepare_bytecode module (Interp.func_type f) (Interp.local_types f) source
            = Loaded (code f) (func_max_stack_cell_num f) (func_max_block_num f) (func_br_table_cache f);
  pr_offsets : local_offsets f = init_function_local_offsets (Interp.func_type f) (Interp.local_types f);
  pr_params : Z.of_nat (param_cell_num (Interp.func_type f)) <= UINT16;
  pr_locals : Z.of_nat (local_cell_num f) <= UINT16
}.

(** The functions of a module instance: as the module declares them, the
    imported ones first; the code of two functions does not overlap. Two
    conditions are not checked by the loader: imported functions return at most
    two cells, and the memory indices in the code have one byte. *)
Record instance_ok (source : WASMFunction -> bytes) : Prop := {
  io_ptr : ptr_size = 4 \/ ptr_size = 8;
  io_segments : segments_ok module data_segments table_segs;
  io_types : function_type <$> functions = all_functions module;
  io_import : forall i t, import_function i t ∈ functions ->
    import_functions module !! i = Some t /\ (ret_cell_num t <= 2)%nat /\ Z.of_nat (param_cell_num t) <= UINT16;
  io_prepared : forall f, wasm_function f ∈ functions -> prepared f (source f);
  io_short : forall f, wasm_function f ∈ functions ->
    short_indices module (Interp.func_type f) (Interp.local_types f) (source f) = true;
  io_places : forall f1 f2 a, wasm_function f1 ∈ functions -> wasm_function f2 ∈ functions ->
    code_addr f1 <= a < code_addr f1 + zlen (code f1) ->
    code_addr f2 <= a < code_addr f2 + zlen (code f2) -> f1 = f2
}.

Context (source : WASMFunction -> bytes).

(** The last context of the check of a function. *)
Definition final (f : WASMFunction) : WASMLoaderContext :=
  match check_loop module (Interp.func_type f) (Interp.local_types f) (Datatypes.S (2 * length (source f)))
          (start_ctx (Interp.func_type f) (source f)) with
  | LoopDone c => c
  | _ => loader_ctx_init []
  end.

Lemma prepared_loaded f : ptr_size = 4 \/ ptr_size = 8 -> prepared f (source f) -> loaded module ptr_size source final f.
Proof.
  intros Hp [P1 P2 P3 P4 P5 P6]. pose proof (prepared_small _ _ _ _ _ _ _ _ P3) as [B1 B2].
  destruct (prepare_Some _ _ _ _ _ _ _ _ P3) as (cf & H1 & H2 & H3 & H4 & H5 & H6).
  assert (final f = cf) as Ef by (unfold final; by rewrite H1).
  split; rewrite ?Ef; try done.
  - by eexists.
  - apply Nat2Z.inj_le in B1, B2. change (Z.of_nat UINT16_MAX) with UINT16 in B1, B2.
    unfold func_cells, offsetof_lp, sizeof_WASMBranchBlock.
    assert (Z.of_nat (func_max_block_num f) * (4 * ptr_size) / 4 = Z.of_nat (func_max_block_num f) * ptr_size) as ->.
    { replace (Z.of_nat (func_max_block_num f) * (4 * ptr_size)) with (Z.of_nat (func_max_block_num f) * ptr_size * 4) by lia.
      by apply Z.div_mul. }
    destruct Hp as [-> | ->]; lia.
Qed.

Lemma instance_functions : instance_ok source -> functions_ok module ptr_size functions source final.
Proof.
  intros [I1 I2 I3 I4 I5 I6 I7]. split; try done.
  - intros i t Hi. destruct (I4 i t Hi) as (H1 & H2 & H3). split_and!; [done..|].
    unfold offsetof_lp. destruct I1 as [-> | ->]; lia.
  - intros f Hf. by apply prepared_loaded, I5.
  - intros f c c' Hf. apply short_indices_run; [apply I5, Hf|by apply I6].
  - lia.
Qed.

(** Between calls: what was instantiated is there, with the size of the memory
    that a call starts with, and the cache of the addresses of blocks is right. *)
Definition ready (s : istate S) : Prop :=
  env_ok module global_offsets inv (init_linear_mem_size s)
  /\ cache_ok module functions source final (block_addr_cache s).

Lemma ready_empty s : env_ok module global_offsets inv (init_linear_mem_size s) -> block_addr_cache s = ∅ -> ready s.
Proof. intros He Hc. split; [done|]. rewrite Hc. intros e (i & row & Hi & _). by rewrite lookup_empty in Hi. Qed.

Lemma env_ok_sized s : env_ok module global_offsets inv s -> env_ok module global_offsets inv (init_linear_mem_size s).
Proof.
  intros [V1 V2 V3 V4 V5 V6]. split; try done.
  intros Hm. destruct (V5 Hm) as (m & Em & _). exists m. split; [done|]. cbn. rewrite Em. lia.
Qed.

(** The first frame, over [free] bytes that the caller left. *)
Lemma bytecode_ok fuel f args s :
  instance_ok source -> wasm_function f ∈ functions -> ready s ->
  length args = param_cell_num (Interp.func_type f) -> cells_ok args -> 0 <= wasm_stack_free s < 2 ^ 32 ->
  iwp (wasm_interp_call_func_bytecode ptr_size (types module) functions global_offsets data_segments table_segs
         aux_stack_boundary aux_stack_bottom fuel f args)
    (step_post module ptr_size functions global_offsets inv source final (ret_cell_num (Interp.func_type f))) s.
Proof.
  intros IO Hf Hr Hl Ha Hfree. pose proof (instance_functions IO) as FO.
  pose proof (func_size_bounds _ _ _ _ _ FO f (fo_loaded _ _ _ _ _ FO f Hf)) as Hsz.
  pose proof (fo_ptr _ _ _ _ _ FO) as Hp. destruct Hr as [He Hcache].
  apply iwp_bind, iwp_set. cbv zeta.
  apply iwp_bind, iwp_ALLOC_FRAME; [unfold offsetof_lp in *; lia|done|]. intros Hroom.
  apply iwp_bind, iwp_require; [apply Nat.ltb_lt; by eapply new_frame_blocks|].
  apply iwp_bind, iwp_set, (run_ok module ptr_size functions global_offsets data_segments table_segs
    aux_stack_boundary aux_stack_bottom inv (io_segments _ IO) source final FO).
  destruct (new_frame_ok _ _ _ _ _ FO f args Hf Hl Ha) as [Hfr Hat]. split; [|by left].
  split; cbn [frame set_frame prev_frames set_prev_frames wasm_stack_free set_wasm_stack_free
    block_addr_cache new_frame frame_size function callers_ok]; try done; [|by destruct He].
  change (wasm_stack_free (init_linear_mem_size s)) with (wasm_stack_free s) in *. unfold offsetof_lp in Hsz. lia.
Qed.

(** A call: the results, and the instance afterwards. *)
Lemma call_ok f argv fuel s :
  instance_ok source -> wasm_function f ∈ functions -> ready s -> cells_ok argv ->
  (ret_cell_num (Interp.func_type f) <= length argv)%nat -> wasm_stack_free s < 2 ^ 32 ->
  iwp (wasm_interp_call_wasm ptr_size (types module) functions global_offsets data_segments table_segs
         aux_stack_boundary aux_stack_bottom fuel f argv)
    (fun r s2 => forall argv', r = Some argv' ->
      (exists values, argv' = values ++ drop (length values) argv
                      /\ length values = ret_cell_num (Interp.func_type f) /\ cells_ok values)
      /\ ready s2 /\ wasm_stack_free s2 = wasm_stack_free s) s.
Proof.
  intros IO Hf Hr Ha Hout Hfree. unfold wasm_interp_call_wasm.
  destruct (Nat.ltb_spec (length argv) (param_cell_num (Interp.func_type f))) as [|Hl]; [done|].
  set (args := take _ _). apply iwp_bind, iwp_get, iwp_bind, iwp_bind, iwp_get.
  set (size0 := wasm_interp_interp_frame_size _ _).
  assert (0 <= size0) as H0 by (apply Z.ldiff_nonneg; left; by apply Z.mod_pos_bound).
  destruct (wrap32 _ <? _); [done|]. apply iwp_set, iwp_bind, iwp_get. cbn [wasm_stack_free set_wasm_stack_free].
  destruct (Z.ltb_spec (wasm_stack_free s - size0) (offsetof_lp ptr_size + 4 * zlen args)) as [|Hroom]; [done|].
  set (s1 := set_wasm_stack_free _ s).
  assert (0 <= wasm_stack_free s1 < 2 ^ 32) as H1.
  { pose proof (io_ptr _ IO). unfold offsetof_lp in Hroom. cbn. lia. }
  assert (ready s1) as Hr1 by (destruct Hr as [[] ?]; by split).
  apply iwp_bind. pose proof (bytecode_ok fuel f args s1 IO Hf Hr1) as Hb.
  unfold iwp, free_frames in *. unfold args in *. rewrite length_take in Hb.
  specialize (Hb ltac:(lia) ltac:(by apply Forall_take) H1).
  destruct (wasm_interp_call_func_bytecode _ _ _ _ _ _ _ _ _ _ _ s1) as [[[e|[]] s2]|]; try done.
  destruct Hb as (B1 & B2 & B3 & B4). apply iwp_bind, iwp_get, iwp_bind, iwp_require; [by apply Nat.leb_le|].
  apply iwp_ret. cbn [outs set_wasm_stack_free]. intros argv' [= <-]. split; [|split; [|done]].
  - exists (outs s2). by rewrite B1.
  - split; [|done]. by apply env_ok_sized in B4 as [].
Qed.

(** C6: the loader protects the interpreter, but for the memory indices of
    [memory.init], [memory.copy] and [memory.fill]: these must have one byte
    ([io_short]), which the loader does not check. Take a module instance whose
    functions are what [wasm_loader_prepare_bytecode] left of some bytes with
    such indices, whose imported functions return at most two cells, over a
    linear memory and native functions that keep the laws of [EnvLaws], and a
    call of one of the functions by [wasm_interp_call_wasm]. For any number of instructions, the
    interpreter makes no access outside of the code, the operands, the labels,
    the locals, the globals, the tables, the segments and the linear memory; and
    when it returns, it has stored as many cells in [argv] as the type of the
    function says, its stack is free again, and it is ready for the next call.
    The only fault is a panic of the system below memory or native functions. *)
Theorem loaded_code_is_safe f argv fuel s :
  instance_ok source -> wasm_function f ∈ functions -> ready s -> cells_ok argv ->
  (ret_cell_num (Interp.func_type f) <= length argv)%nat -> wasm_stack_free s < 2 ^ 32 ->
  match wasm_interp_call_wasm ptr_size (types module) functions global_offsets data_segments table_segs
          aux_stack_boundary aux_stack_bottom fuel f argv s with
  | Fault f => only_panic f
  | Ret (inr (Some argv'), s2) =>
      (exists values, argv' = values ++ drop (length values) argv
                      /\ length values = ret_cell_num (Interp.func_type f) /\ cells_ok values)
      /\ ready s2 /\ wasm_stack_free s2 = wasm_stack_free s
  | Ret _ => True
  end.
Proof.
  intros IO Hf Hr Ha Hout Hfree. pose proof (call_ok f argv fuel s IO Hf Hr Ha Hout Hfree) as H. unfold iwp in H.
  destruct (wasm_interp_call_wasm _ _ _ _ _ _ _ _ _ _ _ s) as [[[e|[argv'|]] s2]|]; try done. by apply H.
Qed.

(** C8: [wasm_loader_find_block_addr] and the checker agree on where blocks end.
    On the rewritten code of an accepted function, from the place where the
    checker saw a block begin, the walk over the code finds the [end] that the
    checker matched with it, and for an [if] its [else] or that there is none,
    whatever the cache holds for it; and all that the walk adds to the cache is
    right as well. *)
Theorem find_block_addr_correct f cS oe cE cache label :
  ptr_size = 4 \/ ptr_size = 8 -> prepared f (source f) ->
  block_start module (Interp.func_type f) (Interp.local_types f) (source f) cS ->
  ends module (Interp.func_type f) (Interp.local_types f) (final f) (length (frame_csp cS)) cS oe cE ->
  (forall e, in_cache e cache -> right_of module source final f e) ->
  exists else_addr cache',
    wasm_loader_find_block_addr cache (code_addr f) (code f) (pos cS) label
    = Ret (Some (else_addr, Some (code_addr f + Z.of_nat (pos cE)), cache'))
    /\ (label = LABEL_TYPE_IF -> else_addr = abs (code_addr f) <$> else_pos oe)
    /\ forall e, in_cache e cache' -> right_of module source final f e.
Proof.
  intros Hp P Hs He Hc. pose proof (prepared_loaded _ Hp P) as LD.
  destruct (find_block_addr_ends _ _ _ (ld_types _ _ _ _ _ LD) _ _ (ld_accepts _ _ _ _ _ LD) (ld_final _ _ _ _ _ LD)
    (code_addr f) cache cS oe cE label Hs He) as (ea & cache' & H1 & H2 & H3);
    [intros e Hin _; by apply Hc|].
  exists ea, cache'. rewrite (ld_code _ _ _ _ _ LD). split; [exact H1|]. split; [exact H2|].
  intros e Hin. destruct (H3 e Hin); auto.
Qed.

(** C28: the size of the frame of an accepted function, computed with 32 bits
    from the sizes that the checker has found, does not wrap around: it has room
    for all cells and labels, and twice the size, which [ALLOC_FRAME] compares
    with, has 32 bits as well. *)
Theorem frame_size_exact f :
  ptr_size = 4 \/ ptr_size = 8 -> prepared f (source f) ->
  offsetof_lp ptr_size
    + 4 * (Z.of_nat (param_cell_num (Interp.func_type f) + local_cell_num f + func_max_stack_cell_num f)
           + Z.of_nat (func_max_block_num f) * ptr_size)
    <= func_frame_size ptr_size f < 2 ^ 31.
Proof.
  intros Hp P. pose proof (ld_size _ _ _ _ _ (prepared_loaded _ Hp P)) as Hs.
  assert (0 <= func_cells ptr_size f) as H0.
  { unfold func_cells, sizeof_WASMBranchBlock.
    assert (0 <= Z.of_nat (func_max_block_num f) * (4 * ptr_size) / 4) by (apply Z.div_pos; nia). lia. }
  assert (func_cells ptr_size f = Z.of_nat (param_cell_num (Interp.func_type f) + local_cell_num f
    + func_max_stack_cell_num f) + Z.of_nat (func_max_block_num f) * ptr_size) as <-.
  { unfold func_cells, sizeof_WASMBranchBlock. f_equal.
    replace (Z.of_nat (func_max_block_num f) * (4 * ptr_size)) with (Z.of_nat (func_max_block_num f) * ptr_size * 4) by lia.
    by apply Z.div_mul. }
  apply frame_size_bounds; [lia|exact H0|exact Hs].
Qed.

End safety.

(** C27: [wasm_loader_prepare_bytecode] ends, whatever bytes it is given: its
    loop never uses up the rounds it has in the model, two for each byte of the
    function and one more, so that it ends in an acceptance or an error, and
    with any larger number of rounds it ends the same way. *)
Theorem loader_terminates module func_type local_types code :
  module_types module func_type local_types ->
  wasm_loader_prepare_bytecode module func_type local_types code <> LoadOutOfFuel /\
  forall fuel, (2 * length code < fuel)%nat ->
    check_loop module func_type local_types fuel (start_ctx func_type code) <> LoopOutOfFuel /\
    check_loop module func_type local_types fuel (start_ctx func_type code)
    = check_loop module func_type local_types (S (2 * length code)) (start_ctx func_type code).
Proof.
  intros MT. pose proof (start_measure func_type code) as Hm.
  assert (forall fuel, (2 * length code < fuel)%nat ->
    check_loop module func_type local_types fuel (start_ctx func_type code) <> LoopOutOfFuel) as Hends.
  { intros fuel Hf. apply check_loop_ends; [exact MT|by eapply start_wf|lia]. }
  split; [|intros fuel Hf; split; [by apply Hends|apply check_loop_more; [apply Hends; lia|lia]]].
  unfold wasm_loader_prepare_bytecode. rewrite push_start. pose proof (Hends (S (2 * length code)) ltac:(lia)).
  destruct (check_loop _ _ _ _ _) as [c| |]; [by destruct (csp_num c =? 0)%nat|done..].
Qed.
