(* ===== verification/LoaderRuns.v ===== *)
(** * Runs of the loader and the interpreter

    A module with two functions and a small memory: the theorems on the loader
    and the interpreter at concrete inputs, and inputs on which the two do not
    agree. *)

From S2P Require Import Prelude Memory Leb LebSpec LinearMemory Opcode Loader LoaderSpec Bytecode CheckSpec CheckControl BlockAddr SkipSpec CheckRound CheckRuns Regions FindBlock Labels Numeric Interp InterpSpec Exec CheckBounds Sound Safety.

(** ** A memory of 64 bytes that does not grow, without native functions *)

Definition toy_memory : Type := WASMMemoryInstance * bytes.

#[export] Instance toy_app_memory : AppMemory toy_memory := {
  am_memory s := Some (fst s);
  am_bytes s a := default Byte.x00 (snd s !! Z.to_nat (a - memory_data (fst s)));
  am_write a b s := (fst s, splice (Z.to_nat (a - memory_data (fst s))) b (snd s));
  am_grow _ s := Ret (2 ^ 32 - 1, s)
}.

#[export] Instance toy_natives : Natives toy_memory := { invoke_native _ _ s := Ret (None, s) }.

Definition toy_instance : WASMMemoryInstance := MemoryInstance 64 1 1 64 1000 1064 1000 1000 0 [].

Definition toy_inv (s : toy_memory) : Prop := fst s = toy_instance.

Lemma toy_laws module : EnvLaws module toy_inv.
Proof.
  split.
  - intros e m a b He [= <-] _. split; [exact He|done].
  - intros e m delta He [= <-] _. split; [exact He|]. by exists (fst e).
  - intros e i t args He _ _ _. split_and!; [exact He|by right; eexists|done].
Qed.

(** ** Modules *)

Abbreviation i32 := VALUE_TYPE_I32.
Definition bytes_of (l : list Z) : bytes := byte_of_Z <$> l.

Definition unop : WASMFuncType := FuncType [i32] [i32].

(** The factorial with a loop, and recursively with [if] and a call of itself:
    function 1. *)
Definition loop_code : bytes := bytes_of
  [0x41;1;0x21;1; 0x02;0x40; 0x03;0x40; 0x20;0;0x45;0x0d;1; 0x20;0;0x20;1;0x6c;0x21;1;
   0x20;0;0x41;1;0x6b;0x21;0; 0x0c;0; 0x0b;0x0b; 0x20;1;0x0b].
Definition rec_code : bytes := bytes_of
  [0x20;0;0x04;0x7f;0x20;0;0x20;0;0x41;1;0x6b;0x10;1;0x6c;0x05;0x41;1;0x0b;0x0b].

Definition fact_module : Loader.WASMModule :=
  Loader.WasmModule [unop] [] [unop; unop] [] [] [] [] [] 0 0 0 1 [] 0 0.

Definition build (module : Loader.WASMModule) (addr : Z) (lt : list value_type) (source : bytes) : WASMFunction :=
  match wasm_loader_prepare_bytecode module unop lt source with
  | Loaded cd ms mb br => Function unop lt (init_function_local_offsets unop lt) cd addr ms mb br
  | _ => Function unop lt [] [] addr 0 0 []
  end.

Definition fact_loop : WASMFunction := build fact_module 5000 [i32] loop_code.
Definition fact_rec : WASMFunction := build fact_module 6000 [] rec_code.
Definition fact_functions : list WASMFunctionInstance := [wasm_function fact_loop; wasm_function fact_rec].

Definition fact_source (f : WASMFunction) : bytes := if code_addr f =? 5000 then loop_code else rec_code.

Lemma unop_types module lt :
  types module = [unop] -> Forall (eq unop) (all_functions module) -> all_globals module = [] ->
  all_tables module = [] -> Forall (eq i32) lt -> module_types module unop lt /\ module_values module unop lt.
Proof.
  intros H1 H2 H3 H4 H5. assert (Forall not_any [i32]) as Hi by (by repeat constructor).
  split; split; rewrite ?H1, ?H3, ?H4; try done; try (by repeat constructor).
  - apply Forall_app. split; [by repeat constructor|]. eapply Forall_impl; [exact H2|]. by intros t <-.
  - constructor; [done|]. eapply Forall_impl; [exact H5|]. by intros t <-.
  - constructor; [done|]. eapply Forall_impl; [exact H5|]. by intros t <-.
Qed.

Lemma fact_cases f : wasm_function f ∈ fact_functions -> f = fact_loop \/ f = fact_rec.
Proof.
  assert (forall g h, wasm_function g = wasm_function h -> g = h) as Hinj by (by intros g h [=]).
  unfold fact_functions. intros [H|[H|H]%elem_of_cons]%elem_of_cons; [left|right|by apply not_elem_of_nil in H];
    by apply Hinj.
Qed.

Lemma fact_prepared f : wasm_function f ∈ fact_functions -> prepared fact_module f (fact_source f).
Proof.
  intros [-> | ->]%fact_cases.
  - destruct (unop_types fact_module [i32]) as [H1 H2]; [by repeat constructor..|].
    split; [exact H1|exact H2|by vm_compute..].
  - destruct (unop_types fact_module []) as [H1 H2]; [by repeat constructor..|].
    split; [exact H1|exact H2|by vm_compute..].
Qed.

Lemma fact_instance : instance_ok fact_module 8 fact_functions [] [] fact_source.
Proof.
  split.
  - by right.
  - by split.
  - done.
  - assert (forall i t f, import_function i t <> wasm_function f) as Hne by done.
    unfold fact_functions. intros i t [H|[H|H]%elem_of_cons]%elem_of_cons; [by apply Hne in H..|].
    by apply not_elem_of_nil in H.
  - exact fact_prepared.
  - intros f [-> | ->]%fact_cases; by vm_compute.
  - assert (code_addr fact_loop = 5000 /\ zlen (code fact_loop) = 34 /\ code_addr fact_rec = 6000
      /\ zlen (code fact_rec) = 19) as (E1 & E2 & E3 & E4) by (vm_compute; done).
    intros f1 f2 a [-> | ->]%fact_cases [-> | ->]%fact_cases;
      [intros _ _; reflexivity|rewrite E1, E2, E3, E4; lia..|intros _ _; reflexivity].
Qed.

(** The state before the first call. *)
Definition start_state (f : WASMFunction) : istate toy_memory :=
  State (new_frame f [] 0) [] [] ∅ 10000 [] [] [] [] 64 (toy_instance, replicate 64 Byte.x00).

Lemma start_ready module functions source f :
  all_globals module = [] -> all_tables module = [] -> data_seg_count module = 0 -> table_segments module = [] ->
  ready module functions [] toy_inv source (start_state f).
Proof.
  intros H1 H2 H3 H4. apply ready_empty; [|done]. split; cbn; rewrite ?H1, ?H2, ?H3, ?H4; try done.
  intros _. exists toy_instance. split; [done|]. cbn. lia.
Qed.

Abbreviation call_fact := (wasm_interp_call_wasm 8 [unop] fact_functions [] [] [] 0 0).

(** The results of a call. *)
Definition results (r : outcome (result (option (list Z)) * istate toy_memory)) : option (list Z) :=
  match r with
  | Ret (inr o, _) => o
  | _ => None
  end.

Example fact_loop_5 : results (call_fact 200 fact_loop [5] (start_state fact_loop)) = Some [120].
Proof. by vm_compute. Qed.

Example fact_rec_5 : results (call_fact 200 fact_rec [5] (start_state fact_rec)) = Some [120].
Proof. by vm_compute. Qed.

Lemma loaded_code_is_safe_witness :
  match call_fact 200 fact_rec [5] (start_state fact_rec) with
  | Fault f => only_panic f
  | Ret (inr (Some argv), s2) =>
      (exists values, argv = values ++ drop (length values) [5] /\ length values = 1%nat /\ cells_ok values)
      /\ ready fact_module fact_functions [] toy_inv fact_source s2 /\ wasm_stack_free s2 = 10000
  | Ret _ => True
  end.
Proof.
  apply (loaded_code_is_safe fact_module 8 fact_functions [] [] [] 0 0 toy_inv (EL := toy_laws _) fact_source
    fact_rec [5] 200 (start_state fact_rec)).
  - exact fact_instance.
  - apply elem_of_cons. right. by apply list_elem_of_singleton.
  - by apply start_ready.
  - by repeat constructor.
  - vm_compute. lia.
  - done.
Defined.

Lemma rec_in : wasm_function fact_rec ∈ fact_functions.
Proof. apply elem_of_cons. right. by apply list_elem_of_singleton. Qed.

Lemma find_block_addr_correct_witness : exists cE else_addr cache',
  wasm_loader_find_block_addr ∅ 6000 (code fact_rec) 0 LABEL_TYPE_FUNCTION
  = Ret (Some (else_addr, Some (6000 + Z.of_nat (pos cE)), cache')) /\ pos cE = 18%nat.
Proof.
  assert (8 = 4 \/ 8 = 8) as Hp by (by right).
  pose proof (prepared_loaded _ _ _ _ Hp (fact_prepared _ rec_in)) as LD.
  destruct (run_ends _ _ _ _ _ LD (start_ctx unop rec_code) 1) as (oe & cE & He).
  { apply start_run. }
  { cbn. lia. }
  destruct (find_block_addr_correct fact_module 8 fact_source fact_rec (start_ctx unop rec_code) oe cE ∅
    LABEL_TYPE_FUNCTION) as (ea & cache' & H1 & _).
  - exact Hp.
  - exact (fact_prepared _ rec_in).
  - split; [apply on_run_start|]. by exists (start_block unop), [].
  - exact He.
  - intros e (i & row & Hi & _). by rewrite lookup_empty in Hi.
  - exists cE, ea, cache'. split; [exact H1|]. rewrite (start_end _ _ _ _ _ _ _ LD He).
    by vm_compute.
Defined.

Lemma frame_size_exact_witness : 72 + 4 * (4 + 16) <= func_frame_size 8 fact_rec < 2 ^ 31.
Proof.
  pose proof (frame_size_exact fact_module 8 fact_source fact_rec (or_intror eq_refl) (fact_prepared _ rec_in)) as H.
  unfold offsetof_lp in H. revert H. vm_compute. tauto.
Defined.

Lemma loader_terminates_witness :
  wasm_loader_prepare_bytecode fact_module unop [] rec_code <> LoadOutOfFuel /\
  check_loop fact_module unop [] 1000 (start_ctx unop rec_code) <> LoopOutOfFuel /\
  check_loop fact_module unop [] 1000 (start_ctx unop rec_code)
  = check_loop fact_module unop [] 39 (start_ctx unop rec_code).
Proof.
  destruct (loader_terminates fact_module unop [] rec_code) as [H1 H2].
  - apply (unop_types fact_module []); by repeat constructor.
  - split; [exact H1|]. apply (H2 1000%nat). apply Nat.ltb_lt. reflexivity.
Defined.

(** ** Where the loader does not protect the interpreter *)

(** [memory.fill] with the memory index 0 in four bytes. *)
Definition overlong_code : bytes := bytes_of
  [0x20;0; 0x41;0; 0x41;0; 0xfc;0x0b;0x80;0x80;0x80;0; 0x41;0; 0x0b].

Definition one_module : Loader.WASMModule :=
  Loader.WasmModule [unop] [] [unop] [] [] [] [] [] 0 0 0 1 [] 0 0.

Definition overlong : WASMFunction := build one_module 5000 [] overlong_code.

(** The condition on memory indices is needed: the loader accepts a memory index
    of four bytes behind [memory.fill], the interpreter skips one byte of it
    and goes on with the others, and this run leaves the operand stack. *)
Example overlong_memory_index_escapes :
  (exists cd ms mb br, wasm_loader_prepare_bytecode one_module unop [] overlong_code = Loaded cd ms mb br)
  /\ short_indices one_module unop [] overlong_code = false
  /\ wasm_interp_call_wasm 8 [unop] [wasm_function overlong] [] [] [] 0 0 5 overlong [0]
       (start_state overlong) = Fault UB.
Proof.
  split; [do 4 eexists; by vm_compute|]. split; by vm_compute.
Qed.

Lemma offsets_of_i32 n off i :
  (i < n)%nat -> init_local_offsets off (replicate n i32) !! i = Some ((off + Z.of_nat i) mod 2 ^ 16).
Proof.
  revert off i. induction n as [|n IH]; intros off i Hi; [lia|]. cbn [replicate init_local_offsets].
  destruct i as [|i]; [cbn; by rewrite Z.add_0_r|].
  cbn [lookup list_lookup]. rewrite IH by lia. change (Z.of_nat (wasm_value_type_cell_num i32)) with 1.
  do 2 f_equal. lia.
Qed.

(** Offsets of locals are cut to 16 bits, while a function may have 65535
    cells of parameters and as many of other locals: in a function with two
    parameters and [65535] other locals, the last local is the first
    parameter. *)
Example last_local_is_first_parameter :
  let t := FuncType [i32; i32] [] in
  let locals := replicate (Z.to_nat 65535) i32 in
  init_function_local_offsets t locals !! 0%nat = Some 0
  /\ init_function_local_offsets t locals !! (Z.to_nat 65536) = Some 0.
Proof.
  intros t locals. unfold init_function_local_offsets.
  assert (param_types t ++ locals = replicate (2 + Z.to_nat 65535) i32) as -> by done.
  rewrite !offsets_of_i32 by lia. rewrite Z2Nat.id by lia. done.
Qed.
