(* ===== verification/Wamr.v ===== *)
(** * The WebAssembly runtime as an interface

    The trusted application of WaTZ drives the WAMR runtime through the
    functions of [wasm_export.h]. [WAMR] is that interface; the runtime is
    code of this repository that is not modelled here. This file also has
    the state of the trusted application: its static variables, the output
    buffer of the platform layer, the buffer with the bytecode that it
    shares with the normal world, and the calls it made to the runtime. *)

From S2P Require Import Prelude TeeApi Layout TzPlatform.

(** The values [wasm_runtime_full_init] receives for a pool allocator. *)
Record RuntimeInitArgs := InitArgs {
  pool_heap_buf : option Z;
  pool_heap_size : Z;
  n_native_symbols : Z;
  native_module_name : bytes
}.

Class WAMR := {
  runtime : Type;
  wasm_module_t : Type;
  wasm_module_inst_t : Type;
  (** [sizeof(NativeSymbol)] *)
  sizeof_NativeSymbol : Z;
  wasm_runtime_full_init : RuntimeInitArgs -> runtime -> bool * runtime;
  wasm_runtime_load : bytes -> Z -> runtime -> option wasm_module_t * runtime;
  (** [argv] with NULL pointers as [None]; only the first [argc] are used. *)
  wasm_runtime_set_wasi_args :
    wasm_module_t -> list (option bytes) -> Z -> runtime -> runtime;
  wasm_runtime_instantiate :
    wasm_module_t -> Z -> Z -> runtime -> option wasm_module_inst_t * runtime;
  (** Runs the application: whether it ended without an exception, and the
      calls of [writev] it made in order. *)
  wasm_application_execute_main :
    wasm_module_inst_t -> runtime -> bool * list (Z * list bytes) * runtime;
  wasm_runtime_deinstantiate : wasm_module_inst_t -> runtime -> runtime;
  wasm_runtime_unload : wasm_module_t -> runtime -> runtime;
  wasm_runtime_destroy : runtime -> runtime
}.

(** The calls of the trusted application to the runtime, with their effect. *)
Inductive rt_event :=
| EvInit (ok : bool)
| EvLoad (bytecode : bytes) (ok : bool)
| EvInstantiate (ok : bool)
| EvExecute (ok : bool) (writes : list (Z * list bytes))
| EvDeinstantiate
| EvUnload
| EvDestroy.

(** Where the bytecode of a context lives: a block of secure memory, or the
    buffer shared with the normal world. *)
Inductive bytecode_ref :=
| Secure (b : bytes)
| SharedBuffer.

Record wamr_context {R : WAMR} := WamrContext {
  wasm_bytecode : bytecode_ref;
  wasm_bytecode_size : Z;
  wasm_bytecode_hash : bytes;
  heap_buf : option Z;
  ctx_heap_size : Z;
  module : option wasm_module_t;
  module_inst : option wasm_module_inst_t;
  native_symbols_size : Z;
  ctx_initial_linear_memory_size : Z
}.
Arguments wamr_context R : clear implicits.

(** The normal world may rewrite its shared buffer at any time: [shared n] is
    what the [n]-th access of the trusted application reads. *)
Record watz {R : WAMR} := Watz {
  heap_size : Z;
  initial_linear_memory_size : Z;
  singleton_wamr_context : bool;
  out : output;
  rt : runtime;
  shared : nat -> bytes;
  accesses : nat;
  trace : list rt_event
}.
Arguments watz R : clear implicits.

Section state.
Context {R : WAMR}.

Definition set_heap_size (v : Z) (s : watz R) : watz R :=
  Watz _ v (initial_linear_memory_size s) (singleton_wamr_context s) (out s) (rt s) (shared s)
    (accesses s) (trace s).
Definition set_initial_linear_memory_size (v : Z) (s : watz R) : watz R :=
  Watz _ (heap_size s) v (singleton_wamr_context s) (out s) (rt s) (shared s) (accesses s)
    (trace s).
Definition set_singleton_wamr_context (v : bool) (s : watz R) : watz R :=
  Watz _ (heap_size s) (initial_linear_memory_size s) v (out s) (rt s) (shared s) (accesses s)
    (trace s).
Definition set_out (v : output) (s : watz R) : watz R :=
  Watz _ (heap_size s) (initial_linear_memory_size s) (singleton_wamr_context s) v (rt s)
    (shared s) (accesses s) (trace s).
Definition set_rt (v : runtime) (e : list rt_event) (s : watz R) : watz R :=
  Watz _ (heap_size s) (initial_linear_memory_size s) (singleton_wamr_context s) (out s) v
    (shared s) (accesses s) (trace s ++ e).
Definition set_accesses (v : nat) (s : watz R) : watz R :=
  Watz _ (heap_size s) (initial_linear_memory_size s) (singleton_wamr_context s) (out s) (rt s)
    (shared s) v (trace s).

Definition set_module (v : option wasm_module_t) (c : wamr_context R) : wamr_context R :=
  WamrContext _ (wasm_bytecode c) (wasm_bytecode_size c) (wasm_bytecode_hash c) (heap_buf c)
    (ctx_heap_size c) v (module_inst c) (native_symbols_size c)
    (ctx_initial_linear_memory_size c).
Definition set_module_inst (v : option wasm_module_inst_t) (c : wamr_context R)
    : wamr_context R :=
  WamrContext _ (wasm_bytecode c) (wasm_bytecode_size c) (wasm_bytecode_hash c) (heap_buf c)
    (ctx_heap_size c) (module c) v (native_symbols_size c) (ctx_initial_linear_memory_size c).
Definition set_wasm_bytecode_hash (v : bytes) (c : wamr_context R) : wamr_context R :=
  WamrContext _ (wasm_bytecode c) (wasm_bytecode_size c) v (heap_buf c) (ctx_heap_size c)
    (module c) (module_inst c) (native_symbols_size c) (ctx_initial_linear_memory_size c).
End state.

Section calls.
Context `{T : TEE} `{R : WAMR} `{P : Platform}.

Abbreviation W := (world tee (watz R)).

(** A call of the runtime that is recorded. *)
Definition rcall {A} (f : runtime -> A * runtime) (e : A -> list rt_event) : M W A :=
  s ← ctx;
  let '(a, r) := f (rt s) in
  set_ctx (set_rt r (e a));;
  mret a.

(** An access to the shared buffer; its length is fixed by the caller. *)
Definition read_shared (n : Z) : M W bytes :=
  s ← ctx;
  b ← get_some (bread (shared s (accesses s)) n);
  set_ctx (set_accesses (S (accesses s)));;
  mret b.

(** The bytecode of a context as the runtime or a digest reads it. *)
Definition read_bytecode (c : wamr_context R) : M W bytes :=
  match wasm_bytecode c with
  | Secure b => get_some (bread b (wasm_bytecode_size c))
  | SharedBuffer => read_shared (wasm_bytecode_size c)
  end.

(** A function of the platform layer, on its part of the state. *)
Definition on_output {A} (m : M (world tee output) A) : M W A := fun w =>
  match m (World (w_tee w) (out (w_ctx w))) with
  | Ret (a, World t o) => Ret (a, World t (set_out o (w_ctx w)))
  | Fault f => Fault f
  end.

(** The writes of the application, in order. *)
Fixpoint write_all (l : list (Z * list bytes)) : M W () :=
  match l with
  | [] => mret tt
  | (fd, iov) :: l =>
      _ ← on_output (writev fd iov);
      write_all l
  end.
End calls.
