(* ===== verification/WatzTA241.v ===== *)
(** * The trusted application that runs WebAssembly (2.4.1)

    [watz/ta/main.c] and [watz/ta/wasm.c] of the version on WAMR 2.4.1. The
    macros [NO_COPY] and [FRIEDRICH_OPENSSL] of the build are variables; both
    are off in the Makefile. The native functions that [FRIEDRICH_OPENSSL]
    exports to applications are [Host_GenerateKey], [Host_Encrypt] and
    [Host_Decrypt]. [DEBUG_MESSAGE], [FRIEDRICH_DEBUG] and [PROFILING_*] are
    off. *)

From S2P Require Import Prelude TeeApi Layout KeyDerivation TzPlatform Wamr.

Definition COMMAND_RUN_WASM : Z := 0.
Definition COMMAND_CONFIGURE_HEAP : Z := 1.
Definition COMMAND_CONFIGURE_LINEAR_MEMORY : Z := 2.

(** ** Native functions exported to applications *)

Class TEE_Asymmetric (T : TEE) := {
  (** The result and [keySize]. *)
  TEE_GetObjectInfo1 : handle -> call tee (TEE_Result * Z);
  TEE_AsymmetricEncrypt : handle -> bytes -> Z -> call tee out_buffer;
  TEE_AsymmetricDecrypt : handle -> bytes -> Z -> call tee out_buffer
}.

Section natives.
Context `{T : TEE} `{A : !TEE_Asymmetric T} {C : Type}.

(** The result and [*key] when it is written. *)
Definition Host_GenerateKey (key_size : Z) : M (world tee C) (TEE_Result * option handle) :=
  '(res, o) ← tcall (TEE_AllocateTransientObject TEE_TYPE_RSA_KEYPAIR key_size);
  let local_key := default TEE_HANDLE_NULL o in
  if failed res then mret (res, None) else
  res ← tcall (TEE_GenerateKey local_key key_size []);
  if failed res then
    tcall (TEE_FreeTransientObject local_key);;
    mret (res, None)
  else mret (TEE_SUCCESS, Some local_key).

(** The call that both functions end with, once the key is in the
    operation. The application's buffer [dest] has been checked for
    [destLen] bytes; the capacity the call gets is [*requestedLen]. *)
Definition crypt (crypt_call : handle -> M (world tee C) out_buffer) (mode : TEE_OperationMode)
    (key : handle) (dest : bytes) (requestedLen : Z)
    : M (world tee C) (TEE_Result * bytes * Z) :=
  if key =? TEE_HANDLE_NULL then mret (TEE_ERROR_BAD_STATE, dest, requestedLen) else
  '(res, keySize) ← tcall (TEE_GetObjectInfo1 key);
  if failed res then mret (res, dest, requestedLen) else
  '(res, o) ← tcall (TEE_AllocateOperation TEE_ALG_RSAES_PKCS1_V1_5 mode keySize);
  let op := default TEE_HANDLE_NULL o in
  if failed res then mret (res, dest, requestedLen) else
  res ← tcall (TEE_SetOperationKey op key);
  if failed res then tcall (TEE_FreeOperation op);; mret (res, dest, requestedLen) else
  r ← crypt_call op;
  dest ← get_some (bwrite (ob_data r) dest);
  tcall (TEE_FreeOperation op);;
  mret (ob_res r, dest, ob_size r).

(** [src] is a C string, whose length [strlen] finds; the result, the buffer
    and [*requestedLen]. *)
Definition Host_Encrypt (key : handle) (src dest : bytes) (requestedLen : Z)
    : M (world tee C) (TEE_Result * bytes * Z) :=
  crypt (fun op => s ← get_some (c_string src); tcall (TEE_AsymmetricEncrypt op s requestedLen))
    TEE_MODE_ENCRYPT key dest requestedLen.

Definition Host_Decrypt (key : handle) (src dest : bytes) (requestedLen : Z)
    : M (world tee C) (TEE_Result * bytes * Z) :=
  crypt (fun op => tcall (TEE_AsymmetricDecrypt op src requestedLen))
    TEE_MODE_DECRYPT key dest requestedLen.
End natives.

Section ta.
Context `{T : TEE} `{R : WAMR} `{P : Platform}.
Context (NO_COPY FRIEDRICH_OPENSSL : bool).

Abbreviation W := (world tee (watz R)).

(** ** [wasm.c] *)

Definition TA_SetOutputBuffer (output_buffer : bytes) (output_buffer_size : Z) : M W () :=
  set_ctx (set_out (watz_set_output_buffer output_buffer output_buffer_size)).

(** The result and the context with the digest stored in it. *)
Definition TA_HashWasmBytecode (c : wamr_context R) : M W (TEE_Result * wamr_context R) :=
  let out res c operation_handle := free_operation operation_handle;; mret (res, c) in
  '(res, o) ← tcall (TEE_AllocateOperation TEE_ALG_SHA256 TEE_MODE_DIGEST 0);
  let operation_handle := written o (Some TEE_HANDLE_NULL) in
  if failed res then out res c operation_handle else
  op ← get_some operation_handle;
  b ← read_bytecode c;
  r ← tcall (TEE_DigestDoFinal op b RA_HASH_SIZE);
  h ← get_some (bwrite (ob_data r) (wasm_bytecode_hash c));
  let c := set_wasm_bytecode_hash h c in
  if failed (ob_res r) then out (ob_res r) c operation_handle else
  if negb (ob_size r =? RA_HASH_SIZE / 8) then out TEE_ERROR_GENERIC c operation_handle else
  out (ob_res r) c operation_handle.

(** The result and the context, whose module and instance it sets. *)
Definition TA_InitializeWamrRuntime (c : wamr_context R) (argc : Z)
    (argv : list (option bytes)) : M W (TEE_Result * wamr_context R) :=
  let init_args := InitArgs (heap_buf c) (ctx_heap_size c)
    (native_symbols_size c / sizeof_NativeSymbol) [Byte.x65; Byte.x6e; Byte.x76] in
  ok ← rcall (wasm_runtime_full_init init_args) (fun ok => [EvInit ok]);
  if negb ok then mret (TEE_ERROR_GENERIC, c) else
  b ← read_bytecode c;
  m ← rcall (wasm_runtime_load b (wasm_bytecode_size c))
        (fun m => [EvLoad b (bool_decide (is_Some m))]);
  let c := set_module m c in
  match m with
  | None => mret (TEE_ERROR_GENERIC, c)
  | Some m =>
      rcall (fun r => (tt, wasm_runtime_set_wasi_args m argv argc r)) (fun _ => []);;
      i ← rcall (wasm_runtime_instantiate m 8092 (ctx_initial_linear_memory_size c))
            (fun i => [EvInstantiate (bool_decide (is_Some i))]);
      let c := set_module_inst i c in
      match i with
      | None => mret (TEE_ERROR_GENERIC, c)
      | Some _ =>
          set_ctx (set_singleton_wamr_context true);;
          mret (TEE_SUCCESS, c)
      end
  end.

Definition TA_ExecuteWamrRuntime (c : wamr_context R) : M W TEE_Result :=
  i ← get_some (module_inst c);
  '(ok, writes) ← rcall (wasm_application_execute_main i) (fun '(ok, writes) => [EvExecute ok writes]);
  write_all writes;;
  if negb ok then mret TEE_ERROR_GENERIC else
  mret TEE_SUCCESS.

Definition TA_TearDownWamrRuntime (c : wamr_context R) : M W () :=
  set_ctx (set_singleton_wamr_context false);;
  match module_inst c with
  | Some i => rcall (fun r => (tt, wasm_runtime_deinstantiate i r)) (fun _ => [EvDeinstantiate])
  | None => mret tt
  end;;
  match module c with
  | Some m => rcall (fun r => (tt, wasm_runtime_unload m r)) (fun _ => [EvUnload])
  | None => mret tt
  end;;
  rcall (fun r => (tt, wasm_runtime_destroy r)) (fun _ => [EvDestroy]).

(** ** [main.c] *)

Definition TA_CreateEntryPoint : M W TEE_Result := mret TEE_SUCCESS.

Definition TA_DestroyEntryPoint : M W () := mret tt.

Definition TA_OpenSessionEntryPoint (types : param_types) : M W TEE_Result :=
  if negb (bool_decide (types = no_params)) then mret TEE_ERROR_BAD_PARAMETERS else
  mret TEE_SUCCESS.

Definition TA_CloseSessionEntryPoint : M W () := mret tt.

Definition TA_SetHeapSize (size : Z) : M W TEE_Result :=
  set_ctx (set_heap_size size);;
  mret TEE_SUCCESS.

Definition TA_SetLinearMemory (size : Z) : M W TEE_Result :=
  set_ctx (set_initial_linear_memory_size size);;
  mret TEE_SUCCESS.

(** A pointer that [TEE_Malloc] returned, for [TEE_Free]. *)
Definition free_block (p : option (Z * bytes)) : M W () :=
  match p with
  | Some (a, _) => tcall (TEE_Free a)
  | None => mret tt
  end.

(** [TEE_MemMove] from the shared buffer into a new block; NULL cannot be
    written. *)
Definition copy_shared (p : option (Z * bytes)) (n : Z) : M W bytes :=
  b ← read_shared n;
  match p with
  | Some (_, d) => get_some (bwrite b d)
  | None => require (n =? 0);; mret []
  end.

(** The three exported functions. *)
Definition sizeof_native_symbols : Z := 3 * sizeof_NativeSymbol.

(** The copy is made but the context keeps the shared buffer. *)
Definition TA_RunWasm (wasm_bytecode_size : Z) (arg_buff : option bytes)
    (output_buffer : bytes) (output_buffer_size : Z) : M W TEE_Result :=
  let wasm_bytecode_size := wrap32 wasm_bytecode_size in
  s ← ctx;
  global_heap_buf ← tcall (TEE_Malloc (heap_size s));
  trusted_wasm_bytecode ← (if NO_COPY then mret None
                           else tcall (TEE_Malloc wasm_bytecode_size));
  (if NO_COPY then mret tt
   else _ ← copy_shared trusted_wasm_bytecode wasm_bytecode_size; mret tt);;
  TA_SetOutputBuffer output_buffer output_buffer_size;;
  let context := WamrContext R SharedBuffer wasm_bytecode_size (zeros 32)
    (fst <$> global_heap_buf) (heap_size s) None None
    (if FRIEDRICH_OPENSSL then sizeof_native_symbols else 0)
    (initial_linear_memory_size s) in
  let argc := match arg_buff with Some _ => 2 | None => 1 end in
  let argv := [Some [Byte.x00]; arg_buff] in
  let error result context :=
    TA_TearDownWamrRuntime context;;
    free_block global_heap_buf;;
    (if NO_COPY then mret tt else free_block trusted_wasm_bytecode);;
    mret result in
  '(result, context) ← TA_InitializeWamrRuntime context argc argv;
  if failed result then error result context else
  result ← TA_ExecuteWamrRuntime context;
  if failed result then error result context else
  error result context.

(** The bytecode is the shared buffer of [params[0]]: its size is the first
    parameter's, its bytes are read from [shared]. *)
Definition TA_InvokeCommandEntryPoint (cmd_id : Z) (types : param_types)
    (params : list ta_param) : M W TEE_Result :=
  if cmd_id =? COMMAND_RUN_WASM then
    if negb (bool_decide (types = (TEE_PARAM_TYPE_MEMREF_INPUT, TEE_PARAM_TYPE_MEMREF_INPUT,
                                   TEE_PARAM_TYPE_MEMREF_INOUT, TEE_PARAM_TYPE_MEMREF_INOUT)))
    then mret TEE_ERROR_BAD_PARAMETERS else
    match params with
    | [PMemref bytecode; arg; PMemref output; PMemref _] =>
        arg_buff ← match arg with
                   | PMemref a => mret (Some a)
                   | PMemrefNull => mret None
                   | _ => undefined
                   end;
        TA_RunWasm (zlen bytecode) arg_buff output (zlen output)
    | _ => undefined
    end
  else if cmd_id =? COMMAND_CONFIGURE_HEAP then
    if negb (bool_decide (types = (TEE_PARAM_TYPE_VALUE_INPUT, TEE_PARAM_TYPE_NONE,
                                   TEE_PARAM_TYPE_NONE, TEE_PARAM_TYPE_NONE)))
    then mret TEE_ERROR_BAD_PARAMETERS else
    match params with
    | PValue a _ :: _ => TA_SetHeapSize a
    | _ => undefined
    end
  else if cmd_id =? COMMAND_CONFIGURE_LINEAR_MEMORY then
    if negb (bool_decide (types = (TEE_PARAM_TYPE_VALUE_INPUT, TEE_PARAM_TYPE_NONE,
                                   TEE_PARAM_TYPE_NONE, TEE_PARAM_TYPE_NONE)))
    then mret TEE_ERROR_BAD_PARAMETERS else
    match params with
    | PValue a _ :: _ => TA_SetLinearMemory a
    | _ => undefined
    end
  else mret TEE_ERROR_BAD_PARAMETERS.
End ta.
