(* ===== verification/DebugPrint.v ===== *)
(** * Debug output of byte arrays

    [utils_print_byte_array] prints an array in hexadecimal. The attester's
    ([remote_attestation.c]) prints lines of at most 50 bytes; the verifier's
    ([verifier.c], and the same text in [wasm.c]) prints one line. The block
    they format into has three characters per byte. *)

From S2P Require Import Prelude TeeApi Layout.

Definition UINT8_DIGIT_MAX_SIZE : nat := 2.
Definition MAX_NUMBER_OF_BYTES_PER_LINE : nat := 50.

(** [snprintf(buffer + off, n, "%02x ", b)]: at most [n - 1] characters and a
    NUL are stored; the result is the length of the whole text. *)
Definition hex_text (b : byte) : bytes :=
  [hex_digit (Z_of_byte b / 16); hex_digit (Z_of_byte b mod 16); Byte.x20].

Definition snprintf_hex (buffer : bytes) (off : nat) (n : nat) (b : byte) : bytes * nat :=
  let stored := match n with
                | O => []
                | S n => take n (hex_text b) ++ [Byte.x00]
                end in
  (splice off stored buffer, 3%nat).

(** [buffer[i] = '\0']: undefined outside the block. *)
Definition terminate (buffer : bytes) (i : nat) : option bytes :=
  if (i <? length buffer)%nat then Some (splice i [Byte.x00] buffer) else None.

(** The loop over the bytes of one line. *)
Fixpoint print_line (bytes_left : nat) (buffer : bytes) (buffer_len buffer_cursor : nat)
    (arr : bytes) : bytes * nat * bytes :=
  match bytes_left, arr with
  | S bytes_left, b :: arr =>
      let '(buffer, n) := snprintf_hex buffer buffer_cursor (buffer_len - buffer_cursor) b in
      print_line bytes_left buffer buffer_len (buffer_cursor + n) arr
  | _, _ => (buffer, buffer_cursor, arr)
  end.

(** The lines printed by the attester's [utils_print_byte_array] with the
    block [buffer]; [None] is undefined behaviour. *)
Fixpoint print_lines (fuel : nat) (buffer : bytes) (arr : bytes) : option (list bytes) :=
  match arr with
  | [] => Some []
  | _ =>
    match fuel with
    | O => None
    | S fuel =>
      let '(buffer, cursor, arr) :=
        print_line MAX_NUMBER_OF_BYTES_PER_LINE buffer (length buffer) 0 arr in
      buffer ← terminate buffer cursor;
      line ← c_string buffer;
      lines ← print_lines fuel buffer arr;
      Some (line :: lines)
    end
  end.

Section print.
Context `{T : TEE} {C : Type}.

(** Every round of the loop prints at least one byte, so the number of bytes
    bounds the rounds. The lines are returned instead of logged. *)
Definition attester_print_byte_array (byte_array : bytes) : M (world tee C) (list bytes) :=
  let buffer_len := (UINT8_DIGIT_MAX_SIZE * MAX_NUMBER_OF_BYTES_PER_LINE
                     + MAX_NUMBER_OF_BYTES_PER_LINE)%nat in
  p ← tcall (TEE_Malloc (Z.of_nat buffer_len));
  let buffer := match p with Some (_, b) => b | None => [] end in
  lines ← get_some (print_lines (length byte_array) buffer byte_array);
  match p with
  | Some (a, _) => tcall (TEE_Free a)
  | None => mret tt
  end;;
  mret lines.

Definition verifier_print_byte_array (byte_array : bytes) : M (world tee C) bytes :=
  let byte_array_len := length byte_array in
  let buffer_len := (UINT8_DIGIT_MAX_SIZE * byte_array_len + byte_array_len)%nat in
  p ← tcall (TEE_Malloc (Z.of_nat buffer_len));
  '(a, buffer) ← get_some p;
  let '(buffer, cursor, _) := print_line byte_array_len buffer buffer_len 0 byte_array in
  buffer ← get_some (terminate buffer cursor);
  line ← get_some (c_string buffer);
  tcall (TEE_Free a);;
  mret line.
End print.
