(* ===== verification/Host.v ===== *)
(** * Programs of the normal world

    The host programs run as Linux processes. Their state is what they can
    observe and change outside their own variables: the trusted application
    behind the TEE client library, the connection, the files, and the
    standard output. A run ends with a value, with [exit], or with undefined
    behaviour of the C code; [exit] keeps the state, so that what happened
    before it can be stated.

    The TEE client library is code outside this repository: [TEEC] is its
    interface and [TEEC_Link] its documented behaviour, that a command that
    reports success has run the entry point of the trusted application. The
    results of the operating system's calls are drawn from [host_env]. *)

From Stdlib Require Import Strings.String.
From S2P Require Import Prelude TeeApi.
From stdpp Require Import base list.
#[local] Open Scope Z_scope.

(** ** The TEE client API *)

Definition TEEC_NONE : TEE_ParamType := TEE_PARAM_TYPE_NONE.
Definition TEEC_VALUE_INPUT : TEE_ParamType := TEE_PARAM_TYPE_VALUE_INPUT.
Definition TEEC_VALUE_OUTPUT : TEE_ParamType := TEE_PARAM_TYPE_VALUE_OUTPUT.
Definition TEEC_MEMREF_TEMP_INPUT : TEE_ParamType := TEE_PARAM_TYPE_MEMREF_INPUT.
Definition TEEC_MEMREF_TEMP_OUTPUT : TEE_ParamType := TEE_PARAM_TYPE_MEMREF_OUTPUT.
Definition TEEC_MEMREF_TEMP_INOUT : TEE_ParamType := TEE_PARAM_TYPE_MEMREF_INOUT.

Class TEEC := {
  teec : Type;
  TEEC_InitializeContext : teec -> TEE_Result * teec;
  TEEC_OpenSession : Z -> teec -> TEE_Result * teec;
  TEEC_InvokeCommand :
    Z -> param_types -> list ta_param -> teec -> TEE_Result * list ta_param * teec;
  TEEC_CloseSession : teec -> teec;
  TEEC_FinalizeContext : teec -> teec
}.

(** What the trusted application receives for a parameter of the host: the
    same value or bytes, except that the contents of an output buffer are
    not transferred. *)
Inductive passed : TEE_ParamType -> ta_param -> ta_param -> Prop :=
| passed_same ty p : passed ty p p
| passed_output b b' :
    length b = length b' ->
    passed TEE_PARAM_TYPE_MEMREF_OUTPUT (PMemref b) (PMemref b')
| passed_value a b a' b' :
    passed TEE_PARAM_TYPE_VALUE_OUTPUT (PValue a b) (PValue a' b').

Definition passed_all (types : param_types) (ps qs : list ta_param) : Prop :=
  let '(t0, t1, t2, t3) := types in Forall3 passed [t0; t1; t2; t3] ps qs.

(** A session with a trusted application whose state is [W] and whose entry
    point is [invoke]. *)
Class TEEC_Link (L : TEEC) (W : Type)
    (invoke : Z -> param_types -> list ta_param -> M W (TEE_Result * list ta_param)) := {
  ta_state : teec -> option W;
  link_InvokeCommand cmd types ps t ps' t' :
    TEEC_InvokeCommand cmd types ps t = ((TEE_SUCCESS, ps'), t') ->
    exists qs w w', passed_all types ps qs /\ ta_state t = Some w /\
      invoke cmd types qs w = Ret ((TEE_SUCCESS, ps'), w') /\ ta_state t' = Some w'
}.

(** ** The environment of a process *)

Record host_env := HostEnv {
  (** Bytes the peer has sent, and how many of them each [read] delivers. *)
  e_incoming : bytes;
  e_reads : list nat;
  (** How many bytes each [write] accepts; all of them past the list. *)
  e_writes : list nat;
  (** Whether each [malloc] fails, and the contents of fresh memory. *)
  e_malloc_fails : list bool;
  e_memory : nat -> byte;
  (** The files that can be opened. *)
  e_files : bytes -> option bytes;
  (** Results of [socket], [bind], [listen] and [accept]. *)
  e_socket : Z;
  e_bind : Z;
  e_listen : Z;
  e_accept : Z
}.

Record host_state (X : Type) := HostState {
  h_teec : X;
  h_env : host_env;
  h_sent : bytes;
  h_stdout : list bytes
}.
Arguments HostState {X} h_teec h_env h_sent h_stdout.
Arguments h_teec {X} h.
Arguments h_env {X} h.
Arguments h_sent {X} h.
Arguments h_stdout {X} h.

(** ** The monad of host programs *)

Inductive host_result (S A : Type) :=
| HRet (a : A) (s : S)
| HExit (code : Z) (s : S)
| HFault (f : fault).
Arguments HRet {S A} a s.
Arguments HExit {S A} code s.
Arguments HFault {S A} f.

Definition H (S A : Type) : Type := S -> host_result S A.

#[export] Instance H_ret S : MRet (H S) := fun A a s => HRet a s.

#[export] Instance H_bind S : MBind (H S) := fun A B k m s =>
  match m s with
  | HRet a s' => k a s'
  | HExit code s' => HExit code s'
  | HFault f => HFault f
  end.

Definition exit {S A} (code : Z) : H S A := fun s => HExit code s.
Definition hundefined {S A} : H S A := fun _ => HFault UB.
Definition hget {S} : H S S := fun s => HRet s s.
Definition hput {S} (f : S -> S) : H S () := fun s => HRet tt (f s).
Definition hsome {S A} (o : option A) : H S A :=
  match o with
  | Some a => mret a
  | None => hundefined
  end.

(** Hoare triples for host programs: [Q] after a return, [X] after [exit]. *)
Definition hwp {S A} (m : H S A) (Q : A -> S -> Prop) (X : Z -> S -> Prop) (s : S) : Prop :=
  match m s with
  | HRet a s' => Q a s'
  | HExit code s' => X code s'
  | HFault _ => False
  end.

Section hwp_rules.
Context {S : Type}.
Implicit Types s : S.

Lemma hwp_ret {A} (a : A) Q X s : Q a s -> hwp (mret a) Q X s.
Proof. done. Qed.

Lemma hwp_bind {A B} (m : H S A) (k : A -> H S B) Q X s :
  hwp m (fun a => hwp (k a) Q X) X s -> hwp (m ≫= k) Q X s.
Proof. unfold hwp, mbind, H_bind. by destruct (m s). Qed.

Lemma hwp_mono {A} (m : H S A) (Q Q' : A -> S -> Prop) (X X' : Z -> S -> Prop) s :
  hwp m Q X s -> (forall a s', Q a s' -> Q' a s') -> (forall c s', X c s' -> X' c s') ->
  hwp m Q' X' s.
Proof. unfold hwp. destruct (m s); auto. Qed.

Lemma hwp_exit {A} code Q X s : X code s -> hwp (exit code : H S A) Q X s.
Proof. done. Qed.

Lemma hwp_get Q X s : Q s s -> hwp hget Q X s.
Proof. done. Qed.

Lemma hwp_put f Q X s : Q tt (f s) -> hwp (hput f) Q X s.
Proof. done. Qed.

Lemma hwp_some {A} (o : option A) Q X s :
  (exists a, o = Some a /\ Q a s) -> hwp (hsome o) Q X s.
Proof. by intros (a & -> & HQ). Qed.
End hwp_rules.

(** ** The C library and the system calls the programs use *)

Definition to_bytes (s : string) : bytes := String.list_byte_of_string s.

Section libc.
Context {X : Type}.
Abbreviation S := (host_state X).

Definition set_env (f : host_env -> host_env) (s : S) : S :=
  HostState (h_teec s) (f (h_env s)) (h_sent s) (h_stdout s).
Definition set_teec (t : X) (s : S) : S :=
  HostState t (h_env s) (h_sent s) (h_stdout s).

Definition printf (b : bytes) : H S () :=
  hput (fun s => HostState (h_teec s) (h_env s) (h_sent s) (h_stdout s ++ [b])).

(** [errx] prints on the standard error and exits. *)
Definition errx {A} (code : Z) : H S A := exit code.

Definition hteec {A} (f : X -> A * X) : H S A :=
  s ← hget;
  let '(a, t) := f (h_teec s) in
  hput (set_teec t);;
  mret a.

(** A block of [n] bytes with arbitrary contents, or NULL. *)
Definition malloc (n : Z) : H S (option bytes) :=
  s ← hget;
  let e := h_env s in
  hput (set_env (fun e => HostEnv (e_incoming e) (e_reads e) (e_writes e)
    (tail (e_malloc_fails e)) (e_memory e) (e_files e) (e_socket e) (e_bind e)
    (e_listen e) (e_accept e)));;
  if default false (head (e_malloc_fails e)) then mret None
  else mret (Some (e_memory e <$> seq 0 (Z.to_nat n))).

(** [read(fd, buff, n)]: some of the bytes that have arrived, at most [n],
    are stored at the start of the buffer. An error and the end of the
    stream store nothing. *)
Definition read (buff : bytes) (n : Z) : H S bytes :=
  s ← hget;
  let e := h_env s in
  let k := Nat.min (default 0%nat (head (e_reads e)))
             (Nat.min (Z.to_nat n) (length (e_incoming e))) in
  hput (set_env (fun e => HostEnv (drop k (e_incoming e)) (tail (e_reads e)) (e_writes e)
    (e_malloc_fails e) (e_memory e) (e_files e) (e_socket e) (e_bind e)
    (e_listen e) (e_accept e)));;
  if (k <=? length buff)%nat then mret (splice 0 (take k (e_incoming e)) buff)
  else hundefined.

(** [write(fd, buff, n)]: reading past the end of the buffer is undefined. *)
Definition write (buff : bytes) (n : Z) : H S () :=
  if n <=? zlen buff then
    s ← hget;
    let e := h_env s in
    let k := match head (e_writes e) with
             | Some k => Nat.min k (Z.to_nat n)
             | None => Z.to_nat n
             end in
    hput (fun s => HostState (h_teec s)
      (HostEnv (e_incoming e) (e_reads e) (tail (e_writes e)) (e_malloc_fails e)
        (e_memory e) (e_files e) (e_socket e) (e_bind e) (e_listen e) (e_accept e))
      (h_sent s ++ take k buff) (h_stdout s))
  else hundefined.
End libc.

(** [atoi]: optional white space and sign, then digits; a value that is not
    an [int] is undefined. *)
Definition is_space (b : byte) : bool :=
  bool_decide (b = Byte.x20) || ((9 <=? Z_of_byte b) && (Z_of_byte b <=? 13)).

Definition is_digit (b : byte) : bool := (48 <=? Z_of_byte b) && (Z_of_byte b <=? 57).

Fixpoint digits (acc : Z) (b : bytes) : Z :=
  match b with
  | [] => acc
  | x :: b => if is_digit x then digits (10 * acc + (Z_of_byte x - 48)) b else acc
  end.

Fixpoint skip_spaces (b : bytes) : bytes :=
  match b with
  | [] => []
  | x :: b' => if is_space x then skip_spaces b' else b
  end.

Definition atoi (b : bytes) : option Z :=
  let n := match skip_spaces b with
           | [] => 0
           | x :: b => if bool_decide (x = Byte.x2d) then - digits 0 b
                       else if bool_decide (x = Byte.x2b) then digits 0 b
                       else digits 0 (x :: b)
           end in
  if (- 2 ^ 31 <=? n) && (n <? 2 ^ 31) then Some n else None.

Example atoi_decimal : atoi (to_bytes " -42kB"%string) = Some (-42).
Proof. reflexivity. Qed.

(** ** Printing of result codes *)

Definition result_code (res : TEE_Result) : Z :=
  match res with
  | TEE_SUCCESS => 0
  | TEE_ERROR_GENERIC => 0xFFFF0000
  | TEE_ERROR_BAD_PARAMETERS => 0xFFFF0006
  | TEE_ERROR_BAD_STATE => 0xFFFF0007
  | TEE_ERROR_COMMUNICATION => 0xFFFF000E
  | TEE_ERROR_SECURITY => 0xFFFF000F
  | TEE_ERROR_SHORT_BUFFER => 0xFFFF0010
  | TEE_ERROR_MAC_INVALID => 0xFFFF3071
  | TEE_ERROR_SIGNATURE_INVALID => 0xFFFF3072
  | TEE_OTHER code => code
  end.

(** [%x] of an unsigned 32-bit value, which has at most eight digits. *)
Fixpoint hex (n : nat) (z : Z) (acc : bytes) : bytes :=
  match n with
  | O => acc
  | S n => let acc := hex_digit (z mod 16) :: acc in
           if z / 16 =? 0 then acc else hex n (z / 16) acc
  end.

Definition format_x (z : Z) : bytes := hex 8 (wrap32 z) [].

Example format_x_bad_parameters :
  format_x (result_code TEE_ERROR_BAD_PARAMETERS) = to_bytes "ffff0006"%string.
Proof. reflexivity. Qed.
