(* ===== verification/VerifierHost.v ===== *)
(** * The verifier's host program

    [vedliot_verifier/host/main.c]: a TCP server for one connection that
    forwards the attester's messages to the verifier's trusted application
    and sends back what it prepares. The build has [PROFILING_*] off and
    [CFG_TEE_TA_LOG_LEVEL] below 3, so [dprintf] prints nothing. *)

From Stdlib Require Import Strings.String.
From S2P Require Import Prelude TeeApi Layout KeyDerivation Verifier VerifierTA Host.
From stdpp Require Import base list.
#[local] Open Scope Z_scope.

(** [SECRET_DATA] with its terminating NUL. *)
Definition SECRET_DATA : bytes :=
  to_bytes "Patience is a key element of success."%string ++ [Byte.x00].

Definition VEDLIOT_VERIFIER_TA_UUID : Z := 0x526461e2d34a4d968ca37fb9f4b898ef.

Definition msg_not_valid : bytes := to_bytes "The quote is NOT valid."%string ++ [Byte.x0a].
Definition msg_socket_failed : bytes :=
  to_bytes "socket creation failed..."%string ++ [Byte.x0a].
Definition msg_bind_failed : bytes := to_bytes "socket bind failed..."%string ++ [Byte.x0a].
Definition msg_listen_failed : bytes := to_bytes "Listen failed..."%string ++ [Byte.x0a].
Definition msg_accept_failed : bytes :=
  to_bytes "server acccept failed..."%string ++ [Byte.x0a].

Section host.
Context `{L : TEEC}.
(** [sizeof(size_t)] in the normal world. *)
Context (sizeof_host_size_t : nat).

Abbreviation S := (host_state teec).

Definition sizeof_host_msg3 : Z := 48 + Z.of_nat sizeof_host_size_t.

Definition prepare_tee_session : H S () :=
  res ← hteec TEEC_InitializeContext;
  if failed res then errx 1 else
  res ← hteec (TEEC_OpenSession VEDLIOT_VERIFIER_TA_UUID);
  if failed res then errx 1 else
  mret tt.

Definition bootstrap_secret (secret : bytes) : H S () :=
  '(res, _) ← hteec (TEEC_InvokeCommand VERIFIER_COMMAND_BOOTSTRAP_SECRET
    (TEEC_MEMREF_TEMP_INPUT, TEEC_NONE, TEEC_NONE, TEEC_NONE)
    [PMemref secret; PNone; PNone; PNone]);
  if failed res then errx 1 else
  mret tt.

Definition receive_msg0 (buffer : bytes) : H S () :=
  '(res, _) ← hteec (TEEC_InvokeCommand VERIFIER_COMMAND_HANDLE_MSG_0
    (TEEC_MEMREF_TEMP_INPUT, TEEC_NONE, TEEC_NONE, TEEC_NONE)
    [PMemref buffer; PNone; PNone; PNone]);
  if failed res then errx 1 else
  mret tt.

(** The buffer after the call, and the size of the message in it. *)
Definition prepare_msg1 (buffer : bytes) : H S (bytes * Z) :=
  '(res, ps) ← hteec (TEEC_InvokeCommand VERIFIER_COMMAND_PREPARE_MSG_1
    (TEEC_MEMREF_TEMP_OUTPUT, TEEC_VALUE_OUTPUT, TEEC_NONE, TEEC_NONE)
    [PMemref buffer; PValue 0 0; PNone; PNone]);
  if failed res then errx 1 else
  match ps with
  | PMemref buffer :: PValue a _ :: _ => mret (buffer, a)
  | _ => hundefined
  end.

Definition receive_msg2 (buffer benchmark_buffer : bytes) : H S bytes :=
  '(res, ps) ← hteec (TEEC_InvokeCommand VERIFIER_COMMAND_HANDLE_MSG_2
    (TEEC_MEMREF_TEMP_INPUT, TEEC_VALUE_OUTPUT, TEEC_MEMREF_TEMP_OUTPUT, TEEC_NONE)
    [PMemref buffer; PValue 0 0; PMemref benchmark_buffer; PNone]);
  if failed res then errx 1 else
  match ps with
  | _ :: PValue a _ :: PMemref benchmark_buffer :: _ =>
      (if a =? 0 then printf msg_not_valid else mret tt);;
      mret benchmark_buffer
  | _ => hundefined
  end.

Definition prepare_msg3 (buffer benchmark_buffer : bytes) : H S (bytes * bytes) :=
  '(res, ps) ← hteec (TEEC_InvokeCommand VERIFIER_COMMAND_PREPARE_MSG_3
    (TEEC_MEMREF_TEMP_OUTPUT, TEEC_MEMREF_TEMP_OUTPUT, TEEC_NONE, TEEC_NONE)
    [PMemref buffer; PMemref benchmark_buffer; PNone; PNone]);
  if failed res then errx 1 else
  match ps with
  | PMemref buffer :: PMemref benchmark_buffer :: _ => mret (buffer, benchmark_buffer)
  | _ => hundefined
  end.

(** [bzero] of a NULL block is undefined. *)
Definition malloc_zeroed (n : Z) : H S bytes :=
  p ← malloc n;
  b ← hsome p;
  mret (zeros (length b)).

Definition handle_connection (secret_size : Z) : H S () :=
  let buff_size := wrap_size sizeof_host_size_t
    (secret_size + sizeof_host_msg3 + RA_AES_GCM_CIPHERTEXT_OVERHEAD) in
  buff ← malloc_zeroed buff_size;
  benchmark_buffer ← malloc_zeroed 256;
  buff ← read buff buff_size;
  receive_msg0 buff;;
  '(buff, msg1_size) ← prepare_msg1 buff;
  write buff msg1_size;;
  buff ← read buff buff_size;
  benchmark_buffer ← receive_msg2 buff benchmark_buffer;
  '(buff, benchmark_buffer) ← prepare_msg3 buff benchmark_buffer;
  write buff buff_size;;
  text ← hsome (c_string benchmark_buffer);
  printf text.

Definition start_verifier_server (secret_size : Z) : H S () :=
  s ← hget;
  if e_socket (h_env s) =? -1 then printf msg_socket_failed;; exit 0 else
  if negb (e_bind (h_env s) =? 0) then printf msg_bind_failed;; exit 0 else
  if negb (e_listen (h_env s) =? 0) then printf msg_listen_failed;; exit 1 else
  if e_accept (h_env s) <? 0 then printf msg_accept_failed;; exit 1 else
  handle_connection secret_size.

Definition terminate_tee_session : H S () :=
  hteec (fun t => (tt, TEEC_CloseSession t));;
  hteec (fun t => (tt, TEEC_FinalizeContext t)).

(** The exit status. *)
Definition main (argv : list bytes) : H S Z :=
  secret ← match argv with
           | [_; size] =>
               n ← hsome (atoi size);
               let secret_size := wrap_size sizeof_host_size_t n in
               p ← malloc secret_size;
               match p with
               | Some b => mret (replicate (length b) Byte.x41)
               | None => if secret_size =? 0 then mret [] else hundefined
               end
           | _ => mret SECRET_DATA
           end;
  prepare_tee_session;;
  bootstrap_secret secret;;
  start_verifier_server (zlen secret);;
  terminate_tee_session;;
  mret 0.
End host.
