(* ===== verification/WatzHost241.v ===== *)
(** * The host program that runs WebAssembly (2.4.1)

    [watz/host/main.c] of the 2.4.1 version: it loads a module from a file
    into a shared buffer, runs it in the trusted application and prints the
    captured output. [PROFILING_LAUNCH_TIME] and [FRIEDRICH_DEBUG] are off. *)

From Stdlib Require Import Strings.String.
From S2P Require Import Prelude TeeApi Layout WatzTA241 Host.
From stdpp Require Import base list.
#[local] Open Scope Z_scope.

Definition TA_WAMR_UUID : Z := 0xbc20728a6a2849d898d8f22e7535f137.

(** [tee_ctx], less the handles of the client library: NULL is [None]. *)
Record tee_ctx := TeeCtx {
  output_buffer : option bytes;
  output_buffer_size : Z;
  benchmark_buffer : option bytes;
  benchmark_buffer_size : Z
}.

Definition msg_heap : bytes :=
  to_bytes "The heap size of WaTZ cannot be configured. Error: "%string.
Definition msg_linear_memory : bytes :=
  to_bytes "The initial_linear_memory of the Wasm-binary cannot be configured. Error: "%string.
Definition msg_open (path : bytes) : bytes :=
  to_bytes "ERROR: the file "%string ++ path
    ++ to_bytes " cannot be opened."%string ++ [Byte.x0a].
Definition msg_args : bytes :=
  to_bytes "ERROR: The number of arguments does not match."%string ++ [Byte.x0a].
Definition msg_syntax (argv0 : bytes) : bytes :=
  to_bytes "SYNTAX: "%string ++ argv0
    ++ to_bytes " heap_size initial_linear_memory wasm_path [wasm_arg]"%string ++ [Byte.x0a].

Section host.
Context `{L : TEEC}.

Abbreviation S := (host_state teec).

Definition prepare_tee_session : H S () :=
  res ← hteec TEEC_InitializeContext;
  if failed res then errx 1 else
  res ← hteec (TEEC_OpenSession TA_WAMR_UUID);
  if failed res then errx 1 else
  mret tt.

Definition configure_heap_size (size : Z) : H S () :=
  '(res, _) ← hteec (TEEC_InvokeCommand COMMAND_CONFIGURE_HEAP
    (TEEC_VALUE_INPUT, TEEC_NONE, TEEC_NONE, TEEC_NONE) [PValue size 0; PNone; PNone; PNone]);
  if failed res then printf (msg_heap ++ format_x (result_code res)) else
  mret tt.

Definition configure_linear_memory (size : Z) : H S () :=
  '(res, _) ← hteec (TEEC_InvokeCommand COMMAND_CONFIGURE_LINEAR_MEMORY
    (TEEC_VALUE_INPUT, TEEC_NONE, TEEC_NONE, TEEC_NONE) [PValue size 0; PNone; PNone; PNone]);
  if failed res then printf (msg_linear_memory ++ format_x (result_code res)) else
  mret tt.

Definition allocate_buffers (buffers_size : Z) : H S tee_ctx :=
  o ← malloc buffers_size;
  b ← malloc buffers_size;
  mret (TeeCtx o buffers_size b buffers_size).

Definition memref (b : option bytes) : ta_param :=
  match b with
  | Some b => PMemref b
  | None => PMemrefNull
  end.

(** The buffers after the command, and the result. *)
Definition start_wasm (c : tee_ctx) (wasm_path : bytes) (arg : option bytes)
    : H S (bool * tee_ctx) :=
  s ← hget;
  match e_files (h_env s) wasm_path with
  | None =>
      printf (msg_open wasm_path);;
      mret (false, c)
  | Some wasm_file =>
      p ← malloc (zlen wasm_file);
      wasm_bytecode ← match p with
                      | Some b => hsome (if (length wasm_file <=? length b)%nat
                                         then Some (splice 0 wasm_file b) else None)
                      | None => if zlen wasm_file =? 0 then mret [] else hundefined
                      end;
      '(res, ps) ← hteec (TEEC_InvokeCommand COMMAND_RUN_WASM
        (TEEC_MEMREF_TEMP_INPUT, TEEC_MEMREF_TEMP_INPUT,
         TEEC_MEMREF_TEMP_INOUT, TEEC_MEMREF_TEMP_INOUT)
        [PMemref wasm_bytecode; memref arg; memref (output_buffer c);
         memref (benchmark_buffer c)]);
      if failed res then errx 1 else
      match ps with
      | [_; _; PMemref o; PMemref b] =>
          mret (true, TeeCtx (Some o) (output_buffer_size c) (Some b) (benchmark_buffer_size c))
      | _ => mret (true, c)
      end
  end.

Definition terminate_tee_session : H S () :=
  hteec (fun t => (tt, TEEC_CloseSession t));;
  hteec (fun t => (tt, TEEC_FinalizeContext t)).

(** [printf("%s%s", ...)] reads both buffers up to a NUL. *)
Definition print_buffers (c : tee_ctx) : H S () :=
  b ← hsome (benchmark_buffer c ≫= c_string);
  o ← hsome (output_buffer c ≫= c_string);
  printf (b ++ o).

Definition free_buffers (c : tee_ctx) : H S tee_ctx :=
  mret (TeeCtx (output_buffer c) 0 (benchmark_buffer c) 0).

(** The exit status; [argv] includes the name of the program. *)
Definition main (argv : list bytes) : H S Z :=
  match argv with
  | _ :: heap_arg :: linear_arg :: wasm_path :: rest =>
      heap_size ← hsome (atoi heap_arg);
      initial_linear_memory ← hsome (atoi linear_arg);
      let arg := head rest in
      c ← allocate_buffers (5 * 1024);
      prepare_tee_session;;
      configure_heap_size (wrap32 heap_size);;
      configure_linear_memory (wrap32 initial_linear_memory);;
      '(success, c) ← start_wasm c wasm_path arg;
      terminate_tee_session;;
      print_buffers c;;
      c ← free_buffers c;
      mret (if success : bool then 0 else 1)
  | _ =>
      printf msg_args;;
      printf (msg_syntax (default [] (head argv)));;
      exit 1
  end.
End host.
