(* ===== verification/TeeLogic.v ===== *)
(** * Symbolic execution of trusted applications

    The rules and tactics the correctness proofs of the attester and the
    verifier share. [grows] is the frame of an operation: the objects, the
    operations and the sockets that existed before it are untouched. The
    tactic [tee_step] executes one API call and, when the call reported
    success, replaces it by what [TEE_Spec] promises about it. *)

From S2P Require Import Prelude TeeApi TeeSpec Layout KeyDerivation.

(** ** Frames *)

Record grows (v v' : tee_view) : Prop := Grows {
  grows_objs : v_objs v ⊆ v_objs v';
  grows_ops : v_ops v ⊆ v_ops v';
  grows_socks : v_socks v' = v_socks v
}.

#[export] Instance grows_preorder : PreOrder grows.
Proof.
  split.
  - intros v. by split.
  - intros v1 v2 v3 [o1 p1 s1] [o2 p2 s2].
    split; [by etrans|by etrans|congruence].
Qed.

Lemma grows_obj v v' h o : grows v v' -> v_objs v !! h = Some o -> v_objs v' !! h = Some o.
Proof. intros [H _ _] Ho. exact (lookup_weaken _ _ _ _ Ho H). Qed.

Lemma grows_fresh v v' h : grows v v' -> v_objs v' !! h = None -> v_objs v !! h = None.
Proof. intros [H _ _] Ho. exact (lookup_weaken_None _ _ _ Ho H). Qed.

(** A postcondition that only speaks about success. *)
Definition on_success {S A} (res : A -> TEE_Result) (Q : A -> S -> Prop) (a : A) (s : S) : Prop :=
  res a = TEE_SUCCESS -> Q a s.

Lemma wp_failed {S A} (res : A -> TEE_Result) Q (m : M S A) r s :
  failed r = true -> wp any_fault m (fun a _ => res a = r) s ->
  wp any_fault m (on_success res Q) s.
Proof.
  intros Hf Hm. apply (wp_mono _ _ _ _ _ Hm). intros a s' Ha Hs.
  rewrite Ha in Hs. by rewrite Hs in Hf.
Qed.

(** Calling a function of the component and returning its error. *)
Lemma wp_seq {S A} (m : M S TEE_Result) (P : TEE_Result -> S -> Prop) (f : TEE_Result -> A)
    (k : TEE_Result -> M S A) res Q s :
  wp any_fault m (on_success id P) s ->
  (forall r, res (f r) = r) ->
  (forall s', P TEE_SUCCESS s' -> wp any_fault (k TEE_SUCCESS) (on_success res Q) s') ->
  wp any_fault (r ← m; if failed r then mret (f r) else k r) (on_success res Q) s.
Proof.
  intros Hm Hf Hk. apply wp_bind. apply (wp_mono _ _ _ _ _ Hm).
  intros r s' Hr. destruct (failed r) eqn:Hfail.
  - apply wp_ret. intros Hs. rewrite Hf in Hs. by subst r.
  - apply failed_false in Hfail. subst r. apply Hk. by apply Hr.
Qed.

(** A sequence of checked calls can be cut into two functions. *)
Lemma cut_checked {S A} (m m2 : M S TEE_Result) (k k1 : M S A) (f : TEE_Result -> A) :
  (forall s, k1 s = (r ← m2; if failed r then mret (f r) else k) s) ->
  forall s, (r ← m; if failed r then mret (f r) else k1) s =
    (r ← (r ← m; if failed r then mret r else m2); if failed r then mret (f r) else k) s.
Proof.
  intros Hk s. unfold mbind, M_bind. destruct (m s) as [[r s']|e]; [|done].
  destruct (failed r) eqn:Hf; [cbn; by rewrite Hf|apply Hk].
Qed.

(** A property of the result that does not depend on the state. *)
Lemma wp_any_bind {S A B} (m : M S A) (k : A -> M S B) (Q : B -> Prop) (s : S) :
  (forall a s', wp any_fault (k a) (fun b _ => Q b) s') ->
  wp any_fault (m ≫= k) (fun b _ => Q b) s.
Proof. intros Hk. apply wp_bind. unfold wp at 1. destruct (m s) as [[a s']|f]; [apply Hk|done]. Qed.

Section free_rules.
Context `{T : TEE} {C : Type}.
Implicit Types w : world tee C.

(** In partial correctness a call is followed whatever it returns. *)
Lemma wp_tcall_any {A} (c : call tee A) Q w :
  (forall a t, c (w_tee w) = Some (a, t) -> Q a (World t (w_ctx w))) ->
  wp any_fault (tcall c) Q w.
Proof. intros H. apply wp_tcall; [done|]. by intros _. Qed.
End free_rules.

(** ** Tactics *)

(** A failing branch frees what it holds and returns the error. *)
Ltac wp_cleanup :=
  repeat (lazymatch goal with |- wp _ _ _ _ => idtac end; first
    [ progress cbv beta iota zeta
    | apply wp_bind
    | apply wp_tcall_any; intros ? ? ?
    | apply wp_get_some; [intros ? ?|by intros _]
    | apply wp_require; [intros ?|by intros _]
    | apply wp_set_ctx
    | apply wp_ctx
    | apply wp_ret ]);
  simpl; try done.

(** Facts about fresh handles, pushed through the updates of a map. *)
Ltac fresh_facts :=
  repeat match goal with
  | H : <[_ := _]> _ !! _ = None |- _ => apply lookup_insert_None in H; destruct H
  end.

(** Reads a handle back from the updates of a map. *)
Ltac lookup_facts :=
  repeat match goal with
  | H : <[?h := _]> _ !! ?h = Some _ |- _ =>
      rewrite lookup_insert_eq in H; injection H as H; subst
  | H : <[?g := _]> _ !! ?h = Some _ |- _ =>
      rewrite lookup_insert_ne in H by congruence
  | H : delete ?g _ !! ?h = Some _ |- _ =>
      rewrite lookup_delete_ne in H by congruence
  end.

(** Closes a goal that a map contains another one up to fresh handles. *)
Ltac map_frame :=
  apply map_subseteq_spec; intros ?i ?x ?Hi;
  repeat first
    [ rewrite lookup_insert_ne by congruence
    | rewrite lookup_delete_ne by congruence ];
  assumption.

Ltac split_facts :=
  repeat match goal with
  | H : exists _, _ |- _ => destruct H
  | H : _ /\ _ |- _ => destruct H
  | H : Some _ = Some _ |- _ => injection H as H
  | H : None = Some _ |- _ => discriminate H
  end; subst.

(** The current state of the TEE is kept as an explicit [View]. *)
Ltac view_norm :=
  repeat match goal with
  | Hv : view ?t = View _ _ _, H : context [view ?t] |- _ =>
      lazymatch H with Hv => fail | _ => rewrite Hv in H end
  end;
  unfold set_obj, del_obj, set_op, del_op, set_sock, del_sock, with_key, with_acc, with_iv in *;
  cbn [v_objs v_ops v_socks p_alg p_mode p_key p_acc p_iv o_type o_attrs w_tee w_ctx
       k_peer k_sent k_read app] in *;
  fresh_facts; lookup_facts;
  cbn [p_alg p_mode p_key p_acc p_iv o_type o_attrs k_peer k_sent k_read app] in *;
  repeat match goal with
  | H : ?a = ?a |- _ => clear H
  | H : context [<[?h := _]> (<[?h := _]> _)] |- _ => rewrite insert_insert_eq in H
  | Hv : view ?t = View _ _ _ |- _ => clear Hv; clear t
  end.

Ltac learn_as H p :=
  let H' := fresh in pose proof p as H'; clear H; rename H' into H.

(** Replaces a successful call by its specification. *)
Ltac learn_call H :=
  lazymatch type of H with
  | TEE_AllocateTransientObject _ _ _ = Some ((TEE_SUCCESS, _), _) =>
      apply spec_AllocateTransientObject in H
  | TEE_FreeTransientObject _ _ = _ => apply spec_FreeTransientObject in H
  | TEE_PopulateTransientObject _ _ _ = Some (TEE_SUCCESS, _) =>
      apply spec_PopulateTransientObject in H
  | TEE_GenerateKey _ _ _ _ = Some (TEE_SUCCESS, _) =>
      apply spec_GenerateKey in H
  | TEE_GetObjectBufferAttribute _ _ _ _ = Some (?r, _) =>
      lazymatch goal with Hr : ob_res r = TEE_SUCCESS |- _ =>
        learn_as H (spec_GetObjectBufferAttribute _ _ _ _ _ _ H Hr) end
  | TEE_AllocateOperation _ _ _ _ = Some ((TEE_SUCCESS, _), _) =>
      apply spec_AllocateOperation in H
  | TEE_FreeOperation _ _ = _ => apply spec_FreeOperation in H
  | TEE_ResetOperation _ _ = _ => apply spec_ResetOperation in H
  | TEE_SetOperationKey _ _ _ = Some (TEE_SUCCESS, _) =>
      apply spec_SetOperationKey in H
  | TEE_DigestUpdate _ _ _ = _ => apply spec_DigestUpdate in H
  | TEE_DigestDoFinal _ _ _ _ = Some (?r, _) =>
      lazymatch goal with Hr : ob_res r = TEE_SUCCESS |- _ =>
        learn_as H (spec_DigestDoFinal _ _ _ _ _ _ H Hr) end
  | TEE_MACInit _ _ = _ => apply spec_MACInit in H
  | TEE_MACUpdate _ _ _ = _ => apply spec_MACUpdate in H
  | TEE_MACComputeFinal _ _ _ _ = Some (?r, _) =>
      lazymatch goal with Hr : ob_res r = TEE_SUCCESS |- _ =>
        learn_as H (spec_MACComputeFinal _ _ _ _ _ _ H Hr) end
  | TEE_MACCompareFinal _ _ _ _ = Some (TEE_SUCCESS, _) =>
      apply spec_MACCompareFinal in H
  | TEE_DeriveKey _ _ _ _ = _ => apply spec_DeriveKey in H
  | TEE_AsymmetricSignDigest _ _ _ _ = Some (?r, _) =>
      lazymatch goal with Hr : ob_res r = TEE_SUCCESS |- _ =>
        learn_as H (spec_AsymmetricSignDigest _ _ _ _ _ _ H Hr) end
  | TEE_AsymmetricVerifyDigest _ _ _ _ = Some (TEE_SUCCESS, _) =>
      apply spec_AsymmetricVerifyDigest in H
  | TEE_AEInit _ _ _ _ = Some (TEE_SUCCESS, _) =>
      apply spec_AEInit in H
  | TEE_AEEncryptFinal _ _ _ _ _ = Some ((?r, _, _), _) =>
      lazymatch goal with Hr : ob_res r = TEE_SUCCESS |- _ =>
        learn_as H (spec_AEEncryptFinal _ _ _ _ _ _ _ _ _ H Hr) end
  | TEE_AEDecryptFinal _ _ _ _ _ = Some (?r, _) =>
      lazymatch goal with Hr : ob_res r = TEE_SUCCESS |- _ =>
        learn_as H (spec_AEDecryptFinal _ _ _ _ _ _ _ H Hr) end
  | TEE_GenerateRandom _ _ = _ => apply spec_GenerateRandom in H
  | TEE_Malloc _ _ = _ => apply spec_Malloc in H
  | TEE_Free _ _ = _ => apply spec_Free in H
  | TEE_OpenTASession _ _ = _ => apply spec_OpenTASession in H
  | TEE_CloseTASession _ _ = _ => apply spec_CloseTASession in H
  | TEE_InvokeTACommand _ _ _ _ = _ => apply spec_InvokeTACommand in H
  | tcp_open _ _ _ = Some ((TEE_SUCCESS, _), _) =>
      apply spec_tcp_open in H
  | tcp_send _ _ _ = Some ((TEE_SUCCESS, _), _) =>
      apply spec_tcp_send in H
  | tcp_recv _ _ _ = Some (?r, _) =>
      lazymatch goal with Hr : ob_res r = TEE_SUCCESS |- _ =>
        learn_as H (spec_tcp_recv _ _ _ _ _ H Hr) end
  | tcp_close _ _ = _ => apply spec_tcp_close in H
  end.

Ltac learn := match goal with H : _ = Some (_, ?t) |- _ => learn_call H end;
  split_facts; view_norm.

Ltac split_pairs :=
  repeat match goal with
  | p : _ * _ |- _ => destruct p
  | u : () |- _ => destruct u
  end.

Ltac call_step := apply wp_tcall_any; intros ?a ?t ?H; split_pairs.

(** One step of symbolic execution under partial correctness. *)
Ltac tee_step :=
  lazymatch goal with |- wp _ _ _ _ => idtac end;
  first
    [ progress cbv beta iota zeta
    | apply wp_bind
    | call_step
    | apply wp_get_some; [intros ? ?; split_pairs|by intros _]
    | apply wp_require; [intros ?|by intros _]
    | apply wp_set_ctx
    | apply wp_ctx
    | lazymatch goal with
      | |- wp _ (store_handle _ ?o) _ _ =>
          destruct o; [apply wp_set_ctx|apply wp_ret]
      | |- wp _ (mret _) (fun a => wp _ (@?k a) _) _ => apply wp_ret
      | |- wp _ (with_handle _ _) _ _ => unfold with_handle
      | |- wp _ (free_operation _) _ _ => unfold free_operation
      | |- wp _ (free_object _) _ _ => unfold free_object
      | |- wp _ (if failed ?r then _ else _) _ _ =>
          let Hf := fresh "Hf" in
          destruct (failed r) eqn:Hf;
          [apply (wp_failed _ _ _ r); [exact Hf|wp_cleanup]
          |apply failed_false in Hf; try subst r]
      end ];
  cbv beta iota zeta; cbn [w_tee w_ctx written] in *; try learn.

(** A test of a size that returns an error when it fails. *)
Ltac size_check :=
  lazymatch goal with
  | |- wp _ (if negb (?a =? ?b) then _ else _) _ _ =>
      let Hz := fresh "Hz" in
      destruct (Z.eqb_spec a b) as [Hz|Hz]; cbn [negb];
      [|solve [apply (wp_failed _ _ _ TEE_ERROR_GENERIC); [reflexivity|wp_cleanup]]]
  end.

(** The end of a function, where its result was TEE_SUCCESS. *)
Ltac tee_return :=
  apply wp_ret;
  let Hs := fresh "Hs" in
  intros Hs; cbn [id fst snd] in Hs; try subst;
  repeat learn; view_norm; cbn [w_tee w_ctx].

(** Attributes of objects and keys whose attributes are explicit. *)
Ltac attr_facts :=
  unfold key_attr, obj_attr in *;
  cbn [p_key mbind option_bind o_attrs attr_buffer keypair_attrs] in *;
  repeat match goal with
  | H : context [decide (?a = ?a)] |- _ => rewrite (decide_True _ _ (eq_refl a)) in H
  | H : context [decide (?a = ?b)] |- _ => rewrite (decide_False (P := a = b)) in H by done
  | H : Some _ = Some _ |- _ => injection H as H
  end; subst.

(** Reads an object of the current view. *)
Ltac view_lookup :=
  match goal with Hv : view ?t = View _ _ _ |- context [view ?t] => rewrite Hv end;
  cbn [v_objs v_ops v_socks];
  repeat first
    [ rewrite lookup_insert_eq
    | rewrite lookup_insert_ne by congruence
    | rewrite lookup_delete_ne by congruence ];
  try reflexivity; try congruence.

(** Reads a handle that may or may not be the one just written; the case
    that contradicts the attributes that were read is closed. *)
Ltac lookup_cases :=
  repeat match goal with
  | H : <[_ := _]> _ !! _ = Some _ |- _ =>
      apply lookup_insert_Some in H; destruct H as [[? ?]|[? ?]]; subst;
      [try (attr_facts; discriminate)|]
  end.

Ltac grows_solve :=
  match goal with Hv : view ?t = View _ _ _ |- grows _ (view ?t) => rewrite Hv end;
  split; cbn [v_objs v_ops v_socks]; [map_frame|map_frame|done].

Section buffer_facts.
Implicit Types d b : bytes.

Lemma bread_all d b : bread d (zlen d) = Some b -> b = d.
Proof.
  unfold bread. destruct (Z.leb_spec 0 (zlen d)); [|lia].
  rewrite Z.leb_refl. simpl. intros [= <-]. apply take_ge. lia.
Qed.

Lemma bwrite_all d b e : bwrite d b = Some e -> length d = length b -> e = d.
Proof. intros H Hl. rewrite bwrite_full in H by done. congruence. Qed.
End buffer_facts.

Section mac_facts.
Context `{K : Crypto}.

(** The MAC computed into a tag buffer and read back with its size. *)
Lemma mac_read_back k d m b :
  bwrite (aes_cmac k d) (zeros 16) = Some m -> bread m 16 = Some b -> b = aes_cmac k d.
Proof.
  intros Hw%bwrite_all; [|by rewrite length_aes_cmac, length_zeros]. subst m.
  pose proof (bread_all (aes_cmac k d) b) as Hr. rewrite length_aes_cmac in Hr. done.
Qed.

(** The digest computed into a buffer and read back with its size. *)
Lemma digest_read_back d b : bread (sha256 d) 32 = Some b -> b = sha256 d.
Proof. intros H. apply bread_all. by rewrite length_sha256. Qed.
End mac_facts.

(** The bytes read from the buffers that API calls filled. *)
Ltac buffer_facts :=
  attr_facts;
  repeat match goal with
  | Hs : ob_size ?r = zlen (ob_data ?r), H : bread (ob_data ?r) (ob_size ?r) = Some ?b |- _ =>
      rewrite Hs in H; apply bread_all in H; try subst b
  | Hw : bwrite (ob_data ?r) (zeros 16) = Some ?m, Hd : ob_data ?r = aes_cmac _ _,
    Hs : ob_size ?r = 16, H : bread ?m (ob_size ?r) = Some ?b |- _ =>
      rewrite Hs in H; rewrite Hd in Hw; apply (mac_read_back _ _ _ _ Hw) in H; try subst b
  | Hd : ob_data ?r = sha256 _, Hs : ob_size ?r = 32,
    H : bread (ob_data ?r) (ob_size ?r) = Some ?b |- _ =>
      rewrite Hs in H; rewrite Hd in H; apply digest_read_back in H; try subst b
  end;
  repeat match goal with
  | H : context [(_ ++ _) ++ _] |- _ => rewrite <- (app_assoc _ _ _) in H
  end.

(** Closes the conjuncts of a postcondition that are known facts. *)
Ltac known := repeat first [eassumption | reflexivity | split; [first [eassumption | reflexivity]|]].

(** ** Invariants of the context

    [keeps I m]: whatever the calls of the TEE return, [m] preserves [I]. *)

Section keeps.
Context `{T : TEE} {C : Type} (I : C -> Prop).

Definition keeps {A} (m : M (world tee C) A) : Prop :=
  forall w, I (w_ctx w) -> wp any_fault m (fun _ w' => I (w_ctx w')) w.

Lemma keeps_ret {A} (a : A) : keeps (mret a).
Proof. by intros w Hw. Qed.

Lemma keeps_bind {A B} (m : M (world tee C) A) (k : A -> M (world tee C) B) :
  keeps m -> (forall a, keeps (k a)) -> keeps (m ≫= k).
Proof. intros Hm Hk w Hw. apply wp_bind. eapply wp_mono; [by apply Hm|]. intros a w'. apply Hk. Qed.

Lemma keeps_ctx {B} (k : C -> M (world tee C) B) :
  (forall c, I c -> keeps (k c)) -> keeps (ctx ≫= k).
Proof. intros Hk w Hw. apply wp_bind, wp_ctx. by apply Hk. Qed.

Lemma keeps_get_some {A B} (o : option A) (k : A -> M (world tee C) B) :
  (forall a, o = Some a -> keeps (k a)) -> keeps (get_some o ≫= k).
Proof. intros Hk w Hw. apply wp_bind, wp_get_some; [|done]. intros a Ha. by apply Hk. Qed.

Lemma keeps_tcall {A} (c : call tee A) : keeps (tcall c).
Proof. intros w Hw. by apply wp_tcall. Qed.

Lemma keeps_set_ctx f : (forall c, I c -> I (f c)) -> keeps (set_ctx f).
Proof. intros Hf w Hw. by apply wp_set_ctx, Hf. Qed.

Lemma keeps_require b : keeps (require b).
Proof. intros w Hw. by apply wp_require. Qed.

Lemma keeps_undefined {A} : keeps (undefined (A := A)).
Proof. by intros w Hw. Qed.

Lemma keeps_free_ptr p : keeps (free_ptr p).
Proof. destruct p; [apply keeps_ret|apply keeps_tcall|apply keeps_undefined]. Qed.

Lemma keeps_with_handle {A} h (k : handle -> M (world tee C) A) :
  (forall h, keeps (k h)) -> keeps (with_handle h k).
Proof. intros Hk. apply keeps_get_some. auto. Qed.
End keeps.

Ltac keeps_step :=
  cbv zeta;
  lazymatch goal with
  | |- forall _, _ => intros ?
  | |- keeps _ (mret _) => apply keeps_ret
  | |- keeps _ undefined => apply keeps_undefined
  | |- keeps _ (ctx ≫= _) => apply keeps_ctx; intros ? ?
  | |- keeps _ (get_some _ ≫= _) => apply keeps_get_some; intros ? ?
  | |- keeps _ (_ ≫= _) => apply keeps_bind
  | |- keeps _ (tcall _) => apply keeps_tcall
  | |- keeps _ (set_ctx _) => apply keeps_set_ctx; intros ? ?
  | |- keeps _ (require _) => apply keeps_require
  | |- keeps _ (free_ptr _) => apply keeps_free_ptr
  | |- keeps _ (with_handle _ _) => apply keeps_with_handle
  | |- keeps _ (match _ with _ => _ end) => case_match
  end.
