(* ===== verification/KeySpec.v ===== *)
(** * Correctness of the key derivation *)

From S2P Require Import Prelude TeeApi TeeSpec Layout KeyDerivation TeeLogic.

(** ** The keys of a session *)

Section keys.
Context `{K : Crypto}.

(** The key derivation key of the private value [a] and the remote point, and
    the two keys derived from it. *)
Definition shared_kdk (a x y : bytes) : bytes := aes_cmac (zeros 16) (ecdh a x y).
Definition mac_key (kdk : bytes) : bytes := aes_cmac kdk RA_SHARED_MAC_DATA.
Definition session_key (kdk : bytes) : bytes := aes_cmac kdk RA_SHARED_SESSION_DATA.

(** The handle [h] names an AES key with the value [k]. *)
Definition aes_key (v : tee_view) (h : handle) (k : bytes) : Prop :=
  v_objs v !! h = Some (Object TEE_TYPE_AES [AttrRef TEE_ATTR_SECRET_VALUE k]).

Lemma aes_key_grows v v' h k : grows v v' -> aes_key v h k -> aes_key v' h k.
Proof. apply grows_obj. Qed.

Lemma aes_key_value v h k o k' :
  aes_key v h k -> v_objs v !! h = Some o -> obj_attr TEE_ATTR_SECRET_VALUE o = Some k' ->
  k' = k.
Proof. unfold aes_key. intros -> [= <-] [= <-]. done. Qed.

(** An object that holds a generated key pair. *)
Definition keypair_object (o : tee_object) (a x y : bytes) : Prop :=
  ecc_private a /\ ecc_public a = (x, y) /\
  obj_attr TEE_ATTR_ECC_PRIVATE_VALUE o = Some a /\
  obj_attr TEE_ATTR_ECC_PUBLIC_VALUE_X o = Some x /\
  obj_attr TEE_ATTR_ECC_PUBLIC_VALUE_Y o = Some y.
End keys.

(** ** The two functions *)

Section derivation_spec.
Context `{T : TEE} `{K : Crypto} `{!TEE_Spec T K} {C : Type}.
Context (keypair : C -> handle) (remote_public_key : C -> option (list attr_value)).
Context (kdk : C -> handle) (set_kdk : handle -> C -> C).
Hypothesis kdk_set_kdk : forall h c, kdk (set_kdk h c) = h.

Lemma derive_shared_key_spec w :
  wp any_fault (derive_shared_key keypair remote_public_key kdk set_kdk)
    (on_success id (fun _ w' => exists kp attrs a x y h,
      v_objs (view (w_tee w)) !! keypair (w_ctx w) = Some kp /\
      remote_public_key (w_ctx w) = Some attrs /\
      obj_attr TEE_ATTR_ECC_PRIVATE_VALUE kp = Some a /\
      attr_buffer TEE_ATTR_ECC_PUBLIC_VALUE_X attrs = Some x /\
      attr_buffer TEE_ATTR_ECC_PUBLIC_VALUE_Y attrs = Some y /\
      w_ctx w' = set_kdk h (w_ctx w) /\
      aes_key (view (w_tee w')) h (shared_kdk a x y) /\
      grows (view (w_tee w)) (view (w_tee w')))) w.
Proof.
  destruct w as [t c]. simpl. destruct (view t) as [objs ops socks] eqn:Hv0.
  unfold derive_shared_key.
  repeat tee_step.
  rewrite kdk_set_kdk in *. tee_return. buffer_facts.
  assert (ecdh x3 x4 x5 = ob_data a0) as Hsecret by done. rewrite <- Hsecret in *.
  eexists _, _, _, _, _, _. repeat (split; [eassumption || reflexivity|]).
  split; [|grows_solve]. unfold aes_key. view_lookup.
Qed.

Lemma derive_shared_mac_key_spec data output set_output w :
  (forall h c, output (set_output h c) = h) ->
  wp any_fault (derive_shared_mac_key kdk data output set_output)
    (on_success id (fun _ w' => exists ko k h,
      v_objs (view (w_tee w)) !! kdk (w_ctx w) = Some ko /\
      obj_attr TEE_ATTR_SECRET_VALUE ko = Some k /\
      w_ctx w' = set_output h (w_ctx w) /\
      aes_key (view (w_tee w')) h (aes_cmac k data) /\
      grows (view (w_tee w)) (view (w_tee w')))) w.
Proof.
  intros Hout.
  destruct w as [t c]. simpl. destruct (view t) as [objs ops socks] eqn:Hv0.
  unfold derive_shared_mac_key. repeat tee_step.
  rewrite Hout in *. tee_return. lookup_cases. buffer_facts.
  eexists _, _, _. repeat (split; [eassumption || reflexivity|]).
  split; [|grows_solve]. unfold aes_key. view_lookup.
Qed.
End derivation_spec.
