(* ===== verification/Reliable.v ===== *)
(** * A trusted operating system that does not run out of resources

    [TEE_Spec] says what a call that reports success has done; it leaves
    open whether a call succeeds. [TEE_Reliable] adds when it does: a call
    that gets valid handles, a key of the right type, a buffer that is large
    enough and supported parameters neither fails nor panics, as long as the
    TEE has memory. The class is assumed only by the theorems that say that
    the verifier makes progress. *)

From S2P Require Import Prelude TeeApi TeeSpec Layout KeyDerivation TeeLogic.

(** ** Supported parameters *)

(** The object types and sizes in bits that the programs use. *)
Definition object_supported (ty : TEE_ObjectType) (size : Z) : bool :=
  match ty with
  | TEE_TYPE_AES => size =? 128
  | TEE_TYPE_RSA_KEYPAIR => false
  | _ => size =? 256
  end.

Definition operation_supported (alg : TEE_Algorithm) (mode : TEE_OperationMode) (size : Z) : bool :=
  match alg, mode with
  | TEE_ALG_SHA256, TEE_MODE_DIGEST => size =? 0
  | TEE_ALG_ECDSA_P256, (TEE_MODE_SIGN | TEE_MODE_VERIFY) => size =? 256
  | TEE_ALG_ECDH_P256, TEE_MODE_DERIVE => size =? 256
  | TEE_ALG_AES_CMAC, TEE_MODE_MAC => size =? 128
  | TEE_ALG_AES_GCM, (TEE_MODE_ENCRYPT | TEE_MODE_DECRYPT) => size =? 128
  | _, _ => false
  end.

(** The attribute that names the curve, which a key of an elliptic curve needs
    when it is generated or populated. *)
Definition names_p256 `{T : TEE} (attrs : list attr_value) : bool :=
  existsb (fun a => match a with
                    | AttrVal id v _ =>
                        bool_decide (id = TEE_ATTR_ECC_CURVE) && (v =? TEE_ECC_CURVE_NIST_P256)
                    | _ => false
                    end) attrs.

(** The attributes that make an object of a type a key. *)
Definition attrs_fit `{T : TEE} (ty : TEE_ObjectType) (attrs : list attr_value) : bool :=
  match ty with
  | TEE_TYPE_AES =>
      match attr_buffer TEE_ATTR_SECRET_VALUE attrs with
      | Some k => (length k =? 16)%nat
      | None => false
      end
  | TEE_TYPE_ECDH_PUBLIC_KEY | TEE_TYPE_ECDSA_PUBLIC_KEY =>
      match attr_buffer TEE_ATTR_ECC_PUBLIC_VALUE_X attrs,
            attr_buffer TEE_ATTR_ECC_PUBLIC_VALUE_Y attrs with
      | Some x, Some y => (length x <=? 32)%nat && (length y <=? 32)%nat && names_p256 attrs
      | _, _ => false
      end
  | _ => false
  end.

Lemma names_p256_curve `{T : TEE} n :
  names_p256 [AttrVal TEE_ATTR_ECC_CURVE TEE_ECC_CURVE_NIST_P256 n] = true.
Proof. unfold names_p256. simpl. by rewrite Z.eqb_refl. Qed.

Lemma attrs_fit_aes `{T : TEE} k :
  length k = 16%nat -> attrs_fit TEE_TYPE_AES [AttrRef TEE_ATTR_SECRET_VALUE k] = true.
Proof. intros Hk. unfold attrs_fit. simpl. by rewrite Hk. Qed.

Lemma attrs_fit_point `{T : TEE} ty x y l :
  ty = TEE_TYPE_ECDH_PUBLIC_KEY \/ ty = TEE_TYPE_ECDSA_PUBLIC_KEY ->
  (length x <= 32)%nat -> (length y <= 32)%nat -> names_p256 l = true ->
  attrs_fit ty (AttrRef TEE_ATTR_ECC_PUBLIC_VALUE_X x
    :: AttrRef TEE_ATTR_ECC_PUBLIC_VALUE_Y y :: l) = true.
Proof.
  intros Hty Hx%Nat.leb_le Hy%Nat.leb_le Hl.
  destruct Hty as [-> | ->]; unfold attrs_fit; simpl attr_buffer; cbv beta iota;
    rewrite Hx, Hy; exact Hl.
Qed.

Definition generates_keypair (ty : TEE_ObjectType) : bool :=
  match ty with
  | TEE_TYPE_ECDH_KEYPAIR | TEE_TYPE_ECDSA_KEYPAIR => true
  | _ => false
  end.

(** The types of keys an operation accepts. *)
Definition key_fits (alg : TEE_Algorithm) (mode : TEE_OperationMode) (ty : TEE_ObjectType) : bool :=
  match alg, mode, ty with
  | TEE_ALG_ECDSA_P256, TEE_MODE_SIGN, TEE_TYPE_ECDSA_KEYPAIR
  | TEE_ALG_ECDSA_P256, TEE_MODE_VERIFY, (TEE_TYPE_ECDSA_KEYPAIR | TEE_TYPE_ECDSA_PUBLIC_KEY)
  | TEE_ALG_ECDH_P256, TEE_MODE_DERIVE, TEE_TYPE_ECDH_KEYPAIR
  | TEE_ALG_AES_CMAC, TEE_MODE_MAC, TEE_TYPE_AES
  | TEE_ALG_AES_GCM, (TEE_MODE_ENCRYPT | TEE_MODE_DECRYPT), TEE_TYPE_AES => true
  | _, _, _ => false
  end.

(** A point that is the public key of some private value. *)
Definition valid_point `{K : Crypto} (x y : bytes) : Prop :=
  exists a, ecc_private a /\ ecc_public a = (x, y).

(** The address of a block that [TEE_Malloc] returned. *)
Definition is_block `{T : TEE} (p : Z) : Prop :=
  exists n t d t', TEE_Malloc n t = Some (Some (p, d), t').

Class TEE_Reliable (T : TEE) (K : Crypto) (Sp : TEE_Spec T K) := {
  rel_AllocateTransientObject ty sz t :
    object_supported ty sz = true ->
    exists out t', TEE_AllocateTransientObject ty sz t = Some ((TEE_SUCCESS, out), t');
  rel_FreeTransientObject h t o :
    v_objs (view t) !! h = Some o -> exists t', TEE_FreeTransientObject h t = Some (tt, t');
  rel_PopulateTransientObject h attrs t o :
    v_objs (view t) !! h = Some o -> o_attrs o = [] -> attrs_fit (o_type o) attrs = true ->
    exists t', TEE_PopulateTransientObject h attrs t = Some (TEE_SUCCESS, t');
  rel_GenerateKey h sz attrs t o :
    v_objs (view t) !! h = Some o -> o_attrs o = [] -> generates_keypair (o_type o) = true ->
    sz = 256 -> names_p256 attrs = true ->
    exists t', TEE_GenerateKey h sz attrs t = Some (TEE_SUCCESS, t');
  rel_GetObjectBufferAttribute h id cap t o d :
    v_objs (view t) !! h = Some o -> obj_attr id o = Some d -> zlen d <= cap ->
    exists r t', TEE_GetObjectBufferAttribute h id cap t = Some (r, t') /\ ob_res r = TEE_SUCCESS;
  rel_AllocateOperation alg mode sz t :
    operation_supported alg mode sz = true ->
    exists out t', TEE_AllocateOperation alg mode sz t = Some ((TEE_SUCCESS, out), t');
  rel_FreeOperation h t p :
    v_ops (view t) !! h = Some p -> exists t', TEE_FreeOperation h t = Some (tt, t');
  rel_ResetOperation h t p :
    v_ops (view t) !! h = Some p -> exists t', TEE_ResetOperation h t = Some (tt, t');
  rel_SetOperationKey h k t p o :
    v_ops (view t) !! h = Some p -> v_objs (view t) !! k = Some o ->
    p_key p = None -> o_attrs o <> [] -> key_fits (p_alg p) (p_mode p) (o_type o) = true ->
    exists t', TEE_SetOperationKey h k t = Some (TEE_SUCCESS, t');
  rel_DigestUpdate h d t p :
    v_ops (view t) !! h = Some p -> p_alg p = TEE_ALG_SHA256 ->
    exists t', TEE_DigestUpdate h d t = Some (tt, t');
  rel_DigestDoFinal h d cap t p :
    v_ops (view t) !! h = Some p -> p_alg p = TEE_ALG_SHA256 -> 32 <= cap ->
    exists r t', TEE_DigestDoFinal h d cap t = Some (r, t') /\ ob_res r = TEE_SUCCESS;
  rel_MACInit h t p :
    v_ops (view t) !! h = Some p -> p_alg p = TEE_ALG_AES_CMAC -> is_Some (p_key p) ->
    exists t', TEE_MACInit h t = Some (tt, t');
  rel_MACUpdate h d t p :
    v_ops (view t) !! h = Some p -> p_alg p = TEE_ALG_AES_CMAC -> is_Some (p_key p) ->
    exists t', TEE_MACUpdate h d t = Some (tt, t');
  rel_MACComputeFinal h d cap t p k :
    v_ops (view t) !! h = Some p -> p_alg p = TEE_ALG_AES_CMAC ->
    key_attr TEE_ATTR_SECRET_VALUE p = Some k -> 16 <= cap ->
    exists r t', TEE_MACComputeFinal h d cap t = Some (r, t') /\ ob_res r = TEE_SUCCESS;
  rel_MACCompareFinal h d mac t p k :
    v_ops (view t) !! h = Some p -> p_alg p = TEE_ALG_AES_CMAC ->
    key_attr TEE_ATTR_SECRET_VALUE p = Some k -> mac = aes_cmac k (p_acc p ++ d) ->
    exists t', TEE_MACCompareFinal h d mac t = Some (TEE_SUCCESS, t');
  rel_DeriveKey h attrs k t p a x y o :
    v_ops (view t) !! h = Some p -> p_alg p = TEE_ALG_ECDH_P256 ->
    key_attr TEE_ATTR_ECC_PRIVATE_VALUE p = Some a ->
    attr_buffer TEE_ATTR_ECC_PUBLIC_VALUE_X attrs = Some x ->
    attr_buffer TEE_ATTR_ECC_PUBLIC_VALUE_Y attrs = Some y -> valid_point x y ->
    v_objs (view t) !! k = Some o -> o_type o = TEE_TYPE_GENERIC_SECRET -> o_attrs o = [] ->
    exists t', TEE_DeriveKey h attrs k t = Some (tt, t');
  rel_AsymmetricSignDigest h d cap t p x y :
    v_ops (view t) !! h = Some p -> p_mode p = TEE_MODE_SIGN ->
    key_attr TEE_ATTR_ECC_PUBLIC_VALUE_X p = Some x ->
    key_attr TEE_ATTR_ECC_PUBLIC_VALUE_Y p = Some y -> length d = 32%nat -> 64 <= cap ->
    exists r t', TEE_AsymmetricSignDigest h d cap t = Some (r, t') /\ ob_res r = TEE_SUCCESS;
  rel_AsymmetricVerifyDigest h d sig t p x y :
    v_ops (view t) !! h = Some p -> p_mode p = TEE_MODE_VERIFY ->
    key_attr TEE_ATTR_ECC_PUBLIC_VALUE_X p = Some x ->
    key_attr TEE_ATTR_ECC_PUBLIC_VALUE_Y p = Some y -> length d = 32%nat ->
    ecdsa_verify x y d sig = true ->
    exists t', TEE_AsymmetricVerifyDigest h d sig t = Some (TEE_SUCCESS, t');
  rel_AEInit h iv tag t p :
    v_ops (view t) !! h = Some p -> p_alg p = TEE_ALG_AES_GCM -> is_Some (p_key p) -> tag = 128 ->
    exists t', TEE_AEInit h iv tag t = Some (TEE_SUCCESS, t');
  rel_AEEncryptFinal h d cap tcap t p k :
    v_ops (view t) !! h = Some p -> p_mode p = TEE_MODE_ENCRYPT ->
    key_attr TEE_ATTR_SECRET_VALUE p = Some k -> zlen d <= cap -> 16 <= tcap ->
    exists r tag tsz t', TEE_AEEncryptFinal h d cap tcap t = Some ((r, tag, tsz), t') /\
      ob_res r = TEE_SUCCESS;
  rel_GenerateRandom n t :
    0 <= n -> exists d t', TEE_GenerateRandom n t = Some (d, t');
  rel_Malloc n t :
    0 <= n -> exists p d t', TEE_Malloc n t = Some (Some (p, d), t');
  rel_Free p t : is_block p -> exists t', TEE_Free p t = Some (tt, t')
}.

(** ** Total correctness *)

Section live_rules.
Context {S : Type}.
Implicit Types s : S.

Lemma wp_get_some_eq {A} E (o : option A) a Q s :
  o = Some a -> Q a s -> wp E (get_some o) Q s.
Proof. by intros -> HQ. Qed.

Lemma wp_require_eq E b Q s : b = true -> Q tt s -> wp E (require b) Q s.
Proof. by intros -> HQ. Qed.

(** What partial correctness says about a run that returns. *)
Lemma wp_with {A} (m : M S A) P Q s :
  wp any_fault m P s -> wp no_fault m Q s -> wp no_fault m (fun a s' => P a s' /\ Q a s') s.
Proof. unfold wp. destruct (m s) as [[a s']|f]; [by split|done]. Qed.

(** The computation returns without a fault and reports success. *)
Definition live {A} (res : A -> TEE_Result) (m : M S A) (s : S) : Prop :=
  wp no_fault m (fun a _ => res a = TEE_SUCCESS) s.

Lemma live_on_success {A} res (m : M S A) P s :
  wp any_fault m (on_success res P) s -> live res m s ->
  wp no_fault m (fun a s' => res a = TEE_SUCCESS /\ P a s') s.
Proof.
  intros Hp Hl. eapply wp_mono; [exact (wp_with _ _ _ _ Hp Hl)|].
  intros a s' [H1 H2]. split; [done|by apply H1].
Qed.

(** A function that is called and whose error would be returned. *)
Lemma live_seq {A} (m : M S TEE_Result) P (f : TEE_Result -> A) (k : TEE_Result -> M S A) res s :
  wp any_fault m (on_success id P) s -> live id m s ->
  (forall s', P TEE_SUCCESS s' -> live res (k TEE_SUCCESS) s') ->
  live res (r ← m; if failed r then mret (f r) else k r) s.
Proof.
  intros Hp Hl Hk. apply wp_bind. eapply wp_mono; [exact (live_on_success _ _ _ _ Hp Hl)|].
  intros r s' [Hr HP]. cbn [id] in Hr. subst r. by apply Hk.
Qed.
End live_rules.

(** ** Tactics *)

(** The size of a value that the cryptographic functions computed. *)
Ltac size_side :=
  rewrite ?length_aes_cmac, ?length_sha256, ?length_zeros;
  repeat match goal with
  | |- context [ecdh ?a ?x ?y] =>
      lazymatch goal with
      | _ : (length (ecdh a x y) <= 32)%nat |- _ => fail
      | _ => pose proof (length_ecdh a x y)
      end
  end;
  change (RA_ECDH_KEY_SIZE / 8) with 32 in *; change (RA_AES_CMAC_TAG_SIZE / 8) with 16 in *;
  unfold RA_HASH_SIZE, RA_ECDH_KEY_SIZE, RA_AES_CMAC_TAG_SIZE, RA_AES_GCM_IV_SIZE in *; lia.

(** What is known of the buffers that calls filled. *)
Ltac filled :=
  repeat match goal with
  | H : ob_size ?r = _ |- context [ob_size ?r] => rewrite H
  | H : ob_data ?r = _ |- context [ob_data ?r] => rewrite H
  end.

Ltac whole_side := filled; try reflexivity; size_side.

(** Conditions of a reliable call: a handle that is looked up in the current
    view, or a fact about the object found there. *)
Ltac rel_side :=
  lazymatch goal with
  | |- _ (view ?t) !! _ = Some _ =>
      match goal with Hv : view t = View _ _ _ |- _ => rewrite Hv end;
      cbn [v_objs v_ops v_socks];
      repeat first
        [ rewrite lookup_insert_eq
        | rewrite lookup_insert_ne by congruence
        | rewrite lookup_delete_ne by congruence ];
      first [reflexivity | eassumption]
  | |- is_Some _ => eexists; reflexivity
  | |- attrs_fit _ _ = true =>
      cbn [o_type]; first
      [ apply attrs_fit_aes; filled; attr_facts;
        first [reflexivity | assumption | apply length_aes_cmac]
      | apply attrs_fit_point; [by (left + right)|assumption|assumption|apply names_p256_curve] ]
  | |- names_p256 _ = true => apply names_p256_curve
  | |- _ =>
      unfold key_attr, obj_attr in *; cbn in *;
      first
        [ reflexivity | eassumption | discriminate
        | filled; rewrite <- ?app_assoc, ?length_sha256; first [reflexivity | eassumption]
        | size_side ]
  end.

(** An object that is looked up twice is the same object. *)
Ltac same_lookups :=
  repeat match goal with
  | H : ?m !! ?k = Some _, H' : ?m !! ?k = Some _ |- _ =>
      rewrite H in H'; injection H' as ->
  | H : ?m !! ?k = Some _, H' : ?m !! ?k = Some _ |- _ =>
      rewrite H in H'; injection H' as H'; try subst
  end.

(** Executes a call that cannot fail. *)
Ltac rel_call :=
  lazymatch goal with
  | |- wp _ (tcall (TEE_AllocateTransientObject ?ty ?sz)) _ (World ?t _) =>
      destruct (rel_AllocateTransientObject ty sz t eq_refl) as (? & ? & ?)
  | |- wp _ (tcall (TEE_AllocateOperation ?alg ?mode ?sz)) _ (World ?t _) =>
      destruct (rel_AllocateOperation alg mode sz t eq_refl) as (? & ? & ?)
  | |- wp _ (tcall (TEE_FreeTransientObject ?h)) _ (World ?t _) =>
      edestruct (rel_FreeTransientObject h t) as (? & ?); [rel_side..|]
  | |- wp _ (tcall (TEE_FreeOperation ?h)) _ (World ?t _) =>
      edestruct (rel_FreeOperation h t) as (? & ?); [rel_side..|]
  | |- wp _ (tcall (TEE_ResetOperation ?h)) _ (World ?t _) =>
      edestruct (rel_ResetOperation h t) as (? & ?); [rel_side..|]
  | |- wp _ (tcall (TEE_PopulateTransientObject ?h ?a)) _ (World ?t _) =>
      edestruct (rel_PopulateTransientObject h a t) as (? & ?); [rel_side..|]
  | |- wp _ (tcall (TEE_GenerateKey ?h ?sz ?a)) _ (World ?t _) =>
      edestruct (rel_GenerateKey h sz a t) as (? & ?); [rel_side..|]
  | |- wp _ (tcall (TEE_GetObjectBufferAttribute ?h ?id ?cap)) _ (World ?t _) =>
      edestruct (rel_GetObjectBufferAttribute h id cap t) as (? & ? & ? & ?); [rel_side..|]
  | |- wp _ (tcall (TEE_SetOperationKey ?h ?k)) _ (World ?t _) =>
      edestruct (rel_SetOperationKey h k t) as (? & ?); [rel_side..|]
  | |- wp _ (tcall (TEE_DigestUpdate ?h ?d)) _ (World ?t _) =>
      edestruct (rel_DigestUpdate h d t) as (? & ?); [rel_side..|]
  | |- wp _ (tcall (TEE_DigestDoFinal ?h ?d ?cap)) _ (World ?t _) =>
      edestruct (rel_DigestDoFinal h d cap t) as (? & ? & ? & ?); [rel_side..|]
  | |- wp _ (tcall (TEE_MACInit ?h)) _ (World ?t _) =>
      edestruct (rel_MACInit h t) as (? & ?); [rel_side..|]
  | |- wp _ (tcall (TEE_MACUpdate ?h ?d)) _ (World ?t _) =>
      edestruct (rel_MACUpdate h d t) as (? & ?); [rel_side..|]
  | |- wp _ (tcall (TEE_MACComputeFinal ?h ?d ?cap)) _ (World ?t _) =>
      edestruct (rel_MACComputeFinal h d cap t) as (? & ? & ? & ?); [rel_side..|]
  | |- wp _ (tcall (TEE_MACCompareFinal ?h ?d ?m)) _ (World ?t _) =>
      edestruct (rel_MACCompareFinal h d m t) as (? & ?); [rel_side..|]
  | |- wp _ (tcall (TEE_DeriveKey ?h ?a ?k)) _ (World ?t _) =>
      edestruct (rel_DeriveKey h a k t) as (? & ?); [rel_side..|]
  | |- wp _ (tcall (TEE_AsymmetricSignDigest ?h ?d ?cap)) _ (World ?t _) =>
      edestruct (rel_AsymmetricSignDigest h d cap t) as (? & ? & ? & ?); [rel_side..|]
  | |- wp _ (tcall (TEE_AsymmetricVerifyDigest ?h ?d ?s)) _ (World ?t _) =>
      edestruct (rel_AsymmetricVerifyDigest h d s t) as (? & ?); [rel_side..|]
  | |- wp _ (tcall (TEE_AEInit ?h ?iv ?tag)) _ (World ?t _) =>
      edestruct (rel_AEInit h iv tag t) as (? & ?); [rel_side..|]
  | |- wp _ (tcall (TEE_AEEncryptFinal ?h ?d ?cap ?tc)) _ (World ?t _) =>
      edestruct (rel_AEEncryptFinal h d cap tc t) as (? & ? & ? & ? & ? & ?); [rel_side..|]
  | |- wp _ (tcall (TEE_GenerateRandom ?n)) _ (World ?t _) =>
      edestruct (rel_GenerateRandom n t) as (? & ? & ?); [rel_side..|]
  | |- wp _ (tcall (TEE_Malloc ?n)) _ (World ?t _) =>
      edestruct (rel_Malloc n t) as (? & ? & ? & ?); [rel_side..|]
  | |- wp _ (tcall (TEE_Free ?p)) _ (World ?t _) =>
      destruct (rel_Free p t) as (? & ?); [assumption|]
  end;
  eapply wp_tcall_eq; [cbn [w_tee]; eassumption|].

(** One step of symbolic execution under total correctness. *)
Ltac live_step :=
  lazymatch goal with |- wp _ _ _ _ => idtac end;
  first
    [ progress cbv beta iota zeta
    | apply wp_bind
    | rel_call
    | apply wp_set_ctx
    | apply wp_ctx
    | lazymatch goal with
      | |- wp _ (get_some (Some _)) _ _ => apply wp_ret
      | |- wp _ (get_some (bread _ _)) _ _ =>
          eapply wp_get_some_eq; [apply bread_whole; whole_side|]
      | |- wp _ (get_some (bwrite _ _)) _ _ =>
          eapply wp_get_some_eq; [apply bwrite_full; whole_side|]
      | |- wp _ (get_some (fwrite _ _ _)) _ _ =>
          eapply wp_get_some_eq; [apply fwrite_in; simpl f_len; whole_side|]
      | |- wp _ (get_some _) _ _ => eapply wp_get_some_eq; [first [eassumption | reflexivity]|]
      | |- wp _ (require _) _ _ =>
          apply wp_require_eq; [apply Nat.leb_le; whole_side|]
      | |- wp _ (store_handle _ (Some _)) _ _ => apply wp_set_ctx
      | |- wp _ (mret _) (fun a => wp _ (@?k a) _) _ => apply wp_ret
      | |- wp _ (with_handle _ _) _ _ => unfold with_handle
      | |- wp _ (free_operation _) _ _ => unfold free_operation
      | |- wp _ (free_object _) _ _ => unfold free_object
      | |- wp _ (if failed TEE_SUCCESS then _ else _) _ _ => change (failed TEE_SUCCESS) with false
      | H : ob_res ?r = TEE_SUCCESS |- wp _ (if failed (ob_res ?r) then _ else _) _ _ =>
          rewrite H; change (failed TEE_SUCCESS) with false
      | |- wp _ (if negb (?a =? ?b) then _ else _) _ _ =>
          replace (a =? b) with true by (symmetry; apply Z.eqb_eq; whole_side); cbn [negb]
      end ];
  cbv beta iota zeta; cbn [w_tee w_ctx written] in *; try learn; same_lookups.
