(* ===== verification/ToyTEE.v ===== *)
(** * An executable trusted operating system

    A small implementation of the classes [TEE], [Crypto] and [Platform]
    that satisfies [TEE_Spec]. Its cryptography is transparent (a digest is
    a prefix, encryption is the identity): it is not secure, but it obeys
    every law the proofs assume, so the theorems can be applied to concrete
    runs of the programs, which evaluate. *)

From S2P Require Import Prelude TeeApi TeeSpec Layout KeyDerivation Verifier.

(** ** Cryptography *)

Definition xor_byte (a b : byte) : byte := byte_of_Z (Z.lxor (Z_of_byte a) (Z_of_byte b)).

(** Exactly [n] bytes of [d], padded with zeros. *)
Definition pad (n : nat) (d : bytes) : bytes := take n (d ++ zeros n).

Definition toy_sha256 (d : bytes) : bytes := pad 32 d.
Definition toy_cmac (k d : bytes) : bytes := zip_with xor_byte (pad 16 k) (pad 16 d).
Definition toy_ecdh (a x y : bytes) : bytes := zip_with xor_byte (pad 32 a) (pad 32 x).
Definition toy_sign (x digest : bytes) : bytes := pad 64 (x ++ digest).

Lemma length_pad n d : length (pad n d) = n.
Proof. unfold pad. rewrite length_take, length_app, length_zeros. lia. Qed.

Lemma xor_byte_comm a b : xor_byte a b = xor_byte b a.
Proof. unfold xor_byte. by rewrite Z.lxor_comm. Qed.

Lemma zip_xor_comm l k : zip_with xor_byte l k = zip_with xor_byte k l.
Proof.
  revert k. induction l as [|a l IH]; intros [|b k]; simpl; [done..|].
  by rewrite IH, xor_byte_comm.
Qed.

Lemma pad_full n d : length d = n -> pad n d = d.
Proof. intros <-. unfold pad. by rewrite take_app_length. Qed.

#[export] Program Instance toy_crypto : Crypto := {|
  sha256 := toy_sha256;
  aes_cmac := toy_cmac;
  ecc_private a := length a = 32%nat;
  ecc_public a := (a, a);
  ecdh := toy_ecdh;
  ecdsa_verify x y digest sig := bool_decide (sig = toy_sign x digest);
  gcm_decrypt k iv ct tag :=
    if decide (tag = toy_cmac k (iv ++ ct)) then Some ct else None
|}.
Next Obligation. intros. apply length_pad. Qed.
Next Obligation. intros. unfold toy_cmac. rewrite length_zip_with, !length_pad. lia. Qed.
Next Obligation. simpl. intros a x y Ha [= <- <-]. lia. Qed.
Next Obligation. intros. unfold toy_ecdh. rewrite length_zip_with, !length_pad. lia. Qed.
Next Obligation.
  simpl. intros a b xa ya xb yb Ha Hb [= <- <-] [= <- <-]. unfold toy_ecdh.
  apply zip_xor_comm.
Qed.

(** ** Platform: a 32-bit trusted world and the layout of [ra_quote] *)

#[export] Program Instance toy_platform : Platform := {|
  sizeof_size_t := 4;
  RA_ANCHOR_SIZE := 32;
  RA_CLAIM_HASH_SIZE := 32;
  RA_ATTESTATION_KEY_SIZE := 64;
  RA_SIGNATURE_SIZE := 64;
  sizeof_ra_quote := 196;
  quote_anchor := Field 0 32;
  quote_version := Field 32 4;
  quote_claim_hash := Field 36 32;
  quote_attestation_key := Field 68 64;
  quote_signature := Field 132 64
|}.
Next Obligation. by left. Qed.
Next Obligation. done. Qed.
Next Obligation. done. Qed.
Next Obligation. simpl. lia. Qed.

(** ** State *)

(** The view, a counter that feeds the generators, and the mappings of the
    application with their sizes. *)
Record toy := Toy { toy_view : tee_view; toy_seed : nat; toy_maps : gmap Z Z }.

Definition toy_start : toy := Toy (View ∅ ∅ ∅) 0 ∅.

(** A handle that is not in use: above every handle given out. *)
Definition fresh_handle {A} (m : gmap handle A) : handle :=
  1 + map_fold (fun h _ acc => Z.max h acc) 0 m.

Lemma fresh_handle_above {A} (m : gmap handle A) h x :
  m !! h = Some x -> h < fresh_handle m.
Proof.
  unfold fresh_handle. revert h x.
  apply (map_fold_weak_ind (fun r m => forall h x, m !! h = Some x -> h < 1 + r)).
  - intros h x. by rewrite lookup_empty.
  - intros i y m' r Hi IH h x. rewrite lookup_insert_Some. intros [[-> ->]|[_ Hh]]; [lia|].
    specialize (IH _ _ Hh). lia.
Qed.

Lemma fresh_handle_fresh {A} (m : gmap handle A) : m !! fresh_handle m = None.
Proof.
  destruct (m !! fresh_handle m) eqn:E; [|done]. apply fresh_handle_above in E. lia.
Qed.

Lemma fresh_handle_pos {A} (m : gmap handle A) : fresh_handle m <> TEE_HANDLE_NULL.
Proof.
  assert (0 <= map_fold (fun h _ acc => Z.max h acc) 0 m); [|unfold fresh_handle, TEE_HANDLE_NULL; lia].
  apply (map_fold_weak_ind (fun r _ => 0 <= r)); intros; lia.
Qed.

Definition seeded (n : nat) (seed : nat) : bytes :=
  pad n [byte_of_Z (Z.of_nat seed + 1); Byte.x2a].

Definition with_view (f : tee_view -> tee_view) (t : toy) : toy :=
  Toy (f (toy_view t)) (toy_seed t) (toy_maps t).

Definition next_seed (t : toy) : toy := Toy (toy_view t) (S (toy_seed t)) (toy_maps t).

Definition with_maps (f : gmap Z Z -> gmap Z Z) (t : toy) : toy :=
  Toy (toy_view t) (toy_seed t) (f (toy_maps t)).

(** ** Operations *)

Section operations.
(** What each host and port answers to the bytes it has received. *)
Context (peer : bytes -> Z -> bytes -> bytes).

(** A call that needs an operation or an object panics without it. *)
Definition on_op {A} (h : handle) (f : tee_operation -> toy -> A * toy) : call toy A := fun t =>
  p ← v_ops (toy_view t) !! h; Some (f p t).

Definition on_obj {A} (h : handle) (f : tee_object -> toy -> A * toy) : call toy A := fun t =>
  o ← v_objs (toy_view t) !! h; Some (f o t).

Definition on_sock {A} (h : handle) (f : tee_socket -> toy -> A * toy) : call toy A := fun t =>
  k ← v_socks (toy_view t) !! h; Some (f k t).

Definition no_data (res : TEE_Result) : out_buffer := OutBuffer res [] 0.

(** Data for a buffer of [cap] bytes. *)
Definition fill (d : bytes) (cap : Z) : out_buffer :=
  if zlen d <=? cap then OutBuffer TEE_SUCCESS d (zlen d) else no_data TEE_ERROR_SHORT_BUFFER.

Definition toy_alloc_obj (ty : TEE_ObjectType) (sz : Z) : call toy (TEE_Result * option handle) :=
  fun t => let h := fresh_handle (v_objs (toy_view t)) in
    Some ((TEE_SUCCESS, Some h), with_view (set_obj h (Object ty [])) t).

Definition toy_populate (h : handle) (attrs : list attr_value) : call toy TEE_Result :=
  on_obj h (fun o t => match o_attrs o with
    | [] => (TEE_SUCCESS, with_view (set_obj h (Object (o_type o) attrs)) t)
    | _ => (TEE_ERROR_BAD_STATE, t)
    end).

Definition toy_generate (h : handle) (sz : Z) (attrs : list attr_value) : call toy TEE_Result :=
  on_obj h (fun o t => let a := seeded 32 (toy_seed t) in
    (TEE_SUCCESS, next_seed
      (with_view (set_obj h (Object (o_type o) (keypair_attrs a a a attrs))) t))).

Definition toy_get_attr (h : handle) (id : TEE_AttributeID) (cap : Z) : call toy out_buffer :=
  on_obj h (fun o t => (match obj_attr id o with
    | Some d => fill d cap
    | None => no_data TEE_ERROR_BAD_PARAMETERS
    end, t)).

Definition toy_alloc_op (alg : TEE_Algorithm) (mode : TEE_OperationMode) (sz : Z)
    : call toy (TEE_Result * option handle) :=
  fun t => let h := fresh_handle (v_ops (toy_view t)) in
    Some ((TEE_SUCCESS, Some h), with_view (set_op h (Operation alg mode None [] [])) t).

Definition toy_set_key (h k : handle) : call toy TEE_Result :=
  on_op h (fun p t => match v_objs (toy_view t) !! k with
    | Some o => (TEE_SUCCESS, with_view (set_op h (with_key o p)) t)
    | None => (TEE_ERROR_BAD_PARAMETERS, t)
    end).

Definition toy_update (h : handle) (d : bytes) : call toy () :=
  on_op h (fun p t => (tt, with_view (set_op h (with_acc (p_acc p ++ d) p)) t)).

Definition toy_reset (h : handle) : call toy () :=
  on_op h (fun p t => (tt, with_view (set_op h (with_acc [] p)) t)).

Definition toy_digest (h : handle) (d : bytes) (cap : Z) : call toy out_buffer :=
  on_op h (fun p t => (fill (toy_sha256 (p_acc p ++ d)) cap,
                       with_view (set_op h (with_acc [] p)) t)).

Definition toy_mac (h : handle) (d : bytes) (cap : Z) : call toy out_buffer :=
  on_op h (fun p t => match key_attr TEE_ATTR_SECRET_VALUE p with
    | Some k => (fill (toy_cmac k (p_acc p ++ d)) cap, with_view (set_op h (with_acc [] p)) t)
    | None => (no_data TEE_ERROR_BAD_STATE, t)
    end).

Definition toy_mac_compare (h : handle) (d mac : bytes) : call toy TEE_Result :=
  on_op h (fun p t => match key_attr TEE_ATTR_SECRET_VALUE p with
    | Some k => (if decide (mac = toy_cmac k (p_acc p ++ d)) then TEE_SUCCESS
                 else TEE_ERROR_MAC_INVALID, with_view (set_op h (with_acc [] p)) t)
    | None => (TEE_ERROR_BAD_STATE, t)
    end).

Definition toy_derive (h : handle) (attrs : list attr_value) (k : handle) : call toy () := fun t =>
  p ← v_ops (toy_view t) !! h;
  a ← key_attr TEE_ATTR_ECC_PRIVATE_VALUE p;
  x ← attr_buffer TEE_ATTR_ECC_PUBLIC_VALUE_X attrs;
  y ← attr_buffer TEE_ATTR_ECC_PUBLIC_VALUE_Y attrs;
  o ← v_objs (toy_view t) !! k;
  Some (tt, with_view (set_obj k
    (Object (o_type o) [AttrRef TEE_ATTR_SECRET_VALUE (toy_ecdh a x y)])) t).

(** The two coordinates of the key of an operation. *)
Definition public_point (p : tee_operation) : option (bytes * bytes) :=
  x ← key_attr TEE_ATTR_ECC_PUBLIC_VALUE_X p;
  y ← key_attr TEE_ATTR_ECC_PUBLIC_VALUE_Y p;
  Some (x, y).

Definition toy_sign_digest (h : handle) (d : bytes) (cap : Z) : call toy out_buffer :=
  on_op h (fun p t => (match public_point p with
    | Some (x, _) => fill (toy_sign x d) cap
    | None => no_data TEE_ERROR_BAD_STATE
    end, t)).

Definition toy_verify (h : handle) (d sig : bytes) : call toy TEE_Result :=
  on_op h (fun p t => (match public_point p with
    | Some (x, _) => if decide (sig = toy_sign x d) then TEE_SUCCESS
                     else TEE_ERROR_SIGNATURE_INVALID
    | None => TEE_ERROR_BAD_STATE
    end, t)).

Definition toy_ae_init (h : handle) (iv : bytes) (tag : Z) : call toy TEE_Result :=
  on_op h (fun p t => (TEE_SUCCESS, with_view (set_op h (with_iv iv p)) t)).

Definition toy_encrypt (h : handle) (d : bytes) (cap tcap : Z) : call toy (out_buffer * bytes * Z) :=
  on_op h (fun p t => match key_attr TEE_ATTR_SECRET_VALUE p with
    | Some k => let tag := toy_cmac k (p_iv p ++ d) in ((fill d cap, tag, 16), t)
    | None => ((no_data TEE_ERROR_BAD_STATE, [], 0), t)
    end).

Definition toy_decrypt (h : handle) (c : bytes) (cap : Z) (tag : bytes) : call toy out_buffer :=
  on_op h (fun p t => (match key_attr TEE_ATTR_SECRET_VALUE p with
    | Some k => if decide (tag = toy_cmac k (p_iv p ++ c)) then fill c cap
                else no_data TEE_ERROR_MAC_INVALID
    | None => no_data TEE_ERROR_BAD_STATE
    end, t)).

Definition toy_random (n : Z) : call toy bytes := fun t =>
  if 0 <=? n then Some (seeded (Z.to_nat n) (toy_seed t), next_seed t) else None.

Definition toy_malloc (n : Z) : call toy (option (Z * bytes)) := fun t =>
  if 0 <=? n then Some (Some (1, zeros (Z.to_nat n)), t) else None.

(** The attestation service signs the anchor and the claim. *)
Definition toy_quote (claim anchor : bytes) : bytes :=
  let body := anchor ++ le_encode 4 1 ++ claim ++ zeros 64 in
  body ++ toy_sign RA_IMX_TEST_PUBLIC_KEY_X (toy_sha256 body).

Definition toy_invoke (s cmd : handle) (ps : list tee_param)
    : call toy (TEE_Result * list tee_param) := fun t =>
  match ps with
  | [ParamMemrefInput claim; ParamMemrefInput anchor; ParamMemrefInout _; ParamNone] =>
      Some ((TEE_SUCCESS, [ParamMemrefInput claim; ParamMemrefInput anchor;
                           ParamMemrefInout (toy_quote claim anchor); ParamNone]), t)
  | _ => Some ((TEE_ERROR_BAD_PARAMETERS, ps), t)
  end.

Definition toy_open (host : bytes) (port : Z) : call toy (TEE_Result * option handle) := fun t =>
  let h := fresh_handle (v_socks (toy_view t)) in
  Some ((TEE_SUCCESS, Some h), with_view (set_sock h (Socket (peer host port) [] 0)) t).

Definition toy_send (h : handle) (d : bytes) : call toy (TEE_Result * Z) :=
  on_sock h (fun k t => ((TEE_SUCCESS, zlen d), with_view (set_sock h (sock_sent d k)) t)).

Definition toy_recv (h : handle) (cap : Z) : call toy out_buffer :=
  on_sock h (fun k t =>
    if 0 <=? cap then
      let d := take (Z.to_nat cap) (available k) in
      (OutBuffer TEE_SUCCESS d (zlen d), with_view (set_sock h (sock_read (length d) k)) t)
    else (no_data TEE_ERROR_BAD_PARAMETERS, t)).

Definition toy_TEE : TEE := {|
  tee := toy;
  TEE_ECC_CURVE_NIST_P256 := 3;
  TEE_AllocateTransientObject := toy_alloc_obj;
  TEE_FreeTransientObject h t := Some (tt, with_view (del_obj h) t);
  TEE_PopulateTransientObject := toy_populate;
  TEE_GenerateKey := toy_generate;
  TEE_GetObjectBufferAttribute := toy_get_attr;
  TEE_AllocateOperation := toy_alloc_op;
  TEE_FreeOperation h t := Some (tt, with_view (del_op h) t);
  TEE_ResetOperation := toy_reset;
  TEE_SetOperationKey := toy_set_key;
  TEE_DigestUpdate := toy_update;
  TEE_DigestDoFinal := toy_digest;
  TEE_MACInit := toy_reset;
  TEE_MACUpdate := toy_update;
  TEE_MACComputeFinal := toy_mac;
  TEE_MACCompareFinal := toy_mac_compare;
  TEE_DeriveKey := toy_derive;
  TEE_AsymmetricSignDigest := toy_sign_digest;
  TEE_AsymmetricVerifyDigest := toy_verify;
  TEE_AEInit := toy_ae_init;
  TEE_AEEncryptFinal := toy_encrypt;
  TEE_AEDecryptFinal := toy_decrypt;
  TEE_GenerateRandom := toy_random;
  TEE_Malloc := toy_malloc;
  TEE_Free _ t := Some (tt, t);
  TEE_OpenTASession _ t := Some ((TEE_SUCCESS, Some 1), t);
  TEE_CloseTASession _ t := Some (tt, t);
  TEE_InvokeTACommand := toy_invoke;
  PTA_ATTESTATION_SERVICE_UUID := 0;
  ATTESTATION_CMD_GEN_QUOTE := 0;
  tcp_open := toy_open;
  tcp_send := toy_send;
  tcp_recv := toy_recv;
  tcp_close h t := Some (tt, with_view (del_sock h) t)
|}.
End operations.

(** ** The laws hold *)

Lemma fill_success d cap :
  ob_res (fill d cap) = TEE_SUCCESS -> fill d cap = OutBuffer TEE_SUCCESS d (zlen d) /\ zlen d <= cap.
Proof. unfold fill. by destruct (Z.leb_spec (zlen d) cap). Qed.

Lemma public_point_inv p x y :
  public_point p = Some (x, y) ->
  key_attr TEE_ATTR_ECC_PUBLIC_VALUE_X p = Some x /\
  key_attr TEE_ATTR_ECC_PUBLIC_VALUE_Y p = Some y.
Proof.
  unfold public_point.
  destruct (key_attr TEE_ATTR_ECC_PUBLIC_VALUE_X p); [|done].
  destruct (key_attr TEE_ATTR_ECC_PUBLIC_VALUE_Y p); [|done]. simpl. naive_solver.
Qed.

(** Inverts a call of the toy TEE that returned. *)
Ltac toy_inv :=
  intros; simpl in *;
  unfold toy_alloc_obj, toy_populate, toy_generate, toy_get_attr, toy_alloc_op, toy_set_key,
    toy_update, toy_reset, toy_digest, toy_mac, toy_mac_compare, toy_derive, toy_sign_digest,
    toy_verify, toy_ae_init, toy_encrypt, toy_decrypt, toy_random, toy_malloc, toy_invoke,
    toy_open, toy_send, toy_recv, on_op, on_obj, on_sock in *;
  repeat match goal with
  | H : (_ ≫= _) = Some _ |- _ => apply bind_Some in H as (? & ? & H)
  | H : Some _ = Some _ |- _ => injection H as H
  | H : (_, _) = (_, _) |- _ => injection H as H
  | H : context [match ?x with _ => _ end] |- _ => destruct x eqn:?
  | H : TEE_ERROR_BAD_STATE = TEE_SUCCESS |- _ => discriminate H
  end; subst; try discriminate; simpl in *.

Ltac toy_fill :=
  repeat match goal with
  | H : ob_res (fill ?d ?c) = TEE_SUCCESS |- _ =>
      let E := fresh in let L := fresh in
      destruct (fill_success _ _ H) as [E L]; rewrite E; clear H; simpl
  | H : public_point _ = Some _ |- _ => apply public_point_inv in H as [? ?]
  end.

#[export] Program Instance toy_spec (peer : bytes -> Z -> bytes -> bytes)
    : TEE_Spec (toy_TEE peer) toy_crypto := {|
  view := toy_view;
  tcp_peer := peer
|}.
Next Obligation. toy_inv. eauto 10 using fresh_handle_fresh, fresh_handle_pos. Qed.
Next Obligation. by toy_inv. Qed.
Next Obligation. toy_inv. eauto 10. Qed.
Next Obligation. toy_inv. eexists _, _, _, _. split; [done|]. by split; [apply length_pad|]. Qed.
Next Obligation. toy_inv; toy_fill; naive_solver. Qed.
Next Obligation. toy_inv. eauto 10 using fresh_handle_fresh, fresh_handle_pos. Qed.
Next Obligation. by toy_inv. Qed.
Next Obligation. toy_inv. eauto 10. Qed.
Next Obligation. toy_inv. eauto 10. Qed.
Next Obligation. toy_inv. eauto 10. Qed.
Next Obligation.
  toy_inv; toy_fill. eexists. split; [done|]. split; [done|]. split; [|done].
  unfold toy_sha256. by rewrite length_pad.
Qed.
Next Obligation. toy_inv. eauto 10. Qed.
Next Obligation. toy_inv. eauto 10. Qed.
Next Obligation.
  toy_inv; toy_fill. eexists _, _. do 3 (split; [done|]). split; [|done].
  unfold toy_cmac. by rewrite length_zip_with, !length_pad.
Qed.
Next Obligation. toy_inv; eauto 10. Qed.
Next Obligation. toy_inv. eauto 12. Qed.
Next Obligation.
  toy_inv; toy_fill. eexists _, _, _. do 3 (split; [done|]).
  split; [by apply bool_decide_eq_true_2|]. unfold toy_sign. by rewrite length_pad.
Qed.
Next Obligation.
  toy_inv; toy_fill. eexists _, _, _. do 3 (split; [done|]).
  split; [by apply bool_decide_eq_true_2|done].
Qed.
Next Obligation. toy_inv. eauto 10. Qed.
Next Obligation.
  toy_inv; toy_fill. eexists _, _. do 2 (split; [done|]). split; [by rewrite decide_True|].
  split; [|done]. unfold toy_cmac. by rewrite length_zip_with, !length_pad.
Qed.
Next Obligation.
  toy_inv; toy_fill. eexists _, _. do 2 (split; [done|]). split; [by rewrite decide_True|done].
Qed.
Next Obligation. toy_inv. split; [|done]. unfold seeded. rewrite length_pad. lia. Qed.
Next Obligation. toy_inv. split; [done|]. intros p d [= <- <-]. rewrite length_zeros. lia. Qed.
Next Obligation. by toy_inv. Qed.
Next Obligation. by toy_inv. Qed.
Next Obligation. by toy_inv. Qed.
Next Obligation. by toy_inv. Qed.
Next Obligation. toy_inv. eauto 10 using fresh_handle_fresh. Qed.
Next Obligation.
  toy_inv. eexists. split; [done|]. split; [lia|]. by rewrite Nat2Z.id, firstn_all.
Qed.
Next Obligation.
  toy_inv. eexists. split; [done|]. rewrite length_take.
  split; [|split; [done|split; [lia|done]]]. by rewrite <- take_take, firstn_all.
Qed.
Next Obligation. by toy_inv. Qed.
