(* ===== verification/AttesterSpec.v ===== *)
(** * Correctness of the attester *)

From S2P Require Import Prelude TeeApi TeeSpec Layout KeyDerivation TeeLogic KeySpec Attester.

(** Members of updated contexts. *)
Ltac ctx_simpl :=
  cbn [
    ecdh_local_keypair_handle ecdh_remote_public_key_x_attr
    ecdh_remote_public_key_y_attr ecdh_shared_key_derivation_key ecdh_shared_mac_key
    ecdh_shared_session_key ecdsa_verifier_public_key_x_attr
    ecdsa_verifier_public_key_y_attr ecdsa_verifier_public_key_handle msg0 msg1 msg2
    msg3 msg3_size socket_ctx socket_set set_ecdh_local_keypair_handle
    set_ecdh_remote_public_key_x_attr set_ecdh_remote_public_key_y_attr
    set_ecdh_shared_key_derivation_key set_ecdh_shared_mac_key
    set_ecdh_shared_session_key set_ecdsa_verifier_public_key_x_attr
    set_ecdsa_verifier_public_key_y_attr set_ecdsa_verifier_public_key_handle set_msg0
    set_msg1 set_msg2 set_msg3 set_msg3_size set_socket_ctx set_socket_set w_tee w_ctx] in *.

(** Runs a function of the component by its specification. *)
Ltac call spec :=
  eapply wp_seq;
  [eapply spec
  |done
  |intros [?t ?c] ?Hpost; cbv beta in *; ctx_simpl; split_facts; ctx_simpl; view_norm];
  ctx_simpl.

(** Equality of updated contexts. *)
Ltac ctx_eq := ctx_simpl; reflexivity.

(** Offsets and lengths of members. *)
Ltac layout :=
  unfold fits, apart, sizeof_msg0 in *;
  repeat (rewrite length_write by layout);
  cbn [f_off f_len msg0_x_raw msg0_x_size msg0_y_raw msg0_y_size] in *; lia.

(** ** The receive loop *)

(** Every stop but the end of the fuel. *)
Definition in_time (f : fault) : Prop := f <> OutOfFuel.

Section receive.
Context `{T : TEE} `{K : Crypto} `{!TEE_Spec T K} `{P : Platform}.

Abbreviation W := (world tee ra_context).

Lemma sock_read_read n m k : sock_read m (sock_read n k) = sock_read (n + m) k.
Proof. unfold sock_read. simpl. by rewrite Nat.add_assoc. Qed.

Lemma available_sock_read n k : available (sock_read n k) = drop n (available k).
Proof. unfold available. simpl. by rewrite drop_drop. Qed.

Lemma set_sock_set_sock h k1 k2 v : set_sock h k1 (set_sock h k2 v) = set_sock h k1 v.
Proof. unfold set_sock. simpl. by rewrite insert_insert_eq. Qed.

(** Appending what was received to a prefix of the stream. *)
Lemma splice_stream n d (data stream : bytes) :
  (n + length d <= length data)%nat ->
  take n data = take n stream -> d = take (length d) (drop n stream) ->
  take (n + length d) (splice n d data) = take (n + length d) stream.
Proof.
  intros Hl Hp Hd. unfold splice.
  rewrite app_assoc, take_app_le by (rewrite length_app, length_take; lia).
  rewrite take_ge by (rewrite length_app, length_take; lia).
  rewrite Hp, <- take_take_drop. by rewrite <- Hd.
Qed.

(** While it runs, the loop has read the first [n] bytes of the stream into
    the buffer. Every round reads at least one byte or is the last one. *)
Lemma receive_loop_spec fuel socket k0 n chunk data size (w : W) :
  v_socks (view (w_tee w)) !! socket = Some (sock_read n k0) ->
  (n <= length data)%nat -> zlen data < 2 ^ 32 -> size - Z.of_nat n < Z.of_nat fuel ->
  take n data = take n (available k0) ->
  wp in_time (receive_loop fuel socket chunk data size n (Z.of_nat n))
    (fun '(res, data', got) w' => length data' = length data /\ w_ctx w' = w_ctx w /\
      (res = TEE_SUCCESS -> exists m, got = Some (Z.of_nat m) /\
        take m data' = take m (available k0) /\ (m <= length data)%nat /\
        view (w_tee w') = set_sock socket (sock_read m k0) (view (w_tee w)))) w.
Proof.
  revert n chunk data w. induction fuel as [|fuel IH];
    intros n chunk data w Hs Hn Hlen Hfuel Hd; cbn [receive_loop].
  { destruct (Z.ltb_spec (Z.of_nat n) size); [lia|]. rewrite andb_false_r.
    apply wp_ret. split; [done|]. split; [done|]. intros _. exists n.
    do 3 (split; [done|]). unfold set_sock.
    destruct (view (w_tee w)); simpl in *. by rewrite insert_id. }
  destruct ((0 <? chunk) && (Z.of_nat n <? size)) eqn:Hgo.
  2:{ apply wp_ret. split; [done|]. split; [done|]. intros _. exists n.
      do 3 (split; [done|]). unfold set_sock.
      destruct (view (w_tee w)); simpl in *. by rewrite insert_id. }
  apply andb_true_iff in Hgo as [Hchunk Hgo]. apply Z.ltb_lt in Hgo.
  destruct (Z.ltb_spec size (Z.of_nat n)); [lia|].
  apply wp_bind, wp_tcall; [|done]. intros r t Hr.
  apply wp_bind, wp_require; [|done]. intros Hroom%Nat.leb_le.
  destruct (failed (ob_res r)) eqn:Hf.
  { apply wp_ret. split; [by apply length_splice|]. split; [done|].
    intros Hres. by rewrite Hres in Hf. }
  apply failed_false in Hf.
  pose proof (spec_tcp_recv _ _ _ _ _ Hr Hf) as (k & Hk & Hdata & Hsize & _ & Hv).
  rewrite Hs in Hk. injection Hk as <-.
  rewrite available_sock_read in Hdata. rewrite sock_read_read in Hv.
  rewrite Hsize, Nat2Z.id.
  replace (wrap32 (Z.of_nat n + zlen (ob_data r)))
    with (Z.of_nat (n + length (ob_data r)))
    by (unfold wrap32; rewrite Z.mod_small; lia).
  destruct (decide (length (ob_data r) = 0%nat)) as [H0|H0].
  { rewrite H0. destruct fuel; cbn [receive_loop]; simpl (0 <? _);
      cbn [andb]; apply wp_ret; (split; [by apply length_splice|]); (split; [done|]);
      intros _; exists (n + 0)%nat; rewrite H0 in Hv; repeat split; try done; try lia;
      rewrite <- H0; by apply splice_stream. }
  eapply wp_mono; [apply IH|].
  - simpl. rewrite Hv. simpl. apply lookup_insert_eq.
  - rewrite length_splice; lia.
  - rewrite length_splice; lia.
  - lia.
  - by apply splice_stream.
  - intros [[res data'] got] w'. rewrite length_splice by lia. simpl.
    intros (Hl & Hc & Hok). do 2 (split; [done|]). intros Hres.
    destruct (Hok Hres) as (m & Hm & Ht & Hle & Hv'). exists m.
    do 3 (split; [done|]). by rewrite Hv', Hv, set_sock_set_sock.
Qed.
End receive.

(** ** Establishing the session *)

Section session.
Context `{T : TEE} `{K : Crypto} `{!TEE_Spec T K} `{P : Platform}.

Abbreviation W := (world tee ra_context).

Lemma sizeof_msg1_room : (144 + RA_SIGNATURE_SIZE + 16 <= sizeof_msg1)%nat.
Proof. apply align_up_le. lia. Qed.

(** [TEE_GetObjectBufferAttribute] into a member of [msg0]. *)
Lemma get_public_value_spec id raw size (w : W) :
  fits raw (length (msg0 (w_ctx w))) -> fits size (length (msg0 (w_ctx w))) ->
  apart raw size -> f_len size = 4%nat -> (f_len raw < 256)%nat ->
  wp any_fault (get_public_value id raw size)
    (on_success Datatypes.id (fun _ w' => exists o d,
      v_objs (view (w_tee w)) !! ecdh_local_keypair_handle (w_ctx w) = Some o /\
      obj_attr id o = Some d /\ (length d <= f_len raw)%nat /\
      w_ctx w' = set_msg0 (uset size (zlen d) (splice (f_off raw) d (msg0 (w_ctx w)))) (w_ctx w) /\
      view (w_tee w') = view (w_tee w))) w.
Proof.
  intros Hraw Hsize Hapart Hs4 Hr. destruct w as [t c]. simpl in *.
  unfold get_public_value. repeat tee_step.
  apply wp_ret. intros Hres. simpl in Hres.
  learn_call H. split_facts. apply fwrite_inv in H0 as [Hd ->].
  eexists _, _. do 3 (split; [eassumption|]). split; [|done].
  simpl. by rewrite H2.
Qed.

(** The attester's public key in a message [msg0]. *)
Definition msg0_key (m x y : bytes) : Prop :=
  length m = sizeof_msg0 /\ sized msg0_x_raw msg0_x_size m = Some x /\
  sized msg0_y_raw msg0_y_size m = Some y.

Lemma msg0_key_write m x y :
  length m = sizeof_msg0 -> (length x <= 32)%nat -> (length y <= 32)%nat ->
  msg0_key (write_pair msg0_x_raw msg0_x_size msg0_y_raw msg0_y_size x y m) x y.
Proof.
  intros Hm Hx Hy.
  assert (separate (length m) [msg0_x_raw; msg0_x_size; msg0_y_raw; msg0_y_size]) as Hsep
    by (rewrite Hm; repeat split; repeat constructor; layout).
  split; [by rewrite length_write_pair|].
  apply sized_write_pair; try done; simpl; lia.
Qed.

Lemma generate_ecdh_keypair_spec (w : W) :
  length (msg0 (w_ctx w)) = sizeof_msg0 ->
  wp any_fault generate_ecdh_keypair
    (on_success id (fun _ w' => exists h o a x y m,
      w_ctx w' = set_msg0 m (set_ecdh_local_keypair_handle h (w_ctx w)) /\
      v_objs (view (w_tee w')) !! h = Some o /\ keypair_object o a x y /\
      msg0_key m x y /\ grows (view (w_tee w)) (view (w_tee w')))) w.
Proof.
  intros Hlen. destruct w as [t c]. simpl in *. unfold generate_ecdh_keypair.
  destruct (view t) as [objs ops socks] eqn:Hv0.
  do 9 tee_step. ctx_simpl. view_norm.
  call get_public_value_spec; [layout..|]. call get_public_value_spec; [layout..|].
  tee_return. attr_facts.
  do 6 eexists. split; [ctx_eq|]. split; [view_lookup|].
  split; [by repeat split|]. split; [by apply msg0_key_write|grows_solve].
Qed.


Lemma establish_tcp_connection_spec host (w : W) :
  wp any_fault (establish_tcp_connection host)
    (on_success id (fun _ w' => exists h,
      w_ctx w' = set_socket_ctx h (set_socket_set true (w_ctx w)) /\
      view (w_tee w') = set_sock h (Socket (tcp_peer host 8080) [] 0) (view (w_tee w)))) w.
Proof.
  destruct w as [t c]. unfold establish_tcp_connection. repeat tee_step.
  tee_return. eexists. split; [reflexivity|done].
Qed.

Lemma send_msg0_spec (w : W) :
  wp any_fault send_msg0
    (on_success id (fun _ w' => exists k n,
      v_socks (view (w_tee w)) !! socket_ctx (w_ctx w) = Some k /\
      w_ctx w' = w_ctx w /\
      view (w_tee w') = set_sock (socket_ctx (w_ctx w))
        (sock_sent (take n (msg0 (w_ctx w))) k) (view (w_tee w)))) w.
Proof.
  destruct w as [t c]. unfold send_msg0. repeat tee_step.
  tee_return. do 2 eexists. split; [eassumption|]. by split.
Qed.

Lemma sizeof_msg1_small : Z.of_nat sizeof_msg1 < 2 ^ 32.
Proof.
  pose proof (align_up_lt (144 + RA_SIGNATURE_SIZE + 16) 4 ltac:(lia)).
  pose proof small_structures. unfold sizeof_msg1. lia.
Qed.

Lemma receive_socket_per_chunk_spec socket k chunk data (w : W) :
  v_socks (view (w_tee w)) !! socket = Some k -> zlen data < 2 ^ 32 ->
  wp in_time (receive_socket_per_chunk socket chunk data (zlen data))
    (fun '(res, data', got) w' => length data' = length data /\ w_ctx w' = w_ctx w /\
      (res = TEE_SUCCESS -> exists m, got = Some (Z.of_nat m) /\
        take m data' = take m (available k) /\ (m <= length data)%nat /\
        view (w_tee w') = set_sock socket (sock_read m k) (view (w_tee w)))) w.
Proof.
  intros Hk Hl. unfold receive_socket_per_chunk.
  change 0 with (Z.of_nat 0) at 1. apply receive_loop_spec; [|lia|done|lia|done].
  rewrite Hk. unfold sock_read. rewrite Nat.add_0_r. by destruct k.
Qed.

(** The context after [receive_msg1] has stored the message [m]. *)
Definition with_msg1 (m : bytes) (c : ra_context) : ra_context :=
  set_ecdh_remote_public_key_y_attr
    (RefAttribute TEE_ATTR_ECC_PUBLIC_VALUE_Y msg1_ecdh_y_raw (uget msg1_ecdh_y_size m))
    (set_ecdh_remote_public_key_x_attr
      (RefAttribute TEE_ATTR_ECC_PUBLIC_VALUE_X msg1_ecdh_x_raw (uget msg1_ecdh_x_size m))
      (set_msg1 m c)).

Lemma receive_msg1_spec k (w : W) :
  v_socks (view (w_tee w)) !! socket_ctx (w_ctx w) = Some k ->
  wp any_fault receive_msg1
    (on_success id (fun _ w' => exists m,
      length m = sizeof_msg1 /\ m = take sizeof_msg1 (available k) /\
      w_ctx w' = with_msg1 m (w_ctx w) /\
      view (w_tee w') = set_sock (socket_ctx (w_ctx w)) (sock_read sizeof_msg1 k)
                          (view (w_tee w)))) w.
Proof.
  intros Hk. destruct w as [t c]. simpl in *. unfold receive_msg1.
  apply wp_bind, wp_ctx, wp_bind. ctx_simpl.
  pose proof sizeof_msg1_small as Hsmall.
  eapply wp_mono.
  { rewrite <- (length_zeros sizeof_msg1) at 3.
    eapply wp_fault_weaken; [|apply receive_socket_per_chunk_spec];
      [done|eassumption|by rewrite length_zeros]. }
  rewrite length_zeros. intros [[res m] got] [t' c'] (Hlen & Hc & Hok). ctx_simpl. subst c'.
  tee_step.
  destruct (Hok eq_refl) as (n & -> & Hm & Hn & Hv). cbn [default from_option id].
  destruct (Z.ltb_spec (Z.of_nat n) (Z.of_nat sizeof_msg1)); [by apply wp_ret|].
  assert (n = sizeof_msg1) as -> by lia.
  rewrite take_ge in Hm by lia. repeat tee_step. tee_return.
  exists (take sizeof_msg1 (available k)). by repeat split.
Qed.

(** The key a caller pins: none, or two coordinates of 32 bytes that are the
    ones of the message. *)
Definition pinned (x : bytes) (x_size : Z) (y : bytes) (y_size : Z) (m : bytes) : Prop :=
  (x_size = 0 /\ y_size = 0) \/
  (x_size = 32 /\ y_size = 32 /\ bread x 32 = Some (fget msg1_ecdsa_x_raw m) /\
   bread y 32 = Some (fget msg1_ecdsa_y_raw m)).

Lemma compare_member_spec b f (w : W) :
  f_len f = 32%nat ->
  wp any_fault (compare_member b 32 f)
    (fun differ w' => w' = w /\
      (differ = false -> bread b 32 = Some (fget f (msg1 (w_ctx w))))) w.
Proof.
  intros Hf. unfold compare_member. repeat tee_step. apply wp_ret. split; [done|].
  rewrite negb_false_iff. intros Heq%bool_decide_eq_true_1. subst a0.
  apply fread_inv in H0 as [_ Ha]. rewrite Ha in H. rewrite H.
  unfold fget. by rewrite Hf.
Qed.

Lemma verify_service_public_key_spec x x_size y y_size (w : W) :
  wp any_fault (verify_service_public_key x x_size y y_size)
    (on_success id (fun _ w' => w' = w /\ pinned x x_size y y_size (msg1 (w_ctx w)))) w.
Proof.
  unfold verify_service_public_key.
  destruct (Z.eqb_spec x_size 0), (Z.eqb_spec y_size 0); cbn [andb];
    try (apply wp_ret; intros _; split; [done|by left]).
  all: change (RA_ECDSA_KEY_SIZE / 8) with 32.
  all: destruct (Z.eqb_spec x_size 32), (Z.eqb_spec y_size 32); cbn [negb orb];
    try by apply wp_ret.
  all: subst; try lia.
  apply wp_bind. eapply wp_mono; [by apply compare_member_spec|].
  intros [] w' (-> & Hx); [by apply wp_ret|].
  apply wp_bind. eapply wp_mono; [by apply compare_member_spec|].
  intros [] w' (-> & Hy); [by apply wp_ret|].
  apply wp_ret. intros _. split; [done|]. right. repeat split; auto.
Qed.

(** The parts of [msg1] that the attester reads. *)
Record msg1_parts (m vx vy sx sy : bytes) : Prop := Msg1Parts {
  part_vx : sized msg1_ecdh_x_raw msg1_ecdh_x_size m = Some vx;
  part_vy : sized msg1_ecdh_y_raw msg1_ecdh_y_size m = Some vy;
  part_sx : sized msg1_ecdsa_x_raw msg1_ecdsa_x_size m = Some sx;
  part_sy : sized msg1_ecdsa_y_raw msg1_ecdsa_y_size m = Some sy
}.

Lemma import_verifier_attestation_key_spec (w : W) :
  wp any_fault import_verifier_attestation_key
    (on_success id (fun _ w' => exists h o sx sy xa ya,
      sized msg1_ecdsa_x_raw msg1_ecdsa_x_size (msg1 (w_ctx w)) = Some sx /\
      sized msg1_ecdsa_y_raw msg1_ecdsa_y_size (msg1 (w_ctx w)) = Some sy /\
      w_ctx w' = set_ecdsa_verifier_public_key_y_attr ya
        (set_ecdsa_verifier_public_key_x_attr xa
          (set_ecdsa_verifier_public_key_handle h (w_ctx w))) /\
      v_objs (view (w_tee w')) !! h = Some o /\
      obj_attr TEE_ATTR_ECC_PUBLIC_VALUE_X o = Some sx /\
      obj_attr TEE_ATTR_ECC_PUBLIC_VALUE_Y o = Some sy /\
      grows (view (w_tee w)) (view (w_tee w')))) w.
Proof.
  destruct w as [t c]. simpl in *. destruct (view t) as [objs ops socks] eqn:Hv0.
  unfold import_verifier_attestation_key. repeat tee_step.
  ctx_simpl. tee_return.
  unfold deref in *. cbn [read_attribute] in *. ctx_simpl.
  apply fmap_Some in H as (sx & Hx & ->). apply fmap_Some in H3 as (sy & Hy & ->).
  do 6 eexists. split; [exact Hx|]. split; [exact Hy|]. split; [reflexivity|].
  split; [view_lookup|]. do 2 (split; [reflexivity|]). grows_solve.
Qed.

(** The signature that authenticates the verifier: over both public keys,
    under the key that [msg1] carries. *)
Lemma verify_ecdh_public_key_signature_spec (w : W) :
  wp any_fault verify_ecdh_public_key_signature
    (on_success id (fun _ w' => exists o vx vy x y sx sy,
      v_objs (view (w_tee w)) !! ecdsa_verifier_public_key_handle (w_ctx w) = Some o /\
      obj_attr TEE_ATTR_ECC_PUBLIC_VALUE_X o = Some sx /\
      obj_attr TEE_ATTR_ECC_PUBLIC_VALUE_Y o = Some sy /\
      sized msg1_ecdh_x_raw msg1_ecdh_x_size (msg1 (w_ctx w)) = Some vx /\
      sized msg1_ecdh_y_raw msg1_ecdh_y_size (msg1 (w_ctx w)) = Some vy /\
      sized msg0_x_raw msg0_x_size (msg0 (w_ctx w)) = Some x /\
      sized msg0_y_raw msg0_y_size (msg0 (w_ctx w)) = Some y /\
      ecdsa_verify sx sy (sha256 (vx ++ vy ++ x ++ y))
        (fget msg1_signature (msg1 (w_ctx w))) = true /\
      w_ctx w' = w_ctx w /\ grows (view (w_tee w)) (view (w_tee w')))) w.
Proof.
  destruct w as [t c]. simpl in *. destruct (view t) as [objs ops socks] eqn:Hv0.
  unfold verify_ecdh_public_key_signature.
  repeat (tee_step || size_check). tee_return. buffer_facts.
  do 7 eexists. known. grows_solve.
Qed.

Lemma verify_msg1_mac_spec (w : W) :
  wp any_fault verify_msg1_mac
    (on_success id (fun _ w' => exists o mk vx vy sx sy,
      v_objs (view (w_tee w)) !! ecdh_shared_mac_key (w_ctx w) = Some o /\
      obj_attr TEE_ATTR_SECRET_VALUE o = Some mk /\
      msg1_parts (msg1 (w_ctx w)) vx vy sx sy /\
      fget msg1_mac (msg1 (w_ctx w)) =
        aes_cmac mk (vx ++ vy ++ sx ++ sy ++ fget msg1_signature (msg1 (w_ctx w))) /\
      w_ctx w' = w_ctx w /\ grows (view (w_tee w)) (view (w_tee w')))) w.
Proof.
  destruct w as [t c]. simpl in *. destruct (view t) as [objs ops socks] eqn:Hv0.
  unfold verify_msg1_mac.
  repeat (tee_step || size_check). tee_return. buffer_facts.
  do 6 eexists. do 2 (split; [eassumption|]). split; [by constructor|]. known. grows_solve.
Qed.

(** The anchor binds the quote to the session: the digest of both keys. *)
Lemma generate_anchor_spec anchor anchor_size (w : W) :
  wp any_fault (generate_anchor anchor anchor_size)
    (on_success fst (fun '(_, anchor') w' => exists x y vx vy,
      sized msg0_x_raw msg0_x_size (msg0 (w_ctx w)) = Some x /\
      sized msg0_y_raw msg0_y_size (msg0 (w_ctx w)) = Some y /\
      sized msg1_ecdh_x_raw msg1_ecdh_x_size (msg1 (w_ctx w)) = Some vx /\
      sized msg1_ecdh_y_raw msg1_ecdh_y_size (msg1 (w_ctx w)) = Some vy /\
      RA_ANCHOR_SIZE = 32%nat /\ anchor_size = 32 /\
      bwrite (sha256 (x ++ y ++ vx ++ vy)) anchor = Some anchor' /\
      w_ctx w' = w_ctx w /\ grows (view (w_tee w)) (view (w_tee w')))) w.
Proof.
  destruct w as [t c]. simpl in *. destruct (view t) as [objs ops socks] eqn:Hv0.
  unfold generate_anchor.
  destruct (Z.eqb_spec anchor_size (Z.of_nat RA_ANCHOR_SIZE)) as [Ha|Ha]; cbn [negb];
    [|by apply wp_ret].
  repeat (tee_step || size_check). tee_return. rewrite H8 in H7. buffer_facts.
  do 4 eexists. do 4 (split; [eassumption|]). split; [lia|]. split; [lia|].
  known. grows_solve.
Qed.

(** The remote public key in a context that holds [msg1]. *)
Lemma remote_public_key_with_msg1 m c attrs :
  remote_public_key (with_msg1 m c) = Some attrs ->
  exists vx vy, sized msg1_ecdh_x_raw msg1_ecdh_x_size m = Some vx /\
    sized msg1_ecdh_y_raw msg1_ecdh_y_size m = Some vy /\
    attrs = [AttrRef TEE_ATTR_ECC_PUBLIC_VALUE_X vx; AttrRef TEE_ATTR_ECC_PUBLIC_VALUE_Y vy].
Proof.
  unfold remote_public_key, sized, deref, with_msg1. ctx_simpl. cbn [read_attribute].
  destruct (fread msg1_ecdh_x_raw m _) as [vx|]; simpl; [|done].
  destruct (fread msg1_ecdh_y_raw m _) as [vy|]; simpl; [|done].
  intros [= <-]. eauto.
Qed.

(** What the attester knows once both messages are exchanged: its key pair
    [(a, (x, y))], the verifier's ephemeral key [(vx, vy)] and signature key
    [(sx, sy)], and the signature that binds them. *)
Record exchanged (c : ra_context) (v : tee_view) (a x y vx vy sx sy : bytes) : Prop := {
  ex_keypair : exists o, v_objs v !! ecdh_local_keypair_handle c = Some o /\
    keypair_object o a x y;
  ex_msg0 : msg0_key (msg0 c) x y;
  ex_msg1 : length (msg1 c) = sizeof_msg1 /\ msg1_parts (msg1 c) vx vy sx sy;
  ex_remote : remote_public_key c = remote_public_key (with_msg1 (msg1 c) c);
  ex_signature :
    ecdsa_verify sx sy (sha256 (vx ++ vy ++ x ++ y)) (fget msg1_signature (msg1 c)) = true
}.

(** What the attester knows when the handshake has succeeded: its key pair
    [(a, (x, y))], the verifier's ephemeral key [(vx, vy)] and signature key
    [(sx, sy)]. *)
Record authenticated (c : ra_context) (v : tee_view) (a x y vx vy sx sy : bytes) : Prop := {
  au_keypair : exists o, v_objs v !! ecdh_local_keypair_handle c = Some o /\
    keypair_object o a x y;
  au_msg0 : msg0_key (msg0 c) x y;
  au_msg1 : length (msg1 c) = sizeof_msg1 /\ msg1_parts (msg1 c) vx vy sx sy;
  au_signature :
    ecdsa_verify sx sy (sha256 (vx ++ vy ++ x ++ y)) (fget msg1_signature (msg1 c)) = true;
  au_mac : fget msg1_mac (msg1 c) =
    aes_cmac (mac_key (shared_kdk a vx vy))
      (vx ++ vy ++ sx ++ sy ++ fget msg1_signature (msg1 c));
  au_mac_key : aes_key v (ecdh_shared_mac_key c) (mac_key (shared_kdk a vx vy));
  au_session_key :
    aes_key v (ecdh_shared_session_key c) (session_key (shared_kdk a vx vy))
}.

Lemma derive_label_spec data output set_output (w : W) kdk :
  (forall h c, output (set_output h c) = h) -> zlen data < 256 ->
  aes_key (view (w_tee w)) (ecdh_shared_key_derivation_key (w_ctx w)) kdk ->
  wp any_fault (derive_shared_mac_key data (zlen data) output set_output)
    (on_success id (fun _ w' => exists h, w_ctx w' = set_output h (w_ctx w) /\
      aes_key (view (w_tee w')) h (aes_cmac kdk data) /\
      grows (view (w_tee w)) (view (w_tee w')))) w.
Proof.
  intros Hout Hlen Hkdk. unfold derive_shared_mac_key.
  apply wp_bind, wp_get_some; [|done]. intros d Hd.
  rewrite Z.mod_small in Hd by lia. apply bread_all in Hd. subst d.
  eapply wp_mono; [by apply derive_shared_mac_key_spec|].
  intros res w' Hok Hres. destruct (Hok Hres) as (ko & k & h & Hko & Hk & Hc & Hh & Hg).
  rewrite (aes_key_value _ _ _ _ _ Hkdk Hko Hk) in Hh. eauto.
Qed.

(** ** The handshake *)

(** The part of the handshake before the keys are derived: both messages have
    been exchanged and the signature of the second one is valid. *)
Definition exchange (host x : bytes) (x_size : Z) (y : bytes) (y_size : Z) : M W TEE_Result :=
  res ← alloc_ra_context;
  if failed res then mret res else
  res ← generate_ecdh_keypair;
  if failed res then mret res else
  res ← establish_tcp_connection host;
  if failed res then mret res else
  res ← send_msg0;
  if failed res then mret res else
  res ← receive_msg1;
  if failed res then mret res else
  res ← verify_service_public_key x x_size y y_size;
  if failed res then mret res else
  res ← import_verifier_attestation_key;
  if failed res then mret res else
  verify_ecdh_public_key_signature.

Lemma alloc_ra_context_spec (w : W) :
  wp any_fault alloc_ra_context
    (on_success id (fun _ w' => length (msg0 (w_ctx w')) = sizeof_msg0 /\
      view (w_tee w') = view (w_tee w))) w.
Proof. by unfold alloc_ra_context; repeat tee_step; tee_return. Qed.

Lemma exchange_spec host px px_size py py_size (w : W) :
  wp any_fault (exchange host px px_size py py_size)
    (on_success id (fun _ w' => exists a x y vx vy sx sy n,
      exchanged (w_ctx w') (view (w_tee w')) a x y vx vy sx sy /\
      pinned px px_size py py_size (msg1 (w_ctx w')) /\
      msg1 (w_ctx w') =
        take sizeof_msg1 (tcp_peer host 8080 (take n (msg0 (w_ctx w')))))) w.
Proof.
  unfold exchange.
  eapply wp_seq; [apply alloc_ra_context_spec|done|]. intros [t1 c1] (Hlen & Hv1). ctx_simpl.
  eapply wp_seq; [by apply generate_ecdh_keypair_spec|done|]. ctx_simpl.
  intros [t2 c2] (h & o & a & x & y & m0 & Hc2 & Ho & Hkp & Hm0 & _). ctx_simpl.
  eapply wp_seq; [apply establish_tcp_connection_spec|done|]. ctx_simpl.
  intros [t3 c3] (sk & Hc3 & Hv3). ctx_simpl.
  eapply wp_seq; [apply send_msg0_spec|done|]. ctx_simpl.
  intros [t4 c4] (k & n & Hk & Hc4 & Hv4). ctx_simpl. subst c4.
  assert (k = Socket (tcp_peer host 8080) [] 0) as ->
    by (rewrite Hv3, Hc3 in Hk; cbn in Hk; rewrite lookup_insert_eq in Hk; congruence).
  eapply wp_seq; [eapply receive_msg1_spec|done|]; ctx_simpl.
  { rewrite Hv4. apply lookup_insert_eq. }
  intros [t5 c5] (m & Hm & Hpeer & Hc5 & Hv5). ctx_simpl.
  eapply wp_seq; [apply verify_service_public_key_spec|done|]. ctx_simpl.
  intros w6 (-> & Hpin). ctx_simpl.
  eapply wp_seq; [apply import_verifier_attestation_key_spec|done|]. ctx_simpl.
  intros [t7 c7] (vh & so & sx & sy & xa & ya & Hsx & Hsy & Hc7 & Hso & Hox & Hoy & Hg7).
  ctx_simpl.
  eapply wp_mono; [apply verify_ecdh_public_key_signature_spec|]. ctx_simpl.
  intros res [t8 c8] Hok Hres. ctx_simpl.
  destruct (Hok Hres) as (so' & vx & vy & x' & y' & sx' & sy' & Hso' & Hsx' & Hsy' & Hvx & Hvy
    & Hx' & Hy' & Hsig & Hc8 & Hg8). ctx_simpl. subst c8.
  rewrite Hc7 in Hso'. ctx_simpl. rewrite Hso in Hso'. injection Hso' as <-.
  rewrite Hox in Hsx'. injection Hsx' as <-. rewrite Hoy in Hsy'. injection Hsy' as <-.
  subst c7. unfold with_msg1 in *. subst c5 c3 c2. ctx_simpl.
  destruct Hm0 as (Hm0l & Hm0x & Hm0y). rewrite Hm0x in Hx'. injection Hx' as <-.
  rewrite Hm0y in Hy'. injection Hy' as <-.
  exists a, x, y, vx, vy, sx, sy, n. split; [|by split]. split; ctx_simpl; try done.
  exists o. split; [|done]. eapply grows_obj, grows_obj; [exact Hg8|exact Hg7|].
  rewrite Hv5, Hv4, Hv3. exact Ho.
Qed.

(** The rest of the handshake derives the keys and checks the MAC. *)
Definition key_exchange (anchor : bytes) (anchor_size : Z) : M W (TEE_Result * bytes) :=
  res ← derive_shared_key;
  if failed res then mret (res, anchor) else
  res ← derive_shared_mac_key RA_SHARED_MAC_DATA (zlen RA_SHARED_MAC_DATA)
          ecdh_shared_mac_key set_ecdh_shared_mac_key;
  if failed res then mret (res, anchor) else
  res ← derive_shared_mac_key RA_SHARED_SESSION_DATA (zlen RA_SHARED_SESSION_DATA)
          ecdh_shared_session_key set_ecdh_shared_session_key;
  if failed res then mret (res, anchor) else
  res ← verify_msg1_mac;
  if failed res then mret (res, anchor) else
  '(res, anchor) ← generate_anchor anchor anchor_size;
  if failed res then mret (res, anchor) else
  mret (TEE_SUCCESS, anchor).

Lemma handshake_split host x x_size y y_size anchor anchor_size w :
  ra_net_handshake host x x_size y y_size anchor anchor_size w =
  (res ← exchange host x x_size y y_size;
   if failed res then mret (res, anchor) else key_exchange anchor anchor_size) w.
Proof.
  revert w. do 7 apply cut_checked. reflexivity.
Qed.

Lemma key_exchange_spec anchor anchor_size (w : W) a x y vx vy sx sy :
  exchanged (w_ctx w) (view (w_tee w)) a x y vx vy sx sy ->
  wp any_fault (key_exchange anchor anchor_size)
    (on_success fst (fun '(_, anchor') w' =>
      authenticated (w_ctx w') (view (w_tee w')) a x y vx vy sx sy /\
      msg0 (w_ctx w') = msg0 (w_ctx w) /\ msg1 (w_ctx w') = msg1 (w_ctx w) /\
      anchor_size = 32 /\ bwrite (sha256 (x ++ y ++ vx ++ vy)) anchor = Some anchor')) w.
Proof.
  destruct w as [t c]. ctx_simpl. intros [(o & Ho & Hkp) Hm0 (Hlen & Hparts) Hrpk Hsig].
  pose proof Hparts as [Hvx Hvy Hsx Hsy]. unfold key_exchange, derive_shared_key.
  eapply wp_seq; [by apply derive_shared_key_spec|done|].
  intros [t2 c2] (kp & attrs & a' & vx' & vy' & h2 & Hkp' & Hattrs & Ha' & Hvx' & Hvy' & Hc2
    & Hk2 & Hg2). ctx_simpl.
  rewrite Hrpk in Hattrs. apply remote_public_key_with_msg1 in Hattrs as (? & ? & H1 & H2 & ->).
  attr_facts. rewrite Hvx in H1. rewrite Hvy in H2. rewrite Ho in Hkp'. simplify_eq.
  destruct Hkp as (Hpriv & Hpub & Ha & Hox & Hoy). unfold obj_attr in Ha. simplify_eq.
  eapply wp_seq; [by eapply derive_label_spec|done|].
  intros [t3 c3] (h3 & Hc3 & Hk3 & Hg3). ctx_simpl. subst c3.
  eapply wp_seq; [eapply derive_label_spec; [done..|by eapply aes_key_grows]|done|].
  intros [t4 c4] (h4 & Hc4 & Hk4 & Hg4). ctx_simpl. subst c4.
  eapply wp_seq; [apply verify_msg1_mac_spec|done|].
  intros [t5 c5] (mo & mk & vx2 & vy2 & sx2 & sy2 & Hmo & Hmk & [Hx' Hy' Hsx' Hsy'] & Hmac & Hc5
    & Hg5). ctx_simpl. subst c5. ctx_simpl. simplify_eq.
  pose proof (aes_key_grows _ _ _ _ Hg4 Hk3) as Hk3'.
  rewrite (aes_key_value _ _ _ _ _ Hk3' Hmo Hmk) in Hmac.
  apply wp_bind. eapply wp_mono; [apply generate_anchor_spec|].
  intros [res anchor'] [t6 c6] Hok. destruct (failed res) eqn:Hf.
  { apply wp_ret. intros Hres. simpl in Hres. by subst res. }
  apply wp_ret. intros _. apply failed_false in Hf.
  destruct (Hok Hf) as (x3 & y3 & vx3 & vy3 & Hx1 & Hy1 & Hvx1 & Hvy1 & _ & Has & Hanchor & Hc6
    & Hg6). ctx_simpl. subst c6. ctx_simpl.
  destruct Hm0 as (Hm0l & Hm0x & Hm0y). simplify_eq.
  assert (grows (view t3) (view t6)) as Hg36 by (by do 2 (etrans; [eassumption|])).
  split; [|done]. split; ctx_simpl; try done.
  - eexists. split; [eapply grows_obj; [|exact Ho]; by do 2 (etrans; [eassumption|])|].
    done.
  - by eapply aes_key_grows.
  - eapply aes_key_grows; [|exact Hk4]. by etrans.
Qed.

(** What success of the handshake establishes. *)
Definition handshake_done (host px : bytes) (px_size : Z) (py : bytes) (py_size : Z)
    (anchor : bytes) (anchor_size : Z) (anchor' : bytes) (w' : W) : Prop :=
  exists a x y vx vy sx sy n,
    authenticated (w_ctx w') (view (w_tee w')) a x y vx vy sx sy /\
    pinned px px_size py py_size (msg1 (w_ctx w')) /\
    msg1 (w_ctx w') =
      take sizeof_msg1 (tcp_peer host 8080 (take n (msg0 (w_ctx w')))) /\
    anchor_size = 32 /\ bwrite (sha256 (x ++ y ++ vx ++ vy)) anchor = Some anchor'.

Lemma ra_net_handshake_spec host px px_size py py_size anchor anchor_size (w : W) :
  wp any_fault (ra_net_handshake host px px_size py py_size anchor anchor_size)
    (on_success fst (fun '(_, anchor') w' =>
      handshake_done host px px_size py py_size anchor anchor_size anchor' w')) w.
Proof.
  unfold wp. rewrite handshake_split. change (wp any_fault (res ← exchange host px px_size py py_size;
   if failed res then mret (res, anchor) else key_exchange anchor anchor_size)
   (on_success fst (fun '(_, anchor') w' =>
      handshake_done host px px_size py py_size anchor anchor_size anchor' w')) w).
  eapply wp_seq; [apply exchange_spec|done|].
  intros w1 (a & x & y & vx & vy & sx & sy & n & Hex & Hpin & Hpeer).
  eapply wp_mono; [by apply key_exchange_spec|].
  intros [res anchor'] w2 Hok Hres. destruct (Hok Hres) as (Hau & H0 & H1 & Has & Hanchor).
  exists a, x, y, vx, vy, sx, sy, n. by rewrite H0, H1.
Qed.

(** ** Sending the quote and receiving the secret *)

(** [prepare_msg2] reports success on every path. *)
Lemma prepare_msg2_result quote (w : W) :
  wp any_fault (prepare_msg2 quote) (fun res _ => res = TEE_SUCCESS) w.
Proof.
  unfold prepare_msg2. revert w.
  repeat first [intros ?; done
               |intros ?; apply wp_any_bind; intros [? ?]
               |intros ?; apply wp_any_bind; intros ?
               |case_match].
Qed.

Lemma decrypt_msg3_spec data_size (w : W) :
  wp any_fault (decrypt_msg3 data_size)
    (on_success (fun p => fst (fst p)) (fun '(_, data, n) w' => exists o k p m ct,
      v_objs (view (w_tee w)) !! ecdh_shared_session_key (w_ctx w) = Some o /\
      obj_attr TEE_ATTR_SECRET_VALUE o = Some k /\
      msg3 (w_ctx w) = Some (p, m) /\ (sizeof_msg3 <= length m)%nat /\
      bread (drop sizeof_msg3 m) (wrap32 (uget msg3_encrypted_content_size m)) = Some ct /\
      gcm_decrypt k (fget msg3_iv m) ct (fget msg3_tag m) = Some data /\
      n = zlen data /\ n <= data_size /\
      w_ctx w' = w_ctx w /\ grows (view (w_tee w)) (view (w_tee w')))) w.
Proof.
  destruct w as [t c]. ctx_simpl. destruct (view t) as [objs ops socks] eqn:Hv0.
  unfold decrypt_msg3. repeat (tee_step || size_check). tee_return. attr_facts.
  match goal with H : (sizeof_msg3 <=? _)%nat = true |- _ => apply Nat.leb_le in H end.
  do 5 eexists. known. grows_solve.
Qed.

(** A member that lies in the received part of a buffer. *)
Lemma fget_received f m (b s : bytes) :
  take m b = take m s -> (f_off f + f_len f <= m)%nat -> fget f b = fget f s.
Proof.
  intros Hm Hf. unfold fget. rewrite !take_drop_commute. f_equal.
  rewrite <- (Nat.min_l (f_off f + f_len f) m) by lia.
  by rewrite <- !take_take, Hm.
Qed.

Lemma allocate_msg3_attester_spec data_size (w : W) :
  let sz := Z.of_nat sizeof_msg3 + data_size + 16 in
  0 <= sz < 2 ^ 32 ->
  wp any_fault (allocate_msg3 data_size)
    (on_success id (fun _ w' => exists p, w_ctx w' = set_msg3 p (set_msg3_size sz (w_ctx w)) /\
      (forall a d, p = Some (a, d) -> zlen d = sz) /\ view (w_tee w') = view (w_tee w))) w.
Proof.
  intros sz Hsz. destruct w as [t c]. ctx_simpl. unfold allocate_msg3.
  change RA_AES_GCM_CIPHERTEXT_OVERHEAD with 16. fold sz.
  replace (wrap_size sizeof_size_t sz) with sz
    by (unfold wrap_size; destruct sizeof_size_t_cases as [-> | ->];
        symmetry; apply Z.mod_small; lia).
  repeat tee_step. ctx_simpl. tee_return. ctx_simpl. eauto.
Qed.

Lemma receive_msg3_spec p sz k (w : W) :
  msg3 (w_ctx w) = p -> msg3_size (w_ctx w) = sz -> 0 <= sz < 2 ^ 32 ->
  (forall q d, p = Some (q, d) -> zlen d = sz) ->
  v_socks (view (w_tee w)) !! socket_ctx (w_ctx w) = Some k ->
  wp any_fault receive_msg3
    (on_success id (fun _ w' => exists b m, w_ctx w' = set_msg3_size (Z.of_nat m)
      (set_msg3 (match p with Some (q, _) => Some (q, b) | None => None end) (w_ctx w)) /\
      (forall q d, p = Some (q, d) -> zlen b = sz) /\
      take m b = take m (available k) /\
      v_objs (view (w_tee w')) = v_objs (view (w_tee w)))) w.
Proof.
  destruct w as [t c]. ctx_simpl. intros Hm3 Hm3s Hsz Hp Hk.
  assert (wrap32 sz = sz) as Hw by (by apply Z.mod_small).
  unfold receive_msg3. apply wp_bind, wp_ctx, wp_bind. ctx_simpl. rewrite Hm3, Hm3s, Hw.
  set (b0 := match p with Some (_, b) => b | None => [] end).
  assert (zlen b0 < 2 ^ 32) as Hb0
    by (unfold b0; destruct p as [[q d]|]; [rewrite (Hp q d) by done|simpl]; lia).
  eapply wp_mono; [eapply wp_fault_weaken, (receive_loop_spec _ _ k 0); ctx_simpl|];
    [done| |lia|done|lia|done|].
  - rewrite Hk. unfold sock_read. rewrite Nat.add_0_r. by destruct k.
  - intros [[res b] got] [t2 c2] (Hlen & Hc2 & Hok). ctx_simpl. subst c2.
    repeat tee_step. tee_return. destruct (Hok eq_refl) as (m & -> & Hm & _ & Hv2).
    exists b, m. split; [ctx_simpl; by rewrite Hw, Z.sub_diag|].
    split; [|split; [done|by rewrite Hv2]].
    intros q d Hqd. rewrite Hlen. unfold b0. rewrite Hqd. eauto.
Qed.

(** [ct] is the content of the message [msg3] in a buffer, and it decrypts to
    [data] with the initialisation vector and the tag of the message. *)
Definition msg3_opens (key b ct data : bytes) : Prop :=
  bread (drop sizeof_msg3 b) (wrap32 (uget msg3_encrypted_content_size b)) = Some ct /\
  gcm_decrypt key (fget msg3_iv b) ct (fget msg3_tag b) = Some data.

(** A message that has arrived as a whole is the one of the stream. *)
Lemma msg3_opens_received key b s ct data m :
  take m b = take m s -> (sizeof_msg3 + length ct <= m)%nat ->
  msg3_opens key b ct data -> msg3_opens key s ct data.
Proof.
  intros Hm Hall [Hct Hdec].
  assert (forall f, (f_off f + f_len f <= sizeof_msg3)%nat -> fget f s = fget f b) as Hf
    by (intros f Hf; symmetry; apply (fget_received f m); [done|lia]).
  unfold msg3_opens, uget in *. rewrite !Hf by (unfold sizeof_msg3; simpl; lia). split; [|done].
  apply bread_inv in Hct as Hl. destruct Hl as [Hl Hct'].
  assert (length (take m b) = length (take m s)) as Hlen by congruence.
  assert (length ct <= length b - sizeof_msg3)%nat
    by (rewrite Hct', length_take, length_drop; lia).
  rewrite !length_take in Hlen. unfold bread. rewrite <- Hl.
  destruct (Z.leb_spec 0 (zlen ct)); [|lia].
  destruct (Z.leb_spec (zlen ct) (zlen (drop sizeof_msg3 s)));
    [|rewrite length_drop in *; lia].
  simpl. f_equal. rewrite Nat2Z.id. rewrite <- Hl, Nat2Z.id in Hct'. rewrite Hct' at 2.
  symmetry. exact (fget_received (Field sizeof_msg3 (length ct)) m b s Hm Hall).
Qed.

(** The secret comes from the socket and is authentic under the session key:
    [m] bytes of the stream were received into the buffer [b]. *)
Lemma ra_net_receive_data_spec data_size k (w : W) :
  v_socks (view (w_tee w)) !! socket_ctx (w_ctx w) = Some k ->
  0 <= data_size < 2 ^ 31 ->
  wp any_fault (ra_net_receive_data data_size)
    (on_success (fun p => fst (fst p)) (fun '(_, data, n) w' => exists o key b m ct,
      v_objs (view (w_tee w)) !! ecdh_shared_session_key (w_ctx w) = Some o /\
      obj_attr TEE_ATTR_SECRET_VALUE o = Some key /\
      msg3_size (w_ctx w') = Z.of_nat m /\ take m b = take m (available k) /\
      zlen b = Z.of_nat sizeof_msg3 + data_size + 16 /\
      bread (drop sizeof_msg3 b) (wrap32 (uget msg3_encrypted_content_size b)) = Some ct /\
      gcm_decrypt key (fget msg3_iv b) ct (fget msg3_tag b) = Some data /\
      n = zlen data /\ n <= data_size)) w.
Proof.
  intros Hk Hsize. destruct w as [t c]. ctx_simpl. unfold ra_net_receive_data.
  assert (0 <= Z.of_nat sizeof_msg3 + data_size + 16 < 2 ^ 32) as Hsz
    by (unfold sizeof_msg3; destruct sizeof_size_t_cases as [-> | ->]; lia).
  eapply (wp_seq _ _ (fun r => (r, [], data_size)));
    [by apply allocate_msg3_attester_spec|done|].
  intros [t1 c1] (p & Hc1 & Hp & Hv1). ctx_simpl. subst c1.
  eapply (wp_seq _ _ (fun r => (r, [], data_size)));
    [by eapply receive_msg3_spec; ctx_simpl; rewrite ?Hv1|done|].
  intros [t2 c2] (b & m & Hc2 & Hb & Hm & Hv2). ctx_simpl. subst c2.
  apply wp_bind. eapply wp_mono; [apply decrypt_msg3_spec|].
  intros [[res data] n] [t3 c3] Hok. ctx_simpl. destruct (failed res) eqn:Hf.
  { apply wp_ret. intros Hres. simpl in Hres. by subst res. }
  apply wp_ret. intros _. apply failed_false in Hf.
  destruct (Hok Hf) as (o & key & q & b' & ct & Ho & Hkey & Hm3 & _ & Hct & Hdec & Hn & Hcap
    & Hc3 & _). ctx_simpl. rewrite Hv2, Hv1 in Ho. subst c3.
  destruct p as [[q' d]|]; simplify_eq/=.
  exists o, key, b', m, ct. repeat (split; [done || eauto|]). done.
Qed.

(** Offsets and lengths of the members of [msg2]. *)
Ltac layout2 :=
  unfold fits, apart, msg2_x_raw, msg2_x_size, msg2_y_raw, msg2_y_size, msg2_quote, msg2_mac in *;
  cbn [f_off f_len] in *; lia.

Lemma msg2_room : (64 + 2 * sizeof_size_t + sizeof_ra_quote + 16 <= sizeof_msg2)%nat.
Proof. apply align_up_le. destruct sizeof_size_t_cases; lia. Qed.

(** The parts of [msg2] that the verifier reads besides the MAC. *)
Record msg2_parts (m x y quote : bytes) : Prop := {
  part_length : length m = sizeof_msg2;
  part_x : sized msg2_x_raw msg2_x_size m = Some x;
  part_y : sized msg2_y_raw msg2_y_size m = Some y;
  part_quote : fget msg2_quote m = quote
}.

(** Storing the MAC does not change them. *)
Lemma msg2_parts_mac m x y quote mac m' :
  msg2_parts m x y quote -> fwrite msg2_mac mac m = Some m' -> msg2_parts m' x y quote.
Proof.
  intros [Hl Hx Hy Hq] [Hmac ->]%fwrite_inv. pose proof msg2_room. rewrite <- Hl in *.
  split; [rewrite length_splice; [done|layout2]| | |].
  - rewrite sized_splice_apart; [done|layout2..].
  - rewrite sized_splice_apart; [done|layout2..].
  - rewrite fget_splice_apart; [done|layout2..].
Qed.

(** The order in which [prepare_msg2] fills the message. *)
Lemma msg2_parts_filled m x y quote :
  length m = sizeof_msg2 -> length quote = sizeof_ra_quote ->
  (length x <= 32)%nat -> (length y <= 32)%nat ->
  msg2_parts (splice (f_off msg2_quote) quote (splice (f_off msg2_y_raw) y
    (splice (f_off msg2_x_raw) x (uset msg2_y_size (zlen y) (uset msg2_x_size (zlen x) m)))))
    x y quote.
Proof.
  intros Hl Hq Hx Hy. pose proof msg2_room as Hroom. rewrite <- Hl in *.
  assert (zlen x < 2 ^ (8 * Z.of_nat sizeof_size_t) /\ zlen y < 2 ^ (8 * Z.of_nat sizeof_size_t))
    as [Hzx Hzy] by (destruct sizeof_size_t_cases as [-> | ->]; lia).
  set (m1 := uset msg2_x_size (zlen x) m). set (m2 := uset msg2_y_size (zlen y) m1).
  set (m3 := splice (f_off msg2_x_raw) x m2). set (m4 := splice (f_off msg2_y_raw) y m3).
  assert (length m1 = length m) as L1 by (apply length_uset; layout2).
  assert (length m2 = length m) as L2 by (rewrite <- L1; apply length_uset; rewrite L1; layout2).
  assert (length m3 = length m) as L3 by (rewrite <- L2; apply length_splice; rewrite L2; layout2).
  assert (length m4 = length m) as L4 by (rewrite <- L3; apply length_splice; rewrite L3; layout2).
  assert (uget msg2_x_size m4 = zlen x) as Ux.
  { unfold m4. rewrite uget_splice_apart by (rewrite ?L3; layout2).
    unfold m3. rewrite uget_splice_apart by (rewrite ?L2; layout2).
    unfold m2, uset at 1, fset. rewrite uget_splice_apart
      by (rewrite ?length_le_encode, ?L1; layout2).
    apply uget_uset_small; [layout2|simpl; lia]. }
  assert (uget msg2_y_size m4 = zlen y) as Uy.
  { unfold m4. rewrite uget_splice_apart by (rewrite ?L3; layout2).
    unfold m3. rewrite uget_splice_apart by (rewrite ?L2; layout2).
    apply uget_uset_small; [rewrite L1; layout2|simpl; lia]. }
  split.
  - rewrite length_splice; [congruence|rewrite L4; layout2].
  - rewrite sized_splice_apart by (rewrite ?L4; layout2). unfold sized. rewrite Ux.
    unfold m4. rewrite fread_splice_apart by (rewrite ?L3; layout2).
    apply fread_fwrite; [rewrite L2; layout2|done].
  - rewrite sized_splice_apart by (rewrite ?L4; layout2). unfold sized. rewrite Uy.
    apply fread_fwrite; [rewrite L3; layout2|done].
  - apply fget_splice_same; [rewrite L4; layout2|done].
Qed.

Lemma sized_inv raw size m d :
  fits raw (length m) -> sized raw size m = Some d ->
  uget size m = zlen d /\ (length d <= f_len raw)%nat.
Proof.
  unfold sized. intros Hf Hd. apply length_fread in Hd as Hl; [|done]. split; [done|].
  unfold fread in Hd. rewrite <- Hl in Hd.
  destruct (Z.leb_spec 0 (zlen d)), (Z.leb_spec (zlen d) (Z.of_nat (f_len raw))); simpl in Hd;
    try done. lia.
Qed.

(** Whatever the calls of the TEE return, [prepare_msg2] reports success, and
    the message holds the attester's public key and the quote. *)
Lemma prepare_msg2_spec quote (w : W) x y :
  length (msg2 (w_ctx w)) = sizeof_msg2 -> length quote = sizeof_ra_quote ->
  msg0_key (msg0 (w_ctx w)) x y ->
  wp any_fault (prepare_msg2 quote)
    (fun res w' => res = TEE_SUCCESS /\ msg2_parts (msg2 (w_ctx w')) x y quote) w.
Proof.
  intros Hl Hq (H0 & Hx & Hy). apply wp_conj; [apply prepare_msg2_result|].
  destruct w as [t c]. ctx_simpl. unfold prepare_msg2.
  assert (uget msg0_x_size (msg0 c) = zlen x /\ (length x <= 32)%nat) as [Zx Lx]
    by (apply (sized_inv msg0_x_raw); [layout|done]).
  assert (uget msg0_y_size (msg0 c) = zlen y /\ (length y <= 32)%nat) as [Zy Ly]
    by (apply (sized_inv msg0_y_raw); [layout|done]).
  pose proof (msg2_parts_filled (msg2 c) x y quote Hl Hq Lx Ly) as Hparts.
  apply wp_bind, wp_set_ctx, wp_bind, wp_set_ctx, wp_bind, wp_ctx. ctx_simpl. rewrite Hx, Hy, Zx, Zy.
  apply wp_bind, wp_ret, wp_bind, wp_get_some; [|done]. intros m1 [_ ->]%fwrite_inv.
  apply wp_bind, wp_set_ctx, wp_bind, wp_ret, wp_bind, wp_get_some; [|done].
  intros m2 [_ ->]%fwrite_inv. apply wp_bind, wp_set_ctx, wp_bind, wp_set_ctx. ctx_simpl.
  rewrite (take_ge quote) by lia. unfold fset.
  set (m := splice (f_off msg2_quote) _ _) in *.
  set (P2 := fun c => msg2_parts (msg2 c) x y quote).
  match goal with |- wp _ ?rest _ _ => cut (keeps P2 rest); [intros Hk; by apply Hk|] end.
  unfold free_operation. repeat keeps_step. subst P2. cbv beta in *. ctx_simpl.
  eapply msg2_parts_mac; [|eassumption]; assumption.
Qed.

(** ** The properties of the entry points *)

(** C3: Success of the handshake authenticates the verifier: the signature over
    both ephemeral keys is valid under the key in [msg1], which is the pinned
    one if a key is pinned; the MAC of [msg1] is valid under the derived key;
    the session keys are derived from the same exchange; and the anchor is
    the digest of both keys. [msg1] is what the peer answered to [msg0]. *)
Theorem ra_net_handshake_authenticates host px px_size py py_size anchor anchor_size (w : W)
    anchor' w' :
  ra_net_handshake host px px_size py py_size anchor anchor_size w =
    Ret ((TEE_SUCCESS, anchor'), w') ->
  exists a x y vx vy sx sy n,
    authenticated (w_ctx w') (view (w_tee w')) a x y vx vy sx sy /\
    pinned px px_size py py_size (msg1 (w_ctx w')) /\
    msg1 (w_ctx w') =
      take sizeof_msg1 (tcp_peer host 8080 (take n (msg0 (w_ctx w')))) /\
    anchor_size = 32 /\ bwrite (sha256 (x ++ y ++ vx ++ vy)) anchor = Some anchor'.
Proof.
  intros Hrun.
  exact (wp_ret_inv _ _ _ _ _ _ (ra_net_handshake_spec _ _ _ _ _ _ _ w) Hrun eq_refl).
Qed.

(** C15: The receive loop ends: it never runs out of the bound of one round per
    byte. On success the number reported is the length of the prefix of the
    stream that was stored, in order, and the socket has advanced by it. *)
Theorem receive_terminates socket k chunk data (w : W) :
  v_socks (view (w_tee w)) !! socket = Some k -> zlen data < 2 ^ 32 ->
  receive_socket_per_chunk socket chunk data (zlen data) w <> Fault OutOfFuel /\
  forall data' got w',
    receive_socket_per_chunk socket chunk data (zlen data) w =
      Ret ((TEE_SUCCESS, data', got), w') ->
    exists m, got = Some (Z.of_nat m) /\ length data' = length data /\
      take m data' = take m (available k) /\ (m <= length data)%nat /\
      view (w_tee w') = set_sock socket (sock_read m k) (view (w_tee w)).
Proof.
  intros Hk Hl. pose proof (receive_socket_per_chunk_spec socket k chunk data w Hk Hl) as Hwp.
  split.
  - unfold wp in Hwp. intros Hf. rewrite Hf in Hwp. by apply Hwp.
  - intros data' got w' Hrun.
    destruct (wp_ret_inv _ _ _ _ _ _ Hwp Hrun) as (Hlen & _ & Hok).
    destruct (Hok eq_refl) as (m & -> & Hm & Hle & Hv). by exists m.
Qed.

(** Whatever the calls of the TEE return, [prepare_msg2] reports success: the
    message holds the attester's public key and the quote, but a failure to
    compute its MAC is not reported. *)
Theorem prepare_msg2_always_succeeds quote (w : W) x y res w' :
  length (msg2 (w_ctx w)) = sizeof_msg2 -> length quote = sizeof_ra_quote ->
  msg0_key (msg0 (w_ctx w)) x y ->
  prepare_msg2 quote w = Ret (res, w') ->
  res = TEE_SUCCESS /\ msg2_parts (msg2 (w_ctx w')) x y quote.
Proof.
  intros Hl Hq H0 Hrun. exact (wp_ret_inv _ _ _ _ _ _ (prepare_msg2_spec _ _ _ _ Hl Hq H0) Hrun).
Qed.

(** C14: The data that a successful [ra_net_receive_data] returns fits the
    caller's buffer and is the authenticated decryption, under the session key,
    of the message in a buffer that starts with the bytes received from the
    socket, whose number is in [msg3_size]. When they include the whole
    message, vector, content and tag are those of the stream; the function does
    not check that they do. *)
Theorem ra_net_receive_data_authentic data_size k (w : W) data n w' :
  v_socks (view (w_tee w)) !! socket_ctx (w_ctx w) = Some k ->
  0 <= data_size < 2 ^ 31 ->
  ra_net_receive_data data_size w = Ret ((TEE_SUCCESS, data, n), w') ->
  exists o key b m ct,
    v_objs (view (w_tee w)) !! ecdh_shared_session_key (w_ctx w) = Some o /\
    obj_attr TEE_ATTR_SECRET_VALUE o = Some key /\
    msg3_size (w_ctx w') = Z.of_nat m /\ take m b = take m (available k) /\
    zlen b = Z.of_nat sizeof_msg3 + data_size + 16 /\ msg3_opens key b ct data /\
    ((sizeof_msg3 + length ct <= m)%nat -> msg3_opens key (available k) ct data) /\
    n = zlen data /\ n <= data_size.
Proof.
  intros Hk Hn Hrun.
  destruct (wp_ret_inv _ _ _ _ _ _ (ra_net_receive_data_spec _ _ w Hk Hn) Hrun eq_refl)
    as (o & key & b & m & ct & Ho & Hkey & Hm & Hb & Hl & Hct & Hdec & Hsize & Hcap).
  assert (msg3_opens key b ct data) as Hop by done.
  exists o, key, b, m, ct. eauto 12 using msg3_opens_received.
Qed.
End session.
