(* ===== verification/VerifierSpec.v ===== *)
(** * Correctness of the verifier *)

From S2P Require Import Prelude TeeApi TeeSpec Layout KeyDerivation TeeLogic KeySpec Verifier.

(** Members of updated contexts. *)
Ltac ctx_simpl :=
  cbn [
    secret secret_size ecdsa_attester_public_key_x_attr
    ecdsa_attester_public_key_y_attr ecdsa_attester_public_key_handle
    ecdh_attester_public_key_x_attr ecdh_attester_public_key_y_attr
    ecdh_attester_public_key_handle ecdsa_local_keypair_handle
    ecdh_local_keypair_handle ecdh_shared_key_derivation_key ecdh_shared_mac_key
    ecdh_shared_session_key is_quote_valid msg0 msg1 msg2 msg3 msg3_size set_secret
    set_secret_size set_ecdsa_attester_public_key_x_attr
    set_ecdsa_attester_public_key_y_attr set_ecdsa_attester_public_key_handle
    set_ecdh_attester_public_key_x_attr set_ecdh_attester_public_key_y_attr
    set_ecdh_attester_public_key_handle set_ecdsa_local_keypair_handle
    set_ecdh_local_keypair_handle set_ecdh_shared_key_derivation_key
    set_ecdh_shared_mac_key set_ecdh_shared_session_key set_is_quote_valid set_msg0
    set_msg1 set_msg2 set_msg3 set_msg3_size w_tee w_ctx] in *.

(** Offsets and lengths of members. *)
Ltac layout :=
  unfold fits, apart, msg0_x_raw, msg0_x_size, msg0_y_raw, msg0_y_size, msg1_ecdh_x_raw,
    msg1_ecdh_x_size, msg1_ecdh_y_raw, msg1_ecdh_y_size, msg1_ecdsa_x_raw, msg1_ecdsa_x_size,
    msg1_ecdsa_y_raw, msg1_ecdsa_y_size, msg1_signature, msg1_mac in *;
  cbn [f_off f_len] in *; lia.

Ltac layout3 :=
  unfold fits, apart, msg3_iv, msg3_tag, msg3_encrypted_content_size in *;
  cbn [f_off f_len] in *; lia.

(** Runs a function of the component by its specification. *)
Ltac call spec :=
  eapply wp_seq;
  [eapply spec
  |done
  |intros [?t ?c] ?Hpost; cbv beta in *; ctx_simpl; split_facts; ctx_simpl; view_norm];
  ctx_simpl.

(** Members that do not overlap. *)
Ltac separate_solve :=
  cbn [separate];
  repeat match goal with
  | |- _ /\ _ => split
  | |- True => exact I
  | |- Forall _ [] => constructor
  | |- Forall _ (_ :: _) => constructor
  end; layout.

Section verifier_spec.
Context `{T : TEE} `{K : Crypto} `{!TEE_Spec T K} `{P : Platform}.

Abbreviation W := (world tee ra_context_verifier).

(** ** Layout *)

Lemma verifier_msg1_room :
  (128 + 4 * sizeof_size_t + RA_SIGNATURE_SIZE + 16 <= sizeof_msg1)%nat.
Proof. apply align_up_le. destruct sizeof_size_t_cases; lia. Qed.

(** A coordinate of at most 32 bytes fits its size member. *)
Lemma small_size (d : bytes) :
  (length d <= 32)%nat -> zlen d < 2 ^ (8 * Z.of_nat sizeof_size_t).
Proof. destruct sizeof_size_t_cases as [-> | ->]; lia. Qed.

(** ** The handlers of [msg0] *)

Lemma verifier_get_public_value_spec key id raw size (w : W) :
  wp any_fault (get_public_value key id raw size)
    (on_success Datatypes.id (fun _ w' => exists o d,
      v_objs (view (w_tee w)) !! key = Some o /\
      obj_attr id o = Some d /\ (length d <= f_len raw)%nat /\
      w_ctx w' = set_msg1 (uset size (zlen d) (splice (f_off raw) d (msg1 (w_ctx w)))) (w_ctx w) /\
      view (w_tee w') = view (w_tee w))) w.
Proof.
  destruct w as [t c]. ctx_simpl. unfold get_public_value. repeat tee_step.
  apply wp_ret. intros Hres. simpl in Hres.
  learn_call H. split_facts. apply fwrite_inv in H0 as [Hd ->].
  eexists _, _. do 3 (split; [eassumption|]). split; [|done].
  simpl. by rewrite H2.
Qed.

(** The two public keys in [msg1]. *)
Definition msg1_ecdh (m vx vy : bytes) : Prop :=
  sized msg1_ecdh_x_raw msg1_ecdh_x_size m = Some vx /\
  sized msg1_ecdh_y_raw msg1_ecdh_y_size m = Some vy.

Definition msg1_ecdsa (m sx sy : bytes) : Prop :=
  sized msg1_ecdsa_x_raw msg1_ecdsa_x_size m = Some sx /\
  sized msg1_ecdsa_y_raw msg1_ecdsa_y_size m = Some sy.

(** Writing one of the keys into [msg1]. *)
Section write_keys.
Context (m : bytes) (Hm : length m = sizeof_msg1) (x y : bytes).
Context (Hx : (length x <= 32)%nat) (Hy : (length y <= 32)%nat).

Lemma msg1_ecdh_write m' :
  m' = write_pair msg1_ecdh_x_raw msg1_ecdh_x_size msg1_ecdh_y_raw msg1_ecdh_y_size x y m ->
  length m' = sizeof_msg1 /\ msg1_ecdh m' x y /\
  (forall sx sy, msg1_ecdsa m sx sy -> msg1_ecdsa m' sx sy).
Proof.
  intros ->. pose proof verifier_msg1_room as Hroom. rewrite <- Hm in *.
  assert (separate (length m)
    [msg1_ecdh_x_raw; msg1_ecdh_x_size; msg1_ecdh_y_raw; msg1_ecdh_y_size]) as Hsep
    by separate_solve.
  split; [by rewrite length_write_pair|]. split.
  - apply sized_write_pair; try done; by apply small_size.
  - intros sx sy [Hsx Hsy].
    split; (rewrite sized_write_pair_other; [done|done|done|done|layout|layout|separate_solve]).
Qed.

Lemma msg1_ecdsa_write m' :
  m' = write_pair msg1_ecdsa_x_raw msg1_ecdsa_x_size msg1_ecdsa_y_raw msg1_ecdsa_y_size x y m ->
  length m' = sizeof_msg1 /\ msg1_ecdsa m' x y /\
  (forall vx vy, msg1_ecdh m vx vy -> msg1_ecdh m' vx vy).
Proof.
  intros ->. pose proof verifier_msg1_room as Hroom. rewrite <- Hm in *.
  assert (separate (length m)
    [msg1_ecdsa_x_raw; msg1_ecdsa_x_size; msg1_ecdsa_y_raw; msg1_ecdsa_y_size]) as Hsep
    by separate_solve.
  split; [by rewrite length_write_pair|]. split.
  - apply sized_write_pair; try done; by apply small_size.
  - intros sx sy [Hsx Hsy].
    split; (rewrite sized_write_pair_other; [done|done|done|done|layout|layout|separate_solve]).
Qed.
End write_keys.

(** A key pair is generated and its public key stored in [msg1]; the other
    key in the message is untouched. *)
Lemma verifier_generate_ecdh_keypair_spec (w : W) :
  length (msg1 (w_ctx w)) = sizeof_msg1 ->
  wp any_fault generate_ecdh_keypair
    (on_success id (fun _ w' => exists h o a vx vy m,
      w_ctx w' = set_msg1 m (set_ecdh_local_keypair_handle h (w_ctx w)) /\
      v_objs (view (w_tee w)) !! h = None /\
      v_objs (view (w_tee w')) !! h = Some o /\ keypair_object o a vx vy /\
      length m = sizeof_msg1 /\ msg1_ecdh m vx vy /\
      (forall sx sy, msg1_ecdsa (msg1 (w_ctx w)) sx sy -> msg1_ecdsa m sx sy) /\
      grows (view (w_tee w)) (view (w_tee w')))) w.
Proof.
  intros Hlen. destruct w as [t c]. ctx_simpl. destruct (view t) as [objs ops socks] eqn:Hv0.
  pose proof verifier_msg1_room as Hroom. rewrite <- Hlen in Hroom.
  unfold generate_ecdh_keypair. do 11 tee_step. ctx_simpl. view_norm.
  call verifier_get_public_value_spec. call verifier_get_public_value_spec.
  tee_return. attr_facts.
  set (m0 := uset msg1_ecdh_y_size 32 (uset msg1_ecdh_x_size 32 (msg1 c))).
  assert (length m0 = sizeof_msg1) as Hm0
    by (rewrite <- Hlen; unfold m0; rewrite !length_uset; rewrite ?length_uset; [done|layout..]).
  do 6 eexists. split; [reflexivity|]. split; [eassumption|]. split; [view_lookup|].
  edestruct (msg1_ecdh_write m0 Hm0 x4 x5) as (Hl & Hw & Ho); [done|done|reflexivity|].
  split; [by repeat split|]. split; [exact Hl|]. split; [exact Hw|].
  split; [|grows_solve]. intros sx sy [Hsx Hsy]. apply Ho. unfold m0, msg1_ecdsa.
  by rewrite !sized_uset_pair_other by layout.
Qed.

Lemma verifier_generate_ecdsa_keypair_spec (w : W) :
  length (msg1 (w_ctx w)) = sizeof_msg1 ->
  wp any_fault generate_ecdsa_keypair
    (on_success id (fun _ w' => exists h o a sx sy m,
      w_ctx w' = set_msg1 m (set_ecdsa_local_keypair_handle h (w_ctx w)) /\
      v_objs (view (w_tee w')) !! h = Some o /\ keypair_object o a sx sy /\
      length m = sizeof_msg1 /\ msg1_ecdsa m sx sy /\
      (forall vx vy, msg1_ecdh (msg1 (w_ctx w)) vx vy -> msg1_ecdh m vx vy) /\
      grows (view (w_tee w)) (view (w_tee w')))) w.
Proof.
  intros Hlen. destruct w as [t c]. ctx_simpl. destruct (view t) as [objs ops socks] eqn:Hv0.
  pose proof verifier_msg1_room as Hroom. rewrite <- Hlen in Hroom.
  unfold generate_ecdsa_keypair. do 11 tee_step. ctx_simpl. view_norm.
  call verifier_get_public_value_spec. call verifier_get_public_value_spec.
  tee_return. attr_facts.
  set (m0 := uset msg1_ecdsa_y_size 32 (uset msg1_ecdsa_x_size 32 (msg1 c))).
  assert (length m0 = sizeof_msg1) as Hm0
    by (rewrite <- Hlen; unfold m0; rewrite !length_uset; rewrite ?length_uset; [done|layout..]).
  do 6 eexists. split; [reflexivity|]. split; [view_lookup|].
  edestruct (msg1_ecdsa_write m0 Hm0 x4 x5) as (Hl & Hw & Ho); [done|done|reflexivity|].
  split; [by repeat split|]. split; [exact Hl|]. split; [exact Hw|].
  split; [|grows_solve]. intros sx sy [Hsx Hsy]. apply Ho. unfold m0, msg1_ecdh.
  by rewrite !sized_uset_pair_other by layout.
Qed.

(** The attester's public key in a message [msg0]. *)
Definition verifier_msg0_key (m x y : bytes) : Prop :=
  sized msg0_x_raw msg0_x_size m = Some x /\ sized msg0_y_raw msg0_y_size m = Some y.

Lemma store_msg0_spec buffer (w : W) :
  wp any_fault (store_msg0 buffer)
    (on_success id (fun _ w' => w_ctx w' = set_msg0 (take sizeof_msg0 buffer) (w_ctx w) /\
      (sizeof_msg0 <= length buffer)%nat /\ view (w_tee w') = view (w_tee w))) w.
Proof.
  unfold store_msg0. destruct (Z.ltb_spec (zlen buffer) (Z.of_nat sizeof_msg0));
    [by apply wp_ret|]. repeat tee_step. tee_return. repeat split; lia.
Qed.

(** The attributes that [populate_attester_key] prepares. *)
Definition with_attester_key (h : handle) (c : ra_context_verifier) : ra_context_verifier :=
  set_ecdh_attester_public_key_handle h
    (set_ecdh_attester_public_key_y_attr
      (RefAttribute TEE_ATTR_ECC_PUBLIC_VALUE_Y (Msg0Ref msg0_y_raw) (uget msg0_y_size (msg0 c)))
      (set_ecdh_attester_public_key_x_attr
        (RefAttribute TEE_ATTR_ECC_PUBLIC_VALUE_X (Msg0Ref msg0_x_raw)
          (uget msg0_x_size (msg0 c))) c)).

Lemma attester_public_key_read h c attrs :
  attester_public_key (with_attester_key h c) = Some attrs ->
  exists x y, verifier_msg0_key (msg0 c) x y /\
    attrs = [AttrRef TEE_ATTR_ECC_PUBLIC_VALUE_X x; AttrRef TEE_ATTR_ECC_PUBLIC_VALUE_Y y].
Proof.
  unfold attester_public_key, verifier_msg0_key, sized, deref, with_attester_key.
  ctx_simpl. cbn [read_attribute].
  destruct (fread msg0_x_raw (msg0 c) _) as [x|]; simpl; [|done].
  destruct (fread msg0_y_raw (msg0 c) _) as [y|]; simpl; [|done].
  intros [= <-]. eauto.
Qed.

Lemma populate_attester_key_spec (w : W) :
  wp any_fault populate_attester_key
    (on_success id (fun _ w' => exists h,
      w_ctx w' = with_attester_key h (w_ctx w) /\
      grows (view (w_tee w)) (view (w_tee w')))) w.
Proof.
  destruct w as [t c]. ctx_simpl. destruct (view t) as [objs ops socks] eqn:Hv0.
  unfold populate_attester_key. repeat tee_step. ctx_simpl. tee_return.
  eexists. split; [reflexivity|grows_solve].
Qed.

Lemma verifier_derive_label_spec data output set_output (w : W) kdk :
  (forall h c, output (set_output h c) = h) ->
  aes_key (view (w_tee w)) (ecdh_shared_key_derivation_key (w_ctx w)) kdk ->
  wp any_fault (derive_shared_mac_key data (zlen data) output set_output)
    (on_success id (fun _ w' => exists h, w_ctx w' = set_output h (w_ctx w) /\
      aes_key (view (w_tee w')) h (aes_cmac kdk data) /\
      grows (view (w_tee w)) (view (w_tee w')))) w.
Proof.
  intros Hout Hkdk. unfold derive_shared_mac_key.
  apply wp_bind, wp_get_some; [|done]. intros d Hd. apply bread_all in Hd. subst d.
  eapply wp_mono; [by apply derive_shared_mac_key_spec|].
  intros res w' Hok Hres. destruct (Hok Hres) as (ko & k & h & Hko & Hk & Hc & Hh & Hg).
  rewrite (aes_key_value _ _ _ _ _ Hkdk Hko Hk) in Hh. eauto.
Qed.

(** The verifier's state once [msg0] has been handled: its ephemeral key pair
    [(b, (vx, vy))] is in [msg1], and the session keys are those of the
    attester's key [(x, y)] in [msg0]. *)
Record keyed (c : ra_context_verifier) (v : tee_view) (b vx vy x y : bytes) : Prop := {
  kd_keypair : exists o, v_objs v !! ecdh_local_keypair_handle c = Some o /\
    keypair_object o b vx vy;
  kd_msg0 : verifier_msg0_key (msg0 c) x y;
  kd_msg1 : length (msg1 c) = sizeof_msg1 /\ msg1_ecdh (msg1 c) vx vy;
  kd_mac_key : aes_key v (ecdh_shared_mac_key c) (mac_key (shared_kdk b x y));
  kd_session_key : aes_key v (ecdh_shared_session_key c) (session_key (shared_kdk b x y))
}.

Lemma handle_msg0_spec buffer (w : W) :
  length (msg1 (w_ctx w)) = sizeof_msg1 ->
  wp any_fault (handle_msg0 buffer)
    (on_success id (fun _ w' => exists b vx vy x y,
      keyed (w_ctx w') (view (w_tee w')) b vx vy x y /\
      msg0 (w_ctx w') = take sizeof_msg0 buffer /\ (sizeof_msg0 <= length buffer)%nat /\
      (forall sx sy, msg1_ecdsa (msg1 (w_ctx w)) sx sy -> msg1_ecdsa (msg1 (w_ctx w')) sx sy) /\
      v_objs (view (w_tee w)) !! ecdh_local_keypair_handle (w_ctx w') = None /\
      ecdsa_local_keypair_handle (w_ctx w') = ecdsa_local_keypair_handle (w_ctx w) /\
      ecdsa_attester_public_key_handle (w_ctx w') = ecdsa_attester_public_key_handle (w_ctx w) /\
      grows (view (w_tee w)) (view (w_tee w')))) w.
Proof.
  intros Hlen. destruct w as [t c]. ctx_simpl. unfold handle_msg0.
  eapply wp_seq; [by apply verifier_generate_ecdh_keypair_spec|done|].
  intros [t1 c1] (h1 & o & b & vx & vy & m & Hc1 & Hfresh & Ho & Hkp & Hm & Hvm & Hs & Hg1). ctx_simpl.
  eapply wp_seq; [apply store_msg0_spec|done|].
  intros [t2 c2] (Hc2 & Hlb & Hv2). ctx_simpl.
  eapply wp_seq; [apply populate_attester_key_spec|done|].
  intros [t3 c3] (h3 & Hc3 & Hg3). ctx_simpl.
  eapply wp_seq; [by apply derive_shared_key_spec|done|].
  intros [t4 c4] (kp & attrs & b' & x & y & h4 & Hkp' & Hattrs & Hb & Hx & Hy & Hc4 & Hk4 & Hg4).
  ctx_simpl. rewrite Hc3 in Hattrs. apply attester_public_key_read in Hattrs as (? & ? & Hm0 & ->).
  attr_facts. unfold with_attester_key in *. ctx_simpl.
  rewrite Hv2 in Hg3. pose proof (grows_obj _ _ _ _ Hg3 Ho) as Ho3.
  rewrite Ho3 in Hkp'. injection Hkp' as <-.
  pose proof Hkp as (_ & _ & Hb' & _). unfold obj_attr in Hb'. simplify_eq.
  eapply wp_seq; [by eapply verifier_derive_label_spec|done|].
  intros [t5 c5] (h5 & Hc5 & Hk5 & Hg5). ctx_simpl. subst c5.
  eapply wp_seq; [eapply verifier_derive_label_spec; [done|by eapply aes_key_grows]|done|].
  intros [t6 c6] (h6 & Hc6 & Hk6 & Hg6). ctx_simpl. subst c6.
  apply wp_ret. intros _. ctx_simpl. do 5 eexists.
  assert (grows (view t3) (view t6)) as Hg36 by (by do 2 (etrans; [eassumption|])).
  split; [split; ctx_simpl|].
  - eexists. split; [by eapply grows_obj|done].
  - done.
  - done.
  - exact (aes_key_grows _ _ _ _ Hg6 Hk5).
  - done.
  - repeat (split; [done|]). do 2 (etrans; [eassumption|]). done.
Qed.

(** ** Preparing [msg1] *)

Lemma append_ecdh_public_keys_signature_spec (w : W) :
  wp any_fault append_ecdh_public_keys_signature
    (on_success id (fun _ w' => exists o vx vy x y sx sy sig,
      v_objs (view (w_tee w)) !! ecdsa_local_keypair_handle (w_ctx w) = Some o /\
      obj_attr TEE_ATTR_ECC_PUBLIC_VALUE_X o = Some sx /\
      obj_attr TEE_ATTR_ECC_PUBLIC_VALUE_Y o = Some sy /\
      msg1_ecdh (msg1 (w_ctx w)) vx vy /\ verifier_msg0_key (msg0 (w_ctx w)) x y /\
      ecdsa_verify sx sy (sha256 (vx ++ vy ++ x ++ y)) sig = true /\
      RA_SIGNATURE_SIZE = 64%nat /\ length sig = 64%nat /\
      w_ctx w' = set_msg1 (splice (f_off msg1_signature) sig (msg1 (w_ctx w))) (w_ctx w) /\
      grows (view (w_tee w)) (view (w_tee w')))) w.
Proof.
  destruct w as [t c]. ctx_simpl. destruct (view t) as [objs ops socks] eqn:Hv0.
  unfold append_ecdh_public_keys_signature.
  repeat (tee_step || size_check). tee_return. buffer_facts.
  apply fwrite_inv in H13 as [_ ->].
  do 8 eexists. do 3 (split; [eassumption|]). do 2 (split; [by split|]).
  split; [eassumption|]. split; [lia|]. known. grows_solve.
Qed.

Lemma append_mac_spec (w : W) :
  wp any_fault append_mac
    (on_success id (fun _ w' => exists o mk vx vy sx sy,
      v_objs (view (w_tee w)) !! ecdh_shared_mac_key (w_ctx w) = Some o /\
      obj_attr TEE_ATTR_SECRET_VALUE o = Some mk /\
      msg1_ecdh (msg1 (w_ctx w)) vx vy /\ msg1_ecdsa (msg1 (w_ctx w)) sx sy /\
      w_ctx w' = set_msg1 (splice (f_off msg1_mac)
        (aes_cmac mk (vx ++ vy ++ sx ++ sy ++ fget msg1_signature (msg1 (w_ctx w))))
        (msg1 (w_ctx w))) (w_ctx w) /\
      grows (view (w_tee w)) (view (w_tee w')))) w.
Proof.
  destruct w as [t c]. ctx_simpl. destruct (view t) as [objs ops socks] eqn:Hv0.
  unfold append_mac.
  repeat (tee_step || size_check). apply wp_ret.
  destruct (failed (ob_res a3)) eqn:Hf; [intros Hs; simpl in Hs; by rewrite Hs in Hf|].
  apply failed_false in Hf. intros _. learn. view_norm. attr_facts.
  apply fwrite_inv in H7 as [_ ->]. rewrite H11, <- !app_assoc.
  do 6 eexists. do 2 (split; [eassumption|]). do 2 (split; [by split|]).
  split; [reflexivity|]. grows_solve.
Qed.

(** What [prepare_msg1] promises about the message it sends: the signature
    binds both ephemeral keys, and the MAC covers keys and signature. *)
Record msg1_sent (m mk vx vy x y sx sy ox oy : bytes) : Prop := {
  sent_length : length m = sizeof_msg1;
  sent_ecdh : msg1_ecdh m vx vy;
  sent_ecdsa : msg1_ecdsa m sx sy;
  sent_signature :
    ecdsa_verify ox oy (sha256 (vx ++ vy ++ x ++ y)) (fget msg1_signature m) = true;
  sent_mac : fget msg1_mac m =
    aes_cmac mk (vx ++ vy ++ sx ++ sy ++ fget msg1_signature m)
}.

Lemma msg1_other_write f v m r s :
  length m = sizeof_msg1 -> (length v <= f_len f)%nat ->
  fits f sizeof_msg1 -> fits r sizeof_msg1 -> fits s sizeof_msg1 -> apart f r -> apart f s ->
  sized r s (splice (f_off f) v m) = sized r s m.
Proof. intros Hm. intros. by apply sized_splice_apart; rewrite ?Hm. Qed.

Lemma prepare_msg1_spec buffer (w : W) :
  length (msg1 (w_ctx w)) = sizeof_msg1 ->
  wp any_fault (prepare_msg1 buffer)
    (on_success (fun p => fst (fst p)) (fun '(_, buffer', size) w' =>
      exists o mo mk vx vy x y sx sy ox oy,
      v_objs (view (w_tee w)) !! ecdsa_local_keypair_handle (w_ctx w) = Some o /\
      obj_attr TEE_ATTR_ECC_PUBLIC_VALUE_X o = Some ox /\
      obj_attr TEE_ATTR_ECC_PUBLIC_VALUE_Y o = Some oy /\
      v_objs (view (w_tee w')) !! ecdh_shared_mac_key (w_ctx w) = Some mo /\
      obj_attr TEE_ATTR_SECRET_VALUE mo = Some mk /\
      verifier_msg0_key (msg0 (w_ctx w)) x y /\
      msg1_ecdh (msg1 (w_ctx w)) vx vy /\ msg1_ecdsa (msg1 (w_ctx w)) sx sy /\
      msg1_sent (msg1 (w_ctx w')) mk vx vy x y sx sy ox oy /\
      size = Some (Z.of_nat sizeof_msg1) /\ (sizeof_msg1 <= length buffer)%nat /\
      buffer' = splice 0 (msg1 (w_ctx w')) buffer /\
      w_ctx w' = set_msg1 (msg1 (w_ctx w')) (w_ctx w) /\
      grows (view (w_tee w)) (view (w_tee w')))) w.
Proof.
  intros Hlen. destruct w as [t c]. ctx_simpl. unfold prepare_msg1.
  destruct (Z.ltb_spec (zlen buffer) (Z.of_nat sizeof_msg1)); [by apply wp_ret|].
  eapply (wp_seq _ _ (fun r => (r, buffer, None)));
    [apply append_ecdh_public_keys_signature_spec|done|].
  intros [t1 c1] (o & vx & vy & x & y & ox & oy & sig & Ho & Hox & Hoy & [Hvx Hvy] & Hm0 & Hsig
    & Hss & Hsl & Hc1 & Hg1). ctx_simpl. subst c1.
  eapply (wp_seq _ _ (fun r => (r, buffer, None))); [apply append_mac_spec|done|].
  intros [t2 c2] (mo & mk & vx2 & vy2 & sx & sy & Hmo & Hmk & [Hvx2 Hvy2] & [Hsx Hsy] & Hc2
    & Hg2). ctx_simpl. subst c2. apply wp_bind, wp_ctx, wp_ret. intros _. ctx_simpl.
  pose proof verifier_msg1_room as Hroom.
  rewrite msg1_other_write in Hvx2, Hvy2, Hsx, Hsy by (done || layout).
  simplify_eq.
  set (m1 := splice (f_off msg1_signature) sig (msg1 c)) in *.
  assert (length m1 = sizeof_msg1) as Hm1 by (unfold m1; rewrite length_splice; [done|layout]).
  assert (fget msg1_signature m1 = sig) as Hsig1 by (apply fget_splice_same; layout).
  set (mac := aes_cmac _ _). assert (length mac = 16%nat) as Hmac by apply length_aes_cmac.
  assert (fget msg1_signature (splice (f_off msg1_mac) mac m1) = sig) as Hsig2
    by (rewrite fget_splice_apart; [done|layout..]).
  exists o, mo, mk, vx, vy, x, y, sx, sy, ox, oy. do 3 (split; [done|]).
  split; [by eapply grows_obj|]. do 4 (split; [done|]).
  split; [|split; [done|]; split; [lia|]; do 2 (split; [done|]); by etrans].
  split.
  - rewrite length_splice; [done|layout].
  - split; rewrite msg1_other_write by (done || layout);
      unfold m1; by rewrite msg1_other_write by (done || layout).
  - split; rewrite msg1_other_write by (done || layout);
      unfold m1; by rewrite msg1_other_write by (done || layout).
  - by rewrite Hsig2.
  - rewrite Hsig2. rewrite fget_splice_same by layout. unfold mac. by rewrite Hsig1.
Qed.

(** ** Appraising [msg2] *)

Lemma store_msg2_spec buffer (w : W) :
  wp any_fault (store_msg2 buffer)
    (on_success id (fun _ w' => w_ctx w' = set_msg2 (take sizeof_msg2 buffer) (w_ctx w) /\
      (sizeof_msg2 <= length buffer)%nat /\ view (w_tee w') = view (w_tee w))) w.
Proof.
  unfold store_msg2. destruct (Z.ltb_spec (zlen buffer) (Z.of_nat sizeof_msg2));
    [by apply wp_ret|]. repeat tee_step. tee_return. repeat split; lia.
Qed.

Lemma verify_mac_msg2_spec (w : W) :
  wp any_fault verify_mac_msg2
    (on_success id (fun _ w' => exists o mk x2 y2,
      v_objs (view (w_tee w)) !! ecdh_shared_mac_key (w_ctx w) = Some o /\
      obj_attr TEE_ATTR_SECRET_VALUE o = Some mk /\
      sized msg2_x_raw msg2_x_size (msg2 (w_ctx w)) = Some x2 /\
      sized msg2_y_raw msg2_y_size (msg2 (w_ctx w)) = Some y2 /\
      fget msg2_mac (msg2 (w_ctx w)) =
        aes_cmac mk (x2 ++ y2 ++ fget msg2_quote (msg2 (w_ctx w))) /\
      w_ctx w' = w_ctx w /\ grows (view (w_tee w)) (view (w_tee w')))) w.
Proof.
  destruct w as [t c]. ctx_simpl. destruct (view t) as [objs ops socks] eqn:Hv0.
  unfold verify_mac_msg2. repeat (tee_step || size_check). tee_return. buffer_facts.
  do 4 eexists. known. grows_solve.
Qed.

(** The comparison uses the sizes of [msg0]. *)
Lemma verify_public_key_msg2_matches_msg0_spec (w : W) :
  wp any_fault verify_public_key_msg2_matches_msg0
    (on_success id (fun _ w' => exists x y,
      verifier_msg0_key (msg0 (w_ctx w)) x y /\
      fread msg2_x_raw (msg2 (w_ctx w)) (uget msg0_x_size (msg0 (w_ctx w))) = Some x /\
      fread msg2_y_raw (msg2 (w_ctx w)) (uget msg0_y_size (msg0 (w_ctx w))) = Some y /\
      w' = w)) w.
Proof.
  destruct w as [t c]. ctx_simpl. unfold verify_public_key_msg2_matches_msg0.
  repeat tee_step. case_bool_decide; simpl; [subst|by apply wp_ret].
  repeat tee_step. case_bool_decide; simpl; [subst|by apply wp_ret].
  tee_return. do 2 eexists. split; [by split|]. known.
Qed.

(** The fields of a quote that are signed. *)
Definition quote_body (c : ra_context_verifier) : bytes :=
  quote_member quote_anchor c ++ quote_member quote_version c
    ++ quote_member quote_claim_hash c ++ quote_member quote_attestation_key c.

Lemma verify_quote_signature_spec (w : W) :
  wp any_fault verify_quote_signature
    (on_success id (fun _ w' => exists o px py,
      v_objs (view (w_tee w)) !! ecdsa_attester_public_key_handle (w_ctx w) = Some o /\
      obj_attr TEE_ATTR_ECC_PUBLIC_VALUE_X o = Some px /\
      obj_attr TEE_ATTR_ECC_PUBLIC_VALUE_Y o = Some py /\
      ecdsa_verify px py (sha256 (quote_body (w_ctx w)))
        (quote_member quote_signature (w_ctx w)) = true /\
      w_ctx w' = set_is_quote_valid true (w_ctx w) /\
      grows (view (w_tee w)) (view (w_tee w')))) w.
Proof.
  destruct w as [t c]. ctx_simpl. destruct (view t) as [objs ops socks] eqn:Hv0.
  unfold verify_quote_signature. repeat (tee_step || size_check). tee_return. buffer_facts.
  do 3 eexists. known. grows_solve.
Qed.

Lemma verify_anchor_spec (w : W) :
  wp any_fault verify_anchor
    (on_success id (fun _ w' => exists x y vx vy,
      verifier_msg0_key (msg0 (w_ctx w)) x y /\ msg1_ecdh (msg1 (w_ctx w)) vx vy /\
      quote_member quote_anchor (w_ctx w) = sha256 (x ++ y ++ vx ++ vy) /\
      w_ctx w' = w_ctx w /\ grows (view (w_tee w)) (view (w_tee w')))) w.
Proof.
  destruct w as [t c]. ctx_simpl. destruct (view t) as [objs ops socks] eqn:Hv0.
  unfold verify_anchor. repeat (tee_step || size_check).
  case_bool_decide as Heq; simpl; [|by apply wp_ret].
  repeat tee_step. tee_return. buffer_facts.
  do 4 eexists. do 2 (split; [by split|]). known. grows_solve.
Qed.

(** What the verifier knows about an accepted [msg2]: the MAC is valid under
    the session's MAC key, the attester's key is the one of [msg0], the quote
    is signed by the attestation key [(px, py)], and its anchor is the digest
    of both ephemeral keys. *)
Record appraised (c : ra_context_verifier) (v : tee_view) (x y vx vy px py : bytes) : Prop := {
  ap_mac : exists o mk x2 y2,
    v_objs v !! ecdh_shared_mac_key c = Some o /\
    obj_attr TEE_ATTR_SECRET_VALUE o = Some mk /\
    sized msg2_x_raw msg2_x_size (msg2 c) = Some x2 /\
    sized msg2_y_raw msg2_y_size (msg2 c) = Some y2 /\
    fget msg2_mac (msg2 c) = aes_cmac mk (x2 ++ y2 ++ fget msg2_quote (msg2 c));
  ap_msg0 : verifier_msg0_key (msg0 c) x y;
  ap_same_key :
    fread msg2_x_raw (msg2 c) (uget msg0_x_size (msg0 c)) = Some x /\
    fread msg2_y_raw (msg2 c) (uget msg0_y_size (msg0 c)) = Some y;
  ap_attestation_key : exists o,
    v_objs v !! ecdsa_attester_public_key_handle c = Some o /\
    obj_attr TEE_ATTR_ECC_PUBLIC_VALUE_X o = Some px /\
    obj_attr TEE_ATTR_ECC_PUBLIC_VALUE_Y o = Some py;
  ap_signature :
    ecdsa_verify px py (sha256 (quote_body c)) (quote_member quote_signature c) = true;
  ap_anchor : msg1_ecdh (msg1 c) vx vy /\
    quote_member quote_anchor c = sha256 (x ++ y ++ vx ++ vy);
  ap_valid : is_quote_valid c = true
}.

Lemma handle_msg2_spec buffer (w : W) :
  wp any_fault (handle_msg2 buffer)
    (on_success id (fun _ w' => exists x y vx vy px py,
      appraised (w_ctx w') (view (w_tee w')) x y vx vy px py /\
      w_ctx w' = set_is_quote_valid true (set_msg2 (take sizeof_msg2 buffer) (w_ctx w)) /\
      (sizeof_msg2 <= length buffer)%nat /\
      grows (view (w_tee w)) (view (w_tee w')))) w.
Proof.
  destruct w as [t c]. ctx_simpl. unfold handle_msg2. apply wp_bind, wp_set_ctx. ctx_simpl.
  eapply wp_seq; [apply store_msg2_spec|done|].
  intros [t1 c1] (Hc1 & Hlen & Hv1). ctx_simpl. subst c1.
  eapply wp_seq; [apply verify_mac_msg2_spec|done|].
  intros [t2 c2] (o & mk & x2 & y2 & Ho & Hmk & Hx2 & Hy2 & Hmac & Hc2 & Hg2).
  ctx_simpl. subst c2.
  eapply wp_seq; [apply verify_public_key_msg2_matches_msg0_spec|done|].
  intros w3 (x & y & Hm0 & Hx & Hy & ->). ctx_simpl.
  eapply wp_seq; [apply verify_quote_signature_spec|done|].
  intros [t4 c4] (so & px & py & Hso & Hpx & Hpy & Hsig & Hc4 & Hg4). ctx_simpl. subst c4.
  eapply wp_seq; [apply verify_anchor_spec|done|].
  intros [t5 c5] (x' & y' & vx & vy & [Hx' Hy'] & Hvm & Hanchor & Hc5 & Hg5). ctx_simpl. subst c5.
  apply wp_ret. intros _. ctx_simpl. destruct Hm0 as [Hm0x Hm0y]. simplify_eq.
  rewrite Hv1 in *. assert (grows (view t2) (view t5)) as Hg25 by (by etrans).
  exists x, y, vx, vy, px, py. split; [split; ctx_simpl|].
  - exists o, mk, x2, y2. split; [|done]. eapply grows_obj, Ho. by etrans.
  - done.
  - done.
  - exists so. split; [by eapply grows_obj|done].
  - exact Hsig.
  - split; [exact Hvm|exact Hanchor].
  - done.
  - do 2 (split; [done|]). by etrans.
Qed.

(** ** Releasing the secret in [msg3] *)

(** A message [msg3] in a buffer: [data] encrypted under the key [k]. *)
Definition msg3_holds (k : bytes) (b data : bytes) : Prop :=
  exists ct, (sizeof_msg3 + length ct <= length b)%nat /\ length ct = length data /\
    uget msg3_encrypted_content_size b = zlen ct /\
    b.[sizeof_msg3,+length ct] = ct /\
    gcm_decrypt k (fget msg3_iv b) ct (fget msg3_tag b) = Some data.

Lemma msg3_assemble k buffer m0 tag ct data h :
  length m0 = sizeof_msg3 -> length tag = 16%nat -> (sizeof_msg3 + length ct <= length buffer)%nat ->
  zlen ct < 2 ^ (8 * Z.of_nat sizeof_size_t) ->
  h = splice (f_off msg3_tag) tag (uset msg3_encrypted_content_size (zlen ct) m0) ->
  length ct = length data -> gcm_decrypt k (fget msg3_iv m0) ct tag = Some data ->
  length (splice 0 (take sizeof_msg3 h) (splice sizeof_msg3 ct buffer)) = length buffer /\
  msg3_holds k (splice 0 (take sizeof_msg3 h) (splice sizeof_msg3 ct buffer)) data.
Proof.
  intros Hm0 Htag Hroom Hct -> Hsame Hdec.
  set (u := uset msg3_encrypted_content_size (zlen ct) m0).
  assert (fits msg3_iv (length m0)) as F1 by (rewrite Hm0; unfold sizeof_msg3; layout3).
  assert (fits msg3_tag (length m0)) as F2 by (rewrite Hm0; unfold sizeof_msg3; layout3).
  assert (fits msg3_encrypted_content_size (length m0)) as F3
    by (rewrite Hm0; unfold sizeof_msg3; layout3).
  assert (length u = length m0) as Hu by (by apply length_uset).
  set (h := splice (f_off msg3_tag) tag u).
  assert (length h = sizeof_msg3) as Hh
    by (unfold h; rewrite length_splice; [lia|]; rewrite Hu; unfold fits in F2; simpl in *; lia).
  rewrite take_ge by lia.
  assert (length (splice sizeof_msg3 ct buffer) = length buffer) as Hb by (by apply length_splice).
  assert (length (splice 0 h (splice sizeof_msg3 ct buffer)) = length buffer) as Hb'
    by (rewrite length_splice; [done|lia]).
  split; [done|]. exists ct. rewrite Hb'. do 2 (split; [done|]).
  rewrite slice_splice_after, slice_splice_same by lia.
  unfold uget. rewrite !fget_header by (rewrite Hh, <- Hm0; done).
  split; [|split; [done|]].
  - fold (uget msg3_encrypted_content_size h). unfold h. rewrite uget_splice_apart;
      rewrite ?Hu; try done; [|layout3|simpl; lia].
    apply uget_uset_small; [done|]. simpl. lia.
  - unfold h. rewrite fget_splice_same by (rewrite ?Hu; done).
    rewrite fget_splice_apart by (rewrite ?Hu; (done || layout3)).
    unfold u, uset, fset. rewrite fget_splice_apart; try done; [layout3|].
    by rewrite length_le_encode.
Qed.

Lemma encrypt_msg3_spec buffer data data_size (w : W) :
  (forall p m, msg3_block (w_ctx w) = Some (p, m) -> length m = sizeof_msg3) ->
  wp any_fault (encrypt_msg3 buffer data data_size)
    (on_success fst (fun '(_, buffer') w' => exists o k d,
      v_objs (view (w_tee w)) !! ecdh_shared_session_key (w_ctx w) = Some o /\
      obj_attr TEE_ATTR_SECRET_VALUE o = Some k /\
      bread data data_size = Some d /\ length buffer' = length buffer /\
      msg3_holds k buffer' d)) w.
Proof.
  intros Hm3. destruct w as [t c]. ctx_simpl.
  destruct (view t) as [objs ops socks] eqn:Hv0.
  unfold encrypt_msg3, update_msg3. repeat (tee_step || size_check).
  ctx_simpl. tee_return. attr_facts. apply Hm3 in H1 as Hlen.
  apply Nat.leb_le in H8. apply fwrite_inv in H2 as [Hiv ->]. apply fwrite_inv in H9 as [_ ->].
  assert (0 < 2 ^ (8 * Z.of_nat sizeof_size_t)) as Hpow by lia.
  pose proof (Z.mod_pos_bound (zlen buffer - Z.of_nat sizeof_msg3) _ Hpow) as Hmod.
  unfold wrap_size in H15. rewrite H14 in *.
  do 3 eexists. do 3 (split; [eassumption|]).
  eapply msg3_assemble; [|done|done|lia|reflexivity|done|done].
  rewrite length_splice; [done|]. rewrite Hlen. unfold sizeof_msg3. simpl in *. lia.
Qed.

Lemma allocate_msg3_spec size (w : W) :
  wp any_fault (allocate_msg3 size)
    (on_success id (fun _ w' => exists p,
      w_ctx w' = set_msg3 (malloc_ptr p) (set_msg3_size (Z.of_nat sizeof_msg3) (w_ctx w)) /\
      (forall a d, p = Some (a, d) -> length d = sizeof_msg3) /\
      view (w_tee w') = view (w_tee w))) w.
Proof.
  destruct w as [t c]. unfold allocate_msg3. repeat tee_step. ctx_simpl.
  destruct (size <? Z.of_nat sizeof_msg3); [by apply wp_ret|].
  repeat tee_step. tee_return. eexists. split; [reflexivity|]. split; [|done].
  intros p d ->. apply Nat2Z.inj. eauto.
Qed.

Lemma prepare_msg3_spec buffer data data_size (w : W) :
  wp any_fault (prepare_msg3 buffer data data_size)
    (on_success fst (fun '(_, buffer') w' => exists o k d,
      v_objs (view (w_tee w)) !! ecdh_shared_session_key (w_ctx w) = Some o /\
      obj_attr TEE_ATTR_SECRET_VALUE o = Some k /\
      bread data data_size = Some d /\ length buffer' = length buffer /\
      msg3_holds k buffer' d)) w.
Proof.
  destruct w as [t c]. ctx_simpl. unfold prepare_msg3.
  eapply (wp_seq _ _ (fun r => (r, buffer))); [apply allocate_msg3_spec|done|].
  intros [t1 c1] (p & Hc1 & Hp & Hv1). ctx_simpl. subst c1.
  apply wp_bind. eapply wp_mono; [apply encrypt_msg3_spec|].
  { unfold msg3_block. ctx_simpl. destruct p as [[a d]|]; [|done]. intros ? ? [= <- <-]. eauto. }
  intros [res buffer'] w2 Hok. destruct (failed res) eqn:Hf.
  { apply wp_ret. intros Hres. simpl in Hres. by subst res. }
  apply failed_false in Hf. specialize (Hok Hf). ctx_simpl. rewrite Hv1 in Hok.
  eapply (wp_seq _ (fun _ _ => True) (fun r => (r, buffer')));
    [unfold wp, on_success; by destruct (free_msg3 w2) as [[]|]|done|].
  intros w3 _. apply wp_ret. intros _. exact Hok.
Qed.
End verifier_spec.
