(* ===== verification/VerifierTASpec.v ===== *)
(** * Correctness of the verifier's trusted application

    What holds in every state that the normal world can reach through the
    entry points, and what the commands guarantee there. *)

From S2P Require Import Prelude TeeApi TeeSpec Layout KeyDerivation TeeLogic KeySpec Verifier.
From S2P Require Import VerifierSpec VerifierTA.

Section ta_spec.
Context `{T : TEE} `{K : Crypto} `{Sp : !TEE_Spec T K} `{P : Platform}.

Abbreviation W := (world tee ra_context_verifier).

(** ** The invariant *)

(** The messages have their sizes, and the secret has the size recorded while
    its block is not freed. *)
Record wf (c : ra_context_verifier) : Prop := {
  wf_msg0 : length (msg0 c) = sizeof_msg0;
  wf_msg1 : length (msg1 c) = sizeof_msg1;
  wf_msg2 : length (msg2 c) = sizeof_msg2;
  wf_secret : match secret c with
              | HeapBlock _ b => zlen b = secret_size c
              | HeapNull => secret_size c = 0
              | HeapFreed _ => True
              end
}.

Lemma context_singleton_wf : wf context_singleton.
Proof. by split; [apply length_zeros..|]. Qed.

(** A new value of one member. *)
Lemma wf_set_msg1 m c : length m = sizeof_msg1 -> wf c -> wf (set_msg1 m c).
Proof. intros Hm []. by split. Qed.

Lemma wf_uset_msg1 f z c :
  fits f sizeof_msg1 -> wf c -> wf (set_msg1 (uset f z (msg1 c)) c).
Proof. intros Hf Hc. apply wf_set_msg1; [|done]. destruct Hc. rewrite length_uset; congruence. Qed.

(** The members of [msg1] lie inside it. *)
Ltac msg1_member := solve [pose proof verifier_msg1_room; layout].

Lemma get_public_value_keeps key id raw size :
  fits raw sizeof_msg1 -> fits size sizeof_msg1 -> keeps wf (get_public_value key id raw size).
Proof.
  intros Hr Hs. unfold get_public_value. repeat keeps_step.
  match goal with H : wf ?c, H' : fwrite _ _ (msg1 ?c) = Some _ |- _ =>
    apply length_fwrite in H'; [|by rewrite (wf_msg1 _ H)]; destruct H as [_ H _ _] end.
  apply wf_set_msg1; [|done]. rewrite length_uset; congruence.
Qed.

Lemma wf_fwrite_msg1 f d m c c' :
  fits f sizeof_msg1 -> fwrite f d (msg1 c) = Some m -> wf c -> wf c' -> wf (set_msg1 m c').
Proof.
  intros Hf Hm Hc. apply wf_set_msg1.
  apply length_fwrite in Hm; destruct Hc; congruence.
Qed.

(** What is left after the steps: a store that keeps the sizes, or a call of
    a function that is known to keep them. *)
Ltac wf_solve :=
  first
  [ match goal with H : wf ?c |- wf (_ ?c) => by destruct H; split end
  | apply get_public_value_keeps; msg1_member
  | apply wf_uset_msg1; [msg1_member|done]
  | eapply wf_fwrite_msg1; [|eassumption|assumption|assumption]; msg1_member
  | auto with watz nocore ].

Ltac keeps_solve := unfold store_handle, free_object, free_operation; repeat keeps_step; wf_solve.

Lemma generate_ecdh_keypair_keeps : keeps wf generate_ecdh_keypair.
Proof. unfold generate_ecdh_keypair. keeps_solve. Qed.

Lemma generate_ecdsa_keypair_keeps : keeps wf generate_ecdsa_keypair.
Proof. unfold generate_ecdsa_keypair. keeps_solve. Qed.

Lemma import_attester_attestation_key_keeps : keeps wf import_attester_attestation_key.
Proof. unfold import_attester_attestation_key. keeps_solve. Qed.

Lemma wf_take_msg0 b c :
  (zlen b <? Z.of_nat sizeof_msg0) = false -> wf c -> wf (set_msg0 (take sizeof_msg0 b) c).
Proof. intros Hb []. split; try done. simpl. rewrite length_take. lia. Qed.

Lemma wf_take_msg2 b c :
  (zlen b <? Z.of_nat sizeof_msg2) = false -> wf c -> wf (set_msg2 (take sizeof_msg2 b) c).
Proof. intros Hb []. split; try done. simpl. rewrite length_take. lia. Qed.

Hint Resolve wf_take_msg0 wf_take_msg2 : watz.

Lemma store_msg0_keeps b : keeps wf (store_msg0 b).
Proof. unfold store_msg0. keeps_solve. Qed.

Lemma store_msg2_keeps b : keeps wf (store_msg2 b).
Proof. unfold store_msg2. keeps_solve. Qed.

Lemma populate_attester_key_keeps : keeps wf populate_attester_key.
Proof. unfold populate_attester_key. keeps_solve. Qed.

Lemma derive_shared_key_keeps : keeps wf derive_shared_key.
Proof. unfold derive_shared_key, KeyDerivation.derive_shared_key. keeps_solve. Qed.

Lemma derive_shared_mac_key_keeps data n output set_output :
  (forall h c, wf c -> wf (set_output h c)) ->
  keeps wf (derive_shared_mac_key data n output set_output).
Proof.
  intros Hset. unfold derive_shared_mac_key, KeyDerivation.derive_shared_mac_key. keeps_solve.
Qed.

Lemma append_ecdh_public_keys_signature_keeps : keeps wf append_ecdh_public_keys_signature.
Proof. unfold append_ecdh_public_keys_signature. keeps_solve. Qed.

Lemma append_mac_keeps : keeps wf append_mac.
Proof. unfold append_mac. keeps_solve. Qed.

Lemma verify_mac_msg2_keeps : keeps wf verify_mac_msg2.
Proof. unfold verify_mac_msg2. keeps_solve. Qed.

Lemma verify_public_key_msg2_matches_msg0_keeps :
  keeps wf verify_public_key_msg2_matches_msg0.
Proof. unfold verify_public_key_msg2_matches_msg0. keeps_solve. Qed.

Lemma verify_quote_signature_keeps : keeps wf verify_quote_signature.
Proof. unfold verify_quote_signature. keeps_solve. Qed.

Lemma verify_anchor_keeps : keeps wf verify_anchor.
Proof. unfold verify_anchor. keeps_solve. Qed.

Lemma allocate_msg3_keeps n : keeps wf (allocate_msg3 n).
Proof. unfold allocate_msg3. keeps_solve. Qed.

Lemma encrypt_msg3_keeps buffer data n : keeps wf (encrypt_msg3 buffer data n).
Proof. unfold encrypt_msg3, update_msg3. keeps_solve. Qed.

Lemma free_msg3_keeps : keeps wf free_msg3.
Proof. unfold free_msg3. keeps_solve. Qed.

Hint Resolve generate_ecdh_keypair_keeps generate_ecdsa_keypair_keeps
  import_attester_attestation_key_keeps store_msg0_keeps store_msg2_keeps
  populate_attester_key_keeps derive_shared_key_keeps append_ecdh_public_keys_signature_keeps
  append_mac_keeps verify_mac_msg2_keeps verify_public_key_msg2_matches_msg0_keeps
  verify_quote_signature_keeps verify_anchor_keeps allocate_msg3_keeps encrypt_msg3_keeps
  free_msg3_keeps : watz.

(** Storing a handle does not touch messages or secret. *)
Lemma set_keys_keep h c :
  wf c -> wf (set_ecdh_shared_mac_key h c) /\ wf (set_ecdh_shared_session_key h c).
Proof. intros []. by repeat split. Qed.

Lemma handle_msg0_keeps b : keeps wf (handle_msg0 b).
Proof.
  unfold handle_msg0. repeat keeps_step; auto with watz nocore;
    apply derive_shared_mac_key_keeps; intros h c Hc; by apply set_keys_keep.
Qed.

Lemma prepare_msg1_keeps b : keeps wf (prepare_msg1 b).
Proof. unfold prepare_msg1. keeps_solve. Qed.

Lemma handle_msg2_keeps b : keeps wf (handle_msg2 b).
Proof. unfold handle_msg2. keeps_solve. Qed.

Lemma prepare_msg3_keeps b data n : keeps wf (prepare_msg3 b data n).
Proof. unfold prepare_msg3. keeps_solve. Qed.

Lemma wf_dangling_secret c : wf c -> wf (set_secret (dangling (secret c)) c).
Proof. intros [H0 H1 H2 Hs]. split; try done. simpl. by destruct (secret c). Qed.

Hint Resolve wf_dangling_secret : watz.

Lemma dispose_ra_context_keeps : keeps wf dispose_ra_context.
Proof. unfold dispose_ra_context. keeps_solve. Qed.

(** The secret is replaced in several steps; the size and the block agree at
    the end. *)
Lemma TA_ConfigureCustomSecret_spec b n (w : W) :
  wf (w_ctx w) ->
  wp any_fault (TA_ConfigureCustomSecret b n)
    (fun res w' => res = TEE_SUCCESS /\ wf (w_ctx w') /\
      (exists d, bread b (wrap32 n) = Some d /\ secret_size (w_ctx w') = zlen d /\
        heap_bytes (secret (w_ctx w')) = Some d) /\
      view (w_tee w') = view (w_tee w)) w.
Proof.
  intros [H0 H1 H2 _]. unfold TA_ConfigureCustomSecret. apply wp_bind, wp_set_ctx.
  apply wp_bind, wp_tcall; [|done]. intros p t Ht. apply spec_Malloc in Ht as [Hv Hp].
  apply wp_bind, wp_set_ctx. apply wp_bind, wp_get_some; [|done]. intros d Hd.
  pose proof (bread_inv _ _ _ Hd) as [Hdl _]. apply wp_bind. destruct p as [[a m]|].
  - apply wp_bind, wp_get_some; [|done]. intros m' Hm'. apply wp_set_ctx, wp_ret.
    specialize (Hp a m eq_refl). apply bwrite_all in Hm' as ->; [|lia].
    split; [done|]. split; [split; simpl; done|]. split; [|done]. exists d. by simpl.
  - apply wp_require; [|done]. intros Hz%Z.eqb_eq. apply wp_ret.
    split; [done|]. split; [split; simpl; done|]. split; [|done]. exists d. simpl.
    split; [done|]. split; [lia|]. destruct d; [done|simpl in *; lia].
Qed.

(** ** Reachable states *)

(** What the normal world can do: open a session, invoke a command with any
    parameters, close a session. *)
Inductive ta_step : W -> W -> Prop :=
| step_open types res w w' :
    TA_OpenSessionEntryPoint types w = Ret (res, w') -> ta_step w w'
| step_invoke stack cmd types params res params' w w' :
    TA_InvokeCommandEntryPoint stack cmd types params w = Ret ((res, params'), w') -> ta_step w w'
| step_close w w' : TA_CloseSessionEntryPoint w = Ret (tt, w') -> ta_step w w'.

Definition reachable (w : W) : Prop := exists t, rtc ta_step (World t context_singleton) w.

Hint Resolve handle_msg0_keeps prepare_msg1_keeps handle_msg2_keeps prepare_msg3_keeps
  dispose_ra_context_keeps : watz.

Lemma TA_ConfigureCustomSecret_keeps b n : keeps wf (TA_ConfigureCustomSecret b n).
Proof.
  intros w Hw. eapply wp_mono; [by apply TA_ConfigureCustomSecret_spec|].
  by intros res w' (_ & Hw' & _).
Qed.

Hint Resolve TA_ConfigureCustomSecret_keeps : watz.

Lemma TA_OpenSessionEntryPoint_keeps types : keeps wf (TA_OpenSessionEntryPoint types).
Proof. unfold TA_OpenSessionEntryPoint. keeps_solve. Qed.

Lemma TA_InvokeCommandEntryPoint_keeps stack cmd types params :
  keeps wf (TA_InvokeCommandEntryPoint stack cmd types params).
Proof. unfold TA_InvokeCommandEntryPoint. keeps_solve. Qed.

Lemma TA_CloseSessionEntryPoint_keeps : keeps wf TA_CloseSessionEntryPoint.
Proof. unfold TA_CloseSessionEntryPoint. keeps_solve. Qed.

Lemma keeps_run {A} (m : M W A) w a w' :
  keeps wf m -> wf (w_ctx w) -> m w = Ret (a, w') -> wf (w_ctx w').
Proof. intros Hm Hw Hrun. exact (wp_ret_inv _ _ _ _ _ _ (Hm w Hw) Hrun). Qed.

Lemma ta_step_wf w w' : ta_step w w' -> wf (w_ctx w) -> wf (w_ctx w').
Proof.
  intros Hstep Hw. destruct Hstep; (eapply keeps_run; [|eassumption|eassumption]).
  - apply TA_OpenSessionEntryPoint_keeps.
  - apply TA_InvokeCommandEntryPoint_keeps.
  - apply TA_CloseSessionEntryPoint_keeps.
Qed.

Lemma reachable_wf w : reachable w -> wf (w_ctx w).
Proof.
  intros [t Hr]. revert Hr. generalize context_singleton_wf.
  change context_singleton with (w_ctx (World t context_singleton)) at 1.
  generalize (World t context_singleton). intros w0 H0 Hr.
  induction Hr; eauto using ta_step_wf.
Qed.

(** ** The entry points *)

(** The parameter types each command of the verifier expects. *)
Definition command_types (cmd : Z) : option param_types :=
  if cmd =? VERIFIER_COMMAND_BOOTSTRAP_SECRET then
    Some (TEE_PARAM_TYPE_MEMREF_INPUT, TEE_PARAM_TYPE_NONE, TEE_PARAM_TYPE_NONE,
          TEE_PARAM_TYPE_NONE)
  else if cmd =? VERIFIER_COMMAND_HANDLE_MSG_0 then
    Some (TEE_PARAM_TYPE_MEMREF_INPUT, TEE_PARAM_TYPE_NONE, TEE_PARAM_TYPE_NONE,
          TEE_PARAM_TYPE_NONE)
  else if cmd =? VERIFIER_COMMAND_PREPARE_MSG_1 then
    Some (TEE_PARAM_TYPE_MEMREF_OUTPUT, TEE_PARAM_TYPE_VALUE_OUTPUT, TEE_PARAM_TYPE_NONE,
          TEE_PARAM_TYPE_NONE)
  else if cmd =? VERIFIER_COMMAND_HANDLE_MSG_2 then
    Some (TEE_PARAM_TYPE_MEMREF_INPUT, TEE_PARAM_TYPE_VALUE_OUTPUT,
          TEE_PARAM_TYPE_MEMREF_OUTPUT, TEE_PARAM_TYPE_NONE)
  else if cmd =? VERIFIER_COMMAND_PREPARE_MSG_3 then
    Some (TEE_PARAM_TYPE_MEMREF_OUTPUT, TEE_PARAM_TYPE_MEMREF_OUTPUT, TEE_PARAM_TYPE_NONE,
          TEE_PARAM_TYPE_NONE)
  else None.

(** A command with other parameter types than its own, or an unknown command,
    is refused with [TEE_ERROR_BAD_PARAMETERS]: neither the context of the
    session nor the parameters change. *)
Theorem invoke_bad_parameters stack cmd types params (w : W) :
  command_types cmd <> Some types ->
  TA_InvokeCommandEntryPoint stack cmd types params w =
    Ret ((TEE_ERROR_BAD_PARAMETERS, params), w).
Proof.
  unfold command_types, TA_InvokeCommandEntryPoint.
  do 5 (match goal with |- context [cmd =? ?x] => destruct (cmd =? x) end;
    [intros Hty; rewrite bool_decide_false by (intros ->; exact (Hty eq_refl)); reflexivity|]).
  done.
Qed.

Lemma import_attester_attestation_key_spec (w : W) :
  wp any_fault import_attester_attestation_key
    (on_success id (fun _ w' => exists h o xa ya,
      w_ctx w' = set_ecdsa_attester_public_key_y_attr ya
        (set_ecdsa_attester_public_key_x_attr xa
          (set_ecdsa_attester_public_key_handle h (w_ctx w))) /\
      v_objs (view (w_tee w')) !! h = Some o /\
      obj_attr TEE_ATTR_ECC_PUBLIC_VALUE_X o = Some RA_IMX_TEST_PUBLIC_KEY_X /\
      obj_attr TEE_ATTR_ECC_PUBLIC_VALUE_Y o = Some RA_IMX_TEST_PUBLIC_KEY_Y /\
      grows (view (w_tee w)) (view (w_tee w')))) w.
Proof.
  destruct w as [t c]. ctx_simpl. destruct (view t) as [objs ops socks] eqn:Hv0.
  unfold import_attester_attestation_key. repeat tee_step. ctx_simpl. tee_return.
  unfold deref in *. cbn [read_attribute] in *. ctx_simpl.
  do 4 eexists. split; [reflexivity|]. split; [view_lookup|].
  do 2 (split; [reflexivity|]). grows_solve.
Qed.

(** The keys of a session that has been opened: the public key of the header
    as the attester's, and a key pair [(a, (sx, sy))] of the verifier. *)
Record session_keys (c : ra_context_verifier) (v : tee_view) (a sx sy : bytes) : Prop := {
  se_attester : exists o, v_objs v !! ecdsa_attester_public_key_handle c = Some o /\
    obj_attr TEE_ATTR_ECC_PUBLIC_VALUE_X o = Some RA_IMX_TEST_PUBLIC_KEY_X /\
    obj_attr TEE_ATTR_ECC_PUBLIC_VALUE_Y o = Some RA_IMX_TEST_PUBLIC_KEY_Y;
  se_verifier : exists o, v_objs v !! ecdsa_local_keypair_handle c = Some o /\
    keypair_object o a sx sy;
  se_msg1 : msg1_ecdsa (msg1 c) sx sy
}.

Lemma open_session_spec types (w : W) :
  wf (w_ctx w) ->
  wp any_fault (TA_OpenSessionEntryPoint types)
    (on_success id (fun _ w' => types = no_params /\
      exists a sx sy, session_keys (w_ctx w') (view (w_tee w')) a sx sy)) w.
Proof.
  intros Hr. unfold TA_OpenSessionEntryPoint. case_bool_decide; [|by apply wp_ret]. simpl.
  eapply wp_seq; [apply import_attester_attestation_key_spec|done|].
  intros [t1 c1] (h & o & xa & ya & Hc1 & Ho & Hx & Hy & _). ctx_simpl.
  eapply wp_seq; [apply verifier_generate_ecdsa_keypair_spec|done|].
  { ctx_simpl. rewrite Hc1. ctx_simpl. by destruct Hr. }
  intros [t2 c2] (h2 & k & a & sx & sy & m & Hc2 & Hk & Hkp & Hl & Hm & _ & Hg). ctx_simpl.
  apply wp_ret. intros _. split; [done|]. exists a, sx, sy. subst c1 c2. split; ctx_simpl.
  - exists o. split; [by eapply grows_obj|done].
  - by exists k.
  - done.
Qed.

(** C38: The verifier trusts one attestation key: a session that has been opened with
    success in a reachable state has the public key of the header as the
    attester's, and a signature key pair whose public key is in [msg1]; it was
    opened without parameters. *)
Theorem open_session_keys types (w w' : W) :
  reachable w -> TA_OpenSessionEntryPoint types w = Ret (TEE_SUCCESS, w') ->
  types = no_params /\ exists a sx sy, session_keys (w_ctx w') (view (w_tee w')) a sx sy.
Proof.
  intros Hr%reachable_wf Hrun.
  exact (wp_ret_inv _ _ _ _ _ _ (open_session_spec types w Hr) Hrun eq_refl).
Qed.

(** C9: Whenever [HANDLE_MSG_0] succeeds in a reachable state, the session has an
    ephemeral key pair in an object that did not exist before the command, the
    message is stored, the public key of the pair is in [msg1], and MAC and
    session key are those of the Diffie-Hellman exchange between this pair and
    the key in the message. *)
Theorem handle_msg_0_command stack types buffer params (w : W) params' w' :
  reachable w ->
  TA_InvokeCommandEntryPoint stack VERIFIER_COMMAND_HANDLE_MSG_0 types
    (PMemref buffer :: params) w = Ret ((TEE_SUCCESS, params'), w') ->
  v_objs (view (w_tee w)) !! ecdh_local_keypair_handle (w_ctx w') = None /\
  exists b vx vy x y, keyed (w_ctx w') (view (w_tee w')) b vx vy x y /\
    msg0 (w_ctx w') = take sizeof_msg0 buffer /\ (sizeof_msg0 <= length buffer)%nat /\
    (forall sx sy, msg1_ecdsa (msg1 (w_ctx w)) sx sy -> msg1_ecdsa (msg1 (w_ctx w')) sx sy).
Proof.
  intros Hr%reachable_wf Hrun. unfold TA_InvokeCommandEntryPoint in Hrun. simpl in Hrun.
  case_bool_decide; [|done]. simpl in Hrun. unfold mbind, M_bind in Hrun.
  destruct (handle_msg0 buffer w) as [[res w1]|] eqn:Hh; [|done]. simplify_eq/=.
  injection Hrun as -> <- <-.
  destruct (wp_ret_inv _ _ _ _ _ _ (handle_msg0_spec _ _ (wf_msg1 _ Hr)) Hh eq_refl)
    as (b & vx & vy & x & y & Hk & H0 & Hl & Hs & Hn & _). eauto 10.
Qed.

(** What [PREPARE_MSG_1] guarantees: the signature in [msg1] binds the two
    ephemeral keys under the verifier's key pair, the MAC covers keys and
    signature under the session's MAC key, and the caller gets the message
    with its size. *)
Definition msg1_prepared (buffer : bytes) (b : Z) (params params' : list ta_param) (w w' : W)
    : Prop :=
  exists o mo mk vx vy x y sx sy ox oy,
    v_objs (view (w_tee w)) !! ecdsa_local_keypair_handle (w_ctx w) = Some o /\
    obj_attr TEE_ATTR_ECC_PUBLIC_VALUE_X o = Some ox /\
    obj_attr TEE_ATTR_ECC_PUBLIC_VALUE_Y o = Some oy /\
    v_objs (view (w_tee w')) !! ecdh_shared_mac_key (w_ctx w) = Some mo /\
    obj_attr TEE_ATTR_SECRET_VALUE mo = Some mk /\
    verifier_msg0_key (msg0 (w_ctx w)) x y /\ msg1_ecdsa (msg1 (w_ctx w)) sx sy /\
    msg1_sent (msg1 (w_ctx w')) mk vx vy x y sx sy ox oy /\
    (sizeof_msg1 <= length buffer)%nat /\
    params' = PMemref (splice 0 (msg1 (w_ctx w')) buffer)
                :: PValue (Z.of_nat sizeof_msg1) b :: params.

Lemma verifier_sizeof_msg1_small : Z.of_nat sizeof_msg1 < 2 ^ 32.
Proof.
  pose proof (align_up_lt (128 + 4 * sizeof_size_t + RA_SIGNATURE_SIZE + 16) sizeof_size_t).
  pose proof small_structures. unfold sizeof_msg1.
  destruct sizeof_size_t_cases as [E|E]; rewrite E in *; lia.
Qed.

Lemma prepare_msg_1_spec stack types buffer z b params (w : W) params' w' :
  wf (w_ctx w) ->
  TA_InvokeCommandEntryPoint stack VERIFIER_COMMAND_PREPARE_MSG_1 types
    (PMemref buffer :: PValue z b :: params) w = Ret ((TEE_SUCCESS, params'), w') ->
  msg1_prepared buffer b params params' w w'.
Proof.
  intros Hr Hrun. unfold TA_InvokeCommandEntryPoint in Hrun. simpl in Hrun.
  case_bool_decide; [|done]. simpl in Hrun. unfold mbind, M_bind in Hrun.
  destruct (prepare_msg1 buffer w) as [[[[res buffer'] size] w1]|] eqn:Hh; [|done].
  injection Hrun as -> <- <-.
  destruct (wp_ret_inv _ _ _ _ _ _ (prepare_msg1_spec _ _ (wf_msg1 _ Hr)) Hh eq_refl)
    as (o & mo & mk & vx & vy & x & y & sx & sy & ox & oy & H1 & H2 & H3 & H4 & H5 & H6 & H7 & H8
      & H9 & -> & H10 & -> & _).
  exists o, mo, mk, vx, vy, x, y, sx, sy, ox, oy. do 9 (split; [done|]).
  pose proof verifier_sizeof_msg1_small.
  cbn [default from_option id]. do 3 f_equal. apply Z.mod_small. lia.
Qed.

(** C10: Whenever [PREPARE_MSG_1] succeeds in a reachable state, the caller has got
    an authenticated [msg1] and its size. *)
Theorem prepare_msg_1_command stack types buffer z b params (w : W) params' w' :
  reachable w ->
  TA_InvokeCommandEntryPoint stack VERIFIER_COMMAND_PREPARE_MSG_1 types
    (PMemref buffer :: PValue z b :: params) w = Ret ((TEE_SUCCESS, params'), w') ->
  msg1_prepared buffer b params params' w w'.
Proof. intros Hr%reachable_wf. by apply prepare_msg_1_spec. Qed.

(** What [HANDLE_MSG_2] guarantees: the quote in the buffer has been appraised
    against this session and the attestation key, and the value reported to
    the normal world is 1. *)
Definition msg2_accepted (buffer : bytes) (b : Z) (params params' : list ta_param) (w w' : W)
    : Prop :=
  params' = PMemref buffer :: PValue 1 b :: params /\
  exists x y vx vy px py, appraised (w_ctx w') (view (w_tee w')) x y vx vy px py /\
    w_ctx w' = set_is_quote_valid true (set_msg2 (take sizeof_msg2 buffer) (w_ctx w)) /\
    grows (view (w_tee w)) (view (w_tee w')).

Lemma handle_msg_2_spec stack types buffer z b params (w : W) params' w' :
  TA_InvokeCommandEntryPoint stack VERIFIER_COMMAND_HANDLE_MSG_2 types
    (PMemref buffer :: PValue z b :: params) w = Ret ((TEE_SUCCESS, params'), w') ->
  msg2_accepted buffer b params params' w w'.
Proof.
  intros Hrun. unfold TA_InvokeCommandEntryPoint in Hrun. simpl in Hrun.
  case_bool_decide; [|done]. simpl in Hrun. unfold mbind, M_bind, ctx, gets in Hrun.
  destruct (handle_msg2 buffer w) as [[res w1]|] eqn:Hh; [|done].
  injection Hrun as -> <- <-.
  destruct (wp_ret_inv _ _ _ _ _ _ (handle_msg2_spec _ _) Hh eq_refl)
    as (x & y & vx & vy & px & py & Hap & Hc & _ & Hg).
  split; [by rewrite (ap_valid _ _ _ _ _ _ _ _ Hap)|].
  by exists x, y, vx, vy, px, py.
Qed.

(** C4: [HANDLE_MSG_2]: success means that the quote has been appraised, and the
    value reported to the normal world is then always 1. *)
Theorem handle_msg_2_command stack types buffer z b params (w : W) params' w' :
  TA_InvokeCommandEntryPoint stack VERIFIER_COMMAND_HANDLE_MSG_2 types
    (PMemref buffer :: PValue z b :: params) w = Ret ((TEE_SUCCESS, params'), w') ->
  msg2_accepted buffer b params params' w w'.
Proof. apply handle_msg_2_spec. Qed.

(** What [PREPARE_MSG_3] guarantees: the block of the secret has not been freed,
    and the message holds all of it, encrypted under the session key. *)
Definition secret_encrypted (buffer : bytes) (params params' : list ta_param) (w : W) : Prop :=
  exists o k buffer',
    v_objs (view (w_tee w)) !! ecdh_shared_session_key (w_ctx w) = Some o /\
    obj_attr TEE_ATTR_SECRET_VALUE o = Some k /\
    params' = PMemref buffer' :: params /\ length buffer' = length buffer /\
    exists d, heap_bytes (secret (w_ctx w)) = Some d /\ zlen d = secret_size (w_ctx w) /\
      msg3_holds k buffer' d.

Lemma prepare_msg_3_spec stack types buffer params (w : W) params' w' :
  wf (w_ctx w) ->
  TA_InvokeCommandEntryPoint stack VERIFIER_COMMAND_PREPARE_MSG_3 types
    (PMemref buffer :: params) w = Ret ((TEE_SUCCESS, params'), w') ->
  secret_encrypted buffer params params' w.
Proof.
  intros [_ _ _ Hs] Hrun. unfold TA_InvokeCommandEntryPoint in Hrun. simpl in Hrun.
  case_bool_decide; [|done]. simpl in Hrun. unfold mbind, M_bind, ctx, gets in Hrun.
  destruct (heap_bytes (secret (w_ctx w))) as [data|] eqn:Hb; [|done]. simpl in Hrun.
  unfold mret, M_ret in Hrun.
  destruct (prepare_msg3 buffer data (secret_size (w_ctx w)) w) as [[[res buffer'] w1]|] eqn:Hh;
    [|done]. injection Hrun as -> <- <-.
  destruct (wp_ret_inv _ _ _ _ _ _ (prepare_msg3_spec _ _ _ _) Hh eq_refl)
    as (o & k & d & Ho & Hk & Hd & Hl & Hm).
  assert (zlen data = secret_size (w_ctx w)) as Hsz
    by (destruct (secret (w_ctx w)); simplify_eq/=; congruence || done).
  rewrite (bread_whole _ _ Hsz) in Hd. injection Hd as <-. exists o, k, buffer'. eauto 10.
Qed.

(** C11: Whenever [PREPARE_MSG_3] succeeds in a reachable state, the secret that is
    configured has not been freed, and the caller has got a message that
    decrypts under the session key to all of it. *)
Theorem prepare_msg_3_command stack types buffer params (w : W) params' w' :
  reachable w ->
  TA_InvokeCommandEntryPoint stack VERIFIER_COMMAND_PREPARE_MSG_3 types
    (PMemref buffer :: params) w = Ret ((TEE_SUCCESS, params'), w') ->
  secret_encrypted buffer params params' w.
Proof. intros Hr%reachable_wf. by apply prepare_msg_3_spec. Qed.

(** [BOOTSTRAP_SECRET]: the trusted application keeps a copy of the buffer. *)
Theorem bootstrap_secret_command stack types buffer params (w : W) res params' w' :
  reachable w -> zlen buffer < 2 ^ 32 ->
  types = (TEE_PARAM_TYPE_MEMREF_INPUT, TEE_PARAM_TYPE_NONE, TEE_PARAM_TYPE_NONE,
           TEE_PARAM_TYPE_NONE) ->
  TA_InvokeCommandEntryPoint stack VERIFIER_COMMAND_BOOTSTRAP_SECRET types
    (PMemref buffer :: params) w = Ret ((res, params'), w') ->
  res = TEE_SUCCESS /\ secret_size (w_ctx w') = zlen buffer /\
  heap_bytes (secret (w_ctx w')) = Some buffer.
Proof.
  intros Hr%reachable_wf Hl -> Hrun. unfold TA_InvokeCommandEntryPoint in Hrun. simpl in Hrun.
  unfold mbind, M_bind in Hrun.
  destruct (TA_ConfigureCustomSecret buffer (zlen buffer) w) as [[r w1]|] eqn:Hh; [|done].
  injection Hrun as -> <- <-.
  destruct (wp_ret_inv _ _ _ _ _ _ (TA_ConfigureCustomSecret_spec _ _ _ Hr) Hh)
    as (-> & _ & (d & Hd & Hs & Hsec) & _).
  replace (wrap32 (zlen buffer)) with (zlen buffer) in Hd by (symmetry; apply Z.mod_small; lia).
  apply bread_all in Hd. subst d. done.
Qed.
End ta_spec.
