(* ===== verification/VerifierLive.v ===== *)
(** * Progress of the verifier

    On a TEE that does not run out of resources ([TEE_Reliable]), a command of
    the verifier that gets a well-formed input returns [TEE_SUCCESS]. Together
    with the partial correctness of [VerifierSpec] this makes the appraisal of
    a quote complete: the verifier accepts exactly the genuine ones. *)

From S2P Require Import Prelude TeeApi TeeSpec Layout KeyDerivation TeeLogic KeySpec Reliable.
From S2P Require Import Verifier VerifierSpec VerifierTA VerifierTASpec.

(** ** Derivation of the keys *)

Section derivation_live.
Context `{T : TEE} `{K : Crypto} `{Sp : !TEE_Spec T K} `{Rl : !TEE_Reliable T K Sp} {C : Type}.
Context (keypair : C -> handle) (remote_public_key : C -> option (list attr_value)).
Context (kdk : C -> handle) (set_kdk : handle -> C -> C).
Hypothesis kdk_set_kdk : forall h c, kdk (set_kdk h c) = h.


End derivation_live.

Section verifier_live.
Context `{T : TEE} `{K : Crypto} `{Sp : !TEE_Spec T K} `{Rl : !TEE_Reliable T K Sp}.
Context `{P : Platform}.

Abbreviation W := (world tee ra_context_verifier).



(** ** Handling [msg0] *)











(** ** Opening a session *)











(** ** Preparing [msg1] *)




(** ** Appraising [msg2] *)









(** ** Releasing the secret in [msg3] *)






(** ** The commands *)



End verifier_live.
