(* ===== verification/HostSpec.v ===== *)
(** * Correctness of the verifier's host program

    What the normal world sends to an attester, for every behaviour of the
    network and of the C library: the host program is composed with the
    trusted application through the interface of the TEE client library. *)

From Stdlib Require Import Strings.String.
From S2P Require Import Prelude TeeApi TeeSpec Layout KeyDerivation TeeLogic KeySpec Verifier.
From S2P Require Import VerifierSpec VerifierTA VerifierTASpec Host VerifierHost.
From stdpp Require Import base list.
#[local] Open Scope Z_scope.

(** ** Partial correctness of host programs *)

(** [Q] after a return, [X] after [exit]; undefined behaviour is tolerated. *)
Definition hwlp {S A} (m : H S A) (Q : A -> S -> Prop) (X : S -> Prop) (s : S) : Prop :=
  match m s with
  | HRet a s' => Q a s'
  | HExit _ s' => X s'
  | HFault _ => True
  end.

Section hwlp_rules.
Context {X : Type}.
Abbreviation S := (host_state X).
Implicit Types (s : S) (E : S -> Prop).

Lemma hwlp_ret {A} (a : A) (Q : A -> S -> Prop) E s : Q a s -> hwlp (mret a) Q E s.
Proof. done. Qed.

Lemma hwlp_bind {A B} (m : H S A) (k : A -> H S B) Q E s :
  hwlp m (fun a => hwlp (k a) Q E) E s -> hwlp (m ≫= k) Q E s.
Proof. unfold hwlp, mbind, H_bind. by destruct (m s). Qed.

Lemma hwlp_mono {A} (m : H S A) (Q Q' : A -> S -> Prop) E s :
  hwlp m Q E s -> (forall a s', Q a s' -> Q' a s') -> hwlp m Q' E s.
Proof. unfold hwlp. destruct (m s); auto. Qed.

Lemma hwlp_exit {A} code (Q : A -> S -> Prop) E s : E s -> hwlp (exit code) Q E s.
Proof. done. Qed.

Lemma hwlp_undefined {A} (Q : A -> S -> Prop) E s : hwlp hundefined Q E s.
Proof. done. Qed.

Lemma hwlp_some {A} (o : option A) (Q : A -> S -> Prop) E s :
  (forall a, o = Some a -> Q a s) -> hwlp (hsome o) Q E s.
Proof. intros HQ. destruct o; [by apply HQ|done]. Qed.

Lemma hwlp_teec {A} (f : X -> A * X) (Q : A -> S -> Prop) E s :
  (forall a t, f (h_teec s) = (a, t) -> Q a (set_teec t s)) -> hwlp (hteec f) Q E s.
Proof.
  intros HQ. unfold hteec, hwlp, mbind, H_bind, hget, hput, mret, H_ret.
  destruct (f (h_teec s)) as [a t] eqn:Hf. by apply HQ.
Qed.

(** The calls of the C library change neither the trusted application nor
    what was sent, except that [write] sends a prefix of its buffer. *)
Definition quiet (s s' : S) : Prop := h_teec s' = h_teec s /\ h_sent s' = h_sent s.

Lemma hwlp_malloc n (Q : option bytes -> S -> Prop) E s :
  (forall p s', quiet s s' -> (forall b, p = Some b -> length b = Z.to_nat n) -> Q p s') ->
  hwlp (malloc n) Q E s.
Proof.
  intros HQ. unfold malloc, hwlp, mbind, H_bind, hget, hput, mret, H_ret.
  destruct (default false _); apply HQ; try done.
  intros b [= <-]. by rewrite length_fmap, length_seq.
Qed.

Lemma hwlp_read b n (Q : bytes -> S -> Prop) E s :
  (forall b' s', quiet s s' -> length b' = length b -> Q b' s') -> hwlp (read b n) Q E s.
Proof.
  intros HQ. unfold read, hwlp, mbind, H_bind, hget, hput, mret, H_ret.
  destruct (_ <=? _)%nat eqn:Hle; [|done]. apply HQ; [done|].
  apply length_splice. rewrite length_take. apply Nat.leb_le in Hle. lia.
Qed.

Lemma hwlp_write b n (Q : () -> S -> Prop) E s :
  (forall k s', h_teec s' = h_teec s -> (k <= Z.to_nat n)%nat ->
    h_sent s' = h_sent s ++ take k b -> Q tt s') ->
  hwlp (write b n) Q E s.
Proof.
  intros HQ. unfold write, hwlp, mbind, H_bind, hget, hput, mret, H_ret.
  destruct (n <=? zlen b); [|done]. eapply HQ; [done| |done].
  destruct (head _); lia.
Qed.

Lemma hwlp_printf b (Q : () -> S -> Prop) E s :
  (forall s', quiet s s' -> Q tt s') -> hwlp (printf b) Q E s.
Proof. intros HQ. by apply HQ. Qed.
End hwlp_rules.

(** ** The host program and the trusted application *)

Section verifier_host.
Context `{T : TEE} `{K : Crypto} `{Sp : !TEE_Spec T K} `{P : Platform} `{L : TEEC}.
Context (stack : Z) (sizeof_host_size_t : nat).
Context `{Lk : !TEEC_Link L (world tee ra_context_verifier) (TA_InvokeCommandEntryPoint stack)}.

Abbreviation W := (world tee ra_context_verifier).
Abbreviation S := (host_state teec).

(** The trusted application in a state of the host. *)
Definition ta (s : S) (w : W) : Prop := ta_state (h_teec s) = Some w /\ reachable w.

(** A command that succeeds has run in the trusted application. *)
Lemma invoke_success cmd types ps s ps' t w :
  ta s w -> TEEC_InvokeCommand cmd types ps (h_teec s) = ((TEE_SUCCESS, ps'), t) ->
  exists qs w', passed_all types ps qs /\
    TA_InvokeCommandEntryPoint stack cmd types qs w = Ret ((TEE_SUCCESS, ps'), w') /\
    ta (set_teec t s) w'.
Proof.
  intros [Hw Hr] Hrun. destruct (link_InvokeCommand _ _ _ _ _ _ Hrun)
    as (qs & w0 & w' & Hp & Hw0 & Hinv & Hw'). rewrite Hw in Hw0. injection Hw0 as <-.
  exists qs, w'. split; [done|]. split; [done|]. split; [done|].
  destruct Hr as [t0 Hr]. exists t0. eapply rtc_r; [done|]. by econstructor.
Qed.

Ltac passed_facts H :=
  cbn in H; repeat match goal with
  | H : Forall3 _ (_ :: _) _ _ |- _ => inversion H; clear H; subst
  | H : Forall3 _ [] _ _ |- _ => inversion H; clear H; subst
  | H : passed _ (PMemref _) _ |- _ => inversion H; clear H; subst
  | H : passed _ (PValue _ _) _ |- _ => inversion H; clear H; subst
  | H : passed _ PNone _ |- _ => inversion H; clear H; subst
  end.

Ltac host_invoke Hta :=
  apply hwlp_bind, hwlp_teec; intros [res ps] t Hrun; cbn [fst snd];
  destruct (failed res) eqn:Hres; [by apply hwlp_exit|];
  apply failed_false in Hres; subst res;
  destruct (invoke_success _ _ _ _ _ _ _ Hta Hrun) as (qs & w' & Hpass & Hinv & Hta').

(** Nothing is sent while a command runs. *)
Definition unsent (s s' : S) : Prop := h_sent s' = h_sent s.

Lemma receive_msg0_host buff s w :
  ta s w ->
  hwlp (receive_msg0 buff) (fun _ s' => unsent s s' /\ exists w', ta s' w') (unsent s) s.
Proof.
  intros Hta. unfold receive_msg0. host_invoke Hta. apply hwlp_ret. split; [done|eauto].
Qed.

(** What [PREPARE_MSG_1] returns to the host. *)
Definition msg1_of (w : W) : Prop :=
  exists mk vx vy x y sx sy ox oy, msg1_sent (msg1 (w_ctx w)) mk vx vy x y sx sy ox oy.

Lemma prepare_msg1_host buff s w :
  ta s w ->
  hwlp (prepare_msg1 buff)
    (fun '(b, n) s' => unsent s s' /\ n = Z.of_nat sizeof_msg1 /\ length b = length buff /\
      (sizeof_msg1 <= length buff)%nat /\
      exists w', ta s' w' /\ msg1_of w' /\ take sizeof_msg1 b = msg1 (w_ctx w'))
    (unsent s) s.
Proof.
  intros Hta. unfold prepare_msg1. host_invoke Hta. passed_facts Hpass.
  all: apply prepare_msg_1_spec in Hinv; [|apply reachable_wf, Hta].
  all: destruct Hinv as (o & mo & mk & vx & vy & x & y & sx & sy & ox & oy & _ & _ & _ & _ & _ & _
    & _ & Hsent & Hroom & ->).
  all: pose proof (sent_length _ _ _ _ _ _ _ _ _ _ Hsent) as Hl.
  all: apply hwlp_ret; split; [done|]; split; [done|].
  all: rewrite length_splice by lia; split; [congruence|]; split; [lia|].
  all: exists w'; split; [done|]; split; [by do 9 eexists|].
  all: unfold splice; rewrite take_0, app_nil_l, take_app_le, take_ge by lia; done.
Qed.

(** What [HANDLE_MSG_2] has checked. *)
Definition appraised_in (w : W) : Prop :=
  exists x y vx vy px py, appraised (w_ctx w) (view (w_tee w)) x y vx vy px py.

Lemma receive_msg2_host buff bench s w :
  ta s w ->
  hwlp (receive_msg2 buff bench)
    (fun _ s' => h_stdout s' = h_stdout s /\ unsent s s' /\ exists w', ta s' w' /\ appraised_in w' /\
      msg1 (w_ctx w') = msg1 (w_ctx w) /\ secret (w_ctx w') = secret (w_ctx w))
    (unsent s) s.
Proof.
  intros Hta. unfold receive_msg2. host_invoke Hta. passed_facts Hpass.
  all: apply handle_msg_2_spec in Hinv.
  all: destruct Hinv as (-> & x & y & vx & vy & px & py & Hap & Hc & _).
  all: apply hwlp_bind, hwlp_ret, hwlp_ret.
  all: split; [done|]; split; [done|]; exists w'; split; [done|].
  all: split; [by exists x, y, vx, vy, px, py|]; by rewrite Hc.
Qed.

(** The whole secret, whose block is not freed, and a message that
    [PREPARE_MSG_3] returns to the host. *)
Definition secret_of (w : W) (d : bytes) : Prop :=
  heap_bytes (secret (w_ctx w)) = Some d /\ zlen d = secret_size (w_ctx w).

Definition msg3_of (w : W) (b : bytes) : Prop :=
  exists o k d, v_objs (view (w_tee w)) !! ecdh_shared_session_key (w_ctx w) = Some o /\
    obj_attr TEE_ATTR_SECRET_VALUE o = Some k /\ secret_of w d /\ msg3_holds k b d.

Lemma prepare_msg3_host buff bench s w :
  ta s w ->
  hwlp (prepare_msg3 buff bench)
    (fun '(b, _) s' => unsent s s' /\ msg3_of w b) (unsent s) s.
Proof.
  intros Hta. unfold prepare_msg3. host_invoke Hta. passed_facts Hpass.
  all: apply prepare_msg_3_spec in Hinv; [|apply reachable_wf, Hta].
  all: destruct Hinv as (o & k & out3 & Ho & Hk & -> & Hl & d & Hd & Hz & Hm).
  all: apply hwlp_ret; split; [done|]; by exists o, k, d.
Qed.

(** What a connection that ends normally has sent: a prefix of [msg1], and a
    prefix of a message that holds the secret under the session key. The
    quote was appraised before. *)
Definition released (s s' : S) : Prop :=
  exists w k1 k3 b, reachable w /\ appraised_in w /\ msg3_of w b /\
    h_sent s' = h_sent s ++ take k1 (msg1 (w_ctx w)) ++ take k3 b.

(** What a connection that was given up has sent: at most a prefix of [msg1],
    which is not secret. *)
Definition given_up (s s' : S) : Prop :=
  unsent s s' \/
  exists w k1, msg1_of w /\ h_sent s' = h_sent s ++ take k1 (msg1 (w_ctx w)).

Lemma hwlp_exit_weaken {A} (m : H S A) Q (E E' : S -> Prop) s :
  hwlp m Q E s -> (forall s', E s' -> E' s') -> hwlp m Q E' s.
Proof. unfold hwlp. destruct (m s); auto. Qed.

(** A command of the host in the middle of a connection that has sent [d]. *)
Ltac host_call spec :=
  apply hwlp_bind; eapply hwlp_exit_weaken;
  [eapply hwlp_mono; [eapply spec; eassumption|]|].

Lemma malloc_zeroed_host n (Q : bytes -> S -> Prop) E s :
  (forall s', quiet s s' -> Q (zeros (Z.to_nat n)) s') -> hwlp (malloc_zeroed n) Q E s.
Proof.
  intros HQ. unfold malloc_zeroed. apply hwlp_bind, hwlp_malloc. intros p s1 Hs1 Hp.
  apply hwlp_bind, hwlp_some. intros b ->. apply hwlp_ret. rewrite (Hp b) by done. auto.
Qed.

Lemma quiet_ta s s' w : quiet s s' -> ta s w -> ta s' w.
Proof. unfold ta. by intros [-> _]. Qed.

(** The size of the buffer of a connection. *)
Definition buff_size (secret_size : Z) : Z :=
  wrap_size sizeof_host_size_t
    (secret_size + sizeof_host_msg3 sizeof_host_size_t + RA_AES_GCM_CIPHERTEXT_OVERHEAD).

Lemma handle_connection_spec secret_size s w :
  ta s w ->
  hwlp (handle_connection sizeof_host_size_t secret_size)
    (fun _ s' => released s s' /\ (sizeof_msg1 <= Z.to_nat (buff_size secret_size))%nat)
    (fun s' => given_up s s' /\
      (unsent s s' \/ (sizeof_msg1 <= Z.to_nat (buff_size secret_size))%nat)) s.
Proof.
  intros Hta. unfold handle_connection. fold (buff_size secret_size).
  apply hwlp_bind, malloc_zeroed_host. intros s1 Q1.
  apply hwlp_bind, malloc_zeroed_host. intros s2 Q2.
  apply hwlp_bind, hwlp_read. intros buff s3 Q3 Hl3. rewrite length_zeros in Hl3.
  assert (unsent s s3) as U3 by (destruct Q1, Q2, Q3; unfold unsent; congruence).
  apply (quiet_ta _ _ _ Q1), (quiet_ta _ _ _ Q2), (quiet_ta _ _ _ Q3) in Hta. clear Q1 Q2 Q3.
  host_call receive_msg0_host; [|intros s' Hs'; split; left; unfold unsent in *; congruence].
  intros [] s4 (U4 & w4 & Hta4).
  host_call prepare_msg1_host; [|intros s' Hs'; split; left; unfold unsent in *; congruence].
  intros [buff1 n1] s5 (U5 & -> & Hl5 & Hroom & w5 & Hta5 & Hm1 & Htake).
  rewrite Hl3 in Hroom. apply hwlp_bind, hwlp_write. intros k1 s6 T6 Hk1 S6.
  assert (h_sent s6 = h_sent s ++ take k1 (msg1 (w_ctx w5))) as D6.
  { rewrite S6, <- Htake, take_take, Nat.min_l by lia. unfold unsent in *. congruence. }
  assert (ta s6 w5) as Hta6 by (unfold ta; by rewrite T6).
  apply hwlp_bind, hwlp_read. intros buff2 s7 Q7 Hl7.
  pose proof (quiet_ta _ _ _ Q7 Hta6) as Hta7. destruct Q7 as [_ S7].
  host_call receive_msg2_host.
  2:{ intros s' Hs'. split; [right|by right]. exists w5, k1. split; [done|].
      unfold unsent in *. congruence. }
  intros bench s8 (_ & U8 & w8 & Hta8 & Hap & Hsame & _).
  host_call prepare_msg3_host.
  2:{ intros s' Hs'. split; [right|by right]. exists w5, k1. split; [done|].
      unfold unsent in *. congruence. }
  intros [buff3 bench3] s9 (U9 & Hm3). apply hwlp_bind, hwlp_write. intros k3 s10 T10 _ S10.
  apply hwlp_bind, hwlp_some. intros text _. apply hwlp_printf. intros s11 [_ S11].
  split; [|done]. exists w8, k1, k3, buff3. split; [apply Hta8|]. split; [done|]. split; [done|].
  rewrite S11, S10, Hsame, app_assoc. unfold unsent in *. congruence.
Qed.

(** C5: The secret leaves the verifier only after its quote has been appraised: a
    connection that ends has sent [msg1] and the secret encrypted under the
    session key; one that is given up has sent no more than [msg1]. *)
Theorem secret_sent_after_appraisal secret_size s w :
  ta s w ->
  hwlp (handle_connection sizeof_host_size_t secret_size) (fun _ s' => released s s')
    (given_up s) s.
Proof.
  intros Hta. eapply hwlp_exit_weaken; [eapply hwlp_mono; [by eapply handle_connection_spec|]|].
  - by intros [] s' [].
  - by intros s' [].
Qed.

(** A buffer that is shorter than [msg1]: the trusted application refuses to
    prepare the message. *)
Lemma short_secret_spec secret_size s w :
  ta s w -> buff_size secret_size < Z.of_nat sizeof_msg1 ->
  hwlp (handle_connection sizeof_host_size_t secret_size) (fun _ _ => False) (unsent s) s.
Proof.
  intros Hta Hsmall.
  assert (sizeof_msg1 <> 0)%nat by (pose proof verifier_msg1_room; lia).
  eapply hwlp_exit_weaken; [eapply hwlp_mono; [by eapply handle_connection_spec|]|].
  - intros [] s' [_ Hroom]. lia.
  - intros s' [_ [?|Hroom]]; [done|lia].
Qed.

(** C40: The buffer of a connection is sized for [msg3] only, but receives [msg1]
    too. With the built-in secret it is too short for [msg1]: no connection
    ends normally, and nothing is ever sent. *)
Theorem default_secret_never_served s w :
  ta s w -> sizeof_host_size_t = 4%nat \/ sizeof_host_size_t = 8%nat ->
  hwlp (handle_connection sizeof_host_size_t (zlen SECRET_DATA)) (fun _ _ => False) (unsent s) s.
Proof.
  intros Hta H48. eapply short_secret_spec; [done|]. pose proof verifier_msg1_room as Hroom.
  assert (buff_size (zlen SECRET_DATA) <= 110)
    by (unfold buff_size, sizeof_host_msg3; destruct H48 as [E|E]; rewrite E; by vm_compute).
  destruct sizeof_size_t_cases; lia.
Qed.
End verifier_host.
