(* ===== verification/Protocol.v ===== *)
(** * The attester and the verifier together

    What the two sides conclude about the same session. The messages cross
    the network as the object representation of the structures, so the first
    group of theorems compares the layouts of the two headers. *)

From S2P Require Import Prelude TeeApi TeeSpec Layout KeyDerivation TeeLogic KeySpec Attester.
From S2P Require Import AttesterSpec Verifier VerifierSpec.

Section protocol.
Context `{TA : TEE} `{TV : TEE} `{K : Crypto}.
Context `{SA : !TEE_Spec TA K} `{SV : !TEE_Spec TV K} `{P : Platform}.

(** ** Layouts *)

(** The members of a message as the two headers declare them. *)
Definition attester_msg0 : list field :=
  [Attester.msg0_x_raw; Attester.msg0_x_size; Attester.msg0_y_raw; Attester.msg0_y_size].
Definition verifier_msg0 : list field :=
  [Verifier.msg0_x_raw; Verifier.msg0_x_size; Verifier.msg0_y_raw; Verifier.msg0_y_size].
Definition attester_msg1 : list field :=
  [Attester.msg1_ecdh_x_raw; Attester.msg1_ecdh_x_size; Attester.msg1_ecdh_y_raw;
   Attester.msg1_ecdh_y_size; Attester.msg1_ecdsa_x_raw; Attester.msg1_ecdsa_x_size;
   Attester.msg1_ecdsa_y_raw; Attester.msg1_ecdsa_y_size; Attester.msg1_signature;
   Attester.msg1_mac].
Definition verifier_msg1 : list field :=
  [Verifier.msg1_ecdh_x_raw; Verifier.msg1_ecdh_x_size; Verifier.msg1_ecdh_y_raw;
   Verifier.msg1_ecdh_y_size; Verifier.msg1_ecdsa_x_raw; Verifier.msg1_ecdsa_x_size;
   Verifier.msg1_ecdsa_y_raw; Verifier.msg1_ecdsa_y_size; Verifier.msg1_signature;
   Verifier.msg1_mac].
Definition attester_msg23 : list field :=
  [Attester.msg2_x_raw; Attester.msg2_x_size; Attester.msg2_y_raw; Attester.msg2_y_size;
   Attester.msg2_quote; Attester.msg2_mac; Attester.msg3_iv; Attester.msg3_tag;
   Attester.msg3_encrypted_content_size].
Definition verifier_msg23 : list field :=
  [Verifier.msg2_x_raw; Verifier.msg2_x_size; Verifier.msg2_y_raw; Verifier.msg2_y_size;
   Verifier.msg2_quote; Verifier.msg2_mac; Verifier.msg3_iv; Verifier.msg3_tag;
   Verifier.msg3_encrypted_content_size].

(** Where [size_t] has 32 bits the two headers agree on every message. *)
Theorem layouts_agree_ilp32 :
  sizeof_size_t = 4%nat ->
  attester_msg0 = verifier_msg0 /\ Attester.sizeof_msg0 = Verifier.sizeof_msg0 /\
  attester_msg1 = verifier_msg1 /\ Attester.sizeof_msg1 = Verifier.sizeof_msg1 /\
  attester_msg23 = verifier_msg23 /\ Attester.sizeof_msg2 = Verifier.sizeof_msg2 /\
  Attester.sizeof_msg3 = Verifier.sizeof_msg3.
Proof.
  intros H4.
  unfold attester_msg0, verifier_msg0, attester_msg1, verifier_msg1, attester_msg23,
    verifier_msg23, Attester.sizeof_msg0, Verifier.sizeof_msg0, Attester.sizeof_msg1,
    Verifier.sizeof_msg1, Verifier.msg0_x_size, Verifier.msg0_y_raw, Verifier.msg0_y_size,
    Verifier.msg1_ecdh_x_size, Verifier.msg1_ecdh_y_raw, Verifier.msg1_ecdh_y_size,
    Verifier.msg1_ecdsa_x_raw, Verifier.msg1_ecdsa_x_size, Verifier.msg1_ecdsa_y_raw,
    Verifier.msg1_ecdsa_y_size, Verifier.msg1_signature, Verifier.msg1_mac.
  rewrite H4. repeat split.
Qed.

(** Where it has 64 bits, the sizes in the attester's [msg0] and [msg1] stay
    32 bits wide: both messages have different sizes on the two sides, the
    verifier refuses the attester's [msg0] as too short, and the attester's
    signature and MAC are not where the verifier wrote them. *)
Theorem layouts_differ_lp64 :
  sizeof_size_t = 8%nat ->
  Attester.sizeof_msg0 = 72%nat /\ Verifier.sizeof_msg0 = 80%nat /\
  (Attester.sizeof_msg1 < Verifier.sizeof_msg1)%nat /\
  f_off Attester.msg1_signature = 144%nat /\ f_off Verifier.msg1_signature = 160%nat.
Proof.
  intros H8.
  unfold Verifier.sizeof_msg0, Verifier.msg1_signature, Attester.sizeof_msg1,
    Verifier.sizeof_msg1. rewrite H8.
  pose proof (align_up_lt (144 + RA_SIGNATURE_SIZE + 16) 4 ltac:(lia)).
  pose proof (align_up_le (128 + 4 * 8 + RA_SIGNATURE_SIZE + 16) 8 ltac:(lia)).
  repeat split; try reflexivity; try lia.
Qed.

(** ** Agreement on the session *)

(** Both sides compute the same KDK from the keys they exchanged. *)
Lemma shared_kdk_agree a b x y vx vy :
  ecc_private a -> ecc_private b -> ecc_public a = (x, y) -> ecc_public b = (vx, vy) ->
  shared_kdk a vx vy = shared_kdk b x y.
Proof. intros. unfold shared_kdk. by erewrite ecdh_commutes. Qed.

(** The verifier reads from [msg0] the key the attester wrote, and the
    attester reads from [msg1] the keys the verifier wrote. *)
Lemma msg0_key_agree m x y :
  sizeof_size_t = 4%nat -> msg0_key m x y -> verifier_msg0_key m x y.
Proof.
  intros H4 (_ & Hx & Hy).
  unfold verifier_msg0_key, Verifier.msg0_x_size, Verifier.msg0_y_raw, Verifier.msg0_y_size.
  rewrite H4. by split.
Qed.

Lemma msg1_ecdh_agree m vx vy :
  sizeof_size_t = 4%nat -> msg1_ecdh m vx vy ->
  sized Attester.msg1_ecdh_x_raw Attester.msg1_ecdh_x_size m = Some vx /\
  sized Attester.msg1_ecdh_y_raw Attester.msg1_ecdh_y_size m = Some vy.
Proof.
  unfold msg1_ecdh, Verifier.msg1_ecdh_x_size, Verifier.msg1_ecdh_y_raw,
    Verifier.msg1_ecdh_y_size.
  by intros ->.
Qed.

(** A session: a handshake of the attester and the two calls of the verifier
    it talked to, where each received what the other sent. *)
Record joined (host px : bytes) (px_size : Z) (py : bytes) (py_size : Z) (anchor : bytes)
    (anchor_size : Z) (anchor' : bytes) (wa0 wa : world (@tee TA) ra_context)
    (received out out' : bytes) (size : option Z)
    (wv0 wv1 wv2 : world (@tee TV) ra_context_verifier) : Prop := {
  jn_attester : ra_net_handshake host px px_size py py_size anchor anchor_size wa0 =
    Ret ((TEE_SUCCESS, anchor'), wa);
  jn_msg0 : handle_msg0 received wv0 = Ret (TEE_SUCCESS, wv1);
  jn_msg1 : prepare_msg1 out wv1 = Ret ((TEE_SUCCESS, out', size), wv2);
  jn_msg0_sent : take Verifier.sizeof_msg0 received = Attester.msg0 (w_ctx wa);
  jn_msg1_sent : Attester.msg1 (w_ctx wa) = take Verifier.sizeof_msg1 out';
  jn_start : length (Verifier.msg1 (w_ctx wv0)) = Verifier.sizeof_msg1
}.

(** The state of the verifier after [msg1]. *)
Lemma verifier_session host px px_size py py_size anchor anchor_size anchor' wa0 wa
    received out out' size wv0 wv1 wv2 :
  joined host px px_size py py_size anchor anchor_size anchor' wa0 wa received out out' size
    wv0 wv1 wv2 ->
  exists b vx vy x y,
    keyed (w_ctx wv2) (view (w_tee wv2)) b vx vy x y /\
    Attester.msg1 (w_ctx wa) = Verifier.msg1 (w_ctx wv2) /\
    Verifier.msg0 (w_ctx wv2) = Attester.msg0 (w_ctx wa).
Proof.
  intros [_ H0 H1 S0 S1 Hlen].
  destruct (wp_ret_inv _ _ _ _ _ _ (handle_msg0_spec _ _ Hlen) H0 eq_refl)
    as (b & vx & vy & x & y & [Hkp Hm0 [Hm1 Hvm] Hmk Hsk] & Hrec & _ & _ & _ & _ & _).
  destruct (wp_ret_inv _ _ _ _ _ _ (prepare_msg1_spec _ _ Hm1) H1 eq_refl)
    as (o & mo & mk & vx' & vy' & x' & y' & sx & sy & ox & oy & _ & _ & _ & _ & _ & _ & Hvm'
      & _ & Hsent & _ & Hroom & -> & Hc & Hg).
  destruct Hvm as [Hvx Hvy], Hvm' as [Hvx' Hvy']. simplify_eq.
  exists b, vx, vy, x, y. rewrite S1.
  pose proof (sent_length _ _ _ _ _ _ _ _ _ _ Hsent) as Hl2.
  rewrite Hc in *. VerifierSpec.ctx_simpl. split; [split; VerifierSpec.ctx_simpl|].
  - destruct Hkp as (o' & Ho' & Hkp). exists o'. split; [by eapply grows_obj|done].
  - done.
  - split; [done|]. exact (sent_ecdh _ _ _ _ _ _ _ _ _ _ Hsent).
  - by eapply aes_key_grows.
  - by eapply aes_key_grows.
  - split; [|congruence]. unfold splice. simpl. rewrite take_app_le by lia. by rewrite take_ge by lia.
Qed.

(** What the attester concludes, in terms of the definitions above. The
    statement of the handshake theorem, as a lemma. *)
Lemma attester_session host px px_size py py_size anchor anchor_size anchor' wa0 wa
    received out out' size wv0 wv1 wv2 :
  sizeof_size_t = 4%nat ->
  joined host px px_size py py_size anchor anchor_size anchor' wa0 wa received out out' size
    wv0 wv1 wv2 ->
  exists a b x y vx vy sx sy,
    authenticated (w_ctx wa) (view (w_tee wa)) a x y vx vy sx sy /\
    keyed (w_ctx wv2) (view (w_tee wv2)) b vx vy x y /\
    bwrite (sha256 (x ++ y ++ vx ++ vy)) anchor = Some anchor' /\
    shared_kdk a vx vy = shared_kdk b x y.
Proof.
  intros H4 Hj.
  destruct (verifier_session _ _ _ _ _ _ _ _ _ _ _ _ _ _ _ _ _ Hj)
    as (b & vx & vy & x & y & Hkd & Hm1 & Hm0).
  destruct (wp_ret_inv _ _ _ _ _ _ (ra_net_handshake_spec _ _ _ _ _ _ _ _)
    (jn_attester _ _ _ _ _ _ _ _ _ _ _ _ _ _ _ _ _ Hj) eq_refl)
    as (a & x' & y' & vx' & vy' & sx & sy & n & Hau & _ & _ & _ & Hanchor).
  pose proof (kd_msg0 _ _ _ _ _ _ _ Hkd) as [Hx Hy].
  pose proof (msg0_key_agree _ _ _ H4 (au_msg0 _ _ _ _ _ _ _ _ _ Hau)) as [Hx' Hy'].
  pose proof (msg1_ecdh_agree _ _ _ H4 (proj2 (kd_msg1 _ _ _ _ _ _ _ Hkd))) as [Hvx Hvy].
  pose proof (proj2 (au_msg1 _ _ _ _ _ _ _ _ _ Hau)) as [Hvx' Hvy' _ _].
  rewrite Hm0 in Hx, Hy. rewrite Hm1 in Hvx', Hvy'. simplify_eq.
  exists a, b. do 6 eexists. do 3 (split; [eassumption|]).
  destruct (au_keypair _ _ _ _ _ _ _ _ _ Hau) as (oa & _ & Ha & Hpa & _).
  destruct (kd_keypair _ _ _ _ _ _ _ Hkd) as (ob & _ & Hb & Hpb & _).
  by apply shared_kdk_agree.
Qed.

(** What the two ends of a session hold in common: the MAC key, the session key,
    and the anchor as the digest of the public keys in the verifier's messages. *)
Definition agreed (wa : world (@tee TA) ra_context) (wv : world (@tee TV) ra_context_verifier)
    (anchor anchor' : bytes) : Prop :=
  exists kdk x y vx vy,
    aes_key (view (w_tee wa)) (Attester.ecdh_shared_mac_key (w_ctx wa)) (mac_key kdk) /\
    aes_key (view (w_tee wv)) (Verifier.ecdh_shared_mac_key (w_ctx wv)) (mac_key kdk) /\
    aes_key (view (w_tee wa)) (Attester.ecdh_shared_session_key (w_ctx wa)) (session_key kdk) /\
    aes_key (view (w_tee wv)) (Verifier.ecdh_shared_session_key (w_ctx wv)) (session_key kdk) /\
    verifier_msg0_key (Verifier.msg0 (w_ctx wv)) x y /\
    msg1_ecdh (Verifier.msg1 (w_ctx wv)) vx vy /\
    bwrite (sha256 (x ++ y ++ vx ++ vy)) anchor = Some anchor'.

(** The attester's [msg0] as a 64-bit verifier reads it: the size of the first
    coordinate has the first bytes of the second one as its upper half. *)
Definition msg0_y_start : field := Field 36 4.

Lemma msg0_size_misread (m received : bytes) :
  sizeof_size_t = 8%nat -> take Attester.sizeof_msg0 received = m ->
  length m = Attester.sizeof_msg0 -> uget msg0_y_start m <> 0 ->
  2 ^ 32 <= uget Verifier.msg0_x_size (take Verifier.sizeof_msg0 received).
Proof.
  intros H8 Hm Hl Hy. assert (72 <= length received)%nat as Hlr
    by (rewrite <- Hm, length_take in Hl; unfold Attester.sizeof_msg0 in Hl; lia).
  assert (fget Verifier.msg0_x_size (take Verifier.sizeof_msg0 received) =
    fget (Field 32 4) m ++ fget msg0_y_start m) as Hsplit.
  { unfold fget, Verifier.msg0_x_size, Verifier.sizeof_msg0, msg0_y_start. rewrite H8, <- Hm.
    cbn [f_off f_len]. rewrite !take_drop_commute, !take_take. unfold Attester.sizeof_msg0.
    change (_ `min` _)%nat with 40%nat at 1. simpl Nat.min.
    rewrite <- (take_drop 4 (drop 32 (take 40 received))), drop_drop. f_equal.
    rewrite take_drop_commute, take_take. done. }
  unfold uget in *. rewrite Hsplit, le_decode_app.
  pose proof (le_decode_range (fget (Field 32 4) m)). pose proof (le_decode_range (fget msg0_y_start m)).
  assert (length (fget (Field 32 4) m) = 4%nat) as H4
    by (unfold fget; apply length_slice; rewrite Hl; unfold Attester.sizeof_msg0; simpl; lia).
  rewrite H4. change (2 ^ (8 * Z.of_nat 4)) with (2 ^ 32). nia.
Qed.

(** C1: Where [size_t] has 32 bits, both ends of a session hold the same MAC key
    and the same session key, and the anchor the attester puts into its quote
    is the digest of the two public keys the verifier holds. Where it has 64
    bits, as in the builds that the repository documents, there is no session:
    the two headers lay [msg0] out differently, and the verifier accepts no
    buffer that starts with a [msg0] of the attester, unless the first four
    bytes of the second coordinate of its key happen to be zero. *)
Theorem session_keys_agree :
  (sizeof_size_t = 4%nat ->
    forall host px px_size py py_size anchor anchor_size anchor' wa0 wa received out out' size
      wv0 wv1 wv2,
      joined host px px_size py py_size anchor anchor_size anchor' wa0 wa received out out' size
        wv0 wv1 wv2 ->
      agreed wa wv2 anchor anchor') /\
  (sizeof_size_t = 8%nat ->
    forall (wa0 wa : world (@tee TA) ra_context) received
      (wv0 wv1 : world (@tee TV) ra_context_verifier),
      length (Attester.msg0 (w_ctx wa0)) = Attester.sizeof_msg0 ->
      length (Verifier.msg1 (w_ctx wv0)) = Verifier.sizeof_msg1 ->
      Attester.generate_ecdh_keypair wa0 = Ret (TEE_SUCCESS, wa) ->
      take Attester.sizeof_msg0 received = Attester.msg0 (w_ctx wa) ->
      uget msg0_y_start (Attester.msg0 (w_ctx wa)) <> 0 ->
      handle_msg0 received wv0 <> Ret (TEE_SUCCESS, wv1)).
Proof.
  split.
  - intros H4 host px px_size py py_size anchor anchor_size anchor' wa0 wa received out out' size
      wv0 wv1 wv2 Hj.
    destruct (attester_session _ _ _ _ _ _ _ _ _ _ _ _ _ _ _ _ _ H4 Hj)
      as (a & b & x & y & vx & vy & sx & sy & [_ _ _ _ _ Ham Has]
        & [_ Hm0 [_ Hm1] Hvm Hvs] & Hanchor & Hkdk).
    exists (shared_kdk a vx vy), x, y, vx, vy. by rewrite Hkdk in *.
  - intros H8 wa0 wa received wv0 wv1 Hl0 Hl1 Hgen Hrec Hy Hrun.
    destruct (wp_ret_inv _ _ _ _ _ _ (AttesterSpec.generate_ecdh_keypair_spec _ Hl0) Hgen eq_refl)
      as (h & o & a & x & y & m & Hc & _ & _ & (Hlm & _) & _).
    destruct (wp_ret_inv _ _ _ _ _ _ (handle_msg0_spec _ _ Hl1) Hrun eq_refl)
      as (b & vx & vy & x' & y' & [_ [Hx _] _ _ _] & Hm0 & _). rewrite Hm0 in Hx.
    pose proof (msg0_size_misread _ _ H8 Hrec ltac:(by rewrite Hc) Hy).
    apply fread_inv in Hx as [Hx _]. simpl in Hx. lia.
Qed.

(** ** Delivery of the secret *)

(** The bytes of a buffer whose start is a message. *)
Lemma slice_received n l m (b s : bytes) :
  take m b = take m s -> (n + l <= m)%nat -> b.[n,+l] = s.[n,+l].
Proof. intros. by apply (fget_received (Field n l) m). Qed.

(** A message [msg3] that the verifier assembled is decrypted to its data by
    an attester with the same key that has received all of it. *)
Lemma msg3_opened k data (b s ct : bytes) m :
  msg3_holds k s data -> take m b = take m s ->
  (Verifier.sizeof_msg3 + length data <= m)%nat -> zlen data < 2 ^ 32 ->
  bread (drop Attester.sizeof_msg3 b)
    (wrap32 (uget Attester.msg3_encrypted_content_size b)) = Some ct ->
  gcm_decrypt k (fget Attester.msg3_iv b) ct (fget Attester.msg3_tag b) = Some data.
Proof.
  intros (c & Hroom & Hcl & Hsize & Hc & Hdec) Hm Hlen Hsmall Hct.
  change Attester.msg3_encrypted_content_size with Verifier.msg3_encrypted_content_size in Hct.
  change Attester.sizeof_msg3 with Verifier.sizeof_msg3 in Hct.
  change Attester.msg3_iv with Verifier.msg3_iv. change Attester.msg3_tag with Verifier.msg3_tag.
  assert (uget Verifier.msg3_encrypted_content_size b = zlen c) as Hb.
  { unfold uget. rewrite (fget_received _ m b s); [done..|].
    unfold Verifier.sizeof_msg3 in *. simpl in *. lia. }
  rewrite Hb in Hct. unfold wrap32 in Hct. rewrite Z.mod_small in Hct by lia.
  unfold bread in Hct. case_match; [|done]. injection Hct as <-. rewrite Nat2Z.id.
  rewrite (slice_received _ _ m b s) by (done || lia). rewrite Hc.
  unfold Verifier.sizeof_msg3 in *.
  rewrite !(fget_received _ m b s) by (done || (simpl; lia)). done.
Qed.

(** The end of a session of an attester and a verifier that hold the session
    key [k]: the verifier encrypts [data_size] bytes of [data] into the buffer
    [out3'], the socket of the attester delivers the buffer, and the attester,
    with room for [n] bytes, receives it and has recorded that at least the
    whole message has arrived. *)
Record delivered (k : bytes) (wa wa' : world (@tee TA) ra_context) (n : Z) (got : bytes)
    (got_size : Z) (out3 data out3' : bytes) (data_size : Z)
    (wv wv' : world (@tee TV) ra_context_verifier) : Prop := {
  dl_attester_key :
    aes_key (view (w_tee wa)) (Attester.ecdh_shared_session_key (w_ctx wa)) k;
  dl_verifier_key :
    aes_key (view (w_tee wv)) (Verifier.ecdh_shared_session_key (w_ctx wv)) k;
  dl_msg3 : prepare_msg3 out3 data data_size wv = Ret ((TEE_SUCCESS, out3'), wv');
  dl_stream : exists s rest, v_socks (view (w_tee wa)) !! socket_ctx (w_ctx wa) = Some s /\
    available s = out3' ++ rest;
  dl_capacity : 0 <= n < 2 ^ 31;
  dl_attester : ra_net_receive_data n wa = Ret ((TEE_SUCCESS, got, got_size), wa');
  dl_complete : Z.of_nat Verifier.sizeof_msg3 + data_size <= Attester.msg3_size (w_ctx wa')
}.

(** C2: The secret arrives: when attester and verifier hold the same session key,
    the socket delivers what [prepare_msg3] wrote and all of the message has
    been received, the data that [ra_net_receive_data] returns with success is
    exactly the data that the verifier encrypted. *)
Theorem secret_delivered k wa wa' n got got_size out3 data out3' data_size wv wv' :
  delivered k wa wa' n got got_size out3 data out3' data_size wv wv' ->
  bread data data_size = Some got /\ got_size = data_size.
Proof.
  intros [Hka Hkv H3 (s & rest & Hs & Hav) Hn Hrec Hall].
  destruct (wp_ret_inv _ _ _ _ _ _ (prepare_msg3_spec _ _ _ _) H3 eq_refl)
    as (ov & kv & d & Hov & Hkv' & Hd & Hl & Hholds).
  rewrite (aes_key_value _ _ _ _ _ Hkv Hov Hkv') in Hholds.
  destruct (wp_ret_inv _ _ _ _ _ _ (ra_net_receive_data_spec _ _ _ Hs Hn) Hrec eq_refl)
    as (oa & ka & buf & m & ct & Hoa & Hka' & Hm & Hbuf & Hlb & Hct & Hdec & Hsize & Hcap).
  rewrite (aes_key_value _ _ _ _ _ Hka Hoa Hka') in Hdec. apply bread_inv in Hd as Hdl.
  pose proof Hholds as (c & Hroom & Hcl & _).
  set (l := (Verifier.sizeof_msg3 + length d)%nat).
  assert (take l buf = take l out3') as Hbuf'.
  { transitivity (take l (take m buf)); [rewrite take_take; f_equal; lia|].
    rewrite Hbuf, Hav, take_take. rewrite Nat.min_l by lia. apply take_app_le. lia. }
  erewrite msg3_opened in Hdec; [|exact Hholds|exact Hbuf'|lia| |exact Hct].
  - injection Hdec as <-. rewrite Hsize. split; [done|lia].
  - assert (length (take l buf) = l) as Hll by (rewrite Hbuf', length_take; lia).
    rewrite length_take in Hll. unfold Attester.sizeof_msg3, l, Verifier.sizeof_msg3 in *.
    destruct sizeof_size_t_cases as [E|E]; rewrite E in *; lia.
Qed.
End protocol.
