(* ===== verification/TzSpec.v ===== *)
(** * Correctness of the platform layer

    The captured output, the memory mappings, the byte order, the clock and
    [strcpy] of [core/shared/platform/linux-trustzone/]. *)

From S2P Require Import Prelude TeeApi TeeSpec Layout TeeLogic TzPlatform.

(** ** The output buffer *)

(** The pointer and the bytes that are left stay inside the buffer. *)
Record out_ok (o : output) : Prop := {
  ok_left : 0 <= o_left o;
  ok_room : Z.of_nat (o_cursor o) + o_left o <= zlen (o_bytes o)
}.

(** What the application has printed so far. *)
Definition out_text (o : output) : bytes := take (o_cursor o) (o_bytes o).

(** What one write of the text [d] means: it is appended if one byte stays
    free, and dropped otherwise. *)
Definition print (d : bytes) (o : output) : output :=
  if zlen d <? o_left o
  then Output (splice (o_cursor o) d (o_bytes o)) (o_cursor o + length d) (o_left o - zlen d)
  else o.

Lemma print_ok d o : out_ok o -> out_ok (print d o).
Proof.
  intros [H1 H2]. unfold print. destruct (Z.ltb_spec (zlen d) (o_left o)); [|done].
  split; simpl; [lia|]. rewrite length_splice; lia.
Qed.

Lemma print_text d o :
  out_ok o ->
  out_text (print d o) = if zlen d <? o_left o then out_text o ++ d else out_text o.
Proof.
  intros [H1 H2]. unfold print. destruct (Z.ltb_spec (zlen d) (o_left o)); [|done].
  unfold out_text, splice. simpl.
  rewrite app_assoc, take_app_le by (rewrite length_app, length_take; lia).
  rewrite take_ge by (rewrite length_app, length_take; lia). done.
Qed.

Lemma set_output_buffer_ok buffer :
  zlen buffer < 2 ^ 32 -> out_ok (watz_set_output_buffer buffer (zlen buffer)).
Proof.
  intros H. assert (wrap32 (zlen buffer) = zlen buffer) as Hw by (apply Z.mod_small; lia).
  split; simpl; rewrite Hw; lia.
Qed.

Section tz_spec.
Context `{T : TEE} `{P : Platform}.

(** A block that [TEE_Malloc] returns has the size that was asked for. *)
Class Blocks := block_size : forall n t a d t',
  TEE_Malloc n t = Some (Some (a, d), t') -> zlen d = n.

(** The heap: a block of the size that was asked for, never NULL. *)
Class Heap := heap_alloc : forall n t r t',
  TEE_Malloc n t = Some (r, t') -> exists a d, r = Some (a, d) /\ zlen d = n.

Lemma gather_spec (iov : list bytes) n (b : bytes) :
  (n + length (concat iov) <= length b)%nat ->
  gather b n iov = Some (splice n (concat iov) b).
Proof.
  revert n b. induction iov as [|d iov IH]; intros n b Hlen; cbn [gather concat] in *.
  - unfold splice. simpl. by rewrite Nat.add_0_r, take_drop.
  - rewrite length_app in Hlen.
    destruct (Nat.leb_spec (n + length d) (length b)); [|lia].
    rewrite IH by (rewrite length_splice; lia). by rewrite splice_splice_next.
Qed.

Lemma gather_inv (iov : list bytes) n (b r : bytes) :
  (n <= length b)%nat -> gather b n iov = Some r ->
  (n + length (concat iov) <= length b)%nat /\ r = splice n (concat iov) b.
Proof.
  intros Hn Hr. assert (n + length (concat iov) <= length b)%nat as Hl.
  { revert n b Hn Hr. induction iov as [|d iov IH]; intros n b Hn Hr; cbn [gather concat] in *;
      [simpl; lia|]. rewrite length_app.
    destruct (Nat.leb_spec (n + length d) (length b)); [|done].
    apply IH in Hr; rewrite length_splice in * by lia; lia. }
  split; [done|]. rewrite gather_spec in Hr by done. congruence.
Qed.

Lemma count_chars_from (iov : list bytes) acc :
  0 <= acc -> acc + zlen (concat iov) < 2 ^ 32 ->
  foldl (fun nchars b => wrap_size sizeof_size_t (nchars + zlen b)) acc iov =
    acc + zlen (concat iov).
Proof.
  revert acc. induction iov as [|d iov IH]; intros acc H0 Hlen; cbn [foldl concat] in *.
  - simpl. lia.
  - rewrite length_app in Hlen |- *.
    assert (wrap_size sizeof_size_t (acc + zlen d) = acc + zlen d) as ->.
    { unfold wrap_size. apply Z.mod_small. destruct sizeof_size_t_cases as [-> | ->]; lia. }
    rewrite IH; lia.
Qed.

Lemma count_chars_spec (iov : list bytes) :
  zlen (concat iov) < 2 ^ 32 -> count_chars iov = zlen (concat iov).
Proof. intros H. unfold count_chars. rewrite count_chars_from; lia. Qed.

(** What the application may print: the log takes it for a format string, so
    the part that reaches the log has no conversions. *)
Definition printable (d : bytes) : bool :=
  directive_free (take (FIXED_BUFFER_SIZE - 1) (until_nul d)).

Lemma precision_text_whole (d : bytes) :
  zlen d < 2 ^ 31 -> precision_text (zlen d) d = Some (until_nul d).
Proof.
  intros H. unfold precision_text. assert (wrap32 (zlen d) = zlen d) as ->
    by (apply Z.mod_small; lia).
  rewrite Z.leb_refl, Nat2Z.id, take_ge by lia. by destruct (Z.ltb_spec (zlen d) (2 ^ 31)); [|lia].
Qed.

(** The number of characters, as the [unsigned] that [os_malloc] takes, is less
    than 4 GiB. *)
Lemma malloc_size_range z : 0 <= wrap32 z < 2 ^ 32.
Proof. apply Z.mod_pos_bound. lia. Qed.

(** [writev] that returns has captured the text, whatever it was given. *)
Lemma writev_returns `{Bl : !Blocks} fd (iov : list bytes) (w : world tee output) :
  out_ok (w_ctx w) ->
  wp (fun f => f = Panic \/ f = UB) (writev fd iov)
    (fun n w' => if (fd =? 1) || (fd =? 2)
       then n = zlen (concat iov) /\ w_ctx w' = print (concat iov) (w_ctx w)
       else n = -1 /\ w' = w) w.
Proof.
  intros Hok. unfold writev. destruct ((fd =? 1) || (fd =? 2)); [|by apply wp_ret].
  unfold os_malloc, os_free. apply wp_bind, wp_tcall; [|by left]. intros p t Ht.
  set (block := match p with Some (_, b) => b | None => [] end).
  assert (p = None /\ block = [] \/ zlen block = wrap32 (count_chars iov)) as Hblock
    by (destruct p as [[a b]|]; [right; by eapply block_size|by left]).
  pose proof (malloc_size_range (count_chars iov)) as Hrange.
  apply wp_bind, wp_get_some; [|by right]. intros buffer [Hl ->]%gather_inv; [|lia].
  assert (zlen (concat iov) < 2 ^ 32) as Hlen
    by (destruct Hblock as [[_ Hb]|Hb]; [rewrite Hb in Hl; simpl in Hl|]; lia).
  rewrite count_chars_spec in * by done.
  assert (wrap32 (zlen (concat iov)) = zlen (concat iov)) as Hwrap by (apply Z.mod_small; lia).
  assert (splice 0 (concat iov) block = concat iov) as ->.
  { unfold splice. rewrite take_0, drop_ge, app_nil_r; [done|].
    destruct Hblock as [[_ ->]|Hb]; [simpl; lia|lia]. }
  apply wp_bind. unfold os_printf. apply wp_bind, wp_get_some; [|by right]. intros text _.
  apply wp_bind, wp_require; [|by right]. intros _. apply wp_ret, wp_bind, wp_ctx. cbn [w_ctx]. unfold print.
  apply wp_bind. destruct (Z.ltb_spec (zlen (concat iov)) (o_left (w_ctx w))).
  - rewrite bread_whole by done. apply wp_bind, wp_ret, wp_bind, wp_require; [|by right].
    intros _. apply wp_set_ctx, wp_bind.
    destruct p as [[a b]|]; [apply wp_tcall; [intros [] ? _|by left]|apply wp_ret]; by apply wp_ret.
  - apply wp_ret, wp_bind.
    destruct p as [[a b]|]; [apply wp_tcall; [intros [] ? _|by left]|apply wp_ret]; by apply wp_ret.
Qed.

Context `{Hp : !Heap}.

(** [writev] on every path: a conversion in the text is undefined, and
    otherwise the text is captured. *)
Lemma writev_spec (E : fault -> Prop) fd (iov : list bytes) (w : world tee output) :
  out_ok (w_ctx w) -> zlen (concat iov) < 2 ^ 31 ->
  E Panic -> (printable (concat iov) = false -> E UB) ->
  wp E (writev fd iov)
    (fun n w' => if (fd =? 1) || (fd =? 2)
       then printable (concat iov) = true /\ n = zlen (concat iov) /\
            w_ctx w' = print (concat iov) (w_ctx w)
       else n = -1 /\ w' = w) w.
Proof.
  intros Hok Hlen HP HU. unfold writev. destruct ((fd =? 1) || (fd =? 2)); [|by apply wp_ret].
  rewrite count_chars_spec by lia. unfold os_malloc, os_free.
  replace (wrap32 (zlen (concat iov))) with (zlen (concat iov))
    by (symmetry; apply Z.mod_small; lia).
  apply wp_bind, wp_tcall; [|done]. intros p t Ht.
  destruct (heap_alloc _ _ _ _ Ht) as (a & b & -> & Hb).
  rewrite gather_spec by lia. apply wp_bind, wp_ret.
  assert (splice 0 (concat iov) b = concat iov) as ->.
  { unfold splice. rewrite take_0, drop_ge by lia. by rewrite app_nil_r. }
  unfold os_printf. rewrite precision_text_whole by done.
  apply wp_bind, wp_bind, wp_ret, wp_bind, wp_require; [intros Hpr|exact HU].
  apply wp_ret, wp_bind, wp_ctx. simpl. unfold print.
  apply wp_bind. destruct (Z.ltb_spec (zlen (concat iov)) (o_left (w_ctx w))).
  - rewrite bread_whole by done. apply wp_bind, wp_ret.
    destruct Hok as [H1 H2]. apply wp_bind, wp_require; [|rewrite Nat.leb_gt; lia].
    intros _. apply wp_set_ctx.
    apply wp_bind, wp_tcall; [|done]. intros [] t' _. by apply wp_ret.
  - apply wp_ret. apply wp_bind, wp_tcall; [|done]. intros [] t' _. by apply wp_ret.
Qed.

(** Printing on the standard output or error appends the concatenation of the
    vector to the captured text if one byte of the buffer stays free, and
    drops it otherwise; the number of characters is returned in both cases.
    Other descriptors are refused. The buffer's bounds are respected, and
    only a failing system call stops the application, provided that the text
    has no conversion of [printf]. *)
Theorem writev_captures fd (iov : list bytes) (w : world tee output) :
  out_ok (w_ctx w) -> zlen (concat iov) < 2 ^ 31 -> printable (concat iov) = true ->
  wp only_panic (writev fd iov)
    (fun n w' => out_ok (w_ctx w') /\ length (o_bytes (w_ctx w')) = length (o_bytes (w_ctx w)) /\
      if (fd =? 1) || (fd =? 2) then
        n = zlen (concat iov) /\
        out_text (w_ctx w') = out_text (w_ctx w) ++
          (if zlen (concat iov) <? o_left (w_ctx w) then concat iov else [])
      else n = -1 /\ w' = w) w.
Proof.
  intros Hok Hlen Hpr. eapply wp_mono; [apply writev_spec; [done..|congruence]|]. intros n w'.
  destruct ((fd =? 1) || (fd =? 2)); [|by intros [-> ->]].
  intros (_ & -> & ->). split; [by apply print_ok|]. rewrite print_text by done.
  unfold print. destruct (Z.ltb_spec (zlen (concat iov)) (o_left (w_ctx w)));
    rewrite ?app_nil_r; [|done].
  split; [|done]. simpl. destruct Hok. rewrite length_splice; lia.
Qed.

(** The text an application prints is used as a format string: a write whose
    logged part has a conversion never returns normally. *)
Theorem writev_format_string fd (iov : list bytes) (w : world tee output) :
  out_ok (w_ctx w) -> zlen (concat iov) < 2 ^ 31 ->
  (fd =? 1) || (fd =? 2) = true -> printable (concat iov) = false ->
  wp (fun f => f = Panic \/ f = UB) (writev fd iov) (fun _ _ => False) w.
Proof.
  intros Hok Hlen Hfd Hpr. eapply wp_mono; [apply writev_spec; auto|].
  intros n w'. rewrite Hfd, Hpr. by intros [? _].
Qed.
End tz_spec.

(** ** Memory mappings *)

Section mapping.
Context `{T : TEE} `{P : Platform} `{Sys : !TEE_System T} {C : Type}.

(** Clearing the low [k] bits at the width [n]. *)
Lemma land_clear_low x k n :
  0 <= k <= n -> 0 <= x < 2 ^ n ->
  Z.land x (Z.lnot (2 ^ k - 1) mod 2 ^ n) = x / 2 ^ k * 2 ^ k.
Proof.
  intros Hk Hx. rewrite <- Z.shiftr_div_pow2, <- Z.shiftl_mul_pow2 by lia.
  apply Z.bits_inj'. intros i Hi. rewrite Z.land_spec.
  rewrite Z.shiftl_spec by lia.
  destruct (Z.lt_ge_cases i n) as [Hin|Hin].
  - rewrite Z.mod_pow2_bits_low by lia. rewrite Z.lnot_spec by lia.
    replace (2 ^ k - 1) with (Z.ones k) by (rewrite Z.ones_equiv; lia).
    destruct (Z.lt_ge_cases i k) as [Hik|Hik].
    + rewrite Z.ones_spec_low by lia. rewrite (Z.testbit_neg_r _ (i - k)) by lia.
      by rewrite andb_false_r.
    + rewrite Z.ones_spec_high by lia. rewrite Z.shiftr_spec by lia.
      rewrite andb_true_r. f_equal. lia.
  - rewrite Z.mod_pow2_bits_high by lia. rewrite andb_false_r.
    rewrite Z.shiftr_spec by lia. symmetry.
    replace (i - k + k) with i by lia.
    rewrite <- (Z.mod_small x (2 ^ n)) by lia. by apply Z.mod_pow2_bits_high; lia.
Qed.

(** Pages are a power of two, smaller than the address space. *)
Class Pages := pages : exists k, 0 <= k < 8 * Z.of_nat sizeof_size_t /\ PAGE_SIZE = 2 ^ k.

Context `{Pg : Pages}.

Lemma page_size_pos : 0 < PAGE_SIZE.
Proof. destruct pages as (k & Hk & ->). lia. Qed.

Lemma page_align_div size :
  page_align size =
    wrap_size sizeof_size_t (size + PAGE_SIZE - 1) / PAGE_SIZE * PAGE_SIZE.
Proof.
  destruct pages as (k & Hk & Hp). unfold page_align, wrap_size. rewrite Hp.
  apply land_clear_low; [lia|]. apply Z.mod_pos_bound. lia.
Qed.

(** Aligning in 64 bits and narrowing the result is the same. *)
Lemma page_align_64 size :
  wrap_size sizeof_size_t (Z.land (wrap_size 8 (size + PAGE_SIZE - 1))
                             (wrap_size 8 (Z.lnot (PAGE_SIZE - 1)))) = page_align size.
Proof.
  unfold page_align, wrap_size.
  rewrite <- !Z.land_ones by lia. apply Z.bits_inj'. intros i Hi. rewrite !Z.land_spec.
  destruct (Z.lt_ge_cases i (8 * Z.of_nat sizeof_size_t)) as [H|H].
  - rewrite !Z.ones_spec_low by (destruct sizeof_size_t_cases as [E|E]; rewrite ?E in *; lia).
    by rewrite !andb_true_r.
  - rewrite (Z.ones_spec_high (8 * Z.of_nat sizeof_size_t)) by lia. by rewrite !andb_false_r.
Qed.

(** A size is rounded up to whole pages as long as the sum does not wrap. *)
Theorem page_align_rounds_up size :
  0 <= size -> size + PAGE_SIZE <= 2 ^ (8 * Z.of_nat sizeof_size_t) ->
  (PAGE_SIZE | page_align size) /\ size <= page_align size < size + PAGE_SIZE.
Proof.
  intros H0 H1. rewrite page_align_div. split; [by exists (wrap_size sizeof_size_t
    (size + PAGE_SIZE - 1) / PAGE_SIZE)|].
  destruct pages as (k & Hk & Hp). assert (0 < PAGE_SIZE) by (rewrite Hp; lia).
  unfold wrap_size. rewrite Z.mod_small by lia.
  revert H0 H1 H. generalize PAGE_SIZE as p. intros p H0 H1 H.
  pose proof (Z.div_mod (size + p - 1) p ltac:(lia)).
  pose proof (Z.mod_pos_bound (size + p - 1) p ltac:(lia)). lia.
Qed.

(** The last page of the address space wraps: the aligned size is 0. *)
Theorem page_align_wraps size :
  2 ^ (8 * Z.of_nat sizeof_size_t) - PAGE_SIZE < size < 2 ^ (8 * Z.of_nat sizeof_size_t) ->
  page_align size = 0.
Proof.
  intros H. rewrite page_align_div. destruct pages as (k & Hk & Hp).
  assert (PAGE_SIZE <= 2 ^ (8 * Z.of_nat sizeof_size_t))
    by (rewrite Hp; apply Z.pow_le_mono_r; lia).
  assert (0 < PAGE_SIZE) by (rewrite Hp; lia).
  unfold wrap_size. set (n := 2 ^ (8 * Z.of_nat sizeof_size_t)) in *.
  replace (size + PAGE_SIZE - 1) with (size + PAGE_SIZE - 1 - n + 1 * n) by lia.
  rewrite Z.mod_add, Z.mod_small, Z.div_small by lia. lia.
Qed.

(** The mappings the trusted operating system holds for the application. *)
Class Mappings := {
  maps : tee -> gmap Z Z;
  spec_map_zi n t r t' : tee_map_zi n t = Some (r, t') ->
    match r with
    | Some a => maps t !! a = None /\ maps t' = <[a := n]> (maps t)
    | None => maps t' = maps t
    end;
  spec_mprotect a n prot t r t' : tee_mprotect a n prot t = Some (r, t') -> maps t' = maps t;
  spec_unmap a n t r t' :
    maps t !! a = Some n -> tee_unmap a n t = Some (r, t') -> maps t' = delete a (maps t);
  spec_remap n a m t r t' :
    maps t !! a = Some m -> tee_remap n a t = Some (r, t') ->
    match r with
    | Some b => delete a (maps t) !! b = None /\ maps t' = <[b := n]> (delete a (maps t))
    | None => maps t' = maps t
    end
}.

Context `{Mp : Mappings}.

Lemma os_mprotect_maps addr size prot (w : world tee C) :
  wp only_panic (os_mprotect addr size prot)
    (fun _ w' => maps (w_tee w') = maps (w_tee w) /\ w_ctx w' = w_ctx w) w.
Proof.
  unfold os_mprotect. apply wp_bind, wp_tcall; [|done]. intros r t Ht.
  apply wp_ret. simpl. split; [|done]. by eapply spec_mprotect.
Qed.

(** The system has refused to change the rights of a mapping. *)
Definition rights_refused : Prop :=
  exists a n prot t r t', tee_mprotect a n prot t = Some (r, t') /\ failed r = true.

Lemma os_mprotect_refused addr size prot (w : world tee C) :
  wp only_panic (os_mprotect addr size prot)
    (fun r w' => maps (w_tee w') = maps (w_tee w) /\ w_ctx w' = w_ctx w /\ (r = 0 \/ rights_refused)) w.
Proof.
  unfold os_mprotect. apply wp_bind, wp_tcall; [|done]. intros r t Ht.
  apply wp_ret. simpl. split; [by eapply spec_mprotect|]. split; [done|].
  destruct (failed r) eqn:E; [right|by left]. by repeat eexists.
Qed.

Lemma os_mmap_spec size prot file (w : world tee C) :
  wp only_panic (os_mmap size prot file)
    (fun r w' => w_ctx w' = w_ctx w /\
      match r with
      | Some a => maps (w_tee w) !! a = None /\ file <= -1 /\ page_align size < UINT32_MAX /\
          maps (w_tee w') = <[a := page_align size]> (maps (w_tee w))
      | None => maps (w_tee w') = maps (w_tee w)
      end) w.
Proof.
  unfold os_mmap. destruct (Z.ltb_spec (-1) file); [by apply wp_ret|].
  destruct (Z.leb_spec UINT32_MAX (page_align size)); [by apply wp_ret|].
  apply wp_bind, wp_tcall; [|done]. intros [a|] t Ht;
    apply spec_map_zi in Ht; [|by apply wp_ret].
  destruct Ht as [Hfresh Ht]. destruct (negb (prot =? 0)); [|by apply wp_ret].
  apply wp_bind. eapply wp_mono; [apply os_mprotect_maps|].
  intros r [t1 c1] [Hm Hc]. simpl in *. subst c1.
  destruct (negb (r =? 0)); [|apply wp_ret; simpl; by rewrite Hm].
  apply wp_bind, wp_tcall; [|done]. intros r2 t2 H2. apply wp_ret. simpl. split; [done|].
  eapply spec_unmap in H2; [|simpl; rewrite Hm, Ht; apply lookup_insert_eq].
  rewrite H2. simpl. by rewrite Hm, Ht, delete_insert_id.
Qed.

(** A mapping is handed out with its size rounded up to pages, and a request
    that fails at any point leaves no mapping behind; unmapping what was
    mapped restores the mappings from before. *)
Theorem os_mmap_munmap size prot file (w : world tee C) :
  wp only_panic (r ← os_mmap size prot file;
                 match r with
                 | Some a => os_munmap a size
                 | None => mret tt
                 end)
    (fun _ w' => maps (w_tee w') = maps (w_tee w) /\ w_ctx w' = w_ctx w) w.
Proof.
  apply wp_bind. eapply wp_mono; [apply os_mmap_spec|].
  intros [a|] [t c] [Hc Hm]; simpl in *; subst c; [|by apply wp_ret].
  destruct Hm as (Hfresh & _ & _ & Hm). unfold os_munmap. rewrite page_align_64.
  apply wp_bind, wp_tcall; [|done]. intros r t2 H2. apply wp_ret. simpl. split; [|done].
  eapply spec_unmap in H2; [|simpl; rewrite Hm; apply lookup_insert_eq].
  rewrite H2. simpl. by rewrite Hm, delete_insert_id.
Qed.

(** ** The clock *)

Lemma boot_microseconds_spec (w : world tee C) :
  wp only_panic os_time_get_boot_microsecond
    (fun us w' => exists t, TEE_GetREETime (w_tee w) = Some (t, w_tee w') /\
      us = wrap32 ((seconds t * 1000 + millis t) * 1000)) w.
Proof.
  unfold os_time_get_boot_microsecond. apply wp_bind, wp_tcall; [|done].
  intros t s Ht. apply wp_ret. exists t. split; [done|].
  unfold tee_time_to_ms, wrap32. by rewrite Zplus_mod_idemp_l, Zmult_mod_idemp_l.
Qed.

(** The microseconds are exact during the first 4294 seconds only: the
    product is computed in 32 bits and wraps around. *)
Theorem boot_microseconds_exact (w : world tee C) us w' :
  os_time_get_boot_microsecond w = Ret (us, w') ->
  exists t, TEE_GetREETime (w_tee w) = Some (t, w_tee w') /\ 0 <= us < 2 ^ 32 /\
    (0 <= seconds t -> 0 <= millis t < 1000 ->
      (us = seconds t * 1000000 + millis t * 1000 <->
       seconds t * 1000000 + millis t * 1000 < 2 ^ 32)).
Proof.
  intros Hrun.
  destruct (wp_ret_inv _ _ _ _ _ _ (boot_microseconds_spec w) Hrun) as (t & Ht & ->).
  exists t. split; [done|]. split; [apply Z.mod_pos_bound; lia|]. intros Hs Hm.
  unfold wrap32. replace ((seconds t * 1000 + millis t) * 1000)
    with (seconds t * 1000000 + millis t * 1000) by lia.
  pose proof (Z.mod_pos_bound (seconds t * 1000000 + millis t * 1000) (2 ^ 32) ltac:(lia)).
  split; [lia|]. intros. apply Z.mod_small. lia.
Qed.
End mapping.

(** ** Byte order *)

Lemma swap32_rev b : length b = 4%nat -> swap32 b = rev b.
Proof. by destruct b as [|? [|? [|? [|? [|]]]]]. Qed.

Lemma swap16_rev b : length b = 2%nat -> swap16 b = rev b.
Proof. by destruct b as [|? [|? [|]]]. Qed.

Lemma reverse_encoding n value :
  le_encode n (le_decode (rev (le_encode n value))) = rev (le_encode n value) /\
  le_decode (rev (rev (le_encode n value))) = value mod 2 ^ (8 * Z.of_nat n).
Proof.
  split; [|by rewrite rev_involutive, le_decode_encode].
  rewrite <- (le_encode_decode (rev (le_encode n value))) at 2.
  by rewrite length_rev, length_le_encode.
Qed.

(** The network byte order is the reverse of the representation, and
    converting twice gives the value at its width back. *)
Theorem htonl_htons_involutive value :
  le_encode 4 (htonl value) = rev (le_encode 4 value) /\
  ntohl (htonl value) = value mod 2 ^ 32 /\
  le_encode 2 (htons value) = rev (le_encode 2 value) /\
  htons (htons value) = value mod 2 ^ 16.
Proof.
  destruct (reverse_encoding 4 value) as [H1 H2], (reverse_encoding 2 value) as [H3 H4].
  unfold ntohl, htonl, htons.
  rewrite !swap32_rev, !swap16_rev by apply length_le_encode.
  rewrite H1, H3. by repeat split.
Qed.

(** ** [strcpy] *)

(** A string is copied with its NUL and read back as it was, and the rest of
    the destination keeps its bytes, if the destination is longer than the
    string; otherwise the loop runs past its end. *)
Theorem strcpy_copies (s rest dest : bytes) :
  Byte.x00 ∉ s ->
  strcpy dest (s ++ Byte.x00 :: rest) =
    (if (length s <? length dest)%nat then Some (splice 0 (s ++ [Byte.x00]) dest) else None) /\
  c_string (splice 0 (s ++ [Byte.x00]) dest) = Some s.
Proof.
  unfold splice, strcpy. rewrite take_0. cbn [app Nat.add].
  revert dest. induction s as [|x s IH]; intros dest Hs.
  { split; [|by destruct dest]. by destruct dest. }
  apply not_elem_of_cons in Hs as [Hx Hs]. cbn [app length].
  destruct (IH (tail dest) Hs) as [H1 H2]. cbn [app length strcpy_loop c_string drop].
  rewrite decide_False by done. split.
  - destruct dest as [|d dest]; [done|]. cbn [tail length strcpy_loop] in *. rewrite decide_False by done.
    rewrite H1. change (S (length s) <? S (length dest))%nat with (length s <? length dest)%nat.
    by destruct (length s <? length dest)%nat.
  - destruct dest as [|d dest]; cbn [tail drop] in *; [rewrite drop_nil in H2|];
      by rewrite ?drop_nil, H2.
Qed.
