(* ===== verification/LinearSpec.v ===== *)
(** * Addresses of linear memory

    What the checks between the application and the runtime let through, for
    a memory whose fields are consistent, on the 64-bit platform. *)

From S2P Require Import Prelude TeeApi Layout TzPlatform TzSpec Memory Ems LinearMemory.

Lemma bind_run {S A B} (m : M S A) (k : A -> M S B) s a s' :
  m s = Ret (a, s') -> (m ≫= k) s = k a s'.
Proof. unfold mbind, M_bind. by intros ->. Qed.

(** The pages of a memory and the place of the heap in it. *)
Record memory_ok (m : WASMMemoryInstance) : Prop := {
  mo_page : 0 < num_bytes_per_page m < 2 ^ 32;
  mo_count : 0 <= cur_page_count m <= max_page_count m /\ max_page_count m < 2 ^ 32;
  mo_max : num_bytes_per_page m * max_page_count m <= MAX_LINEAR_MEMORY_SIZE;
  mo_size : num_bytes_per_page m * cur_page_count m <= memory_data_size m <= MAX_LINEAR_MEMORY_SIZE;
  mo_place : 0 <= memory_data m /\ memory_data_end m < 2 ^ 64;
  mo_end : memory_data_end m = memory_data m + memory_data_size m;
  mo_heap : memory_data m <= heap_data m <= heap_data_end m /\ heap_data_end m <= memory_data_end m
}.

Lemma memory_size_nonneg m : memory_ok m -> 0 <= memory_data_size m.
Proof. intros [? ? _ ? _ _ _]. nia. Qed.

Section addresses.
Context `{T : TEE} `{P : Platform} `{Sys : !TEE_System T}.
Context (H64 : sizeof_size_t = 8%nat).
Implicit Types w : world tee WASMModuleInstance.

Abbreviation uint64_ok z := (0 <= z < 2 ^ 64).
Abbreviation uint32_ok z := (0 <= z < 2 ^ 32).

(** The world after a failed check. *)
Definition trapped w : world tee WASMModuleInstance :=
  World (w_tee w) (set_exception out_of_bounds_memory_access (w_ctx w)).

Lemma wrap_ptr_small z : uint64_ok z -> wrap_ptr z = z.
Proof. intros Hz. unfold wrap_ptr, wrap_size. rewrite H64. by apply Z.mod_small. Qed.

Section with_memory.
Context (w : world tee WASMModuleInstance) (m : WASMMemoryInstance).
Context (Hw : memories (w_ctx w) = Some m) (Hm : memory_ok m).

Lemma default_memory : wasm_get_default_memory w = Ret (Some m, w).
Proof. unfold wasm_get_default_memory, mbind, M_bind, ctx, gets. simpl. by rewrite Hw. Qed.

Lemma bind_default_memory {A} (k : option WASMMemoryInstance -> M (world tee WASMModuleInstance) A) :
  (wasm_get_default_memory ≫= k) w = k (Some m) w.
Proof. exact (bind_run _ _ _ _ _ default_memory). Qed.

Lemma validate_app_addr_spec off n :
  uint64_ok off -> uint64_ok n ->
  wasm_runtime_validate_app_addr off n w =
    if decide (off + n <= memory_data_size m) then Ret (true, w) else Ret (false, trapped w).
Proof.
  intros Ho Hn. unfold wasm_runtime_validate_app_addr. rewrite bind_default_memory.
  destruct Hm as [_ _ _ [_ Hs] _ _ _]. unfold MAX_LINEAR_MEMORY_SIZE, BH_GB, wrap_u64 in *.
  destruct (Z.ltb_spec (4 * (1024 * 1024 * 1024)) n); cbn [orb].
  { rewrite decide_False by lia. done. }
  rewrite (Z.mod_small (4 * (1024 * 1024 * 1024) - n)) by lia.
  destruct (Z.ltb_spec (4 * (1024 * 1024 * 1024) - n) off).
  { rewrite decide_False by lia. done. }
  rewrite Z.mod_small by lia. destruct (Z.leb_spec (off + n) (memory_data_size m)).
  - by rewrite decide_True.
  - rewrite decide_False by lia. done.
Qed.

Lemma app_to_native_spec off :
  uint64_ok off ->
  wasm_runtime_addr_app_to_native off w =
    Ret (if decide (off < memory_data_size m) then memory_data m + off else 0, w).
Proof.
  intros Ho. unfold wasm_runtime_addr_app_to_native. rewrite bind_default_memory.
  pose proof (memory_size_nonneg _ Hm). destruct Hm as [_ _ _ [_ Hs] Hp He _]. unfold MAX_LINEAR_MEMORY_SIZE, BH_GB in Hs.
  rewrite (wrap_ptr_small off) by done. cbv zeta. unfold mret, M_ret. do 2 f_equal.
  assert (wrap_ptr (memory_data m + off) = memory_data m + off \/
    wrap_ptr (memory_data m + off) = memory_data m + off - 2 ^ 64 /\ memory_data m + off >= 2 ^ 64) as Hcase.
  { destruct (Z.lt_ge_cases (memory_data m + off) (2 ^ 64)); [left; apply wrap_ptr_small; lia|right].
    split; [|lia]. unfold wrap_ptr, wrap_size. rewrite H64.
    symmetry. apply Z.mod_unique_pos with 1; [|lia]. change (2 ^ (8 * Z.of_nat 8)) with (2 ^ 64). lia. }
  destruct Hcase as [->|[-> Hge]].
  - destruct (Z.leb_spec (memory_data m) (memory_data m + off)); [|lia].
    destruct (Z.ltb_spec (memory_data m + off) (memory_data_end m)); cbn [andb];
      [by rewrite decide_True by lia|by rewrite decide_False by lia].
  - destruct (Z.leb_spec (memory_data m) (memory_data m + off - 2 ^ 64)); [lia|]. cbn [andb].
    by rewrite decide_False by lia.
Qed.

Lemma native_to_app_spec addr :
  wasm_runtime_addr_native_to_app addr w =
    Ret (if decide (memory_data m <= addr < memory_data_end m) then addr - memory_data m else 0, w).
Proof.
  unfold wasm_runtime_addr_native_to_app. rewrite bind_default_memory. unfold mret, M_ret. do 2 f_equal.
  destruct (Z.leb_spec (memory_data m) addr), (Z.ltb_spec addr (memory_data_end m)); cbn [andb];
    [by rewrite decide_True by lia|by rewrite decide_False by lia..].
Qed.

Lemma validate_native_addr_spec addr n :
  uint64_ok addr -> uint64_ok n ->
  wasm_runtime_validate_native_addr addr n w =
    if decide (memory_data m <= addr /\ addr + n <= memory_data_end m)
    then Ret (true, w) else Ret (false, trapped w).
Proof.
  intros Ha Hn. unfold wasm_runtime_validate_native_addr. rewrite bind_default_memory.
  pose proof (memory_size_nonneg _ Hm). destruct Hm as [_ _ _ [_ Hs] Hp He _].
  assert (UINTPTR_MAX = 2 ^ 64 - 1) as -> by (unfold UINTPTR_MAX; by rewrite H64).
  unfold MAX_LINEAR_MEMORY_SIZE, BH_GB, wrap_u64 in *.
  destruct (Z.ltb_spec (4 * (1024 * 1024 * 1024)) n); cbn [orb].
  { rewrite decide_False by lia. done. }
  rewrite (Z.mod_small (2 ^ 64 - 1 - n)) by lia.
  destruct (Z.ltb_spec (2 ^ 64 - 1 - n) addr).
  { rewrite decide_False by lia. done. }
  rewrite wrap_ptr_small by lia.
  destruct (Z.leb_spec (memory_data m) addr), (Z.leb_spec (addr + n) (memory_data_end m)); cbn [andb];
    [by rewrite decide_True|rewrite decide_False by lia; done..].
Qed.

Lemma app_addr_range_spec off :
  wasm_runtime_get_app_addr_range off w =
    Ret (if off <? memory_data_size m then Some (0, memory_data_size m) else None, w).
Proof. unfold wasm_runtime_get_app_addr_range. by rewrite bind_default_memory. Qed.

Lemma has_nul_spec (h : memory) n a :
  has_nul h n a = true <-> exists x, a <= x < a + Z.of_nat n /\ h x = Byte.x00.
Proof.
  revert a. induction n as [|n IH]; intros a; cbn [has_nul].
  { split; [done|]. intros (x & Hx & _). lia. }
  destruct (decide (h a = Byte.x00)) as [Ha|Ha].
  { split; [|done]. intros _. exists a. split; [lia|done]. }
  rewrite IH. split; intros (x & Hx & Hz); exists x; (split; [|done]); [lia|].
  destruct (decide (x = a)) as [->|]; [done|lia].
Qed.

(** The bytes of the memory from an offset on hold a NUL. *)
Abbreviation string_at off := (exists x, memory_data m + off <= x < memory_data_end m /\
  mem (app_heap (w_ctx w)) x = Byte.x00).

Lemma convert_spec is_str off n :
  uint64_ok off -> uint64_ok n ->
  exists r : option Z,
    wasm_check_app_addr_and_convert is_str off n w = Ret (r, match r with Some _ => w | None => trapped w end) /\
    match r with
    | Some a => a = memory_data m + off /\ off < memory_data_size m /\
        (if is_str then string_at off else off + n <= memory_data_size m)
    | None => memory_data_size m <= off \/
        (if is_str then ~ string_at off else memory_data_size m < off + n)
    end.
Proof.
  intros Ho Hn. unfold wasm_check_app_addr_and_convert. rewrite bind_default_memory.
  pose proof (memory_size_nonneg _ Hm). destruct Hm as [_ _ _ [_ Hs] Hp He _]. unfold MAX_LINEAR_MEMORY_SIZE, BH_GB in Hs.
  cbv zeta. rewrite (wrap_ptr_small off) by done.
  destruct (Z.leb_spec (memory_data_size m) off).
  { exists None. split; [done|]. by left. }
  rewrite (wrap_ptr_small (memory_data m + off)) by lia.
  destruct is_str; cbn [negb].
  - unfold scan_string, mbind, M_bind, ctx, gets, mret, M_ret.
    destruct (Z.ltb_spec (memory_data_end m) (memory_data m + off)); [lia|].
    destruct (has_nul _ _ _) eqn:Hn0.
    + exists (Some (memory_data m + off)). split; [done|]. apply has_nul_spec in Hn0 as (x & Hx & Hz).
      do 2 (split; [lia|]). exists x. split; [lia|done].
    + exists None. split; [done|]. right. intros (x & Hx & Hz). apply not_true_iff_false in Hn0.
      apply Hn0, has_nul_spec. exists x. split; [lia|done].
  - destruct (Z.ltb_spec (memory_data_size m - off) n).
    + exists None. split; [done|]. right. lia.
    + exists (Some (memory_data m + off)). split; [done|]. split; [done|]. lia.
Qed.

Lemma validate_str_spec off :
  uint64_ok off ->
  wasm_runtime_validate_app_str_addr off w = Ret (true, w) /\
    off < memory_data_size m /\ string_at off \/
  wasm_runtime_validate_app_str_addr off w = Ret (false, trapped w) /\
    (memory_data_size m <= off \/ ~ string_at off).
Proof.
  intros Ho. unfold wasm_runtime_validate_app_str_addr. rewrite bind_default_memory.
  rewrite (bind_run _ _ _ _ _ (app_addr_range_spec off)).
  pose proof (app_to_native_spec off Ho) as Hn. pose proof (memory_size_nonneg _ Hm).
  destruct Hm as [_ _ _ [_ Hs] Hp He _].
  destruct (Z.ltb_spec off (memory_data_size m)) as [Hlt|Hge].
  2: { right. split; [done|]. by left. }
  rewrite decide_True in Hn by done.
  unfold MAX_LINEAR_MEMORY_SIZE in *.
  destruct (Z.leb_spec (4 * BH_GB) off), (Z.ltb_spec (4 * BH_GB) (memory_data_size m));
    try (unfold BH_GB in *; lia). cbn [orb].
  rewrite (bind_run _ _ _ _ _ Hn).
  unfold scan_string, mbind, M_bind, ctx, gets, mret, M_ret.
  destruct (Z.ltb_spec (memory_data m + off + (memory_data_size m - off)) (memory_data m + off)); [lia|].
  destruct (has_nul _ _ _) eqn:Hn0.
  - left. split; [done|]. split; [done|]. apply has_nul_spec in Hn0 as (x & Hx & Hz). exists x.
    split; [lia|done].
  - right. split; [done|]. right. intros (x & Hx & Hz). apply not_true_iff_false in Hn0.
    apply Hn0, has_nul_spec. exists x. split; [lia|done].
Qed.

(** ** Theorems *)

(** The [n] bytes at [a] belong to the memory. *)
Abbreviation inside a n := (memory_data m <= a /\ a + n <= memory_data_end m).

(** C21: What the application can name is confined to its memory. The bounds
    check of the interpreter for loads and stores (a 32-bit operand plus a
    32-bit static offset), that of the bulk instructions, and the two checks
    that native functions make of a range of offsets and of a range of
    pointers, all let a range through exactly when it lies inside of the
    memory, for every 32-bit and 64-bit input, without wrapping around; a
    native function that is refused has the exception set and nothing else
    changed. *)
Theorem checks_confine offset addr start bytes off native n :
  uint32_ok offset -> uint32_ok addr -> uint32_ok start -> uint32_ok bytes ->
  uint64_ok off -> uint64_ok native -> uint64_ok n ->
  CHECK_MEMORY_OVERFLOW m (memory_data_size m) offset addr bytes =
    (if decide (inside (memory_data m + (offset + addr)) bytes)
     then Some (memory_data m + (offset + addr)) else None) /\
  CHECK_BULK_MEMORY_OVERFLOW m (memory_data_size m) start bytes =
    (if decide (inside (memory_data m + start) bytes) then Some (memory_data m + start) else None) /\
  wasm_runtime_validate_app_addr off n w =
    (if decide (inside (memory_data m + off) n) then Ret (true, w) else Ret (false, trapped w)) /\
  wasm_runtime_validate_native_addr native n w =
    (if decide (inside native n) then Ret (true, w) else Ret (false, trapped w)).
Proof.
  intros Hof Had Hst Hby Ho Hna Hn. pose proof (mo_end _ Hm) as He. pose proof (mo_place _ Hm) as [Hp _].
  split; [|split; [|split]].
  - unfold CHECK_MEMORY_OVERFLOW, wrap_u64. rewrite (Z.mod_small (offset + addr)) by lia.
    rewrite Z.mod_small by lia. destruct (Z.leb_spec (offset + addr + bytes) (memory_data_size m));
      [rewrite decide_True by lia|rewrite decide_False by lia]; done.
  - unfold CHECK_BULK_MEMORY_OVERFLOW, wrap32, wrap_u64. rewrite (Z.mod_small start) by lia.
    rewrite Z.mod_small by lia. destruct (Z.leb_spec (start + bytes) (memory_data_size m));
      [rewrite decide_True by lia|rewrite decide_False by lia]; done.
  - rewrite validate_app_addr_spec by done. by destruct (decide _), (decide _); try lia.
  - by apply validate_native_addr_spec.
Qed.

(** Offsets of the application and native addresses correspond: converting
    an offset of the memory to an address and back gives the offset, and
    converting an address of the memory to an offset and back gives the
    address. An offset outside of the memory becomes NULL and then 0. An address
    outside, NULL included, becomes offset 0, which is the first byte of the
    memory, not NULL, when it is converted back. *)
Theorem address_round_trip off a :
  uint64_ok off ->
  (addr ← wasm_runtime_addr_app_to_native off; wasm_runtime_addr_native_to_app addr) w =
    Ret (if decide (off < memory_data_size m) then off else 0, w) /\
  (o ← wasm_runtime_addr_native_to_app a; wasm_runtime_addr_app_to_native o) w =
    Ret (if decide (memory_data m <= a < memory_data_end m) then a
         else if decide (memory_data_size m = 0) then 0 else memory_data m, w).
Proof.
  intros Ho. pose proof (mo_end _ Hm) as He. pose proof (mo_place _ Hm) as Hp.
  pose proof (memory_size_nonneg _ Hm). split.
  - rewrite (bind_run _ _ _ _ _ (app_to_native_spec off Ho)), native_to_app_spec.
    do 2 f_equal. destruct (decide (off < memory_data_size m)).
    + rewrite decide_True by lia. lia.
    + destruct (decide _); lia.
  - rewrite (bind_run _ _ _ _ _ (native_to_app_spec a)).
    rewrite app_to_native_spec by (destruct (decide _); lia). do 2 f_equal.
    repeat destruct (decide _); lia.
Qed.
End with_memory.
End addresses.
