(* ===== verification/LinearGrow.v ===== *)
(** * Mapping and growing of linear memory

    The memory of an application is a mapping of the trusted operating system
    in every state that instantiation and growth reach, and growing keeps what
    it holds. *)

From S2P Require Import Prelude TeeApi Layout TzPlatform TzSpec Memory Ems EmsTree EmsFree EmsSpec.
From S2P Require Import EmsHeap EmsClient EmsMigrate LinearMemory LinearSpec.

(** Where the trusted operating system maps memory: page-aligned and apart from
    the memory of the runtime itself. *)
Class MapArea `{T : TEE} `{Sys : !TEE_System T} := {
  map_low : Z;
  map_high : Z;
  map_bounds : 0 < map_low /\ map_high < 2 ^ 64;
  spec_map_area n t a t' : tee_map_zi n t = Some (Some a, t') ->
    map_low <= a /\ a + n <= map_high /\ a mod 8 = 0;
  spec_remap_area n b t a t' : tee_remap n b t = Some (Some a, t') ->
    map_low <= a /\ a + n <= map_high /\ a mod 8 = 0
}.

(** No small chunk of the application heap is free. *)
Abbreviation large_only cs :=
  (Forall (fun c => c_free c = true -> HMU_FC_NORMAL_MAX_SIZE <= c_size c) cs).

Section mapping.
Context `{T : TEE} `{P : Platform} `{Sys : !TEE_System T}.
Context `{Pg : !Pages} `{Mp : !Mappings} `{Ar : !MapArea}.
Context (H64 : sizeof_size_t = 8%nat) (Hpage : PAGE_SIZE <= 2 ^ 32).
Implicit Types w : world tee WASMModuleInstance.

Abbreviation W := (world tee WASMModuleInstance).

Lemma page_align_multiple n : 0 <= n -> n + PAGE_SIZE <= 2 ^ 64 -> (PAGE_SIZE | n) -> page_align n = n.
Proof.
  intros Hn Hb [k Hk]. pose proof page_size_pos. rewrite page_align_div. unfold wrap_size. rewrite H64.
  change (8 * Z.of_nat 8) with 64. rewrite Z.mod_small by lia.
  replace (n + PAGE_SIZE - 1) with (PAGE_SIZE - 1 + k * PAGE_SIZE) by lia.
  rewrite Z.div_add by lia. rewrite Z.div_small by lia. lia.
Qed.

(** ** Moving the bytes *)

(** The bytes of a mapping of [n] bytes after the system moved it. *)
Definition moved_to (old new n : Z) (i : WASMModuleInstance) : WASMModuleInstance :=
  if new =? old then i else set_app_heap (move_pool old new n (app_heap i)) i.

Lemma moved_to_byte old new n i x :
  0 <= x < n -> mem (app_heap (moved_to old new n i)) (new + x) = mem (app_heap i) (old + x).
Proof.
  intros Hx. unfold moved_to. destruct (Z.eqb_spec new old) as [->|]; [done|]. simpl. unfold memcpy.
  destruct (within_spec new n (new + x)); [|lia]. f_equal. lia.
Qed.

Lemma wp_mapping_moved E old new n Q w :
  Q tt (World (w_tee w) (moved_to old new n (w_ctx w))) -> wp E (mapping_moved old new n) Q w.
Proof.
  unfold mapping_moved, moved_to. destruct (new =? old); [|done]. intros HQ. apply wp_ret.
  by destruct w.
Qed.

Lemma wp_os_munmap a n w :
  maps (w_tee w) !! a = Some (page_align n) ->
  wp only_panic (os_munmap a n) (fun _ (w' : W) =>
    maps (w_tee w') = delete a (maps (w_tee w)) /\ w_ctx w' = w_ctx w) w.
Proof.
  intros Hm. unfold os_munmap. rewrite page_align_64. apply wp_bind, wp_tcall; [|done].
  intros r t Ht. apply wp_ret. simpl. split; [|done]. by eapply spec_unmap.
Qed.

(** What [wasm_mremap_linear_memory] does with an existing mapping: it grows and
    possibly moves it; on failure it leaves it alone or, when the protection
    of the new mapping is refused, gives it up. *)
Definition remap_result (old old_size new_size r : Z) (w w' : W) : Prop :=
  if r =? 0 then
    maps (w_tee w') = maps (w_tee w) /\ w_ctx w' = w_ctx w \/
    maps (w_tee w') = delete old (maps (w_tee w)) /\ memories (w_ctx w') = memories (w_ctx w) /\
    rights_refused
  else
    delete old (maps (w_tee w)) !! r = None /\
    maps (w_tee w') = <[r := new_size]> (delete old (maps (w_tee w))) /\
    w_ctx w' = moved_to old r old_size (w_ctx w) /\
    map_low <= r /\ r + new_size <= map_high /\ r mod 8 = 0.

Lemma remap_spec old old_size new_size w :
  old <> 0 -> maps (w_tee w) !! old = Some old_size ->
  0 <= new_size <= MAX_LINEAR_MEMORY_SIZE -> (PAGE_SIZE | new_size) ->
  wp only_panic (wasm_mremap_linear_memory old old_size new_size new_size)
    (fun r w' => remap_result old old_size new_size r w w') w.
Proof.
  intros Hold Hmap Hsz Hpg. unfold wasm_mremap_linear_memory. rewrite H64.
  change (Z.of_nat 8 =? 4) with false. cbn [andb]. apply Z.eqb_neq in Hold as ->. cbn [negb].
  pose proof map_bounds as [Hlow _]. pose proof page_size_pos.
  unfold MAX_LINEAR_MEMORY_SIZE, BH_GB in Hsz.
  apply wp_bind, wp_bind. unfold os_mremap. apply wp_tcall; [|done]. intros [b|] t Ht.
  2: { eapply spec_remap in Ht; [|exact Hmap]. apply wp_ret, wp_ret.
       unfold remap_result. simpl. by left. }
  pose proof (spec_remap_area _ _ _ _ _ Ht) as (Hb & Hh & H8).
  eapply spec_remap in Ht as [Hfresh Hmaps]; [|exact Hmap].
  apply wp_bind, wp_mapping_moved, wp_ret. destruct (Z.eqb_spec b 0); [lia|]. cbn [w_tee w_ctx].
  apply wp_bind. eapply wp_mono; [apply os_mprotect_refused|]. cbn [w_tee w_ctx].
  intros r [t1 c1] (Hm & Hc & Href). cbn [w_tee w_ctx] in *. subst c1.
  destruct (Z.eqb_spec r 0) as [->|Hr]; cbn [negb]; [|destruct Href as [|Href]; [done|]]; swap 1 2.
  - apply wp_bind. unfold wasm_munmap_linear_memory.
    eapply wp_mono; [apply wp_os_munmap|].
    + cbn [w_tee]. rewrite Hm, Hmaps, page_align_multiple by (done || lia). apply lookup_insert_eq.
    + intros _ [t2 c2] [Hm2 Hc2]. cbn [w_tee w_ctx] in *. subst c2. apply wp_ret.
      unfold remap_result. simpl. right. rewrite Hm2, Hm, Hmaps, delete_insert_id by done.
      split; [done|]. split; [|done]. unfold moved_to. by destruct (b =? old).
  - apply wp_ret. unfold remap_result. destruct (Z.eqb_spec b 0); [lia|]. cbn [w_tee w_ctx].
    rewrite Hm. done.
Qed.

(** The bytes of a new mapping. *)
Definition cleared (a n : Z) (i : WASMModuleInstance) : WASMModuleInstance :=
  set_app_heap (set_mem (memset a Byte.x00 n (mem (app_heap i))) (app_heap i)) i.

(** A new mapping. *)
Lemma mmap_spec map_size commit_size w :
  wp only_panic (wasm_mmap_linear_memory map_size commit_size) (fun r w' =>
    if r =? 0 then maps (w_tee w') = maps (w_tee w) /\
      memories (w_ctx w') = memories (w_ctx w) /\
      (exists m, w_ctx w' = set_app_heap (set_mem m (app_heap (w_ctx w))) (w_ctx w))
    else
      maps (w_tee w) !! r = None /\ maps (w_tee w') = <[r := page_align map_size]> (maps (w_tee w)) /\
      w_ctx w' = cleared r (page_align map_size) (w_ctx w) /\
      map_low <= r /\ r + page_align map_size <= map_high /\ r mod 8 = 0) w.
Proof.
  assert (forall w0 : W, exists m, w_ctx w0 = set_app_heap (set_mem m (app_heap (w_ctx w0))) (w_ctx w0))
    as Hsame by (intros [? [? [] ? ? ?]]; by eexists).
  pose proof map_bounds as [Hlow _].
  unfold wasm_mmap_linear_memory, wasm_mremap_linear_memory. rewrite H64.
  change (Z.of_nat 8 =? 4) with false. cbn [andb Z.eqb negb].
  apply wp_bind, wp_bind. unfold os_mmap.
  destruct (Z.ltb_spec (-1) (-1)); [lia|].
  destruct (TzPlatform.UINT32_MAX <=? page_align map_size).
  { apply wp_ret, wp_ret, wp_ret. do 2 (split; [done|]). apply Hsame. }
  apply wp_bind, wp_tcall; [|done]. intros [a|] t Ht.
  2: { apply spec_map_zi in Ht. apply wp_ret, wp_ret, wp_ret. do 2 (split; [done|]). apply (Hsame w). }
  pose proof (spec_map_area _ _ _ _ Ht) as (Ha & Hh & H8). apply spec_map_zi in Ht as [Hfresh Ht].
  cbn [MMAP_PROT_NONE Z.eqb negb]. apply wp_ret. unfold mapping_cleared.
  apply wp_bind, wp_set_ctx, wp_ret. destruct (Z.eqb_spec a 0); [lia|]. cbn [w_tee w_ctx].
  apply wp_bind. eapply wp_mono; [apply os_mprotect_maps|]. cbn [w_tee w_ctx].
  intros r [t1 c1] [Hm Hc]. cbn [w_tee w_ctx] in *. subst c1.
  destruct (negb (r =? 0)).
  - apply wp_bind. unfold wasm_munmap_linear_memory.
    eapply wp_mono; [apply wp_os_munmap|].
    + cbn [w_tee]. rewrite Hm, Ht. apply lookup_insert_eq.
    + intros _ [t2 c2] [Hm2 Hc2]. cbn [w_tee w_ctx] in *. subst c2. apply wp_ret.
      simpl. rewrite Hm2, Hm, Ht, delete_insert_id by done. split; [done|]. split; [done|]. by eexists.
  - apply wp_ret. destruct (Z.eqb_spec a 0); [lia|]. cbn [w_tee w_ctx]. rewrite Hm.
    done.
Qed.

(** ** The invariant *)

(** The memory is a mapping, unless it is empty. *)
Definition mapped (t : tee) (m : WASMMemoryInstance) : Prop :=
  memory_data m = 0 /\ memory_data_size m = 0 \/
  map_low <= memory_data m /\ memory_data m + memory_data_size m <= map_high /\
  memory_data m mod 8 = 0 /\ maps t !! memory_data m = Some (memory_data_size m).

(** The application heap, whose structure is apart from all mappings. *)
Record app_heap_at (h : gc_heap) (m : WASMMemoryInstance) (cs : list chunk) : Prop := {
  ah_inv : heap_inv h cs;
  ah_base : base_addr h = heap_data m + GC_HEAD_PADDING;
  ah_size : current_size h + GC_HEAD_PADDING <= heap_data_end m - heap_data m < 2 ^ 32;
  ah_root : kfc_tree_root h < map_low \/ map_high <= kfc_tree_root h
}.

Definition no_app_heap (m : WASMMemoryInstance) : Prop := heap_data_end m = heap_data m.

Record linear_ok (w : W) (m : WASMMemoryInstance) (cs : list chunk) : Prop := {
  lo_instance : memories (w_ctx w) = Some m;
  lo_memory : memory_ok m;
  lo_mapped : mapped (w_tee w) m;
  lo_pages : cur_page_count m = max_page_count m \/
    (PAGE_SIZE | num_bytes_per_page m) /\
    memory_data_size m = num_bytes_per_page m * cur_page_count m;
  lo_size : memory_data_size m = page_align (num_bytes_per_page m * cur_page_count m);
  lo_handle : heap_handle m = 0 <-> no_app_heap m;
  lo_heap : no_app_heap m \/ app_heap_at (app_heap (w_ctx w)) m cs
}.

(** The mappings without that of a memory. *)
Definition other_maps (t : tee) (m : WASMMemoryInstance) : gmap Z Z :=
  if memory_data m =? 0 then maps t else delete (memory_data m) (maps t).

(** The contents of a memory. *)
Definition same_bytes (w : W) (m : WASMMemoryInstance) (w' : W) (m' : WASMMemoryInstance) : Prop :=
  forall x, 0 <= x < memory_data_size m ->
    mem (app_heap (w_ctx w')) (memory_data m' + x) = mem (app_heap (w_ctx w)) (memory_data m + x).

(** ** Growing *)

(** The heap after the memory moved. *)
Lemma migrate_spec h m cs new n :
  app_heap_at h m cs -> large_only cs -> memory_ok m ->
  map_low <= memory_data m -> memory_data m + memory_data_size m <= map_high ->
  n = memory_data_size m -> map_low <= new -> new + n <= map_high -> memory_data m mod 8 = 0 -> new mod 8 = 0 ->
  let h1 := if new =? memory_data m then h else move_pool (memory_data m) new n h in
  exists h', mem_allocator_migrate (heap_data m + (new - memory_data m))
      (wrap32 (heap_data_end m - heap_data m)) h1 = Ret (GC_SUCCESS, h') /\
    heap_inv h' cs /\ base_addr h' = base_addr h + (new - memory_data m) /\
    kfc_tree_root h' = kfc_tree_root h /\
    forall x, 0 <= x < n -> mem h' (new + x) = mem h (memory_data m + x).
Proof.
  intros [Hinv Hb Hs Hr] Hl Hm Hlow Hhigh Hn Hnew Hnhigh H8 Hn8. cbv zeta. pose proof map_bounds as [Hpos _].
  destruct Hm as [_ _ _ _ _ He [Hh1 Hh2]]. unfold GC_HEAD_PADDING in *.
  unfold wrap32 at 1. rewrite Z.mod_small by lia.
  destruct (Z.eqb_spec new (memory_data m)) as [->|Hne].
  - exists h. rewrite Z.sub_diag, !Z.add_0_r. split; [|done].
    unfold mem_allocator_migrate, gc_migrate, mbind, M_bind, heap_state, gets, id, GC_HEAD_PADDING.
    pose proof (ho_aligned _ _ _ Hinv) as Hal. unfold HMU_SIZE in Hal. rewrite Hb in Hal.
    rewrite land_7. replace (heap_data m mod 8) with 0; last first.
    { replace (heap_data m + 4 + 4) with (heap_data m + 1 * 8) in Hal by lia.
      by rewrite Z.mod_add in Hal by lia. }
    cbn [Z.eqb negb].
    replace (heap_data m + (heap_data_end m - heap_data m) - (heap_data m + 4))
      with (heap_data_end m - heap_data m - 4) by lia.
    pose proof (po_size _ (ho_pool _ _ _ Hinv)). unfold wrap32. rewrite Z.mod_small by lia.
    destruct (Z.ltb_spec (heap_data m + (heap_data_end m - heap_data m)) (heap_data m + 4)); [lia|].
    destruct (Z.ltb_spec (Z.ldiff (heap_data_end m - heap_data m - 4) 7) (current_size h)) as [Hlt|_].
    { exfalso. rewrite align8 in Hlt.
      pose proof (total_mod _ (chunks_at_sizes _ _ _ _ _ (ho_chunks _ _ _ Hinv))) as Hmod.
      rewrite (ho_total _ _ _ Hinv) in Hmod. pose proof (Z.div_mod (current_size h) 8).
      pose proof (Z.div_le_mono (current_size h) (heap_data_end m - heap_data m - 4) 8). lia. }
    cbn [orb]. rewrite Hb, Z.sub_diag. done.
  - destruct (migrate_keeps h cs (memory_data m) new n (heap_data_end m - heap_data m) Hinv)
      as (h' & Hrun & Hinv' & Hb' & Hr' & Hbytes).
    + pose proof (po_size _ (ho_pool _ _ _ Hinv)).
      split; unfold GC_HEAD_PADDING; try lia. rewrite Zminus_mod, H8, Hn8. done.
    + unfold GC_HEAD_PADDING. lia.
    + done.
    + exists h'. unfold GC_HEAD_PADDING in Hrun.
      replace (base_addr h - 4 + (new - memory_data m)) with (heap_data m + (new - memory_data m))
        in Hrun by lia.
      split; [exact Hrun|]. do 3 (split; [done|]). intros x Hx.
      replace (new + x) with (memory_data m + x + (new - memory_data m)) by lia. apply Hbytes. lia.
Qed.

(** The memory after growing to [total] pages at [new]. *)
Definition grown (m : WASMMemoryInstance) (new total : Z) : WASMMemoryInstance :=
  let size := num_bytes_per_page m * total in
  let heap := new + (heap_data m - memory_data m) in
  MemoryInstance (num_bytes_per_page m) total (max_page_count m) size new (new + size) heap
    (heap + (heap_data_end m - heap_data m)) (heap_handle m)
    (wasm_runtime_set_mem_bound_check_bytes size).

Lemma grown_ok m new total :
  memory_ok m -> cur_page_count m < total <= max_page_count m -> map_low <= new ->
  new + num_bytes_per_page m * total <= map_high ->
  memory_data_size m <= num_bytes_per_page m * total -> memory_ok (grown m new total).
Proof.
  intros [Hp Hc Hmax Hs Hpl He Hh] Ht Hlow Hhigh Hle. pose proof map_bounds.
  assert (num_bytes_per_page m * total <= num_bytes_per_page m * max_page_count m) by nia.
  split; simpl; try done; lia.
Qed.

(** What a call to grow by [inc] pages leaves behind. *)
Definition enlarge_result (m : WASMMemoryInstance) (cs : list chunk) (inc : Z) (w : W) (ok : bool) (w' : W)
    : Prop :=
  if ok then
    exists m', linear_ok w' m' cs /\ same_bytes w m w' m' /\
      cur_page_count m' = cur_page_count m + inc /\
      num_bytes_per_page m' = num_bytes_per_page m /\ max_page_count m' = max_page_count m /\
      heap_handle m' = heap_handle m /\ other_maps (w_tee w') m' = other_maps (w_tee w) m
  else
    memories (w_ctx w') = Some m /\
    (linear_ok w' m cs /\ same_bytes w m w' m /\ maps (w_tee w') = maps (w_tee w) \/
     maps (w_tee w') !! memory_data m = None /\ rights_refused).

Lemma same_bytes_refl w m w' :
  mem (app_heap (w_ctx w')) = mem (app_heap (w_ctx w)) -> same_bytes w m w' m.
Proof. intros Hm x Hx. by rewrite Hm. Qed.

Lemma linear_ok_frame w w' m cs :
  maps (w_tee w') = maps (w_tee w) -> memories (w_ctx w') = memories (w_ctx w) ->
  app_heap (w_ctx w') = app_heap (w_ctx w) -> linear_ok w m cs -> linear_ok w' m cs.
Proof.
  intros Ht Hm Hh [H1 H2 H3 H4 H5 H6 H7]. split; [by rewrite Hm|done| |done..|by rewrite Hh].
  unfold mapped in *. by rewrite Ht.
Qed.

(** The end of the function: the callback is told of a failure. *)
Lemma wp_return_func E (tell : bool) e (ret : bool) (Q : bool -> W -> Prop) w :
  (forall w', w_tee w' = w_tee w -> memories (w_ctx w') = memories (w_ctx w) ->
    app_heap (w_ctx w') = app_heap (w_ctx w) -> Q ret w') ->
  wp E ((if tell then set_ctx (add_enlarge_error e) else mret tt);; mret ret) Q w.
Proof. intros HQ. destruct tell; apply wp_bind; [apply wp_set_ctx|apply wp_ret]; apply wp_ret; by apply HQ. Qed.

Lemma wp_heap_call {A} E (c : M gc_heap A) Q w a h' :
  c (app_heap (w_ctx w)) = Ret (a, h') -> Q a (World (w_tee w) (set_app_heap h' (w_ctx w))) ->
  wp E (heap_call c) Q w.
Proof. unfold wp, heap_call. by intros -> ?. Qed.

(** The mapping has grown from [w] to [w1] and moved to [new]: migrating the
    heap restores the invariant. *)
Lemma grown_linear w w1 m cs new total :
  linear_ok w m cs -> no_app_heap m \/ large_only cs ->
  cur_page_count m < total <= max_page_count m ->
  maps (w_tee w1) !! new = Some (num_bytes_per_page m * total) ->
  map_low <= new -> new + num_bytes_per_page m * total <= map_high -> new mod 8 = 0 ->
  (memory_data_size m = 0 /\ no_app_heap m \/
   map_low <= memory_data m /\ memory_data m + memory_data_size m <= map_high /\ memory_data m mod 8 = 0 /\
   w_ctx w1 = moved_to (memory_data m) new (memory_data_size m) (w_ctx w)) ->
  exists h',
    (if decide (no_app_heap m) then h' = app_heap (w_ctx w1)
     else mem_allocator_migrate (heap_data m + (new - memory_data m))
            (wrap32 (heap_data_end m - heap_data m)) (app_heap (w_ctx w1)) = Ret (GC_SUCCESS, h')) /\
    forall w2, maps (w_tee w2) = maps (w_tee w1) -> memories (w_ctx w2) = Some (grown m new total) ->
      app_heap (w_ctx w2) = h' ->
      linear_ok w2 (grown m new total) cs /\ same_bytes w m w2 (grown m new total).
Proof.
  intros Hok Hlarge Ht Hmap Hlow Hhigh H8 Hsrc.
  destruct Hok as [Hi Hm Hmp Hpg _ Hhd Hh]. pose proof (memory_size_nonneg _ Hm) as Hs0.
  assert ((PAGE_SIZE | num_bytes_per_page m) /\
    memory_data_size m = num_bytes_per_page m * cur_page_count m) as [Hdiv Hsz] by (destruct Hpg; [lia|done]).
  assert (memory_data_size m <= num_bytes_per_page m * total) as Hle.
  { rewrite Hsz. pose proof (mo_page _ Hm). nia. }
  pose proof (grown_ok m new total Hm Ht Hlow Hhigh Hle) as Hgok.
  assert (forall w2, maps (w_tee w2) = maps (w_tee w1) ->
    memories (w_ctx w2) = Some (grown m new total) ->
    no_app_heap m \/ app_heap_at (app_heap (w_ctx w2)) (grown m new total) cs ->
    linear_ok w2 (grown m new total) cs) as Hfin.
  { intros w2 Hm2 Hi2 Hh2. split; [done|done| |by right| | |].
    - right. simpl. rewrite Hm2. done.
    - simpl. rewrite page_align_multiple; [done| | |by apply Z.divide_mul_l].
      + pose proof (mo_page _ Hm). pose proof (mo_count _ Hm). nia.
      + pose proof map_bounds. pose proof (mo_max _ Hm) as Hmax. unfold MAX_LINEAR_MEMORY_SIZE, BH_GB in Hmax.
        pose proof (mo_page _ Hm). nia.
    - simpl. rewrite Hhd. unfold no_app_heap. simpl. lia.
    - destruct Hh2 as [Hno|]; [left|by right]. unfold no_app_heap in *. simpl. lia. }
  destruct (decide (no_app_heap m)) as [Hno|Hno].
  - eexists. split; [done|]. intros w2 Hm2 Hi2 Hh2. split; [by apply Hfin; [..|left]|].
    intros x Hx. rewrite Hh2. destruct Hsrc as [[Hz _]|(_ & _ & _ & ->)]; [lia|]. by apply moved_to_byte.
  - destruct Hh as [|Hheap]; [done|]. destruct Hlarge as [|Hlarge]; [done|].
    destruct Hsrc as [[_ ?]|(Hlow0 & Hhigh0 & H80 & Hw1)]; [done|].
    destruct (migrate_spec _ m cs new _ Hheap Hlarge Hm Hlow0 Hhigh0 eq_refl Hlow ltac:(lia) H80 H8)
      as (h' & Hrun & Hinv & Hb & Hr & Hbytes).
    exists h'. split.
    { rewrite Hw1. unfold moved_to. by destruct (new =? memory_data m). }
    intros w2 Hm2 Hi2 Hh2. split; [apply Hfin; [done|done|right]|].
    + destruct Hheap as [Hinv0 Hb0 Hs1 Hr0]. rewrite Hh2. split; simpl; [done|lia| |lia].
      rewrite <- (ho_total _ _ _ Hinv), (ho_total _ _ _ Hinv0). lia.
    + intros x Hx. rewrite Hh2. simpl. by apply Hbytes.
Qed.

(** The mapping of a memory grows to [n] bytes. *)
Lemma remap_memory w m cs n :
  linear_ok w m cs -> 0 < n <= MAX_LINEAR_MEMORY_SIZE -> (PAGE_SIZE | n) ->
  wp only_panic (wasm_mremap_linear_memory (memory_data m) (memory_data_size m) n n)
    (fun new w1 => memories (w_ctx w1) = Some m /\
      if new =? 0 then
        linear_ok w1 m cs /\ same_bytes w m w1 m /\ maps (w_tee w1) = maps (w_tee w) \/
        maps (w_tee w1) !! memory_data m = None /\ rights_refused
      else
        maps (w_tee w1) !! new = Some n /\ delete new (maps (w_tee w1)) = other_maps (w_tee w) m /\
        map_low <= new /\ new + n <= map_high /\ new mod 8 = 0 /\
        (memory_data_size m = 0 /\ no_app_heap m \/
         map_low <= memory_data m /\ memory_data m + memory_data_size m <= map_high /\
         memory_data m mod 8 = 0 /\
         w_ctx w1 = moved_to (memory_data m) new (memory_data_size m) (w_ctx w))) w.
Proof.
  intros Hok Hn Hpg. pose proof map_bounds as [Hpos _].
  destruct (lo_mapped _ _ _ Hok) as [[Hd0 Hs0]|(Hlow & Hhigh & H8 & Hmap)].
  - rewrite Hd0, Hs0. eapply wp_mono; [apply (mmap_spec n n)|]. cbv beta.
    intros new w1. destruct (Z.eqb_spec new 0) as [->|Hnew].
    + intros (Hm & Hi & mm & Hc). split; [rewrite Hi; apply (lo_instance _ _ _ Hok)|].
      left. split; [|split; [intros x; lia|exact Hm]].
      destruct Hok as [H1 H2 H3 H4 H5 H6 H7].
      split; [by rewrite Hi|done|unfold mapped; auto|done..|left].
      destruct H2 as [_ _ _ _ _ He Hh]. unfold no_app_heap. lia.
    + intros (Hfresh & Hm & Hc & Hlow & Hhigh & H8).
      split; [rewrite Hc; apply (lo_instance _ _ _ Hok)|].
      pose proof page_size_pos. unfold MAX_LINEAR_MEMORY_SIZE, BH_GB in Hn.
      rewrite page_align_multiple in * by (done || lia). rewrite Hm, lookup_insert_eq. unfold other_maps. rewrite Hd0.
      rewrite delete_insert_id by done. do 5 (split; [done|]). left. split; [done|].
      destruct (lo_memory _ _ _ Hok) as [_ _ _ _ _ He Hh]. unfold no_app_heap. lia.
  - eapply wp_mono; [apply remap_spec; [lia|exact Hmap|lia|done]|]. cbv beta.
    intros new w1. unfold remap_result. destruct (Z.eqb_spec new 0) as [->|Hnew].
    + intros [[Hm Hc]|(Hm & Hi & Href)].
      * split; [rewrite Hc; apply (lo_instance _ _ _ Hok)|]. left.
        split; [eapply linear_ok_frame; [exact Hm|by rewrite Hc..|exact Hok]|].
        split; [|exact Hm]. apply same_bytes_refl. by rewrite Hc.
      * split; [rewrite Hi; apply (lo_instance _ _ _ Hok)|]. right. split; [|done]. rewrite Hm. apply lookup_delete_eq.
    + intros (Hfresh & Hm & Hc & Hlow' & Hhigh' & H8').
      split; [rewrite Hc; unfold moved_to; destruct (new =? _); apply (lo_instance _ _ _ Hok)|].
      rewrite Hm, lookup_insert_eq, delete_insert_id by done. unfold other_maps.
      destruct (Z.eqb_spec (memory_data m) 0); [lia|]. do 5 (split; [done|]). by right.
Qed.

Lemma enlarge_spec cb module inc w m cs :
  linear_ok w m cs -> no_app_heap m \/ large_only cs -> 0 <= inc < 2 ^ 32 ->
  wp only_panic (wasm_enlarge_memory_internal cb module inc) (enlarge_result m cs inc w) w.
Proof.
  intros Hok Hlarge Hinc. unfold wasm_enlarge_memory_internal.
  apply wp_bind. unfold wasm_get_default_memory. apply wp_bind, wp_ctx, wp_ret.
  rewrite (lo_instance _ _ _ Hok). pose proof (lo_memory _ _ _ Hok) as Hm.
  assert (forall w1, linear_ok w1 m cs -> same_bytes w m w1 m -> maps (w_tee w1) = maps (w_tee w) -> forall w',
    w_tee w' = w_tee w1 -> memories (w_ctx w') = memories (w_ctx w1) ->
    app_heap (w_ctx w') = app_heap (w_ctx w1) -> enlarge_result m cs inc w false w') as Hfail.
  { intros w1 H1 Hb Hmp w' Ht Hi Hh. split; [rewrite Hi; apply (lo_instance _ _ _ H1)|]. left.
    split; [apply (linear_ok_frame w1); [by rewrite Ht|exact Hi|exact Hh|exact H1]|].
    split; [|by rewrite Ht]. intros x Hx. rewrite Hh. by apply Hb. }
  assert (same_bytes w m w m) as Hrefl by by apply same_bytes_refl.
  destruct (Z.leb_spec inc 0).
  { apply wp_ret. assert (inc = 0) as -> by lia. exists m. by rewrite Z.add_0_r. }
  pose proof (mo_page _ Hm) as Hnp. pose proof (mo_count _ Hm) as Hcnt.
  pose proof (mo_max _ Hm) as Hmax. unfold MAX_LINEAR_MEMORY_SIZE, BH_GB in Hmax.
  destruct (Z.lt_ge_cases (inc + cur_page_count m) (2 ^ 32)) as [Hlt|Hge].
  2: { assert (wrap32 (inc + cur_page_count m) = inc + cur_page_count m - 2 ^ 32) as ->
         by (symmetry; apply Z.mod_unique_pos with 1; lia).
       destruct (Z.ltb_spec (inc + cur_page_count m - 2 ^ 32) (cur_page_count m)); [|lia].
       apply wp_return_func, (Hfail w); done. }
  set (total := inc + cur_page_count m) in *.
  assert (wrap32 total = total) as -> by (apply Z.mod_small; lia).
  destruct (Z.ltb_spec total (cur_page_count m)); [lia|].
  destruct (Z.ltb_spec (max_page_count m) total); [apply wp_return_func, (Hfail w); done|].
  assert (0 < num_bytes_per_page m * total <= num_bytes_per_page m * max_page_count m) as Hsz by nia.
  assert (wrap_u64 (num_bytes_per_page m * total) = num_bytes_per_page m * total) as ->
    by (apply Z.mod_small; lia).
  assert ((PAGE_SIZE | num_bytes_per_page m * total)) as Hdiv.
  { destruct (lo_pages _ _ _ Hok) as [|[Hd _]]; [lia|]. by apply Z.divide_mul_l. }
  assert (0 <= heap_data_end m - heap_data m < 2 ^ 32) as Hhs.
  { destruct (lo_heap _ _ _ Hok) as [Hno|[_ _ Hs _]]; [unfold no_app_heap in Hno; lia|].
    destruct (mo_heap _ Hm). lia. }
  apply wp_bind. eapply wp_mono with (P := fun b w1 => b = false /\ w1 = w).
  { destruct (0 <? _) eqn:Hpos; [|by apply wp_ret].
    destruct (lo_heap _ _ _ Hok) as [Hno|Hheap].
    { unfold no_app_heap in Hno. rewrite Hno, Z.sub_diag in Hpos. done. }
    eapply wp_heap_call; [done|]. simpl. split; [apply (ho_sound _ _ _ (ah_inv _ _ _ Hheap))|].
    by destruct w as [? []]. }
  intros ? ? [-> ->]. apply wp_bind.
  eapply wp_mono; [apply (remap_memory w m cs); [exact Hok|unfold MAX_LINEAR_MEMORY_SIZE, BH_GB; lia|done]|].
  cbv beta. intros new w1 [Hi1 Hnew]. destruct (Z.eqb_spec new 0) as [->|Hnew0].
  { apply wp_return_func. intros w' Ht Hi Hh. destruct Hnew as [[Hl1 Hb]|Hgone].
    - by eapply Hfail; [exact Hl1|apply Hb..|exact Ht|exact Hi|exact Hh].
    - split; [by rewrite Hi|]. right. by rewrite Ht. }
  destruct Hnew as (Hmap & Hoth & Hlow & Hhigh & H8 & Hsrc).
  destruct (grown_linear w w1 m cs new total Hok Hlarge ltac:(lia) Hmap Hlow Hhigh H8 Hsrc)
    as (h' & Hrun & Hfin).
  apply wp_bind. eapply wp_mono with (P := fun b w2 => b = true /\ w_tee w2 = w_tee w1 /\
    app_heap (w_ctx w2) = h').
  { destruct (decide (no_app_heap m)) as [Hno|Hno].
    - rewrite Hno, Z.sub_diag. change (0 <? wrap32 0) with false. by apply wp_ret.
    - assert (wrap32 (heap_data_end m - heap_data m) = heap_data_end m - heap_data m) as Hw
        by (apply Z.mod_small; lia). unfold no_app_heap in Hno.
      destruct (Z.ltb_spec 0 (wrap32 (heap_data_end m - heap_data m))); [|lia].
      apply wp_bind. eapply wp_heap_call; [exact Hrun|]. by apply wp_ret. }
  intros ? w2 (-> & Ht2 & Hh2). apply wp_bind, wp_set_ctx. apply wp_return_func.
  assert (wrap32 (heap_data_end m - heap_data m) = heap_data_end m - heap_data m) as ->
    by (apply Z.mod_small; lia).
  intros w' Ht Hi Hh. simpl in *. change (memories (w_ctx w') = Some (grown m new total)) in Hi.
  destruct (Hfin w') as [Hl Hb]; [by rewrite Ht, Ht2|exact Hi|by rewrite Hh|].
  exists (grown m new total). split; [exact Hl|]. split; [exact Hb|]. simpl.
  split; [lia|]. do 3 (split; [done|]). unfold other_maps at 1. simpl.
  apply Z.eqb_neq in Hnew0 as ->. by rewrite Ht, Ht2.
Qed.

Lemma memory_grow_spec cb delta w m cs :
  linear_ok w m cs -> no_app_heap m \/ large_only cs ->
  wp only_panic (memory_grow cb delta 0)
    (fun r w' => exists ok : bool, enlarge_result m cs (wrap32 delta) w ok w' /\
      r = if ok then cur_page_count m else 2 ^ 32 - 1) w.
Proof.
  intros Hok Hlarge. unfold memory_grow, wasm_enlarge_memory_with_idx, memory_count, wasm_get_default_memory.
  apply wp_bind, wp_bind, wp_ctx, wp_ret, wp_bind, wp_bind, wp_bind, wp_ctx, wp_ret.
  rewrite (lo_instance _ _ _ Hok). cbn [Z.ltb Z.compare].
  eapply wp_mono; [apply enlarge_spec; [exact Hok|exact Hlarge|apply Z.mod_pos_bound; lia]|].
  intros ok w' Hr. apply wp_ret. by exists ok.
Qed.

(** ** Theorems *)

(** C22: [memory.grow] of the interpreter, on a memory without an application
    heap or with one in which no chunk of less than 248 bytes is free: the
    migration of the heap loses such chunks. It answers the old number of pages and
    has added the pages that were asked for, or it answers -1. After a success
    the memory, wherever the trusted operating system has moved it, is one
    mapping of exactly its size, within 4 GB and its maximum, it holds the bytes
    it held, and the application heap in it is intact at its new place. After a
    failure the memory is as it was, or, where the system has refused the rights
    to the new mapping, the mapping is gone while the instance still refers to
    it. Other mappings stay as they are. *)
Theorem memory_grow_correct cb delta w m cs :
  linear_ok w m cs -> no_app_heap m \/ large_only cs ->
  wp only_panic (memory_grow cb delta 0)
    (fun r w' => exists ok : bool, enlarge_result m cs (wrap32 delta) w ok w' /\
      r = if ok then cur_page_count m else 2 ^ 32 - 1) w.
Proof. apply memory_grow_spec. Qed.
End mapping.
