(* ===== verification/LinearInit.v ===== *)
(** * Creation of linear memory

    Where the application heap is put, and that instantiating a module
    establishes the invariant of [LinearGrow.v] or leaves nothing behind. *)

From S2P Require Import Prelude TeeApi Layout TzPlatform TzSpec Memory Ems EmsTree EmsFree EmsSpec.
From S2P Require Import EmsHeap EmsClient EmsMigrate LinearMemory LinearSpec LinearGrow.

(** ** The place of the heap *)

(** Pages of a module: those of WebAssembly, or one page of another size, to
    which the loader joins or shrinks a memory that never grows. *)
Definition pages_ok (npp init max : Z) : Prop :=
  npp = 65536 /\ 0 <= init <= max /\ max <= DEFAULT_MAX_PAGES \/ 0 < npp < 2 ^ 32 /\ init = 1 /\ max = 1.

(** Pages of 64 KB for [n] bytes. *)
Definition pages (n : Z) : Z := (n + 65535) / 65536.

(** No heap is made for a module that brings its own allocator. *)
Definition wanted (module : WASMModule) (hs : Z) : Z := if exports_malloc_free module then 0 else hs.

(** The size of the heap where [hs] bytes were asked for: these bytes, or the
    pages they take without the last KB where new pages are added for it. *)
Definition asked (module : WASMModule) (hs s : Z) : Prop :=
  s = wanted module hs \/ 0 < wanted module hs /\ s = 65536 * pages (wanted module hs) - BH_KB.

(** The bytes by which the memory is enlarged: the heap itself where the memory
    is a single page or empty and cannot grow; whole pages otherwise, such that
    the part of the memory behind [__heap_base] is kept, and at least 1 KB of it
    in the page the heap ends in; or the pages of the heap behind the memory. *)
Definition room (module : WASMModule) (npp init max hs : Z) : Z :=
  let hs := wanted module hs in
  let behind := 65536 * pages hs in
  if hs =? 0 then 0
  else if (init =? max) && ((init =? 0) || (init =? 1)) then hs
  else match aux_heap_base module with
  | Some base => if base <? npp * init then 65536 * (pages (base + hs + BH_KB) - pages base) else behind
  | None => behind
  end.

(** There is no place: the memory is full without the heap, or exceeds 65536
    pages, or the size of a single page, with it. *)
Definition refused (module : WASMModule) (npp init max hs : Z) : Prop :=
  0 < wanted module hs /\
  (npp * init = MAX_LINEAR_MEMORY_SIZE \/
   if (init =? max) && (init =? 1) then 2 ^ 32 <= npp + hs
   else MAX_LINEAR_MEMORY_SIZE < npp * init + room module npp init max hs).

(** The memory with the heap stays within 4 GB and contains the memory of the
    module; the heap is in it, behind the memory of the module or between its
    data and the new [__heap_base]. *)
Record placement_ok (module : WASMModule) (npp init hs : Z) (pl : placement) : Prop := {
  pl_page : 0 < pl_bytes_per_page pl < 2 ^ 32;
  pl_count : 0 <= pl_init_page_count pl <= pl_max_page_count pl /\
    pl_max_page_count pl <= DEFAULT_MAX_PAGES;
  pl_bound : pl_bytes_per_page pl * pl_max_page_count pl <= MAX_LINEAR_MEMORY_SIZE;
  pl_grows : pl_init_page_count pl = pl_max_page_count pl \/ pl_bytes_per_page pl = 65536;
  pl_keeps : npp * init <= pl_bytes_per_page pl * pl_init_page_count pl;
  pl_inside : 0 <= pl_heap_offset pl /\
    pl_heap_offset pl + pl_heap_size pl <= pl_bytes_per_page pl * pl_init_page_count pl;
  pl_size : 0 <= pl_heap_size pl <= APP_HEAP_SIZE_MAX;
  pl_asked : asked module hs (pl_heap_size pl);
  pl_apart : pl_heap_size pl = 0 \/ pl_heap_base pl = None /\ npp * init <= pl_heap_offset pl \/
    exists base, aux_heap_base module = Some (pl_heap_offset pl) /\ pl_heap_base pl = Some base /\
      pl_heap_offset pl + pl_heap_size pl <= base < pl_bytes_per_page pl * pl_init_page_count pl
}.

(** Bytes from a position to the end of its page. *)
Lemma to_page_end npp b : 0 < npp -> 0 <= b ->
  let last := b mod npp in
  let last := if last =? 0 then npp else last in
  exists k, 0 <= npp - last < npp /\ b + (npp - last) = npp * k.
Proof.
  intros Hn Hb. cbv zeta. pose proof (Z.div_mod b npp). pose proof (Z.mod_pos_bound b npp).
  destruct (Z.eqb_spec (b mod npp) 0); [exists (b / npp)|exists (b / npp + 1)]; lia.
Qed.

Lemma pages_unique n k : 65536 * (k - 1) < n <= 65536 * k -> pages n = k.
Proof. intros Hn. symmetry. apply (Z.div_unique_pos _ _ _ (n + 65535 - 65536 * k)); lia. Qed.

Lemma pages_bounds n : n <= 65536 * pages n < n + 65536.
Proof.
  unfold pages. pose proof (Z.div_mod (n + 65535) 65536 ltac:(lia)).
  pose proof (Z.mod_pos_bound (n + 65535) 65536 ltac:(lia)). lia.
Qed.

Lemma insert_before_heap_base_spec hs base init :
  0 < hs <= APP_HEAP_SIZE_MAX -> 0 <= base < 65536 * init -> 0 <= init <= DEFAULT_MAX_PAGES ->
  let r := insert_before_heap_base 65536 hs base in
  fst r = pages (base + hs + BH_KB) - pages base /\
  0 <= fst r /\ 65536 * fst r < hs + 2 * 65536 /\
  base + hs <= snd r < 65536 * (init + fst r).
Proof.
  intros Hhs Hb Hi. unfold insert_before_heap_base, BH_KB, wrap32, wrap_u64.
  unfold APP_HEAP_SIZE_MAX, DEFAULT_MAX_PAGES in *. rewrite (Z.mod_small (base + hs)) by lia.
  destruct (to_page_end 65536 base ltac:(lia) ltac:(lia)) as (k & Hk & Ek). cbv zeta in Hk, Ek.
  destruct (to_page_end 65536 (base + hs) ltac:(lia) ltac:(lia)) as (j & Hj & Ej). cbv zeta in Hj, Ej.
  set (e := 65536 - (if base mod 65536 =? 0 then 65536 else base mod 65536)) in *.
  set (f := 65536 - (if (base + hs) mod 65536 =? 0 then 65536 else (base + hs) mod 65536)) in *.
  rewrite (Z.mod_small (hs - e + 65536 - 1)) by lia.
  pose proof (Z.div_mod (hs - e + 65536 - 1) 65536 ltac:(lia)).
  pose proof (Z.mod_pos_bound (hs - e + 65536 - 1) 65536 ltac:(lia)).
  set (q := (hs - e + 65536 - 1) / 65536) in *. rewrite (pages_unique base k) by lia.
  destruct (Z.ltb_spec f (1 * 1024)); cbn [fst snd]; rewrite ?Z.mod_small by lia.
  - rewrite (pages_unique (base + hs + 1024) (j + 1)) by lia. lia.
  - rewrite (pages_unique (base + hs + 1024) j) by lia. lia.
Qed.

(** One page with the heap at its end. *)
Lemma one_page module npp init hs npp' off s :
  0 < npp' < 2 ^ 32 -> 0 <= off -> off + s <= npp' -> 0 <= s <= APP_HEAP_SIZE_MAX -> asked module hs s ->
  npp * init <= off -> placement_ok module npp init hs (Placement npp' 1 1 off s None).
Proof.
  intros Hn Ho Hin Hs Hask Hk. split; cbn [pl_bytes_per_page pl_init_page_count pl_max_page_count
    pl_heap_offset pl_heap_size pl_heap_base];
    unfold DEFAULT_MAX_PAGES, MAX_LINEAR_MEMORY_SIZE, BH_GB; try lia; try done.
  right. by left.
Qed.

Section placing.
Context (module : WASMModule) (npp init max hs : Z).
Context (Hpages : pages_ok npp init max) (Hhs : 0 <= hs <= APP_HEAP_SIZE_MAX).
Context (Hbase : forall b, aux_heap_base module = Some b -> 0 <= b).

(** [inc] pages are added for a heap of [s] bytes at [off]. *)
Lemma add_pages inc off s base :
  0 <= init <= max -> max <= DEFAULT_MAX_PAGES -> 0 <= inc -> 65536 * inc < hs + 2 * 65536 ->
  0 < hs -> 0 < s <= APP_HEAP_SIZE_MAX -> asked module hs s -> 0 <= off -> off + s <= 65536 * (init + inc) ->
  (base = None /\ 65536 * init <= off \/ exists b, aux_heap_base module = Some off /\ base = Some (wrap32 b) /\
    off + s <= b < 65536 * (init + inc)) ->
  match
    (if DEFAULT_MAX_PAGES <? wrap32 (init + inc) then None else
     Some (Placement 65536 (wrap32 (init + inc))
       (if DEFAULT_MAX_PAGES <? wrap32 (max + inc) then DEFAULT_MAX_PAGES else wrap32 (max + inc))
       off s base))
  with
  | Some pl => init + inc <= DEFAULT_MAX_PAGES /\ placement_ok module 65536 init hs pl /\
      pl_bytes_per_page pl = 65536 /\ pl_init_page_count pl = init + inc
  | None => DEFAULT_MAX_PAGES < init + inc
  end.
Proof.
  intros Hi Hm Hinc Hb Hpos Hs Hask Ho Hin Hap. pose proof Hhs as Hhs'.
  unfold DEFAULT_MAX_PAGES, APP_HEAP_SIZE_MAX, wrap32, MAX_LINEAR_MEMORY_SIZE, BH_GB in *.
  rewrite !Z.mod_small by lia. destruct (Z.ltb_spec 65536 (init + inc)); [lia|].
  split; [done|]. split; [|done].
  split; cbn [pl_bytes_per_page pl_init_page_count pl_max_page_count pl_heap_offset pl_heap_size
    pl_heap_base]; unfold DEFAULT_MAX_PAGES, APP_HEAP_SIZE_MAX, MAX_LINEAR_MEMORY_SIZE, BH_GB; try done;
    try (destruct (Z.ltb_spec 65536 (max + inc)); lia); try lia; right.
  destruct Hap as [Hap|(b & H1 & H2 & H3)]; [by left|]. right. exists b.
  rewrite Z.mod_small in H2 by lia. done.
Qed.

(** The heap behind the last page. *)
Lemma new_pages :
  0 < hs <= APP_HEAP_SIZE_MAX ->
  let inc := wrap32 (hs + 65536 - 1) / 65536 in
  let s := if 0 <? wrap32 (65536 * inc) then wrap32 (wrap32 (65536 * inc) - 1 * BH_KB)
           else wrap32 (65536 * inc) in
  inc = pages hs /\ 0 <= inc <= DEFAULT_MAX_PAGES /\ 65536 * inc < hs + 65536 /\
  s = 65536 * inc - BH_KB /\ 0 < s <= APP_HEAP_SIZE_MAX.
Proof.
  intros Hs. unfold APP_HEAP_SIZE_MAX, DEFAULT_MAX_PAGES, BH_KB, wrap32 in *. cbv zeta.
  rewrite (Z.mod_small (hs + 65536 - 1)) by lia. pose proof (pages_bounds hs) as Hp.
  replace ((hs + 65536 - 1) / 65536) with (pages hs) by (unfold pages; f_equal; lia).
  set (q := pages hs) in *. rewrite (Z.mod_small (65536 * q)) by lia.
  destruct (Z.ltb_spec 0 (65536 * q)); rewrite ?Z.mod_small by lia; lia.
Qed.

(** The heap before [__heap_base] or behind the last page. *)
Lemma insert_pages :
  0 <= init <= max -> max <= DEFAULT_MAX_PAGES -> 0 < hs -> exports_malloc_free module = false ->
  let added := match aux_heap_base module with
    | Some base => if base <? 65536 * init then pages (base + hs + BH_KB) - pages base else pages hs
    | None => pages hs
    end in
  let finish inc_page_count heap_offset heap_size base :=
    let init := wrap32 (init + inc_page_count) in
    let max := wrap32 (max + inc_page_count) in
    if DEFAULT_MAX_PAGES <? init then None else
    let max := if DEFAULT_MAX_PAGES <? max then DEFAULT_MAX_PAGES else max in
    Some (Placement 65536 init max heap_offset heap_size base) in
  let before_new_page :=
    let inc_page_count := wrap32 (hs + 65536 - 1) / 65536 in
    let heap_size := wrap32 (65536 * inc_page_count) in
    let heap_size := if 0 <? heap_size then wrap32 (heap_size - 1 * BH_KB) else heap_size in
    finish inc_page_count (65536 * init) heap_size None in
  match
    match aux_heap_base module with
    | Some base =>
        if base <? 65536 * init then
          let '(inc_page_count, base') := insert_before_heap_base 65536 hs base in
          finish inc_page_count base hs (Some (wrap32 base'))
        else before_new_page
    | None => before_new_page
    end
  with
  | Some pl => init + added <= DEFAULT_MAX_PAGES /\ placement_ok module 65536 init hs pl /\
      pl_bytes_per_page pl = 65536 /\ pl_init_page_count pl = init + added
  | None => DEFAULT_MAX_PAGES < init + added
  end.
Proof.
  intros Hi Hm Hs Hexp added finish before_new_page.
  assert (wanted module hs = hs) as Hw by (unfold wanted; by rewrite Hexp).
  assert (added = pages hs -> match before_new_page with
    | Some pl => init + added <= DEFAULT_MAX_PAGES /\ placement_ok module 65536 init hs pl /\
        pl_bytes_per_page pl = 65536 /\ pl_init_page_count pl = init + added
    | None => DEFAULT_MAX_PAGES < init + added
    end) as Hnew.
  { intros Ha. unfold before_new_page, finish. cbv zeta.
    destruct (new_pages) as (H0 & H1 & H2 & H3 & H4); [lia|]. cbv zeta in H3.
    rewrite H3. rewrite H3 in H4. rewrite Ha, <- H0. unfold BH_KB in *.
    apply add_pages; try lia; [|left; split; [done|lia]].
    unfold asked, BH_KB. rewrite Hw, <- H0. by right. }
  unfold added in Hnew |- *. destruct (aux_heap_base module) as [base|] eqn:Hb; [|by apply Hnew].
  pose proof (Hbase _ eq_refl) as Hb0. destruct (Z.ltb_spec base (65536 * init)) as [Hlt|]; [|by apply Hnew].
  destruct (insert_before_heap_base_spec hs base init) as (H0 & H1 & H2 & H3); [lia..|].
  destruct (insert_before_heap_base 65536 hs base) as [inc base']. cbn [fst snd] in *.
  unfold finish. rewrite <- H0. apply add_pages; try lia; [left; by rewrite Hw|].
  right. exists base'. rewrite Hb. split; [done|]. split; [done|lia].
Qed.

(** A single page that does not grow takes the heap at its end. *)
Lemma insert_one_page hs' :
  0 < npp < 2 ^ 32 -> 0 <= hs' <= APP_HEAP_SIZE_MAX -> asked module hs hs' ->
  match
    (if wrap32 (npp + hs') <? hs' then None
     else Some (Placement (wrap32 (npp + hs')) 1 1 npp hs' None))
  with
  | Some pl => npp + hs' < 2 ^ 32 /\ placement_ok module npp 1 hs pl /\
      pl_bytes_per_page pl * pl_init_page_count pl = npp + hs'
  | None => 0 < hs' /\ 2 ^ 32 <= npp + hs'
  end.
Proof.
  intros Hn Hs Hask. pose proof Hs as Hs'. unfold APP_HEAP_SIZE_MAX in Hs'.
  destruct (Z.lt_ge_cases (npp + hs') (2 ^ 32)) as [Hlt|Hge].
  - assert (wrap32 (npp + hs') = npp + hs') as -> by (apply Z.mod_small; lia).
    destruct (Z.ltb_spec (npp + hs') hs'); [lia|]. split; [done|]. split; [|simpl; lia].
    apply one_page; try done; lia.
  - assert (wrap32 (npp + hs') = npp + hs' - 2 ^ 32) as -> by (symmetry; apply Z.mod_unique_pos with 1; lia).
    destruct (Z.ltb_spec (npp + hs' - 2 ^ 32) hs'); lia.
Qed.

(** Counting in pages and in bytes. *)
Lemma room_exact r added (lim : Prop) :
  (lim <-> 65536 < init + added) ->
  match r with
  | Some pl => init + added <= 65536 /\ placement_ok module 65536 init hs pl /\
      pl_bytes_per_page pl = 65536 /\ pl_init_page_count pl = init + added
  | None => 65536 < init + added
  end ->
  match r with
  | Some pl => ~ lim /\ placement_ok module 65536 init hs pl /\
      pl_bytes_per_page pl * pl_init_page_count pl = 65536 * init + 65536 * added
  | None => lim
  end.
Proof.
  intros Hl. destruct r as [pl|]; [|tauto]. intros (H1 & H2 & -> & ->). rewrite Hl.
  split; [lia|]. split; [done|lia].
Qed.

(** The heap is placed exactly when there is room for it. *)
Lemma insert_app_heap_spec :
  match insert_app_heap module npp init max hs with
  | Some pl => ~ refused module npp init max hs /\ placement_ok module npp init hs pl /\
      pl_bytes_per_page pl * pl_init_page_count pl = npp * init + room module npp init max hs
  | None => refused module npp init max hs
  end.
Proof.
  unfold insert_app_heap. unfold refused.
  set (hs' := if (0 <? hs) && exports_malloc_free module then 0 else hs).
  assert (hs' = wanted module hs) as Hask.
  { unfold hs', wanted. destruct (Z.ltb_spec 0 hs), (exports_malloc_free module); cbn [andb]; lia. }
  assert (0 <= hs' <= hs /\ (hs' = 0 \/ hs' = hs /\ exports_malloc_free module = false)) as [Hle Hexp].
  { rewrite Hask. unfold wanted. destruct (exports_malloc_free module); lia || (split; [lia|by right]). }
  clearbody hs'. unfold room. rewrite <- Hask.
  unfold MAX_LINEAR_MEMORY_SIZE, BH_GB, pages_ok, DEFAULT_MAX_PAGES in *.
  assert (asked module hs hs') as Hask' by (by left).
  pose proof Hhs as Hhs'. unfold APP_HEAP_SIZE_MAX in Hhs'.
  destruct ((0 <? hs') && (npp * init =? 4 * (1024 * 1024 * 1024))) eqn:Hfull.
  { apply andb_true_iff in Hfull as [H1%Z.ltb_lt H2%Z.eqb_eq]. split; [done|by left]. }
  assert (hs' = 0 \/ npp * init <> 4 * (1024 * 1024 * 1024)) as Hnf.
  { destruct (Z.ltb_spec 0 hs'), (Z.eqb_spec (npp * init) (4 * (1024 * 1024 * 1024))); try done; lia. }
  destruct ((init =? max) && (init =? 1)) eqn:Hone.
  - apply andb_true_iff in Hone as [H1%Z.eqb_eq H2%Z.eqb_eq]. rewrite <- H1, H2, Z.mul_1_r.
    change ((1 =? 1) && ((1 =? 0) || (1 =? 1))) with true. cbv iota.
    assert (0 < npp < 2 ^ 32) as Hn by (destruct Hpages; lia).
    pose proof (insert_one_page hs' Hn ltac:(unfold APP_HEAP_SIZE_MAX; lia) Hask') as Hins.
    destruct (wrap32 (npp + hs') <? hs'); [lia|]. destruct Hins as (Hlt & Hpl & Hsz).
    split; [lia|]. split; [exact Hpl|]. destruct (Z.eqb_spec hs' 0); lia.
  - assert (npp = 65536 /\ 0 <= init <= max /\ max <= 65536) as (Hn & Hi & Hm).
    { destruct Hpages as [?|(_ & -> & ->)]; done. }
    destruct (Z.ltb_spec 0 hs') as [Hpos|Hz]; last first.
    { split; [lia|]. assert (hs' = 0) as -> by lia. split; [|by rewrite Z.eqb_refl, Z.add_0_r].
      split; cbn [pl_bytes_per_page pl_init_page_count pl_max_page_count pl_heap_offset pl_heap_size
        pl_heap_base]; unfold DEFAULT_MAX_PAGES, MAX_LINEAR_MEMORY_SIZE, BH_GB, APP_HEAP_SIZE_MAX;
        try lia; try done. }
    destruct (Z.eqb_spec hs' 0); [lia|]. destruct Hexp as [|[Ehs Hexp]]; [lia|].
    destruct (Z.eqb_spec init max) as [Heq|_]; [destruct (Z.eqb_spec init 0) as [H0|_]|].
    { assert (max = 0) as -> by lia. rewrite H0. cbn. split; [lia|].
      split; [apply one_page; unfold APP_HEAP_SIZE_MAX; try done; lia|].
      cbn [pl_bytes_per_page pl_init_page_count]. change (wrap32 (0 + 1)) with 1. lia. }
    all: cbn [andb orb] in Hone |- *; rewrite ?Hone.
    all: pose proof (insert_pages ltac:(lia) Hm ltac:(lia) Hexp) as Hins; cbv zeta in Hins |- *.
    all: unfold DEFAULT_MAX_PAGES in Hins; rewrite Hn, Ehs in *.
    all: destruct (aux_heap_base module) as [base|]; [destruct (base <? 65536 * init)|].
    all: revert Hins; apply room_exact; lia.
Qed.
End placing.

(** ** Instantiation *)

Section instantiation.
Context `{T : TEE} `{P : Platform} `{Sys : !TEE_System T}.
Context `{Pg : !Pages} `{Mp : !Mappings} `{Ar : !MapArea}.
Context (H64 : sizeof_size_t = 8%nat) (Hpage : (PAGE_SIZE | 65536)).
Implicit Types w : world tee WASMModuleInstance.

Abbreviation W := (world tee WASMModuleInstance).

Lemma page_size_small : 0 < PAGE_SIZE <= 65536.
Proof. split; [apply page_size_pos|]. apply Z.divide_pos_le; [lia|done]. Qed.

Lemma align_page_align n : align_as_and_cast n PAGE_SIZE = page_align n.
Proof. unfold align_as_and_cast, page_align, wrap_u64, wrap_size. by rewrite H64. Qed.

Lemma page_align_memory n :
  0 <= n <= MAX_LINEAR_MEMORY_SIZE -> n <= page_align n <= MAX_LINEAR_MEMORY_SIZE.
Proof.
  unfold MAX_LINEAR_MEMORY_SIZE, BH_GB. intros Hn. pose proof page_size_small.
  destruct (page_align_rounds_up n) as [[q Hq] Hr]; [lia|rewrite H64; lia|]. split; [lia|].
  destruct Hpage as [j Hj]. assert (q <= 65536 * j); nia.
Qed.

(** The mapping of a new memory of [n] bytes. *)
Definition fresh_mapping (n data size : Z) (w w' : W) : Prop :=
  if n =? 0 then data = 0 /\ size = 0 /\ w' = w
  else maps (w_tee w) !! data = None /\ maps (w_tee w') = <[data := size]> (maps (w_tee w)) /\
    w_ctx w' = cleared data size (w_ctx w) /\
    map_low <= data /\ data + size <= map_high /\ data mod 8 = 0.

Lemma allocate_spec npp init w :
  0 < npp < 2 ^ 32 -> 0 <= init <= DEFAULT_MAX_PAGES -> npp * init <= MAX_LINEAR_MEMORY_SIZE ->
  wp only_panic (wasm_allocate_linear_memory 0 npp init) (fun r w' =>
    match r with
    | Some (data, size) => size = page_align (npp * init) /\ fresh_mapping (npp * init) data size w w'
    | None => maps (w_tee w') = maps (w_tee w)
    end) w.
Proof.
  unfold MAX_LINEAR_MEMORY_SIZE, BH_GB, DEFAULT_MAX_PAGES. intros Hn Hi Hb.
  unfold wasm_allocate_linear_memory. rewrite align_page_align, (Z.mul_comm init npp). unfold wrap_u64.
  rewrite !Z.mod_small by nia. unfold fresh_mapping. pose proof page_size_small.
  destruct (Z.ltb_spec 0 (npp * init)) as [Hpos|Hz].
  - destruct (Z.eqb_spec (npp * init) 0); [lia|].
    apply wp_bind. eapply wp_mono; [by apply mmap_spec|]. cbv beta. intros r w' Hr. apply wp_ret.
    destruct (Z.eqb_spec r 0); [by destruct Hr|]. done.
  - apply wp_ret. assert (npp * init = 0) as -> by nia. split; [done|].
    split; [done|]. split; [|done]. rewrite page_align_multiple; [done|lia..|by exists 0].
Qed.

(** What [memories_instantiate] leaves behind: a memory with the invariant that
    is zero outside of the heap, or nothing. *)
Definition instantiate_result (module : WASMModule) (hs : Z) (w : W) (ok : bool) (w' : W) : Prop :=
  if ok then
    exists m cs, linear_ok w' m cs /\ (no_app_heap m \/ large_only cs) /\
      mem_bytes_per_page module * mem_init_page_count module <= memory_data_size m /\
      asked module hs (heap_data_end m - heap_data m) /\
      other_maps (w_tee w') m = maps (w_tee w) /\
      forall x, 0 <= x < memory_data_size m ->
        ~ heap_data m <= memory_data m + x < heap_data_end m ->
        mem (app_heap (w_ctx w')) (memory_data m + x) = Byte.x00
  else memories (w_ctx w') = None /\ maps (w_tee w') = maps (w_tee w).

(** The structure of the heap is outside of all mappings. *)
Definition handle_ok (handle : Z) : Prop :=
  handle = 0 \/ 0 < handle /\ (handle + sizeof_gc_heap 8 <= map_low \/ map_high <= handle).

(** The heap in a new mapping. *)
Lemma create_heap handle data off s n size h :
  map_low <= data -> data + size <= map_high -> 0 <= off -> off + s <= n -> n <= size ->
  0 < s <= APP_HEAP_SIZE_MAX ->
  0 < handle -> handle + sizeof_gc_heap 8 <= map_low \/ map_high <= handle -> (forall x, data <= x < data + size -> h x = Byte.x00) ->
  match mem_allocator_create_with_struct_and_pool 8 handle (mem_allocator_get_heap_struct_size 8)
          (data + off) s h with
  | None => True
  | Some (_, h') => exists c, heap_inv h' [c] /\ HMU_FC_NORMAL_MAX_SIZE <= c_size c /\
      base_addr h' = data + off + GC_HEAD_PADDING /\
      current_size h' + GC_HEAD_PADDING <= s /\
      (kfc_tree_root h' < map_low \/ map_high <= kfc_tree_root h') /\
      forall x, data <= x < data + size -> ~ data + off <= x < data + off + s -> mem h' x = Byte.x00
  end.
Proof.
  intros Hd Hdh Ho Hs Hn Hsz Hh Hst Hz. pose proof map_bounds as [Hpos _].
  unfold mem_allocator_create_with_struct_and_pool, mem_allocator_get_heap_struct_size,
    gc_get_heap_struct_size. unfold APP_HEAP_SIZE_MAX in Hsz.
  destruct (gc_init_with_struct_and_pool 8 _ _ _ _ _) as [[a h']|] eqn:Hrun; [|done].
  pose proof Hrun as Hrun'. unfold gc_init_with_struct_and_pool in Hrun'. rewrite !land_7 in Hrun'.
  destruct (Z.eqb_spec (handle mod 8) 0); [|done].
  destruct (Z.ltb_spec (sizeof_gc_heap 8) 8); [done|].
  destruct (Z.eqb_spec ((data + off) mod 8) 0); [|done].
  destruct (Z.ltb_spec s APP_HEAP_SIZE_MIN); [done|]. clear Hrun'.
  destruct (gc_init_with_struct_and_pool_inv 8 (or_intror eq_refl) handle (sizeof_gc_heap 8) (data + off) s h)
    as (h1 & Hrun1 & Hinv & Hb & Hr & Hc & He & Hag); try done; try lia.
  rewrite Hrun in Hrun1. injection Hrun1 as -> ->.
  exists (Chunk (current_size h1) true). split; [done|]. split; [done|]. split; [done|].
  split; [unfold GC_HEAD_PADDING in *; lia|]. split.
  { rewrite Hr. pose proof (sizeof_bounds 8 (or_intror eq_refl)). lia. }
  intros x Hx Hout. rewrite <- (Hz x Hx). destruct (Z.lt_ge_cases x (data + off)).
  - apply (Hag data (data + off)); lia.
  - apply (Hag (data + off + s) (data + size)); lia.
Qed.

(** The memory of a placement at a mapping. *)
Definition placed (pl : placement) (data size handle : Z) (bounds : list Z) : WASMMemoryInstance :=
  MemoryInstance (pl_bytes_per_page pl) (pl_init_page_count pl) (pl_max_page_count pl) size data
    (data + size) (data + pl_heap_offset pl) (data + pl_heap_offset pl + pl_heap_size pl) handle bounds.

(** Releasing a new memory. *)
Lemma release_spec pl data size handle bounds w w1 :
  0 < pl_bytes_per_page pl * pl_init_page_count pl <= MAX_LINEAR_MEMORY_SIZE ->
  size = page_align (pl_bytes_per_page pl * pl_init_page_count pl) ->
  fresh_mapping (pl_bytes_per_page pl * pl_init_page_count pl) data size w w1 ->
  wp only_panic
    ((if negb (data =? 0) then _ ← wasm_deallocate_linear_memory (placed pl data size handle bounds); mret tt
      else mret tt);; mret None)
    (fun (r : option WASMMemoryInstance) w' => r = None /\ maps (w_tee w') = maps (w_tee w)) w1.
Proof.
  unfold MAX_LINEAR_MEMORY_SIZE, BH_GB, fresh_mapping. intros Hn Hs Hf. pose proof map_bounds.
  destruct (Z.eqb_spec (pl_bytes_per_page pl * pl_init_page_count pl) 0); [lia|].
  destruct Hf as (Hfresh & Hm & _ & Hlow & _). destruct (Z.eqb_spec data 0); [lia|]. cbn [negb].
  apply wp_bind, wp_bind. unfold wasm_deallocate_linear_memory, placed, wasm_munmap_linear_memory.
  cbn [num_bytes_per_page cur_page_count memory_data memory_data_size].
  unfold wrap_u64. rewrite Z.mod_small by lia.
  apply wp_bind. eapply wp_mono; [apply wp_os_munmap; rewrite Hm, <- Hs; apply lookup_insert_eq|].
  intros _ w' [Hm' _]. do 3 apply wp_ret. split; [done|]. by rewrite Hm', Hm, delete_insert_id.
Qed.

Lemma placed_ok module npp init hs pl data size handle bounds w w1 :
  placement_ok module npp init hs pl -> size = page_align (pl_bytes_per_page pl * pl_init_page_count pl) ->
  fresh_mapping (pl_bytes_per_page pl * pl_init_page_count pl) data size w w1 ->
  memory_ok (placed pl data size handle bounds) /\
  (mapped (w_tee w1) (placed pl data size handle bounds)) /\
  (pl_init_page_count pl = pl_max_page_count pl \/ (PAGE_SIZE | pl_bytes_per_page pl) /\
    size = pl_bytes_per_page pl * pl_init_page_count pl).
Proof.
  intros [Hp Hc Hb Hg Hk Hi Hs _ _] -> Hf. pose proof page_size_small. pose proof map_bounds.
  set (n := pl_bytes_per_page pl * pl_init_page_count pl) in *.
  assert (0 <= n <= MAX_LINEAR_MEMORY_SIZE) as Hn by (unfold n; nia).
  pose proof (page_align_memory n Hn). unfold fresh_mapping in Hf.
  unfold MAX_LINEAR_MEMORY_SIZE, BH_GB, DEFAULT_MAX_PAGES in *.
  assert (0 <= data /\ data + page_align n < 2 ^ 64) as Hplace.
  { destruct (Z.eqb_spec n 0); [|lia]. destruct Hf as (-> & Hz & _). rewrite Hz. lia. }
  split; [|split].
  - split; simpl; unfold MAX_LINEAR_MEMORY_SIZE, BH_GB; try done; fold n; lia.
  - unfold mapped, placed. simpl. destruct (Z.eqb_spec n 0).
    + left. destruct Hf as (-> & -> & _). done.
    + right. destruct Hf as (_ & -> & _ & Hlow & Hhigh & H8). rewrite lookup_insert_eq. done.
  - destruct Hg as [Hg|Hg]; [by left|]. right. rewrite Hg. split; [done|].
    rewrite page_align_multiple; [done|lia..|]. unfold n. rewrite Hg. by apply Z.divide_mul_l.
Qed.

(** A new mapping is zero. *)
Lemma fresh_zero n data size w w1 :
  fresh_mapping n data size w w1 -> n = 0 \/
  forall x, data <= x < data + size -> mem (app_heap (w_ctx w1)) x = Byte.x00.
Proof.
  unfold fresh_mapping. destruct (Z.eqb_spec n 0); [by left|]. intros (_ & _ & -> & _). right.
  intros x Hx. simpl. unfold memset. by destruct (within_spec data size x).
Qed.

Section module.
Context (module : WASMModule) (max hs handle : Z).
Context (Hpages : pages_ok (mem_bytes_per_page module) (mem_init_page_count module) max).
Context (Hbase : forall b, aux_heap_base module = Some b -> 0 <= b).
Context (Hhs : 0 <= hs <= APP_HEAP_SIZE_MAX) (Hhandle : handle_ok handle).

Abbreviation npp := (mem_bytes_per_page module).
Abbreviation init := (mem_init_page_count module).

(** What the heap of a placement, if any, has to be at the end. *)
Definition heap_placed (pl : placement) (data size : Z) (i : WASMModuleInstance) : Prop :=
  (pl_heap_size pl = 0 \/ exists c, app_heap_at (app_heap i) (placed pl data size 0 []) [c] /\
    HMU_FC_NORMAL_MAX_SIZE <= c_size c) /\
  forall x, data <= x < data + size ->
    ~ data + pl_heap_offset pl <= x < data + pl_heap_offset pl + pl_heap_size pl ->
    mem (app_heap i) x = Byte.x00.

Lemma instantiated pl data size w w0 w1 t2 i2 hd bounds :
  placement_ok module npp init hs pl -> size = page_align (pl_bytes_per_page pl * pl_init_page_count pl) ->
  fresh_mapping (pl_bytes_per_page pl * pl_init_page_count pl) data size w0 w1 ->
  w_tee w0 = w_tee w -> t2 = w_tee w1 -> heap_placed pl data size i2 -> (hd = 0 <-> pl_heap_size pl = 0) ->
  instantiate_result module hs w true
    (World t2 (set_memories (Some (placed pl data size hd bounds)) i2)).
Proof.
  intros Hpl Hsz Hf Hw0 Ht [Hh Hz] Hhd.
  destruct (placed_ok _ _ _ _ _ _ _ hd bounds _ _ Hpl Hsz Hf) as (Hok & Hmap & Hpg).
  pose proof Hpl as [Hp Hc Hb Hg Hk Hi Hs Hask Hap].
  exists (placed pl data size hd bounds).
  assert (npp * init <= size) as Hsize.
  { rewrite Hsz. pose proof (page_align_memory (pl_bytes_per_page pl * pl_init_page_count pl)). nia. }
  assert (forall cs, no_app_heap (placed pl data size hd bounds) \/ app_heap_at (app_heap i2)
    (placed pl data size hd bounds) cs -> linear_ok
    (World t2 (set_memories (Some (placed pl data size hd bounds)) i2)) (placed pl data size hd bounds) cs)
    as Hlin.
  { intros cs Hcs; split; simpl; try done; [by rewrite Ht|]. rewrite Hhd. unfold no_app_heap. simpl. lia. }
  assert (asked module hs (data + pl_heap_offset pl + pl_heap_size pl - (data + pl_heap_offset pl)))
    as Hask' by (by replace (_ - _) with (pl_heap_size pl) by lia).
  assert (other_maps t2 (placed pl data size hd bounds) = maps (w_tee w)) as Hmaps.
  { pose proof map_bounds. unfold other_maps, fresh_mapping in *. simpl. rewrite Ht, <- Hw0.
    destruct (_ * _ =? 0).
    - by destruct Hf as (-> & _ & ->).
    - destruct Hf as (Hfresh & -> & _ & Hlow & _). destruct (Z.eqb_spec data 0); [lia|].
      by apply delete_insert_id. }
  assert (forall x, 0 <= x < size -> ~ data + pl_heap_offset pl <= data + x <
    data + pl_heap_offset pl + pl_heap_size pl -> mem (app_heap i2) (data + x) = Byte.x00) as Hzero
    by (intros x Hx; apply Hz; lia).
  destruct Hh as [H0|(c & [H1 H2 H3 H4] & Hc0)].
  - assert (no_app_heap (placed pl data size hd bounds)) by (unfold no_app_heap; simpl; lia).
    exists []. split; [by apply Hlin; left|]. split; [by left|done].
  - exists [c]. split; [by apply Hlin; right|]. split; [|done]. right. by constructor.
Qed.

Lemma memory_instantiate_spec w :
  wp only_panic (memory_instantiate module npp init max hs handle)
    (fun r w1 => match r with
     | Some m => instantiate_result module hs w true (World (w_tee w1) (set_memories (Some m) (w_ctx w1)))
     | None => maps (w_tee w1) = maps (w_tee w)
     end) w.
Proof.
  unfold memory_instantiate.
  pose proof (insert_app_heap_spec module npp init max hs Hpages Hhs Hbase) as Hpl.
  destruct (insert_app_heap _ _ _ _ _) as [pl|]; [|by apply wp_ret]. destruct Hpl as (_ & Hpl & _).
  apply wp_bind. apply wp_mono with (P := fun _ w0 => w_tee w0 = w_tee w).
  { destruct (pl_heap_base pl); [by apply wp_set_ctx|by apply wp_ret]. }
  intros _ w0 Hw0. pose proof Hpl as [Hp Hc Hb Hg Hk Hi Hs Hask Hap].
  assert (0 <= pl_bytes_per_page pl * pl_init_page_count pl <= MAX_LINEAR_MEMORY_SIZE) as Hn by nia.
  apply wp_bind. eapply wp_mono; [apply allocate_spec; [done|lia|lia]|]. cbv beta.
  intros [[data size]|] w1; [|rewrite Hw0; intros Hm; by apply wp_ret]. intros [Hsz Hf].
  pose proof (page_align_memory _ Hn) as Hal. pose proof (fresh_zero _ _ _ _ _ Hf) as Hz.
  assert (pl_bytes_per_page pl * pl_init_page_count pl = 0 -> size = 0) as Hsz0.
  { intros E. unfold fresh_mapping in Hf. rewrite E, Z.eqb_refl in Hf. by destruct Hf as (_ & ? & _). }
  rewrite H64. change (Z.of_nat 8) with 8.
  destruct (Z.ltb_spec 0 (pl_heap_size pl)) as [Hhp|Hno].
  - assert (wp only_panic
      ((if negb (data =? 0) then _ ← wasm_deallocate_linear_memory (placed pl data size 0 []); mret tt
        else mret tt);; mret None)
      (fun r w1 => match r with
       | Some m => instantiate_result module hs w true (World (w_tee w1) (set_memories (Some m) (w_ctx w1)))
       | None => maps (w_tee w1) = maps (w_tee w)
       end) w1) as Hfail.
    { rewrite <- Hw0. eapply wp_mono; [eapply release_spec; [lia|exact Hsz|exact Hf]|].
      by intros r w' [-> Hr]. }
    destruct (Z.eqb_spec handle 0) as [|Hh0]; [exact Hfail|].
    destruct Hhandle as [|[Hh1 Hh2]]; [done|]. destruct Hz as [|Hz]; [lia|].
    pose proof Hf as Hf1. unfold fresh_mapping in Hf1.
    destruct (Z.eqb_spec (pl_bytes_per_page pl * pl_init_page_count pl) 0); [lia|].
    apply wp_bind, wp_ctx.
    pose proof (create_heap handle data (pl_heap_offset pl) (pl_heap_size pl)
      (pl_bytes_per_page pl * pl_init_page_count pl) size (mem (app_heap (w_ctx w1)))) as Hcr.
    destruct (mem_allocator_create_with_struct_and_pool _ _ _ _ _ _) as [[a h]|]; [|exact Hfail].
    destruct Hcr as (c & H1 & H2 & H3 & H4 & H5 & H6); try lia; [done|].
    apply wp_bind, wp_set_ctx. assert (0 < size) as Hpos by lia. apply Z.ltb_lt in Hpos as ->.
    apply wp_ret. apply (instantiated pl data size w w0 w1); try done; [|simpl; lia].
    split; [right; exists c|exact H6]. split; [|done]. unfold APP_HEAP_SIZE_MAX in Hs.
    split; simpl; try done; lia.
  - destruct (Z.ltb_spec 0 size); apply wp_ret; apply (instantiated pl data size w w0 w1); try done; try (simpl; lia).
    all: split; [left; lia|]; intros x Hx _; destruct Hz as [Hz|Hz]; [lia|by apply Hz].
Qed.

Lemma memories_instantiate_spec max_memory_pages w :
  max = wasm_runtime_get_max_mem max_memory_pages init (mem_max_page_count module) ->
  wp only_panic (memories_instantiate module hs max_memory_pages handle) (instantiate_result module hs w) w.
Proof.
  intros Hmax. unfold memories_instantiate. rewrite <- Hmax. apply wp_bind.
  eapply wp_mono; [apply memory_instantiate_spec|]. cbv beta.
  intros [m|] w1 H; apply wp_bind, wp_set_ctx, wp_ret; [exact H|]. by split.
Qed.
End module.

Lemma memories_deinstantiate_spec w m cs :
  linear_ok w m cs ->
  wp only_panic memories_deinstantiate
    (fun _ w' => memories (w_ctx w') = None /\ maps (w_tee w') = other_maps (w_tee w) m) w.
Proof.
  intros Hok. unfold memories_deinstantiate. apply wp_bind, wp_ctx. rewrite (lo_instance _ _ _ Hok).
  apply wp_bind, wp_mono with (P := fun _ w1 => w_tee w1 = w_tee w).
  { destruct (heap_handle m =? 0); [by apply wp_ret|].
    apply wp_bind. eapply wp_heap_call; [done|]. by apply wp_ret. }
  intros _ w1 Hw1. apply wp_bind. simpl (memory_data (set_heap_handle 0 m)). unfold other_maps.
  apply wp_mono with (P := fun _ w2 => maps (w_tee w2) =
    if memory_data m =? 0 then maps (w_tee w) else delete (memory_data m) (maps (w_tee w))).
  { destruct (Z.eqb_spec (memory_data m) 0) as [|Hd]; [apply wp_ret; by rewrite Hw1|]. cbn [negb].
    apply wp_bind. unfold wasm_deallocate_linear_memory, wasm_munmap_linear_memory. simpl.
    pose proof (lo_memory _ _ _ Hok) as [Hp Hc _ Hs _ _ _]. unfold MAX_LINEAR_MEMORY_SIZE, BH_GB in Hs.
    unfold wrap_u64. rewrite Z.mod_small by nia. apply wp_bind.
    eapply wp_mono; [apply wp_os_munmap|].
    - rewrite Hw1, <- (lo_size _ _ _ Hok). destruct (lo_mapped _ _ _ Hok) as [[? _]|(_ & _ & _ & ?)]; done.
    - intros _ w2 [Hm _]. do 2 apply wp_ret. by rewrite Hm, Hw1. }
  intros _ w2 Hm. apply wp_set_ctx. by split.
Qed.

(** ** Theorems *)

(** A module as the loader hands it over: pages of 64 KB and at most 65536 of
    them, or a single page of another size. *)
Definition module_ok (module : WASMModule) (max_memory_pages : Z) : Prop :=
  pages_ok (mem_bytes_per_page module) (mem_init_page_count module)
    (wasm_runtime_get_max_mem max_memory_pages (mem_init_page_count module) (mem_max_page_count module)) /\
  forall b, aux_heap_base module = Some b -> 0 <= b.

(** C25: [insert_app_heap] finds a place for a heap of up to 1 GB exactly when
    there is room ([refused]): it fails if and only if a heap is wanted and the
    memory has 4 GB without it, or a memory of one page would reach 4 GB with
    the heap, or the pages of the memory and those added for the heap are more
    than 65536. When it succeeds, the memory grows by exactly the bytes [room]
    says and stays within 4 GB and its page limit; the heap is inside of
    it, has the size that was asked for, or that of its new pages less 1 KB,
    and overlaps nothing of the module: it lies behind the memory of the module,
    or between its data and its own heap, whose start is moved behind it and
    stays inside of the memory. *)
Theorem insert_app_heap_fits module max_memory_pages hs :
  module_ok module max_memory_pages -> 0 <= hs <= APP_HEAP_SIZE_MAX ->
  let npp := mem_bytes_per_page module in
  let init := mem_init_page_count module in
  let max := wasm_runtime_get_max_mem max_memory_pages init (mem_max_page_count module) in
  match insert_app_heap module npp init max hs with
  | Some pl => ~ refused module npp init max hs /\ placement_ok module npp init hs pl /\
      pl_bytes_per_page pl * pl_init_page_count pl = npp * init + room module npp init max hs
  | None => refused module npp init max hs
  end.
Proof. intros [Hp Hb] Hhs. by apply insert_app_heap_spec. Qed.

(** C23: Instantiating the memory of a module and releasing it. [memories_instantiate]
    either fails and leaves no memory and no mapping behind, on each of its error
    paths, or the module has a memory that satisfies the invariant: one mapping
    of its size, at least the pages of the module, within 4 GB, zero everywhere
    but in the heap, with a heap ready for use that has the size that was asked
    for or, on pages added for it, those pages less 1 KB; a module that exports
    its own [malloc] and [free] gets none. The structure of the heap, which
    [runtime_malloc] gives, is outside of the area of the mappings.
    [memories_deinstantiate] of it gives back its mapping and no other. *)
Theorem memory_instantiate_release module max_memory_pages hs handle w :
  module_ok module max_memory_pages -> 0 <= hs <= APP_HEAP_SIZE_MAX -> handle_ok handle ->
  wp only_panic (memories_instantiate module hs max_memory_pages handle)
    (fun ok w1 => instantiate_result module hs w ok w1 /\
      (ok = true -> wp only_panic memories_deinstantiate
        (fun _ w2 => memories (w_ctx w2) = None /\ maps (w_tee w2) = maps (w_tee w)) w1)) w.
Proof.
  intros [Hp Hb] Hhs Hhd. eapply wp_mono; [by apply (memories_instantiate_spec module _ hs handle Hp Hb)|].
  intros ok w1 Hr. split; [done|]. intros ->. destruct Hr as (m & cs & Hok & _ & _ & _ & Hm & _).
  eapply wp_mono; [by eapply memories_deinstantiate_spec|]. intros _ w2 [H1 H2]. split; [done|congruence].
Qed.
End instantiation.
