(* ===== verification/LinearHeap.v ===== *)
(** * The heap of the application

    [wasm_module_malloc] and [wasm_module_free] on the heap inside of linear
    memory: composition of the allocator with the memory it lives in. *)

From S2P Require Import Prelude TeeApi Layout TzPlatform TzSpec Memory Ems EmsTree EmsFree EmsSpec.
From S2P Require Import EmsHeap EmsClient EmsMigrate LinearMemory LinearSpec LinearGrow.

Section app_heap.
Context `{T : TEE} `{P : Platform} `{Sys : !TEE_System T}.
Context `{Pg : !Pages} `{Mp : !Mappings} `{Ar : !MapArea}.
Context (H64 : sizeof_size_t = 8%nat).
Implicit Types w : world tee WASMModuleInstance.

Abbreviation W := (world tee WASMModuleInstance).

(** A call of the heap, by what the allocator promises. *)
Lemma wp_heap {A} E (c : M gc_heap A) (R : A -> gc_heap -> Prop) (Q : A -> W -> Prop) w :
  wp no_fault c R (app_heap (w_ctx w)) ->
  (forall a h, R a h -> Q a (World (w_tee w) (set_app_heap h (w_ctx w)))) -> wp E (heap_call c) Q w.
Proof.
  intros Hc HQ. apply wp_total in Hc as (a & h & Hrun & HR). eapply wp_heap_call; [exact Hrun|by apply HQ].
Qed.

Lemma set_app_heap_same w : World (w_tee w) (set_app_heap (app_heap (w_ctx w)) (w_ctx w)) = w.
Proof. by destruct w as [? []]. Qed.

(** The heap of a memory that has one. *)
Lemma handle_heap w m cs :
  linear_ok w m cs -> heap_handle m <> 0 -> app_heap_at (app_heap (w_ctx w)) m cs.
Proof.
  intros Hok Hh. destruct (lo_heap _ _ _ Hok) as [Hno|]; [|done]. by apply (lo_handle _ _ _ Hok) in Hno.
Qed.

(** An operation of the allocator that keeps its promises keeps the memory. *)
Lemma linear_ok_heap w m cs h' cs' us :
  linear_ok w m cs -> heap_handle m <> 0 -> heap_inv h' cs' ->
  base_addr h' = base_addr (app_heap (w_ctx w)) ->
  current_size h' = current_size (app_heap (w_ctx w)) ->
  objects_kept (app_heap (w_ctx w)) h' us ->
  linear_ok (World (w_tee w) (set_app_heap h' (w_ctx w))) m cs'.
Proof.
  intros Hok Hh Hinv Hb Hc [_ _ Hr]. pose proof (handle_heap _ _ _ Hok Hh) as [Hi Hba Hsz Hro].
  destruct Hok as [H1 H2 H3 H4 H5 H6 H7]. split; try done. right. split; simpl; [done|lia..|congruence].
Qed.

(** A chunk of the heap lies in the memory. *)
Lemma used_inside w m cs p s :
  linear_ok w m cs -> heap_handle m <> 0 -> (p, s) ∈ useds (base_addr (app_heap (w_ctx w))) cs ->
  heap_data m < hmu_to_obj p /\ p + s <= heap_data_end m /\ 16 <= s.
Proof.
  intros Hok Hh Hp. pose proof (handle_heap _ _ _ Hok Hh) as [Hi Hba Hsz _].
  apply pieces_bounds in Hp as (H1 & H2 & H3 & _); [|by eapply chunks_at_sizes, ho_chunks].
  rewrite (ho_total _ _ _ Hi) in H2. change GC_SMALLEST_SIZE with 16 in H3.
  unfold hmu_to_obj, HMU_SIZE, GC_HEAD_PADDING in *. lia.
Qed.

(** The bytes of the memory that are not in the heap. *)
Definition data_kept (m : WASMMemoryInstance) (w w' : W) : Prop :=
  forall x, memory_data m <= x < memory_data_end m -> ~ heap_data m <= x < heap_data_end m ->
    mem (app_heap (w_ctx w')) x = mem (app_heap (w_ctx w)) x.

Lemma data_kept_heap w m cs h' us :
  linear_ok w m cs -> heap_handle m <> 0 -> objects_kept (app_heap (w_ctx w)) h' us ->
  data_kept m w (World (w_tee w) (set_app_heap h' (w_ctx w))).
Proof.
  intros Hok Hh [_ Ho _] x Hx Hout. pose proof (handle_heap _ _ _ Hok Hh) as [Hi Hba Hsz _].
  apply Ho. unfold GC_HEAD_PADDING in *. lia.
Qed.

Section calls.
Context (execute_malloc : option (Z -> M W (option Z))) (execute_free : option (Z -> M W ())).
Context (w : W) (m : WASMMemoryInstance) (cs : list chunk).
Context (Hok : linear_ok w m cs) (Hh : heap_handle m <> 0).

Abbreviation base := (base_addr (app_heap (w_ctx w))).

(** What [wasm_module_malloc] answers: 0 and no change when no free chunk is
    large enough, or the offset of a new object. *)
Definition module_malloc_result (size r : Z) (w' : W) : Prop :=
  r = 0 /\ w' = w /\
    (2 ^ 32 <= size + 11 \/ Forall (fun e => e.2 < request size) (frees base cs)) \/
  exists t cs', 0 < r /\ r mod 8 = 0 /\ linear_ok w' m cs' /\ w_tee w' = w_tee w /\
    heap_data m < memory_data m + r /\ memory_data m + r + size <= heap_data_end m /\
    useds base cs' ≡ₚ (obj_to_hmu (memory_data m + r), t) :: useds base cs /\
    objects_kept (app_heap (w_ctx w)) (app_heap (w_ctx w')) (useds base cs) /\ data_kept m w w'.

Lemma module_malloc_spec size :
  0 <= size < 2 ^ 32 ->
  wp no_fault (wasm_module_malloc execute_malloc execute_free size) (module_malloc_result size) w.
Proof.
  intros Hs. unfold wasm_module_malloc, wasm_module_malloc_internal, wasm_get_default_memory.
  apply wp_bind, wp_bind, wp_ctx, wp_ret. rewrite (lo_instance _ _ _ Hok).
  pose proof (handle_heap _ _ _ Hok Hh) as [Hi Hba Hsz Hro].
  destruct (Z.eqb_spec (heap_handle m) 0) as [|_]; [done|]. cbn [negb].
  assert (wrap32 size = size) as -> by (by apply Z.mod_small).
  apply wp_bind, wp_bind. eapply wp_heap; [by apply (gc_alloc_vo_spec _ cs)|].
  pose proof (request_room size ltac:(lia)) as Hroom. pose proof (lo_memory _ _ _ Hok) as Hm.
  assert (2 ^ 32 <= size + 11 \/ Forall (fun e => e.2 < request size) (frees base cs) ->
    wp no_fault (addr ← mret (Some 0); match addr with
      | Some addr => memory ← (i ← ctx; mret (memories i)); m0 ← get_some memory;
          if addr =? 0 then
            corrupted ← (if negb (heap_handle m0 =? 0) then heap_call mem_allocator_is_heap_corrupted
                         else mret false);
            (if corrupted : bool then wasm_set_exception app_heap_corrupted else mret tt);; mret 0
          else mret (addr - memory_data m0)
      | None => mret 0 end) (module_malloc_result size) w) as Hnone.
  { intros Hno. apply wp_bind, wp_ret, wp_bind, wp_bind, wp_ctx, wp_ret. rewrite (lo_instance _ _ _ Hok).
    apply wp_bind. cbn [get_some]. apply wp_ret. cbn [Z.eqb].
    destruct (Z.eqb_spec (heap_handle m) 0) as [|_]; [done|]. cbn [negb].
    apply wp_bind. eapply wp_heap_call; [done|]. rewrite set_app_heap_same.
    unfold mem_allocator_is_heap_corrupted, gc_is_heap_corrupted. rewrite (ho_sound _ _ _ Hi).
    apply wp_bind, wp_ret, wp_ret. by left. }
  intros r h' Hr. destruct Hr as [Hov|Hfit Hno|r cs1 s1 cs2 t h' cs' _ _ _ _ _ Hfit Hr0 Hr8 Ht Hinv Hb Hc Hus Hfb Hkept Hz];
    [rewrite set_app_heap_same; apply Hnone; by left|rewrite set_app_heap_same; apply Hnone; by right|].
  pose proof (linear_ok_heap _ _ _ _ _ _ Hok Hh Hinv Hb Hc Hkept) as Hok'.
  assert ((obj_to_hmu r, t) ∈ useds (base_addr h') cs') as Hin by (rewrite Hb, Hus; by left).
  destruct (used_inside _ _ _ _ _ Hok' Hh Hin) as (U1 & U2 & _). rewrite obj_hmu in U1.
  apply wp_ret, wp_bind, wp_bind, wp_ctx, wp_ret. cbn [w_ctx set_app_heap memories].
  rewrite (lo_instance _ _ _ Hok). apply wp_bind. cbn [get_some]. apply wp_ret.
  destruct (Z.eqb_spec r 0); [done|]. apply wp_ret. right. exists t, cs'.
  replace (memory_data m + (r - memory_data m)) with r by lia.
  pose proof (mo_heap _ Hm) as [Hh1 _]. split; [lia|]. split.
  { destruct (lo_mapped _ _ _ Hok) as [[Hd _]|(_ & _ & Hd & _)]; [by rewrite Hd, Z.sub_0_r|].
    by rewrite Zminus_mod, Hr8, Hd. }
  split; [exact Hok'|]. split; [done|]. split; [lia|].
  split; [unfold obj_to_hmu, HMU_SIZE in U2; lia|]. split; [done|]. split; [done|].
  by eapply data_kept_heap.
Qed.

(** The object of a chunk in use is freed by its offset. *)
Definition module_free_result (p s : Z) (w' : W) : Prop :=
  exists cs', linear_ok w' m cs' /\ w_tee w' = w_tee w /\
    useds base cs ≡ₚ (p, s) :: useds base cs' /\
    objects_kept (app_heap (w_ctx w)) (app_heap (w_ctx w')) (useds base cs') /\ data_kept m w w'.

Lemma module_free_spec p s :
  (p, s) ∈ useds base cs ->
  wp no_fault (wasm_module_free execute_malloc execute_free (hmu_to_obj p - memory_data m))
    (fun _ => module_free_result p s) w.
Proof.
  intros Hp. destruct (used_inside _ _ _ _ _ Hok Hh Hp) as (U1 & U2 & U3).
  pose proof (handle_heap _ _ _ Hok Hh) as [Hi Hba Hsz Hro]. pose proof (lo_memory _ _ _ Hok) as Hm.
  pose proof (mo_heap _ Hm) as [Hh1 Hh2]. pose proof (mo_end _ Hm) as He.
  pose proof (mo_size _ Hm) as [_ Hs]. unfold MAX_LINEAR_MEMORY_SIZE, BH_GB in Hs.
  unfold wasm_module_free, wasm_module_free_internal, wasm_get_default_memory.
  apply wp_bind, wp_bind, wp_ctx, wp_ret. rewrite (lo_instance _ _ _ Hok).
  set (ptr := hmu_to_obj p - memory_data m).
  assert (memory_data m + wrap32 ptr = hmu_to_obj p) as ->.
  { unfold wrap32. rewrite Z.mod_small; unfold ptr, hmu_to_obj, HMU_SIZE in *; lia. }
  destruct (Z.eqb_spec ptr 0); [unfold ptr in *; lia|].
  destruct (Z.eqb_spec (heap_handle m) 0) as [|_]; [done|].
  destruct (Z.leb_spec (heap_data m) (hmu_to_obj p)); [|lia].
  destruct (Z.ltb_spec (hmu_to_obj p) (heap_data_end m)); [|unfold hmu_to_obj, HMU_SIZE in *; lia].
  cbn [negb andb]. unfold mem_allocator_free.
  destruct (Z.eqb_spec (hmu_to_obj p) 0) as [E|_]; [destruct (mo_place _ Hm); lia|].
  eapply (wp_heap _ _ (fun _ h' => exists cs', gc_free_result _ cs p s GC_SUCCESS h' cs')).
  { apply wp_bind. eapply wp_mono; [apply (gc_free_vo_spec _ _ _ _ Hi Hp)|].
    intros r h' (cs' & Hr). pose proof (fr_success _ _ _ _ _ _ _ Hr). subst r. apply wp_ret. by exists cs'. }
  intros _ h' (cs' & [_ Hinv Hb Hc Hus _ Hkept]). exists cs'.
  split; [by eapply linear_ok_heap|]. do 3 (split; [done|]). by eapply data_kept_heap.
Qed.

(** ** Theorems *)

(** C24: The heap of an application inside of its memory, where the memory has
    one ([heap_handle] is set): the calls the runtime makes to a [malloc] and
    [free] the module exports itself are not covered. [wasm_module_malloc]
    answers 0 and changes nothing, which happens only when no free chunk is
    large enough, or the offset of a new object: aligned to eight bytes, inside
    of the heap, apart from the objects in use. The range it answers passes
    [wasm_runtime_validate_app_addr]. [wasm_module_free] of an object in use
    frees exactly this object. Neither changes the bytes of another object or
    of the application's own data, neither faults, and the memory keeps its
    invariant. *)
Theorem app_heap_correct size p s :
  0 <= size < 2 ^ 32 ->
  wp no_fault (wasm_module_malloc execute_malloc execute_free size)
    (fun r w' => module_malloc_result size r w' /\
      (r <> 0 -> wasm_runtime_validate_app_addr r size w' = Ret (true, w'))) w /\
  ((p, s) ∈ useds base cs ->
   wp no_fault (wasm_module_free execute_malloc execute_free (hmu_to_obj p - memory_data m))
     (fun _ => module_free_result p s) w).
Proof.
  intros Hs. split; [|apply module_free_spec].
  eapply wp_mono; [by apply module_malloc_spec|]. intros r w' Hr. split; [done|]. intros Hr0.
  destruct Hr as [(-> & _)|(t & cs' & Hpos & _ & Hok' & _ & _ & Hend & _)]; [done|].
  pose proof (lo_memory _ _ _ Hok') as Hm. pose proof (mo_end _ Hm) as He. pose proof (mo_heap _ Hm).
  pose proof (mo_size _ Hm) as [_ Hmax]. unfold MAX_LINEAR_MEMORY_SIZE, BH_GB in Hmax.
  rewrite (validate_app_addr_spec H64 w' m (lo_instance _ _ _ Hok') Hm r size) by lia.
  by rewrite decide_True by lia.
Qed.
End calls.
End app_heap.
