(* ===== verification/AppSafety.v ===== *)
(** * Applications in their linear memory

    The interpreter composed with the linear memory of [LinearMemory.v]: the
    laws that the interpreter asks of its memory hold of the mappings of the
    trusted operating system, and an application that is instantiated, called
    and released leaves the system with the mappings it had. *)

From S2P Require Import Prelude TeeApi Layout TzPlatform TzSpec Memory Ems EmsSpec LinearMemory LinearSpec LinearGrow LinearInit.
From S2P Require Import Opcode Loader Interp InterpSpec Sound Safety.

Section application.
Context `{T : TEE} `{P : Platform} `{Sys : !TEE_System T}.
Context `{Pg : !Pages} `{Mp : !Mappings} `{Ar : !MapArea}.
Context (H64 : sizeof_size_t = 8%nat) (Hpage : PAGE_SIZE <= 2 ^ 32).
Context (enlarge_memory_error_cb : bool).

Abbreviation W := (world tee WASMModuleInstance).

(** ** The memory of the interpreter *)

(** The bytes after a store at [a]. *)
Definition write_bytes (a : Z) (b : bytes) (m : memory) : memory :=
  fun x => if within a (zlen b) x then default Byte.x00 (b !! Z.to_nat (x - a)) else m x.

#[export] Instance linear_app_memory : AppMemory W := {
  am_memory w := memories (w_ctx w);
  am_bytes w := mem (app_heap (w_ctx w));
  am_write a b w := World (w_tee w)
    (set_app_heap (set_mem (write_bytes a b (mem (app_heap (w_ctx w)))) (app_heap (w_ctx w))) (w_ctx w));
  am_grow delta := memory_grow enlarge_memory_error_cb delta 0
}.

(** The memory is one mapping beside the mappings [others], without a heap in
    it: an application may store anywhere in its memory. *)
Definition linear_inv (others : gmap Z Z) (w : W) : Prop :=
  exists m, linear_ok w m [] /\ no_app_heap m /\ other_maps (w_tee w) m = others.

(** What is asked of native functions. *)
Class NativesKeep `{NF : !Natives W} (module : Loader.WASMModule) (others : gmap Z Z) : Prop :=
  native_keeps w i t args : linear_inv others w -> import_functions module !! i = Some t ->
    length args = param_cell_num t -> cells_ok args ->
    wp only_panic (invoke_native i args) (fun ret w' => linear_inv others w' /\
      forall x y, ret = Some (x, y) -> cell_ok x /\ cell_ok y) w.

Lemma grown_size (w w' : W) m m' cs inc :
  linear_ok w m cs -> linear_ok w' m' cs -> 0 <= inc -> cur_page_count m' = cur_page_count m + inc ->
  num_bytes_per_page m' = num_bytes_per_page m -> max_page_count m' = max_page_count m ->
  memory_data_size m <= memory_data_size m'.
Proof.
  intros H H' Hi Hc Hn Hx. pose proof (mo_page _ (lo_memory _ _ _ H)) as Hp.
  pose proof (mo_count _ (lo_memory _ _ _ H')) as [Hc' _]. pose proof (mo_size _ (lo_memory _ _ _ H')) as Hs.
  destruct (lo_pages _ _ _ H) as [Hmax|[_ Hsz]].
  - assert (inc = 0) as -> by lia. rewrite Z.add_0_r in Hc.
    rewrite (lo_size _ _ _ H), (lo_size _ _ _ H'), Hc, Hn. lia.
  - rewrite Hsz. nia.
Qed.

Context `{NF : !Natives W} (module : Loader.WASMModule) (others : gmap Z Z).
Context `{NK : !NativesKeep module others}.

(** The linear memory keeps the laws of the interpreter, as long as the system
    does not refuse the rights to a mapping that it has enlarged. *)
Lemma linear_env_laws : ~ rights_refused -> EnvLaws module (linear_inv others).
Proof.
  intros Hrights. split.
  - intros w m a b (m0 & Hok & Hno & Ho) Em _. split; [|exact Em]. exists m0. split; [|done].
    destruct Hok as [L1 L2 L3 L4 L5 L6 L7]. split; try done. by left.
  - intros w m delta (m0 & Hok & Hno & Ho) Em Hd. cbn in Em. rewrite (lo_instance _ _ _ Hok) in Em.
    injection Em as ->. eapply wp_mono; [apply memory_grow_spec; [exact H64|exact Hpage|exact Hok|by left]|].
    cbv beta. intros r w' (ok & Hr & _). destruct ok; cbn in Hr.
    + destruct Hr as (m' & Hok' & _ & E1 & E2 & E3 & E4 & E5). split.
      * exists m'. split; [done|]. split; [|by rewrite E5].
        apply (lo_handle _ _ _ Hok'). rewrite E4. by apply (lo_handle _ _ _ Hok).
      * exists m'. split; [apply (lo_instance _ _ _ Hok')|]. eapply grown_size; [exact Hok|exact Hok'| |done..].
        apply Z.mod_pos_bound. lia.
    + destruct Hr as (Em' & [(Hok' & _ & Hmp)|[_ Href]]); [|done]. split; [|by exists m].
      exists m. split; [done|]. split; [done|]. unfold other_maps in *. by rewrite Hmp.
  - intros w i t args Hw Hi Hl Ha. eapply wp_mono; [by eapply native_keeps|]. cbv beta.
    intros ret w' [Hw' Hret]. split; [done|]. split; [|done]. right. destruct Hw' as (m' & Hok' & _).
    exists m'. apply (lo_instance _ _ _ Hok').
Qed.

(** ** Calls from outside *)

Context (ptr_size : Z) (functions : list WASMFunctionInstance).
Context (global_offsets : list nat) (data_segments : list bytes) (table_segs : list (list Z)).
Context (aux_stack_boundary aux_stack_bottom : Z) (source : WASMFunction -> bytes).

Abbreviation ready := (ready module functions global_offsets (linear_inv others) source).
Abbreviation call := (wasm_interp_call_wasm ptr_size (types module) functions global_offsets data_segments table_segs
  aux_stack_boundary aux_stack_bottom).

(** One call after another, until one of them is still running; each argument
    list is the array that takes the results as well. *)
Fixpoint calls (fuel : nat) (l : list (WASMFunction * list Z)) : IM W (option (list (list Z))) :=
  match l with
  | [] => mret (Some [])
  | (f, argv) :: l =>
      r ← call fuel f argv;
      match r with
      | None => mret None
      | Some argv' => rs ← calls fuel l; mret (cons argv' <$> rs)
      end
  end.

(** A function of the module, with cells for its arguments and its results. *)
Definition call_fits (c : WASMFunction * list Z) : Prop :=
  wasm_function (fst c) ∈ functions /\ cells_ok (snd c)
  /\ (ret_cell_num (Interp.func_type (fst c)) <= length (snd c))%nat.

Lemma calls_ok fuel l s :
  ~ rights_refused -> instance_ok module ptr_size functions data_segments table_segs source ->
  Forall call_fits l -> ready s -> wasm_stack_free s < 2 ^ 32 ->
  iwp (calls fuel l) (fun r s2 => forall rs, r = Some rs ->
    length <$> rs = (length ∘ snd) <$> l /\ ready s2 /\ wasm_stack_free s2 = wasm_stack_free s) s.
Proof.
  intros Hrights IO Hl. pose proof (linear_env_laws Hrights) as EL. revert s.
  induction Hl as [|[f argv] l (Hf & Ha & Hn) Hl IH]; intros s Hr Hfree.
  - apply iwp_ret. by intros rs [= <-].
  - cbn [calls fst snd] in *. apply iwp_bind. eapply iwp_mono; [by apply call_ok|]. cbv beta.
    intros [argv'|] s1 Hc; [|by apply iwp_ret].
    destruct (Hc argv' eq_refl) as ((values & -> & Hv & _) & Hr1 & Hf1). apply iwp_bind.
    eapply iwp_mono; [apply IH; [exact Hr1|by rewrite Hf1]|]. cbv beta.
    intros [rs|] s2 Hrs; apply iwp_ret; [|done]. intros ? [= <-].
    destruct (Hrs rs eq_refl) as (H1 & H2 & H3). split; [|split; [done|congruence]]. cbn. rewrite H1. f_equal.
    rewrite length_app, length_drop. cbn in *. lia.
Qed.

(** What instantiation leaves beside the memory: globals, tables, segments and an
    empty cache. *)
Record parts_ok (s : istate W) : Prop := {
  ps_globals : forall i g, all_globals module !! i = Some g ->
    exists off, global_offsets !! i = Some off
      /\ (off + 4 * wasm_value_type_cell_num (val_type g) <= length (global_data s))%nat;
  ps_tables : forall i t, all_tables module !! i = Some t ->
    exists ti, table_insts s !! i = Some ti /\ cells_ok (elems ti);
  ps_data : zlen (data_dropped s) = data_seg_count module;
  ps_elem : length (elem_dropped s) = length (table_segments module);
  ps_cache : block_addr_cache s = ∅
}.

Lemma parts_ready s w : parts_ok s -> linear_inv others w -> ready (set_env w s).
Proof.
  intros [P1 P2 P3 P4 P5] Hw. apply ready_empty; [|exact P5]. split; try done.
  intros _. destruct Hw as (m & Hok & _). exists m. pose proof (lo_instance _ _ _ Hok) as Em.
  split; [exact Em|]. cbn. rewrite Em. lia.
Qed.
End application.

Section life_cycle.
Context `{T : TEE} `{P : Platform} `{Sys : !TEE_System T}.
Context `{Pg : !Pages} `{Mp : !Mappings} `{Ar : !MapArea}.
Context (H64 : sizeof_size_t = 8%nat) (Hpage : (PAGE_SIZE | 65536)).
Abbreviation W := (world tee WASMModuleInstance).
Context (cb : bool) `{NF : !Natives W}.

(** C7: the life of an application. The memory of its module is instantiated
    without a heap (none is asked for, or the module brings its own [malloc]),
    its functions, which the loader has accepted and whose memory indices have
    one byte (the loader does not check this), are called in any order and
    with any arguments, [memory.grow] moves the memory wherever the trusted
    operating system puts it, and at the end the memory is released. Nothing on
    the way is undefined: the only fault is a panic of the system. When all calls
    have returned, releasing the memory leaves the system with exactly the
    mappings it had before. Native functions return at most two cells and keep
    the invariant of the memory, and the system does not refuse rights to a
    mapping it has enlarged: where it does, the memory is lost. *)
Theorem application_life_cycle module ptr_size functions global_offsets data_segments table_segs
    aux_stack_boundary aux_stack_bottom source lm hs max_memory_pages handle fuel l s (w : W) :
  NativesKeep (NF := NF) module (maps (w_tee w)) -> ~ rights_refused ->
  module_ok lm max_memory_pages -> 0 <= hs <= APP_HEAP_SIZE_MAX -> handle_ok handle ->
  hs = 0 \/ exports_malloc_free lm = true ->
  instance_ok module ptr_size functions data_segments table_segs source ->
  parts_ok module global_offsets s -> Forall (call_fits functions) l -> wasm_stack_free s < 2 ^ 32 ->
  wp only_panic (memories_instantiate lm hs max_memory_pages handle) (fun ok w1 => ok = true ->
    match calls cb module ptr_size functions global_offsets data_segments table_segs aux_stack_boundary
            aux_stack_bottom fuel l (set_env w1 s) with
    | Fault e => only_panic e
    | Ret (inr (Some rs), s2) =>
        length <$> rs = (length ∘ snd) <$> l
        /\ wp only_panic memories_deinstantiate (fun _ w2 =>
             memories (w_ctx w2) = None /\ maps (w_tee w2) = maps (w_tee w)) (env s2)
    | Ret _ => True
    end) w.
Proof.
  intros NK Hrights [Hp Hb] Hhs Hhd Hno IO Hs Hl Hfree.
  assert (PAGE_SIZE <= 2 ^ 32) as Hpg by (apply Z.divide_pos_le in Hpage; lia).
  eapply wp_mono; [by apply (memories_instantiate_spec H64 Hpage lm _ hs handle Hp Hb)|]. cbv beta. intros ok w1 Hr ->.
  destruct Hr as (m & cs & Hok & _ & _ & Hask & Hm & _).
  assert (no_app_heap m) as Hnone.
  { unfold asked, wanted, no_app_heap in *. destruct (exports_malloc_free lm); [lia|]. destruct Hno as [->|]; [lia|done]. }
  assert (linear_inv (maps (w_tee w)) w1) as Hinv.
  { exists m. split; [|done]. destruct Hok as [L1 L2 L3 L4 L5 L6 L7]. split; try done. by left. }
  pose proof (calls_ok H64 Hpg cb module (maps (w_tee w)) ptr_size functions global_offsets data_segments table_segs
    aux_stack_boundary aux_stack_bottom source fuel l (set_env w1 s) Hrights IO Hl
    ltac:(by apply parts_ready) Hfree) as Hc.
  unfold iwp in Hc. destruct (calls _ _ _ _ _ _ _ _ _ _ _ _) as [[[e|[rs|]] s2]|]; try done.
  destruct (Hc rs eq_refl) as (H1 & [He _] & _). split; [exact H1|].
  destruct (eo_inv _ _ _ _ He) as (m2 & Hok2 & _ & Ho).
  eapply wp_mono; [by eapply memories_deinstantiate_spec|]. cbv beta. intros _ w2 [H2 H3]. split; [done|].
  by rewrite H3.
Qed.
End life_cycle.
