(* ===== verification/DebugSpec.v ===== *)
(** * Correctness of the debug output

    When the functions [utils_print_byte_array] print the text they mean to
    print, and when they write past the block they format into. *)

From S2P Require Import Prelude TeeApi TeeSpec Layout TeeLogic TzPlatform TzSpec DebugPrint.

(** The text of a line: two digits and a space for every byte. *)
Definition hex_line (arr : bytes) : bytes := concat (hex_text <$> arr).

Lemma hex_text_no_nul b : Byte.x00 ∉ hex_text b.
Proof.
  apply (bool_decide_eq_true_1 (Byte.x00 ∉ hex_text b)). by destruct b.
Qed.

Lemma hex_line_no_nul arr : Byte.x00 ∉ hex_line arr.
Proof.
  unfold hex_line. induction arr as [|b arr IH]; [apply not_elem_of_nil|].
  rewrite fmap_cons. cbn [concat]. rewrite elem_of_app. intros [H|H]; [by apply (hex_text_no_nul b)|done].
Qed.

Lemma length_hex_line arr : length (hex_line arr) = (3 * length arr)%nat.
Proof. unfold hex_line. induction arr as [|b arr IH]; cbn in *; lia. Qed.

(** A terminated prefix without NUL is the string the buffer holds. *)
Lemma c_string_terminated i (b : bytes) :
  (i <= length b)%nat -> Byte.x00 ∉ take i b -> c_string (splice i [Byte.x00] b) = Some (take i b).
Proof.
  unfold splice. revert b. induction i as [|i IH]; intros [|x b] Hi Hn; cbn in *; try done; try lia.
  apply not_elem_of_cons in Hn as [Hx Hn]. rewrite decide_False by done.
  by rewrite IH by (done || lia).
Qed.

Lemma snprintf_hex_length buffer off b buffer' n :
  snprintf_hex buffer off (length buffer - off) b = (buffer', n) ->
  length buffer' = length buffer /\ n = 3%nat.
Proof.
  unfold snprintf_hex. intros [= <- <-]. split; [|done].
  destruct (length buffer - off)%nat as [|k] eqn:Hk.
  - unfold splice. simpl. by rewrite Nat.add_0_r, take_drop.
  - apply length_splice. rewrite length_app, length_take. simpl. lia.
Qed.

(** Where a line ends does not depend on the room in the block. *)
Lemma print_line_cursor n buffer cursor arr :
  exists buffer', length buffer' = length buffer /\
    print_line n buffer (length buffer) cursor arr =
      (buffer', (cursor + 3 * Nat.min n (length arr))%nat, drop n arr).
Proof.
  revert buffer cursor arr. induction n as [|n IH]; intros buffer cursor [|b arr];
    try (eexists; split; [reflexivity|cbn [print_line length Nat.min drop]; do 2 f_equal; lia]).
  cbn [print_line]. destruct (snprintf_hex _ _ _ b) as [buffer1 k] eqn:Hs.
  apply snprintf_hex_length in Hs as [Hl ->].
  destruct (IH buffer1 (cursor + 3)%nat arr) as (buffer' & Hb & Hp).
  rewrite <- Hl. exists buffer'. split; [done|]. rewrite Hp. cbn [length Nat.min drop].
  do 2 f_equal. lia.
Qed.

(** With room for the text and a NUL, the line holds the text. *)
Lemma print_line_text n buffer cursor arr :
  (cursor + 3 * length arr < length buffer)%nat -> (length arr <= n)%nat ->
  exists buffer', length buffer' = length buffer /\
    print_line n buffer (length buffer) cursor arr =
      (buffer', (cursor + 3 * length arr)%nat, []) /\
    take (cursor + 3 * length arr) buffer' = take cursor buffer ++ hex_line arr.
Proof.
  revert n buffer cursor. induction arr as [|b arr IH]; intros n buffer cursor Hroom Hn.
  { exists buffer. cbn. rewrite Nat.add_0_r, app_nil_r. split; [done|]. by destruct n. }
  destruct n as [|n]; [cbn in Hn; lia|]. cbn [length] in *. cbn [print_line].
  unfold snprintf_hex. destruct (length buffer - cursor)%nat as [|k] eqn:Hk; [lia|].
  rewrite (take_ge (hex_text b)) by (cbn; lia).
  set (buffer1 := splice _ _ _).
  assert (length buffer1 = length buffer) as Hl by (apply length_splice; cbn; lia).
  destruct (IH n buffer1 (cursor + 3)%nat) as (buffer' & Hb & Hp & Ht); [lia|lia|].
  exists buffer'. rewrite Hl in *. split; [done|]. rewrite Hp.
  replace (cursor + 3 + 3 * length arr)%nat with (cursor + 3 * S (length arr))%nat in * by lia.
  split; [done|]. rewrite Ht. unfold buffer1, splice.
  rewrite <- (app_assoc (hex_text b)), (app_assoc (take cursor buffer) (hex_text b)).
  rewrite take_app_le by (rewrite length_app, length_take; cbn; lia).
  rewrite take_ge by (rewrite length_app, length_take; cbn; lia).
  by rewrite <- app_assoc.
Qed.

(** The block of the attester's function has room for 49 bytes of a line. *)
Lemma print_lines_short fuel b arr :
  length b = 150%nat -> (0 < length arr < 50)%nat -> fuel <> 0%nat ->
  print_lines fuel b arr = Some [hex_line arr].
Proof.
  intros Hb Harr Hf. destruct fuel as [|fuel]; [done|].
  destruct (print_line_text 50 b 0 arr) as (b' & Hl & Hpl & Htext); [lia|lia|].
  destruct arr as [|x arr]; [cbn in Harr; lia|]. cbn [print_lines].
  unfold MAX_NUMBER_OF_BYTES_PER_LINE. rewrite Hpl. unfold terminate.
  destruct (Nat.ltb_spec (0 + 3 * length (x :: arr)) (length b')); [|lia].
  cbn [mbind option_bind]. rewrite take_0 in Htext.
  rewrite c_string_terminated; [|lia|rewrite Htext; apply hex_line_no_nul].
  rewrite Htext. by destruct fuel.
Qed.

Lemma print_lines_long fuel b arr :
  length b = 150%nat -> (50 <= length arr)%nat -> print_lines fuel b arr = None.
Proof.
  intros Hb Harr. destruct fuel as [|fuel], arr as [|x arr]; try done; try (cbn in Harr; lia).
  destruct (print_line_cursor 50 b 0 (x :: arr)) as (b' & Hl & Hpl).
  cbn [print_lines]. unfold MAX_NUMBER_OF_BYTES_PER_LINE. rewrite Hpl. unfold terminate.
  destruct (Nat.ltb_spec (0 + 3 * Nat.min 50 (length (x :: arr))) (length b')); [lia|done].
Qed.

Section debug_spec.
Context `{T : TEE} {C : Type} `{Hp : !Heap}.

(** The verifier's function formats into a block of three characters per
    byte and then stores the NUL one past its end: no call is defined. *)
Theorem verifier_print_overflows byte_array (w : world tee C) :
  exists f, verifier_print_byte_array byte_array w = Fault f.
Proof.
  enough (wp any_fault (verifier_print_byte_array byte_array) (fun _ _ => False) w) as Hwp.
  { unfold wp in Hwp. destruct (verifier_print_byte_array byte_array w) as [[]|f]; [done|eauto]. }
  unfold verifier_print_byte_array. apply wp_bind, wp_tcall; [|done]. intros p t Ht.
  destruct (heap_alloc _ _ _ _ Ht) as (a & b & -> & Hb). apply Nat2Z.inj in Hb.
  apply wp_bind, wp_ret. rewrite <- Hb.
  destruct (print_line_cursor (length byte_array) b 0 byte_array) as (b' & Hl & ->).
  apply wp_bind, wp_get_some; [|done]. intros b2. unfold terminate.
  destruct (Nat.ltb_spec (0 + 3 * Nat.min (length byte_array) (length byte_array)) (length b'));
    [|done]. unfold UINT8_DIGIT_MAX_SIZE in *. lia.
Qed.

(** The attester's function prints an array of fewer than 50 bytes as one
    line, and stores out of bounds for every longer one: the NUL of a full
    line of 50 bytes does not fit its block. *)
Theorem attester_print_lines byte_array (w : world tee C) :
  if (length byte_array <? MAX_NUMBER_OF_BYTES_PER_LINE)%nat
  then wp only_panic (attester_print_byte_array byte_array)
         (fun lines _ => lines = if decide (byte_array = []) then [] else [hex_line byte_array]) w
  else exists f, attester_print_byte_array byte_array w = Fault f.
Proof.
  destruct (Nat.ltb_spec (length byte_array) MAX_NUMBER_OF_BYTES_PER_LINE) as [Hlen|Hlen];
    unfold attester_print_byte_array.
  - apply wp_bind, wp_tcall; [|done]. intros p t Ht.
    destruct (heap_alloc _ _ _ _ Ht) as (a & b & -> & Hb). apply Nat2Z.inj in Hb.
    assert (print_lines (length byte_array) b byte_array =
      Some (if decide (byte_array = []) then [] else [hex_line byte_array])) as ->.
    { case_decide as Hnil; [by subst|]. apply print_lines_short; [done|..];
        destruct byte_array; cbn in *; try done; unfold MAX_NUMBER_OF_BYTES_PER_LINE in *; lia. }
    apply wp_bind, wp_ret, wp_bind, wp_tcall; [|done]. intros [] t' _. by apply wp_ret.
  - unfold mbind, M_bind, tcall.
    destruct (TEE_Malloc _ (w_tee w)) as [[p t]|] eqn:Ht; [|eauto].
    destruct (heap_alloc _ _ _ _ Ht) as (a & b & -> & Hb). apply Nat2Z.inj in Hb.
    rewrite print_lines_long by done. eauto.
Qed.
End debug_spec.
