(* ===== verification/WatzSpec.v ===== *)
(** * Correctness of the trusted application that runs WebAssembly

    How a run drives the runtime, which bytecode it loads, and what the
    normal world gets as output, for both versions of the application. *)

From S2P Require Import Prelude TeeApi TeeSpec Layout TeeLogic KeyDerivation TzPlatform TzSpec.
From S2P Require Import Wamr WatzTA2021 WatzTA241.

(** ** What a run does with the runtime *)

(** The calls of a run that loads [b], its result and the writes of the
    application: whatever fails, what was created is released in the reverse
    order, and the runtime is destroyed last. *)
Inductive lifecycle (b : bytes) : TEE_Result -> list (Z * list bytes) -> list rt_event -> Prop :=
| lc_init_failed :
    lifecycle b TEE_ERROR_GENERIC [] [EvInit false; EvDestroy]
| lc_load_failed :
    lifecycle b TEE_ERROR_GENERIC [] [EvInit true; EvLoad b false; EvDestroy]
| lc_instantiate_failed :
    lifecycle b TEE_ERROR_GENERIC []
      [EvInit true; EvLoad b true; EvInstantiate false; EvUnload; EvDestroy]
| lc_executed (ok : bool) writes :
    lifecycle b (if ok then TEE_SUCCESS else TEE_ERROR_GENERIC) writes
      [EvInit true; EvLoad b true; EvInstantiate true; EvExecute ok writes;
       EvDeinstantiate; EvUnload; EvDestroy].

(** The output after the writes of the application. *)
Definition prints (writes : list (Z * list bytes)) (o : output) : output :=
  foldl (fun o '(fd, iov) => if (fd =? 1) || (fd =? 2) then print (concat iov) o else o) o writes.

(** Writes of less than 2 GiB without conversions of [printf]. *)
Definition plain_writes (writes : list (Z * list bytes)) : Prop :=
  Forall (fun '(_, iov) => zlen (concat iov) < 2 ^ 31 /\ printable (concat iov) = true) writes.

Lemma prints_ok writes o : out_ok o -> out_ok (prints writes o).
Proof.
  revert o. unfold prints. induction writes as [|[fd iov] writes IH]; intros o Ho; [done|].
  apply IH. destruct ((fd =? 1) || (fd =? 2)); [by apply print_ok|done].
Qed.

Section application.
Context `{R : WAMR}.

(** The applications print plain text. *)
Class Application := plain_writes_of_main : forall i r ok writes r',
  wasm_application_execute_main i r = (ok, writes, r') -> plain_writes writes.
End application.
Arguments Application R : clear implicits.

(** The lemmas hold for every set [E] of faults that has the panics, and has
    undefined behaviour unless the heap always has memory and the applications
    print plain text. *)
Section watz_spec.
Context `{T : TEE} `{R : WAMR} `{P : Platform} `{Bl : !Blocks}.
Context (E : fault -> Prop) (HP : E Panic) (HU : E UB \/ Heap (T := T) /\ Application R).

Abbreviation W := (world tee (watz R)).

Lemma wp_rcall {A} (f : runtime -> A * runtime) e Q (w : W) :
  (forall a r, f (rt (w_ctx w)) = (a, r) -> Q a (World (w_tee w) (set_rt r (e a) (w_ctx w)))) ->
  wp E (rcall f e) Q w.
Proof.
  intros H. unfold rcall. apply wp_bind, wp_ctx.
  destruct (f (rt (w_ctx w))) as [a r] eqn:Hf.
  apply wp_bind, wp_set_ctx, wp_ret. by apply H.
Qed.

Lemma wp_read_shared (n : Z) Q (w : W) b :
  bread (shared (w_ctx w) (accesses (w_ctx w))) n = Some b ->
  Q b (World (w_tee w) (set_accesses (S (accesses (w_ctx w))) (w_ctx w))) ->
  wp E (read_shared n) Q w.
Proof.
  intros Hb HQ. unfold read_shared. apply wp_bind, wp_ctx. rewrite Hb.
  by apply wp_bind, wp_ret, wp_bind, wp_set_ctx, wp_ret.
Qed.

(** A write that is captured, or that faults where it may. *)
Lemma writev_allowed fd (iov : list bytes) (w : world tee output) :
  out_ok (w_ctx w) ->
  E UB \/ Heap (T := T) /\ zlen (concat iov) < 2 ^ 31 /\ printable (concat iov) = true ->
  wp E (writev fd iov)
    (fun n w' => w_ctx w' = if (fd =? 1) || (fd =? 2) then print (concat iov) (w_ctx w)
                            else w_ctx w) w.
Proof.
  intros Hok [Hub | (Hheap & Hlen & Hpr)].
  - eapply wp_mono; [eapply wp_fault_weaken; [|by apply writev_returns]|].
    + by intros f [-> | ->].
    + intros n w'. destruct ((fd =? 1) || (fd =? 2)); [by intros [_ ?]|by intros [_ ->]].
  - eapply wp_mono; [apply (writev_spec (Hp := Hheap) E); [done..|congruence]|].
    intros n w'. destruct ((fd =? 1) || (fd =? 2)); [by intros (_ & _ & ?)|by intros [_ ->]].
Qed.

Lemma write_all_spec writes (w : W) :
  out_ok (out (w_ctx w)) -> E UB \/ Heap (T := T) /\ plain_writes writes ->
  wp E (write_all writes)
    (fun _ w' => w_ctx w' = set_out (prints writes (out (w_ctx w))) (w_ctx w)) w.
Proof.
  revert w. induction writes as [|[fd iov] writes IH]; intros w Hok Hsafe; cbn [write_all].
  { apply wp_ret. by destruct w as [t []]. }
  assert (E UB \/ Heap (T := T) /\ zlen (concat iov) < 2 ^ 31 /\ printable (concat iov) = true) as H1
    by (destruct Hsafe as [|[? [[]]%Forall_cons]]; eauto).
  assert (E UB \/ Heap (T := T) /\ plain_writes writes) as H2
    by (destruct Hsafe as [|[? [_ ?]%Forall_cons]]; eauto).
  apply wp_bind.
  pose proof (writev_allowed fd iov (World (w_tee w) (out (w_ctx w))) Hok H1) as Hw.
  unfold wp, on_output in *.
  destruct (writev fd iov _) as [[n [t o]]|]; [|done]. cbn [w_ctx w_tee] in *. subst o.
  specialize (IH (World t (set_out (if (fd =? 1) || (fd =? 2) then print (concat iov)
    (out (w_ctx w)) else out (w_ctx w)) (w_ctx w)))).
  eapply wp_mono; [apply IH; [|done]|].
  - simpl. destruct ((fd =? 1) || (fd =? 2)); [by apply print_ok|done].
  - simpl. intros _ w' ->. done.
Qed.

(** The two versions tear the runtime down and execute a module alike. *)
Lemma teardown_same : WatzTA241.TA_TearDownWamrRuntime = WatzTA2021.TA_TearDownWamrRuntime.
Proof. reflexivity. Qed.

Lemma execute_same : WatzTA241.TA_ExecuteWamrRuntime = WatzTA2021.TA_ExecuteWamrRuntime.
Proof. reflexivity. Qed.

(** The events of a teardown. *)
Definition teardown_events (c : wamr_context R) : list rt_event :=
  match module_inst c with Some _ => [EvDeinstantiate] | None => [] end ++
  match module c with Some _ => [EvUnload] | None => [] end ++ [EvDestroy].

(** From [w] to [w']: the calls to the runtime, the number of accesses to the
    buffer of the normal world, and the output at the end. *)
Record goes (w : W) (events : list rt_event) (n : nat) (o : output) (w' : W) : Prop := {
  go_trace : trace (w_ctx w') = trace (w_ctx w) ++ events;
  go_accesses : accesses (w_ctx w') = (n + accesses (w_ctx w))%nat;
  go_out : out (w_ctx w') = o;
  go_shared : shared (w_ctx w') = shared (w_ctx w);
  go_heap_size : heap_size (w_ctx w') = heap_size (w_ctx w)
}.

(** ... and no runtime is in use. *)
Definition ends (w : W) (events : list rt_event) (n : nat) (o : output) (w' : W) : Prop :=
  goes w events n o w' /\ singleton_wamr_context (w_ctx w') = false.

Lemma goes_trans (w w1 w' : W) e1 e2 n1 n2 o1 o2 :
  goes w e1 n1 o1 w1 -> goes w1 e2 n2 o2 w' -> goes w (e1 ++ e2) (n1 + n2) o2 w'.
Proof.
  intros [A1 A2 A3 A4 A5] [B1 B2 B3 B4 B5]. split; try congruence.
  - by rewrite B1, A1, app_assoc.
  - rewrite B2, A2. lia.
Qed.

Ltac goes_solve := split; simpl; rewrite <- ?app_assoc, ?app_nil_r; done.

Ltac release_step :=
  lazymatch goal with
  | |- wp _ (rcall _ _) _ _ => apply wp_rcall; intros [] ? _
  | |- wp _ (mret _) _ _ => apply wp_ret
  | |- wp _ (_ ≫= _) _ _ => apply wp_bind
  end.

Lemma teardown_spec c (w : W) :
  wp E (WatzTA2021.TA_TearDownWamrRuntime c)
    (fun _ w' => ends w (teardown_events c) 0 (out (w_ctx w)) w') w.
Proof.
  unfold WatzTA2021.TA_TearDownWamrRuntime, teardown_events. apply wp_bind, wp_set_ctx.
  destruct (module_inst c), (module c);
    repeat release_step; (split; [goes_solve|done]).
Qed.

Lemma execute_spec c i (w : W) :
  module_inst c = Some i -> out_ok (out (w_ctx w)) ->
  wp E (WatzTA2021.TA_ExecuteWamrRuntime c)
    (fun res w' => exists ok writes,
      res = (if ok : bool then TEE_SUCCESS else TEE_ERROR_GENERIC) /\
      goes w [EvExecute ok writes] 0 (prints writes (out (w_ctx w))) w') w.
Proof.
  intros Hi Hok. unfold WatzTA2021.TA_ExecuteWamrRuntime. rewrite Hi. apply wp_bind, wp_ret.
  apply wp_bind. apply wp_rcall. intros [ok writes] r Hr. apply wp_bind.
  eapply wp_mono; [apply write_all_spec; [done|]|].
  { destruct HU as [|[? App]]; [by left|right]. split; [done|]. by eapply (plain_writes_of_main (Application := App)). }
  intros [] w' Hw. destruct ok; apply wp_ret; [exists true, writes|exists false, writes]; (split; [done|]);
    split; by rewrite Hw.
Qed.

Lemma free_block_spec p (w : W) :
  wp E (WatzTA2021.free_block p) (fun _ w' => w_ctx w' = w_ctx w) w.
Proof. destruct p as [[a d]|]; [by apply wp_tcall|by apply wp_ret]. Qed.

(** What a run that has loaded [b] guarantees: its life cycle, [n] accesses
    to the buffer of the normal world, and the captured output. *)
Definition run_done (b : bytes) (n : nat) (output_buffer : bytes) (res : TEE_Result)
    (w w' : W) : Prop :=
  exists writes events, lifecycle b res writes events /\
    ends w events n
      (prints writes (watz_set_output_buffer output_buffer (zlen output_buffer))) w'.

(** The copy of the bytecode into secure memory. *)
Lemma copy_shared_spec n t p t' (w : W) b :
  TEE_Malloc n t = Some (p, t') ->
  bread (shared (w_ctx w) (accesses (w_ctx w))) n = Some b ->
  wp E (WatzTA2021.copy_shared p n)
    (fun d w' => d = b /\
      w' = World (w_tee w) (set_accesses (S (accesses (w_ctx w))) (w_ctx w))) w.
Proof.
  intros Hp Hb. unfold WatzTA2021.copy_shared. apply wp_bind.
  eapply wp_read_shared; [done|].
  apply bread_inv in Hb as [Hbn _]. destruct p as [[a d]|].
  - apply block_size in Hp as Hd.
    unfold bwrite. destruct (Nat.leb_spec (length b) (length d)); [|lia].
    apply wp_ret. split; [|done]. unfold splice. rewrite take_0, drop_ge by lia.
    by rewrite app_nil_r.
  - apply wp_bind, wp_require.
    + intros Hn%Z.eqb_eq. apply wp_ret. split; [|done]. destruct b; [done|simpl in *; lia].
    + intros _. destruct HU as [|[Hheap _]]; [done|].
      by destruct (Hheap _ _ _ _ Hp) as (? & ? & ? & _).
Qed.

(** The end of every run. *)
Lemma finish_spec c (res : TEE_Result) p q (w : W) :
  wp E (WatzTA2021.TA_TearDownWamrRuntime c;;
                 WatzTA2021.free_block p;; WatzTA2021.free_block q;; mret res)
    (fun r w' => r = res /\ ends w (teardown_events c) 0 (out (w_ctx w)) w') w.
Proof.
  apply wp_bind. eapply wp_mono; [apply teardown_spec|]. intros [] w1 [[] ?].
  apply wp_bind. eapply wp_mono; [apply free_block_spec|]. intros [] w2 H2.
  apply wp_bind. eapply wp_mono; [apply free_block_spec|]. intros [] w3 H3.
  apply wp_ret. split; [done|]. rewrite H2 in H3. split; [split|]; by rewrite H3.
Qed.

(** How the initialisation ends: the result, the context, the events and the
    accesses to the shared buffer, when the bytecode [b] is read with [k]. *)
Inductive started (c : wamr_context R) (b : bytes) (k : nat)
    : TEE_Result -> wamr_context R -> list rt_event -> nat -> Prop :=
| st_init_failed : started c b k TEE_ERROR_GENERIC c [EvInit false] 0
| st_load_failed :
    started c b k TEE_ERROR_GENERIC (set_module None c) [EvInit true; EvLoad b false] k
| st_instantiate_failed m :
    started c b k TEE_ERROR_GENERIC (set_module_inst None (set_module (Some m) c))
      [EvInit true; EvLoad b true; EvInstantiate false] k
| st_started m i :
    started c b k TEE_SUCCESS (set_module_inst (Some i) (set_module (Some m) c))
      [EvInit true; EvLoad b true; EvInstantiate true] k.

(** Where a context finds the bytecode [b]. *)
Definition bytecode_at (c : wamr_context R) (s : watz R) (b : bytes) (k : nat) : Prop :=
  match wasm_bytecode c with
  | Secure d => bread d (wasm_bytecode_size c) = Some b /\ k = 0%nat
  | SharedBuffer =>
      bread (shared s (accesses s)) (wasm_bytecode_size c) = Some b /\ k = 1%nat
  end.

Lemma read_bytecode_spec c (w : W) b k Q :
  bytecode_at c (w_ctx w) b k ->
  (forall w', goes w [] k (out (w_ctx w)) w' -> Q b w') ->
  wp E (read_bytecode c) Q w.
Proof.
  unfold bytecode_at, read_bytecode. destruct (wasm_bytecode c); intros [Hb ->] HQ.
  - rewrite Hb. apply wp_ret, HQ. goes_solve.
  - eapply wp_read_shared; [done|]. apply HQ. goes_solve.
Qed.

(** The state after some more events. *)
Ltac goes_from H :=
  let A := fresh in let B := fresh in let C := fresh in let D := fresh in let E := fresh in
  destruct H as [A B C D E]; split; simpl in *; rewrite ?A, ?B, ?C, ?D, ?E;
  rewrite <- ?app_assoc; done.

Ltac init_proof :=
  apply wp_bind; apply wp_rcall; intros [] r1 _; cbn [negb];
  [|apply wp_ret; do 2 eexists; split; [constructor|goes_solve]];
  apply wp_bind; eapply read_bytecode_spec; [eassumption|];
  intros w2 Hg2; apply wp_bind; apply wp_rcall; intros [m|] r3 _;
  [|apply wp_ret; do 2 eexists; split; [constructor|goes_from Hg2]];
  apply wp_bind; apply wp_rcall; intros [] r4 _;
  apply wp_bind; apply wp_rcall; intros [i|] r5 _;
  [apply wp_bind; apply wp_set_ctx|];
  apply wp_ret; do 2 eexists; (split; [constructor|goes_from Hg2]).

Lemma initialize_2021_spec c argc argv (w : W) b k :
  bytecode_at c (w_ctx w) b k ->
  wp E (WatzTA2021.TA_InitializeWamrRuntime c argc argv)
    (fun '(res, c') w' => exists events n, started c b k res c' events n /\
      goes w events n (out (w_ctx w)) w') w.
Proof. intros Hb. unfold WatzTA2021.TA_InitializeWamrRuntime. init_proof. Qed.


Lemma finish_after c (res : TEE_Result) p q (w0 w : W) events n o :
  goes w0 events n o w ->
  wp E (WatzTA2021.TA_TearDownWamrRuntime c;;
                 WatzTA2021.free_block p;; WatzTA2021.free_block q;; mret res)
    (fun r w' => r = res /\ ends w0 (events ++ teardown_events c) n o w') w.
Proof.
  intros Hg. eapply wp_mono; [apply finish_spec|]. intros r w' (-> & Hg' & Hidle).
  split; [done|]. split; [|done]. rewrite (go_out _ _ _ _ _ Hg) in Hg'.
  rewrite <- (Nat.add_0_r n). by eapply goes_trans.
Qed.

(** What follows the initialisation is a life cycle, whatever its result. *)
Lemma run_spec c b k p q init (w0 w : W) ob e0 :
  module c = None -> module_inst c = None ->
  goes w0 [] e0 (watz_set_output_buffer ob (zlen ob)) w -> zlen ob < 2 ^ 32 ->
  wp E init
    (fun '(res, c') w' => exists events n, started c b k res c' events n /\
      goes w events n (out (w_ctx w)) w') w ->
  wp E
    ('(result, context) ← init;
     if failed result
     then WatzTA2021.TA_TearDownWamrRuntime context;;
          WatzTA2021.free_block p;; WatzTA2021.free_block q;; mret result
     else result ← WatzTA2021.TA_ExecuteWamrRuntime context;
       if failed result
       then WatzTA2021.TA_TearDownWamrRuntime context;;
            WatzTA2021.free_block p;; WatzTA2021.free_block q;; mret result
       else WatzTA2021.TA_TearDownWamrRuntime context;;
            WatzTA2021.free_block p;; WatzTA2021.free_block q;; mret result)
    (fun res w' => exists n writes events, lifecycle b res writes events /\
      (n = (e0 + k)%nat \/ n = e0 /\ events = [EvInit false; EvDestroy]) /\
      ends w0 events n (prints writes (watz_set_output_buffer ob (zlen ob))) w') w.
Proof.
  intros Hm Hi Hg0 Hob Hinit. apply wp_bind. eapply wp_mono; [exact Hinit|].
  intros [res c'] w1 (events & n & Hst & Hg1). pose proof (goes_trans _ _ _ _ _ _ _ _ _ Hg0 Hg1) as Hg.
  rewrite (go_out _ _ _ _ _ Hg0) in Hg, Hg1.
  assert (out_ok (out (w_ctx w1))) as Hok
    by (rewrite (go_out _ _ _ _ _ Hg1); by apply set_output_buffer_ok).
  inversion Hst; subst; cbn [failed app] in *.
  1-3: eapply wp_mono; [eapply finish_after; exact Hg|]; intros r w2 [-> He];
    eexists _, [], _; split; [|split; [|exact He]];
    unfold teardown_events; cbn [module module_inst set_module set_module_inst];
    rewrite ?Hm, ?Hi; first [by constructor | by left | by right; rewrite Nat.add_0_r].
  apply wp_bind. eapply wp_mono; [by eapply execute_spec|].
  intros res w2 (ok & writes & -> & Hg2). rewrite (go_out _ _ _ _ _ Hg) in Hg2.
  pose proof (goes_trans _ _ _ _ _ _ _ _ _ Hg Hg2) as Hg'.
  destruct ok; cbn [failed]; (eapply wp_mono; [eapply finish_after; exact Hg'|]);
    intros r w3 [-> He]; do 3 eexists; (split; [|split; [|exact He]]).
  1: exact (lc_executed b true writes).
  2: exact (lc_executed b false writes).
  all: left; lia.
Qed.

(** The two runs, for every such set of faults. *)
Lemma run_wasm_2021_spec size arg output_buffer (w : W) b :
  bread (shared (w_ctx w) (accesses (w_ctx w))) (wrap32 size) = Some b ->
  zlen output_buffer < 2 ^ 32 ->
  wp E (WatzTA2021.TA_RunWasm size arg output_buffer (zlen output_buffer))
    (fun res w' => run_done b 1 output_buffer res w w') w.
Proof.
  intros Hb Hout. unfold WatzTA2021.TA_RunWasm. apply wp_bind, wp_ctx.
  apply wp_bind, wp_tcall; [|done]. intros heap t1 _.
  apply wp_bind, wp_tcall; [|done]. intros blk t2 Hblk.
  apply wp_bind. eapply wp_mono; [eapply copy_shared_spec; [exact Hblk|exact Hb]|].
  intros d w1 [-> ->]. apply wp_bind. unfold WatzTA2021.TA_SetOutputBuffer. apply wp_set_ctx.
  eapply wp_mono; [eapply (run_spec _ b 0 _ _ _ w _ _ 1); [| | |exact Hout|apply initialize_2021_spec]|].
  - done.
  - done.
  - goes_solve.
  - simpl. split; [|done]. apply bread_whole. by apply bread_inv in Hb as [Hb _].
  - intros res w' (n & writes & events & Hlc & Hn & He). exists writes, events.
    split; [done|]. by destruct Hn as [-> | [-> _]].
Qed.

End watz_spec.

Section run_wasm.
Context `{T : TEE} `{R : WAMR} `{P : Platform} `{Bl : !Blocks}.

Abbreviation W := (world tee (watz R)).

(** C12: A run of the 2021 application that returns has read the buffer of the
    normal world once and used the bytes it copied, so that later changes of the
    buffer have no effect; on every path it has torn the runtime down in order,
    its result is that of the execution, and the output buffer holds the writes
    of the application, in order, without those that did not fit. When
    [TEE_Malloc] never returns NULL and the application writes less than 2 GiB
    at a time and no conversions of [printf], the run returns or panics. *)
Theorem run_wasm_2021 size arg output_buffer (w : W) b :
  bread (shared (w_ctx w) (accesses (w_ctx w))) (wrap32 size) = Some b ->
  zlen output_buffer < 2 ^ 32 ->
  let run := WatzTA2021.TA_RunWasm size arg output_buffer (zlen output_buffer) in
  let done := fun res w' => run_done b 1 output_buffer res w w' in
  wp any_fault run done w /\ (Heap -> Application R -> wp only_panic run done w).
Proof.
  intros Hb Hout run done. split; [|intros Hheap App];
    (apply run_wasm_2021_spec; [by try left|by (left + right)|exact Hb|exact Hout]).
Qed.

End run_wasm.
