(* ===== verification/NativeSpec.v ===== *)
(** * Correctness of the native functions

    The functions [Host_Encrypt] and [Host_Decrypt] that the 2.4.1 version
    exports to applications. *)

From S2P Require Import Prelude TeeApi TeeSpec Layout KeyDerivation TeeLogic Wamr WatzTA241.

(** RSA as the trusted operating system implements it: what decryption with
    a key makes of a ciphertext, and the calls that report success. *)
Class Asymmetric_Spec (T : TEE) (K : Crypto) (Sp : TEE_Spec T K) (A : TEE_Asymmetric T) := {
  rsa_decrypt : tee_object -> bytes -> option bytes;
  spec_GetObjectInfo1 h t r t' : TEE_GetObjectInfo1 h t = Some (r, t') -> view t' = view t;
  spec_AsymmetricEncrypt h d cap t r t' :
    TEE_AsymmetricEncrypt h d cap t = Some (r, t') -> ob_res r = TEE_SUCCESS ->
    exists p o, v_ops (view t) !! h = Some p /\ p_key p = Some o /\
      rsa_decrypt o (ob_data r) = Some d /\ ob_size r = zlen (ob_data r) /\ ob_size r <= cap /\
      view t' = view t;
  spec_AsymmetricDecrypt h c cap t r t' :
    TEE_AsymmetricDecrypt h c cap t = Some (r, t') -> ob_res r = TEE_SUCCESS ->
    exists p o, v_ops (view t) !! h = Some p /\ p_key p = Some o /\
      rsa_decrypt o c = Some (ob_data r) /\ ob_size r = zlen (ob_data r) /\ ob_size r <= cap /\
      view t' = view t
}.

Section native_spec.
Context `{T : TEE} `{K : Crypto} `{Sp : !TEE_Spec T K} `{A : !TEE_Asymmetric T}.
Context `{As : !Asymmetric_Spec T K Sp A} {C : Type}.

Abbreviation W := (world tee C).

(** The operation holds the key when the call is made, and is freed. *)
Lemma crypt_spec call mode key dest n (R : tee_object -> bytes -> Prop) (w : W) :
  (forall op w1, wp any_fault (call op) (fun r w2 => ob_res r = TEE_SUCCESS ->
    exists p o, v_ops (view (w_tee w1)) !! op = Some p /\ p_key p = Some o /\
      R o (ob_data r) /\ ob_size r = zlen (ob_data r) /\
      view (w_tee w2) = view (w_tee w1)) w1) ->
  wp any_fault (crypt call mode key dest n)
    (on_success (fun p => fst (fst p)) (fun '(_, dest', n') w' => exists o d,
      key <> TEE_HANDLE_NULL /\ v_objs (view (w_tee w)) !! key = Some o /\ R o d /\
      n' = zlen d /\ bread dest' n' = Some d /\ length dest' = length dest /\
      view (w_tee w') = view (w_tee w))) w.
Proof.
  intros Hcall. destruct w as [t c]. unfold crypt.
  destruct (Z.eqb_spec key TEE_HANDLE_NULL); [by apply wp_ret|].
  apply wp_bind, wp_tcall_any. intros [res sz] t1 H1. apply spec_GetObjectInfo1 in H1.
  cbn [w_tee w_ctx] in *. destruct (failed res) eqn:Hf; [apply wp_ret; intros Hs; simpl in Hs; by subst|].
  apply wp_bind, wp_tcall_any. intros [res2 o2] t2 H2. cbn [w_tee w_ctx] in *.
  destruct (failed res2) eqn:Hf2; [apply wp_ret; intros Hs; simpl in Hs; by subst|]. apply failed_false in Hf2 as ->.
  apply spec_AllocateOperation in H2 as (op & -> & _ & Hfresh & H2). cbn [default from_option id].
  apply wp_bind, wp_tcall_any. intros res3 t3 H3. cbn [w_tee w_ctx] in *.
  destruct (failed res3) eqn:Hf3.
  { apply wp_bind, wp_tcall_any. intros [] t4 _.
    apply wp_ret; intros Hs; simpl in Hs; by subst. }
  apply failed_false in Hf3 as ->.
  apply spec_SetOperationKey in H3 as (p & o & Hp & Ho & H3).
  apply wp_bind. eapply wp_mono; [apply Hcall|]. intros r [t4 c4] Hr. cbn [w_tee w_ctx] in *.
  apply wp_bind, wp_get_some; [|done]. intros dest' Hdest.
  apply wp_bind, wp_tcall_any. intros [] t5 H5. apply spec_FreeOperation in H5.
  apply wp_ret. intros Hres. destruct (Hr Hres) as (p' & o' & Hp' & Ho' & HR & Hs & H4).
  cbn [w_tee w_ctx] in *. rewrite H3 in Hp'. cbn in Hp'. rewrite lookup_insert_eq in Hp'.
  injection Hp' as <-. injection Ho' as <-. rewrite H2 in Ho. cbn in Ho. rewrite H1 in *.
  apply bwrite_inv in Hdest as [Hl ->].
  exists o, (ob_data r). split; [done|]. split; [done|]. split; [done|]. split; [done|].
  split; [|split].
  - rewrite Hs. unfold bread. rewrite length_splice by lia.
    destruct (Z.leb_spec 0 (zlen (ob_data r))), (Z.leb_spec (zlen (ob_data r)) (zlen dest));
      try lia. simpl. f_equal. unfold splice. rewrite take_0, Nat2Z.id. simpl.
    by rewrite take_app_length.
  - by apply length_splice.
  - rewrite H5, H4, H3, H2. destruct (view t) as [objs ops socks]. cbn in *.
    unfold del_op, set_op. cbn. by rewrite insert_insert_eq, delete_insert_id.
Qed.

Lemma host_encrypt_spec key src dest n (w : W) :
  wp any_fault (Host_Encrypt key src dest n)
    (on_success (fun p => fst (fst p)) (fun '(_, dest', n') w' => exists o s d,
      key <> TEE_HANDLE_NULL /\ v_objs (view (w_tee w)) !! key = Some o /\
      c_string src = Some s /\ rsa_decrypt o d = Some s /\
      n' = zlen d /\ bread dest' n' = Some d /\ length dest' = length dest /\
      view (w_tee w') = view (w_tee w))) w.
Proof.
  unfold Host_Encrypt. eapply wp_mono.
  - eapply (crypt_spec _ _ _ _ _ (fun o d => exists s, c_string src = Some s /\
      rsa_decrypt o d = Some s)).
    intros op w1. apply wp_bind, wp_get_some; [|done]. intros s Hs. apply wp_tcall_any.
    intros r t Hr Hres. destruct (spec_AsymmetricEncrypt _ _ _ _ _ _ Hr Hres)
      as (p & o & Hp & Ho & Hd & Hsz & _ & Hv). exists p, o.
    do 2 (split; [done|]). split; [by exists s|done].
  - intros [[res dest'] n'] w' Hok Hres.
    destruct (Hok Hres) as (o & d & Hk & Ho & (s & Hs & Hd) & Hrest). by exists o, s, d.
Qed.

Lemma host_decrypt_spec key src dest n (w : W) :
  wp any_fault (Host_Decrypt key src dest n)
    (on_success (fun p => fst (fst p)) (fun '(_, dest', n') w' => exists o d,
      key <> TEE_HANDLE_NULL /\ v_objs (view (w_tee w)) !! key = Some o /\
      rsa_decrypt o src = Some d /\
      n' = zlen d /\ bread dest' n' = Some d /\ length dest' = length dest /\
      view (w_tee w') = view (w_tee w))) w.
Proof.
  unfold Host_Decrypt. apply crypt_spec.
  intros op w1. apply wp_tcall_any.
  intros r t Hr Hres. destruct (spec_AsymmetricDecrypt _ _ _ _ _ _ Hr Hres)
    as (p & o & Hp & Ho & Hd & Hsz & _ & Hv). by exists p, o.
Qed.

(** What an application encrypts with a key, it gets back by decrypting the
    ciphertext with the same key, and no operation is left allocated. *)
Theorem host_encrypt_decrypt key src dest n (w : W) dest' n' w1 dest2 m dest2' m' w2 c :
  Host_Encrypt key src dest n w = Ret ((TEE_SUCCESS, dest', n'), w1) ->
  bread dest' n' = Some c ->
  Host_Decrypt key c dest2 m w1 = Ret ((TEE_SUCCESS, dest2', m'), w2) ->
  c_string src = bread dest2' m' /\ view (w_tee w2) = view (w_tee w).
Proof.
  intros He Hc Hd.
  destruct (wp_ret_inv _ _ _ _ _ _ (host_encrypt_spec _ _ _ _ _) He eq_refl)
    as (o & s & d & _ & Ho & Hs & Hdec & -> & Hr & _ & Hv).
  destruct (wp_ret_inv _ _ _ _ _ _ (host_decrypt_spec _ _ _ _ _) Hd eq_refl)
    as (o2 & d2 & _ & Ho2 & Hdec2 & -> & Hr2 & _ & Hv2).
  rewrite Hv in *. split; [|congruence]. rewrite Hr2, Hs. congruence.
Qed.
End native_spec.
