(* ===== verification/WatzHostSpec.v ===== *)
(** * Correctness of the host programs that run WebAssembly

    The module a host program hands to the trusted application is the file it
    was asked to run, in both versions, and a command with wrong parameters
    is refused by the trusted application. *)

From Stdlib Require Import Strings.String.
From S2P Require Import Prelude TeeApi TeeSpec Layout TeeLogic KeyDerivation TzPlatform Wamr.
From S2P Require Import WatzTA2021 WatzTA241 Host WatzHost2021 WatzHost241 HostSpec.
From stdpp Require Import base list.
#[local] Open Scope Z_scope.

(** ** Loading and running a file *)

Section run_file.
Context `{L : TEEC}.

Abbreviation S := (host_state teec).

Definition run_types : param_types :=
  (TEEC_MEMREF_TEMP_INPUT, TEEC_MEMREF_TEMP_INPUT, TEEC_MEMREF_TEMP_INOUT, TEEC_MEMREF_TEMP_INOUT).

(** The file [file] was run: the command got its bytes, the argument and the
    two output buffers, and led from the state [s] to [s']. *)
Definition ran (file : bytes) (arg out bench : ta_param) (res : TEE_Result)
    (ps' : list ta_param) (s s' : S) : Prop :=
  TEEC_InvokeCommand 0 run_types [PMemref file; arg; out; bench] (h_teec s) =
    ((res, ps'), h_teec s').

(** The file is read into a block of its size, which it fills. *)
Lemma load_file (file : bytes) (p : option bytes) (Q : bytes -> S -> Prop) E s :
  (forall b, p = Some b -> length b = Z.to_nat (zlen file)) -> Q file s ->
  hwlp (match p with
        | Some b => hsome (if (length file <=? length b)%nat then Some (splice 0 file b) else None)
        | None => if zlen file =? 0 then mret [] else hundefined
        end) Q E s.
Proof.
  intros Hp HQ. destruct p as [b|].
  - specialize (Hp b eq_refl). rewrite Nat2Z.id in Hp. rewrite Hp, Nat.leb_refl.
    apply hwlp_some. intros f [= <-]. unfold splice.
    rewrite take_0, drop_ge by lia. by rewrite app_nil_r.
  - destruct (Z.eqb_spec (zlen file) 0); [|done]. destruct file; [done|simpl in *; lia].
Qed.

(** The 2021 host program runs the file whose name it got, with the argument
    and both buffers; a file that cannot be opened is reported and nothing is
    run; a command that fails ends the program. *)
Theorem start_wasm_2021 (c : WatzHost2021.tee_ctx) path arg (s : S) :
  hwlp (WatzHost2021.start_wasm c path arg)
    (fun '(success, c') s' =>
      match e_files (h_env s) path with
      | Some file => success = true /\ exists ps',
          ran file (WatzHost2021.memref arg) (WatzHost2021.memref (WatzHost2021.output_buffer c))
            (WatzHost2021.memref (WatzHost2021.benchmark_buffer c)) TEE_SUCCESS ps' s s'
      | None => success = false /\ c' = c /\ h_teec s' = h_teec s /\
          h_stdout s' = h_stdout s ++ [WatzHost2021.msg_open path]
      end)
    (fun s' => exists file res ps', e_files (h_env s) path = Some file /\ res <> TEE_SUCCESS /\
      ran file (WatzHost2021.memref arg) (WatzHost2021.memref (WatzHost2021.output_buffer c))
        (WatzHost2021.memref (WatzHost2021.benchmark_buffer c)) res ps' s s') s.
Proof.
  unfold WatzHost2021.start_wasm. apply hwlp_bind. change (hwlp hget ?Q ?E s) with (Q s s).
  cbv beta. destruct (e_files (h_env s) path) as [file|] eqn:Hf; [|by apply hwlp_bind].
  apply hwlp_bind, hwlp_malloc. intros p s1 [Ht _] Hp. apply hwlp_bind. apply load_file; [done|].
  apply hwlp_bind, hwlp_teec. intros [res ps] t Hrun. rewrite Ht in Hrun.
  destruct (failed res) eqn:Hres.
  { apply hwlp_exit. exists file, res, ps. split; [done|]. split; [by intros ->|done]. }
  apply failed_false in Hres. subst res.
  repeat case_match; apply hwlp_ret; (split; [done|eexists; exact Hrun]).
Qed.

(** The 2.4.1 host program hands the application exactly the bytes of the
    named file, with the argument and its output and benchmark buffers, and
    succeeds if the command does; a file it cannot open is reported and
    nothing is invoked; a command that fails ends the program after it. *)
Theorem start_wasm_241 (c : WatzHost241.tee_ctx) path arg (s : S) :
  hwlp (WatzHost241.start_wasm c path arg)
    (fun '(success, c') s' =>
      match e_files (h_env s) path with
      | Some file => success = true /\ exists ps',
          ran file (WatzHost241.memref arg) (WatzHost241.memref (WatzHost241.output_buffer c))
            (WatzHost241.memref (WatzHost241.benchmark_buffer c)) TEE_SUCCESS ps' s s'
      | None => success = false /\ c' = c /\ h_teec s' = h_teec s /\
          h_stdout s' = h_stdout s ++ [WatzHost241.msg_open path]
      end)
    (fun s' => exists file res ps', e_files (h_env s) path = Some file /\ res <> TEE_SUCCESS /\
      ran file (WatzHost241.memref arg) (WatzHost241.memref (WatzHost241.output_buffer c))
        (WatzHost241.memref (WatzHost241.benchmark_buffer c)) res ps' s s') s.
Proof.
  unfold WatzHost241.start_wasm. apply hwlp_bind. change (hwlp hget ?Q ?E s) with (Q s s).
  cbv beta. destruct (e_files (h_env s) path) as [file|] eqn:Hf; [|by apply hwlp_bind].
  apply hwlp_bind, hwlp_malloc. intros p s1 [Ht _] Hp. apply hwlp_bind. apply load_file; [done|].
  apply hwlp_bind, hwlp_teec. intros [res ps] t Hrun. rewrite Ht in Hrun.
  destruct (failed res) eqn:Hres.
  { apply hwlp_exit. exists file, res, ps. split; [done|]. split; [by intros ->|done]. }
  apply failed_false in Hres. subst res.
  repeat case_match; apply hwlp_ret; (split; [done|eexists; exact Hrun]).
Qed.
End run_file.

(** ** Commands of the trusted application *)

Section commands.
Context `{T : TEE} `{R : WAMR} `{P : Platform}.

Abbreviation W := (world tee (watz R)).

(** The parameter types of the commands of the 2.4.1 application; the 2021
    version has the first two. *)
Definition watz_types (cmd : Z) : option param_types :=
  if cmd =? 0 then
    Some (TEE_PARAM_TYPE_MEMREF_INPUT, TEE_PARAM_TYPE_MEMREF_INPUT,
          TEE_PARAM_TYPE_MEMREF_INOUT, TEE_PARAM_TYPE_MEMREF_INOUT)
  else if (cmd =? 1) || (cmd =? 2) then
    Some (TEE_PARAM_TYPE_VALUE_INPUT, TEE_PARAM_TYPE_NONE, TEE_PARAM_TYPE_NONE,
          TEE_PARAM_TYPE_NONE)
  else None.

Ltac refuse_command cmd :=
  do 3 try (match goal with |- context [cmd =? ?x] => destruct (cmd =? x) end;
    try (intros Hty; rewrite bool_decide_false by (intros ->; apply Hty; reflexivity);
         reflexivity));
  try done.

(** A command of the 2.4.1 application with other parameters than its own is
    refused, and the state does not change: no module runs, and the sizes
    stay configured as they were. *)
Theorem invoke_bad_parameters_241 NO_COPY FRIEDRICH_OPENSSL cmd types params (w : W) :
  watz_types cmd <> Some types ->
  WatzTA241.TA_InvokeCommandEntryPoint NO_COPY FRIEDRICH_OPENSSL cmd types params w =
    Ret (TEE_ERROR_BAD_PARAMETERS, w).
Proof.
  unfold watz_types, WatzTA241.TA_InvokeCommandEntryPoint, WatzTA241.COMMAND_RUN_WASM,
    WatzTA241.COMMAND_CONFIGURE_HEAP, WatzTA241.COMMAND_CONFIGURE_LINEAR_MEMORY.
  refuse_command cmd.
Qed.
End commands.
