(* ===== verification/Runs.v ===== *)
(** * Concrete runs

    The programs run on the executable trusted operating system of [ToyTEE]:
    a complete session of an attester with the verifier, evaluated step by
    step. The runs show that the hypotheses of the theorems can hold, and
    what the code does on inputs the theorems single out. *)

From S2P Require Import Prelude TeeApi TeeSpec Layout KeyDerivation TeeLogic KeySpec ToyTEE.
From S2P Require Import Attester AttesterSpec Verifier VerifierSpec VerifierTA VerifierTASpec.
From S2P Require Import Protocol.

#[export] Instance attr_value_eq_dec : EqDecision attr_value.
Proof. solve_decision. Defined.
#[export] Instance tee_object_eq_dec : EqDecision tee_object.
Proof. solve_decision. Defined.

(** ** Evaluating runs *)

(** The state after a run, for runs that return. *)
Definition after {S A} (m : M S A) (s : S) : S :=
  match m s with
  | Ret (_, s') => s'
  | Fault _ => s
  end.

Definition result {S A} (m : M S A) (s : S) : option A :=
  match m s with
  | Ret (a, _) => Some a
  | Fault _ => None
  end.

(** Whether a run returns a value that satisfies [p], and where it leads. *)
Definition test {S A} (m : M S A) (s : S) (p : A -> bool) : bool :=
  match m s with
  | Ret (a, _) => p a
  | Fault _ => false
  end.

Lemma test_runs {S A} (m : M S A) s p :
  test m s p = true -> exists a, m s = Ret (a, after m s) /\ p a = true.
Proof. unfold test, after. destruct (m s) as [[]|]; [|done]. eauto. Qed.

(** A run that ends with the result TEE_SUCCESS. *)
Definition succeeds {S A} (m : M S A) (res : A -> TEE_Result) (s : S) : bool :=
  test m s (fun a => bool_decide (res a = TEE_SUCCESS)).

Lemma succeeds_runs {S A} (m : M S A) res s :
  succeeds m res s = true -> exists a, m s = Ret (a, after m s) /\ res a = TEE_SUCCESS.
Proof.
  intros (a & Hrun & Hp)%test_runs. exists a. split; [done|]. by apply bool_decide_eq_true_1 in Hp.
Qed.

Lemma succeeds_res {S} (m : M S TEE_Result) s :
  succeeds m id s = true -> m s = Ret (TEE_SUCCESS, after m s).
Proof. intros (a & Hrun & Hp)%succeeds_runs. simpl in Hp. by subst. Qed.

(** The value a run returns besides its result. *)
Definition returned {S A} (m : M S (TEE_Result * A)) (s : S) (default : A) : A :=
  match m s with
  | Ret ((_, a), _) => a
  | Fault _ => default
  end.

Lemma succeeds_pair {S A} (m : M S (TEE_Result * A)) s d :
  succeeds m fst s = true -> m s = Ret ((TEE_SUCCESS, returned m s d), after m s).
Proof.
  unfold returned. intros ([res a] & Hrun & Hp)%succeeds_runs. simpl in Hp. subst. by rewrite Hrun.
Qed.

(** The same for two values. *)
Definition returned2 {S A B} (m : M S (TEE_Result * A * B)) (s : S) (a : A) (b : B) : A * B :=
  match m s with
  | Ret ((_, a, b), _) => (a, b)
  | Fault _ => (a, b)
  end.

Lemma succeeds_triple {S A B} (m : M S (TEE_Result * A * B)) s a b :
  succeeds m (fun p => fst (fst p)) s = true ->
  m s = Ret ((TEE_SUCCESS, fst (returned2 m s a b), snd (returned2 m s a b)), after m s).
Proof.
  unfold returned2. intros ([[res x] y] & Hrun & Hp)%succeeds_runs. simpl in Hp. subst.
  by rewrite Hrun.
Qed.

(** Conversion compares runs by name before it evaluates them. *)
Strategy 100 [after returned returned2 succeeds test].

(** Evaluates a closed test. *)
Ltac evaluate := vm_compute; reflexivity.

(** ** The verifier *)

Definition no_peer (host : bytes) (port : Z) (received : bytes) : bytes := [].

Definition V : TEE := toy_TEE no_peer.
#[local] Existing Instance toy_spec.

Abbreviation VW := (world (@tee V) ra_context_verifier).

Definition the_secret : bytes := [Byte.x48; Byte.x69].

(** A session is opened and the secret configured. *)
Definition v_start : VW := World (T := @tee V) toy_start context_singleton.
Abbreviation open_session :=
  (TA_OpenSessionEntryPoint (T := V) no_params).
Definition v_open : VW := after open_session v_start.

Definition types0 : param_types :=
  (TEE_PARAM_TYPE_MEMREF_INPUT, TEE_PARAM_TYPE_NONE, TEE_PARAM_TYPE_NONE, TEE_PARAM_TYPE_NONE).
Definition types1 : param_types :=
  (TEE_PARAM_TYPE_MEMREF_OUTPUT, TEE_PARAM_TYPE_VALUE_OUTPUT, TEE_PARAM_TYPE_NONE,
   TEE_PARAM_TYPE_NONE).
Definition types2 : param_types :=
  (TEE_PARAM_TYPE_MEMREF_INPUT, TEE_PARAM_TYPE_VALUE_OUTPUT, TEE_PARAM_TYPE_MEMREF_OUTPUT,
   TEE_PARAM_TYPE_NONE).
Definition types3 : param_types :=
  (TEE_PARAM_TYPE_MEMREF_OUTPUT, TEE_PARAM_TYPE_MEMREF_OUTPUT, TEE_PARAM_TYPE_NONE,
   TEE_PARAM_TYPE_NONE).

Abbreviation command := (TA_InvokeCommandEntryPoint (T := V) 0).

Abbreviation bootstrap :=
  (command VERIFIER_COMMAND_BOOTSTRAP_SECRET types0 [PMemref the_secret; PNone; PNone; PNone]).
Definition v_ready : VW := after bootstrap v_open.

(** The answers of the verifier to the bytes it has received. *)
Definition verifier_peer (received : bytes) : bytes :=
  let v1 := after (Verifier.handle_msg0 (T := V) received) v_ready in
  match result (Verifier.prepare_msg1 (T := V) (zeros 300)) v1 with
  | Some (TEE_SUCCESS, m1, _) =>
      let m1 := take Verifier.sizeof_msg1 m1 in
      let v2 := after (Verifier.prepare_msg1 (T := V) (zeros 300)) v1 in
      let m2 := drop Verifier.sizeof_msg0 received in
      match result (Verifier.handle_msg2 (T := V) m2) v2 with
      | Some TEE_SUCCESS =>
          let v3 := after (Verifier.handle_msg2 (T := V) m2) v2 in
          match result (Verifier.prepare_msg3 (T := V) (zeros 70) the_secret 2) v3 with
          | Some (TEE_SUCCESS, m3) => m1 ++ m3
          | _ => m1
          end
      | _ => m1
      end
  | _ => []
  end.

(** ** The attester *)

Definition A : TEE := toy_TEE (fun _ _ => verifier_peer).

Abbreviation AW := (world (@tee A) ra_context).

Definition a_start : AW := World (T := @tee A) toy_start zero_context.

Abbreviation handshake :=
  (ra_net_handshake (T := A) [] [] 0 [] 0 (zeros 32) 32).

Definition a_session : AW := after handshake a_start.

Definition the_anchor : bytes := returned handshake a_start [].

Lemma handshake_runs : handshake a_start = Ret ((TEE_SUCCESS, the_anchor), a_session).
Proof. refine (succeeds_pair handshake a_start [] _). evaluate. Qed.

(** The verifier's side of the same session. *)
Abbreviation v_msg0 :=
  (Verifier.handle_msg0 (T := V) (Attester.msg0 (w_ctx a_session))).
Definition v1 : VW := after v_msg0 v_ready.
Abbreviation v_msg1 :=
  (Verifier.prepare_msg1 (T := V) (zeros 300)).
Definition v2 : VW := after v_msg1 v1.
Definition msg1_out : bytes := fst (returned2 v_msg1 v1 [] None).
Definition msg1_out_size : option Z := snd (returned2 v_msg1 v1 [] None).

(** The quote, its appraisal and the secret. *)
Abbreviation collect :=
  (ra_quote_collect (T := A) TEE_HANDLE_NULL (zeros 32) the_anchor (zeros 196)).
Definition the_quote : bytes :=
  snd (returned2 collect a_session TEE_HANDLE_NULL []).
Definition a_collected : AW := after collect a_session.
Abbreviation send_quote :=
  (ra_net_send_quote (T := A) the_quote).
Definition a_sent : AW := after send_quote a_collected.
Abbreviation v_msg2 :=
  (Verifier.handle_msg2 (T := V) (Attester.msg2 (w_ctx a_sent))).
Definition v3 : VW := after v_msg2 v2.
Abbreviation v_msg3 :=
  (Verifier.prepare_msg3 (T := V) (zeros 70) the_secret 2).
Definition v4 : VW := after v_msg3 v3.
Abbreviation receive :=
  (ra_net_receive_data (T := A) 100).
Definition a_received : AW := after receive a_sent.
Definition msg3_out : bytes := returned v_msg3 v3 [].
Definition the_data : bytes := fst (returned2 receive a_sent [] 0).
Definition the_data_size : Z := snd (returned2 receive a_sent [] 0).

(** Decides a closed equation by evaluation. *)
Ltac decide_eq := apply (bool_decide_eq_true_1 (_ = _)); evaluate.

Lemma joined_run :
  joined (TA := A) (TV := V) [] [] 0 [] 0 (zeros 32) 32 the_anchor a_start a_session
    (Attester.msg0 (w_ctx a_session)) (zeros 300) msg1_out msg1_out_size v_ready v1 v2.
Proof.
  split.
  - exact handshake_runs.
  - refine (succeeds_res v_msg0 v_ready _). evaluate.
  - refine (succeeds_triple v_msg1 v1 [] None _). evaluate.
  - decide_eq.
  - decide_eq.
  - decide_eq.
Qed.

(** The socket of the attester. *)
Definition socket_of (w : AW) : tee_socket :=
  default (Socket (fun _ => []) [] 0) (v_socks (toy_view (w_tee w)) !! socket_ctx (w_ctx w)).

Lemma lookup_default {X} (o : option X) d : is_Some o -> o = Some (default d o).
Proof. by intros [x ->]. Qed.

Lemma socket_found (w : AW) :
  bool_decide (is_Some (v_socks (toy_view (w_tee w)) !! socket_ctx (w_ctx w))) = true ->
  v_socks (view (w_tee w)) !! socket_ctx (w_ctx w) = Some (socket_of w).
Proof. intros H%bool_decide_eq_true_1. by apply lookup_default. Qed.

(** The key behind a handle of the attester. *)
Definition attester_key_of (w : AW) (h : handle) : bytes :=
  default [] (v_objs (toy_view (w_tee w)) !! h ≫= obj_attr TEE_ATTR_SECRET_VALUE).

Lemma delivered_run :
  delivered (TA := A) (TV := V)
    (attester_key_of a_sent (Attester.ecdh_shared_session_key (w_ctx a_sent)))
    a_sent a_received 100 the_data the_data_size (zeros 70) the_secret msg3_out 2 v3 v4.
Proof.
  split.
  - unfold aes_key. decide_eq.
  - unfold aes_key. decide_eq.
  - refine (succeeds_pair v_msg3 v3 [] _). evaluate.
  - exists (socket_of a_sent), []. split; [apply socket_found; evaluate|decide_eq].
  - lia.
  - refine (succeeds_triple receive a_sent [] 0 _). evaluate.
  - apply (bool_decide_eq_true_1 (_ <= _)). evaluate.
Qed.

(** ** The theorems on these runs *)

(** The same platform with a 64-bit [size_t]. *)
Program Definition wide_platform : Platform := {|
  sizeof_size_t := 8;
  RA_ANCHOR_SIZE := 32;
  RA_CLAIM_HASH_SIZE := 32;
  RA_ATTESTATION_KEY_SIZE := 64;
  RA_SIGNATURE_SIZE := 64;
  sizeof_ra_quote := 200;
  quote_anchor := Field 0 32;
  quote_version := Field 32 4;
  quote_claim_hash := Field 36 32;
  quote_attestation_key := Field 68 64;
  quote_signature := Field 132 64
|}.
Next Obligation. by right. Qed.
Next Obligation. done. Qed.
Next Obligation. done. Qed.
Next Obligation. simpl. lia. Qed.

(** The attester of a 64-bit build with its key pair. *)
Abbreviation wide_alloc := (@alloc_ra_context A wide_platform).
Abbreviation wide_keys := (Attester.generate_ecdh_keypair (T := A)).
Definition wide_start : AW :=
  after wide_alloc (World (T := @tee A) toy_start (@zero_context wide_platform)).
Definition wide_ready : AW := after wide_keys wide_start.
Definition wide_verifier : VW :=
  World (T := @tee V) toy_start (context_singleton (P := wide_platform)).

(** Both sides of the concrete 32-bit session hold the same keys; a 64-bit
    verifier does not accept the message of a 64-bit attester, with zeros behind
    it as in the host's buffer. *)
Lemma session_keys_agree_witness :
  agreed (TA := A) (TV := V) (P := toy_platform) a_session v2 (zeros 32) the_anchor /\
  (forall w, Verifier.handle_msg0 (T := V) (P := wide_platform)
     (Attester.msg0 (w_ctx wide_ready) ++ zeros 228) wide_verifier <> Ret (TEE_SUCCESS, w)).
Proof.
  split.
  - exact (proj1 (session_keys_agree (TA := A) (TV := V) (P := toy_platform)) eq_refl
      _ _ _ _ _ _ _ _ _ _ _ _ _ _ _ _ _ joined_run).
  - intros w. apply (proj2 (session_keys_agree (TA := A) (TV := V) (P := wide_platform)) eq_refl
      wide_start wide_ready).
    + decide_eq.
    + decide_eq.
    + refine (succeeds_res wide_keys wide_start _). evaluate.
    + decide_eq.
    + apply (bool_decide_eq_true_1 (_ <> _)). evaluate.
Defined.

(** The concrete attester obtains the secret of the concrete verifier. *)
Lemma secret_delivered_witness : bread the_secret 2 = Some the_data /\ the_data_size = 2.
Proof.
  exact (secret_delivered (TA := A) (TV := V) (P := toy_platform) _ _ _ _ _ _ _ _ _ _ _ _
    delivered_run).
Defined.

Lemma ra_net_handshake_authenticates_witness :
  exists a x y vx vy sx sy,
    authenticated (w_ctx a_session) (view (w_tee a_session)) a x y vx vy sx sy.
Proof.
  destruct (ra_net_handshake_authenticates (T := A) _ _ _ _ _ _ _ _ _ _ handshake_runs)
    as (a & x & y & vx & vy & sx & sy & n & H & _).
  exists a, x, y, vx, vy, sx, sy. exact H.
Defined.

Lemma receive_terminates_witness :
  receive_socket_per_chunk (T := A) (socket_ctx (w_ctx a_sent)) 4 (zeros 10) (zlen (zeros 10))
    a_sent <> Fault OutOfFuel.
Proof.
  apply (receive_terminates (T := A) _ (socket_of a_sent) 4 (zeros 10) a_sent).
  - apply socket_found. evaluate.
  - reflexivity.
Defined.

Lemma ra_net_receive_data_authentic_witness :
  exists key b ct, msg3_opens key b ct the_data.
Proof.
  assert (receive a_sent = Ret ((TEE_SUCCESS, the_data, the_data_size), a_received)) as Hrun
    by (refine (succeeds_triple receive a_sent [] 0 _); evaluate).
  assert (v_socks (view (w_tee a_sent)) !! socket_ctx (w_ctx a_sent) = Some (socket_of a_sent))
    as Hs by (apply socket_found; evaluate).
  destruct (ra_net_receive_data_authentic (T := A) 100 _ a_sent _ _ _ Hs ltac:(lia) Hrun)
    as (o & key & b & m & ct & _ & _ & _ & _ & _ & H & _).
  exists key, b, ct. exact H.
Defined.

(** The coordinates of the attester's key. *)
Definition key_x : bytes :=
  default [] (sized Attester.msg0_x_raw Attester.msg0_x_size (Attester.msg0 (w_ctx a_session))).
Definition key_y : bytes :=
  default [] (sized Attester.msg0_y_raw Attester.msg0_y_size (Attester.msg0 (w_ctx a_session))).

Abbreviation quote_message := (prepare_msg2 (T := A) the_quote).

Lemma prepare_msg2_always_succeeds_witness :
  msg2_parts (Attester.msg2 (w_ctx (after quote_message a_collected))) key_x key_y the_quote.
Proof.
  assert (quote_message a_collected = Ret (TEE_SUCCESS, after quote_message a_collected)) as Hrun
    by (apply succeeds_res; evaluate).
  apply (prepare_msg2_always_succeeds (T := A) the_quote a_collected _ _ TEE_SUCCESS
    (after quote_message a_collected)).
  - decide_eq.
  - decide_eq.
  - split; [decide_eq|]. split; decide_eq.
  - exact Hrun.
Defined.

(** ** The commands of the verifier *)

Lemma reachable_v_open : reachable v_open.
Proof.
  exists toy_start. apply rtc_once. eapply (step_open no_params TEE_SUCCESS).
  refine (succeeds_res open_session v_start _). evaluate.
Qed.

(** A command that returns leads to a reachable state. *)
Lemma reachable_command cmd types params (w : VW) :
  reachable w -> test (command cmd types params) w (fun _ => true) = true ->
  reachable (after (command cmd types params) w).
Proof.
  intros [t Hw] Ht. destruct (test_runs _ _ _ Ht) as ([res params'] & Hrun & _).
  exists t. eapply rtc_r; [exact Hw|]. eapply step_invoke, Hrun.
Qed.

Lemma reachable_v_ready : reachable v_ready.
Proof. apply reachable_command; [exact reachable_v_open|evaluate]. Qed.

Abbreviation command0 := (command VERIFIER_COMMAND_HANDLE_MSG_0 types0
  [PMemref (Attester.msg0 (w_ctx a_session)); PNone; PNone; PNone]).
Abbreviation command1 := (command VERIFIER_COMMAND_PREPARE_MSG_1 types1
  [PMemref (zeros 300); PValue 0 0; PNone; PNone]).
Abbreviation command2 := (command VERIFIER_COMMAND_HANDLE_MSG_2 types2
  [PMemref (Attester.msg2 (w_ctx a_sent)); PValue 0 0; PMemref (zeros 256); PNone]).
Abbreviation command3 := (command VERIFIER_COMMAND_PREPARE_MSG_3 types3
  [PMemref (zeros 70); PMemref (zeros 256); PNone; PNone]).

Definition c1 : VW := after command0 v_ready.
Definition c2 : VW := after command1 c1.
Definition c3 : VW := after command2 c2.
Definition c4 : VW := after command3 c3.

Lemma reachable_c1 : reachable c1.
Proof. apply reachable_command; [exact reachable_v_ready|evaluate]. Qed.
Lemma reachable_c2 : reachable c2.
Proof. apply reachable_command; [exact reachable_c1|evaluate]. Qed.
Lemma reachable_c3 : reachable c3.
Proof. apply reachable_command; [exact reachable_c2|evaluate]. Qed.

Lemma open_session_keys_witness :
  exists a sx sy, session_keys (w_ctx v_open) (view (w_tee v_open)) a sx sy.
Proof.
  apply (open_session_keys (T := V) no_params v_start v_open).
  - exists toy_start. apply rtc_refl.
  - refine (succeeds_res open_session v_start _). evaluate.
Defined.

Lemma handle_msg_0_command_witness :
  exists b vx vy x y, keyed (w_ctx c1) (view (w_tee c1)) b vx vy x y.
Proof.
  destruct (handle_msg_0_command (T := V) 0 types0 (Attester.msg0 (w_ctx a_session)) [PNone; PNone; PNone]
    v_ready (returned command0 v_ready []) c1 reachable_v_ready) as (_ & b & vx & vy & x & y & H & _).
  - refine (succeeds_pair command0 v_ready [] _). evaluate.
  - exists b, vx, vy, x, y. exact H.
Defined.

Lemma prepare_msg_1_command_witness :
  msg1_prepared (zeros 300) 0 [PNone; PNone] (returned command1 c1 []) c1 c2.
Proof.
  apply (prepare_msg_1_command (T := V) 0 types1 (zeros 300) 0 0 [PNone; PNone] c1
    (returned command1 c1 []) c2 reachable_c1).
  refine (succeeds_pair command1 c1 [] _). evaluate.
Defined.

Lemma handle_msg_2_command_witness :
  msg2_accepted (Attester.msg2 (w_ctx a_sent)) 0 [PMemref (zeros 256); PNone]
    (returned command2 c2 []) c2 c3.
Proof.
  apply (handle_msg_2_command (T := V) 0 types2 (Attester.msg2 (w_ctx a_sent)) 0 0
    [PMemref (zeros 256); PNone] c2 (returned command2 c2 []) c3).
  refine (succeeds_pair command2 c2 [] _). evaluate.
Defined.

Lemma prepare_msg_3_command_witness :
  secret_encrypted (zeros 70) [PMemref (zeros 256); PNone; PNone] (returned command3 c3 []) c3.
Proof.
  apply (prepare_msg_3_command (T := V) 0 types3 (zeros 70) [PMemref (zeros 256); PNone; PNone] c3
    (returned command3 c3 []) c4 reachable_c3).
  refine (succeeds_pair command3 c3 [] _). evaluate.
Defined.

Lemma bootstrap_secret_command_witness : secret_size (w_ctx v_ready) = 2.
Proof.
  apply (bootstrap_secret_command (T := V) 0 types0 the_secret [PNone; PNone; PNone] v_open TEE_SUCCESS
    (returned bootstrap v_open []) v_ready reachable_v_open).
  - reflexivity.
  - reflexivity.
  - refine (succeeds_pair bootstrap v_open [] _). evaluate.
Defined.

Lemma invoke_bad_parameters_witness :
  command 7 types0 [] v_ready = Ret ((TEE_ERROR_BAD_PARAMETERS, []), v_ready).
Proof. apply invoke_bad_parameters. discriminate. Defined.

(** ** Layouts *)

Lemma layouts_agree_ilp32_witness :
  attester_msg1 (P := toy_platform) = verifier_msg1 (P := toy_platform).
Proof.
  destruct (layouts_agree_ilp32 (P := toy_platform) eq_refl) as (_ & _ & H & _). exact H.
Defined.

Lemma layouts_differ_lp64_witness :
  (Attester.sizeof_msg1 (P := wide_platform) < Verifier.sizeof_msg1 (P := wide_platform))%nat.
Proof.
  destruct (layouts_differ_lp64 (P := wide_platform) eq_refl) as (_ & _ & H & _). exact H.
Defined.

(** ** What the code does on other inputs *)

(** A quote over another session, but with a valid signature and MAC. *)
Definition stale_quote : bytes := toy_quote (zeros 32) (zeros 32).
Definition stale_msg2 : bytes :=
  Attester.msg2 (w_ctx (after (prepare_msg2 (T := A) stale_quote) a_session)).

(** A quote whose anchor belongs to another session is refused, but the flag
    that says that the quote is valid stays set. *)
Example anchor_mismatch_leaves_valid :
  match Verifier.handle_msg2 (T := V) stale_msg2 v2 with
  | Ret (res, w) => res = TEE_ERROR_SECURITY /\ is_quote_valid (w_ctx w) = true
  | Fault _ => False
  end.
Proof.
  assert (test (Verifier.handle_msg2 (T := V) stale_msg2) v2
    (fun res => bool_decide (res = TEE_ERROR_SECURITY)) = true) as Ht by evaluate.
  destruct (test_runs _ _ _ Ht) as (res & Hrun & Hres). rewrite Hrun.
  apply bool_decide_eq_true_1 in Hres. split; [exact Hres|decide_eq].
Qed.

(** [PREPARE_MSG_3] does not ask whether a quote was accepted: right after
    [msg0] the secret is encrypted for whoever sent it. *)
Example secret_released_without_quote :
  is_quote_valid (w_ctx c1) = false /\
  match command3 c1 with
  | Ret ((res, PMemref b :: _), _) => res = TEE_SUCCESS /\
      b.[Verifier.sizeof_msg3,+2] = the_secret
  | _ => False
  end.
Proof.
  split; [decide_eq|].
  assert (test command3 c1 (fun '(res, ps) => bool_decide (res = TEE_SUCCESS) &&
    match ps with
    | PMemref b :: _ => bool_decide (b.[Verifier.sizeof_msg3,+2] = the_secret)
    | _ => false
    end) = true) as Ht by evaluate.
  destruct (test_runs _ _ _ Ht) as ([res ps] & Hrun & Hp). rewrite Hrun.
  apply andb_true_iff in Hp as [Hres Hp]. destruct ps as [|[] ps]; try discriminate Hp.
  apply bool_decide_eq_true_1 in Hres, Hp. split; assumption.
Qed.

(** The size members of a received message are not checked: a coordinate that
    claims 33 bytes is read past the end of its array. *)
Example oversized_msg0_faults :
  match Verifier.handle_msg0 (T := V)
    (uset Verifier.msg0_x_size 33 (Attester.msg0 (w_ctx a_session))) v_ready with
  | Fault f => f = UB
  | Ret _ => False
  end.
Proof.
  assert (match Verifier.handle_msg0 (T := V)
    (uset Verifier.msg0_x_size 33 (Attester.msg0 (w_ctx a_session))) v_ready with
  | Fault UB => true
  | _ => false
  end = true) as Ht by evaluate.
  destruct (Verifier.handle_msg0 _ _) as [|[]]; discriminate Ht || reflexivity.
Qed.
