(* ===== verification/LiveRuns.v ===== *)
(** * Runs in which the verifier makes progress

    The executable TEE of [ToyTEE] never runs out of resources, so the
    theorems of [VerifierLive] apply to the runs of [Runs]. *)

From S2P Require Import Prelude TeeApi TeeSpec Layout KeyDerivation TeeLogic KeySpec Reliable.
From S2P Require Import ToyTEE Verifier VerifierSpec VerifierTA VerifierTASpec VerifierLive.
From S2P Require Import Attester Runs.

(** A call of the toy TEE whose conditions hold. *)
Ltac toy_run :=
  intros; simpl in *;
  unfold toy_alloc_obj, toy_populate, toy_generate, toy_get_attr, toy_alloc_op, toy_set_key,
    toy_update, toy_reset, toy_digest, toy_mac, toy_mac_compare, toy_derive, toy_sign_digest,
    toy_verify, toy_ae_init, toy_encrypt, toy_random, toy_malloc, public_point,
    on_op, on_obj, fill in *;
  repeat match goal with H : ?x = _ |- context [?x] => rewrite H; simpl end;
  rewrite ?Z.leb_refl, ?decide_True by done;
  repeat match goal with |- context [?a <=? ?b] =>
    destruct (Z.leb_spec a b); [|exfalso; unfold toy_sha256, toy_cmac, toy_sign in *;
      rewrite ?length_zip_with, ?length_pad in *; lia] end;
  simpl; eauto 10.

#[export] Instance toy_reliable (peer : bytes -> Z -> bytes -> bytes)
    : TEE_Reliable (toy_TEE peer) toy_crypto (toy_spec peer).
Proof.
  split. all: try solve [toy_run].
  intros h d sig t p x y Hp _ Hx Hy _ Hsig%bool_decide_eq_true_1. toy_run.
Qed.











