(* ===== verification/LinearRuns.v ===== *)
(** * Concrete runs of linear memory

    A trusted operating system with two places for mappings, memories with and
    without a heap, and the theorems on linear memory applied to them. *)

From S2P Require Import Prelude TeeApi TeeSpec Layout ToyTEE TzPlatform TzSpec Memory Ems EmsTree.
From S2P Require Import EmsFree EmsSpec EmsHeap EmsClient EmsMigrate EmsRuns LinearMemory LinearSpec.
From S2P Require Import LinearGrow LinearInit LinearHeap Runs.

#[local] Existing Instance wide_platform.

(** ** The system *)

(** The first free of two places. *)
Definition place (n : Z) (ms : gmap Z Z) : option Z :=
  if decide (2 ^ 33 < n) then None else
  if decide (ms !! 65536 = None) then Some 65536 else
  if decide (ms !! (2 ^ 34) = None) then Some (2 ^ 34) else None.

Lemma place_spec n ms a :
  place n ms = Some a -> ms !! a = None /\ 65536 <= a /\ a + n <= 2 ^ 35 /\ a mod 8 = 0.
Proof.
  unfold place. destruct (decide (2 ^ 33 < n)); [done|].
  destruct (decide (ms !! 65536 = None)); [intros [= <-]; repeat split; done || lia|].
  destruct (decide (ms !! (2 ^ 34) = None)); [|done]. intros [= <-]. repeat split; done || lia.
Qed.

#[local] Instance slot_system : TEE_System V := {|
  tee_map_zi n (t : @tee V) := Some (match place n (toy_maps t) with
    | Some a => (Some a, with_maps <[a := n]> t)
    | None => (None, t)
    end);
  tee_unmap a n (t : @tee V) := Some (if decide (toy_maps t !! a = Some n)
    then (TEE_SUCCESS, with_maps (delete a) t) else (TEE_ERROR_BAD_PARAMETERS, t));
  tee_mprotect _ _ _ (t : @tee V) := Some (TEE_SUCCESS, t);
  tee_remap n a (t : @tee V) := Some (match place n (toy_maps t) with
    | Some b => (Some b, with_maps (<[b := n]> ∘ delete a) t)
    | None => (None, t)
    end);
  TEE_GetREETime (t : @tee V) := Some (TeeTime 5000 250 0, t);
  PAGE_SIZE := 4096;
  TEE_MATTR_UR := 8;
  TEE_MATTR_PR := 1;
  TEE_MATTR_UW := 16;
  TEE_MATTR_PW := 2;
  TEE_MATTR_UX := 32;
  TEE_MATTR_PX := 4
|}.

#[local] Instance slot_pages : Pages (T := V).
Proof. exists 12. by split. Qed.

#[local] Program Instance slot_mappings : Mappings (T := V) := {| maps := toy_maps |}.
Next Obligation.
  intros n t r t'. cbn. destruct (place n (toy_maps t)) as [a|] eqn:Hp; intros [= <- <-]; [|done].
  apply place_spec in Hp as [Hf _]. by split.
Qed.
Next Obligation. cbn. by intros a n prot t r t' [= <- <-]. Qed.
Next Obligation. cbn. intros a n t r t' Hm. rewrite decide_True by done. by intros [= <- <-]. Qed.
Next Obligation.
  cbn. intros n a m t r t' Hm. destruct (place n (toy_maps t)) as [b|] eqn:Hp; intros [= <- <-]; [|done].
  apply place_spec in Hp as [Hf _]. split; [|done]. apply lookup_delete_None. by right.
Qed.

#[local] Program Instance slot_area : MapArea (T := V) := {| map_low := 65536; map_high := 2 ^ 35 |}.
Next Obligation. lia. Qed.
Next Obligation.
  cbn. intros n t a t'. destruct (place n (toy_maps t)) as [b|] eqn:Hp; intros [= <- <-].
  by apply place_spec in Hp as [_ ?].
Qed.
Next Obligation.
  cbn. intros n b t a t'. destruct (place n (toy_maps t)) as [c|] eqn:Hp; intros [= <- <-].
  by apply place_spec in Hp as [_ ?].
Qed.

(** ** Memories *)

Definition no_heap : gc_heap := GcHeap 0 0 [] 0 ∅ false 0 0 memory0.

Abbreviation W := (world (@tee V) WASMModuleInstance).

(** A system with a mapping of one page, and an instance. *)
Definition mapped_page : @tee V := with_maps (fun _ => {[65536 := 65536]}) toy_start.
Definition world_of (m : WASMMemoryInstance) (h : gc_heap) : W :=
  World (T := @tee V) mapped_page (ModuleInstance (Some m) h 0 None []).

(** One page that may grow to ten, and one page with the heap of [EmsRuns.v]. *)
Definition plain_memory : WASMMemoryInstance :=
  MemoryInstance 65536 1 10 65536 65536 131072 65536 65536 0 [].
Definition heap_memory : WASMMemoryInstance :=
  MemoryInstance 65536 1 1 65536 65536 131072 65536 66048 4096 [].

Lemma plain_memory_ok : memory_ok plain_memory.
Proof. split; simpl; unfold MAX_LINEAR_MEMORY_SIZE, BH_GB; lia. Qed.

Lemma one_page_aligned : page_align (T := V) (65536 * 1) = 65536.
Proof. vm_compute. reflexivity. Qed.

Lemma plain_linear h : linear_ok (T := V) (world_of plain_memory h) plain_memory [].
Proof.
  split; [done|exact plain_memory_ok| | |exact (eq_sym one_page_aligned)|done|by left].
  - right. simpl. split; [done|]. split; [lia|]. split; [done|]. apply lookup_singleton_eq.
  - right. split; [|done]. by exists 16.
Qed.

Lemma heap_linear : linear_ok (T := V) (world_of heap_memory heap1) heap_memory [Chunk 64 false; Chunk 440 true].
Proof.
  split; [done| | |by left|exact (eq_sym one_page_aligned)|done|].
  - split; simpl; unfold MAX_LINEAR_MEMORY_SIZE, BH_GB; lia.
  - right. simpl. split; [done|]. split; [lia|]. split; [done|]. apply lookup_singleton_eq.
  - right. split; [exact heap1_inv|vm_compute; reflexivity|by vm_compute|left; by vm_compute].
Qed.

(** ** Witnesses *)

(** A load of four bytes at the end of the page and one byte behind. *)
Lemma checks_confine_witness :
  CHECK_MEMORY_OVERFLOW plain_memory 65536 32 65500 4 = Some 131068 /\
  CHECK_MEMORY_OVERFLOW plain_memory 65536 (2 ^ 32 - 1) (2 ^ 32 - 1) 4 = None.
Proof.
  pose proof (fun o a => checks_confine (T := V) eq_refl (world_of plain_memory no_heap) plain_memory
    eq_refl plain_memory_ok o a 0 4 0 0 0) as H.
  split.
  - etransitivity; [apply H; lia|]. vm_compute. reflexivity.
  - etransitivity; [apply H; lia|]. vm_compute. reflexivity.
Defined.

Lemma address_round_trip_witness :
  (addr ← wasm_runtime_addr_app_to_native (T := V) 65535; wasm_runtime_addr_native_to_app (T := V) addr)
    (world_of plain_memory no_heap) = Ret (65535, world_of plain_memory no_heap).
Proof.
  etransitivity; [apply (address_round_trip (T := V) (P := wide_platform) eq_refl (world_of plain_memory no_heap) plain_memory
    eq_refl plain_memory_ok 65535 0); lia|]. reflexivity.
Defined.

(** Growing by two pages. *)
Lemma memory_grow_correct_witness :
  wp only_panic (memory_grow (T := V) false 2 0)
    (fun r w' => exists ok : bool, enlarge_result (T := V) plain_memory [] 2
       (world_of plain_memory no_heap) ok w' /\ r = if ok then 1 else 2 ^ 32 - 1)
    (world_of plain_memory no_heap).
Proof.
  apply (memory_grow_correct (T := V) (P := wide_platform) eq_refl); [by vm_compute|apply plain_linear|by left].
Defined.

(** A module with one page that may grow to ten, and a heap of 8 KB. *)
Definition small_module : WASMModule := WasmModule 65536 1 10 false (Some 1024).

Lemma small_module_ok : module_ok small_module 0.
Proof.
  split; [left; by vm_compute|]. intros b [= <-]. lia.
Qed.

Lemma insert_app_heap_fits_witness :
  ~ refused small_module 65536 1 10 8192 /\
  placement_ok small_module 65536 1 8192 (Placement 65536 1 10 1024 8192 (Some 9216)) /\
  65536 * 1 = 65536 * 1 + room small_module 65536 1 10 8192.
Proof.
  exact (insert_app_heap_fits small_module 0 8192 small_module_ok ltac:(unfold APP_HEAP_SIZE_MAX; lia)).
Defined.

Lemma memory_instantiate_release_witness :
  wp only_panic (memories_instantiate (T := V) small_module 8192 0 4096)
    (fun ok w1 => instantiate_result (T := V) small_module 8192 (world_of plain_memory no_heap) ok w1 /\
      (ok = true -> wp only_panic (memories_deinstantiate (T := V))
        (fun _ w2 => memories (w_ctx w2) = None /\ toy_maps (w_tee w2) = {[65536 := 65536]}) w1))
    (world_of plain_memory no_heap).
Proof.
  pose proof (memory_instantiate_release (T := V) (P := wide_platform) eq_refl ltac:(by exists 16)
    small_module 0 8192 4096 (world_of plain_memory no_heap) small_module_ok
    ltac:(unfold APP_HEAP_SIZE_MAX; lia) ltac:(right; split; [done|left; by vm_compute])) as H.
  exact H.
Defined.

(** An object of 100 bytes, and freeing of the object in use. *)
Lemma app_heap_correct_witness :
  wp no_fault (wasm_module_malloc (T := V) None None 100)
    (fun r w' => module_malloc_result (T := V) (world_of heap_memory heap1) heap_memory
        [Chunk 64 false; Chunk 440 true] 100 r w' /\
      (r <> 0 -> wasm_runtime_validate_app_addr (T := V) r 100 w' = Ret (true, w')))
    (world_of heap_memory heap1) /\
  wp no_fault (wasm_module_free (T := V) None None 8)
    (fun _ => module_free_result (T := V) (world_of heap_memory heap1) heap_memory
        [Chunk 64 false; Chunk 440 true] 65540 64) (world_of heap_memory heap1).
Proof.
  destruct (app_heap_correct (T := V) (P := wide_platform) eq_refl None None (world_of heap_memory heap1) heap_memory _
    heap_linear ltac:(done) 100 65540 64 ltac:(lia)) as [H1 H2].
  split; [exact H1|]. apply H2. cbn [world_of w_ctx app_heap].
  replace (base_addr heap1) with 65540 by (vm_compute; reflexivity). by left.
Defined.
