(* ===== verification/AppRuns.v ===== *)
(** * An application in its linear memory

    A function that grows its memory, which the system of [LinearRuns.v] then
    moves to another place, stores its argument in the new page and loads it
    again: the life cycle of [AppSafety.v] evaluated. *)

From S2P Require Import Prelude TeeApi TeeSpec Layout ToyTEE TzPlatform TzSpec Memory Ems LinearMemory LinearGrow LinearInit LinearRuns Runs.
From S2P Require Import Opcode Loader LoaderSpec Interp InterpSpec Safety AppSafety LoaderRuns.

#[local] Existing Instance wide_platform.
#[local] Existing Instance slot_system.
#[local] Existing Instance slot_pages.
#[local] Existing Instance slot_mappings.
#[local] Existing Instance slot_area.

Abbreviation W := (world (@tee V) WASMModuleInstance).

#[local] Instance no_natives : Natives W := { invoke_native _ _ w := Ret (None, w) }.

Lemma no_natives_keep module others : NativesKeep (T := V) module others.
Proof. intros w i t args Hw _ _ _. by split. Qed.

Lemma slot_rights : ~ rights_refused (T := V).
Proof. by intros (a & n & prot & t & r & t' & [= <- <-] & H). Qed.

(** [memory.grow] by a page, [i32.store] of the argument at 65536, [i32.load]. *)
Definition grow_code : bytes := bytes_of
  [0x41;1; 0x40;0; 0x1a; 0x41;0x80;0x80;0x04; 0x20;0; 0x36;2;0; 0x41;0x80;0x80;0x04; 0x28;2;0; 0x0b].

Definition grower : WASMFunction := build one_module 5000 [] grow_code.
Definition grow_functions : list WASMFunctionInstance := [wasm_function grower].

Lemma grower_only f : wasm_function f ∈ grow_functions -> f = grower.
Proof.
  assert (forall g h, wasm_function g = wasm_function h -> g = h) as Hinj by (by intros g h [=]).
  unfold grow_functions. intros H%list_elem_of_singleton. by apply Hinj.
Qed.

Lemma grow_instance : instance_ok one_module 8 grow_functions [] [] (fun _ => grow_code).
Proof.
  destruct (unop_types one_module []) as [H1 H2]; [by repeat constructor..|].
  split; [by right|by split|done| | | |].
  - assert (forall i t f, import_function i t <> wasm_function f) as Hne by done.
    unfold grow_functions. intros i t H%list_elem_of_singleton. by apply Hne in H.
  - intros f ->%grower_only. split; [exact H1|exact H2|by vm_compute..].
  - intros f ->%grower_only. by vm_compute.
  - by intros f1 f2 a ->%grower_only ->%grower_only.
Qed.

(** Before the memory is instantiated: no mapping and no memory. *)
Definition empty_world : W := World (T := @tee V) toy_start (ModuleInstance None no_heap 0 None []).
Definition app_state : istate W := State (new_frame grower [] 0) [] [] ∅ 10000 [] [] [] [] 0 empty_world.

Definition app_calls (fuel : nat) (l : list (WASMFunction * list Z)) : IM W (option (list (list Z))) :=
  calls (T := V) false one_module 8 grow_functions [] [] [] 0 0 fuel l.

(** Two calls, each of which grows the memory; the mapping moves and moves back. *)
Example two_calls_run :
  match memories_instantiate (T := V) small_module 0 0 0 empty_world with
  | Ret (true, w1) =>
      match app_calls 100 [(grower, [7]); (grower, [8])] (set_env w1 app_state) with
      | Ret (inr (Some rs), s2) =>
          rs = [[7]; [8]] /\ cur_page_count <$> memories (w_ctx (env s2)) = Some 3
          /\ toy_maps (w_tee (env s2)) = {[65536 := 3 * 65536]}
      | _ => False
      end
  | _ => False
  end.
Proof. by vm_compute. Qed.

Lemma application_life_cycle_witness :
  wp only_panic (memories_instantiate (T := V) small_module 0 0 0) (fun ok w1 => ok = true ->
    match app_calls 100 [(grower, [7]); (grower, [8])] (set_env w1 app_state) with
    | Fault e => only_panic e
    | Ret (inr (Some rs), s2) =>
        length <$> rs = [1; 1]%nat
        /\ wp only_panic (memories_deinstantiate (T := V)) (fun _ w2 =>
             memories (w_ctx w2) = None /\ toy_maps (w_tee w2) = ∅) (env s2)
    | Ret _ => True
    end) empty_world.
Proof.
  assert (Forall (call_fits grow_functions) [(grower, [7]); (grower, [8])]) as Hl.
  { assert (ret_cell_num (Interp.func_type grower) = 1%nat) as E by (by vm_compute).
    assert (wasm_function grower ∈ grow_functions) as Hg by (by apply list_elem_of_singleton).
    do 2 (constructor; [split; [exact Hg|]; cbn [snd fst]; rewrite E; by repeat constructor|]). constructor. }
  pose proof (application_life_cycle (T := V) (P := wide_platform) eq_refl ltac:(by exists 16) false one_module 8
    grow_functions [] [] [] 0 0 (fun _ => grow_code) small_module 0 0 0 100 _ app_state
    empty_world (no_natives_keep _ _) slot_rights small_module_ok ltac:(unfold APP_HEAP_SIZE_MAX; lia)
    ltac:(by left) ltac:(by left) grow_instance ltac:(by split) Hl ltac:(done)) as H.
  eapply wp_mono; [exact H|]. cbv beta. unfold app_calls. intros ok w1 Hq Hok. specialize (Hq Hok).
  destruct (calls _ _ _ _ _ _ _ _ _ _ _ _) as [[[e|[rs|]] s2]|]; [exact Hq|exact Hq|exact Hq|exact Hq].
Defined.
