(* ===== verification/PlatformRuns.v ===== *)
(** * Concrete runs of the platform layer, the runtime and the host programs

    Executable instances of the remaining interfaces (memory mappings and
    clock, the WebAssembly runtime, RSA, the TEE client library) and runs of
    the programs on them. *)

From Stdlib Require Import Strings.String.
From S2P Require Import Prelude TeeApi TeeSpec Layout KeyDerivation TeeLogic KeySpec ToyTEE.
From S2P Require Import TzPlatform TzSpec DebugPrint DebugSpec Wamr WatzTA2021 WatzTA241.
From S2P Require Import WatzSpec NativeSpec Attester AttesterSpec Verifier VerifierSpec.
From S2P Require Import VerifierTA VerifierTASpec Host VerifierHost HostSpec WatzHost2021.
From S2P Require Import WatzHost241 WatzHostSpec Runs.
From stdpp Require Import base list.
#[local] Open Scope Z_scope.

#[local] Existing Instance toy_spec.

(** ** The platform layer *)

#[local] Instance toy_heap : Heap (T := V).
Proof.
  intros n t r t'. cbn. unfold toy_malloc. destruct (Z.leb_spec 0 n); [|done].
  intros [= <- <-]. eexists _, _. split; [done|]. rewrite length_zeros. lia.
Qed.

#[local] Instance toy_blocks : Blocks (T := V).
Proof. intros n t a d t' Hm. by destruct (toy_heap _ _ _ _ Hm) as (? & ? & [= <- <-] & ?). Qed.

#[local] Instance toy_system : TEE_System V := {|
  tee_map_zi n (t : @tee V) := let a := fresh_handle (toy_maps t) in
    Some (Some a, with_maps <[a := n]> t);
  tee_unmap a n (t : @tee V) := Some (if decide (toy_maps t !! a = Some n)
    then (TEE_SUCCESS, with_maps (delete a) t) else (TEE_ERROR_BAD_PARAMETERS, t));
  tee_mprotect _ _ _ (t : @tee V) := Some (TEE_SUCCESS, t);
  tee_remap n a (t : @tee V) := if decide (is_Some (toy_maps t !! a))
    then let b := fresh_handle (toy_maps t) in Some (Some b, with_maps (<[b := n]> ∘ delete a) t)
    else Some (None, t);
  TEE_GetREETime (t : @tee V) := Some (TeeTime 5000 250 0, t);
  PAGE_SIZE := 4096;
  TEE_MATTR_UR := 8;
  TEE_MATTR_PR := 1;
  TEE_MATTR_UW := 16;
  TEE_MATTR_PW := 2;
  TEE_MATTR_UX := 32;
  TEE_MATTR_PX := 4
|}.

#[local] Instance toy_pages : Pages (T := V).
Proof. exists 12. by split. Qed.

#[local] Program Instance toy_mappings : Mappings (T := V) := {| maps := toy_maps |}.
Next Obligation.
  intros n t r t'. cbn. intros [= <- <-]. split; [apply fresh_handle_fresh|done].
Qed.
Next Obligation. cbn. by intros a n prot t r t' [= <- <-]. Qed.
Next Obligation. cbn. intros a n t r t' Hm. rewrite decide_True by done. by intros [= <- <-]. Qed.
Next Obligation.
  cbn. intros n a m t r t' Hm. rewrite decide_True by done. intros [= <- <-]. split; [|done].
  apply lookup_delete_None. right. apply fresh_handle_fresh.
Qed.

Definition hello : bytes := to_bytes "hello"%string.
Definition console : world (@tee V) output :=
  World (T := @tee V) toy_start (watz_set_output_buffer (zeros 8) 8).

(** A write that fits is captured, a second one that would fill the buffer is
    dropped although it is reported as written. *)
Example writev_drops :
  result (_ ← writev (T := V) 1 [hello]; writev (T := V) 1 [hello]) console = Some 5 /\
  out_text (w_ctx (after (_ ← writev (T := V) 1 [hello]; writev (T := V) 1 [hello]) console)) =
    hello.
Proof. split; evaluate. Qed.

Lemma writev_captures_witness :
  wp only_panic (writev (T := V) 1 [hello; hello])
    (fun n w' => n = 10 /\ out_text (w_ctx w') = []) console.
Proof.
  eapply wp_mono;
    [apply (writev_captures (T := V) 1 [hello; hello] console); [split; by vm_compute|reflexivity..]|].
  intros n w' (_ & _ & Hn & Ht). split; [exact Hn|exact Ht].
Defined.

(** [100%] on the console of an application. *)
Definition percent : bytes := to_bytes "100%"%string.

Lemma writev_format_string_witness :
  wp (fun f => f = Panic \/ f = UB) (writev (T := V) 1 [percent]) (fun _ _ => False) console.
Proof.
  apply (writev_format_string (T := V) 1 [percent] console); [split; by vm_compute|reflexivity..].
Defined.

Lemma page_align_rounds_up_witness : 5000 <= page_align (T := V) 5000 < 5000 + 4096.
Proof.
  destruct (page_align_rounds_up (T := V) 5000) as [_ H]; [lia|by vm_compute|exact H].
Defined.

Lemma page_align_wraps_witness : page_align (T := V) (2 ^ 32 - 1) = 0.
Proof. apply (page_align_wraps (T := V)). split; by vm_compute. Defined.

Definition clock : world (@tee V) () := World (T := @tee V) toy_start ().

(** At 5000 seconds the microseconds have wrapped around. *)
Lemma boot_microseconds_exact_witness : exists us : Z, 0 <= us < 2 ^ 32 /\ us = 705282704.
Proof.
  destruct (boot_microseconds_exact (T := V) clock 705282704 clock) as (t & _ & H & _);
    [evaluate|].
  exists 705282704. split; [exact H|reflexivity].
Defined.

Lemma strcpy_copies_witness :
  strcpy (zeros 8) (hello ++ [Byte.x00]) = Some (splice 0 (hello ++ [Byte.x00]) (zeros 8)).
Proof.
  destruct (strcpy_copies hello [] (zeros 8)) as [H _].
  - apply (bool_decide_eq_true_1 (_ ∉ _)). evaluate.
  - exact H.
Defined.

(** Mapping and unmapping three bytes with all rights. *)
Lemma os_mmap_munmap_witness :
  wp only_panic (r ← os_mmap (T := V) 3 7 (-1);
                 match r with
                 | Some a => os_munmap (T := V) a 3
                 | None => mret tt
                 end)
    (fun _ w' => toy_maps (w_tee w') = ∅) clock.
Proof.
  eapply wp_mono; [apply (os_mmap_munmap (T := V) 3 7 (-1) clock)|].
  intros [] w' [H _]. exact H.
Defined.

(** ** Debug output *)

Lemma verifier_print_overflows_witness :
  exists f, verifier_print_byte_array (T := V) hello clock = Fault f.
Proof. exact (verifier_print_overflows (T := V) hello clock). Defined.

Lemma attester_print_lines_witness :
  wp only_panic (attester_print_byte_array (T := V) hello)
    (fun lines _ => lines = [to_bytes "68 65 6c 6c 6f "%string]) clock.
Proof.
  eapply wp_mono; [exact (attester_print_lines (T := V) hello clock)|].
  intros lines w' ->. evaluate.
Defined.

(** ** The runtime *)

(** A runtime that runs a module by printing it, if it is plain text. *)
#[local] Instance toy_wamr : WAMR := {|
  runtime := nat;
  wasm_module_t := bytes;
  wasm_module_inst_t := bytes;
  sizeof_NativeSymbol := 16;
  wasm_runtime_full_init _ r := (true, r);
  wasm_runtime_load b _ r := (if decide (b = []) then None else Some b, S r);
  wasm_runtime_set_wasi_args _ _ _ r := r;
  wasm_runtime_instantiate m _ _ r := (Some m, S r);
  wasm_application_execute_main i r := (true, [(1, [if printable (take 256 i) then take 256 i else []])], r);
  wasm_runtime_deinstantiate _ r := pred r;
  wasm_runtime_unload _ r := pred r;
  wasm_runtime_destroy _ := 0%nat
|}.

#[local] Instance toy_application : Application toy_wamr.
Proof.
  intros i r ok writes r' [= <- <- <-]. constructor; [|done]. cbn [concat].
  rewrite app_nil_r. destruct (printable (take 256 i)) eqn:Hp; [|by split; vm_compute].
  split; [rewrite length_take; lia|done].
Qed.

(** The normal world rewrites its buffer after the first access. *)
Definition evil : bytes := to_bytes "evil!"%string.
Definition shared_buffer (n : nat) : bytes := if decide (n = 0%nat) then hello else evil.

Definition watz_start : world (@tee V) (watz toy_wamr) :=
  World (T := @tee V) toy_start (Watz _ 1024 0 false no_output 0%nat shared_buffer 0%nat []).

Abbreviation run_2021 := (WatzTA2021.TA_RunWasm (T := V) (R := toy_wamr) 5 None (zeros 16) 16).
Abbreviation run_241 :=
  (WatzTA241.TA_RunWasm (T := V) (R := toy_wamr) false false 5 None (zeros 16) 16).

Lemma run_wasm_2021_witness :
  wp only_panic run_2021 (fun res w' => exists writes events,
    lifecycle hello res writes events /\ trace (w_ctx w') = events) watz_start.
Proof.
  eapply wp_mono; [apply (run_wasm_2021 (T := V) (R := toy_wamr) 5 None (zeros 16) watz_start hello)|].
  - reflexivity.
  - reflexivity.
  - exact toy_heap.
  - exact toy_application.
  - intros res w' (writes & events & Hl & [[Ht _ _ _ _] _]). exists writes, events.
    split; [exact Hl|exact Ht].
Defined.


Lemma invoke_bad_parameters_241_witness :
  WatzTA241.TA_InvokeCommandEntryPoint (T := V) (R := toy_wamr) false false 9 no_params []
    watz_start = Ret (TEE_ERROR_BAD_PARAMETERS, watz_start).
Proof. apply (invoke_bad_parameters_241 (T := V) (R := toy_wamr)). discriminate. Defined.

(** The same normal world runs its first module in the 2021 version and its
    second one in the 2.4.1 version, although both copied the first. *)
Example bytecode_swapped_after_copy :
  result run_2021 watz_start = Some TEE_SUCCESS /\
  out_text (out (w_ctx (after run_2021 watz_start))) = hello /\
  result run_241 watz_start = Some TEE_SUCCESS /\
  out_text (out (w_ctx (after run_241 watz_start))) = evil.
Proof. repeat split; evaluate. Qed.

(** ** Native functions *)

(** An encryption that needs a key but keeps the text. *)
#[local] Instance toy_asymmetric : TEE_Asymmetric V := {|
  TEE_GetObjectInfo1 h (t : @tee V) := Some ((TEE_SUCCESS, 2048), t);
  TEE_AsymmetricEncrypt h d cap := on_op h (fun p t => (match p_key p with
    | Some _ => fill d cap
    | None => no_data TEE_ERROR_BAD_STATE
    end, t));
  TEE_AsymmetricDecrypt h c cap := on_op h (fun p t => (match p_key p with
    | Some _ => fill c cap
    | None => no_data TEE_ERROR_BAD_STATE
    end, t))
|}.

#[local] Program Instance toy_asymmetric_spec :
  Asymmetric_Spec V toy_crypto (toy_spec no_peer) toy_asymmetric := {|
  rsa_decrypt _ c := Some c
|}.
Next Obligation. cbn. by intros h t r t' [= <- <-]. Qed.
Next Obligation.
  cbn. unfold on_op. intros h d cap t r t' (p & Hp & [= <- <-])%bind_Some Hs.
  destruct (p_key p) as [o|] eqn:Ho; [|done].
  destruct (fill_success _ _ Hs) as [E L]. rewrite E. by exists p, o.
Qed.
Next Obligation.
  cbn. unfold on_op. intros h d cap t r t' (p & Hp & [= <- <-])%bind_Some Hs.
  destruct (p_key p) as [o|] eqn:Ho; [|done].
  destruct (fill_success _ _ Hs) as [E L]. rewrite E. by exists p, o.
Qed.

Abbreviation generate := (Host_GenerateKey (T := V) 2048).
Definition keyed_world : world (@tee V) () := after generate clock.
Abbreviation encrypt := (Host_Encrypt (T := V) 1 (hello ++ [Byte.x00]) (zeros 8) 8).
Abbreviation decrypt := (Host_Decrypt (T := V) 1 hello (zeros 8) 8).
Definition encrypted_world : world (@tee V) () := after encrypt keyed_world.

Lemma host_encrypt_decrypt_witness :
  c_string (hello ++ [Byte.x00]) =
    bread (fst (returned2 decrypt encrypted_world [] 0))
      (snd (returned2 decrypt encrypted_world [] 0)).
Proof.
  assert (encrypt keyed_world = Ret ((TEE_SUCCESS, fst (returned2 encrypt keyed_world [] 0),
    snd (returned2 encrypt keyed_world [] 0)), encrypted_world)) as He
    by (refine (succeeds_triple encrypt keyed_world [] 0 _); evaluate).
  assert (decrypt encrypted_world = Ret ((TEE_SUCCESS,
    fst (returned2 decrypt encrypted_world [] 0), snd (returned2 decrypt encrypted_world [] 0)),
    after decrypt encrypted_world)) as Hd
    by (refine (succeeds_triple decrypt encrypted_world [] 0 _); evaluate).
  assert (bread (fst (returned2 encrypt keyed_world [] 0))
    (snd (returned2 encrypt keyed_world [] 0)) = Some hello) as Hc by evaluate.
  destruct (host_encrypt_decrypt (T := V) 1 (hello ++ [Byte.x00]) (zeros 8) 8 keyed_world _ _
    encrypted_world (zeros 8) 8 _ _ _ hello He Hc Hd) as [H _]. exact H.
Defined.

(** ** The client library and the verifier's host program *)

(** A client library that holds the trusted application, unless it died. *)
Definition TEE_ERROR_TARGET_DEAD : TEE_Result := TEE_OTHER 0xFFFF3024.

Abbreviation verifier_ta := (TA_InvokeCommandEntryPoint (T := V) 0).

#[local] Instance toy_teec : TEEC := {|
  teec := option (world (@tee V) ra_context_verifier);
  TEEC_InitializeContext t := (TEE_SUCCESS, t);
  TEEC_OpenSession _ t := (TEE_SUCCESS, t);
  TEEC_InvokeCommand cmd types ps t :=
    match t, ps with
    | Some w, [_; _; _; _] =>
        match verifier_ta cmd types ps w with
        | Ret ((res, ps'), w') => ((res, ps'), Some w')
        | Fault _ => ((TEE_ERROR_TARGET_DEAD, ps), None)
        end
    | _, _ => ((TEE_ERROR_TARGET_DEAD, ps), t)
    end;
  TEEC_CloseSession t := t;
  TEEC_FinalizeContext t := t
|}.

#[local] Program Instance toy_link :
  TEEC_Link toy_teec (world (@tee V) ra_context_verifier) verifier_ta := {|
  ta_state t := t
|}.
Next Obligation.
  intros cmd types ps t ps' t'. cbn.
  destruct t as [w|]; [|done]. destruct ps as [|p0 [|p1 [|p2 [|p3 [|]]]]]; try done.
  destruct (verifier_ta cmd types [p0; p1; p2; p3] w) as [[[res qs] w']|] eqn:Hrun; [|done].
  intros [= -> <- <-]. exists [p0; p1; p2; p3], w, w'. split; [|by repeat split].
  destruct types as [[[t0 t1] t2] t3]. repeat constructor.
Qed.

(** A secret that is long enough for the connection's buffer, and an attester
    that sends [msg0] and [msg2]. *)
Definition long_secret : bytes := replicate 300 Byte.x41.
Definition v_long : world (@tee V) ra_context_verifier :=
  after (verifier_ta VERIFIER_COMMAND_BOOTSTRAP_SECRET types0
    [PMemref long_secret; PNone; PNone; PNone]) v_open.

Lemma reachable_v_long : reachable v_long.
Proof. apply reachable_command; [exact reachable_v_open|evaluate]. Qed.

Definition network : host_env :=
  HostEnv (Attester.msg0 (w_ctx a_session) ++ Attester.msg2 (w_ctx a_sent)) [72; 1000]%nat [] []
    (fun _ => Byte.x00) (fun _ => None) 3 0 0 4.

Definition host_start : host_state (@teec toy_teec) :=
  HostState (X := @teec toy_teec) (Some v_long) network [] [].

Lemma ta_host_start : ta (T := V) (L := toy_teec) 0 host_start v_long.
Proof. split; [reflexivity|exact reachable_v_long]. Qed.

Lemma secret_sent_after_appraisal_witness :
  hwlp (handle_connection (L := toy_teec) 4 300)
    (fun _ s' => released (T := V) (L := toy_teec) host_start s')
    (given_up (T := V) (L := toy_teec) host_start) host_start.
Proof.
  exact (secret_sent_after_appraisal (T := V) (L := toy_teec) 0 4 300 host_start v_long
    ta_host_start).
Defined.

Lemma default_secret_never_served_witness :
  hwlp (handle_connection (L := toy_teec) 8 (zlen SECRET_DATA)) (fun _ _ => False)
    (unsent (L := toy_teec) host_start) host_start.
Proof.
  exact (default_secret_never_served (T := V) (L := toy_teec) 0 8 host_start v_long
    ta_host_start (or_intror eq_refl)).
Defined.

(** The connection with the long secret ends, and 224 bytes of [msg1] and the
    368 bytes of the buffer with [msg3] were sent. *)
Example long_secret_served :
  match handle_connection (L := toy_teec) 4 300 host_start with
  | HRet _ s => length (h_sent s) = 592%nat
  | _ => False
  end.
Proof.
  assert (match handle_connection (L := toy_teec) 4 300 host_start with
  | HRet _ s => bool_decide (length (h_sent s) = 592%nat)
  | _ => false
  end = true) as Ht by evaluate.
  destruct (handle_connection _ _ _); try discriminate Ht.
  by apply bool_decide_eq_true_1 in Ht.
Qed.
